(* ===== verification/_CoqProject ===== *)
-Q . S2P
Prelude.v
CMem.v
Tcpip.v
DhcpOpts.v
Malloc.v
Umalloc.v
Bitmap.v
Retry.v
Interface.v
Fragment.v
Ipv4.v
Udp.v
Strings.v
Getopt.v
Exec.v
Script.v
Dns.v
DnsRequest.v
DhcpEncap.v
DhcpPkt.v
Dhcp.v
DhcpTx.v
Vsprintf.v
Encoding.v
Inet.v
Uri.v
UriRoundtrip.v
XferBuf.v
Tftp.v
TftpDownload.v
Downloader.v
Tcp.v
TcpRx.v
TcpTx.v
TcpState.v
Scsi.v
Iscsi.v
IscsiRx.v
IscsiRead.v
IscsiWrite.v
IscsiLogin.v
IscsiOpen.v
BigInt.v
Time.v
Asn1.v
Primes.v
Rsa.v
Linebuf.v
Http.v
HttpRx.v
HttpGet.v
Arp.v
ArpCache.v
