(* ===== verification/Prelude.v ===== *)
(** * Verification of the iPXE boot firmware shipped with MKYBOOT

    MKYBOOT boots diskless machines over the network.  The C code that runs on
    those machines is the boot firmware under src/src/ipxe/src; the paths below
    are relative to it.  A machine obtains an address by DHCP, resolves the URI
    of a boot file, downloads it by TFTP over UDP or by a protocol over TCP
    into the memory of an image, and executes the image, which reads and writes
    its disk by iSCSI.  This library models that path: from bytes, strings and
    memory at the bottom, over the IPv4 stack with its timers, to transfers
    that end in an image and to blocks of a disk.

    ** Conventions

    A [w]-bit unsigned integer is a [Z] and every operation that can overflow
    is wrapped with [wrap w]; [sext] is the conversion to a signed type.  Bytes
    are [Z]s below 256, buffers are lists of bytes or, where the code computes
    with addresses, a memory [mem] from addresses to bytes (CMem).  A function
    that returns a value or a negative error number returns a [result].  The
    state of a component is a record, its handlers pass it explicitly, and
    what it calls outside the modelled files is a type class (TcpEnv, TftpEnv,
    Ipv4Env, UdpEnv, IscsiEnv) or a section variable, over an arbitrary type of worlds.
    What a theorem needs of such a parameter is a class of laws or a named
    hypothesis (Recipient, FragmentKey, DiscardOk, HeapOk, SocketOk,
    realloc_contract), and instances discharge them.  Loops that are not structural carry fuel, with
    [None] for exhausted fuel: the theorems state a bound that suffices, or
    that the call returns.  Debug messages, profiling, Valgrind annotations
    and (except in Retry and Interface) reference counts are left out.

    ** Files

    Foundations:
    - Prelude: machine integers, errors, tactics and hints; CMem: memory,
      byte orders, what the C library promises of realloc.
    - Strings (core/string.c, include/ctype.h), Vsprintf (core/vsprintf.c),
      Encoding (core/base16.c, core/base64.c), Inet (inet_aton, inet_ntoa of
      net/ipv4.c).
    - Malloc (core/malloc.c): the heap, whose free list is a list of address
      and size pairs; Umalloc (arch/x86/interface/pcbios/memtop_umalloc.c):
      external memory; Bitmap (core/bitmap.c).
    - Retry (net/retry.c, core/refcnt.c): retransmission timers; Interface
      (core/interface.c): the interfaces through which objects call each
      other, with the reference counts.

    - Getopt (core/getopt.c, core/parseopt.c): command line options; Exec
      (core/exec.c): command lines; Script (image/script.c): scripts and goto.

    Network stack:
    - Tcpip (net/tcpip.c): checksums, port binding, dispatch; Fragment
      (net/fragment.c); Ipv4 (net/ipv4.c): routes, transmission, reception;
      Udp (net/udp.c); Arp, with its theorems in ArpCache (net/neighbour.c,
      net/arp.c): the neighbour cache and ARP.
    - Tcp, with its theorems in TcpRx, TcpTx and TcpState (net/tcp.c).
    - DhcpOpts, with encapsulated options in DhcpEncap (net/dhcpopts.c): blocks
      of DHCP options; DhcpPkt (net/dhcppkt.c): packets; Dhcp, with the theorems
      on requests and on exchanges in DhcpTx (net/udp/dhcp.c): the DHCP session.
    - Dns and DnsRequest (net/udp/dns.c): encoded names, and requests.

    Transfers:
    - Uri, with its theorems in UriRoundtrip (core/uri.c, core/basename.c).
    - XferBuf (core/xferbuf.c, core/xfer.c): data transfer buffers.
    - Tftp (net/udp/tftp.c), with its theorems in TftpDownload; Downloader
      (core/downloader.c), the recipient of a download.
    - Linebuf (core/linebuf.c) and Http (net/tcp/httpcore.c, httpauth.c,
      httpbasic.c, httpdigest.c): requests, response headers, transfer
      encodings, redirection and authentication; reception in HttpRx, and the
      exchange from the request to the content in HttpGet.

    Disks:
    - Scsi (drivers/block/scsi.c): SCSI devices and commands.  A handler that
      calls the transport in the middle is a program of such calls, which the
      transport interprets.
    - Iscsi (net/tcp/iscsi.c, crypto/chap.c): the session; reception in
      IscsiRx, reads and writes in IscsiRead and IscsiWrite, executions of the
      login in IscsiLogin, root paths and opening in IscsiOpen.

    Keys:
    - BigInt (crypto/bigint.c, arch/x86/core/x86_bigint.c and
      arch/x86/include/bits/bigint.h): big integers; Asn1 (crypto/asn1.c):
      cursors and builders; Time (core/time.c): the times of certificates; Rsa
      (crypto/rsa.c, crypto/random_nz.c): keys, encryption and signatures, with
      the number theory in Primes.

    ** What the theorems show

    - Downloads: a TFTP request into an image that succeeds leaves the image
      equal to the file, for a server that ignores the options and sends the
      blocks of a file that is not empty, in any order within a run of 2^16
      block numbers, with duplicates, errors, strangers and timeouts, and it
      does succeed when all blocks arrive (Downloader, TftpDownload); a delivery
      to a buffer is readable and disturbs nothing, or fails without effect
      (XferBuf).  An HTTP request is sent in full, a response in any segments
      gives its recipient the content, and one that announces its length or its
      chunks and is cut off is an error (HttpGet).
    - Datagrams: what UDP sends through IPv4 is what UDP delivers at the other
      end, with all checksums and lengths accepted (Udp); fragments are put
      together independently of what else arrives (Ipv4, Fragment); the
      checksum is the one's complement sum and verifies (Tcpip).
    - Neighbours: packets that wait for a link-layer address leave in order and
      only to an announced address, and ARP finds the address (ArpCache).
    - TCP: received segments in any order deliver the stream once and in order
      (TcpRx); acknowledgements remove what they acknowledge, and transmitted
      segments parse back, but for a SYN with selective acknowledgements
      (TcpTx); the connection stays in the states of the diagram and one more
      that the diagram does not name, and reception returns (TcpState).
    - Memory: the heap's invariant, allocation, freeing and resizing, and their
      round trip (Malloc); resizing of external memory, with virtual and
      physical addresses (Umalloc).
    - Options and text: an option block refines a list of options (DhcpOpts);
      printing and parsing of well-formed URIs, addresses, numbers, Base16 and
      Base64 are inverse; snprintf stays inside its buffer (UriRoundtrip, Inet, Vsprintf,
      Encoding, Strings).
    - Addresses: a DHCP session takes a lease only from an acknowledgement of
      its own transaction, with the address of the best offer before it turned
      to requesting; an exchange with a server sends what it should and
      completes, a session never waits without a timer, and requests and
      packets read back as they were written (Dhcp, DhcpTx, DhcpPkt).
    - Names: decoding, comparing and encoding of compressed DNS names (Dns); a
      DNS request resolves to an address of the response for its name, sends
      only queries, and never waits without a timer (DnsRequest).
    - Timers: the list of timers and the references they hold are consistent
      in every reachable state (Retry).
    - Scripts: a script runs its logical lines, goto continues at its label, a
      command line is the expression that it denotes, and options are parsed
      as they were written, against specifications that share nothing with the
      parsers (Script, Exec, Getopt).
    - Objects: closing connections, with close methods that connect nothing
      new, ends and leaves exact reference counts without use after free
      (Interface).
    - Disks: a block read asks the target for the blocks and fills the buffer
      with what it sends, in whatever segments it arrives, and data to be
      written is sent in PDUs of at most 512 bytes as the target asks for it
      (IscsiRead, IscsiWrite); a session that is to authenticate the target
      sends commands only after the target has answered the challenge of the
      session with its secret, as long as nothing is written outside an object
      and PDUs arrive whole, and root paths parse as they are
      written (IscsiOpen); the capacity is the target's, and waiting for a
      device ends (Scsi).
    - Keys: parsing stays inside its cursor and reads what was built (Asn1);
      modular exponentiation is the power (BigInt); decryption undoes
      encryption, signatures verify, and verification accepts nothing but the
      encoded digest (Rsa); seconds are those of the calendar (Time).
    - Counterexamples: where the code does not do what it means to, an
      execution of the model shows it: writes outside the TFTP block bitmap,
      memory handed out twice by the external allocator, SYN and FIN to be sent
      together, reads past an encapsulated DHCP option and past a short DHCP
      packet, CNAME answers that are not used, a challenge that was never sent
      and a header overrun in iSCSI, an RSA modulus that is too short for its
      padding, a digest that is sent again without its realm, and others listed
      as findings.

    ** Bounds

    Sizes and counters have the width of a 64-bit build, except in Umalloc,
    which is the 32-bit BIOS build, where addresses are translated by an
    offset.  Reference counters are unbounded: a counter of the source is an
    int, which 2^31 references would overflow.  Downloads are of files below 2^32 bytes;
    completion is proved while block numbers do not wrap, correctness also
    across wraps.  TCP sequence numbers wrap.

    ** Not modelled

    Device drivers and the interfaces to BIOS and EFI, because the behaviour of
    the hardware and of the firmware is not part of this repository; ciphers
    and digests, which have no specification here other than their code;
    the Fibre Channel, Infiniband and 802.11 stacks, which the boot path does
    not use; consoles and menus, which are input and output; the server and
    the launcher, which are not written in C; TLS and certificate validation,
    which rest on the ciphers and digests; settings, whose values are arguments
    of the models that read them; the link layer, which is a parameter of Ipv4
    and Arp; the pool of HTTP connections, whose operations are
    parameters of Http; IPv6, which the boot path does not use. *)

From stdpp Require Export base tactics list numbers.
From stdpp Require Export relations.
From Stdlib Require Export ZArith Lia.
#[global] Open Scope Z_scope.

(** ** Machine integers

    An unsigned [w]-bit C object holds [wrap w z]; [sext w z] is the value a
    signed [w]-bit object holds after a conversion from [z]. *)

Definition wrap (w z : Z) : Z := z `mod` 2 ^ w.
Definition sext (w z : Z) : Z := (z + 2 ^ (w - 1)) `mod` 2 ^ w - 2 ^ (w - 1).

Abbreviation u8 := (wrap 8).
Abbreviation u16 := (wrap 16).
Abbreviation u32 := (wrap 32).
Abbreviation u64 := (wrap 64).
Abbreviation s32 := (sext 32).
Abbreviation s64 := (sext 64).

Definition in_width (w z : Z) : Prop := 0 <= z < 2 ^ w.
Abbreviation is_byte := (in_width 8).
Abbreviation bytes := (Forall (in_width 8)).

#[export] Instance in_width_dec w z : Decision (in_width w z).
Proof. unfold in_width. apply _. Defined.

(** ** Error numbers and results

    A C function returning "a value or a negative error number" returns a
    [result]; [rc < 0] in the source is the [Err] case. *)

Inductive errno :=
  | EACCES | EADDRINUSE | EAFNOSUPPORT | EAGAIN | ECANCELED | ECONNABORTED | ECONNRESET | EINVAL | EIO
  | ELOOP | ENODEV | ENXIO | EOPNOTSUPP
  | EEXIST | ENETUNREACH | ENOBUFS | ENOENT | ENOEXEC | ENOMEM | ENOSPC | ENOTCONN | ENOTSUP | ENOTTY
  | EOVERFLOW | EPERM | EPIPE | EPROTO | EPROTONOSUPPORT | ERANGE | ETIMEDOUT | EXDEV.

#[export] Instance errno_eq_dec : EqDecision errno.
Proof. solve_decision. Defined.

Inductive result (A : Type) : Type :=
  | Ok (a : A)
  | Err (e : errno).
Arguments Ok {A} a.
Arguments Err {A} e.

#[export] Instance result_eq_dec `{EqDecision A} : EqDecision (result A).
Proof. solve_decision. Defined.

Definition is_Ok {A} (r : result A) : bool :=
  match r with Ok _ => true | Err _ => false end.

Definition result_bind {A B} (r : result A) (f : A -> result B) : result B :=
  match r with Ok a => f a | Err e => Err e end.

Declare Scope ipxe_scope.
Delimit Scope ipxe_scope with ipxe.
Notation "'let*' x ':=' r 'in' k" := (result_bind r (fun x => k))
  (at level 10, x pattern, r at level 100, k at level 200) : ipxe_scope.
#[global] Open Scope ipxe_scope.

(** ** Proof automation *)

Create HintDb ipxe.

(** [cases] splits on every [decide] and boolean test of the goal. *)
Ltac cases :=
  repeat (case_decide || case_match); simplify_eq/=.

Ltac zlia := unfold in_width in *; lia.

(** [pow2] evaluates the powers of two that occur with literal exponents. *)
Ltac pow2 :=
  change (2 ^ 8) with 256 in *; change (2 ^ 16) with 65536 in *;
  change (2 ^ 32) with 4294967296 in *;
  change (2 ^ 64) with 18446744073709551616 in *.

(** ** Lemmas on machine integers *)

Lemma wrap_bound w z : 0 <= w -> in_width w (wrap w z).
Proof. intros. unfold in_width, wrap. apply Z.mod_pos_bound. lia. Qed.

Lemma wrap_small w z : in_width w z -> wrap w z = z.
Proof. unfold in_width, wrap. intros. by apply Z.mod_small. Qed.

Lemma wrap_wrap w z : wrap w (wrap w z) = wrap w z.
Proof. unfold wrap. apply Zmod_mod. Qed.

Lemma sext_small w z : 0 < w -> - 2 ^ (w - 1) <= z < 2 ^ (w - 1) -> sext w z = z.
Proof.
  intros Hw Hz. unfold sext.
  assert (2 ^ w = 2 * 2 ^ (w - 1)) as E.
  { rewrite <- Z.pow_succ_r by lia. f_equal. lia. }
  rewrite Z.mod_small by lia. lia.
Qed.

Lemma in_width_le w1 w2 z : 0 <= w1 <= w2 -> in_width w1 z -> in_width w2 z.
Proof.
  unfold in_width. intros ? [? ?]. split; [done|].
  eapply Z.lt_le_trans; [done|]. apply Z.pow_le_mono_r; lia.
Qed.

#[export] Hint Resolve wrap_bound wrap_small : ipxe.

(** Clearing the low [k] bits rounds down to a multiple of [2 ^ k]. *)
Lemma land_lnot_ones a k : 0 <= k -> Z.land a (Z.lnot (Z.ones k)) = a - a `mod` 2 ^ k.
Proof.
  intros Hk. rewrite <- Z.ldiff_land, Z.ldiff_ones_r by done.
  rewrite Z.shiftl_mul_pow2, Z.shiftr_div_pow2 by done.
  pose proof (Z.div_mod a (2 ^ k)). lia.
Qed.

Lemma land_ones_mod a k : 0 <= k -> Z.land a (2 ^ k - 1) = a `mod` 2 ^ k.
Proof. intros. rewrite <- Z.land_ones by done. by rewrite Z.ones_equiv, Z.sub_1_r. Qed.

(** Joining a high part and a low part below [2 ^ k] with [|]. *)
Lemma lor_shiftl_add a b k :
  0 <= k -> 0 <= b < 2 ^ k -> Z.lor (Z.shiftl a k) b = a * 2 ^ k + b.
Proof.
  intros Hk Hb. assert (Z.land (Z.shiftl a k) b = 0) as E.
  { apply Z.bits_inj'. intros n Hn. rewrite Z.land_spec, Z.bits_0.
    destruct (decide (n < k)).
    - by rewrite Z.shiftl_spec_low.
    - rewrite <- (Z.mod_small b (2 ^ k)) by done.
      rewrite Z.mod_pow2_bits_high by lia. apply andb_false_r. }
  rewrite <- Z.lxor_lor, <- Z.add_nocarry_lxor by done.
  by rewrite Z.shiftl_mul_pow2.
Qed.

(** The bits [k .. k+n-1] of [a], masked in place. *)
Lemma shiftr_land_mask a k n :
  0 <= k -> 0 <= n -> Z.shiftr (Z.land a (Z.shiftl (Z.ones n) k)) k = (a / 2 ^ k) `mod` 2 ^ n.
Proof.
  intros Hk Hn. rewrite Z.shiftr_land, Z.shiftr_shiftl_l, Z.sub_diag, Z.shiftl_0_r by lia.
  by rewrite Z.land_ones, Z.shiftr_div_pow2.
Qed.

Lemma land_pow2_testbit a k : 0 <= k -> Z.land a (2 ^ k) = if Z.testbit a k then 2 ^ k else 0.
Proof.
  intros Hk. apply Z.bits_inj'. intros n Hn. rewrite Z.land_spec, Z.pow2_bits_eqb by done.
  destruct (Z.eqb_spec k n) as [<-|Hne].
  - destruct (Z.testbit a k); [by rewrite Z.pow2_bits_true|by rewrite Z.bits_0].
  - rewrite andb_false_r. destruct (Z.testbit a k); [by rewrite Z.pow2_bits_false|by rewrite Z.bits_0].
Qed.

Lemma lor_in_width w a b : 0 <= w -> in_width w a -> in_width w b -> Z.lor a b < 2 ^ w.
Proof.
  intros Hw [Ha1 Ha2] [Hb1 Hb2]. destruct (decide (Z.lor a b = 0)) as [->|Hne]; [by apply Z.pow_pos_nonneg|].
  assert (0 <= Z.lor a b) by (by apply Z.lor_nonneg).
  apply Z.log2_lt_pow2; [lia|]. rewrite Z.log2_lor by done.
  apply Z.max_lub_lt.
  - destruct (decide (a = 0)) as [->|]; [|apply Z.log2_lt_pow2; lia].
    simpl. destruct (decide (w = 0)) as [->|]; [|lia]. exfalso. apply Hne. simpl in *. by replace b with 0 by lia.
  - destruct (decide (b = 0)) as [->|]; [|apply Z.log2_lt_pow2; lia].
    simpl. destruct (decide (w = 0)) as [->|]; [|lia]. exfalso. apply Hne. simpl in *. by replace a with 0 by lia.
Qed.

(** ** Bytes *)

(** Decides a statement about every byte by evaluation. *)
Lemma all_bytes (P : Z -> bool) :
  forallb P (map Z.of_nat (seq 0 256)) = true -> forall v, is_byte v -> P v = true.
Proof.
  intros Ha v Hv. rewrite forallb_forall in Ha. apply Ha. apply in_map_iff. exists (Z.to_nat v). split; [zlia|].
  apply in_seq. zlia.
Qed.
