(* ===== verification/CMem.v ===== *)
(** * C memory blocks

    The bytes that follow a [void *] are a function from offsets to byte
    values, so that a read past the end of an object is a read of whatever
    lies there and not an invented value.  [memcpy], [memmove] and [memset]
    are the string operations of the C library on such a block; [mload] reads
    a run of bytes as a list. *)

From S2P Require Import Prelude.

Definition mem := Z -> Z.

Definition mset (m : mem) (a v : Z) : mem :=
  fun x => if decide (x = a) then v else m x.

Definition memcpy (m : mem) (dest : Z) (src : list Z) : mem :=
  fun x => if decide (dest <= x < dest + Z.of_nat (length src))
           then nth (Z.to_nat (x - dest)) src 0 else m x.

Definition memmove (m : mem) (dest src n : Z) : mem :=
  fun x => if decide (dest <= x < dest + n) then m (x - dest + src) else m x.

Definition memset (m : mem) (dest v n : Z) : mem :=
  fun x => if decide (dest <= x < dest + n) then v else m x.

Fixpoint mload (m : mem) (a : Z) (n : nat) : list Z :=
  match n with
  | O => []
  | S n => m a :: mload m (a + 1) n
  end.

Definition mem_ok (m : mem) : Prop := forall x, is_byte (m x).

(** A block holding a given list of bytes and zeroes around it. *)
Definition mem_of (l : list Z) : mem := memcpy (fun _ => 0) 0 l.

(** Big-endian header fields. *)
Definition be16 (v : Z) : list Z := [u8 (Z.shiftr v 8); u8 v].
Definition be32 (v : Z) : list Z := [u8 (Z.shiftr v 24); u8 (Z.shiftr v 16); u8 (Z.shiftr v 8); u8 v].
Definition get8 (l : list Z) (i : nat) : Z := nth i l 0.
Definition get16 (l : list Z) (i : nat) : Z := get8 l i * 2 ^ 8 + get8 l (i + 1).
Definition get32 (l : list Z) (i : nat) : Z :=
  get8 l i * 2 ^ 24 + get8 l (i + 1) * 2 ^ 16 + get8 l (i + 2) * 2 ^ 8 + get8 l (i + 3).

Lemma mload_length m a n : length (mload m a n) = n.
Proof. revert a. induction n; intros; simpl; auto. Qed.

Lemma mload_app m a n1 n2 : mload m a (n1 + n2) = mload m a n1 ++ mload m (a + Z.of_nat n1) n2.
Proof.
  revert a. induction n1 as [|n1 IH]; intros a; simpl; [by rewrite Z.add_0_r|].
  rewrite IH. do 3 f_equal. lia.
Qed.

Lemma mload_ext m1 m2 a n :
  (forall x, a <= x < a + Z.of_nat n -> m1 x = m2 x) -> mload m1 a n = mload m2 a n.
Proof.
  revert a. induction n as [|n IH]; intros a H; simpl; [done|].
  rewrite (H a) by lia. f_equal. apply IH. intros x Hx. apply H. lia.
Qed.

Lemma mload_shift m1 m2 a b n :
  (forall i, 0 <= i < Z.of_nat n -> m1 (a + i) = m2 (b + i)) -> mload m1 a n = mload m2 b n.
Proof.
  revert a b. induction n as [|n IH]; intros a b H; simpl; [done|].
  pose proof (H 0) as H0. rewrite !Z.add_0_r in H0. rewrite H0 by lia. f_equal.
  apply IH. intros i Hi. rewrite <- !Z.add_assoc. apply H. lia.
Qed.

Lemma mload_memcpy m a l : mload (memcpy m a l) a (length l) = l.
Proof.
  revert m a. induction l as [|v l IH]; intros m a; cbn [length mload]; [done|].
  f_equal.
  - unfold memcpy. rewrite decide_True by (simpl; lia). by rewrite Z.sub_diag.
  - etransitivity; [|apply (IH m (a + 1))]. apply mload_ext. intros x Hx. unfold memcpy. cbn [length].
    rewrite !decide_True by lia. replace (Z.to_nat (x - a)) with (S (Z.to_nat (x - (a + 1)))) by lia. done.
Qed.

(** Writes that do not touch a run. *)
Lemma mload_memcpy_outside m a l b n :
  b + Z.of_nat n <= a \/ a + Z.of_nat (length l) <= b -> mload (memcpy m a l) b n = mload m b n.
Proof. intros Ha. apply mload_ext. intros x Hx. unfold memcpy. by rewrite decide_False by lia. Qed.

Lemma mload_mset_outside m a v b n : ~ (b <= a < b + Z.of_nat n) -> mload (mset m a v) b n = mload m b n.
Proof. intros Ha. apply mload_ext. intros x Hx. unfold mset. by rewrite decide_False by lia. Qed.

Lemma mload_memset m a v n b k :
  a <= b -> b + Z.of_nat k <= a + n -> mload (memset m a v n) b k = replicate k v.
Proof.
  revert b. induction k as [|k IH]; intros b Ha Hn; [done|]. cbn [mload replicate]. f_equal; [|apply IH; lia].
  unfold memset. by rewrite decide_True by lia.
Qed.

Lemma mload_memmove m dest src n : mload (memmove m dest src (Z.of_nat n)) dest n = mload m src n.
Proof.
  apply mload_shift. intros i Hi. unfold memmove. rewrite decide_True by lia. f_equal. lia.
Qed.

(** Reading one byte, or a suffix, of a run that is known as a list. *)
Lemma mload_split m a n l1 l2 :
  mload m a n = l1 ++ l2 ->
  mload m a (length l1) = l1 /\ mload m (a + Z.of_nat (length l1)) (length l2) = l2.
Proof.
  intros H. assert (n = length l1 + length l2)%nat as -> by (by rewrite <- length_app, <- H, mload_length).
  rewrite mload_app in H. apply app_inj_1 in H; [done|apply mload_length].
Qed.

Lemma mload_cons m a n v l :
  mload m a n = v :: l -> m a = v /\ mload m (a + 1) (length l) = l.
Proof. intros H. apply (mload_split _ _ _ [v]) in H as [H1 H2]. simpl in H1. by simplify_eq. Qed.

Lemma mload_lookup m a n i : (i < n)%nat -> mload m a n !! i = Some (m (a + Z.of_nat i)).
Proof.
  revert a i. induction n as [|n IH]; intros a i Hi; [lia|]. destruct i as [|i]; simpl.
  - by rewrite Z.add_0_r.
  - rewrite IH by lia. do 2 f_equal. lia.
Qed.

Lemma mem_of_ok l : bytes l -> mem_ok (mem_of l).
Proof.
  intros Hl x. unfold mem_of, memcpy. case_decide as Hx; [|done].
  rewrite Forall_forall in Hl. apply Hl, list_elem_of_In, nth_In. lia.
Qed.

Lemma be16_value v : in_width 16 v -> u8 (Z.shiftr v 8) * 2 ^ 8 + u8 v = v.
Proof.
  intros Hv. rewrite Z.shiftr_div_pow2 by lia. unfold wrap.
  rewrite (Z.mod_small (v / 2 ^ 8)) by (split; [apply Z.div_pos|apply Z.div_lt_upper_bound]; zlia).
  pose proof (Z.div_mod v (2 ^ 8)). lia.
Qed.

Lemma be16_wrap v : u8 (Z.shiftr v 8) * 2 ^ 8 + u8 v = u16 v.
Proof.
  unfold wrap. rewrite Z.shiftr_div_pow2 by lia. pose proof (Z.div_mod v (2 ^ 8)). pose proof (Z.div_mod (v / 2 ^ 8) (2 ^ 8)).
  pose proof (Z.mod_pos_bound v (2 ^ 8)). pose proof (Z.mod_pos_bound (v / 2 ^ 8) (2 ^ 8)).
  apply (Z.mod_unique_pos _ _ (v / 2 ^ 8 / 2 ^ 8)); lia.
Qed.

Lemma be32_value v :
  in_width 32 v -> u8 (Z.shiftr v 24) * 2 ^ 24 + u8 (Z.shiftr v 16) * 2 ^ 16 + u8 (Z.shiftr v 8) * 2 ^ 8 + u8 v = v.
Proof.
  intros Hv. rewrite !Z.shiftr_div_pow2 by lia. unfold wrap.
  rewrite (Z.mod_small (v / 2 ^ 24)) by (split; [apply Z.div_pos|apply Z.div_lt_upper_bound]; zlia).
  assert (v / 2 ^ 16 = 2 ^ 8 * (v / 2 ^ 24) + (v / 2 ^ 16) `mod` 2 ^ 8) as E1.
  { pose proof (Z.div_mod (v / 2 ^ 16) (2 ^ 8) ltac:(lia)) as D. rewrite Z.div_div in D by lia. exact D. }
  assert (v / 2 ^ 8 = 2 ^ 8 * (v / 2 ^ 16) + (v / 2 ^ 8) `mod` 2 ^ 8) as E2.
  { pose proof (Z.div_mod (v / 2 ^ 8) (2 ^ 8) ltac:(lia)) as D. rewrite Z.div_div in D by lia. exact D. }
  pose proof (Z.div_mod v (2 ^ 8)). lia.
Qed.

Lemma be_bytes v : bytes (be16 v) /\ bytes (be32 v).
Proof. split; repeat constructor; by apply wrap_bound. Qed.

(** Overwriting the middle of a list. *)
Lemma inserts_middle (h x y rest : list Z) : length x = length y -> list_inserts (length h) y (h ++ x ++ rest) = h ++ y ++ rest.
Proof.
  intros Hl. replace (length h) with (length h + 0)%nat by lia. rewrite list_inserts_app_r. f_equal.
  revert x Hl. induction y as [|b y IH]; intros [|a x] Hl; try done. cbn [list_inserts app].
  rewrite <- (IH x) by (simpl in Hl; lia). by rewrite list_inserts_cons.
Qed.

(** Little-endian numbers in memory. *)
Fixpoint le_bytes (n : nat) (v : Z) : list Z :=
  match n with
  | O => []
  | S n => v `mod` 256 :: le_bytes n (v / 256)
  end.

Fixpoint le_value (l : list Z) : Z :=
  match l with
  | [] => 0
  | b :: l => b + 256 * le_value l
  end.

Lemma le_bytes_length n v : length (le_bytes n v) = n.
Proof. revert v. induction n; intros; simpl; auto. Qed.

Lemma le_value_bytes n v : 0 <= v < 256 ^ Z.of_nat n -> le_value (le_bytes n v) = v.
Proof.
  revert v. induction n as [|n IH]; intros v Hv; cbn [le_bytes le_value]; [simpl in Hv; lia|].
  rewrite IH.
  - pose proof (Z.div_mod v 256). lia.
  - rewrite Nat2Z.inj_succ, Z.pow_succ_r in Hv by lia.
    split; [apply Z.div_pos; lia|apply Z.div_lt_upper_bound; lia].
Qed.

(** What the C library promises of [realloc] for an array of [w]-bit elements:
    the new array has the requested number of elements, and as much of the old
    contents as fits. *)
Definition realloc_contract (w : Z) (realloc : list Z -> Z -> option (list Z)) : Prop :=
  forall l n l', 0 <= n -> Forall (in_width w) l -> realloc l n = Some l' ->
    length l' = Z.to_nat n /\ Forall (in_width w) l' /\
    forall i, (i < length l)%nat -> (i < length l')%nat -> l' !! i = l !! i.

(** An implementation: fresh memory is filled with zero. *)
Definition zero_realloc (l : list Z) (n : Z) : option (list Z) :=
  Some (take (Z.to_nat n) l ++ replicate (Z.to_nat n - length l) 0).

Lemma zero_realloc_ok w : 0 <= w -> realloc_contract w zero_realloc.
Proof.
  intros Hw l n l' Hn Hl [= <-]. split_and!.
  - rewrite length_app, length_take, length_replicate. lia.
  - apply Forall_app. split; [by apply Forall_take|]. apply Forall_replicate. split; [done|]. by apply Z.pow_pos_nonneg.
  - intros i Hi Hi'. rewrite length_app, length_take, length_replicate in Hi'.
    rewrite lookup_app_l by (rewrite length_take; lia). by rewrite lookup_take_lt by lia.
Qed.
