(* ===== verification/Tcpip.v ===== *)
(** * TCP/IP common code (net/tcpip.c)

    The Internet checksum, the transport- and network-layer dispatch tables
    and the local port binder.  Bytes are [Z] values below 256; the checksum
    is the one a little-endian host (x86, ARM) computes. *)

From S2P Require Import Prelude.

(** ** Checksum *)

(** [__bswap_constant_16] of include/byteswap.h. *)
Definition bswap_16 (v : Z) : Z :=
  Z.lor (Z.shiftl (Z.land v 0x00ff) 8) (Z.shiftr (Z.land v 0xff00) 8).

(** Host byte order conversions on a little-endian host. *)
Definition be16_to_cpu (v : Z) : Z := bswap_16 v.
Definition le16_to_cpu (v : Z) : Z := u16 v.

Definition TCPIP_EMPTY_CSUM : Z := 0.

(** One iteration of the summing loop: byte number [i] has value [value]. *)
Definition chksum_step (i value cksum : Z) : Z :=
  let value := if decide (Z.land i 1 = 0) then le16_to_cpu value else be16_to_cpu value in
  let cksum := u32 (cksum + value) in
  if decide (cksum > 0xffff) then u32 (cksum - 0xffff) else cksum.

(** The index is a 32-bit integer in the source; the data that are summed are
    packets, far shorter than 2^32 bytes, so it is not wrapped here. *)
Fixpoint chksum_loop (i : Z) (data : list Z) (cksum : Z) : Z :=
  match data with
  | [] => cksum
  | value :: data => chksum_loop (i + 1) data (chksum_step i value cksum)
  end.

Definition generic_tcpip_continue_chksum (partial : Z) (data : list Z) : Z :=
  let cksum := Z.land (Z.lnot partial) 0xffff in
  u16 (Z.lnot (chksum_loop 0 data cksum)).

Definition tcpip_chksum (data : list Z) : Z :=
  generic_tcpip_continue_chksum TCPIP_EMPTY_CSUM data.

(** ** Local port binding *)

Definition TCPIP_BIND_PRIVILEGED : Z := 0x0400.

(** The port and the scope are kept in host byte order; [st_pad] is the rest of
    the address, which only the network protocol can read. *)
Record sockaddr_tcpip := SockaddrTcpip {
  st_family : Z;
  st_flags : Z;
  st_port : Z;
  st_scope_id : Z;
  st_pad : list Z;
}.

#[export] Instance sockaddr_tcpip_eq_dec : EqDecision sockaddr_tcpip.
Proof. solve_decision. Defined.

Definition set_st_port (port : Z) (st : sockaddr_tcpip) : sockaddr_tcpip :=
  SockaddrTcpip (st_family st) (st_flags st) port (st_scope_id st) (st_pad st).

(** The port search loop, from [i], with [n] iterations left. *)
Fixpoint bind_loop (available : Z -> result Z) (min_port max_port offset : Z)
    (n : nat) (i : Z) : result Z :=
  match n with
  | O => Err EADDRINUSE
  | S n =>
    let try_port := u16 (Z.land (u32 (i + offset)) max_port) in
    if decide (try_port < min_port)
    then bind_loop available min_port max_port offset n (i + 1)
    else if is_Ok (available try_port)
    then Ok try_port
    else bind_loop available min_port max_port offset n (i + 1)
  end.

(** [random] is the value [random()] returns. *)
Definition tcpip_bind (st_local : option sockaddr_tcpip)
    (available : Z -> result Z) (random : Z) : result Z :=
  let flags := match st_local with Some st => st_flags st | None => 0 end in
  let try_port := match st_local with Some st => st_port st | None => 0 end in
  if decide (try_port <> 0) then available try_port
  else
    let min_port := u16 (Z.land (Z.lnot flags) TCPIP_BIND_PRIVILEGED + 1) in
    let max_port := u16 (Z.land flags TCPIP_BIND_PRIVILEGED - 1) in
    let offset := u32 random in
    bind_loop available min_port max_port offset (Z.to_nat (max_port + 1)) 0.

(** ** Protocol dispatch *)

Record ip_statistics := IpStatistics {
  in_delivers : Z;
  in_unknown_protos : Z;
}.

Section dispatch.
(** [W] is the state of the network stack the protocols act on, [netdev]
    and [iobuf] its network devices and I/O buffers. *)
Context {W netdev iobuf : Type}.
Context (netdev_mtu : netdev -> Z) (free_iob : iobuf -> W -> W).

Record tcpip_protocol := TcpipProtocol {
  tcpip_proto : Z;
  zero_csum : Z;
  tcpip_proto_rx : iobuf -> netdev -> sockaddr_tcpip -> sockaddr_tcpip -> Z ->
    W -> result unit * W;
}.

Record tcpip_net_protocol := TcpipNetProtocol {
  sa_family : Z;
  header_len : Z;
  net_tx : iobuf -> tcpip_protocol -> option sockaddr_tcpip -> sockaddr_tcpip ->
    option netdev -> option Z -> W -> result unit * W;
  net_netdev : sockaddr_tcpip -> W -> option netdev;
}.

Fixpoint tcpip_rx (table : list tcpip_protocol) (iob : iobuf) (nd : netdev)
    (proto : Z) (st_src st_dest : sockaddr_tcpip) (pshdr_csum : Z)
    (stats : ip_statistics) (w : W) : result unit * ip_statistics * W :=
  match table with
  | [] =>
    (Err EPROTONOSUPPORT,
     IpStatistics (in_delivers stats) (u64 (in_unknown_protos stats + 1)),
     free_iob iob w)
  | tcpip :: table =>
    if decide (tcpip_proto tcpip = proto) then
      let stats := IpStatistics (u64 (in_delivers stats + 1)) (in_unknown_protos stats) in
      let '(rc, w) := tcpip_proto_rx tcpip iob nd st_src st_dest pshdr_csum w in
      (rc, stats, w)
    else tcpip_rx table iob nd proto st_src st_dest pshdr_csum stats w
  end.

Fixpoint find_net_protocol (table : list tcpip_net_protocol) (family : Z) :
    option tcpip_net_protocol :=
  match table with
  | [] => None
  | tcpip_net :: table =>
    if decide (sa_family tcpip_net = family) then Some tcpip_net
    else find_net_protocol table family
  end.

Definition tcpip_tx (table : list tcpip_net_protocol) (iob : iobuf)
    (proto : tcpip_protocol) (st_src : option sockaddr_tcpip)
    (st_dest : sockaddr_tcpip) (nd : option netdev) (trans_csum : option Z) (w : W) :
    result unit * W :=
  match find_net_protocol table (st_family st_dest) with
  | Some tcpip_net => net_tx tcpip_net iob proto st_src st_dest nd trans_csum w
  | None => (Err EAFNOSUPPORT, free_iob iob w)
  end.

Definition tcpip_netdev (table : list tcpip_net_protocol)
    (st_dest : sockaddr_tcpip) (w : W) : option netdev :=
  match find_net_protocol table (st_family st_dest) with
  | Some tcpip_net => net_netdev tcpip_net st_dest w
  | None => None
  end.

Definition tcpip_mtu (table : list tcpip_net_protocol)
    (st_dest : sockaddr_tcpip) (w : W) : Z :=
  match find_net_protocol table (st_family st_dest) with
  | Some tcpip_net =>
    match net_netdev tcpip_net st_dest w with
    | Some nd => u64 (netdev_mtu nd - header_len tcpip_net)
    | None => 0
    end
  | None => 0
  end.
End dispatch.

(** ** Reference definition of the checksum

    [wsum i data] is the sum of the little-endian 16-bit words of [data] when
    its first byte sits at offset [i]; [fold1 n] is the one's complement
    representative of [n] that a 16-bit end-around-carry adder reaches: zero
    only for zero, otherwise the residue modulo 65535 in [1, 65535]. *)

Fixpoint wsum (i : Z) (data : list Z) : Z :=
  match data with
  | [] => 0
  | v :: data => (if decide (Z.even i) then v else 256 * v) + wsum (i + 1) data
  end.

Definition fold1 (n : Z) : Z := if decide (n = 0) then 0 else (n - 1) `mod` 65535 + 1.

Lemma fold1_small n : 0 <= n <= 65535 -> fold1 n = n.
Proof. intros. unfold fold1. case_decide; [done|]. rewrite Z.mod_small; lia. Qed.

Lemma fold1_bound n : 0 <= n -> 0 <= fold1 n <= 65535.
Proof. unfold fold1. intros. case_decide; [lia|]. pose proof (Z.mod_pos_bound (n - 1) 65535). lia. Qed.

Lemma fold1_pos n : 0 < n -> 1 <= fold1 n <= 65535.
Proof. unfold fold1. intros. case_decide; [lia|]. pose proof (Z.mod_pos_bound (n - 1) 65535). lia. Qed.

Lemma fold1_mod n : fold1 n `mod` 65535 = n `mod` 65535.
Proof.
  unfold fold1. case_decide; [by subst|].
  rewrite Zplus_mod_idemp_l. f_equal. lia.
Qed.

(** A positive representative is determined by its residue. *)
Lemma fold1_unique a b : 0 < a -> 0 < b -> a `mod` 65535 = b `mod` 65535 -> fold1 a = fold1 b.
Proof.
  intros Ha Hb E. unfold fold1. rewrite !decide_False by lia. f_equal.
  rewrite Zminus_mod, E, <- Zminus_mod. done.
Qed.

Lemma fold1_add a b : 0 <= a -> 0 <= b -> fold1 (fold1 a + b) = fold1 (a + b).
Proof.
  intros Ha Hb. destruct (decide (a = 0)) as [->|]; [done|].
  pose proof (fold1_pos a). apply fold1_unique; [lia..|].
  by rewrite Zplus_mod, fold1_mod, <- Zplus_mod.
Qed.

Lemma fold1_carry n : 65535 < n <= 131070 -> fold1 n = n - 65535.
Proof.
  intros. unfold fold1. rewrite decide_False by lia.
  replace (n - 1) with (n - 65536 + 1 * 65535) by lia.
  rewrite Z_mod_plus_full, Z.mod_small; lia.
Qed.

Lemma wsum_nonneg i data : bytes data -> 0 <= wsum i data.
Proof.
  intros H. revert i. induction H as [|v data Hv H IH]; intros i; simpl; [done|].
  specialize (IH (i + 1)). case_decide; zlia.
Qed.

Lemma wsum_app i a b : wsum i (a ++ b) = wsum i a + wsum (i + Z.of_nat (length a)) b.
Proof.
  revert i. induction a as [|v a IH]; intros i; cbn [app wsum length].
  - by rewrite Z.add_0_r.
  - rewrite IH, Z.add_assoc. do 2 f_equal. lia.
Qed.

Lemma wsum_parity i j data : Z.even i = Z.even j -> wsum i data = wsum j data.
Proof.
  revert i j. induction data as [|v data IH]; intros i j E; simpl; [done|].
  rewrite E. f_equal. apply IH. by rewrite !Z.even_add, E.
Qed.

Lemma wsum_word i a b data :
  Z.even i = true -> wsum i (a :: b :: data) = a + 256 * b + wsum i data.
Proof.
  intros Hi. cbn [wsum]. rewrite Hi. rewrite (wsum_parity (i + 1 + 1) i) by (by rewrite !Z.even_add, Hi).
  assert (Z.even (i + 1) = false) as -> by (by rewrite Z.even_add, Hi). simpl. lia.
Qed.

Lemma wsum_zero data : bytes data -> wsum 0 data = 0 <-> wsum 1 data = 0.
Proof.
  intros H.
  assert (forall i, wsum i data = 0 -> wsum (i + 1) data = 0) as G.
  { induction H as [|v data Hv H IH]; intros i; simpl; [done|].
    pose proof (wsum_nonneg (i + 1) data H). specialize (IH (i + 1)).
    intros E. rewrite IH by (case_decide; zlia). repeat case_decide; zlia. }
  split; [apply (G 0)|]. intros E. rewrite (wsum_parity 0 2) by done. by apply (G 1).
Qed.

(** Shifting data by one byte swaps the roles of the two bytes of each word. *)
Lemma wsum_odd data : bytes data -> wsum 1 data `mod` 65535 = (256 * wsum 0 data) `mod` 65535.
Proof.
  intros H.
  assert (forall i, Z.even i = true -> wsum (i + 1) data `mod` 65535 = (256 * wsum i data) `mod` 65535
            /\ wsum i data `mod` 65535 = (256 * wsum (i + 1) data) `mod` 65535) as G.
  { induction H as [|v data Hv H IH]; intros i Hi; [done|]. cbn [wsum].
    assert (Z.even (i + 1) = false) as Ho by (by rewrite Z.even_add, Hi).
    rewrite Hi, Ho. rewrite !(decide_True (P:=true)), !(decide_False (P:=false)) by (exact I || exact id).
    rewrite (wsum_parity (i + 1 + 1) i) by (by rewrite !Z.even_add, Hi).
    destruct (IH i Hi) as [E1 E2].
    split.
    - rewrite Z.mul_add_distr_l, Zplus_mod, E2, <- Zplus_mod. done.
    - rewrite Z.mul_add_distr_l, Zplus_mod, E1, <- Zplus_mod.
      replace (256 * (256 * v)) with (v + v * 65535) by lia.
      rewrite (Zplus_mod (v + _)), Z_mod_plus_full, <- Zplus_mod. done. }
  by apply (G 0).
Qed.

Lemma bswap_16_val v : in_width 16 v -> bswap_16 v = 256 * (v `mod` 256) + v / 256.
Proof.
  intros Hv. unfold bswap_16. change 0xff00 with (Z.shiftl (Z.ones 8) 8).
  rewrite shiftr_land_mask by lia.
  change 0x00ff with (2 ^ 8 - 1). rewrite land_ones_mod by lia.
  assert (0 <= v / 2 ^ 8 < 2 ^ 8) by (split; [apply Z.div_pos|apply Z.div_lt_upper_bound]; zlia).
  rewrite (Z.mod_small (v / 2 ^ 8)) by done.
  rewrite lor_shiftl_add by (done || lia). pow2. lia.
Qed.

Lemma bswap_16_byte v : is_byte v -> bswap_16 v = 256 * v.
Proof.
  intros Hv. rewrite bswap_16_val by zlia.
  rewrite Z.mod_small, Z.div_small by zlia. zlia.
Qed.

(** Swapping the bytes of a 16-bit value multiplies it by 256 modulo 65535. *)
Lemma bswap_16_mod v : in_width 16 v -> bswap_16 v `mod` 65535 = (256 * v) `mod` 65535.
Proof.
  intros Hv. rewrite bswap_16_val by done. pose proof (Z.div_mod v 256).
  replace (256 * v) with (256 * (v `mod` 256) + v / 256 + v / 256 * 65535) by lia.
  by rewrite Z_mod_plus_full.
Qed.

Lemma bswap_16_width v : in_width 16 v -> in_width 16 (bswap_16 v).
Proof.
  intros Hv. rewrite bswap_16_val by done. pose proof (Z.mod_pos_bound v 256).
  assert (0 <= v / 256 < 256) by (split; [apply Z.div_pos|apply Z.div_lt_upper_bound]; zlia). zlia.
Qed.

Lemma chksum_step_fold1 i v c :
  0 <= c <= 65535 -> is_byte v ->
  chksum_step i v c = fold1 (c + (if decide (Z.even i) then v else 256 * v)).
Proof.
  intros Hc Hv. unfold chksum_step.
  assert (Z.land i 1 = if Z.even i then 0 else 1) as E.
  { change 1 with (Z.ones 1) at 1. rewrite Z.land_ones, Zmod_even by lia. done. }
  rewrite E. set (w := if decide (Z.even i) then v else 256 * v).
  assert ((if decide ((if Z.even i then 0 else 1) = 0) then le16_to_cpu v else be16_to_cpu v)
            = w) as ->.
  { subst w. unfold le16_to_cpu, be16_to_cpu.
    destruct (Z.even i); simpl; [apply wrap_small; zlia|by apply bswap_16_byte]. }
  assert (0 <= w <= 65280) as Hw by (subst w; case_decide; zlia).
  rewrite (wrap_small 32) by zlia. case_decide.
  - rewrite wrap_small, fold1_carry by zlia. lia.
  - rewrite fold1_small; lia.
Qed.

Lemma chksum_loop_closed i data c :
  0 <= c <= 65535 -> bytes data -> chksum_loop i data c = fold1 (c + wsum i data).
Proof.
  intros Hc H. revert i c Hc. induction H as [|v data Hv H IH]; intros i c Hc; cbn [chksum_loop wsum].
  - rewrite fold1_small; lia.
  - pose proof (wsum_nonneg (i + 1) data H).
    assert (0 <= c + (if decide (Z.even i) then v else 256 * v)) by (case_decide; zlia).
    rewrite chksum_step_fold1, IH by (done || by apply fold1_bound).
    rewrite fold1_add by done. f_equal. lia.
Qed.

Lemma lnot16 p : in_width 16 p -> Z.land (Z.lnot p) 0xffff = 65535 - p.
Proof.
  intros. change 0xffff with (2 ^ 16 - 1). rewrite land_ones_mod by lia.
  unfold Z.lnot. replace (Z.pred (- p)) with (65535 - p + (-1) * 2 ^ 16) by lia.
  rewrite Z_mod_plus_full, Z.mod_small; zlia.
Qed.

Lemma wrap_lnot16 c : 0 <= c <= 65535 -> u16 (Z.lnot c) = 65535 - c.
Proof.
  intros. unfold wrap, Z.lnot. replace (Z.pred (- c)) with (65535 - c + (-1) * 2 ^ 16) by lia.
  rewrite Z_mod_plus_full, Z.mod_small; zlia.
Qed.

Lemma continue_chksum_closed partial data :
  in_width 16 partial -> bytes data ->
  generic_tcpip_continue_chksum partial data = 65535 - fold1 (65535 - partial + wsum 0 data).
Proof.
  intros Hp Hd. unfold generic_tcpip_continue_chksum.
  pose proof (wsum_nonneg 0 data Hd).
  rewrite lnot16, chksum_loop_closed, wrap_lnot16; try done; try zlia.
  apply fold1_bound. zlia.
Qed.

Lemma continue_chksum_width partial data :
  in_width 16 partial -> bytes data -> in_width 16 (generic_tcpip_continue_chksum partial data).
Proof.
  intros Hp Hd. rewrite continue_chksum_closed by done.
  pose proof (wsum_nonneg 0 data Hd).
  pose proof (fold1_bound (65535 - partial + wsum 0 data)). zlia.
Qed.


Lemma bswap_16_compl v : in_width 16 v -> bswap_16 (65535 - v) = 65535 - bswap_16 v.
Proof.
  intros Hv. rewrite !bswap_16_val by zlia.
  pose proof (Z.div_mod v 256). pose proof (Z.mod_pos_bound v 256).
  assert ((65535 - v) / 256 = 255 - v / 256 /\ (65535 - v) `mod` 256 = 255 - v `mod` 256) as [-> ->].
  { pose proof (Z.div_mod (65535 - v) 256). pose proof (Z.mod_pos_bound (65535 - v) 256).
    apply (Z.div_mod_unique 256); lia. }
  lia.
Qed.

Lemma bswap_16_fold1 n : 0 <= n -> bswap_16 (fold1 n) = fold1 (256 * n).
Proof.
  intros Hn. destruct (decide (n = 0)) as [->|]; [done|].
  pose proof (fold1_pos n ltac:(lia)).
  assert (in_width 16 (fold1 n)) as Hw by zlia.
  pose proof (bswap_16_width _ Hw).
  assert (0 < bswap_16 (fold1 n)).
  { rewrite bswap_16_val by done. pose proof (Z.div_mod (fold1 n) 256).
    pose proof (Z.mod_pos_bound (fold1 n) 256).
    assert (0 <= fold1 n / 256) by (apply Z.div_pos; lia). lia. }
  rewrite <- (fold1_small (bswap_16 (fold1 n))) by zlia.
  apply fold1_unique; [lia..|]. rewrite bswap_16_mod by done.
  by rewrite Zmult_mod, fold1_mod, <- Zmult_mod.
Qed.

Lemma compl_compl x : 65535 - (65535 - x) = x.
Proof. lia. Qed.

(** ** Properties of the checksum *)

(** C40: the checksum loop computes the one's complement sum of the 16-bit
    words: for every partial checksum and data the result is the complement
    of the end-around-carry representative of "partial sum plus word sum". *)
Theorem tcpip_continue_chksum_correct partial data :
  in_width 16 partial -> bytes data ->
  generic_tcpip_continue_chksum partial data = 65535 - fold1 (65535 - partial + wsum 0 data).
Proof. apply continue_chksum_closed. Qed.

Lemma tcpip_continue_chksum_correct_witness :
  generic_tcpip_continue_chksum 0 [0x12; 0x34; 0xff] = 65535 - fold1 (65535 - 0 + wsum 0 [0x12; 0x34; 0xff]).
Proof. apply tcpip_continue_chksum_correct; repeat constructor; done. Defined.

(** Checksums may be continued: over data split at an even offset the
    two calls compose, and at an odd offset they compose after byte-swapping
    the input and the output of the second call. *)
Theorem tcpip_continue_chksum_app partial a b :
  in_width 16 partial -> bytes a -> bytes b ->
  generic_tcpip_continue_chksum partial (a ++ b) =
    if decide (Z.even (Z.of_nat (length a)))
    then generic_tcpip_continue_chksum (generic_tcpip_continue_chksum partial a) b
    else bswap_16 (generic_tcpip_continue_chksum
                     (bswap_16 (generic_tcpip_continue_chksum partial a)) b).
Proof.
  intros Hp Ha Hb. pose proof (wsum_nonneg 0 a Ha). pose proof (wsum_nonneg 0 b Hb).
  pose proof (continue_chksum_width partial a Hp Ha) as Hw.
  pose proof (fold1_bound (65535 - partial + wsum 0 a) ltac:(zlia)).
  rewrite (continue_chksum_closed partial (a ++ b)), wsum_app by (done || by apply Forall_app).
  case_decide as He.
  - rewrite continue_chksum_closed by done. rewrite continue_chksum_closed by done.
    rewrite compl_compl, fold1_add, (wsum_parity _ 0 b)
      by (zlia || by apply Is_true_true in He). do 2 f_equal. lia.
  - rewrite continue_chksum_closed by (by try apply bswap_16_width).
    rewrite continue_chksum_closed by done.
    rewrite (bswap_16_compl (fold1 (65535 - partial + wsum 0 a))) by zlia.
    rewrite compl_compl, bswap_16_fold1, fold1_add by zlia.
    set (A := 65535 - partial + wsum 0 a) in *. assert (0 <= A) by (subst A; zlia).
    rewrite bswap_16_compl, bswap_16_fold1
      by (zlia || (pose proof (fold1_bound (256 * A + wsum 0 b) ltac:(zlia)); zlia)).
    f_equal. pose proof (wsum_nonneg 1 b Hb).
    rewrite (wsum_parity _ 1 b), Z.add_assoc by (by destruct (Z.even _)). fold A.
    destruct (decide (A + wsum 1 b = 0)) as [E|].
    + assert (wsum 0 b = 0) as -> by (pose proof (wsum_zero b Hb); lia).
      assert (A = 0) as EA by zlia. rewrite E, EA. done.
    + apply fold1_unique; [zlia|pose proof (wsum_zero b Hb); zlia|].
      replace (256 * (256 * A + wsum 0 b)) with (A + 256 * wsum 0 b + A * 65535) by lia.
      by rewrite Z_mod_plus_full, Zplus_mod, wsum_odd, <- Zplus_mod.
Qed.

Lemma tcpip_continue_chksum_app_witness :
  generic_tcpip_continue_chksum 0x1234 ([1; 2; 3] ++ [4; 5]) =
    bswap_16 (generic_tcpip_continue_chksum
                     (bswap_16 (generic_tcpip_continue_chksum 0x1234 [1; 2; 3])) [4; 5]).
Proof. apply (tcpip_continue_chksum_app 0x1234 [1; 2; 3] [4; 5]); repeat constructor; done. Defined.

Lemma chksum_stored_verifies hdr rest :
  bytes hdr -> bytes rest -> Z.even (Z.of_nat (length hdr)) = true ->
  let c := tcpip_chksum (hdr ++ [0; 0] ++ rest) in
  tcpip_chksum (hdr ++ [c `mod` 256; c / 256] ++ rest) = 0.
Proof.
  intros Hh Hr He c.
  assert (bytes (hdr ++ [0; 0] ++ rest)) as H0 by (rewrite Forall_app; repeat constructor; done).
  pose proof (continue_chksum_width 0 (hdr ++ [0; 0] ++ rest) ltac:(done) H0) as Hc.
  fold TCPIP_EMPTY_CSUM in Hc. change (in_width 16 c) in Hc.
  pose proof (Z.div_mod c 256). pose proof (Z.mod_pos_bound c 256).
  assert (0 <= c / 256 < 256) by (split; [apply Z.div_pos|apply Z.div_lt_upper_bound]; zlia).
  assert (bytes (hdr ++ [c `mod` 256; c / 256] ++ rest)) as Hfull
    by (rewrite Forall_app; repeat constructor; try done; zlia).
  unfold tcpip_chksum, TCPIP_EMPTY_CSUM. rewrite continue_chksum_closed by done.
  assert (c = 65535 - fold1 (65535 + wsum 0 (hdr ++ [0; 0] ++ rest))) as Ec
    by (subst c; unfold tcpip_chksum; by rewrite continue_chksum_closed).
  set (T := wsum 0 (hdr ++ [0; 0] ++ rest)) in *.
  assert (wsum 0 (hdr ++ [c `mod` 256; c / 256] ++ rest) = T + c) as ->.
  { subst T. rewrite !(wsum_app 0). cbn [app]. rewrite !wsum_word by done. lia. }
  pose proof (wsum_nonneg 0 _ H0) as HT. fold T in HT.
  replace 65535 with (fold1 65535) at 1 by done.
  apply Z.sub_move_0_r, fold1_unique; [lia..|].
  rewrite Ec. replace (65535 - 0 + (T + (65535 - fold1 (65535 + T))))
    with (65535 + T - fold1 (65535 + T) + 1 * 65535) by lia.
  rewrite Z_mod_plus_full, Zminus_mod, fold1_mod, Z.sub_diag. done.
Qed.

(** The checksum field of a transport header: the checksum over the segment is
    stored first and completed later with the pseudo-header; a result of zero
    may be replaced by the other zero. *)
Definition complete_csum (zero c : Z) (pshdr : list Z) : Z :=
  let c := generic_tcpip_continue_chksum c pshdr in if decide (c = 0) then zero else c.

Lemma complete_csum_width zero c pshdr :
  in_width 16 zero -> in_width 16 c -> bytes pshdr -> in_width 16 (complete_csum zero c pshdr).
Proof. intros Hz Hc Hp. unfold complete_csum. case_decide; [done|]. by apply continue_chksum_width. Qed.

Lemma chksum_completed_verifies hdr rest pshdr zero :
  bytes hdr -> bytes rest -> bytes pshdr -> Z.even (Z.of_nat (length hdr)) = true -> zero = 0 \/ zero = 65535 ->
  let c := complete_csum zero (tcpip_chksum (hdr ++ [0; 0] ++ rest)) pshdr in
  generic_tcpip_continue_chksum (generic_tcpip_continue_chksum TCPIP_EMPTY_CSUM pshdr) (hdr ++ [c `mod` 256; c / 256] ++ rest) = 0.
Proof.
  intros Hh Hr Hp He Hz c.
  assert (bytes (hdr ++ [0; 0] ++ rest)) as H0 by (rewrite Forall_app; repeat constructor; done).
  pose proof (continue_chksum_width 0 _ ltac:(done) H0) as Hc0. fold TCPIP_EMPTY_CSUM in Hc0. fold (tcpip_chksum (hdr ++ [0; 0] ++ rest)) in Hc0.
  pose proof (complete_csum_width zero _ _ ltac:(destruct Hz as [-> | ->]; zlia) Hc0 Hp) as Hc. change (in_width 16 c) in Hc.
  pose proof (Z.div_mod c 256). pose proof (Z.mod_pos_bound c 256).
  assert (0 <= c / 256 < 256) by (split; [apply Z.div_pos|apply Z.div_lt_upper_bound]; zlia).
  assert (bytes (hdr ++ [c `mod` 256; c / 256] ++ rest)) as Hfull
    by (rewrite Forall_app; repeat constructor; try done; zlia).
  set (T := wsum 0 (hdr ++ [0; 0] ++ rest)) in *. set (P := wsum 0 pshdr) in *.
  pose proof (wsum_nonneg 0 _ H0) as HT. fold T in HT. pose proof (wsum_nonneg 0 _ Hp) as HP. fold P in HP.
  assert (c `mod` 65535 = (- (T + P)) `mod` 65535) as Ec.
  { assert (generic_tcpip_continue_chksum (tcpip_chksum (hdr ++ [0; 0] ++ rest)) pshdr = 65535 - fold1 (65535 + T + P)) as E1.
    { rewrite continue_chksum_closed by done. unfold tcpip_chksum, TCPIP_EMPTY_CSUM. rewrite continue_chksum_closed by done.
      fold T P. by rewrite compl_compl, Z.sub_0_r, fold1_add by lia. }
    assert (c `mod` 65535 = (65535 - fold1 (65535 + T + P)) `mod` 65535) as ->.
    { subst c. unfold complete_csum. rewrite E1. case_decide as E; [|done]. rewrite E. by destruct Hz as [-> | ->]. }
    rewrite Zminus_mod, fold1_mod, <- Zminus_mod. f_equal. lia. }
  rewrite continue_chksum_closed by (done || by apply continue_chksum_width). rewrite continue_chksum_closed by done.
  unfold TCPIP_EMPTY_CSUM. rewrite Z.sub_0_r, compl_compl. fold P.
  assert (wsum 0 (hdr ++ [c `mod` 256; c / 256] ++ rest) = T + c) as ->.
  { subst T. rewrite !(wsum_app 0). cbn [app]. rewrite !wsum_word by done. lia. }
  rewrite fold1_add by zlia. replace 65535 with (fold1 65535) at 1 by done.
  apply Z.sub_move_0_r, fold1_unique; [lia|zlia|].
  replace (65535 + P + (T + c)) with (c + (T + P) + 1 * 65535) by lia.
  rewrite Z_mod_plus_full, Zplus_mod, Ec, <- Zplus_mod. by rewrite Z.add_opp_diag_l.
Qed.

(** A receiver accepts what a sender checksummed: when the checksum of a
    packet with a zero checksum field (at an even offset) is stored in that
    field, the checksum of the whole packet is zero. *)
Theorem tcpip_chksum_verifies hdr rest :
  bytes hdr -> bytes rest -> Z.even (Z.of_nat (length hdr)) = true ->
  let c := tcpip_chksum (hdr ++ [0; 0] ++ rest) in
  tcpip_chksum (hdr ++ [c `mod` 256; c / 256] ++ rest) = 0.
Proof. apply chksum_stored_verifies. Qed.

Lemma tcpip_chksum_verifies_witness :
  tcpip_chksum ([0x45; 0x00] ++ [tcpip_chksum ([0x45; 0x00] ++ [0; 0] ++ [0x7f; 0x01; 0x09]) `mod` 256;
     tcpip_chksum ([0x45; 0x00] ++ [0; 0] ++ [0x7f; 0x01; 0x09]) / 256] ++ [0x7f; 0x01; 0x09]) = 0.
Proof.
  apply (tcpip_chksum_verifies [0x45; 0x00] [0x7f; 0x01; 0x09]); repeat constructor; done.
Defined.

(** The checksum of any data is a 16-bit value and never the negative
    zero 0xffff, as include/ipxe/tcpip.h promises. *)
Theorem tcpip_chksum_positive_zero data :
  bytes data -> 0 <= tcpip_chksum data < 0xffff.
Proof.
  intros H. unfold tcpip_chksum, TCPIP_EMPTY_CSUM. rewrite continue_chksum_closed by done.
  pose proof (wsum_nonneg 0 data H). pose proof (fold1_pos (65535 - 0 + wsum 0 data)). lia.
Qed.

Lemma tcpip_chksum_positive_zero_witness : 0 <= tcpip_chksum [0; 0; 0] < 0xffff.
Proof. apply tcpip_chksum_positive_zero. repeat constructor; done. Defined.

(** ** Properties of the port binder *)

Lemma land_max_port_low x k : 0 <= k <= 16 -> u16 (Z.land x (2 ^ k - 1)) = x `mod` 2 ^ k.
Proof.
  intros Hk. rewrite land_ones_mod by lia. apply wrap_small.
  eapply (in_width_le k); [lia|]. apply Z.mod_pos_bound. lia.
Qed.

Lemma bind_loop_ok available min k offset n i port :
  0 <= k <= 16 ->
  bind_loop available min (2 ^ k - 1) offset n i = Ok port ->
  min <= port < 2 ^ k /\ is_Ok (available port) = true.
Proof.
  intros Hk. revert i. induction n as [|n IH]; intros i; cbn [bind_loop]; [done|].
  rewrite land_max_port_low by done.
  pose proof (Z.mod_pos_bound (u32 (i + offset)) (2 ^ k)).
  case_decide; [apply IH|]. case_match eqn:E; [|apply IH].
  intros [= <-]. split; [lia|done].
Qed.

Lemma bind_loop_err available min max offset n i e :
  bind_loop available min max offset n i = Err e ->
  e = EADDRINUSE /\
  forall j, i <= j < i + Z.of_nat n ->
    min <= u16 (Z.land (u32 (j + offset)) max) ->
    is_Ok (available (u16 (Z.land (u32 (j + offset)) max))) = false.
Proof.
  revert i. induction n as [|n IH]; intros i; cbn [bind_loop].
  { intros [= <-]. split; [done|]. lia. }
  set (p := u16 _). case_decide as Hlt.
  - intros H. destruct (IH _ H) as [-> G]. split; [done|]. intros j Hj Hmin.
    destruct (decide (j = i)) as [->|]; [fold p in Hmin; lia|]. apply G; [lia|done].
  - destruct (is_Ok _) eqn:E; [done|]. intros H. destruct (IH _ H) as [-> G]. split; [done|].
    intros j Hj Hmin. destruct (decide (j = i)) as [->|]; [done|]. apply G; [lia|done].
Qed.

(** The bit mask arithmetic of [tcpip_bind] on the privileged flag. *)
Lemma bind_bounds flags :
  in_width 16 flags ->
  exists k, (k = 10 /\ Z.testbit flags 10 = true \/ k = 16 /\ Z.testbit flags 10 = false) /\
    u16 (Z.land (Z.lnot flags) TCPIP_BIND_PRIVILEGED + 1) =
      (if Z.testbit flags 10 then 1 else 1025) /\
    u16 (Z.land flags TCPIP_BIND_PRIVILEGED - 1) = 2 ^ k - 1.
Proof.
  intros Hf. change TCPIP_BIND_PRIVILEGED with (2 ^ 10).
  rewrite !land_pow2_testbit, Z.lnot_spec by lia.
  destruct (Z.testbit flags 10); [exists 10|exists 16]; simpl; auto.
Qed.

(** Every port of the range is tried: the offsets cover all residues. *)
Lemma bind_covers k offset p :
  0 <= k <= 16 -> 0 <= p < 2 ^ k ->
  exists j, 0 <= j < 2 ^ k /\ u16 (Z.land (u32 (j + u32 offset)) (2 ^ k - 1)) = p.
Proof.
  intros Hk Hp. exists ((p - offset) `mod` 2 ^ k).
  split; [apply Z.mod_pos_bound; lia|]. rewrite land_max_port_low by done. unfold wrap.
  assert (forall x, (x `mod` 2 ^ 32) `mod` 2 ^ k = x `mod` 2 ^ k) as G.
  { intros x. apply Z.mod_mod_divide.
    exists (2 ^ (32 - k)). rewrite <- Z.pow_add_r by lia. f_equal. lia. }
  rewrite G, Zplus_mod, G, <- Zplus_mod, Zplus_mod_idemp_l.
  replace (p - offset + offset) with p by lia. by apply Z.mod_small.
Qed.

(** [tcpip_bind] is sound and complete.  With an explicit port it answers
    exactly what [available] says; otherwise a returned port is available and
    lies in [1,1023] (privileged) or [1025,65535], and failure is EADDRINUSE
    and means no port of that range is available. *)
Theorem tcpip_bind_correct (st : sockaddr_tcpip) available random :
  in_width 16 (st_flags st) ->
  let min := if Z.testbit (st_flags st) 10 then 1 else 1025 in
  let max := if Z.testbit (st_flags st) 10 then 1023 else 65535 in
  match tcpip_bind (Some st) available random with
  | Ok port => if decide (st_port st = 0)
               then min <= port <= max /\ is_Ok (available port) = true
               else available (st_port st) = Ok port
  | Err e => if decide (st_port st = 0)
             then e = EADDRINUSE /\ forall p, min <= p <= max -> is_Ok (available p) = false
             else available (st_port st) = Err e
  end.
Proof.
  intros Hf min max. unfold tcpip_bind.
  destruct (bind_bounds (st_flags st) Hf) as (k & Hk & -> & ->).
  fold min. assert (0 <= k <= 16 /\ max = 2 ^ k - 1 /\ 0 < min) as (Hk16 & Hmax & Hmin).
  { subst min max. by destruct Hk as [[-> ->]|[-> ->]]. }
  destruct (decide (st_port st = 0)) as [->|Hport]; simpl.
  2: { rewrite decide_True by done. by destruct (available _). }
  destruct (bind_loop _ _ _ _ _ _) as [port|e] eqn:E.
  - apply bind_loop_ok in E as [??]; [|done]. split; [lia|done].
  - apply bind_loop_err in E as [-> G]. split; [done|]. intros p Hp.
    destruct (bind_covers k random p) as (j & Hj & Ej); [done|lia|].
    specialize (G j). rewrite Ej in G. apply G; lia.
Qed.

Lemma tcpip_bind_correct_witness :
  tcpip_bind (Some (SockaddrTcpip 2 TCPIP_BIND_PRIVILEGED 0 0 []))
    (fun p => if decide (p = 7) then Ok p else Err EADDRINUSE) 99 = Ok 7 /\
  1 <= 7 <= 1023.
Proof.
  pose proof (tcpip_bind_correct (SockaddrTcpip 2 TCPIP_BIND_PRIVILEGED 0 0 [])
    (fun p => if decide (p = 7) then Ok p else Err EADDRINUSE) 99 ltac:(done)) as H.
  assert (tcpip_bind (Some (SockaddrTcpip 2 TCPIP_BIND_PRIVILEGED 0 0 []))
    (fun p => if decide (p = 7) then Ok p else Err EADDRINUSE) 99 = Ok 7) as E by (by vm_compute).
  rewrite E in H. split; [exact E|exact (proj1 H)].
Defined.

(** ** Properties of the dispatcher *)

Section dispatch_facts.
Context {W netdev iobuf : Type} (free_iob : iobuf -> W -> W).

(** A received segment is either delivered to the first handler registered
    for its protocol or counted as unknown and freed, never both. *)
Lemma tcpip_rx_spec table (iob : iobuf) (nd : netdev) proto src dest csum stats (w : W) :
  tcpip_rx free_iob table iob nd proto src dest csum stats w =
    match list_find (fun t => tcpip_proto t = proto) table with
    | Some (_, t) =>
      let '(rc, w') := tcpip_proto_rx t iob nd src dest csum w in
      (rc, IpStatistics (u64 (in_delivers stats + 1)) (in_unknown_protos stats), w')
    | None => (Err EPROTONOSUPPORT,
               IpStatistics (in_delivers stats) (u64 (in_unknown_protos stats + 1)),
               free_iob iob w)
    end.
Proof.
  induction table as [|t table IH]; simpl; [done|].
  case_decide; [done|]. rewrite IH. by destruct (list_find _ table) as [[??]|].
Qed.
End dispatch_facts.
