(* ===== verification/DhcpOpts.v ===== *)
(** * DHCP option blocks (net/dhcpopts.c)

    [struct dhcp_options] is a record with the raw data as a memory block;
    the reallocation method of the block is a parameter with the contract
    [DhcpRealloc], which the refusing allocator [dhcpopt_no_realloc] meets.
    Offsets and lengths are [Z]; [size_t] and [ssize_t] arithmetic that can
    wrap is written with [u64] and [s64]. *)

From S2P Require Import Prelude CMem.

Definition DHCP_PAD : Z := 0.
Definition DHCP_END : Z := 255.
Definition DHCP_MAX_OPTION : Z := 254.
Definition DHCP_MAX_LEN : Z := 0xff.
Definition DHCP_OPTION_HEADER_LEN : Z := 2.
Definition DHCP_ENCAP_OPT (encapsulator encapsulated : Z) : Z :=
  Z.lor (Z.shiftl encapsulator 8) encapsulated.
Definition DHCP_ENCAPSULATOR (tag : Z) : Z := Z.shiftr tag 8.
Definition DHCP_ENCAPSULATED (tag : Z) : Z := Z.land tag 0xff.
Definition DHCP_IS_ENCAP_OPT (tag : Z) : Prop := DHCP_ENCAPSULATOR tag <> 0.

#[export] Instance DHCP_IS_ENCAP_OPT_dec tag : Decision (DHCP_IS_ENCAP_OPT tag).
Proof. unfold DHCP_IS_ENCAP_OPT. apply _. Defined.

Record dhcp_options := DhcpOptions {
  data : mem;
  used_len : Z;
  alloc_len : Z;
}.

(** [option->tag], [option->len] of the option at an offset. *)
Definition option_tag (m : mem) (offset : Z) : Z := m offset.
Definition option_len (m : mem) (offset : Z) : Z := m (offset + 1).
Definition option_data (offset : Z) : Z := offset + DHCP_OPTION_HEADER_LEN.

Definition dhcp_option_len (m : mem) (offset : Z) : Z :=
  if decide (option_tag m offset = DHCP_END \/ option_tag m offset = DHCP_PAD) then 1
  else option_len m offset + DHCP_OPTION_HEADER_LEN.

(** The search loop.  The result pairs the returned offset with the value
    left in [*encap_offset]; [None] is an exhausted fuel. *)
Fixpoint find_loop (fuel : nat) (m : mem) (tag offset remaining : Z) (encap : option Z) :
    option (result Z * option Z) :=
  match fuel with
  | O => None
  | S fuel =>
    if decide (remaining = 0) then Some (Err ENOENT, encap) else
    let len := dhcp_option_len m offset in
    let remaining := remaining - len in
    if decide (remaining < 0) then Some (Err ENOENT, encap) else
    if decide (option_tag m offset = DHCP_END) then
      if decide (tag = DHCP_END) then Some (Ok offset, encap) else Some (Err ENOENT, encap)
    else if decide (option_tag m offset = tag) then Some (Ok offset, encap)
    else if decide (DHCP_IS_ENCAP_OPT tag /\ option_tag m offset = DHCP_ENCAPSULATOR tag) then
      find_loop fuel m (DHCP_ENCAPSULATED tag) (offset + DHCP_OPTION_HEADER_LEN) len (Some offset)
    else find_loop fuel m tag (offset + len) remaining encap
  end.

(** Enough iterations for the whole block and one encapsulated block. *)
Definition find_fuel (o : dhcp_options) : nat := (Z.to_nat (used_len o) + 260)%nat.

Definition find_dhcp_option_with_encap (o : dhcp_options) (tag : Z) : result Z * option Z :=
  if decide (tag = DHCP_PAD) then (Err ENOENT, None)
  else match find_loop (find_fuel o) (data o) tag 0 (used_len o) None with
       | Some r => r
       | None => (Err ENOENT, None)
       end.

(** [realloc] methods map a block and a length to a status and a block. *)
Definition dhcpopt_no_realloc (o : dhcp_options) (len : Z) : result unit * dhcp_options :=
  if decide (len <= alloc_len o) then (Ok tt, o) else (Err ENOSPC, o).

Section dhcpopts.
Context (realloc : dhcp_options -> Z -> result unit * dhcp_options).

(** Growing the block ahead of a resize, clearing the new space. *)
Definition expand_block (o : dhcp_options) (new_used_len : Z) : result unit * dhcp_options :=
  if decide (new_used_len > alloc_len o) then
    let old_alloc_len := alloc_len o in
    match realloc o new_used_len with
    | (Err e, o) => (Err e, o)
    | (Ok _, o) =>
      (Ok tt, DhcpOptions (memset (data o) old_alloc_len 0 (u64 (alloc_len o - old_alloc_len)))
                          (used_len o) (alloc_len o))
    end
  else (Ok tt, o).

(** Adjusting the length byte of the encapsulating option, if any. *)
Definition update_encapsulator (o : dhcp_options) (encap_offset : option Z) (delta : Z) :
    result unit * dhcp_options :=
  match encap_offset with
  | Some enc =>
    let new_encapsulator_len := u64 (option_len (data o) enc + delta) in
    if decide (new_encapsulator_len > DHCP_MAX_LEN) then (Err ENOSPC, o)
    else (Ok tt, DhcpOptions (mset (data o) (enc + 1) (u8 new_encapsulator_len))
                             (used_len o) (alloc_len o))
  | None => (Ok tt, o)
  end.

Definition resize_dhcp_option (o : dhcp_options) (offset : Z) (encap_offset : option Z)
    (old_len new_len : Z) : result unit * dhcp_options :=
  let delta := s64 (new_len - old_len) in
  if decide (new_len > DHCP_MAX_LEN) then (Err ENOSPC, o) else
  let new_used_len := u64 (used_len o + delta) in
  match expand_block o new_used_len with
  | (Err e, o) => (Err e, o)
  | (Ok _, o) =>
    match update_encapsulator o encap_offset delta with
    | (Err e, o) => (Err e, o)
    | (Ok _, o) =>
      let o := DhcpOptions
                 (memmove (data o) (offset + new_len) (offset + old_len)
                    (u64 (new_used_len - offset - new_len)))
                 new_used_len (alloc_len o) in
      if decide (new_used_len < alloc_len o) then realloc o new_used_len else (Ok tt, o)
    end
  end.

(** Filling in the option header and data. *)
Definition write_option (o : dhcp_options) (offset tag : Z) (bs : list Z) : dhcp_options :=
  let m := mset (data o) offset (u8 tag) in
  let m := mset m (offset + 1) (u8 (Z.of_nat (length bs))) in
  DhcpOptions (memcpy m (option_data offset) bs) (used_len o) (alloc_len o).

(** [set_dhcp_option], with the nesting depth of encapsulators as fuel: a
    32-bit tag has at most four levels. *)
Fixpoint set_dhcp_option (depth : nat) (o : dhcp_options) (tag : Z) (bs : list Z) :
    result Z * dhcp_options :=
  match depth with
  | O => (Err ENOTTY, o)
  | S depth =>
    let len := Z.of_nat (length bs) in
    let encap_tag := DHCP_ENCAPSULATOR tag in
    let new_len := if decide (len = 0) then 0 else len + DHCP_OPTION_HEADER_LEN in
    if decide (tag = DHCP_PAD) then (Err ENOTTY, o) else
    let creation_offset :=
      match fst (find_dhcp_option_with_encap o DHCP_END) with
      | Ok offset => offset
      | Err _ => used_len o
      end in
    let '(found, encap_offset) := find_dhcp_option_with_encap o tag in
    let old_len := match found with Ok offset => dhcp_option_len (data o) offset | Err _ => 0 end in
    let '(ensured, o) :=
      if decide (encap_tag <> 0) then
        let '(r, o) := match encap_offset with
                       | Some enc => (Ok enc, o)
                       | None => set_dhcp_option depth o encap_tag [DHCP_END]
                       end in
        (match r with
         | Ok enc => Ok (Some enc, enc + DHCP_OPTION_HEADER_LEN)
         | Err e => Err e
         end, o)
      else (Ok (encap_offset, creation_offset), o) in
    match ensured with
    | Err e => (Err e, o)
    | Ok (encap_offset, creation_offset) =>
      let offset := match found with Ok offset => offset | Err _ => creation_offset end in
      match resize_dhcp_option o offset encap_offset old_len new_len with
      | (Err e, o) => (Err e, o)
      | (Ok _, o) =>
        let o := if decide (len <> 0) then write_option o offset tag bs else o in
        let o := match encap_offset with
                 | Some enc =>
                   if decide (option_len (data o) enc <= 1)
                   then snd (set_dhcp_option depth o encap_tag []) else o
                 | None => o
                 end in
        (Ok offset, o)
      end
    end
  end.

Definition dhcpopt_store (o : dhcp_options) (tag : Z) (bs : list Z) : result unit * dhcp_options :=
  match set_dhcp_option 4 o tag bs with
  | (Ok _, o) => (Ok tt, o)
  | (Err e, o) => (Err e, o)
  end.
End dhcpopts.

Definition dhcpopt_applies (tag : Z) : bool :=
  bool_decide (tag <> 0 /\ tag <= DHCP_ENCAP_OPT DHCP_MAX_OPTION DHCP_MAX_OPTION).

(** The length of the setting and the bytes copied to a buffer of [len]. *)
Definition dhcpopt_fetch (o : dhcp_options) (tag len : Z) : result Z * list Z :=
  match fst (find_dhcp_option_with_encap o tag) with
  | Err e => (Err e, [])
  | Ok offset =>
    let olen := option_len (data o) offset in
    let len := if decide (len > olen) then olen else len in
    (Ok olen, mload (data o) (option_data offset) (Z.to_nat len))
  end.

(** The scanning loop of [dhcpopt_update_used_len]; returns the used length. *)
Fixpoint used_len_loop (fuel : nat) (m : mem) (offset remaining used : Z) : option Z :=
  match fuel with
  | O => None
  | S fuel =>
    if decide (remaining = 0) then Some used else
    let len := dhcp_option_len m offset in
    let remaining := remaining - len in
    if decide (remaining < 0) then Some used else
    let offset' := offset + len in
    let used := if decide (option_tag m offset <> DHCP_PAD) then offset' else used in
    used_len_loop fuel m offset' remaining used
  end.

Definition dhcpopt_update_used_len (o : dhcp_options) : dhcp_options :=
  DhcpOptions (data o)
    (default 0 (used_len_loop (S (Z.to_nat (s64 (alloc_len o)))) (data o) 0 (s64 (alloc_len o)) 0))
    (alloc_len o).

Definition dhcpopt_init (m : mem) (len : Z) : dhcp_options :=
  dhcpopt_update_used_len (DhcpOptions m 0 len).

(** ** Abstract view of an option block

    A well-formed block is a sequence of pads and options, optionally followed
    by an end marker after which anything may come. *)

Inductive item :=
  | Pad
  | Opt (tag : Z) (bs : list Z).

Definition encode_item (i : item) : list Z :=
  match i with
  | Pad => [DHCP_PAD]
  | Opt tag bs => tag :: Z.of_nat (length bs) :: bs
  end.

Definition encode_items (items : list item) : list Z := mjoin (encode_item <$> items).

Definition is_opt (tag : Z) (i : item) : Prop :=
  match i with Pad => False | Opt t _ => t = tag end.

#[export] Instance is_opt_dec tag i : Decision (is_opt tag i).
Proof. destruct i; simpl; apply _. Defined.

Definition item_ok (i : item) : Prop :=
  match i with
  | Pad => True
  | Opt tag bs => 1 <= tag <= DHCP_MAX_OPTION /\ Z.of_nat (length bs) <= DHCP_MAX_LEN
  end.

Definition tail_ok (tail : list Z) : Prop :=
  match tail with [] => True | t :: _ => t = DHCP_END end.

(** The abstract store: replace or delete the first option with the tag, or
    append a new one. *)
Fixpoint store_items (tag : Z) (bs : list Z) (items : list item) : list item :=
  match items with
  | [] => if decide (bs = []) then [] else [Opt tag bs]
  | i :: items =>
    if decide (is_opt tag i)
    then (if decide (bs = []) then items else Opt tag bs :: items)
    else i :: store_items tag bs items
  end.

Fixpoint fetch_items (tag : Z) (items : list item) : option (list Z) :=
  match items with
  | [] => None
  | Opt t bs :: items => if decide (t = tag) then Some bs else fetch_items tag items
  | Pad :: items => fetch_items tag items
  end.

(** [o] represents [items] followed by [tail]. *)
Definition represents (o : dhcp_options) (items : list item) (tail : list Z) : Prop :=
  0 <= used_len o <= alloc_len o /\ alloc_len o < 2 ^ 31 /\
  mload (data o) 0 (Z.to_nat (used_len o)) = encode_items items ++ tail /\
  Forall item_ok items /\ tail_ok tail.

(** What the option code relies on of a [realloc] method: it fails leaving
    the block alone, or leaves a block of at least the requested length with
    the same bytes as far as both blocks go; it never fails to shrink. *)
Class DhcpRealloc (realloc : dhcp_options -> Z -> result unit * dhcp_options) := {
  realloc_err o n e o' : realloc o n = (Err e, o') -> o' = o;
  realloc_ok o n o' :
    realloc o n = (Ok tt, o') -> 0 <= used_len o -> 0 <= n -> alloc_len o < 2 ^ 31 ->
    used_len o' = used_len o /\ n <= alloc_len o' < 2 ^ 31 /\
    forall x, 0 <= x < alloc_len o `min` alloc_len o' -> data o' x = data o x;
  realloc_shrink o n : n <= alloc_len o -> exists o', realloc o n = (Ok tt, o');
}.

#[export] Instance no_realloc_ok : DhcpRealloc dhcpopt_no_realloc.
Proof.
  split; unfold dhcpopt_no_realloc; intros o n.
  - intros e o' E. case_decide; by simplify_eq.
  - intros o' E Hu Hn Ha. case_decide; simplify_eq. split_and!; [done|lia..|done].
  - intros Hn. rewrite decide_True by done. by exists o.
Qed.

(** ** The search *)

Lemma dhcp_option_len_bound m x : mem_ok m -> 1 <= dhcp_option_len m x <= 257.
Proof.
  intros Hm. unfold dhcp_option_len, option_len, DHCP_OPTION_HEADER_LEN.
  pose proof (Hm (x + 1)). case_decide; zlia.
Qed.

Lemma encapsulated_bound tag : 0 <= DHCP_ENCAPSULATED tag < 256.
Proof.
  unfold DHCP_ENCAPSULATED. change 0xff with (2 ^ 8 - 1).
  rewrite land_ones_mod by lia. apply Z.mod_pos_bound. lia.
Qed.

Lemma not_encap_opt tag : 0 <= tag < 256 -> ~ DHCP_IS_ENCAP_OPT tag.
Proof.
  intros H. unfold DHCP_IS_ENCAP_OPT, DHCP_ENCAPSULATOR.
  rewrite Z.shiftr_div_pow2, Z.div_small by lia. auto.
Qed.

Lemma not_encap_and tag (P : Prop) : 0 <= tag < 256 -> DHCP_IS_ENCAP_OPT tag /\ P -> False.
Proof. intros Ht [? _]. by eapply not_encap_opt. Qed.

(** Case analysis on one iteration of the search loop. *)
Ltac find_step := cbn [find_loop]; repeat case_decide; try done.

Lemma find_loop_plain_total fuel m tag offset remaining encap :
  mem_ok m -> 0 <= tag < 256 -> 0 <= remaining < Z.of_nat fuel ->
  is_Some (find_loop fuel m tag offset remaining encap).
Proof.
  intros Hm Ht. revert offset remaining. induction fuel as [|fuel IH]; intros offset remaining Hf; [lia|].
  pose proof (dhcp_option_len_bound m offset Hm). find_step.
  - by edestruct not_encap_and.
  - apply IH. lia.
Qed.

Lemma find_loop_total fuel m tag offset remaining encap :
  mem_ok m -> 0 <= remaining -> remaining + 258 < Z.of_nat fuel ->
  is_Some (find_loop fuel m tag offset remaining encap).
Proof.
  intros Hm. revert offset remaining. induction fuel as [|fuel IH]; intros offset remaining H0 Hf; [lia|].
  pose proof (dhcp_option_len_bound m offset Hm). find_step.
  - apply find_loop_plain_total; [done|apply encapsulated_bound|lia].
  - apply IH; lia.
Qed.

(** A plain tag is found inside the searched region, as an option with that tag. *)
Lemma find_loop_plain_bounds fuel m tag offset remaining encap off encap' :
  mem_ok m -> 0 <= tag < 256 ->
  find_loop fuel m tag offset remaining encap = Some (Ok off, encap') ->
  encap' = encap /\ offset <= off /\ off + dhcp_option_len m off <= offset + remaining /\
  option_tag m off = tag.
Proof.
  intros Hm Ht. revert offset remaining. induction fuel as [|fuel IH]; intros offset remaining; [done|].
  pose proof (dhcp_option_len_bound m offset Hm). find_step.
  - intros [= <- <-]. split_and!; auto with lia congruence.
  - intros [= <- <-]. split_and!; auto with lia.
  - by edestruct not_encap_and.
  - intros E. apply IH in E as (-> & ? & ? & ?). split_and!; auto with lia.
Qed.

(** The result for a plain tag depends only on the bytes of the region. *)
Lemma find_loop_plain_local fuel m1 m2 tag offset remaining encap :
  mem_ok m1 -> mem_ok m2 -> 0 <= tag < 256 -> 0 <= remaining ->
  (forall x, offset <= x < offset + remaining -> m1 x = m2 x) ->
  find_loop fuel m1 tag offset remaining encap = find_loop fuel m2 tag offset remaining encap.
Proof.
  intros Hm1 Hm2 Ht. revert offset remaining. induction fuel as [|fuel IH]; intros offset remaining Hr Heq; [done|].
  cbn [find_loop]. case_decide as H0; [done|].
  assert (option_tag m2 offset = option_tag m1 offset) as Htag by (symmetry; apply Heq; lia).
  pose proof (dhcp_option_len_bound m1 offset Hm1). pose proof (dhcp_option_len_bound m2 offset Hm2).
  assert (dhcp_option_len m2 offset = dhcp_option_len m1 offset \/
          remaining - dhcp_option_len m1 offset < 0 /\ remaining - dhcp_option_len m2 offset < 0) as Hl.
  { unfold dhcp_option_len. rewrite Htag. case_decide; [by left|].
    destruct (decide (remaining = 1)) as [->|].
    - right. unfold option_len, DHCP_OPTION_HEADER_LEN.
      pose proof (Hm1 (offset + 1)). pose proof (Hm2 (offset + 1)). zlia.
    - left. unfold option_len. rewrite (Heq (offset + 1)) by lia. done. }
  destruct Hl as [Hl|[Hl1 Hl2]].
  - rewrite Htag, Hl. repeat (case_decide; [done|]).
    case_decide; [by edestruct not_encap_and|].
    apply IH; [lia|]. intros x Hx. apply Heq. lia.
  - rewrite !decide_True by lia. done.
Qed.

(** An encapsulated tag is found inside the first matching encapsulator, but
    the encapsulated search region extends two bytes past its end. *)
Lemma find_loop_bounds fuel m tag offset remaining encap off encap' :
  mem_ok m ->
  find_loop fuel m tag offset remaining encap = Some (Ok off, encap') ->
  (encap' = encap /\ offset <= off /\ off + dhcp_option_len m off <= offset + remaining /\
   option_tag m off = tag) \/
  exists enc, encap' = Some enc /\ offset <= enc /\
    enc + dhcp_option_len m enc <= offset + remaining /\
    DHCP_IS_ENCAP_OPT tag /\ option_tag m enc = DHCP_ENCAPSULATOR tag /\ enc + 2 <= off /\
    off + dhcp_option_len m off <= enc + dhcp_option_len m enc + 2 /\
    option_tag m off = DHCP_ENCAPSULATED tag.
Proof.
  intros Hm. revert offset remaining. induction fuel as [|fuel IH]; intros offset remaining; [done|].
  pose proof (dhcp_option_len_bound m offset Hm). find_step.
  - intros [= <- <-]. left. split_and!; auto with lia congruence.
  - intros [= <- <-]. left. split_and!; auto with lia.
  - intros E. apply find_loop_plain_bounds in E as (-> & ? & ? & ?); [|done|apply encapsulated_bound].
    unfold DHCP_OPTION_HEADER_LEN in *. right. exists offset. destruct_and!. split_and!; auto with lia.
  - intros E. apply IH in E as [(-> & ? & ? & ?)|(enc & -> & ? & ? & ? & ? & ? & ? & ?)].
    + left. split_and!; auto with lia.
    + right. exists enc. split_and!; auto with lia.
Qed.

(** ** Searching a well-formed block *)

Lemma encode_item_length i : Z.of_nat (length (encode_item i)) =
  match i with Pad => 1 | Opt _ bs => Z.of_nat (length bs) + 2 end.
Proof. destruct i; simpl; lia. Qed.

Lemma encode_items_cons i items : encode_items (i :: items) = encode_item i ++ encode_items items.
Proof. done. Qed.

Lemma encode_items_app items1 items2 :
  encode_items (items1 ++ items2) = encode_items items1 ++ encode_items items2.
Proof. unfold encode_items. by rewrite fmap_app, join_app. Qed.

(** An encoded item at [offset]: the code computes its length. *)
Lemma dhcp_option_len_item m offset n i rest :
  mload m offset n = encode_item i ++ rest -> item_ok i ->
  dhcp_option_len m offset = Z.of_nat (length (encode_item i)) /\
  option_tag m offset = match i with Pad => DHCP_PAD | Opt t _ => t end.
Proof.
  intros H Hi. unfold dhcp_option_len, option_tag, option_len.
  destruct i as [|t bs]; cbn [encode_item app] in H.
  - apply mload_cons in H as [-> _]. done.
  - apply mload_cons in H as [-> H]. apply mload_cons in H as [-> _].
    destruct Hi. unfold DHCP_END, DHCP_PAD, DHCP_MAX_OPTION, DHCP_OPTION_HEADER_LEN in *.
    rewrite decide_False by lia. split; [simpl length; lia|done].
Qed.

(** Items that the search passes by. *)
Definition passes (tag : Z) (i : item) : Prop :=
  ~ is_opt tag i /\ ~ (DHCP_IS_ENCAP_OPT tag /\ is_opt (DHCP_ENCAPSULATOR tag) i).

Lemma find_loop_pass pre : forall fuel k m tag offset n rest encap,
  mload m offset n = encode_items pre ++ rest ->
  Forall item_ok pre -> Forall (passes tag) pre -> 1 <= tag ->
  Z.of_nat (n + k) < Z.of_nat fuel ->
  exists fuel', Z.of_nat (length rest + k) < Z.of_nat fuel' /\
    find_loop fuel m tag offset (Z.of_nat n) encap =
    find_loop fuel' m tag (offset + Z.of_nat (length (encode_items pre))) (Z.of_nat (length rest)) encap.
Proof.
  induction pre as [|i pre IH]; intros fuel k m tag offset n rest encap Hm Hok Hno Ht Hf.
  { simpl in Hm. exists fuel. assert (length rest = n) as -> by (by rewrite <- Hm, mload_length).
    simpl. by rewrite Z.add_0_r. }
  inversion_clear Hok as [|?? Hi Hok']. inversion_clear Hno as [|?? [Hni Hnp] Hno'].
  rewrite encode_items_cons, <- app_assoc in Hm.
  destruct (dhcp_option_len_item _ _ _ _ _ Hm Hi) as [Hlen Htag].
  assert (n = length (encode_item i) + length (encode_items pre ++ rest))%nat as Hn
    by (by rewrite <- length_app, <- Hm, mload_length).
  destruct fuel as [|fuel]; [lia|]. cbn [find_loop]. rewrite Hlen, Htag.
  pose proof (encode_item_length i) as Hil.
  assert (0 < Z.of_nat (length (encode_item i))) by (destruct i; lia).
  apply mload_split in Hm as [_ Hm].
  destruct (IH fuel k m tag _ _ rest encap Hm Hok' Hno' Ht) as (fuel' & Hf' & E); [lia|].
  exists fuel'. split; [done|].
  unfold item_ok, DHCP_PAD, DHCP_END, DHCP_MAX_OPTION in *.
  rewrite decide_False by lia. rewrite decide_False by lia.
  rewrite decide_False by (destruct i; simpl in *; lia).
  rewrite decide_False by (destruct i; simpl in *; lia).
  rewrite decide_False by (intros [? Hx]; apply Hnp; split; [done|]; destruct i; simpl in *; [unfold DHCP_IS_ENCAP_OPT in *; lia|done]).
  replace (Z.of_nat n - Z.of_nat (length (encode_item i)))
    with (Z.of_nat (length (encode_items pre ++ rest))) by lia.
  rewrite E, encode_items_cons, (length_app (encode_item i)). f_equal. lia.
Qed.

Lemma find_loop_skip pre fuel m tag offset n rest encap :
  mload m offset n = encode_items pre ++ rest ->
  Forall item_ok pre -> Forall (fun i => ~ is_opt tag i) pre -> 1 <= tag <= 255 ->
  Z.of_nat n < Z.of_nat fuel ->
  exists fuel', Z.of_nat (length rest) < Z.of_nat fuel' /\
    find_loop fuel m tag offset (Z.of_nat n) encap =
    find_loop fuel' m tag (offset + Z.of_nat (length (encode_items pre))) (Z.of_nat (length rest)) encap.
Proof.
  intros Hm Hok Hno Ht Hf.
  destruct (find_loop_pass pre fuel 0 m tag offset n rest encap Hm Hok) as (fuel' & Hf' & E); [|lia|lia|exists fuel'; split; [lia|done]].
  eapply Forall_impl; [exact Hno|]. intros i Hi. split; [done|].
  intros [He _]. by eapply (not_encap_opt tag); [lia|].
Qed.

(** The three outcomes of a search in a well-formed block. *)
Lemma find_present o pre tag bs post tail :
  represents o (pre ++ Opt tag bs :: post) tail -> Forall (fun i => ~ is_opt tag i) pre ->
  find_dhcp_option_with_encap o tag = (Ok (Z.of_nat (length (encode_items pre))), None).
Proof.
  intros (Hu & Ha & Hm & Hok & _) Hno.
  rewrite encode_items_app, encode_items_cons, <- !app_assoc in Hm.
  apply Forall_app in Hok as [Hok1 [Hok2 _]%Forall_cons].
  assert (1 <= tag <= 254) as Ht by (by destruct Hok2).
  unfold find_dhcp_option_with_encap, DHCP_PAD. rewrite decide_False by lia.
  edestruct (find_loop_skip pre (find_fuel o) (data o) tag 0) as (fuel' & Hf' & E);
    [exact Hm|done|done|lia|unfold find_fuel; lia|].
  rewrite Z2Nat.id in E by lia. rewrite E.
  apply mload_split in Hm as [_ Hm].
  destruct (dhcp_option_len_item _ _ _ _ _ Hm Hok2) as [Hlen Htag].
  destruct fuel' as [|fuel']; [lia|]. cbn [find_loop]. rewrite Hlen, Htag.
  pose proof (length_app (encode_item (Opt tag bs)) (encode_items post ++ tail)).
  pose proof (encode_item_length (Opt tag bs)) as Hil. cbn beta iota in Hil.
  unfold DHCP_END. rewrite decide_False by lia. rewrite decide_False by lia.
  rewrite decide_False by lia. rewrite decide_True by done. done.
Qed.

Lemma find_absent o items tail tag :
  represents o items tail -> Forall (fun i => ~ is_opt tag i) items -> 1 <= tag <= 254 ->
  find_dhcp_option_with_encap o tag = (Err ENOENT, None).
Proof.
  intros (Hu & Ha & Hm & Hok & Htail) Hno Ht.
  unfold find_dhcp_option_with_encap, DHCP_PAD. rewrite decide_False by lia.
  edestruct (find_loop_skip items (find_fuel o) (data o) tag 0) as (fuel' & Hf' & E);
    [exact Hm|done|done|lia|unfold find_fuel; lia|].
  rewrite Z2Nat.id in E by lia. rewrite E.
  destruct fuel' as [|fuel']; [lia|]. cbn [find_loop].
  apply mload_split in Hm as [_ Hm]. destruct tail as [|t tail]; [done|].
  simpl in Htail. subst t. apply mload_cons in Hm as [Hm _].
  unfold dhcp_option_len, option_tag. rewrite Z.add_0_l in Hm |- *. rewrite Hm.
  rewrite (decide_True (P := DHCP_END = DHCP_END \/ _)) by auto. cbn [length] in *.
  rewrite decide_False by lia. rewrite decide_False by lia. rewrite decide_True by done.
  unfold DHCP_END. rewrite decide_False by lia. done.
Qed.

Lemma find_end o items tail :
  represents o items tail ->
  match fst (find_dhcp_option_with_encap o DHCP_END) with
  | Ok offset => offset
  | Err _ => used_len o
  end = Z.of_nat (length (encode_items items)).
Proof.
  intros (Hu & Ha & Hm & Hok & Htail).
  assert (Forall (fun i => ~ is_opt DHCP_END i) items) as Hno.
  { eapply Forall_impl; [exact Hok|]. intros [|t bs]; simpl; [auto|]. unfold DHCP_MAX_OPTION, DHCP_END. lia. }
  assert (used_len o = Z.of_nat (length (encode_items items ++ tail))) as Hul
    by (rewrite <- Hm, mload_length; lia).
  unfold find_dhcp_option_with_encap. rewrite decide_False by done.
  edestruct (find_loop_skip items (find_fuel o) (data o) DHCP_END 0) as (fuel' & Hf' & E);
    [exact Hm|done|done|done|unfold find_fuel; lia|].
  rewrite Z2Nat.id in E by lia. rewrite E.
  destruct fuel' as [|fuel']; [lia|]. cbn [find_loop].
  apply mload_split in Hm as [_ Hm]. destruct tail as [|t tail].
  { simpl. by rewrite app_nil_r in Hul. }
  simpl in Htail. subst t. apply mload_cons in Hm as [Hm _].
  unfold dhcp_option_len, option_tag. rewrite Z.add_0_l in Hm |- *. rewrite Hm.
  rewrite (decide_True (P := DHCP_END = DHCP_END \/ _)) by auto. cbn [length] in *.
  rewrite decide_False by lia. rewrite decide_False by lia. rewrite !decide_True by done. done.
Qed.

(** ** The abstract store *)

Definition new_item (tag : Z) (bs : list Z) : list item := if decide (bs = []) then [] else [Opt tag bs].

Lemma items_split tag items :
  Forall (fun i => ~ is_opt tag i) items \/
  exists pre old post, items = pre ++ Opt tag old :: post /\ Forall (fun i => ~ is_opt tag i) pre.
Proof.
  induction items as [|i items IH]; [by left|].
  destruct (decide (is_opt tag i)) as [Hi|Hi].
  - right. destruct i as [|t old]; simpl in Hi; [done|subst]. by exists [], old, items.
  - destruct IH as [IH|(pre & old & post & -> & IH)]; [left; by constructor|].
    right. exists (i :: pre), old, post. split; [done|by constructor].
Qed.

Lemma store_items_absent tag bs items :
  Forall (fun i => ~ is_opt tag i) items -> store_items tag bs items = items ++ new_item tag bs.
Proof. induction 1; simpl; [done|]. rewrite decide_False by done. by f_equal. Qed.

Lemma store_items_present tag bs pre old post :
  Forall (fun i => ~ is_opt tag i) pre ->
  store_items tag bs (pre ++ Opt tag old :: post) = pre ++ new_item tag bs ++ post.
Proof.
  unfold new_item. induction 1; simpl.
  - rewrite decide_True by done. by case_decide.
  - rewrite decide_False by done. by f_equal.
Qed.

Lemma store_items_ok tag bs items :
  Forall item_ok items -> 1 <= tag <= DHCP_MAX_OPTION -> Z.of_nat (length bs) <= DHCP_MAX_LEN ->
  Forall item_ok (store_items tag bs items).
Proof.
  intros H ??. assert (item_ok (Opt tag bs)) by done.
  induction H; simpl; repeat case_decide; auto.
Qed.

Lemma fetch_items_absent tag items :
  Forall (fun i => ~ is_opt tag i) items -> fetch_items tag items = None.
Proof. induction 1 as [|[|t bs] items Hi H IH]; simpl in *; [done..|]. by rewrite decide_False. Qed.

Lemma fetch_items_present tag pre bs post :
  Forall (fun i => ~ is_opt tag i) pre -> fetch_items tag (pre ++ Opt tag bs :: post) = Some bs.
Proof.
  induction 1 as [|[|t bs'] items Hi H IH]; simpl in *; [by rewrite decide_True|done|].
  by rewrite decide_False.
Qed.

(** Laws of the abstract store. *)
Lemma fetch_store_same tag bs items :
  bs <> [] -> fetch_items tag (store_items tag bs items) = Some bs.
Proof.
  intros Hb. destruct (items_split tag items) as [H|(pre & old & post & -> & H)].
  - rewrite store_items_absent by done. unfold new_item. rewrite decide_False by done.
    by apply fetch_items_present.
  - rewrite store_items_present by done. unfold new_item. rewrite decide_False by done.
    by apply fetch_items_present.
Qed.

Lemma fetch_store_other tag tag' bs items :
  tag' <> tag -> fetch_items tag' (store_items tag bs items) = fetch_items tag' items.
Proof.
  intros Hne. induction items as [|[|t old] items IH]; simpl.
  - case_decide; simpl; [done|]. by rewrite decide_False.
  - done.
  - case_decide; [subst t; rewrite (decide_False (P := tag = tag')) by done|]; simpl.
    + case_decide; simpl; [done|]. by rewrite decide_False.
    + by rewrite IH.
Qed.

(** ** Storing into a well-formed block *)

Section store.
Context (realloc : dhcp_options -> Z -> result unit * dhcp_options) `{!DhcpRealloc realloc}.

Lemma expand_block_spec o n r o' :
  expand_block realloc o n = (r, o') -> 0 <= used_len o <= alloc_len o -> alloc_len o < 2 ^ 31 -> 0 <= n ->
  match r with
  | Err e => o' = o /\ n > alloc_len o /\ fst (realloc o n) = Err e
  | Ok _ => used_len o' = used_len o /\ n <= alloc_len o' < 2 ^ 31 /\ alloc_len o <= alloc_len o' /\
            forall x, 0 <= x < alloc_len o -> data o' x = data o x
  end.
Proof.
  unfold expand_block. intros E Hu Ha Hn. case_decide.
  - destruct (realloc o n) as [[[]|e] o1] eqn:Er; simplify_eq/=.
    + destruct (realloc_ok _ _ _ Er) as (? & ? & Hd); [lia..|]. split_and!; [done|lia..|].
      intros x Hx. unfold memset. rewrite decide_False by lia. apply Hd. lia.
    + apply realloc_err in Er as Eo. auto.
  - simplify_eq. split_and!; [done|lia..|done].
Qed.

(** Resizing an option that no encapsulator surrounds: the bytes before it
    and after it are kept, the latter moved to their new place. *)
Lemma resize_plain_spec o P O S new_len r o' :
  resize_dhcp_option realloc o (Z.of_nat (length P)) None (Z.of_nat (length O)) new_len = (r, o') ->
  0 <= used_len o <= alloc_len o -> alloc_len o < 2 ^ 31 -> 0 <= new_len ->
  mload (data o) 0 (Z.to_nat (used_len o)) = P ++ O ++ S ->
  match r with
  | Err e =>
    o' = o /\ (e = ENOSPC /\ new_len > DHCP_MAX_LEN \/
              let n := used_len o + new_len - Z.of_nat (length O) in
              n > alloc_len o /\ fst (realloc o n) = Err e)
  | Ok _ =>
    used_len o' = used_len o + new_len - Z.of_nat (length O) /\
    new_len <= DHCP_MAX_LEN /\ used_len o' <= alloc_len o' < 2 ^ 31 /\
    mload (data o') 0 (length P) = P /\
    mload (data o') (Z.of_nat (length P) + new_len) (length S) = S
  end.
Proof.
  intros E Hu Ha Hn Hm. unfold resize_dhcp_option in E.
  assert (used_len o = Z.of_nat (length P) + Z.of_nat (length O) + Z.of_nat (length S)) as Hul.
  { pose proof (f_equal length Hm) as Hl. rewrite mload_length, !length_app in Hl. lia. }
  case_decide as Hmax; [by simplify_eq; auto|]. unfold DHCP_MAX_LEN in *.
  rewrite sext_small in E by lia.
  rewrite (wrap_small 64 (used_len o + _)) in E by zlia.
  remember (used_len o + (new_len - Z.of_nat (length O))) as n eqn:En.
  destruct (expand_block realloc o n) as [r1 o1] eqn:Ee.
  apply expand_block_spec in Ee; [|lia..]. destruct r1 as [[]|e].
  2: { injection E as <- <-. destruct Ee as (-> & ? & ?). split; [done|]. right.
       replace (used_len o + new_len - Z.of_nat (length O)) with n by lia. auto. }
  destruct Ee as (Hu1 & Ha1 & Ha1' & Hd1). simpl in E.
  apply mload_split in Hm as [HP Hm]. apply mload_split in Hm as [_ HS].
  rewrite (wrap_small 64) in E by zlia.
  set (o2 := DhcpOptions _ _ _) in E.
  assert (mload (data o2) 0 (length P) = P) as HP2.
  { rewrite <- HP at 2. apply mload_ext. intros x Hx. simpl. unfold memmove.
    rewrite decide_False by lia. apply Hd1. lia. }
  assert (mload (data o2) (Z.of_nat (length P) + new_len) (length S) = S) as HS2.
  { simpl. replace (n - Z.of_nat (length P) - new_len) with (Z.of_nat (length S)) by lia.
    rewrite mload_memmove. rewrite <- HS at 2. rewrite Z.add_0_l. apply mload_ext.
    intros x Hx. apply Hd1. lia. }
  case_decide as Hsh.
  - destruct (realloc_shrink o2 n) as [o3 E3]; [simpl; lia|]. rewrite E3 in E. injection E as <- <-.
    destruct (realloc_ok _ _ _ E3) as (Hu3 & Ha3 & Hd3); [simpl; lia..|]. simpl in Hu3.
    split_and!; [lia..| |].
    + rewrite <- HP2 at 2. apply mload_ext. intros x Hx. apply Hd3. simpl. lia.
    + rewrite <- HS2 at 2. apply mload_ext. intros x Hx. apply Hd3. simpl. lia.
  - injection E as <- <-. simpl. split_and!; [lia..|done|done].
Qed.

Lemma encode_new_item_length tag bs :
  Z.of_nat (length (encode_items (new_item tag bs))) =
    if decide (Z.of_nat (length bs) = 0) then 0 else Z.of_nat (length bs) + DHCP_OPTION_HEADER_LEN.
Proof.
  unfold new_item, DHCP_OPTION_HEADER_LEN. destruct bs as [|b bs]; [done|].
  rewrite decide_False by done. rewrite decide_False by (simpl; lia).
  rewrite encode_items_cons, app_nil_r. simpl. lia.
Qed.

(** Where the store will happen, in bytes: [P] before, [O] the old option,
    [S] after. *)
Lemma locate o items tail tag :
  represents o items tail -> 1 <= tag <= DHCP_MAX_OPTION ->
  exists P O S found,
    find_dhcp_option_with_encap o tag = (found, None) /\
    match found with Ok off => off | Err _ => Z.of_nat (length (encode_items items)) end
      = Z.of_nat (length P) /\
    match found with Ok off => dhcp_option_len (data o) off | Err _ => 0 end = Z.of_nat (length O) /\
    encode_items items ++ tail = P ++ O ++ S /\
    forall bs, encode_items (store_items tag bs items) ++ tail
               = P ++ encode_items (new_item tag bs) ++ S.
Proof.
  intros Hr Ht. destruct (items_split tag items) as [H|(pre & old & post & -> & H)].
  - exists (encode_items items), [], tail, (Err ENOENT).
    rewrite (find_absent o items tail) by done. split_and!; try done.
    intros bs. rewrite store_items_absent, encode_items_app by done. by rewrite <- app_assoc.
  - exists (encode_items pre), (encode_item (Opt tag old)), (encode_items post ++ tail),
      (Ok (Z.of_nat (length (encode_items pre)))).
    rewrite (find_present o pre tag old post tail) by done.
    destruct Hr as (_ & _ & Hm & Hok & _).
    rewrite encode_items_app, encode_items_cons, <- !app_assoc in Hm |- *.
    apply mload_split in Hm as [_ Hm]. apply Forall_app in Hok as [_ [Hok _]%Forall_cons].
    split_and!; try done.
    + by eapply dhcp_option_len_item.
    + intros bs. rewrite store_items_present, !encode_items_app by done. by rewrite <- !app_assoc.
Qed.

Lemma write_option_spec o P S tag bs :
  1 <= tag <= DHCP_MAX_OPTION -> Z.of_nat (length bs) <= DHCP_MAX_LEN -> bs <> [] ->
  let N := encode_items (new_item tag bs) in
  mload (data o) 0 (length P) = P ->
  mload (data o) (Z.of_nat (length P) + Z.of_nat (length N)) (length S) = S ->
  mload (data (write_option o (Z.of_nat (length P)) tag bs)) 0 (length (P ++ N ++ S)) = P ++ N ++ S.
Proof.
  intros Ht Hl Hb N HP HS. unfold DHCP_MAX_OPTION, DHCP_MAX_LEN in *.
  assert (N = tag :: Z.of_nat (length bs) :: bs) as HN.
  { subst N. unfold new_item. rewrite decide_False by done. by rewrite encode_items_cons, app_nil_r. }
  rewrite !length_app, !mload_app. f_equal; [|f_equal].
  - etransitivity; [|exact HP]. apply mload_ext. intros x Hx. simpl. unfold memcpy, option_data, mset, DHCP_OPTION_HEADER_LEN.
    rewrite !decide_False by lia. done.
  - rewrite HN. cbn [length mload]. unfold write_option. cbn [data].
    assert (forall x, x < Z.of_nat (length P) + 2 ->
      memcpy (mset (mset (data o) (Z.of_nat (length P)) (u8 tag)) (Z.of_nat (length P) + 1)
                (u8 (Z.of_nat (length bs)))) (option_data (Z.of_nat (length P))) bs x
      = mset (mset (data o) (Z.of_nat (length P)) (u8 tag)) (Z.of_nat (length P) + 1)
                (u8 (Z.of_nat (length bs))) x) as G.
    { intros x Hx. unfold memcpy at 1, option_data, DHCP_OPTION_HEADER_LEN.
      rewrite decide_False by lia. done. }
    rewrite !G by lia. unfold mset at 1 2 3 4 5. unfold mset.
    rewrite (decide_False (P := 0 + _ = _)) by lia.
    rewrite (decide_True (P := 0 + _ = _)) by lia.
    rewrite (decide_True (P := 0 + _ + 1 = _)) by lia.
    rewrite !wrap_small by zlia. do 2 f_equal.
    replace (0 + Z.of_nat (length P) + 1 + 1) with (option_data (Z.of_nat (length P)))
      by (unfold option_data, DHCP_OPTION_HEADER_LEN; lia).
    apply mload_memcpy.
  - etransitivity; [|exact HS]. rewrite Z.add_0_l. apply mload_ext. intros x Hx. simpl.
    rewrite HN in Hx. cbn [length] in Hx.
    unfold memcpy, option_data, mset, DHCP_OPTION_HEADER_LEN. rewrite !decide_False by lia. done.
Qed.

Lemma set_plain_spec o items tail tag bs depth r o' :
  set_dhcp_option realloc (S depth) o tag bs = (r, o') ->
  represents o items tail -> 1 <= tag <= DHCP_MAX_OPTION ->
  match r with
  | Ok off => represents o' (store_items tag bs items) tail
  | Err e => o' = o /\ (e = ENOSPC /\ Z.of_nat (length bs) > 253 \/
                       exists n, alloc_len o < n <= used_len o + Z.of_nat (length (encode_items (new_item tag bs))) /\
                         fst (realloc o n) = Err e)
  end.
Proof.
  intros E Hr Ht. cbn [set_dhcp_option] in E.
  rewrite decide_False in E by (unfold DHCP_PAD, DHCP_MAX_OPTION in *; lia).
  rewrite (find_end o items tail Hr) in E.
  destruct (locate o items tail tag Hr Ht) as (P & O & S & found & Ef & Eoff & Elen & Esplit & Estore).
  rewrite Ef in E. rewrite (decide_False (P := DHCP_ENCAPSULATOR tag <> 0)) in E.
  2: { apply not_encap_opt. unfold DHCP_MAX_OPTION in *; lia. }
  rewrite Eoff, Elen, <- (encode_new_item_length tag) in E.
  destruct (resize_dhcp_option _ _ _ _ _ _) as [r1 o1] eqn:Er.
  destruct Hr as (Hu & Ha & Hm & Hok & Htail). rewrite Esplit in Hm.
  apply (resize_plain_spec o P O S) in Er; [|lia|lia|lia|done].
  destruct r1 as [[]|e].
  2: { simplify_eq. destruct Er as [-> [[-> Hbig]|[? ?]]]; split; [done| |done|right; eexists; split; [|done]; lia].
       left. split; [done|]. rewrite encode_new_item_length in Hbig.
       unfold DHCP_MAX_LEN, DHCP_OPTION_HEADER_LEN in Hbig. case_decide; lia. }
  destruct Er as (Hu1 & Hnl & Ha1 & HP & HS).
  assert (Z.of_nat (length bs) <= DHCP_MAX_LEN) as Hlen.
  { clear E. rewrite encode_new_item_length in Hnl.
    unfold DHCP_MAX_LEN, DHCP_OPTION_HEADER_LEN in *. case_decide; lia. }
  injection E as <- <-.
  pose proof (f_equal length Hm) as Hl. rewrite mload_length, !length_app in Hl.
  case_decide as Hb.
  - split_and!; [simpl; lia..| |by apply store_items_ok|done].
    rewrite Estore, <- (write_option_spec o1 P S tag bs) by (done || by intros ->).
    f_equal. rewrite !length_app. simpl. lia.
  - assert (bs = []) as -> by (destruct bs; simpl in *; [done|lia]).
    split_and!; [lia..| |by apply store_items_ok|done].
    rewrite Estore. replace (Z.to_nat (used_len o1)) with (length P + length S)%nat
      by (rewrite Hu1; simpl; lia).
    rewrite mload_app, HP. f_equal. simpl. rewrite <- HS at 2. simpl.
    by rewrite Z.add_0_r.
Qed.
End store.

(** ** Fetching from a well-formed block *)

Lemma mload_firstn m a n k : (k <= n)%nat -> mload m a k = take k (mload m a n).
Proof.
  intros Hk. replace n with (k + (n - k))%nat by lia.
  by rewrite mload_app, take_app_length' by (by rewrite mload_length).
Qed.

Lemma fetch_refines o items tail tag len :
  represents o items tail -> 1 <= tag <= DHCP_MAX_OPTION -> 0 <= len ->
  dhcpopt_fetch o tag len =
    match fetch_items tag items with
    | Some bs => (Ok (Z.of_nat (length bs)), take (Z.to_nat len) bs)
    | None => (Err ENOENT, [])
    end.
Proof.
  intros Hr Ht Hlen. unfold dhcpopt_fetch.
  destruct (items_split tag items) as [H|(pre & bs & post & -> & H)].
  - by rewrite (find_absent o items tail), fetch_items_absent.
  - rewrite (find_present o pre tag bs post tail), fetch_items_present by done. simpl.
    destruct Hr as (_ & _ & Hm & Hok & _).
    rewrite encode_items_app, encode_items_cons, <- !app_assoc in Hm.
    apply mload_split in Hm as [_ Hm]. cbn [encode_item app] in Hm.
    apply mload_cons in Hm as [_ Hm]. apply mload_cons in Hm as [Hl Hm].
    apply mload_split in Hm as [Hd _]. rewrite Z.add_0_l in *.
    unfold option_len. rewrite Hl. f_equal.
    replace (option_data _) with (Z.of_nat (length (encode_items pre)) + 1 + 1)
      by (unfold option_data, DHCP_OPTION_HEADER_LEN; lia).
    rewrite (mload_firstn _ _ (length bs)), Hd by (case_decide; lia).
    case_decide; [|done]. rewrite Nat2Z.id, !take_ge; [done|lia..].
Qed.

(** ** Initialising a block *)

Lemma used_len_loop_total fuel m offset remaining used :
  mem_ok m -> 0 <= remaining < Z.of_nat fuel -> 0 <= used <= offset ->
  exists u, used_len_loop fuel m offset remaining used = Some u /\ 0 <= u <= offset + remaining.
Proof.
  intros Hm. revert offset remaining used.
  induction fuel as [|fuel IH]; intros offset remaining used Hf Hu; [lia|].
  pose proof (dhcp_option_len_bound m offset Hm). cbn [used_len_loop].
  case_decide; [eauto with lia|]. case_decide; [eauto with lia|].
  destruct (IH (offset + dhcp_option_len m offset) (remaining - dhcp_option_len m offset)
    (if decide (option_tag m offset <> DHCP_PAD) then offset + dhcp_option_len m offset else used))
    as (u & E & ?); [lia|case_decide; lia|].
  exists u. split; [done|lia].
Qed.

(** The scan over encoded items followed by pads. *)
Lemma used_len_loop_pads fuel m offset n used :
  mload m offset n = replicate n DHCP_PAD -> (n < fuel)%nat ->
  used_len_loop fuel m offset (Z.of_nat n) used = Some used.
Proof.
  revert offset n. induction fuel as [|fuel IH]; intros offset n Hm Hf; [lia|].
  destruct n as [|n]; [done|]. cbn [used_len_loop].
  apply (mload_cons _ _ _ DHCP_PAD (replicate n DHCP_PAD)) in Hm as [Ht Hm].
  rewrite length_replicate in Hm.
  unfold dhcp_option_len, option_tag. rewrite Ht.
  rewrite decide_False by lia. simpl. rewrite decide_False by lia.
  replace (Z.of_nat (S n) - 1) with (Z.of_nat n) by lia. apply IH; [done|lia].
Qed.

Definition ends_in_option (items : list item) (tail : list Z) : Prop :=
  tail = [DHCP_END] \/ tail = [] /\ (items = [] \/ exists tag bs, last items = Some (Opt tag bs)).

Lemma used_len_loop_items items : forall fuel m offset n used tail k,
  mload m offset n = encode_items items ++ tail ++ replicate k DHCP_PAD ->
  Forall item_ok items -> ends_in_option items tail -> (n < fuel)%nat ->
  (items = [] -> tail = [] -> used = offset) ->
  used_len_loop fuel m offset (Z.of_nat n) used =
    Some (offset + Z.of_nat (length (encode_items items ++ tail))).
Proof.
  induction items as [|i items IH]; intros fuel m offset n used tail k Hm Hok He Hf Hu.
  - simpl in Hm |- *. assert (n = length tail + k)%nat as Hn
      by (by rewrite <- (length_replicate k DHCP_PAD), <- length_app, <- Hm, mload_length).
    destruct He as [->|[-> _]].
    + destruct fuel as [|fuel]; [lia|]. cbn [used_len_loop]. simpl in Hm.
      apply mload_cons in Hm as [Ht Hm]. rewrite length_replicate in Hm.
      unfold dhcp_option_len, option_tag. rewrite Ht. simpl in Hn |- *.
      rewrite decide_False by lia. rewrite decide_False by lia.
      replace (Z.of_nat n - 1) with (Z.of_nat k) by lia. rewrite used_len_loop_pads; [done|done|lia].
    + simpl in Hm, Hn. subst n. rewrite used_len_loop_pads by done. rewrite Hu by done. simpl. f_equal. lia.
  - apply Forall_cons in Hok as [Hi Hok]. rewrite encode_items_cons, <- app_assoc in Hm.
    destruct (dhcp_option_len_item _ _ _ _ _ Hm Hi) as [Hlen Htag].
    pose proof (f_equal length Hm) as Hl. rewrite mload_length, length_app in Hl.
    apply mload_split in Hm as [_ Hm]. destruct fuel as [|fuel]; [lia|]. cbn [used_len_loop].
    rewrite Hlen, Htag. pose proof (encode_item_length i) as Hil.
    assert (0 < Z.of_nat (length (encode_item i))) by (destruct i; lia).
    rewrite decide_False by lia. rewrite decide_False by lia.
    replace (Z.of_nat n - Z.of_nat (length (encode_item i)))
      with (Z.of_nat (length (encode_items items ++ tail ++ replicate k DHCP_PAD))) by lia.
    rewrite (IH fuel m _ _ _ tail k); [|done|done| |lia|].
    + rewrite encode_items_cons, <- app_assoc, (length_app (encode_item i)). f_equal. lia.
    + destruct He as [->|[-> [?|(tag & bs & E)]]]; [by left|done|]. right. split; [done|].
      destruct items as [|i' items]; [by left|right]. exists tag, bs. done.
    + intros -> ->. destruct He as [?|[_ [?|(tag & bs & E)]]]; [done..|]. simpl in E. simplify_eq.
      rewrite decide_True; [done|]. destruct Hi. unfold DHCP_PAD. lia.
Qed.

(** ** Properties *)

(** The option search terminates on every block, however malformed: the
    loop ends within the iterations the model allows, for any tag and any
    memory contents. *)
Theorem find_dhcp_option_terminates o tag :
  mem_ok (data o) -> 0 <= used_len o ->
  is_Some (find_loop (find_fuel o) (data o) tag 0 (used_len o) None).
Proof. intros Hm Hu. apply find_loop_total; [done..|]. unfold find_fuel. lia. Qed.

Lemma find_dhcp_option_terminates_witness :
  is_Some (find_loop (find_fuel (DhcpOptions (fun _ => 175) 3 3)) (fun _ => 175)
             (DHCP_ENCAP_OPT 175 8) 0 3 None).
Proof.
  apply (find_dhcp_option_terminates (DhcpOptions (fun _ => 175) 3 3)); [|done].
  intros x. simpl. unfold in_width. lia.
Defined.

(** The search for a plain (not encapsulated) tag is memory safe: a found
    option lies wholly inside the used block and carries the tag, and the
    answer does not depend on any byte outside the used block. *)
Theorem find_dhcp_option_safe o m' tag :
  mem_ok (data o) -> mem_ok m' -> 0 <= used_len o -> 0 <= tag < 256 ->
  (forall x, 0 <= x < used_len o -> m' x = data o x) ->
  find_dhcp_option_with_encap (DhcpOptions m' (used_len o) (alloc_len o)) tag
    = find_dhcp_option_with_encap o tag /\
  forall off, fst (find_dhcp_option_with_encap o tag) = Ok off ->
    0 <= off /\ off + dhcp_option_len (data o) off <= used_len o /\ option_tag (data o) off = tag.
Proof.
  intros Hm Hm' Hu Ht Heq. unfold find_dhcp_option_with_encap. split.
  - case_decide; [done|]. simpl. unfold find_fuel. simpl.
    by rewrite (find_loop_plain_local _ m' (data o)).
  - intros off. case_decide; [done|].
    destruct (find_loop _ _ _ _ _ _) as [[r e]|] eqn:E; [|done]. simpl. intros ->.
    apply find_loop_plain_bounds in E as (_ & ? & ? & ?); auto with lia.
Qed.

Lemma find_dhcp_option_safe_witness :
  let m := mem_of [53; 1; 5; 6; 4] in
  find_dhcp_option_with_encap (DhcpOptions (fun x => if decide (x < 5) then m x else 9) 5 5) 6
    = find_dhcp_option_with_encap (DhcpOptions m 5 5) 6.
Proof.
  intros m.
  assert (mem_ok m) as Hm by (apply mem_of_ok; repeat constructor; done).
  apply (find_dhcp_option_safe (DhcpOptions m 5 5) (fun x => if decide (x < 5) then m x else 9) 6);
    try done.
  - intros x. case_decide; [apply Hm|done].
  - intros x Hx. simpl in Hx. rewrite decide_True by lia. done.
Defined.

(** Storing an option implements the abstract store.  On a well-formed
    block, for every reallocator that keeps its contract, a successful store
    leaves a well-formed block holding exactly the updated option list
    followed by the same tail; a failed store leaves the block untouched and
    fails only because the value is too long or the block could not grow. *)
Theorem dhcpopt_store_refines realloc `{!DhcpRealloc realloc} o items tail tag bs :
  represents o items tail -> 1 <= tag <= DHCP_MAX_OPTION ->
  match dhcpopt_store realloc o tag bs with
  | (Ok _, o') => represents o' (store_items tag bs items) tail
  | (Err e, o') => o' = o /\ (e = ENOSPC /\ Z.of_nat (length bs) > 253 \/
                              exists n, n > alloc_len o /\ fst (realloc o n) = Err e)
  end.
Proof.
  intros Hr Ht. unfold dhcpopt_store.
  destruct (set_dhcp_option realloc 4 o tag bs) as [r o'] eqn:E.
  apply (set_plain_spec realloc _ items tail) in E; [|done..]. destruct r; [done|].
  destruct E as [-> [?|(n & ? & ?)]]; [by auto|]. split; [done|]. right. exists n. split; [lia|done].
Qed.

Lemma dhcpopt_store_refines_witness :
  represents (snd (dhcpopt_store dhcpopt_no_realloc
    (DhcpOptions (mem_of [53; 1; 5; 0; 6; 1; 9; 255]) 8 64) 6 [7; 8; 9]))
    [Opt 53 [5]; Pad; Opt 6 [7; 8; 9]] [255].
Proof.
  apply (dhcpopt_store_refines dhcpopt_no_realloc
    (DhcpOptions (mem_of [53; 1; 5; 0; 6; 1; 9; 255]) 8 64)
    [Opt 53 [5]; Pad; Opt 6 [9]] [255] 6 [7; 8; 9]); [|done].
  split_and!; [done..| |done]. repeat constructor; done.
Defined.

(** Store/fetch round trip on the bytes: after a successful store of a
    non-empty value, a fetch with a large enough buffer returns that value,
    and a fetch of any other plain tag returns what it returned before. *)
Theorem dhcpopt_store_fetch realloc `{!DhcpRealloc realloc} o o' items tail tag bs :
  represents o items tail -> 1 <= tag <= DHCP_MAX_OPTION -> bs <> [] ->
  dhcpopt_store realloc o tag bs = (Ok tt, o') ->
  (forall len, Z.of_nat (length bs) <= len ->
     dhcpopt_fetch o' tag len = (Ok (Z.of_nat (length bs)), bs)) /\
  (forall tag' len, 1 <= tag' <= DHCP_MAX_OPTION -> tag' <> tag -> 0 <= len ->
     dhcpopt_fetch o' tag' len = dhcpopt_fetch o tag' len).
Proof.
  intros Hr Ht Hb E. unfold dhcpopt_store in E.
  destruct (set_dhcp_option realloc 4 o tag bs) as [[off|e] o1] eqn:Es; simplify_eq.
  apply (set_plain_spec realloc _ items tail) in Es; [|done..]. split.
  - intros len Hlen. rewrite (fetch_refines _ _ _ _ _ Es), fetch_store_same by (done || lia).
    by rewrite take_ge by lia.
  - intros tag' len Ht' Hne Hlen.
    by rewrite (fetch_refines _ _ _ _ _ Es), (fetch_refines _ _ _ _ _ Hr), fetch_store_other.
Qed.

Lemma dhcpopt_store_fetch_witness :
  dhcpopt_fetch (snd (dhcpopt_store dhcpopt_no_realloc (dhcpopt_init (fun _ => 0) 32) 53 [1])) 53 4 = (Ok 1, [1]).
Proof.
  refine (proj1 (dhcpopt_store_fetch dhcpopt_no_realloc (dhcpopt_init (fun _ => 0) 32) _
            [] [] 53 [1] _ _ _ _) 4 _); [|done|done| |done].
  - split_and!; [by vm_compute..|constructor|done].
  - apply injective_projections; [by vm_compute|reflexivity].
Defined.

(** Initialising a block that holds well-formed options, an optional end
    marker and then only pads yields a block that represents those options,
    with the trailing pads outside the used length. *)
Theorem dhcpopt_init_represents m len items tail k :
  0 <= len < 2 ^ 31 ->
  mload m 0 (Z.to_nat len) = encode_items items ++ tail ++ replicate k DHCP_PAD ->
  Forall item_ok items -> ends_in_option items tail ->
  represents (dhcpopt_init m len) items tail.
Proof.
  intros Hlen Hm Hok He. unfold dhcpopt_init, dhcpopt_update_used_len. cbn [data alloc_len].
  rewrite (sext_small 64) by lia.
  pose proof (used_len_loop_items items (S (Z.to_nat len)) m 0 _ 0 tail k Hm Hok He
                ltac:(lia) ltac:(done)) as E.
  rewrite Z2Nat.id in E by lia. rewrite E. simpl.
  pose proof (f_equal length Hm) as Hl. rewrite mload_length, app_assoc, length_app in Hl.
  split_and!; simpl; [lia..| |done|].
  - rewrite Z.add_0_l, Nat2Z.id. rewrite app_assoc in Hm. by apply mload_split in Hm as [? _].
  - destruct He as [->|[-> _]]; done.
Qed.

Lemma dhcpopt_init_represents_witness :
  represents (dhcpopt_init (mem_of [53; 1; 5; 255; 0; 0]) 6) [Opt 53 [5]] [255].
Proof.
  apply (dhcpopt_init_represents _ _ [Opt 53 [5]] [255] 2); [done|done| |by left].
  repeat constructor; done.
Defined.

(** The search for an encapsulated option can return an option outside
    the used block.  In this block the encapsulator occupies all five used
    (and allocated) bytes and holds one option, 7; the search for encapsulated
    option 8 nevertheless answers offset 5, decided by the two bytes that
    follow the block, because the encapsulated region is entered with the
    encapsulator's full length including its two-byte header. *)
Theorem find_encapsulated_overread :
  let o after := DhcpOptions (mem_of ([175; 3; 7; 1; 5] ++ after)) 5 5 in
  find_dhcp_option_with_encap (o [8; 0]) (DHCP_ENCAP_OPT 175 8) = (Ok 5, Some 0) /\
  find_dhcp_option_with_encap (o [255; 0]) (DHCP_ENCAP_OPT 175 8) = (Err ENOENT, Some 0).
Proof. by vm_compute. Qed.
