(* ===== verification/Malloc.v ===== *)
(** * Dynamic memory allocation (core/malloc.c)

    The free list is a list of (address, size) pairs in list order, for a
    64-bit build.  Memory contents are bytes indexed by address; the size word
    in front of a malloc()ed block is stored there, little-endian.  What the
    source keeps inside free blocks (their size and links) is the free list of
    the model and is not repeated in the contents.  The cache discarders, a
    linker table of callbacks into the rest of the firmware, are a parameter
    acting on the whole state; [W] is the part of the state that is theirs.
    Valgrind annotations and debug messages have no effect on the state. *)

From S2P Require Import Prelude CMem.

Definition fls (z : Z) : Z := if decide (z = 0) then 0 else Z.log2 z + 1.

(** [size_t size; char pad[4]; struct list_head list] on a 64-bit build. *)
Definition sizeof_memory_block : Z := 32.
Definition MIN_MEMBLOCK_SIZE : Z := Z.shiftl 1 (fls (sizeof_memory_block - 1)).

(** [offsetof ( struct autosized_block, data )] *)
Definition autosized_header : Z := 8.

Definition NOWHERE : Z := 2 ^ 64 - 1.

(** Little-endian 64-bit words in memory. *)
Definition store64 (m : mem) (a v : Z) : mem := memcpy m a (le_bytes 8 v).
Definition load64 (m : mem) (a : Z) : Z := le_value (mload m a 8).

Abbreviation block := (Z * Z)%type.

Section malloc.
Context {W : Type}.

Record heap := Heap {
  free_blocks : list block;
  freemem : Z;
  usedmem : Z;
  maxusedmem : Z;
  contents : mem;
  world : W;
}.

Definition with_free (h : heap) (l : list block) (freemem usedmem maxusedmem : Z) : heap :=
  Heap l freemem usedmem maxusedmem (contents h) (world h).

Definition with_contents (h : heap) (m : mem) : heap :=
  Heap (free_blocks h) (freemem h) (usedmem h) (maxusedmem h) m (world h).

(** The integrity assertions, as a test on the free list. *)
Fixpoint check_blocks (prev : option block) (l : list block) : bool :=
  match l with
  | [] => true
  | (a, s) :: l =>
    bool_decide (s >= sizeof_memory_block) && bool_decide (s >= MIN_MEMBLOCK_SIZE) &&
    bool_decide (u64 (a + s) > a) &&
    match prev with
    | Some (pa, ps) => bool_decide (a > pa) && bool_decide (a > u64 (pa + ps))
    | None => true
    end &&
    check_blocks (Some (a, s)) l
  end.

Context (discarders : list (heap -> Z * heap)) (virt_offset : Z).

Definition virt_to_phys (a : Z) : Z := u64 (a + virt_offset).

Fixpoint discard_table (table : list (heap -> Z * heap)) (h : heap) : Z * heap :=
  match table with
  | [] => (0, h)
  | discard :: table =>
    let '(discarded, h) := discard h in
    if decide (discarded <> 0) then (discarded, h) else discard_table table h
  end.

Definition discard_cache (h : heap) : Z * heap := discard_table discarders h.

(** Returns [None] when the fuel runs out. *)
Fixpoint discard_all_cache (fuel : nat) (h : heap) : option heap :=
  match fuel with
  | O => None
  | S fuel =>
    let '(discarded, h) := discard_cache h in
    if decide (discarded <> 0) then discard_all_cache fuel h else Some h
  end.

Definition round_size (size : Z) : Z :=
  Z.land (u64 (size + MIN_MEMBLOCK_SIZE - 1)) (Z.lnot (MIN_MEMBLOCK_SIZE - 1)).

(** The first free block with room, split: the list without the allocated
    part and the address of the allocated part. *)
Fixpoint search_blocks (l : list block) (actual_size align_mask offset : Z) :
    option (Z * list block) :=
  match l with
  | [] => None
  | (a, s) :: l =>
    let pre_size := Z.land (u64 (offset - virt_to_phys a)) align_mask in
    if decide (s < pre_size \/ s - pre_size < actual_size) then
      match search_blocks l actual_size align_mask offset with
      | Some (ptr, l) => Some (ptr, (a, s) :: l)
      | None => None
      end
    else
      let post_size := s - pre_size - actual_size in
      let ptr := a + pre_size in
      let post := ptr + actual_size in
      let l := if decide (post_size >= MIN_MEMBLOCK_SIZE) then (post, post_size) :: l else l in
      let l := if decide (pre_size < MIN_MEMBLOCK_SIZE) then l else (a, pre_size) :: l in
      Some (ptr, l)
  end.

(** The [while ( 1 )] loop: search, or discard cached data and try again.
    The result is the pointer, zero for NULL; [None] is exhausted fuel. *)
Fixpoint alloc_loop (fuel : nat) (h : heap) (actual_size align_mask offset : Z) :
    option (Z * heap) :=
  match fuel with
  | O => None
  | S fuel =>
    match search_blocks (free_blocks h) actual_size align_mask offset with
    | Some (ptr, l) =>
      let freemem := u64 (freemem h - actual_size) in
      let usedmem := u64 (usedmem h + actual_size) in
      let maxusedmem := if decide (usedmem > maxusedmem h) then usedmem else maxusedmem h in
      Some (ptr, with_free h l freemem usedmem maxusedmem)
    | None =>
      let '(discarded, h) := discard_cache h in
      if decide (discarded = 0) then Some (0, h)
      else alloc_loop fuel h actual_size align_mask offset
    end
  end.

Definition alloc_memblock (fuel : nat) (h : heap) (size align offset : Z) : option (Z * heap) :=
  let actual_size := round_size size in
  if decide (actual_size = 0) then Some (0, h) else
  let align_mask := Z.lor (u64 (align - 1)) (MIN_MEMBLOCK_SIZE - 1) in
  alloc_loop fuel h actual_size align_mask offset.

(** The insertion loop of [free_memblock]: the blocks passed over, the block
    being freed (grown by a merge), the last [gap_after] and the blocks from
    the one at which the loop stopped.  [None] stands for stopping at a block
    that has just been unlinked. *)
Fixpoint free_scan (actual_size : Z) (freeing : block) (gap_after : Z) (l : list block) :
    option (list block * block * Z * list block) :=
  match l with
  | [] => Some ([], freeing, gap_after, [])
  | (a, s) :: l' =>
    let gap_before := s64 (fst freeing - (a + s)) in
    let gap_after := s64 (a - (fst freeing + snd freeing)) in
    if decide (gap_before = 0) then
      if decide (gap_after >= 0) then None
      else free_scan actual_size (a, u64 (s + actual_size)) gap_after l'
    else if decide (gap_after >= 0) then Some ([], freeing, gap_after, l)
    else match free_scan actual_size freeing gap_after l' with
         | Some (before, freeing, gap_after, rest) => Some ((a, s) :: before, freeing, gap_after, rest)
         | None => None
         end
  end.

(** Linking the freed block in, merging the block that follows it. *)
Definition free_insert (before : list block) (freeing : block) (gap_after : Z) (rest : list block) :
    list block :=
  match rest with
  | (a, s) :: rest' =>
    if decide (gap_after = 0) then before ++ (fst freeing, u64 (snd freeing + s)) :: rest'
    else before ++ freeing :: rest
  | [] => before ++ [freeing]
  end.

Definition free_memblock (h : heap) (ptr size : Z) : option heap :=
  if decide (ptr = 0) then Some h else
  let actual_size := round_size size in
  match free_scan actual_size (ptr, actual_size) (-1) (free_blocks h) with
  | Some (before, freeing, gap_after, rest) =>
    Some (with_free h (free_insert before freeing gap_after rest)
            (u64 (freemem h + actual_size)) (u64 (usedmem h - actual_size)) (maxusedmem h))
  | None => None
  end.

Definition realloc (fuel : nat) (h : heap) (old_ptr new_size : Z) : option (Z * heap) :=
  let allocated :=
    if decide (new_size <> 0) then
      let new_total_size := u64 (new_size + autosized_header) in
      if decide (new_total_size < new_size) then Some (0, h)
      else match alloc_memblock fuel h new_total_size 1 0 with
           | None => None
           | Some (new_block, h) =>
             if decide (new_block = 0) then Some (0, h)
             else Some (new_block + autosized_header,
                        with_contents h (store64 (contents h) new_block new_total_size))
           end
    else Some (NOWHERE, h) in
  match allocated with
  | None => None
  | Some (new_ptr, h) =>
    if decide (new_ptr = 0) then Some (0, h)
    else if decide (old_ptr <> 0 /\ old_ptr <> NOWHERE) then
      let old_block := old_ptr - autosized_header in
      let old_total_size := load64 (contents h) old_block in
      let old_size := u64 (old_total_size - autosized_header) in
      let n := if decide (old_size < new_size) then old_size else new_size in
      let h := with_contents h (memmove (contents h) new_ptr old_ptr n) in
      match free_memblock h old_block old_total_size with
      | Some h => Some (new_ptr, h)
      | None => None
      end
    else Some (new_ptr, h)
  end.

Definition malloc (fuel : nat) (h : heap) (size : Z) : option (Z * heap) := realloc fuel h 0 size.

Definition free (fuel : nat) (h : heap) (ptr : Z) : option heap := snd <$> realloc fuel h ptr 0.

Definition zalloc (fuel : nat) (h : heap) (size : Z) : option (Z * heap) :=
  match malloc fuel h size with
  | Some (data, h) =>
    if decide (data <> 0) then Some (data, with_contents h (memset (contents h) data 0 size))
    else Some (data, h)
  | None => None
  end.

Definition mpopulate (h : heap) (start len : Z) : option heap :=
  let len := Z.land len (Z.lnot (MIN_MEMBLOCK_SIZE - 1)) in
  match free_memblock h start len with
  | Some h => Some (with_free h (free_blocks h) (freemem h) (u64 (usedmem h + len)) (maxusedmem h))
  | None => None
  end.

Definition HEAP_SIZE : Z := 512 * 1024.

Definition init_heap (h : heap) (heap_start : Z) : option heap := mpopulate h heap_start HEAP_SIZE.
End malloc.

Arguments heap : clear implicits.
Arguments Heap {W}.

(** ** The free list invariant

    Blocks are at least the minimum size, in ascending order, separated by at
    least one byte (adjacent blocks have been merged), above [lo] and below
    the middle of the address space. *)

Fixpoint blocks_ok (lo : Z) (l : list block) : Prop :=
  match l with
  | [] => True
  | (a, s) :: l => lo < a /\ MIN_MEMBLOCK_SIZE <= s /\ a + s <= 2 ^ 63 /\ blocks_ok (a + s) l
  end.

(** Addresses covered by the free list: the abstract state of the allocator. *)
Fixpoint in_free (l : list block) (x : Z) : Prop :=
  match l with
  | [] => False
  | (a, s) :: l => a <= x < a + s \/ in_free l x
  end.

Definition in_range (p n x : Z) : Prop := p <= x < p + n.

Lemma MIN_MEMBLOCK_SIZE_eq : MIN_MEMBLOCK_SIZE = 32.
Proof. reflexivity. Qed.

Ltac mlia := rewrite ?MIN_MEMBLOCK_SIZE_eq in *; unfold in_range, in_width in *; lia.

Lemma blocks_ok_mono lo lo' l : lo' <= lo -> blocks_ok lo l -> blocks_ok lo' l.
Proof. destruct l as [|[a s] l]; simpl; [done|]. intros ? (?&?&?&?). auto with lia. Qed.

Lemma in_free_bounds lo l x : blocks_ok lo l -> in_free l x -> lo < x < 2 ^ 63.
Proof.
  revert lo. induction l as [|[a s] l IH]; simpl; [done|]. intros lo (?&?&?&H) [?|Hx].
  - mlia.
  - specialize (IH _ H Hx). mlia.
Qed.

(** The free list is determined by the set of free addresses. *)
Lemma blocks_ok_unique lo1 lo2 l1 : forall l2,
  blocks_ok lo1 l1 -> blocks_ok lo2 l2 -> (forall x, in_free l1 x <-> in_free l2 x) -> l1 = l2.
Proof.
  revert lo1 lo2. induction l1 as [|[a s] l1 IH]; intros lo1 lo2 [|[b t] l2] H1 H2 Heq; [done|..].
  - destruct H2 as (?&?&?&?). destruct (proj2 (Heq b)). simpl. left. mlia.
  - destruct H1 as (?&?&?&?). destruct (proj1 (Heq a)). simpl. left. mlia.
  - destruct H1 as (Ha & Hs & Hb & H1), H2 as (Ha' & Hs' & Hb' & H2).
    assert (forall x, in_free l1 x -> a + s < x) as B1 by (intros x Hx; by apply (in_free_bounds _ _ x H1)).
    assert (forall x, in_free l2 x -> b + t < x) as B2 by (intros x Hx; by apply (in_free_bounds _ _ x H2)).
    assert (a = b) as <-.
    { pose proof (proj1 (Heq a)) as E1. pose proof (proj2 (Heq b)) as E2. simpl in E1, E2.
      destruct E1 as [?|?%B2]; [left; mlia| |]; (destruct E2 as [?|?%B1]; [left; mlia| |]); mlia. }
    assert (s = t) as <-.
    { pose proof (proj1 (Heq (a + t))) as E3. pose proof (proj2 (Heq (a + s))) as E4. simpl in E3, E4.
      destruct (Z.lt_trichotomy s t) as [Hlt|[?|Hlt]]; [|done|].
      - destruct E4 as [?|?%B1]; [left; mlia|mlia..].
      - destruct E3 as [?|?%B2]; [left; mlia|mlia..]. }
    f_equal. eapply IH; [done..|]. intros x. specialize (Heq x). simpl in Heq.
    split; intros Hx.
    + destruct (proj1 Heq (or_intror Hx)) as [?|?]; [|done]. specialize (B1 x Hx). mlia.
    + destruct (proj2 Heq (or_intror Hx)) as [?|?]; [|done]. specialize (B2 x Hx). mlia.
Qed.

(** The source's integrity assertions hold of every list with the invariant. *)
Lemma blocks_ok_check lo l prev :
  0 <= lo -> blocks_ok lo l ->
  match prev with Some (pa, ps) => 0 <= pa /\ 0 < ps /\ pa + ps <= lo /\ lo <= 2 ^ 63 | None => True end ->
  check_blocks prev l = true.
Proof.
  revert lo prev. induction l as [|[a s] l IH]; intros lo prev Hlo H Hp; [done|].
  destruct H as (Ha & Hs & Hb & H). cbn [check_blocks].
  rewrite (IH (a + s) (Some (a, s))) by (done || mlia).
  rewrite wrap_small by mlia. unfold sizeof_memory_block.
  rewrite !(bool_decide_true (s >= _)) by mlia. rewrite (bool_decide_true (_ > a)) by mlia.
  destruct prev as [[pa ps]|]; [|done]. rewrite wrap_small by mlia.
  by rewrite !bool_decide_true by mlia.
Qed.

(** ** Rounding *)

Lemma round_size_spec size :
  0 <= size < 2 ^ 64 - 31 -> round_size size = size + (- size) `mod` 32 /\ round_size size `mod` 32 = 0.
Proof.
  intros Hs. unfold round_size. rewrite MIN_MEMBLOCK_SIZE_eq.
  change (32 - 1) with (Z.ones 5). rewrite land_lnot_ones by lia. change (2 ^ 5) with 32.
  rewrite wrap_small by zlia.
  pose proof (Z.div_mod (size + 32 - 1) 32). pose proof (Z.mod_pos_bound (size + 32 - 1) 32).
  pose proof (Z.div_mod (- size) 32). pose proof (Z.mod_pos_bound (- size) 32).
  set (q := (size + 32 - 1) / 32) in *. set (q' := (- size) / 32) in *.
  assert (q = - q') by lia.
  split; [lia|]. replace (size + 32 - 1 - _) with (q * 32) by lia. apply Z_mod_mult.
Qed.

Lemma round_size_bounds size :
  0 < size < 2 ^ 64 - 31 -> size <= round_size size < size + 32 /\ MIN_MEMBLOCK_SIZE <= round_size size.
Proof.
  intros Hs. destruct (round_size_spec size) as [E1 E2]; [lia|].
  pose proof (Z.mod_pos_bound (- size) 32). pose proof (Z.div_mod (round_size size) 32). mlia.
Qed.

(** ** Searching and splitting *)

Section malloc_facts.
Context (virt_offset : Z).

Lemma search_blocks_spec l : forall lo actual mask offset ptr l',
  blocks_ok lo l -> 0 < actual -> 0 <= mask ->
  search_blocks virt_offset l actual mask offset = Some (ptr, l') ->
  blocks_ok lo l' /\
  (forall x, in_range ptr actual x -> in_free l x) /\
  (forall x, in_free l' x -> in_free l x /\ ~ in_range ptr actual x) /\
  (forall x, in_free l x -> in_range ptr actual x \/ in_free l' x \/
     ptr - MIN_MEMBLOCK_SIZE < x < ptr \/
     ptr + actual <= x < ptr + actual + MIN_MEMBLOCK_SIZE) /\
  exists a, ptr = a + Z.land (u64 (offset - virt_to_phys virt_offset a)) mask.
Proof.
  induction l as [|[a s] l IH]; intros lo actual mask offset ptr l' Hok Hact Hmask; cbn [search_blocks]; [done|].
  destruct Hok as (Ha & Hs & Hb & Hok).
  set (pre := Z.land _ mask). assert (0 <= pre) by (apply Z.land_nonneg; auto).
  assert (forall x, in_free l x -> a + s < x) as B by (intros x Hx; by apply (in_free_bounds _ _ x Hok)).
  case_decide as Hfit.
  - destruct (search_blocks _ l _ _ _) as [[p l1]|] eqn:E; [|done]. intros [= <- <-].
    destruct (IH _ _ _ _ _ _ Hok Hact Hmask E) as (H1 & H2 & H3 & H4 & H5).
    split_and!; [..|done].
    + by split_and!.
    + intros x Hx. right. auto.
    + intros x [Hx|Hx].
      * split; [by left|]. intros Hr%H2%B. mlia.
      * destruct (H3 x Hx). split; [by right|done].
    + intros x [Hx|Hx]; [right; left; by left|].
      destruct (H4 x Hx) as [?|[?|?]]; [by left|right; left; by right|by right; right].
  - intros [= <- <-]. assert (pre + actual <= s) by lia. clear Hfit.
    rewrite !MIN_MEMBLOCK_SIZE_eq in *.
    split_and!.
    + repeat case_decide; simpl; rewrite ?MIN_MEMBLOCK_SIZE_eq; split_and?; try lia;
        (eapply blocks_ok_mono; [|exact Hok]; lia).
    + intros x Hx. left. mlia.
    + intros x Hx. assert (in_free l x \/ a <= x < a + pre \/ a + pre + actual <= x < a + s) as Hx'
        by (repeat case_decide; simpl in Hx; destruct_or?; auto; right; right; mlia).
      destruct Hx' as [Hl|Hx']; [specialize (B x Hl)|]; (split; [|mlia]); simpl; auto. left. mlia.
    + intros x [Hx|Hx].
      * destruct (decide (x < a + pre)); [|destruct (decide (x < a + pre + actual)); [left; mlia|]];
          repeat case_decide; simpl; mlia.
      * right. left. repeat case_decide; simpl; auto.
    + by exists a.
Qed.

(** ** Freeing *)

(** Past the block's place: the scan stops at once. *)
Lemma free_scan_stop lo l actual p n g :
  blocks_ok lo l -> 0 < p -> 0 < n -> p + n <= 2 ^ 63 -> (forall x, in_free l x -> p + n <= x) ->
  exists g', free_scan actual (p, n) g l = Some ([], (p, n), g', l) /\
    match l with (a, _) :: _ => g' = a - (p + n) | [] => True end.
Proof.
  intros Hok Hp Hn Hb Hl. destruct l as [|[a s] l]; simpl; [eauto|].
  destruct Hok as (Ha & Hs & Hb' & Hok). assert (p + n <= a) by (apply Hl; left; mlia).
  rewrite !sext_small by mlia. rewrite decide_False by mlia. rewrite decide_True by mlia. eauto.
Qed.

Lemma free_insert_cons b before fr g rest :
  free_insert (b :: before) fr g rest = b :: free_insert before fr g rest.
Proof. unfold free_insert. destruct rest as [|[a s] rest]; [done|]. by case_decide. Qed.

(** Inserting a block all of whose successors are given merges exactly when
    they touch. *)
Lemma free_insert_spec lo l p n g :
  blocks_ok lo l -> (forall x, in_free l x -> p + n <= x) -> 0 < p ->
  MIN_MEMBLOCK_SIZE <= n -> p + n <= 2 ^ 63 ->
  match l with (a, _) :: _ => g = a - (p + n) | [] => True end ->
  blocks_ok (p - 1) (free_insert [] (p, n) g l) /\
  forall x, in_free (free_insert [] (p, n) g l) x <-> in_free l x \/ in_range p n x.
Proof.
  intros Hok Hl Hp Hn Hb Hg. unfold free_insert, in_range. destruct l as [|[a s] l]; simpl.
  { split; [split_and!; mlia|]. intros x. intuition lia. }
  destruct Hok as (Ha & Hs & Hb' & Hok). assert (p + n <= a) by (apply Hl; left; mlia). subst g.
  case_decide as Hg; simpl.
  - rewrite wrap_small by mlia. replace (p + (n + s)) with (a + s) by lia.
    split; [split_and!; try mlia; done|]. intros x. intuition mlia.
  - split; [split_and!; try mlia; done|]. intros x. intuition mlia.
Qed.

Lemma free_scan_spec l : forall lo p actual g,
  blocks_ok lo l -> 0 <= lo < p -> MIN_MEMBLOCK_SIZE <= actual -> p + actual <= 2 ^ 63 ->
  (forall x, in_range p actual x -> ~ in_free l x) ->
  exists before fr g' rest,
    free_scan actual (p, actual) g l = Some (before, fr, g', rest) /\
    blocks_ok lo (free_insert before fr g' rest) /\
    forall x, in_free (free_insert before fr g' rest) x <-> in_free l x \/ in_range p actual x.
Proof.
  induction l as [|[a s] l IH]; intros lo p actual g Hok Hlo Hact Hb Hdis.
  { exists [], (p, actual), g, []. split; [done|]. simpl. split; [mlia|]. intros x. unfold in_range. intuition lia. }
  pose proof Hok as (Ha & Hs & Hab & Hok').
  assert (forall x, in_free l x -> a + s < x) as B by (intros x Hx; by apply (in_free_bounds _ _ x Hok')).
  pose proof (Hdis (a `max` p)) as Hd. simpl in Hd.
  assert (a + s <= p \/ p + actual <= a) as [Hbefore|Hafter] by (mlia).
  - cbn [free_scan fst snd]. rewrite !sext_small by mlia.
    assert (forall x, in_range p actual x -> ~ in_free l x) as Hdis' by (intros x Hx ?; apply (Hdis x Hx); by right).
    case_decide as Hadj; [rewrite decide_False by mlia|rewrite decide_False by mlia].
    + (* merge with the preceding block *)
      rewrite wrap_small by mlia.
      assert (forall x, in_free l x -> a + (s + actual) <= x) as Hl.
      { intros x Hx. specialize (B x Hx). destruct (decide (x < p + actual)); [|mlia].
        destruct (Hdis' x); [mlia|done]. }
      destruct (free_scan_stop (a + s) l actual a (s + actual) (a - (p + actual))) as (g' & -> & Hg');
        [done|mlia..|done|].
      exists [], (a, s + actual), g', l. split; [done|].
      destruct (free_insert_spec (a + s) l a (s + actual) g') as [G1 G2]; [done|done|mlia..|done|].
      split; [eapply blocks_ok_mono; [|exact G1]; lia|]. intros x. rewrite G2. simpl. unfold in_range. intuition mlia.
    + destruct (IH (a + s) p actual (a - (p + actual))) as (before & fr & g' & rest & -> & G1 & G2);
        [done|mlia..|done|].
      exists ((a, s) :: before), fr, g', rest. split; [done|]. rewrite free_insert_cons. simpl.
      split; [by split_and!|]. intros x. rewrite G2. tauto.
  - assert (forall x, in_free ((a, s) :: l) x -> p + actual <= x) as Hl.
    { intros x [Hx|Hx%B]; mlia. }
    destruct (free_scan_stop lo ((a, s) :: l) actual p actual g) as (g' & -> & Hg'); [done|mlia..|done|].
    exists [], (p, actual), g', ((a, s) :: l). split; [done|].
    destruct (free_insert_spec lo ((a, s) :: l) p actual g') as [G1 G2]; [done|done|mlia..|done|].
    split; [eapply blocks_ok_mono; [|exact G1]; lia|done].
Qed.
End malloc_facts.

(** ** Operations on the whole heap *)

Definition heap_ok {W} (h : heap W) : Prop := blocks_ok 0 (free_blocks h).

(** [owned] memory is not free. *)
Definition kept {W} (owned : Z -> Prop) (h : heap W) : Prop :=
  forall x, owned x -> ~ in_free (free_blocks h) x.

(** What the allocator relies on of a cache discarder: it keeps the free list
    well formed, and neither frees nor overwrites memory owned by others. *)
Class DiscardOk {W} (owned : Z -> Prop) (discard : heap W -> Z * heap W) : Prop :=
  discard_ok h n h' : discard h = (n, h') -> heap_ok h -> kept owned h ->
    heap_ok h' /\ kept owned h' /\ forall x, owned x -> contents h' x = contents h x.

Definition granular (virt_offset : Z) (l : list block) : Prop :=
  Forall (fun b : block => (fst b + virt_offset) `mod` MIN_MEMBLOCK_SIZE = 0 /\
                           snd b `mod` MIN_MEMBLOCK_SIZE = 0) l.

Lemma lor_ones a b : 0 <= a -> 0 <= b -> Z.lor (2 ^ a - 1) (2 ^ b - 1) = 2 ^ (a `max` b) - 1.
Proof.
  intros Ha Hb. rewrite !Z.sub_1_r, <- !Z.ones_equiv. apply Z.bits_inj'. intros n Hn.
  rewrite Z.lor_spec, !Z.testbit_ones by lia.
  destruct (Z.leb_spec 0 n), (Z.ltb_spec n a), (Z.ltb_spec n b), (Z.ltb_spec n (a `max` b)); simpl; lia.
Qed.

Lemma align_mask_eq k :
  0 <= k < 64 ->
  Z.lor (u64 (2 ^ k - 1)) (MIN_MEMBLOCK_SIZE - 1) = 2 ^ (k `max` 5) - 1.
Proof.
  intros Hk. rewrite wrap_small.
  - change (MIN_MEMBLOCK_SIZE - 1) with (2 ^ 5 - 1). apply lor_ones; lia.
  - pose proof (Z.pow_pos_nonneg 2 k). pose proof (Z.pow_lt_mono_r 2 k 64). zlia.
Qed.

(** The allocated address has the requested physical alignment. *)
Lemma pre_size_mod v offset a K :
  0 <= K <= 64 ->
  Z.land (u64 (offset - virt_to_phys v a)) (2 ^ K - 1) = (offset - (a + v)) `mod` 2 ^ K.
Proof.
  intros HK. rewrite land_ones_mod by lia. unfold virt_to_phys, wrap.
  assert (2 ^ K | 2 ^ 64) as D.
  { exists (2 ^ (64 - K)). rewrite <- Z.pow_add_r by lia. f_equal. lia. }
  rewrite (Z.mod_mod_divide _ _ _ D), Zminus_mod, (Z.mod_mod_divide _ _ _ D).
  by rewrite <- Zminus_mod.
Qed.

Section heap_facts.
Context {W : Type} (discarders : list (heap W -> Z * heap W)) (virt_offset : Z).
Context (owned : Z -> Prop) (Hdis : Forall (DiscardOk owned) discarders).

Lemma discard_cache_ok h n h' :
  discard_cache discarders h = (n, h') -> heap_ok h -> kept owned h ->
  heap_ok h' /\ kept owned h' /\ forall x, owned x -> contents h' x = contents h x.
Proof.
  unfold discard_cache. pose proof Hdis as HD. clear Hdis. revert h. induction HD as [|d ds Hd _ IH]; intros h E Hok Hk; simpl in E.
  { by simplify_eq. }
  destruct (d h) as [n1 h1] eqn:E1. destruct (discard_ok _ _ _ E1 Hok Hk) as (Hok1 & Hk1 & Hc1).
  case_decide as Hn; [by simplify_eq|].
  destruct (IH h1 E Hok1 Hk1) as (? & ? & Hc). split_and!; [done..|].
  intros x Hx. by rewrite Hc, Hc1.
Qed.

Lemma alloc_loop_spec fuel actual mask offset : forall h ptr h',
  alloc_loop discarders virt_offset fuel h actual mask offset = Some (ptr, h') ->
  heap_ok h -> kept owned h -> 0 < actual -> 0 <= mask ->
  heap_ok h' /\ kept owned h' /\ (forall x, owned x -> contents h' x = contents h x) /\
  (ptr <> 0 -> 0 < ptr /\ ptr + actual <= 2 ^ 63 /\
    (forall x, in_range ptr actual x -> ~ owned x /\ ~ in_free (free_blocks h') x) /\
    exists a, ptr = a + Z.land (u64 (offset - virt_to_phys virt_offset a)) mask).
Proof.
  induction fuel as [|fuel IH]; intros h ptr h' E Hok Hk Hact Hmask; [done|]. cbn [alloc_loop] in E.
  destruct (search_blocks _ _ _ _ _) as [[p l]|] eqn:Es.
  - injection E as <- <-.
    destruct (search_blocks_spec _ _ _ _ _ _ _ _ Hok Hact Hmask Es) as (G1 & G2 & G3 & _ & G5).
    pose proof (in_free_bounds _ _ p Hok (G2 p ltac:(unfold in_range; lia))).
    pose proof (in_free_bounds _ _ (p + actual - 1) Hok (G2 (p + actual - 1) ltac:(unfold in_range; lia))).
    split_and!; [done| |done|].
    + intros x Hx Hf. apply (Hk x Hx). by apply G3.
    + intros Hp. split_and!; [lia..| |done]. intros x Hx. split.
      * intros Ho. apply (Hk x Ho). auto.
      * intros Hf. by apply (G3 x).
  - destruct (discard_cache discarders h) as [n h1] eqn:Ed.
    destruct (discard_cache_ok _ _ _ Ed Hok Hk) as (Hok1 & Hk1 & Hc1).
    case_decide.
    + simplify_eq. split_and!; auto. done.
    + destruct (IH _ _ _ E Hok1 Hk1 Hact Hmask) as (? & ? & Hc & ?). split_and!; auto.
      intros x Hx. by rewrite Hc, Hc1.
Qed.

Lemma alloc_memblock_spec fuel h size k offset ptr h' :
  alloc_memblock discarders virt_offset fuel h size (2 ^ k) offset = Some (ptr, h') ->
  heap_ok h -> kept owned h -> 0 < size < 2 ^ 64 - 31 -> 0 <= k < 64 ->
  heap_ok h' /\ kept owned h' /\ (forall x, owned x -> contents h' x = contents h x) /\
  (ptr <> 0 -> 0 < ptr /\ ptr + round_size size <= 2 ^ 63 /\
    (forall x, in_range ptr (round_size size) x -> ~ owned x /\ ~ in_free (free_blocks h') x) /\
    (ptr + virt_offset - offset) `mod` 2 ^ (k `max` 5) = 0).
Proof.
  intros E Hok Hk Hs Hal. unfold alloc_memblock in E.
  pose proof (round_size_bounds size Hs) as [? ?].
  rewrite decide_False in E by mlia. rewrite align_mask_eq in E by done.
  apply alloc_loop_spec in E as (? & ? & ? & G); [|done|done|mlia|lia].
  split_and!; [done..|]. intros Hp. destruct (G Hp) as (? & ? & ? & a & ->).
  split_and!; [lia..|done|]. rewrite pre_size_mod by lia.
  replace (a + _ + virt_offset - offset)
    with ((offset - (a + virt_offset)) `mod` 2 ^ (k `max` 5) - (offset - (a + virt_offset))) by lia.
  by rewrite Zminus_mod_idemp_l, Z.sub_diag.
Qed.

Lemma free_memblock_spec (h : heap W) ptr size :
  heap_ok h -> 0 < ptr -> 0 < size < 2 ^ 64 - 31 -> ptr + round_size size <= 2 ^ 63 ->
  (forall x, in_range ptr (round_size size) x -> ~ in_free (free_blocks h) x) ->
  exists h', free_memblock h ptr size = Some h' /\ heap_ok h' /\
    (forall x, in_free (free_blocks h') x <->
               in_free (free_blocks h) x \/ in_range ptr (round_size size) x) /\
    contents h' = contents h /\ freemem h' = u64 (freemem h + round_size size) /\
    usedmem h' = u64 (usedmem h - round_size size).
Proof.
  intros Hok Hp Hs Hb Hd. unfold free_memblock. rewrite decide_False by lia.
  pose proof (round_size_bounds size Hs) as [? ?].
  destruct (free_scan_spec (free_blocks h) 0 ptr (round_size size) (-1))
    as (before & fr & g & rest & -> & G1 & G2); [done|lia|done|lia|done|].
  eexists. split; [done|]. by split_and!.
Qed.
End heap_facts.

(** ** Size words *)

Lemma load64_store64 m a v : in_width 64 v -> load64 (store64 m a v) a = v.
Proof.
  intros Hv. unfold load64, store64.
  rewrite <- (le_bytes_length 8 v) at 2. rewrite mload_memcpy. apply le_value_bytes. zlia.
Qed.

Lemma load64_ext m1 m2 a :
  (forall x, in_range a 8 x -> m1 x = m2 x) -> load64 m1 a = load64 m2 a.
Proof. intros H. unfold load64. f_equal. apply mload_ext. intros x Hx. apply H. unfold in_range. lia. Qed.

Lemma store64_other m a v x : ~ in_range a 8 x -> store64 m a v x = m x.
Proof. intros H. unfold store64, memcpy. rewrite decide_False; [done|]. rewrite le_bytes_length. unfold in_range in H. lia. Qed.

(** A live malloc()ed block: [p] points to [size] bytes behind its size word,
    none of it free. *)
Definition block_range (p size x : Z) : Prop :=
  in_range (p - autosized_header) (round_size (size + autosized_header)) x.

Definition live_block {W} (h : heap W) (p size : Z) : Prop :=
  autosized_header < p < NOWHERE /\ 0 < size < 2 ^ 64 - 39 /\
  load64 (contents h) (p - autosized_header) = size + autosized_header /\
  p - autosized_header + round_size (size + autosized_header) <= 2 ^ 63 /\
  forall x, block_range p size x -> ~ in_free (free_blocks h) x.

Section realloc_facts.
Context {W : Type} (discarders : list (heap W -> Z * heap W)) (virt_offset : Z).

(** The allocating half of [realloc]. *)
Lemma realloc_alloc_spec owned fuel h size nb h1 :
  Forall (DiscardOk owned) discarders ->
  alloc_memblock discarders virt_offset fuel h (size + autosized_header) 1 0 = Some (nb, h1) ->
  heap_ok h -> kept owned h -> 0 < size < 2 ^ 64 - 39 ->
  heap_ok h1 /\ kept owned h1 /\ (forall x, owned x -> contents h1 x = contents h x) /\
  (nb <> 0 ->
    let h2 := with_contents h1 (store64 (contents h1) nb (size + autosized_header)) in
    live_block h2 (nb + autosized_header) size /\
    (forall x, block_range (nb + autosized_header) size x -> ~ owned x) /\
    (forall x, owned x -> contents h2 x = contents h x)).
Proof.
  intros HD E Hok Hk Hs. unfold autosized_header in *.
  apply (alloc_memblock_spec discarders virt_offset owned HD fuel h (size + 8) 0 0) in E
    as (Hok1 & Hk1 & Hc1 & G); [|done|done|lia..].
  split_and!; [done..|]. intros Hnb. destruct (G Hnb) as (? & ? & Hr & _).
  pose proof (round_size_bounds (size + 8) ltac:(lia)) as [? ?].
  unfold live_block, block_range, NOWHERE, autosized_header. replace (nb + 8 - 8) with nb by lia.
  split_and!; try mlia.
  - simpl. apply load64_store64. zlia.
  - intros x Hx. by apply Hr.
  - intros x Hx. by apply Hr.
  - intros x Hx. simpl. rewrite store64_other; [auto|]. intros Hin. by destruct (Hr x) as [? _]; [mlia|].
Qed.

(** A live block stays live as long as its bytes are neither freed nor changed. *)
Lemma live_block_kept {V} (h : heap W) (h' : heap V) p size :
  live_block h p size ->
  (forall x, block_range p size x -> ~ in_free (free_blocks h') x) ->
  (forall x, block_range p size x -> contents h' x = contents h x) -> live_block h' p size.
Proof.
  intros (Hp & Hsz & Hl & Hb & Hf) Hf' Hc. unfold live_block. split_and!; try done; try lia.
  rewrite <- Hl. apply load64_ext. intros x Hx. apply Hc.
  pose proof (round_size_bounds (size + autosized_header)).
  unfold block_range, in_range, autosized_header in *. lia.
Qed.

(** The freeing half of [realloc]: copy to [q], free the old block. *)
Lemma realloc_free_spec (others : Z -> Prop) (h : heap W) p osz q n :
  heap_ok h -> live_block h p osz -> kept others h ->
  (forall x, others x -> ~ block_range p osz x) ->
  (forall x, in_range q n x -> ~ block_range p osz x /\ ~ others x) -> n <= osz ->
  exists h', free_memblock (with_contents h (memmove (contents h) q p n))
               (p - autosized_header) (osz + autosized_header) = Some h' /\
    heap_ok h' /\ kept others h' /\
    (forall x, in_free (free_blocks h') x -> in_free (free_blocks h) x \/ block_range p osz x) /\
    contents h' = memmove (contents h) q p n.
Proof.
  intros Hok (Hp & Hsz & Hl & Hb & Hf) Hk Ho Hq Hn. unfold autosized_header in *.
  destruct (free_memblock_spec (with_contents h (memmove (contents h) q p n)) (p - 8) (osz + 8))
    as (h' & E & Hok' & Hin & Hc & _); [done|lia|lia|done|done|].
  exists h'. split_and!; [done..| | |done].
  - intros x Hx [?|?]%Hin; [by apply (Hk x)|by apply (Ho x)].
  - intros x [?|?]%Hin; auto.
Qed.
End realloc_facts.

(** ** Exact splitting

    When every free block starts and ends on a multiple of the minimum block
    size and so does the request, nothing is leaked. *)

Lemma mod32_pos x : 0 < x -> x `mod` 32 = 0 -> 32 <= x.
Proof. intros. pose proof (Z.div_mod x 32). lia. Qed.

Lemma pre_size_granular v offset a K :
  5 <= K <= 64 -> offset `mod` 32 = 0 -> (a + v) `mod` 32 = 0 ->
  ((offset - (a + v)) `mod` 2 ^ K) `mod` 32 = 0.
Proof.
  intros HK Ho Ha. rewrite Z.mod_mod_divide.
  - by rewrite Zminus_mod, Ho, Ha.
  - exists (2 ^ (K - 5)). change 32 with (2 ^ 5). rewrite <- Z.pow_add_r by lia. f_equal. lia.
Qed.

Lemma search_blocks_exact v l : forall lo actual K offset ptr l',
  blocks_ok lo l -> granular v l -> 5 <= K <= 64 -> offset `mod` 32 = 0 ->
  0 < actual -> actual `mod` 32 = 0 ->
  search_blocks v l actual (2 ^ K - 1) offset = Some (ptr, l') ->
  granular v l' /\ forall x, in_free l x <-> in_range ptr actual x \/ in_free l' x.
Proof.
  induction l as [|[a s] l IH]; intros lo actual K offset ptr l' Hok Hg HK Ho Hact Hactm; cbn [search_blocks]; [done|].
  destruct Hok as (Ha & Hs & Hb & Hok). apply Forall_cons in Hg as [[Hga Hgs] Hg]. simpl in Hga, Hgs.
  rewrite MIN_MEMBLOCK_SIZE_eq in *.
  rewrite pre_size_mod by lia. pose proof (pre_size_granular v offset a K HK Ho Hga) as Hpm.
  pose proof (Z.mod_pos_bound (offset - (a + v)) (2 ^ K)).
  remember ((offset - (a + v)) `mod` 2 ^ K) as pre eqn:Epre.
  case_decide as Hfit.
  - destruct (search_blocks v l _ _ _) as [[p l1]|] eqn:E; [|done]. intros [= <- <-].
    destruct (IH _ _ _ _ _ _ Hok Hg HK Ho Hact Hactm E) as [G1 G2].
    split; [by constructor|]. intros x. simpl. rewrite G2. tauto.
  - intros [= <- <-]. assert (0 <= s - pre - actual) as Hpost by lia.
    assert ((s - pre - actual) `mod` 32 = 0) as Hpostm.
    { by rewrite Zminus_mod, Hactm, (Zminus_mod s), Hgs, Hpm. }
    assert (s - pre - actual < 32 -> s - pre - actual = 0) as Hp0.
    { intros. destruct (decide (0 < s - pre - actual)); [|lia]. pose proof (mod32_pos (s - pre - actual)). lia. }
    assert (pre < 32 -> pre = 0) as Hpre0.
    { intros. destruct (decide (0 < pre)); [|lia]. pose proof (mod32_pos pre). lia. }
    split.
    + assert (forall b, (b = (a, pre) \/ b = (a + pre + actual, s - pre - actual)) ->
        (fst b + v) `mod` 32 = 0 /\ snd b `mod` 32 = 0) as Hgb.
      { intros b [-> | ->]; simpl; [done|]. split; [|done].
        replace (a + pre + actual + v) with (a + v + pre + actual) by lia.
        by rewrite Zplus_mod, Hactm, (Zplus_mod (a + v)), Hga, Hpm. }
      repeat case_decide; repeat (apply Forall_cons_2; [rewrite MIN_MEMBLOCK_SIZE_eq; auto|]); done.
    + intros x. unfold in_range. repeat case_decide; simpl; intuition lia.
Qed.

(** ** Properties *)

(** *** What an allocation takes *)

(** Some cached data were discarded. *)
Definition discarded {W} (discarders : list (heap W -> Z * heap W)) (h h1 : heap W) : Prop :=
  exists n, n <> 0 /\ discard_cache discarders h = (n, h1).

(** The heap in which the search ended, and how. *)
Lemma alloc_loop_found {W} (discarders : list (heap W -> Z * heap W)) v fuel actual mask offset h ptr h' :
  alloc_loop discarders v fuel h actual mask offset = Some (ptr, h') ->
  exists h0, rtc (discarded discarders) h h0 /\
  ((exists l, search_blocks v (free_blocks h0) actual mask offset = Some (ptr, l) /\
      let used := u64 (usedmem h0 + actual) in
      h' = with_free h0 l (u64 (freemem h0 - actual)) used (Z.max (maxusedmem h0) used)) \/
   (search_blocks v (free_blocks h0) actual mask offset = None /\ ptr = 0 /\ discard_cache discarders h0 = (0, h'))).
Proof.
  revert h. induction fuel as [|fuel IH]; intros h; [done|]. cbn [alloc_loop].
  destruct (search_blocks _ _ _ _ _) as [[p l]|] eqn:Es.
  - intros [= <- <-]. exists h. split; [apply rtc_refl|]. left. exists l. split; [done|]. cbv zeta. f_equal. case_decide; lia.
  - destruct (discard_cache discarders h) as [n h1] eqn:Ed. case_decide as Hn.
    + intros [= <- <-]. subst n. exists h. split; [apply rtc_refl|]. by right.
    + intros (h0 & Hr & H)%IH. exists h0. split; [|done]. eapply rtc_l; [|exact Hr]. by exists n.
Qed.

Lemma discarded_ok {W} (discarders : list (heap W -> Z * heap W)) owned h h0 :
  Forall (DiscardOk owned) discarders -> rtc (discarded discarders) h h0 -> heap_ok h -> kept owned h -> heap_ok h0 /\ kept owned h0.
Proof.
  intros HD. induction 1 as [|h h1 h0 (n & _ & Hd) _ IH]; [done|]. intros Hok Hk.
  destruct (discard_cache_ok _ _ HD _ _ _ Hd Hok Hk) as (? & ? & _). auto.
Qed.

(** Free memory without a gap is in one block. *)
Lemma in_one_block l : forall lo p n,
  blocks_ok lo l -> 0 < n -> (forall x, in_range p n x -> in_free l x) -> exists a s, (a, s) ∈ l /\ a <= p /\ p + n <= a + s.
Proof.
  induction l as [|[a s] l IH]; intros lo p n Hok Hn Hin.
  { destruct (Hin p). unfold in_range. lia. }
  destruct Hok as (Ha & Hs & Hb & Hok). assert (forall x, in_free l x -> a + s < x) as B by (intros x Hx; by apply (in_free_bounds _ _ x Hok)).
  destruct (decide (p < a + s)) as [Hp|Hp].
  - exists a, s. split; [left|]. destruct (Hin p) as [?|?%B]; [unfold in_range; lia| |lia]. split; [lia|].
    destruct (decide (p + n <= a + s)) as [|Hgt]; [done|]. destruct (Hin (a + s)) as [?|?%B]; [unfold in_range; lia|lia..].
  - destruct (IH _ p n Hok Hn) as (a' & s' & Hi & ?).
    { intros x Hx. destruct (Hin x Hx) as [?|?]; [unfold in_range in Hx; lia|done]. }
    exists a', s'. split; [by right|done].
Qed.

Lemma search_blocks_none v l actual mask offset :
  0 < actual -> search_blocks v l actual mask offset = None ->
  forall a s, (a, s) ∈ l -> s < Z.land (u64 (offset - virt_to_phys v a)) mask + actual.
Proof.
  intros Hact. induction l as [|[a s] l IH]; [by intros _ a s ?%not_elem_of_nil|]. cbn [search_blocks]. case_decide as Hd; [|done].
  destruct (search_blocks v l _ _ _) as [[p l1]|]; [done|]. intros _ a' s' [[= -> ->]|Hi]%elem_of_cons; [lia|by apply IH].
Qed.

(** No block of the free list has room for an aligned block. *)
Lemma search_blocks_no_room v l lo actual K offset :
  blocks_ok lo l -> 0 < actual -> 0 <= K <= 64 -> search_blocks v l actual (2 ^ K - 1) offset = None ->
  forall p, (p + v - offset) `mod` 2 ^ K = 0 -> ~ (forall x, in_range p actual x -> in_free l x).
Proof.
  intros Hok Hact HK Hn p Hp Hin. destruct (in_one_block _ _ _ _ Hok Hact Hin) as (a & s & Hi & Ha & Hs).
  pose proof (search_blocks_none _ _ _ _ _ Hact Hn a s Hi) as Hlt. rewrite pre_size_mod in Hlt by done.
  pose proof (Z.pow_pos_nonneg 2 K). assert ((offset - (a + v)) `mod` 2 ^ K = (p - a) `mod` 2 ^ K) as E.
  { replace (p - a) with ((p + v - offset) + (offset - (a + v))) by lia. by rewrite Zplus_mod, Hp, Z.add_0_l, Zmod_mod. }
  rewrite E in Hlt. pose proof (Z.mod_le (p - a) (2 ^ K)). lia.
Qed.

(** C38: allocation is sound and complete.  Cached data may be discarded first,
    which gives the heap [h0].  Then either a block is returned that was free
    there, was nobody's, has the requested physical alignment and offset and
    lies in the lower half of the address space: exactly the block leaves the
    free memory, except for remains of less than the minimum size next to it
    (none when blocks and offset are multiples of it), and the statistics are
    adjusted by its size.  Or nothing is returned, when there is nothing to
    discard and no free memory has room for such a block.  The invariant of
    the free list and the owned memory survive the call in either case. *)
Theorem alloc_memblock_sound {W} (discarders : list (heap W -> Z * heap W)) virt_offset owned
    fuel h size k offset ptr h' :
  Forall (DiscardOk owned) discarders -> heap_ok h -> kept owned h ->
  0 < size < 2 ^ 64 - 31 -> 0 <= k < 64 ->
  alloc_memblock discarders virt_offset fuel h size (2 ^ k) offset = Some (ptr, h') ->
  let n := round_size size in
  heap_ok h' /\ kept owned h' /\ (forall x, owned x -> contents h' x = contents h x) /\
  exists h0, rtc (discarded discarders) h h0 /\ heap_ok h0 /\
  ((size <= n < size + 32 /\ 0 < ptr /\ ptr + n <= 2 ^ 63 /\ (ptr + virt_offset - offset) `mod` 2 ^ k = 0 /\
    (forall x, in_range ptr n x -> ~ owned x /\ in_free (free_blocks h0) x) /\
    (forall x, in_free (free_blocks h') x -> in_free (free_blocks h0) x /\ ~ in_range ptr n x) /\
    (forall x, in_free (free_blocks h0) x -> in_range ptr n x \/ in_free (free_blocks h') x \/
       ptr - 32 < x < ptr \/ ptr + n <= x < ptr + n + 32) /\
    (granular virt_offset (free_blocks h0) -> offset `mod` 32 = 0 ->
       granular virt_offset (free_blocks h') /\
       forall x, in_free (free_blocks h0) x <-> in_range ptr n x \/ in_free (free_blocks h') x) /\
    freemem h' = u64 (freemem h0 - n) /\ usedmem h' = u64 (usedmem h0 + n) /\
    maxusedmem h' = Z.max (maxusedmem h0) (usedmem h') /\ contents h' = contents h0 /\ world h' = world h0) \/
   (ptr = 0 /\ discard_cache discarders h0 = (0, h') /\
    forall p, (p + virt_offset - offset) `mod` 2 ^ (k `max` 5) = 0 -> ~ (forall x, in_range p n x -> in_free (free_blocks h0) x))).
Proof.
  intros HD Hok Hk Hs Hal E n. pose proof E as Ea. pose proof (round_size_bounds size Hs) as [Hr Hmin]. fold n in Hr, Hmin.
  apply (alloc_memblock_spec _ _ owned HD) in E as (? & ? & ? & G); [|done..].
  split_and!; [done..|]. unfold alloc_memblock in Ea. fold n in Ea. rewrite decide_False in Ea by mlia. rewrite align_mask_eq in Ea by done.
  apply alloc_loop_found in Ea as (h0 & Hrtc & Hfound). destruct (discarded_ok _ _ _ _ HD Hrtc Hok Hk) as [Hok0 Hk0].
  exists h0. split; [done|]. split; [done|]. assert (0 < n) as Hn by mlia. destruct Hfound as [(l & Es & Eh)|(Es & -> & Ed)]; [left|right].
  - pose proof (Z.pow_pos_nonneg 2 (k `max` 5)). assert (0 <= 2 ^ (k `max` 5) - 1) as Hmask by lia. destruct (search_blocks_spec _ _ _ _ _ _ _ _ Hok0 Hn Hmask Es) as (_ & S2 & S3 & S4 & _).
    assert (ptr <> 0) as Hp. { pose proof (in_free_bounds _ _ ptr Hok0 (S2 ptr ltac:(unfold in_range; lia))). lia. }
    destruct (G Hp) as (G1 & G2 & G3 & G4). fold n in G2, G3. cbv zeta in Eh. subst h'. cbn [with_free free_blocks freemem usedmem maxusedmem contents world].
    split_and!; [lia|lia|lia|lia| |by intros x Hx; split; [apply G3|apply S2]|done|done| |done|done|done|done|done].
    + assert (2 ^ k | 2 ^ (k `max` 5)) as D by (exists (2 ^ (k `max` 5 - k)); rewrite <- Z.pow_add_r by lia; f_equal; lia).
      by rewrite <- (Z.mod_mod_divide _ _ _ D), G4.
    + intros Hg Ho. eapply search_blocks_exact; [exact Hok0|exact Hg| |done|done| |exact Es]; [lia|]. by apply round_size_spec; lia.
  - split_and!; [done|done|]. eapply search_blocks_no_room; [exact Hok0|done| |exact Es]. lia.
Qed.

Definition example_heap : heap unit := Heap [(4096, 8192)] 8192 0 0 (fun _ => 0) tt.

Lemma alloc_memblock_sound_witness :
  exists ptr h', alloc_memblock [] 0 1 example_heap 100 (2 ^ 8) 0 = Some (ptr, h') /\ ptr `mod` 2 ^ 8 = 0 /\
    freemem h' = 8064 /\ usedmem h' = 128 /\
    forall x, in_free [(4096, 8192)] x <-> in_range ptr 128 x \/ in_free (free_blocks h') x.
Proof.
  eexists _, _. split; [vm_compute; reflexivity|].
  destruct (alloc_memblock_sound [] 0 (fun _ => False) 1 example_heap 100 8 0 4096 (Heap [(4224, 8064)] 8064 128 128 (fun _ => 0) tt))
    as (_ & _ & _ & h0 & Hr & _ & H); [constructor|by vm_compute|intros ? []|lia|lia|vm_compute; reflexivity|].
  assert (h0 = example_heap) as ->.
  { inversion Hr as [|? h1 ? (n & Hn & Hd)]; [reflexivity|]. unfold discard_cache in Hd. cbn in Hd. congruence. }
  destruct H as [(_ & _ & _ & Ha & _ & _ & _ & Hg & _)|(Hp & _)]; [|discriminate Hp].
  split; [vm_compute; reflexivity|]. split; [vm_compute; reflexivity|]. split; [vm_compute; reflexivity|].
  apply Hg; [|reflexivity]. repeat constructor.
Defined.

(** Freeing returns exactly the block.  Freeing a block that overlaps no
    free memory always succeeds, keeps the free list sorted, separated and
    fully merged, and adds precisely the block's addresses to the free set. *)
Theorem free_memblock_correct {W} (h : heap W) ptr size :
  heap_ok h -> 0 < ptr -> 0 < size < 2 ^ 64 - 31 -> ptr + round_size size <= 2 ^ 63 ->
  (forall x, in_range ptr (round_size size) x -> ~ in_free (free_blocks h) x) ->
  exists h', free_memblock h ptr size = Some h' /\ heap_ok h' /\
    (forall x, in_free (free_blocks h') x <->
               in_free (free_blocks h) x \/ in_range ptr (round_size size) x) /\
    contents h' = contents h /\
    u64 (freemem h' + usedmem h') = u64 (freemem h + usedmem h).
Proof.
  intros Hok Hp Hs Hb Hd.
  destruct (free_memblock_spec h ptr size) as (h' & E & ? & ? & ? & Ef & Eu); [done..|].
  exists h'. split_and!; [done..|]. rewrite Ef, Eu. unfold wrap. rewrite <- Zplus_mod. f_equal. lia.
Qed.

Lemma free_memblock_correct_witness :
  exists h', free_memblock example_heap 20480 64 = Some h' /\ heap_ok h' /\
    forall x, in_free (free_blocks h') x <-> in_free [(4096, 8192)] x \/ in_range 20480 64 x.
Proof.
  destruct (free_memblock_correct example_heap 20480 64) as (h' & ? & ? & ? & _);
    [by vm_compute|done|done|by vm_compute| |by exists h'].
  intros x Hx Hf. vm_compute in Hf. destruct Hf as [Hf|Hf]; [|done].
  change (round_size 64) with 64 in Hx. unfold in_range in Hx. 
  assert (x < 12288) by (apply Hf). lia.
Defined.

(** The source's integrity check [check_blocks] passes in every state
    with the invariant, so none of its assertions can fire. *)
Theorem check_blocks_pass {W} (h : heap W) : heap_ok h -> check_blocks None (free_blocks h) = true.
Proof. intros H. by apply (blocks_ok_check 0). Qed.

Lemma check_blocks_pass_witness : check_blocks None (free_blocks example_heap) = true.
Proof. apply check_blocks_pass. by vm_compute. Defined.

(** Allocating a block and freeing it restores the heap: when blocks and
    request are on multiples of the minimum block size (as everything malloc()
    does is), the free list after the pair of calls is the one before it,
    merged back block by block, and the counters return to their values. *)
Theorem alloc_free_roundtrip {W} virt_offset fuel (h : heap W) size k offset ptr h1 :
  heap_ok h -> granular virt_offset (free_blocks h) -> offset `mod` 32 = 0 ->
  0 < size < 2 ^ 64 - 31 -> 0 <= k < 64 -> in_width 64 (freemem h) -> in_width 64 (usedmem h) ->
  alloc_memblock [] virt_offset fuel h size (2 ^ k) offset = Some (ptr, h1) -> ptr <> 0 ->
  exists h2, free_memblock h1 ptr size = Some h2 /\
    free_blocks h2 = free_blocks h /\ freemem h2 = freemem h /\ usedmem h2 = usedmem h /\
    granular virt_offset (free_blocks h1).
Proof.
  intros Hok Hg Ho Hs Hk Hf Hu E Hp.
  pose proof (round_size_bounds size Hs) as [? ?].
  destruct (round_size_spec size) as [_ Hrm]; [lia|].
  pose proof E as E'. apply (alloc_memblock_spec [] virt_offset (fun _ => False)) in E'
    as (Hok1 & _ & _ & G); [|constructor|done|intros ? []|done|done].
  destruct (G Hp) as (Hp0 & Hb & Hr & _).
  destruct (free_memblock_spec h1 ptr size) as (h2 & E2 & Hok2 & Hin & _ & Hf2 & Hu2);
    [done..|intros x Hx; by apply Hr|].
  exists h2. unfold alloc_memblock in E. rewrite decide_False, align_mask_eq in E by (done || mlia).
  destruct fuel as [|fuel]; [done|]. cbn [alloc_loop] in E.
  destruct (search_blocks _ _ _ _ _) as [[p l]|] eqn:Es; [|simpl in E; by simplify_eq].
  injection E as -> <-.
  apply (search_blocks_exact _ _ 0) in Es as [G1 G2]; [|done|done|lia|done|mlia|done].
  split_and!; [done| | | |done].
  - eapply blocks_ok_unique; [exact Hok2|exact Hok|]. intros x. rewrite Hin, G2. simpl. tauto.
  - rewrite Hf2. simpl. unfold wrap. rewrite Zplus_mod_idemp_l, Z.sub_add. by apply wrap_small.
  - rewrite Hu2. simpl. unfold wrap. rewrite Zminus_mod_idemp_l, Z.add_simpl_r. by apply wrap_small.
Qed.

Lemma alloc_free_roundtrip_witness :
  exists h1 h2, alloc_memblock [] 0 1 example_heap 100 (2 ^ 8) 0 = Some (4096, h1) /\
    free_memblock h1 4096 100 = Some h2 /\ free_blocks h2 = [(4096, 8192)].
Proof.
  assert (exists h1, alloc_memblock [] 0 1 example_heap 100 (2 ^ 8) 0 = Some (4096, h1)) as [h1 E]
    by (eexists; vm_compute; reflexivity).
  destruct (alloc_free_roundtrip 0 1 example_heap 100 8 0 4096 h1) as (h2 & ? & ? & _);
    [by vm_compute|repeat constructor; done|done|done|done|done|done|exact E|done|].
  by exists h1, h2.
Defined.

(** Without that granularity memory is lost.  A request with an offset
    that is not a multiple of the minimum block size leaks the bytes in front
    of the block although it is not at the start of the heap, and freeing the
    block does not recover them, while the free memory counter still counts
    them. *)
Theorem alloc_offset_leaks :
  match alloc_memblock [] 0 1 (Heap [(4096, 64); (8192, 8192)] 8256 0 0 (fun _ => 0) tt) 64 1 4 with
  | Some (ptr, h1) =>
    ptr = 8196 /\
    match free_memblock h1 ptr 64 with
    | Some h2 => free_blocks h2 = [(4096, 64); (8196, 8188)] /\ freemem h2 = 8256
    | None => False
    end
  | None => False
  end.
Proof. vm_compute. auto. Qed.

(** Allocation terminates.  If every round of discarding that reports
    success shrinks some measure of the cached data, the allocation loop ends
    within that many rounds. *)
Theorem alloc_memblock_terminates {W} (discarders : list (heap W -> Z * heap W)) virt_offset
    (cached : heap W -> nat) h size align offset :
  (forall h n h', discard_cache discarders h = (n, h') -> n <> 0 -> (cached h' < cached h)%nat) ->
  is_Some (alloc_memblock discarders virt_offset (S (cached h)) h size align offset).
Proof.
  intros Hd. unfold alloc_memblock. case_decide; [by eexists|].
  assert (forall fuel h, (cached h < fuel)%nat ->
    is_Some (alloc_loop discarders virt_offset fuel h (round_size size)
               (Z.lor (u64 (align - 1)) (MIN_MEMBLOCK_SIZE - 1)) offset)) as G.
  { induction fuel as [|fuel IH]; intros h0 Hf; [lia|]. cbn [alloc_loop].
    destruct (search_blocks _ _ _ _ _) as [[p l]|]; [by eexists|].
    destruct (discard_cache discarders h0) as [n h1] eqn:E. case_decide; [by eexists|].
    apply IH. specialize (Hd _ _ _ E). lia. }
  apply G. lia.
Qed.

Lemma alloc_memblock_terminates_witness :
  is_Some (alloc_memblock
    [fun h : heap nat => match world h with
                         | O => (0, h)
                         | S n => (1, Heap (free_blocks h) (freemem h) (usedmem h) (maxusedmem h) (contents h) n)
                         end] 0 4 (Heap [] 0 0 0 (fun _ => 0) 3%nat) 64 1 0).
Proof.
  apply (alloc_memblock_terminates [_] 0 world (Heap [] 0 0 0 (fun _ => 0) 3%nat)).
  intros h n h'. unfold discard_cache, discard_table.
  destruct (world h) as [|m] eqn:E; simpl.
  - rewrite ?decide_False by auto. intros [= <- <-]. done.
  - intros [= <- <-] _. simpl. lia.
Defined.

(** Initialising the heap makes exactly the heap array free, with the
    counters saying so. *)
Theorem init_heap_correct {W} start m (w : W) :
  0 < start -> start + HEAP_SIZE <= 2 ^ 63 ->
  exists h, init_heap (Heap [] 0 0 0 m w) start = Some h /\ heap_ok h /\
    (forall x, in_free (free_blocks h) x <-> in_range start HEAP_SIZE x) /\
    freemem h = HEAP_SIZE /\ usedmem h = 0.
Proof.
  intros Hs Hb. unfold init_heap, mpopulate.
  change (Z.land HEAP_SIZE (Z.lnot (MIN_MEMBLOCK_SIZE - 1))) with HEAP_SIZE.
  destruct (free_memblock_spec (Heap [] 0 0 0 m w) start HEAP_SIZE) as (h & E & Hok & Hin & _ & Hf & Hu);
    [done|done|done|done|intros x _ []|].
  rewrite E. eexists. split; [done|]. simpl. rewrite Hf, Hu. split_and!; [done| |done|done].
  intros x. rewrite Hin. change (round_size HEAP_SIZE) with HEAP_SIZE. simpl. tauto.
Qed.

Lemma init_heap_correct_witness :
  exists h, init_heap (Heap [] 0 0 0 (fun _ => 0) tt) 1048576 = Some h /\ freemem h = HEAP_SIZE.
Proof. destruct (init_heap_correct 1048576 (fun _ => 0) tt) as (h & ? & _ & _ & ? & _); [done|done|]. by exists h. Defined.

(** [realloc] keeps the data.  Resizing a live block either fails with
    NULL, leaving the block live with all its bytes, or returns a live block
    of the new size that starts with the old bytes up to the smaller size;
    everybody else's memory is neither freed nor changed in both cases. *)
Theorem realloc_preserves {W} (discarders : list (heap W -> Z * heap W)) virt_offset
    (others : Z -> Prop) fuel h p osz nsz q h' :
  Forall (DiscardOk (fun x => block_range p osz x \/ others x)) discarders ->
  heap_ok h -> live_block h p osz -> kept others h -> 0 < nsz < 2 ^ 64 - 39 ->
  (forall x, others x -> ~ block_range p osz x) ->
  realloc discarders virt_offset fuel h p nsz = Some (q, h') ->
  heap_ok h' /\ kept others h' /\ (forall x, others x -> contents h' x = contents h x) /\
  if decide (q = 0)
  then live_block h' p osz /\ forall x, block_range p osz x -> contents h' x = contents h x
  else live_block h' q nsz /\
       mload (contents h') q (Z.to_nat (osz `min` nsz)) = mload (contents h) p (Z.to_nat (osz `min` nsz)).
Proof.
  intros HD Hok Hlive Hk Hn Ho E.
  pose proof Hlive as (Hp & Hsz & Hl & Hb & Hf). unfold realloc in E.
  rewrite (decide_True (P := nsz <> 0)) in E by lia.
  rewrite (wrap_small 64 (nsz + _)), (decide_False (P := _ < nsz)) in E
    by (unfold autosized_header, in_width in *; lia).
  destruct (alloc_memblock _ _ _ _ _ _ _) as [[nb h1]|] eqn:Ea; [|done].
  apply (realloc_alloc_spec _ _ _ _ _ _ _ _ HD) in Ea as (Hok1 & Hk1 & Hc1 & G); [|done| |done].
  2: { intros x [?|?]; [by apply Hf|by apply Hk]. }
  case_decide as Hnb.
  { (* allocation failed *)
    rewrite decide_True in E by done. injection E as <- <-. rewrite decide_True by done.
    split_and!; [done|intros x ?; apply Hk1; by right|auto|..|auto].
    eapply live_block_kept; [done|intros x ?; apply Hk1; by left|auto]. }
  destruct (G Hnb) as (Hlive2 & Hnew & Hc2). clear G.
  set (h2 := with_contents h1 _) in *. set (q' := nb + autosized_header) in *.
  pose proof Hlive2 as (Hq & _ & Hl2 & Hb2 & Hf2).
  pose proof (round_size_bounds (osz + autosized_header) ltac:(unfold autosized_header in *; lia)) as [? ?].
  pose proof (round_size_bounds (nsz + autosized_header) ltac:(unfold autosized_header in *; lia)) as [? ?].
  rewrite decide_False in E by (unfold autosized_header in *; lia).
  rewrite decide_True in E by (unfold autosized_header in *; lia).
  assert (live_block h2 p osz) as Hlive'.
  { eapply live_block_kept; [done|intros x ?; apply Hk1; by left|intros x ?; apply Hc2; by left]. }
  rewrite (proj1 (proj2 (proj2 Hlive'))) in E. replace (osz + autosized_header - autosized_header) with osz in E by lia.
  rewrite (wrap_small 64 osz) in E by (unfold in_width; lia).
  replace (if decide (osz < nsz) then osz else nsz) with (osz `min` nsz) in E by (case_decide; lia).
  assert (forall x, in_range q' (osz `min` nsz) x -> block_range q' nsz x) as Hqr
    by (unfold block_range, in_range, autosized_header in *; lia).
  destruct (realloc_free_spec others h2 p osz q' (osz `min` nsz))
    as (h3 & E3 & Hok3 & Hk3 & Hin3 & Hc3); [done|done|intros x ?; apply Hk1; by right|done| |lia|].
  { intros x Hx. apply Hqr, Hnew in Hx. tauto. }
  rewrite E3 in E. injection E as <- <-. rewrite decide_False by (unfold autosized_header in *; lia).
  assert (forall x, ~ in_range q' (osz `min` nsz) x -> contents h3 x = contents h2 x) as Hout.
  { intros x Hx. rewrite Hc3. unfold memmove. rewrite decide_False; [done|]. unfold in_range in Hx. lia. }
  split_and!; [done|done|..].
  - intros x Hx. rewrite Hout; [apply Hc2; by right|]. intros ?%Hqr%Hnew. tauto.
  - unfold live_block. split_and!; try (unfold autosized_header in *; lia).
    + rewrite <- Hl2. apply load64_ext. intros x Hx. apply Hout. unfold in_range, autosized_header in *. lia.
    + intros x Hx Hfree. apply Hin3 in Hfree as [?|?]; [by apply (Hf2 x)|]. apply (Hnew x Hx). by left.
  - rewrite Hc3. rewrite <- (Z2Nat.id (osz `min` nsz)) at 1 by lia. rewrite mload_memmove.
    apply mload_ext. intros x Hx. apply Hc2. left. unfold block_range, in_range, autosized_header in *. lia.
Qed.

Lemma realloc_preserves_witness :
  let h := Heap [(8192, 4096)] 4096 32 32 (store64 (fun _ => 7) 4096 24) tt in
  exists h', realloc [] 0 1 h 4104 100 = Some (8200, h') /\
    mload (contents h') 8200 16 = mload (contents h) 4104 16.
Proof.
  intros h. assert (fst <$> realloc [] 0 1 h 4104 100 = Some 8200) as E by (vm_compute; reflexivity).
  destruct (realloc [] 0 1 h 4104 100) as [[q h']|] eqn:Er; [|discriminate E].
  injection E as ->. exists h'. split; [done|].
  destruct (realloc_preserves [] 0 (fun _ => False) 1 h 4104 16 100 8200 h')
    as (_ & _ & _ & _ & G); [constructor|by vm_compute| |intros ? []|done|intros ? []|exact Er|exact G].
  unfold live_block. split_and!; try done.
  intros x Hx. unfold block_range, in_range, autosized_header in Hx.
  change (round_size (16 + 8)) with 32 in Hx. simpl. lia.
Defined.
