(* ===== verification/Umalloc.v ===== *)
(** * External memory (arch/x86/interface/pcbios/memtop_umalloc.c)

    The allocator that gives a downloaded image its memory on a BIOS machine.
    External memory grows downwards from the top of the largest region of the
    memory map.  A block is preceded by a header of 8 bytes with its size and
    a flag that says whether it is in use; only the lowest block can change
    its size, and free blocks are collected from the bottom.

    In the 32-bit build a user pointer is a virtual address of 32 bits, which
    differs from the physical address by [virt_offset]; memory is indexed by
    physical addresses.  [hidden] is the physical region that is reported to
    hide_umalloc(). *)

From S2P Require Import Prelude CMem.

Definition EM_MAX_ADDRESS : Z := 0xffffffff.
Definition EM_ALIGN : Z := 4 * 1024.
Definition UNULL : Z := 0.
Definition UNOWHERE : Z := 2 ^ 32 - 1.
Definition sizeof_external_memory : Z := 8.

Record external_memory := ExtMem {
  em_size : Z;
  em_used : Z;
}.

Record eheap := Eheap {
  top : Z;
  bottom : Z;
  heap_size : Z;
  ext_mem : mem;
  hidden : Z * Z;
}.

Definition load32 (m : mem) (a : Z) : Z := le_value (mload m a 4).
Definition store32 (m : mem) (a v : Z) : mem := memcpy m a (le_bytes 4 v).

Section umalloc.
Context (virt_offset : Z).

Definition phys_to_user (phys_addr : Z) : Z := u32 (phys_addr - virt_offset).
Definition user_to_phys (userptr offset : Z) : Z := u32 (userptr + offset + virt_offset).
Definition userptr_add (userptr offset : Z) : Z := u32 (userptr + offset).

(** The header in front of the block at [ptr]. *)
Definition read_extmem (m : mem) (ptr : Z) : external_memory :=
  let header := user_to_phys ptr (- sizeof_external_memory) in ExtMem (load32 m header) (load32 m (header + 4)).
Definition write_extmem (m : mem) (ptr : Z) (e : external_memory) : mem :=
  let header := user_to_phys ptr (- sizeof_external_memory) in store32 (store32 m header (em_size e)) (header + 4) (em_used e).

(** The loop over the regions of the memory map, which are [start, end) pairs
    of 64-bit addresses. *)
Fixpoint largest_loop (regions : list (Z * Z)) (start len : Z) : Z * Z :=
  match regions with
  | [] => (start, len)
  | (region_start, region_end) :: regions =>
    if decide (region_start > EM_MAX_ADDRESS) then largest_loop regions start len else
    let region_end := if decide (region_end > EM_MAX_ADDRESS) then 0 else region_end in
    let region_len := u32 (region_end - region_start) in
    if decide (region_len > len) then largest_loop regions (phys_to_user region_start) region_len else largest_loop regions start len
  end.

Definition largest_memblock (memmap : list (Z * Z)) : Z * Z := largest_loop memmap UNULL 0.

Definition init_eheap (memmap : list (Z * Z)) (h : eheap) : eheap :=
  let '(base, len) := largest_memblock memmap in
  Eheap (userptr_add base len) (userptr_add base len) len (ext_mem h) (hidden h).

(** [None]: out of fuel. *)
Fixpoint ecollect_free (fuel : nat) (h : eheap) : option eheap :=
  if decide (bottom h = top h) then Some h else
  match fuel with
  | O => None
  | S fuel =>
    let extmem := read_extmem (ext_mem h) (bottom h) in
    if decide (em_used extmem <> 0) then Some h else
    let len := u32 (em_size extmem + sizeof_external_memory) in
    ecollect_free fuel (Eheap (top h) (userptr_add (bottom h) len) (u32 (heap_size h + len)) (ext_mem h) (hidden h))
  end.

(** The properties of the block to change, creating an empty one if there is
    none. *)
Definition open_block (ptr : Z) (h : eheap) : option (Z * Z * eheap) :=
  if decide (ptr <> UNULL /\ ptr <> UNOWHERE) then Some (ptr, em_size (read_extmem (ext_mem h) ptr), h)
  else if decide (heap_size h < sizeof_external_memory) then None
  else
    let ptr := userptr_add (bottom h) (- sizeof_external_memory) in
    Some (ptr, 0, Eheap (top h) ptr (u32 (heap_size h - sizeof_external_memory)) (ext_mem h) (hidden h)).

(** Expanding or shrinking the lowest block: its new address and size. *)
Definition resize_bottom (ptr size new_size : Z) (h : eheap) : option (Z * Z * eheap) :=
  let new := userptr_add ptr (- u32 (new_size - size)) in
  let align := Z.land (user_to_phys new 0) (EM_ALIGN - 1) in
  let new_size := u32 (new_size + align) in
  let new := userptr_add new (- align) in
  if decide (new_size > u32 (heap_size h + size)) then None
  else
    let m := memmove (ext_mem h) (user_to_phys new 0) (user_to_phys ptr 0) (if decide (size < new_size) then size else new_size) in
    Some (new, new_size, Eheap (top h) new (u32 (heap_size h - u32 (new_size - size))) m (hidden h)).

Definition hide_umalloc (h : eheap) : eheap :=
  Eheap (top h) (bottom h) (heap_size h) (ext_mem h)
    (user_to_phys (bottom h) (if decide (bottom h = top h) then 0 else - sizeof_external_memory), user_to_phys (top h) 0).

Definition memtop_urealloc (fuel : nat) (memmap : list (Z * Z)) (ptr new_size : Z) (h : eheap) : option (Z * eheap) :=
  let h := if decide (bottom h = top h) then init_eheap memmap h else h in
  match open_block ptr h with
  | None => Some (UNULL, h)
  | Some (ptr, size, h) =>
    let used := if decide (new_size > 0) then 1 else 0 in
    let changed :=
      if decide (ptr = bottom h) then
        match resize_bottom ptr size new_size h with
        | None => None
        | Some (new, new_size, h) => Some (new, new_size, new_size, h)
        end
      else if decide (new_size > size) then None else Some (ptr, size, new_size, h) in
    match changed with
    | None => Some (UNULL, h)
    | Some (new, size, new_size, h) =>
      let h := Eheap (top h) (bottom h) (heap_size h) (write_extmem (ext_mem h) new (ExtMem size used)) (hidden h) in
      match ecollect_free fuel h with
      | None => None
      | Some h => Some (if decide (new_size <> 0) then new else UNOWHERE, hide_umalloc h)
      end
    end
  end.

(** ** The chain of blocks *)

(** The physical address of a user pointer, and the header in front of it. *)
Definition phys (ptr : Z) : Z := user_to_phys ptr 0.
Definition header_at (m : mem) (p : Z) : external_memory := ExtMem (load32 m (p - 8)) (load32 m (p - 4)).
Definition put_header (m : mem) (p : Z) (e : external_memory) : mem := store32 (store32 m (p - 8) (em_size e)) (p - 4) (em_used e).

Lemma phys_bound u : in_width 32 (phys u).
Proof. by apply wrap_bound. Qed.

Lemma phys_add u k : phys (userptr_add u k) = u32 (phys u + k).
Proof. unfold phys, user_to_phys, userptr_add, wrap. rewrite !Z.add_0_r, !Zplus_mod_idemp_l. f_equal. lia. Qed.

Lemma phys_inj u u' : in_width 32 u -> in_width 32 u' -> phys u = phys u' -> u = u'.
Proof.
  intros Hu Hu' He. assert (forall w, in_width 32 w -> phys_to_user (phys w) = w) as Hinv.
  { intros w Hw. unfold phys_to_user, phys, user_to_phys, wrap. rewrite Zminus_mod_idemp_l. replace (w + 0 + virt_offset - virt_offset) with w by lia. apply Z.mod_small. zlia. }
  by rewrite <- (Hinv u Hu), <- (Hinv u' Hu'), He.
Qed.

Lemma header_phys u : 8 <= phys u -> user_to_phys u (- sizeof_external_memory) = phys u - 8.
Proof.
  intros Hu. pose proof (phys_bound u) as Hb. transitivity (u32 (phys u - 8)); [|apply wrap_small; zlia].
  unfold phys, user_to_phys, wrap, sizeof_external_memory. rewrite Zminus_mod_idemp_l. f_equal. lia.
Qed.

Lemma read_extmem_at m u : 8 <= phys u -> read_extmem m u = header_at m (phys u).
Proof. intros Hu. unfold read_extmem. rewrite header_phys by done. unfold header_at. do 2 f_equal. lia. Qed.

Lemma write_extmem_at m u e : 8 <= phys u -> write_extmem m u e = put_header m (phys u) e.
Proof. intros Hu. unfold write_extmem. rewrite header_phys by done. unfold put_header. f_equal. lia. Qed.

(** Physically, [bs] are the sizes and flags of the blocks from [p] up to [t]; between two
    blocks lies the header of the upper one. *)
Fixpoint chain (m : mem) (p : Z) (bs : list (Z * Z)) (t : Z) : Prop :=
  match bs with
  | [] => p = t
  | (size, used) :: bs => header_at m p = ExtMem size used /\ 0 <= size /\ chain m (p + size + 8) bs t
  end.

(** A heap in the physical region that starts at [base]; its lowest block is in
    use.  The two user pointers with a special meaning are not in the region. *)
Definition eheap_ok (base : Z) (h : eheap) (bs : list (Z * Z)) : Prop :=
  chain (ext_mem h) (phys (bottom h)) bs (phys (top h)) /\ heap_size h = phys (bottom h) - base /\ 8 <= base <= phys (bottom h) /\
  (in_width 32 (bottom h) /\ in_width 32 (top h) /\ Forall (fun u => ~ base <= phys u <= phys (top h)) [UNULL; UNOWHERE]) /\
  match bs with [] => True | (_, used) :: _ => used <> 0 end.

Lemma chain_le m p bs t : chain m p bs t -> p <= t.
Proof. revert p. induction bs as [|[s u] bs IH]; intros p; simpl; [lia|]. intros (_ & Hs & Hc%IH). lia. Qed.

Lemma load32_ext m m' a : (forall x, a <= x < a + 4 -> m' x = m x) -> load32 m' a = load32 m a.
Proof. intros Hx. unfold load32. f_equal. by apply mload_ext. Qed.

Lemma header_at_ext m m' p : (forall x, p - 8 <= x < p -> m' x = m x) -> header_at m' p = header_at m p.
Proof. intros Hx. unfold header_at. f_equal; apply load32_ext; intros x ?; apply Hx; lia. Qed.

Lemma chain_ext m m' p bs t : (forall x, p - 8 <= x -> m' x = m x) -> chain m p bs t -> chain m' p bs t.
Proof.
  revert p. induction bs as [|[s u] bs IH]; intros p Hx; simpl; [done|]. intros (Hr & Hs & Hc). split_and!; [|done|].
  - rewrite <- Hr. apply header_at_ext. intros x ?. apply Hx. lia.
  - apply IH; [|done]. intros x ?. apply Hx. lia.
Qed.

Lemma store32_other m a v x : ~ a <= x < a + 4 -> store32 m a v x = m x.
Proof. intros Hx. unfold store32, memcpy. rewrite le_bytes_length. rewrite decide_False by lia. done. Qed.

Lemma load32_store32 m a v : in_width 32 v -> load32 (store32 m a v) a = v.
Proof.
  intros Hv. unfold load32, store32. rewrite <- (le_bytes_length 4 v) at 2. rewrite mload_memcpy.
  apply le_value_bytes. change (256 ^ Z.of_nat 4) with (2 ^ 32). zlia.
Qed.

Lemma put_header_other m p e x : ~ p - 8 <= x < p -> put_header m p e x = m x.
Proof. intros Hx. unfold put_header. by rewrite !store32_other by lia. Qed.

Lemma read_put_header m p e : in_width 32 (em_size e) -> in_width 32 (em_used e) -> header_at (put_header m p e) p = e.
Proof.
  intros Hs Hu. unfold header_at, put_header. destruct e as [s u]. f_equal; cbn [em_size em_used] in *.
  - rewrite <- (load32_store32 m (p - 8) s) at 2 by done. apply load32_ext. intros x ?. apply store32_other. lia.
  - by apply load32_store32.
Qed.

Lemma align_spec x : 0 <= x -> 0 <= Z.land x (EM_ALIGN - 1) < 4096 /\ (x - Z.land x (EM_ALIGN - 1)) `mod` EM_ALIGN = 0.
Proof.
  intros Hx. change (EM_ALIGN - 1) with (2 ^ 12 - 1). rewrite land_ones_mod by done. change EM_ALIGN with (2 ^ 12).
  pose proof (Z.mod_pos_bound x (2 ^ 12) ltac:(done)). split; [done|]. rewrite Zminus_mod, Zmod_mod, Z.sub_diag. done.
Qed.

(** The lowest block of [size] bytes becomes one of at least [n] bytes. *)
Lemma resize_bottom_spec base h size n :
  let b := phys (bottom h) in
  0 <= size -> heap_size h = b - base -> 8 <= base <= b -> b + size < 2 ^ 32 -> 0 <= n < 2 ^ 32 - 4096 ->
  match resize_bottom (bottom h) size n h with
  | None => b + size - base < n + 4095
  | Some (q, n', h') =>
    in_width 32 q /\ phys q `mod` EM_ALIGN = 0 /\ n <= n' < n + 4096 /\ phys q + n' = b + size /\ base <= phys q /\
    top h' = top h /\ bottom h' = q /\ heap_size h' = phys q - base /\
    mload (ext_mem h') (phys q) (Z.to_nat (size `min` n)) = mload (ext_mem h) b (Z.to_nat (size `min` n)) /\
    forall x, b + size <= x -> ext_mem h' x = ext_mem h x
  end.
Proof.
  intros b Hs Hhs Hb Hmax Hn. unfold resize_bottom. cbv zeta. rewrite Hhs, (wrap_small 32 (b - base + size)) by zlia.
  change (user_to_phys (userptr_add (bottom h) (- u32 (n - size))) 0) with (phys (userptr_add (bottom h) (- u32 (n - size)))).
  set (new := userptr_add (bottom h) _). assert (phys new = u32 (b - (n - size))) as Ep.
  { unfold new. rewrite phys_add. fold b. unfold wrap. rewrite Z.add_opp_r, Zminus_mod_idemp_r. done. }
  pose proof (phys_bound new) as Hnw. destruct (align_spec (phys new) ltac:(zlia)) as [Ha1 Ha2]. set (align := Z.land (phys new) (EM_ALIGN - 1)) in *.
  rewrite (wrap_small 32 (n + align)) by zlia. destruct (decide _) as [Hbig|Hfit]; [lia|].
  assert (phys new = b + size - n) as En by (rewrite Ep; unfold wrap; rewrite Z.mod_small; lia).
  set (q := userptr_add new (- align)). assert (phys q = phys new - align) as Eq by (unfold q; rewrite phys_add; apply wrap_small; zlia).
  assert (u32 (b - base - u32 (n + align - size)) = phys q - base) as ->.
  { unfold wrap. rewrite Zminus_mod_idemp_r. rewrite Z.mod_small; lia. }
  cbn [ext_mem top bottom heap_size]. rewrite <- Eq in Ha2. split_and!; try done; try lia.
  - by apply wrap_bound.
  - change (user_to_phys q 0) with (phys q). change (user_to_phys (bottom h) 0) with b.
    set (k := if decide (size < n + align) then size else n + align). assert (size `min` n <= k) as Hk by (unfold k; case_decide; lia).
    apply mload_shift. intros i Hi. unfold memmove. rewrite decide_True by lia. f_equal. lia.
  - intros x Hx. change (user_to_phys q 0) with (phys q). unfold memmove. rewrite decide_False; [done|]. case_decide; lia.
Qed.

(** What [memtop_urealloc] leaves behind when the lowest block is now at [q]
    and in use. *)
Definition settled (base q n' : Z) (bs : list (Z * Z)) (h1 h' : eheap) : Prop :=
  eheap_ok base h' ((n', 1) :: bs) /\ bottom h' = q /\ top h' = top h1 /\
  forall x, phys q <= x -> ext_mem h' x = ext_mem h1 x.

Lemma settle fuel base q n' bs h1 :
  bottom h1 = q -> heap_size h1 = phys q - base -> 8 <= base <= phys q -> 0 < n' < 2 ^ 32 -> in_width 32 q -> in_width 32 (top h1) ->
  Forall (fun u => ~ base <= phys u <= phys (top h1)) [UNULL; UNOWHERE] ->
  chain (ext_mem h1) (phys q + n' + 8) bs (phys (top h1)) ->
  exists h', option_map (fun h => (if decide (n' <> 0) then q else UNOWHERE, hide_umalloc h))
      (ecollect_free (S fuel) (Eheap (top h1) q (phys q - base) (write_extmem (ext_mem h1) q (ExtMem n' 1)) (hidden h1))) = Some (q, h') /\
    settled base q n' bs h1 h'.
Proof.
  intros Hq Hh Hb Hn Hqw Htw Hnull Hc. pose proof (chain_le _ _ _ _ Hc) as Hle. cbn [ecollect_free bottom top ext_mem].
  rewrite (decide_False (P := q = top h1)) by (intros ->; lia). rewrite write_extmem_at, read_extmem_at by lia.
  rewrite read_put_header by (simpl; zlia).
  rewrite (decide_True (P := em_used _ <> 0)) by (simpl; lia). cbn [option_map].
  rewrite decide_True by lia. eexists. split; [done|]. unfold hide_umalloc. cbn [top bottom heap_size ext_mem hidden].
  refine (conj (conj (conj _ (conj _ _)) (conj _ (conj _ (conj _ _)))) (conj _ (conj _ _))); cbn [top bottom heap_size ext_mem hidden]; try done; try lia.
  - apply read_put_header; simpl; zlia.
  - eapply chain_ext; [|done]. intros x Hx. apply put_header_other. lia.
  - intros x Hx. apply put_header_other. lia.
Qed.

Lemma not_special base h bs u :
  eheap_ok base h bs -> base <= phys u <= phys (top h) -> u <> UNULL /\ u <> UNOWHERE.
Proof.
  intros (_ & _ & _ & (_ & _ & Hf) & _) Hu. rewrite !Forall_cons in Hf. destruct Hf as (H1 & H2 & _). split; intros ->; tauto.
Qed.

(** C35: changing the size of the lowest block.  Either there is not enough
    room for the new size and its alignment, and nothing changes; or the block
    is moved to a physically aligned address where it has at least the new
    size and keeps its contents up to the smaller size, everything above it
    (the other blocks and their headers) is untouched, and the heap stays well
    formed.  Pointers are virtual addresses, at any offset from the physical
    ones, and may wrap around. *)
Theorem umalloc_resize_correct fuel memmap base h size used bs n :
  eheap_ok base h ((size, used) :: bs) -> 0 < n < 2 ^ 32 - 4096 ->
  let b := phys (bottom h) in
  exists q h', memtop_urealloc (S fuel) memmap (bottom h) n h = Some (q, h') /\
    if decide (q = UNULL) then h' = h /\ b + size - base < n + 4095
    else exists n', eheap_ok base h' ((n', 1) :: bs) /\ bottom h' = q /\ top h' = top h /\
      phys q `mod` EM_ALIGN = 0 /\ n <= n' < n + 4096 /\ phys q + n' = b + size /\
      mload (ext_mem h') (phys q) (Z.to_nat (size `min` n)) = mload (ext_mem h) b (Z.to_nat (size `min` n)) /\
      forall x, b + size <= x -> ext_mem h' x = ext_mem h x.
Proof.
  intros Hok Hn b. pose proof Hok as ((Hr & Hs & Hc) & Hhs & Hb & (Hbw & Htw & Hnull) & Hu). pose proof (chain_le _ _ _ _ Hc) as Hle. fold b in Hr, Hc, Hhs, Hb, Hle.
  pose proof (phys_bound (top h)) as Htb. destruct (not_special _ _ _ (bottom h) Hok) as [Hn0 Hn1]; [fold b; lia|]. unfold memtop_urealloc.
  rewrite (decide_False (P := bottom h = top h)) by (intros He; subst b; rewrite He in *; lia). cbv zeta. unfold open_block.
  rewrite (decide_True (P := _ /\ _)) by done. rewrite read_extmem_at by (fold b; lia). fold b. rewrite Hr. cbn [em_size]. rewrite (decide_True (P := bottom h = bottom h)) by done.
  pose proof (resize_bottom_spec base h size n Hs Hhs Hb ltac:(fold b; zlia) ltac:(lia)) as Hsp. cbv zeta in Hsp. fold b in Hsp.
  destruct (resize_bottom (bottom h) size n h) as [[[q n'] h1]|]; [|by eexists _, _; split; [done|]; rewrite decide_True].
  destruct Hsp as (S0 & S1 & S2 & S3 & S4 & S5 & S6 & S7 & S8 & S9). rewrite (decide_True (P := n > 0)) by lia.
  destruct (settle fuel base q n' bs h1 S6 S7 ltac:(lia) ltac:(zlia) S0) as (h' & E & E1 & E2 & E3 & E4).
  { by rewrite S5. }
  { by rewrite S5. }
  { rewrite S5, S3. eapply chain_ext; [|exact Hc]. intros x ?. apply S9. lia. }
  rewrite S6, S7. exists q, h'. split.
  { rewrite <- E. by destruct (ecollect_free _ _). }
  destruct (not_special _ _ _ q Hok) as [Hq0 _]; [lia|].
  rewrite decide_False by done. exists n'. refine (conj E1 (conj E2 (conj _ (conj S1 (conj S2 (conj S3 (conj _ _))))))).
  - by rewrite E3.
  - rewrite <- S8. apply mload_ext. intros x Hx. apply E4. lia.
  - intros x Hx. rewrite E4 by lia. by apply S9.
Qed.

(** A new block below the others. *)
Theorem umalloc_fresh_correct fuel memmap base h bs n :
  eheap_ok base h bs -> bs <> [] -> 0 < n < 2 ^ 32 - 4096 -> n + 4103 <= heap_size h ->
  exists q n' h', memtop_urealloc (S fuel) memmap UNULL n h = Some (q, h') /\
    eheap_ok base h' ((n', 1) :: bs) /\ bottom h' = q /\ phys q `mod` EM_ALIGN = 0 /\ n <= n' < n + 4096 /\
    forall x, phys (bottom h) - 8 <= x -> ext_mem h' x = ext_mem h x.
Proof.
  intros (Hc & Hhs & Hb & (Hbw & Htw & Hnull) & Hu) Hne Hn Hroom. set (b := phys (bottom h)) in *. pose proof (chain_le _ _ _ _ Hc) as Hle. unfold memtop_urealloc.
  pose proof (phys_bound (top h)) as Htb. assert (bottom h <> top h) as Hbt.
  { intros He. subst b. rewrite He in *. destruct bs as [|[s u] bs]; [done|]. destruct Hc as (_ & Hs & Hc). pose proof (chain_le _ _ _ _ Hc). lia. }
  rewrite (decide_False (P := bottom h = top h)) by done. cbv zeta. unfold open_block.
  rewrite (decide_False (P := _ /\ _)) by (by intros [? _]). unfold sizeof_external_memory at 1. rewrite (decide_False (P := _ < 8)) by lia.
  set (u := userptr_add (bottom h) _). assert (phys u = b - 8) as Ep by (unfold u; rewrite phys_add; apply wrap_small; fold b; unfold sizeof_external_memory; zlia).
  rewrite (wrap_small 32 (heap_size h - _)) by (unfold sizeof_external_memory; zlia).
  set (h0 := Eheap (top h) u (heap_size h - sizeof_external_memory) (ext_mem h) (hidden h)). change u with (bottom h0) at 2 3 4.
  rewrite (decide_True (P := bottom h0 = bottom h0)) by done.
  pose proof (resize_bottom_spec base h0 0 n ltac:(lia)) as Hsp. cbv zeta in Hsp. cbn [bottom heap_size h0] in Hsp. rewrite Ep in Hsp. unfold sizeof_external_memory in Hsp at 1.
  specialize (Hsp ltac:(lia) ltac:(lia) ltac:(zlia) ltac:(lia)). cbn [bottom h0].
  destruct (resize_bottom u 0 n _) as [[[q n'] h1]|]; [|exfalso; lia].
  destruct Hsp as (S0 & S1 & S2 & S3 & S4 & S5 & S6 & S7 & _ & S9). rewrite (decide_True (P := n > 0)) by lia.
  cbn [top ext_mem] in S5, S9.
  destruct (settle fuel base q n' bs h1 S6 S7 ltac:(lia) ltac:(zlia) S0) as (h' & E & E1 & E2 & E3 & E4).
  { by rewrite S5. }
  { by rewrite S5. }
  { rewrite S5. replace (phys q + n' + 8) with b by lia. eapply chain_ext; [|exact Hc]. intros x ?. apply S9. lia. }
  rewrite S6, S7. exists q, n', h'. split; [rewrite <- E; by destruct (ecollect_free _ _)|].
  refine (conj E1 (conj E2 (conj S1 (conj S2 _)))). intros x Hx.
  rewrite E4 by lia. apply S9. lia.
Qed.
End umalloc.

(** ** Executions *)

(** A machine with 64 kB of memory at 1 MB, full of garbage. *)
Definition example_map : list (Z * Z) := [(0x100000, 0x110000)].
(** The firmware runs 240 MB above the addresses that it was linked for. *)
Definition example_offset : Z := 0x0f000000.
Definition user (p : Z) : Z := phys_to_user example_offset p.
Definition power_on : eheap := Eheap 0 0 0 (fun _ => 0xff) (0, 0).

(** A sequence of calls, with the pointers that are returned. *)
Fixpoint calls (ops : list (Z * Z)) (h : eheap) : option (list Z * eheap) :=
  match ops with
  | [] => Some ([], h)
  | (ptr, size) :: ops =>
    match memtop_urealloc example_offset 16 example_map ptr size h with
    | None => None
    | Some (q, h) => match calls ops h with
                     | None => None
                     | Some (qs, h) => Some (q :: qs, h)
                     end
    end
  end.

(** One block in use, at the top. *)
Definition one_block : eheap :=
  Eheap (user 0x110000) (user 0x10e000) 0xe000 (write_extmem example_offset (fun _ => 0xff) (user 0x10e000) (ExtMem 0x1ff8 1)) (0x10dff8, 0x110000).

Lemma one_block_ok : eheap_ok example_offset 0x100000 one_block [(0x1ff8, 1)].
Proof.
  unfold eheap_ok. cbn [one_block top bottom heap_size ext_mem chain]. rewrite write_extmem_at by done. rewrite read_put_header by done.
  assert (Forall (fun u => ~ 0x100000 <= phys example_offset u <= phys example_offset (user 0x110000)) [UNULL; UNOWHERE]) as Hn.
  { repeat constructor; vm_compute; intros [? Hx]; by apply Hx. }
  change (phys example_offset (user 0x10e000)) with 0x10e000. change (phys example_offset (user 0x110000)) with 0x110000 in *.
  repeat (split; [done|]). done.
Qed.

Lemma umalloc_resize_correct_witness :
  exists q h', memtop_urealloc example_offset 16 example_map (bottom one_block) 0x3000 one_block = Some (q, h') /\
    phys example_offset q `mod` EM_ALIGN = 0 /\
    mload (ext_mem h') (phys example_offset q) (Z.to_nat 0x1ff8) = mload (ext_mem one_block) (phys example_offset (bottom one_block)) (Z.to_nat 0x1ff8).
Proof.
  destruct (umalloc_resize_correct example_offset 15 example_map 0x100000 one_block 0x1ff8 1 [] 0x3000 one_block_ok ltac:(done)) as (q & h' & E & H).
  exists q, h'. split; [exact E|]. destruct (decide (q = UNULL)) as [Hq|Hq].
  - destruct H as [_ Hx]. exfalso. change (phys example_offset (bottom one_block)) with 0x10e000 in Hx. lia.
  - destruct H as (n' & _ & _ & _ & H1 & _ & _ & H2 & _). split; [exact H1|exact H2].
Defined.

(** Freeing through [urealloc] with size zero, and then allocating again
    through the pointer that was returned, hands out memory that the
    allocator considers free: the next allocation returns the same address.
    The alignment of the empty block makes its size nonzero, so that the call
    returns a pointer instead of UNOWHERE. *)
Theorem umalloc_free_alias :
  fst <$> calls [(UNULL, 40960); (user 0x105000, 0); (user 0x10f000, 100); (UNULL, 200)] power_on =
    Some [user 0x105000; user 0x10f000; user 0x10f000; user 0x10f000].
Proof. vm_compute. reflexivity. Qed.

(** A failed allocation leaves an empty block behind whose header is never
    written.  After the only block has been freed, memory that was available
    before is not available again: the second half of the sequence without
    the failure, for comparison. *)
Example umalloc_failure_leaks :
  fst <$> calls [(UNULL, 40960); (UNULL, 65536); (user 0x105000, 0); (UNULL, 40960)] power_on = Some [user 0x105000; UNULL; UNOWHERE; UNULL] /\
  fst <$> calls [(UNULL, 40960); (user 0x105000, 0); (UNULL, 40960)] power_on = Some [user 0x105000; user 0x10f000; user 0x105000].
Proof. vm_compute. done. Qed.

(** The room for the header of the lowest block is not counted: a block that
    fills the region has its header in front of the region. *)
Example umalloc_header_below_region :
  match calls [(UNULL, 65528)] power_on with
  | Some (qs, h) => qs = [user 0x100000] /\ heap_size h = 0 /\ read_extmem example_offset (ext_mem h) (user 0x100000) = ExtMem 65528 1 /\
      ext_mem h 0xffff8 <> ext_mem power_on 0xffff8
  | None => False
  end.
Proof. vm_compute. split_and!; congruence. Qed.
