(* ===== verification/Bitmap.v ===== *)
(** * Bitmaps for multicast downloads (core/bitmap.c)

    A bitmap is an array of 64-bit blocks, a length in bits and the index of
    its first gap.  TFTP and SLAM use it to track the blocks of a download.
    The C library's [realloc] is a parameter: [None] is a NULL return.  A write
    outside the block array is [None] of [bitmap_set]. *)

From S2P Require Import Prelude CMem.

Definition BITMAP_BLKSIZE : Z := 64.
Definition BITMAP_INDEX (bit : Z) : Z := bit / BITMAP_BLKSIZE.
Definition BITMAP_MASK (bit : Z) : Z := u64 (Z.shiftl 1 (bit `mod` BITMAP_BLKSIZE)).

Record bitmap := Bitmap {
  blocks : list Z;
  blength : Z;
  first_gap : Z;
}.

(** [blocks[from .. from + n - 1] = 0], one at a time. *)
Fixpoint zero_blocks (l : list Z) (from n : nat) : list Z :=
  match n with
  | O => l
  | S n => zero_blocks (<[from := 0]> l) (S from) n
  end.

Definition bitmap_resize (realloc : list Z -> Z -> option (list Z)) (b : bitmap) (new_length : Z) :
    result unit * bitmap :=
  let old_num_blocks := u32 (BITMAP_INDEX (blength b + BITMAP_BLKSIZE - 1)) in
  let new_num_blocks := u32 (BITMAP_INDEX (new_length + BITMAP_BLKSIZE - 1)) in
  match (if decide (old_num_blocks <> new_num_blocks) then realloc (blocks b) new_num_blocks
         else Some (blocks b)) with
  | None => (Err ENOMEM, b)
  | Some new_blocks =>
    (Ok tt, Bitmap (zero_blocks new_blocks (Z.to_nat old_num_blocks)
                      (Z.to_nat (new_num_blocks - old_num_blocks)))
                   new_length (first_gap b))
  end.

Definition bitmap_test (b : bitmap) (bit : Z) : bool :=
  if decide (bit >= blength b) then false
  else bool_decide (Z.land (nth (Z.to_nat (BITMAP_INDEX bit)) (blocks b) 0) (BITMAP_MASK bit) <> 0).

(** The first gap loop; the fuel bounds its iterations by the length. *)
Fixpoint advance_gap (fuel : nat) (b : bitmap) : bitmap :=
  match fuel with
  | O => b
  | S fuel =>
    if bitmap_test b (first_gap b)
    then advance_gap fuel (Bitmap (blocks b) (blength b) (u32 (first_gap b + 1)))
    else b
  end.

Definition bitmap_set (b : bitmap) (bit : Z) : option bitmap :=
  let index := Z.to_nat (BITMAP_INDEX bit) in
  match blocks b !! index with
  | None => None
  | Some v =>
    let b := Bitmap (<[index := Z.lor v (BITMAP_MASK bit)]> (blocks b)) (blength b) (first_gap b) in
    Some (advance_gap (Z.to_nat (blength b)) b)
  end.

Definition bitmap_first_gap (b : bitmap) : Z := first_gap b.

Definition bitmap_full (b : bitmap) : bool := bool_decide (first_gap b = blength b).

(** ** Invariant

    The array covers the length, the blocks are 64-bit words, no bit beyond
    the length is set, and the first gap is the lowest clear bit. *)

Definition bit_at (b : bitmap) (i : Z) : bool :=
  Z.testbit (nth (Z.to_nat (i / 64)) (blocks b) 0) (i `mod` 64).

Definition blocks_cover (b : bitmap) : Prop :=
  0 <= blength b < 2 ^ 32 - 64 /\ Z.of_nat (length (blocks b)) = (blength b + 63) / 64 /\
  Forall (in_width 64) (blocks b).

Definition bitmap_ok (b : bitmap) : Prop :=
  blocks_cover b /\ (forall i, blength b <= i -> bit_at b i = false) /\
  0 <= first_gap b <= blength b /\
  (forall i, 0 <= i < first_gap b -> bit_at b i = true) /\ bit_at b (first_gap b) = false.

Lemma BITMAP_MASK_eq bit : 0 <= bit -> BITMAP_MASK bit = 2 ^ (bit `mod` 64).
Proof.
  intros Hb. unfold BITMAP_MASK, BITMAP_BLKSIZE. rewrite Z.shiftl_1_l. apply wrap_small.
  pose proof (Z.mod_pos_bound bit 64). split; [lia|]. apply Z.pow_lt_mono_r; lia.
Qed.

Lemma bitmap_test_spec b i : 0 <= i -> bitmap_test b i = bool_decide (i < blength b) && bit_at b i.
Proof.
  intros Hi. unfold bitmap_test, bit_at, BITMAP_INDEX, BITMAP_BLKSIZE. case_decide.
  - by rewrite bool_decide_false by lia.
  - pose proof (Z.mod_pos_bound i 64).
    rewrite (bool_decide_true (i < blength b)), BITMAP_MASK_eq, land_pow2_testbit by lia. destruct (Z.testbit _ _); simpl.
    + apply bool_decide_true. lia.
    + done.
Qed.

Lemma bit_at_insert b i bit v :
  0 <= i -> 0 <= bit -> blocks b !! Z.to_nat (bit / 64) = Some v ->
  bit_at (Bitmap (<[Z.to_nat (bit / 64) := Z.lor v (2 ^ (bit `mod` 64))]> (blocks b)) (blength b) (first_gap b)) i
  = bool_decide (i = bit) || bit_at b i.
Proof.
  intros Hi Hb Hv. unfold bit_at. cbn [blocks].
  pose proof (Z.div_mod i 64). pose proof (Z.mod_pos_bound i 64).
  pose proof (Z.div_mod bit 64). pose proof (Z.mod_pos_bound bit 64).
  pose proof (lookup_lt_Some _ _ _ Hv). assert (0 <= i / 64 /\ 0 <= bit / 64) as [? ?] by (split; apply Z.div_pos; lia).
  rewrite !nth_lookup. destruct (decide (i / 64 = bit / 64)) as [E|E].
  - rewrite E, list_lookup_insert_eq, Hv by done. simpl.
    rewrite Z.lor_spec, Z.pow2_bits_eqb, orb_comm by lia. f_equal.
    destruct (Z.eqb_spec (bit `mod` 64) (i `mod` 64)); case_bool_decide; done || lia.
  - rewrite list_lookup_insert_ne by lia. rewrite bool_decide_false; [done|]. by intros ->.
Qed.

(** The loop stops at the lowest clear bit. *)
Lemma advance_gap_spec fuel b :
  0 <= first_gap b <= blength b -> blength b < 2 ^ 32 - 64 -> blength b - first_gap b <= Z.of_nat fuel ->
  (forall i, 0 <= i < first_gap b -> bit_at b i = true) ->
  bit_at b (blength b) = false ->
  let b' := advance_gap fuel b in
  blocks b' = blocks b /\ blength b' = blength b /\ first_gap b <= first_gap b' <= blength b /\
  (forall i, 0 <= i < first_gap b' -> bit_at b i = true) /\ bit_at b (first_gap b') = false.
Proof.
  revert b. induction fuel as [|fuel IH]; intros b Hg Hl Hf Hlow Hend b'.
  { subst b'. simpl. assert (first_gap b = blength b) as E by lia. rewrite E in *. split_and!; auto with lia. }
  subst b'. cbn [advance_gap]. rewrite bitmap_test_spec by lia.
  case_bool_decide as Hlt; simpl; [destruct (bit_at b (first_gap b)) eqn:E|].
  - set (b1 := Bitmap _ _ _). specialize (IH b1). simpl in IH. rewrite wrap_small in IH by zlia.
    destruct IH as (-> & -> & ? & G1 & G2); [lia..| |done|].
    + intros i Hi. destruct (decide (i = first_gap b)) as [->|]; [done|]. apply Hlow. lia.
    + split_and!; auto with lia.
  - split_and!; auto with lia.
  - assert (first_gap b = blength b) as E by lia. rewrite E in *. split_and!; auto with lia.
Qed.

Lemma zero_blocks_spec l from n :
  (from + n <= length l)%nat ->
  length (zero_blocks l from n) = length l /\
  forall i, zero_blocks l from n !! i = if decide (from <= i < from + n)%nat then Some 0 else l !! i.
Proof.
  revert l from. induction n as [|n IH]; intros l from Hl; cbn [zero_blocks].
  { split; [done|]. intros i. by rewrite decide_False by lia. }
  destruct (IH (<[from := 0]> l) (S from)) as [G1 G2]; [rewrite length_insert; lia|].
  rewrite G1, length_insert. split; [done|]. intros i. rewrite G2.
  destruct (decide (i = from)) as [->|Hne].
  - rewrite decide_False, decide_True by lia. apply list_lookup_insert_eq. lia.
  - rewrite list_lookup_insert_ne by done. repeat case_decide; done || lia.
Qed.

(** ** Properties *)

Lemma blocks_cover_lookup b bit :
  blocks_cover b -> 0 <= bit < blength b -> is_Some (blocks b !! Z.to_nat (bit / 64)).
Proof.
  intros (Hl & Hn & _) Hb. apply lookup_lt_is_Some.
  pose proof (Z.div_mod bit 64). pose proof (Z.mod_pos_bound bit 64).
  pose proof (Z.div_mod (blength b + 63) 64). pose proof (Z.mod_pos_bound (blength b + 63) 64). lia.
Qed.

Lemma bitmap_set_spec b bit :
  bitmap_ok b -> 0 <= bit < blength b ->
  exists b', bitmap_set b bit = Some b' /\ bitmap_ok b' /\ blength b' = blength b /\
    forall i, 0 <= i -> bitmap_test b' i = bool_decide (i = bit) || bitmap_test b i.
Proof.
  intros (Hc & Hhi & Hg & Hlow & Hgap) Hb. unfold bitmap_set, BITMAP_INDEX, BITMAP_BLKSIZE.
  destruct (blocks_cover_lookup b bit Hc Hb) as [v Hv]. rewrite Hv, BITMAP_MASK_eq by lia.
  eexists. split; [done|]. set (b1 := Bitmap _ _ _).
  assert (forall i, 0 <= i -> bit_at b1 i = bool_decide (i = bit) || bit_at b i) as Hbit
    by (intros i Hi; by apply bit_at_insert; [..|lia|]).
  destruct Hc as (Hl & Hn & Hw).
  destruct (advance_gap_spec (Z.to_nat (blength b1)) b1) as (E1 & E2 & G1 & G2 & G3); simpl; [lia..| | |].
  { intros i Hi. rewrite Hbit, Hlow by lia. apply orb_true_r. }
  { rewrite Hbit, Hhi, bool_decide_false by lia. done. }
  set (b2 := advance_gap _ b1) in *.
  assert (forall i, bit_at b2 i = bit_at b1 i) as Hbit2 by (intros i; unfold bit_at; by rewrite E1).
  assert (blocks_cover b2) as Hc2.
  { unfold blocks_cover. rewrite E1, E2. cbn [blocks blength b1]. rewrite length_insert. split; [done|]. split; [done|].
    rewrite Forall_lookup in Hw. pose proof (Hw _ v Hv) as Hwv. pose proof (Z.mod_pos_bound bit 64).
    apply Forall_insert; [by rewrite Forall_lookup|]. split.
    - apply Z.lor_nonneg. split; [apply Hwv|apply Z.pow_nonneg; lia].
    - apply lor_in_width; [lia|done|]. split; [apply Z.pow_nonneg; lia|apply Z.pow_lt_mono_r; lia]. }
  unfold bitmap_ok. split; [split; [exact Hc2|]|]; split_and!.
  - intros i Hi. rewrite E2 in Hi. simpl in Hi. rewrite Hbit2, Hbit, Hhi, bool_decide_false by lia. done.
  - simpl in G1. lia.
  - rewrite E2. simpl. simpl in G1. lia.
  - intros i Hi. rewrite Hbit2. by apply G2.
  - by rewrite Hbit2.
  - done.
  - intros i Hi. rewrite !bitmap_test_spec, Hbit2, Hbit, E2 by done. simpl.
    repeat case_bool_decide; simpl; done || lia.
Qed.

(** Growing a bitmap keeps its bits. *)
Lemma bitmap_resize_spec realloc b new_length :
  realloc_contract 64 realloc -> bitmap_ok b -> blength b <= new_length < 2 ^ 32 - 64 ->
  match bitmap_resize realloc b new_length with
  | (Ok _, b') => bitmap_ok b' /\ blength b' = new_length /\ forall i, 0 <= i -> bit_at b' i = bit_at b i
  | (Err e, b') => e = ENOMEM /\ b' = b /\ exists l n, realloc l n = None
  end.
Proof.
  intros Hr (Hc & Hhi & Hg & Hlow & Hgap) Hn. destruct Hc as (Hl & Hlen & Hw). unfold bitmap_resize, BITMAP_INDEX, BITMAP_BLKSIZE.
  replace (blength b + 64 - 1) with (blength b + 63) by lia. replace (new_length + 64 - 1) with (new_length + 63) by lia.
  assert (0 <= (blength b + 63) / 64 <= (new_length + 63) / 64) as Hdiv
    by (split; [apply Z.div_pos; lia|apply Z.div_le_mono; lia]).
  assert ((new_length + 63) / 64 < 2 ^ 32) as Hup by (apply Z.div_lt_upper_bound; lia).
  rewrite !wrap_small by zlia. set (o := (blength b + 63) / 64) in *. set (n := (new_length + 63) / 64) in *.
  assert (match (if decide (o <> n) then realloc (blocks b) n else Some (blocks b)) with
          | None => exists l n, realloc l n = None
          | Some l => length l = Z.to_nat n /\ Forall (in_width 64) l /\ forall i, (i < Z.to_nat o)%nat -> l !! i = blocks b !! i
          end) as Hre.
  { destruct (decide (o <> n)) as [Hne|He].
    - destruct (realloc (blocks b) n) as [l|] eqn:E; [|by eexists _, _]. destruct (Hr (blocks b) n l ltac:(lia) Hw E) as (E1 & E2 & E3).
      split_and!; [done|done|]. intros i Hi. apply E3; lia.
    - split_and!; [lia|done|done]. }
  destruct (if decide (o <> n) then _ else _) as [l|]; [|done]. destruct Hre as (E1 & E2 & E3).
  destruct (zero_blocks_spec l (Z.to_nat o) (Z.to_nat (n - o))) as [Z1 Z2]; [lia|].
  set (l' := zero_blocks _ _ _) in *.
  assert (forall i, 0 <= i -> bit_at (Bitmap l' new_length (first_gap b)) i = bit_at b i) as Hbit.
  { intros i Hi. unfold bit_at. cbn [blocks]. rewrite !nth_lookup, Z2. assert (0 <= i / 64) by (apply Z.div_pos; lia).
    destruct (decide (_ <= _ < _)%nat) as [Hd|Hd].
    - rewrite (lookup_ge_None_2 (blocks b)) by lia. simpl. by rewrite Z.bits_0.
    - destruct (decide (Z.to_nat (i / 64) < Z.to_nat o)%nat) as [Hi'|Hi']; [by rewrite E3|].
      rewrite !lookup_ge_None_2 by lia. done. }
  split; [|done]. split; [|split_and!].
  - split; [simpl; lia|]. split; [simpl; lia|]. cbn [blocks]. rewrite Forall_lookup. intros i x. rewrite Z2.
    destruct (decide _); [intros [= <-]; zlia|]. rewrite Forall_lookup in E2. apply E2.
  - intros i Hi. simpl in Hi. rewrite Hbit by lia. apply Hhi. lia.
  - simpl. lia.
  - simpl. lia.
  - intros i Hi. simpl in Hi. rewrite Hbit by lia. by apply Hlow.
  - cbn [first_gap]. rewrite Hbit by lia. done.
Qed.

(** Setting a bit inside the bitmap never writes outside the block array,
    preserves the invariant and changes exactly that bit; the invariant says
    the first gap is again the lowest clear bit. *)
Theorem bitmap_set_correct b bit :
  bitmap_ok b -> 0 <= bit < blength b ->
  exists b', bitmap_set b bit = Some b' /\ bitmap_ok b' /\ blength b' = blength b /\
    forall i, 0 <= i -> bitmap_test b' i = bool_decide (i = bit) || bitmap_test b i.
Proof. apply bitmap_set_spec. Qed.

(** A bitmap with the invariant is full exactly when every bit is set,
    and its first gap is the lowest clear bit otherwise. *)
Theorem bitmap_full_iff b :
  bitmap_ok b ->
  (bitmap_full b = true <-> forall i, 0 <= i < blength b -> bitmap_test b i = true) /\
  (bitmap_full b = false -> bitmap_test b (bitmap_first_gap b) = false /\
     0 <= bitmap_first_gap b < blength b /\
     forall i, 0 <= i < bitmap_first_gap b -> bitmap_test b i = true).
Proof.
  intros (Hc & Hhi & Hg & Hlow & Hgap). unfold bitmap_full, bitmap_first_gap.
  assert (forall i, 0 <= i < first_gap b -> bitmap_test b i = true) as Hlow'.
  { intros i Hi. rewrite bitmap_test_spec, Hlow, bool_decide_true by lia. done. }
  split.
  - rewrite bool_decide_eq_true. split; [intros E; by rewrite <- E|]. intros Hall.
    destruct (decide (first_gap b = blength b)); [done|]. specialize (Hall (first_gap b)).
    rewrite bitmap_test_spec, Hgap, andb_false_r in Hall by lia. exfalso. by cut (false = true); [|apply Hall; lia].
  - intros Hn%bool_decide_eq_false. split_and!; [|lia..|done].
    by rewrite bitmap_test_spec, Hgap, andb_false_r by lia.
Qed.

Definition sample : bitmap := Bitmap [5] 3 1.

Lemma sample_ok : bitmap_ok sample.
Proof.
  split; [|split].
  - split; [simpl; lia|]. split; [done|]. repeat constructor; simpl; lia.
  - intros i Hi. simpl in Hi. unfold bit_at. cbn [blocks sample].
    pose proof (Z.div_mod i 64). pose proof (Z.mod_pos_bound i 64).
    destruct (decide (i / 64 = 0)) as [E|E].
    + rewrite E. change (Z.testbit 5 (i `mod` 64) = false). apply Z.bits_above_log2; [done|]. change (Z.log2 5) with 2. lia.
    + rewrite nth_overflow; [apply Z.bits_0|]. simpl. assert (0 <= i / 64) by (apply Z.div_pos; lia). lia.
  - split; [simpl; lia|]. split; [|done]. intros i Hi. simpl in Hi. by assert (i = 0) as -> by lia.
Qed.

Lemma bitmap_set_correct_witness :
  exists b', bitmap_set sample 1 = Some b' /\ bitmap_ok b' /\ bitmap_full b' = true.
Proof.
  destruct (bitmap_set_correct sample 1 sample_ok ltac:(simpl; lia)) as (b' & E & Hok & _).
  exists b'. split; [exact E|]. split; [exact Hok|].
  assert (bitmap_full <$> bitmap_set sample 1 = Some true) as F by (vm_compute; reflexivity).
  rewrite E in F. by injection F.
Defined.

Lemma bitmap_full_iff_witness : bitmap_full sample = false /\ bitmap_test sample 1 = false.
Proof.
  assert (bitmap_full sample = false) as F by reflexivity. split; [exact F|].
  exact (proj1 (proj2 (bitmap_full_iff sample sample_ok) F)).
Defined.
