(* ===== verification/Retry.v ===== *)
(** * Retry timers (net/retry.c, core/refcnt.c)

    A timer is a record found by its identifier, the list of running timers
    is the list of their identifiers from head to tail, and a reference counter
    is an integer found by its own identifier, without the bounds of the int of
    the source, which 2^31 references would overflow.  An object whose counter drops
    below zero is freed by a method of its own component: the model records
    the fact in [freed].  The expiry callbacks belong to the timers' users and
    are a parameter acting on the whole state; [W] is their part of it.
    [currticks()] is the argument [now] of each operation. *)

From stdpp Require Import sets.
From S2P Require Import Prelude.

Definition TICKS_PER_SEC : Z := 1024.
Definition DEFAULT_MIN_TIMEOUT : Z := TICKS_PER_SEC / 4.
Definition DEFAULT_MAX_TIMEOUT : Z := 10 * TICKS_PER_SEC.
Definition MIN_TIMEOUT : Z := 7.

Record retry_timer := Timer {
  running : bool;
  timeout : Z;
  tmin : Z;
  tmax : Z;
  start : Z;
  count : Z;
  refcnt : option nat;
}.

Section retry.
Context {W : Type}.

Record state := State {
  timers : list nat;
  timer_at : nat -> retry_timer;
  counts : nat -> Z;
  freed : list nat;
  world : W;
}.

Definition set_timer (s : state) (id : nat) (t : retry_timer) : state :=
  State (timers s) (fun i => if decide (i = id) then t else timer_at s i) (counts s) (freed s) (world s).

Definition set_timers (s : state) (l : list nat) : state :=
  State l (timer_at s) (counts s) (freed s) (world s).

Definition set_count (s : state) (r : nat) (c : Z) : state :=
  State (timers s) (timer_at s) (fun i => if decide (i = r) then c else counts s i) (freed s) (world s).

Definition list_del (id : nat) (l : list nat) : list nat := filter (fun i => i <> id) l.

Definition ref_increment (s : state) (r : option nat) : state :=
  match r with
  | None => s
  | Some r => set_count s r (counts s r + 1)
  end.

Definition ref_decrement (s : state) (r : option nat) : state :=
  match r with
  | None => s
  | Some r =>
    let s := set_count s r (counts s r - 1) in
    if decide (counts s r >= 0) then s
    else if decide (counts s r < -1) then s
    else State (timers s) (timer_at s) (counts s) (freed s ++ [r]) (world s)
  end.

Definition start_timer_fixed (s : state) (now : Z) (id : nat) (tmo : Z) : state :=
  let s :=
    if running (timer_at s id) then s
    else
      let s := set_timers s (id :: timers s) in
      let s := ref_increment s (refcnt (timer_at s id)) in
      let t := timer_at s id in
      set_timer s id (Timer true (timeout t) (tmin t) (tmax t) (start t) (count t) (refcnt t)) in
  let t := timer_at s id in
  set_timer s id (Timer (running t) tmo (tmin t) (tmax t) now (count t) (refcnt t)).

Definition start_timeout (t : retry_timer) : Z :=
  let min := if decide (tmin t <> 0) then tmin t else DEFAULT_MIN_TIMEOUT in
  let min := if decide (min < MIN_TIMEOUT) then MIN_TIMEOUT else min in
  if decide (timeout t < min) then min else timeout t.

Definition start_timer (s : state) (now : Z) (id : nat) : state :=
  start_timer_fixed s now id (start_timeout (timer_at s id)).

Definition start_timer_nodelay (s : state) (now : Z) (id : nat) : state := start_timer_fixed s now id 0.

(** The update of the timer's fields by [stop_timer]. *)
Definition stop_update (now : Z) (t : retry_timer) : retry_timer :=
  let runtime := u64 (now - start t) in
  if decide (count t <> 0)
  then Timer false (timeout t) (tmin t) (tmax t) (start t) (count t - 1) (refcnt t)
  else
    let tmo := u64 (timeout t - Z.shiftr (timeout t) 3) in
    let tmo := u64 (tmo + Z.shiftr runtime 1) in
    Timer false tmo (tmin t) (tmax t) (start t) (count t) (refcnt t).

Definition stop_timer (s : state) (now : Z) (id : nat) : state :=
  if running (timer_at s id) then
    let s := set_timers s (list_del id (timers s)) in
    let s := set_timer s id (stop_update now (timer_at s id)) in
    ref_decrement s (refcnt (timer_at s id))
  else s.

(** The back-off of the timeout on expiry, with the failure indicator. *)
Definition backoff (t : retry_timer) : retry_timer * bool :=
  let max := if decide (tmax t <> 0) then tmax t else DEFAULT_MAX_TIMEOUT in
  let tmo := u64 (Z.shiftl (timeout t) 1) in
  let fail := bool_decide (tmo > max) in
  (Timer false (if fail then max else tmo) (tmin t) (tmax t) (start t) (u32 (count t + 1)) (refcnt t), fail).

(** What starting and stopping do to the timer itself, for clients that embed
    their timers. *)
Definition started (now tmo : Z) (t : retry_timer) : retry_timer :=
  Timer true tmo (tmin t) (tmax t) now (count t) (refcnt t).

Definition stopped (now : Z) (t : retry_timer) : retry_timer :=
  if running t then stop_update now t else t.

Context (expired : nat -> bool -> state -> state).

Definition timer_expired (s : state) (id : nat) : state :=
  let refcnt := refcnt (timer_at s id) in
  let s := set_timers s (list_del id (timers s)) in
  let '(t, fail) := backoff (timer_at s id) in
  let s := set_timer s id t in
  let s := expired id fail s in
  ref_decrement s refcnt.

Definition has_expired (now : Z) (t : retry_timer) : bool :=
  bool_decide (u64 (now - start t) >= timeout t).

Definition retry_poll (s : state) (now : Z) : state :=
  match List.find (fun id => has_expired now (timer_at s id)) (timers s) with
  | Some id => timer_expired s id
  | None => s
  end.

(** ** Invariant

    [timers_on s r] counts the running timers that hold a reference to object
    [r].  The list holds each running timer once and no other, and every
    counter (one less than the number of references) accounts for the timers
    and for the references [pin] says somebody else is holding. *)

Definition pins (p : option nat) (r : nat) : Z := if decide (p = Some r) then 1 else 0.

Fixpoint refs_in (f : nat -> retry_timer) (l : list nat) (r : nat) : Z :=
  match l with
  | [] => 0
  | id :: l => pins (refcnt (f id)) r + refs_in f l r
  end.

Definition timers_on (s : state) (r : nat) : Z := refs_in (timer_at s) (timers s) r.

Definition timers_ok (p : option nat) (s : state) : Prop :=
  NoDup (timers s) /\ (forall id, id ∈ timers s <-> running (timer_at s id) = true) /\
  forall r, counts s r >= timers_on s r + pins p r - 1.

(** What the rest of the firmware may do: operate the timers, let time pass,
    take references, and drop references that are not the timers' own. *)
Inductive timer_step : state -> state -> Prop :=
  | step_start s now id : timer_step s (start_timer s now id)
  | step_start_fixed s now id tmo : timer_step s (start_timer_fixed s now id tmo)
  | step_stop s now id : timer_step s (stop_timer s now id)
  | step_poll s now : timer_step s (retry_poll s now)
  | step_ref_get s r : timer_step s (ref_increment s (Some r))
  | step_ref_put s r : counts s r >= timers_on s r -> timer_step s (ref_decrement s (Some r)).

Lemma list_del_ok id l :
  NoDup l -> NoDup (list_del id l) /\ forall i, i ∈ list_del id l <-> i <> id /\ i ∈ l.
Proof. intros Hl. unfold list_del. split; [by apply NoDup_filter|]. intros i. by rewrite list_elem_of_filter. Qed.

Lemma refs_in_ext f g l r :
  (forall id, id ∈ l -> refcnt (f id) = refcnt (g id)) -> refs_in f l r = refs_in g l r.
Proof.
  induction l as [|id l IH]; intros H; simpl; [done|]. rewrite H by set_solver. rewrite IH; [done|]. intros; apply H. set_solver.
Qed.

Lemma pins_nonneg p r : 0 <= pins p r <= 1.
Proof. unfold pins. case_decide; lia. Qed.

Lemma refs_in_nonneg f l r : 0 <= refs_in f l r.
Proof. induction l as [|id l IH]; simpl; [lia|]. pose proof (pins_nonneg (refcnt (f id)) r). lia. Qed.

Lemma refs_in_elem f l id r : id ∈ l -> refcnt (f id) = Some r -> 1 <= refs_in f l r.
Proof.
  induction 1 as [id l|id id' l _ IH]; intros E; simpl.
  - rewrite E. unfold pins. rewrite decide_True by done. pose proof (refs_in_nonneg f l r). lia.
  - pose proof (pins_nonneg (refcnt (f id')) r). specialize (IH E). lia.
Qed.

Lemma refs_in_list_del f l id r :
  NoDup l -> id ∈ l -> refs_in f (list_del id l) r = refs_in f l r - pins (refcnt (f id)) r.
Proof.
  intros Hnd Hid. induction Hnd as [|i l Hi Hnd IH]; [set_solver|].
  unfold list_del in *. destruct (decide (i = id)) as [->|Hne].
  - rewrite filter_cons_False by (intros H; by apply H).
    assert (filter (fun i => i <> id) l = l) as ->; [|simpl; lia].
    clear -Hi. induction l as [|j l IH]; [done|]. rewrite filter_cons_True by set_solver. f_equal. apply IH. set_solver.
  - rewrite filter_cons_True by done. simpl. rewrite IH; [lia|]. set_solver.
Qed.

Lemma ref_decrement_fields s r :
  timers (ref_decrement s r) = timers s /\ timer_at (ref_decrement s r) = timer_at s.
Proof. unfold ref_decrement. destruct r; [|done]. repeat case_decide; done. Qed.

Lemma ref_decrement_count s r r' :
  counts (ref_decrement s r) r' = counts s r' - pins r r'.
Proof.
  unfold ref_decrement, pins. destruct r as [r|]; simpl; [|lia].
  repeat case_decide; simplify_eq/=; repeat case_decide; simplify_eq; lia.
Qed.
Lemma ref_decrement_ok p r s : timers_ok r s -> p = None -> timers_ok p (ref_decrement s r).
Proof.
  intros (Hnd & Hl & Hc) ->. destruct (ref_decrement_fields s r) as [E1 E2].
  unfold timers_ok, timers_on. rewrite E1, E2. split_and!; [done..|]. intros r'.
  rewrite ref_decrement_count. specialize (Hc r'). unfold timers_on in Hc.
  change (pins None r') with 0. lia.
Qed.

(** Storing fields of a timer that keeps its object. *)
Lemma set_timer_ok p s id t :
  timers_ok p s -> running t = running (timer_at s id) -> refcnt t = refcnt (timer_at s id) ->
  timers_ok p (set_timer s id t).
Proof.
  intros (Hnd & Hl & Hc) Hr Hf. split; [done|]. split.
  - intros i. simpl. case_decide as E; [rewrite E, Hr|]; apply Hl.
  - intros r. unfold timers_on. cbn [set_timer timer_at timers counts]. rewrite (refs_in_ext _ (timer_at s)); [apply Hc|].
    intros i _. case_decide; [by subst|done].
Qed.

Lemma start_timer_fixed_ok s now id tmo : timers_ok None s -> timers_ok None (start_timer_fixed s now id tmo).
Proof.
  intros Hok. unfold start_timer_fixed. apply set_timer_ok; [|done..].
  destruct (running (timer_at s id)) eqn:Er; [done|]. destruct Hok as (Hnd & Hl & Hc).
  assert (id ∉ timers s) as Hni by (rewrite Hl, Er; done).
  assert (forall s1, timer_at s1 = timer_at s -> timers s1 = id :: timers s ->
    (forall r, counts s1 r = counts s r + pins (refcnt (timer_at s id)) r) ->
    timers_ok None (set_timer s1 id (Timer true (timeout (timer_at s1 id)) (tmin (timer_at s1 id))
      (tmax (timer_at s1 id)) (start (timer_at s1 id)) (count (timer_at s1 id)) (refcnt (timer_at s1 id))))) as Hgen.
  { intros s1 E1 E2 E3. unfold timers_ok, timers_on. cbn [set_timer timer_at timers counts]. rewrite E1, E2.
    split; [by constructor|]. split.
    - intros i. rewrite elem_of_cons. case_decide as E; simpl; [naive_solver|]. rewrite Hl. naive_solver.
    - intros r. rewrite (refs_in_ext _ (timer_at s)); [|intros i _; case_decide; by subst].
      simpl. rewrite E3. specialize (Hc r). unfold timers_on in Hc. lia. }
  apply Hgen; simpl; unfold ref_increment; destruct (refcnt (timer_at s id)) as [r0|] eqn:E0; simpl; try done.
  - intros r. unfold pins. repeat case_decide; simplify_eq; lia.
  - intros r. change (pins None r) with 0. lia.
Qed.

Lemma start_timer_fixed_at s now id tmo : timer_at (start_timer_fixed s now id tmo) id = started now tmo (timer_at s id).
Proof.
  unfold start_timer_fixed, started. destruct (running (timer_at s id)) eqn:E; simpl.
  - by rewrite decide_True, E.
  - destruct (refcnt (timer_at s id)) as [r|] eqn:Er; simpl; rewrite !decide_True by done; simpl; by rewrite ?Er.
Qed.

Lemma stop_timer_at s now id : timer_at (stop_timer s now id) id = stopped now (timer_at s id).
Proof.
  unfold stop_timer, stopped. destruct (running (timer_at s id)); [|done].
  destruct (ref_decrement_fields (set_timer (set_timers s (list_del id (timers s))) id
    (stop_update now (timer_at (set_timers s (list_del id (timers s))) id)))
    (refcnt (timer_at (set_timer (set_timers s (list_del id (timers s))) id
    (stop_update now (timer_at (set_timers s (list_del id (timers s))) id))) id))) as [_ ->].
  simpl. by rewrite decide_True.
Qed.

(** Unlinking a running timer: its reference is now the caller's. *)
Lemma unlink_ok s id t :
  timers_ok None s -> running (timer_at s id) = true -> running t = false ->
  timers_ok (refcnt (timer_at s id)) (set_timer (set_timers s (list_del id (timers s))) id t).
Proof.
  intros (Hnd & Hl & Hc) Hr Ht. destruct (list_del_ok id (timers s) Hnd) as [Hnd' Hin].
  split; [done|]. split.
  - intros i. simpl. rewrite Hin. case_decide as E; [rewrite E, Ht; naive_solver|]. rewrite Hl. naive_solver.
  - intros r. unfold timers_on. cbn [set_timer set_timers timer_at timers counts].
    rewrite (refs_in_ext _ (timer_at s)).
    + rewrite refs_in_list_del by (done || by apply Hl). specialize (Hc r). unfold timers_on in Hc.
      change (pins None r) with 0 in Hc. lia.
    + intros i Hi%Hin. by rewrite decide_False by tauto.
Qed.

Lemma stop_update_fields now t : running (stop_update now t) = false /\ refcnt (stop_update now t) = refcnt t.
Proof. unfold stop_update. by case_decide. Qed.

Lemma stop_timer_ok s now id : timers_ok None s -> timers_ok None (stop_timer s now id).
Proof.
  intros Hok. unfold stop_timer. destruct (running (timer_at s id)) eqn:Er; [|done].
  destruct (stop_update_fields now (timer_at s id)) as [F1 F2].
  eapply ref_decrement_ok; [|done]. cbn [set_timer timer_at set_timers]. rewrite decide_True, F2 by done.
  by apply unlink_ok.
Qed.

(** The contract of the expiry callbacks: a callback leaves the timers well
    formed and does not drop the reference its caller holds. *)
Context (expired_ok : forall id fail s p, timers_ok p s -> p = refcnt (timer_at s id) ->
                      timers_ok p (expired id fail s)).

Lemma timer_expired_ok s id :
  timers_ok None s -> running (timer_at s id) = true -> timers_ok None (timer_expired s id).
Proof.
  intros Hok Hr. unfold timer_expired. cbn [set_timers timer_at].
  destruct (backoff (timer_at s id)) as [t fail] eqn:E. eapply ref_decrement_ok; [|done].
  unfold backoff in E. simplify_eq. apply expired_ok.
  - apply unlink_ok; done.
  - simpl. by rewrite decide_True.
Qed.

Lemma retry_poll_ok s now : timers_ok None s -> timers_ok None (retry_poll s now).
Proof.
  intros Hok. unfold retry_poll. destruct (List.find _ _) as [id|] eqn:E; [|done].
  apply timer_expired_ok; [done|]. apply Hok. by apply List.find_some in E as [?%list_elem_of_In _].
Qed.

Lemma timer_step_ok s s' : timer_step s s' -> timers_ok None s -> timers_ok None s'.
Proof.
  destruct 1 as [s now id|s now id tmo|s now id|s now|s r|s r Hr]; intros Hok.
  - by apply start_timer_fixed_ok.
  - by apply start_timer_fixed_ok.
  - by apply stop_timer_ok.
  - by apply retry_poll_ok.
  - destruct Hok as (Hnd & Hl & Hc). split_and!; [done..|]. intros r'. simpl. specialize (Hc r').
    unfold timers_on in *. simpl. case_decide; subst; lia.
  - eapply ref_decrement_ok; [|done]. destruct Hok as (Hnd & Hl & Hc). split_and!; [done..|].
    intros r'. specialize (Hc r'). change (pins None r') with 0 in Hc. unfold pins. case_decide; simplify_eq; lia.
Qed.
End retry.

Arguments state : clear implicits.
Arguments State {W}.

(** ** Properties *)

(** C36: under any sequence of timer operations, polls and reference counting
    by the rest of the firmware, the timer list holds exactly the running
    timers, once each, and the object of a running timer still has a
    non-negative reference count, so it has not been freed. *)
Theorem retry_timers_safe {W} (expired : nat -> bool -> state W -> state W) s s' :
  (forall id fail s p, timers_ok p s -> p = refcnt (timer_at s id) -> timers_ok p (expired id fail s)) ->
  timers_ok None s -> rtc (timer_step expired) s s' ->
  timers_ok None s' /\
  forall id r, running (timer_at s' id) = true -> refcnt (timer_at s' id) = Some r -> counts s' r >= 0.
Proof.
  intros Hcb Hok Hst. assert (timers_ok None s') as Hok'.
  { induction Hst as [|s1 s2 s3 H1 _ IH]; [done|]. apply IH. by eapply timer_step_ok. }
  split; [done|]. intros id r Hr Hf. destruct Hok' as (_ & Hl & Hc).
  specialize (Hc r). apply Hl in Hr. pose proof (refs_in_elem _ _ _ _ Hr Hf).
  unfold timers_on in Hc. change (pins None r) with 0 in Hc. lia.
Qed.

Definition idle (r : option nat) : retry_timer := Timer false 0 0 0 0 0 r.
Definition example_state : state unit := State [] (fun _ => idle (Some 0%nat)) (fun _ => 0) [] tt.

Lemma example_state_ok : timers_ok None example_state.
Proof. split; [constructor|]. split; [|intros r; simpl; vm_compute; done]. intros id. split; [by intros ?%not_elem_of_nil|done]. Qed.

Lemma retry_timers_safe_witness :
  let s' := retry_poll (fun _ _ s => s) (start_timer example_state 100 3) 1000 in
  timers_ok None (start_timer example_state 100 3) /\ timers s' = [] /\ counts s' 0%nat >= 0.
Proof.
  intros s'. pose proof (retry_timers_safe (fun _ _ s => s) example_state (start_timer example_state 100 3)
    ltac:(done) example_state_ok ltac:(eapply rtc_once, (step_start _ example_state 100 3))) as [Hok _].
  split; [exact Hok|]. split; [reflexivity|vm_compute; done].
Defined.

(** The round-trip estimate.  Stopping a timer that was not retransmitted
    smooths the timeout to 7/8 of itself plus half of the running time,
    computed modulo the tick counter's width so that a wrapping clock does not
    disturb it, and a timeout of at least seven ticks never falls below seven.
    A timer that was retransmitted keeps its timeout (Karn's algorithm). *)
Theorem stop_timer_smoothing {W} (s : state W) now id :
  let t := timer_at s id in let t' := timer_at (stop_timer s (u64 now) id) id in
  running t = true -> 0 <= timeout t < 2 ^ 63 -> 0 <= now - start t < 2 ^ 64 ->
  running t' = false /\
  (count t = 0 -> timeout t' = timeout t - timeout t / 8 + (now - start t) / 2 /\ count t' = 0 /\
                  (MIN_TIMEOUT <= timeout t -> MIN_TIMEOUT <= timeout t')) /\
  (count t <> 0 -> timeout t' = timeout t /\ count t' = count t - 1).
Proof.
  intros t t' Hr Ht Hn.
  assert (t' = stop_update (u64 now) t) as ->.
  { unfold t', stop_timer. fold t. rewrite Hr.
    rewrite (proj2 (ref_decrement_fields _ _)). simpl. by rewrite decide_True. }
  unfold stop_update. change MIN_TIMEOUT with 7.
  assert (u64 (u64 now - start t) = now - start t) as ->.
  { unfold wrap. rewrite Zminus_mod_idemp_l. by apply Z.mod_small. }
  case_decide as Hc; cbn [running timeout count]; [by split_and!|].
  rewrite !Z.shiftr_div_pow2 by lia. change (2 ^ 3) with 8. change (2 ^ 1) with 2.
  pose proof (Z.div_mod (timeout t) 8). pose proof (Z.mod_pos_bound (timeout t) 8).
  pose proof (Z.div_mod (now - start t) 2). pose proof (Z.mod_pos_bound (now - start t) 2).
  rewrite (wrap_small 64 (timeout t - _)) by zlia. rewrite wrap_small by zlia.
  split_and!; [done| |lia]. intros E. split_and!; [done..|lia].
Qed.

Lemma stop_timer_smoothing_witness :
  timeout (timer_at (stop_timer (start_timer example_state 100 3) (u64 180) 3) 3) = 264.
Proof.
  destruct (stop_timer_smoothing (start_timer example_state 100 3) 180 3) as (_ & H & _);
    [done|vm_compute; done..|]. destruct H as [H _]; [done|]. exact H.
Defined.

(** Expiry of a timer whose callback restarts it, [n] times in a row: the
    timer and the failure indicator of the last expiry. *)
Fixpoint expiries (n : nat) (t : retry_timer) : retry_timer * bool :=
  match n with
  | O => (t, false)
  | S n =>
    let t := fst (expiries n t) in
    backoff (Timer true (start_timeout t) (tmin t) (tmax t) (start t) (count t) (refcnt t))
  end.

Definition max_timeout (t : retry_timer) : Z := if decide (tmax t <> 0) then tmax t else DEFAULT_MAX_TIMEOUT.

(** Binary exponential back-off.  A timer restarted on every expiry has,
    after [n + 1] expiries, its initial timeout times [2 ^ (n + 1)] or the
    maximum, whichever is less; the expiry reports failure exactly when the
    doubled timeout exceeds the maximum. *)
Theorem backoff_exponential t n :
  start_timeout t <= max_timeout t -> max_timeout t < 2 ^ 63 ->
  let '(t', fail) := expiries (S n) t in
  timeout t' = Z.min (2 ^ Z.of_nat (S n) * start_timeout t) (max_timeout t) /\
  fail = bool_decide (2 ^ Z.of_nat (S n) * start_timeout t > max_timeout t).
Proof.
  intros Hs Hm. assert (7 <= start_timeout t) as H7.
  { unfold start_timeout, MIN_TIMEOUT. repeat case_decide; lia. }
  assert (forall n, let t' := fst (expiries n t) in
    tmin t' = tmin t /\ tmax t' = tmax t /\
    start_timeout t' = Z.min (2 ^ Z.of_nat n * start_timeout t) (max_timeout t) /\
    (n <> O -> timeout t' = start_timeout t')) as Hinv.
  { clear n. induction n as [|n (E1 & E2 & E3 & _)]; intros t'; [by split_and!; [..|change (2 ^ Z.of_nat 0) with 1; cbn [expiries fst t']; lia|]|].
    subst t'. cbn [expiries]. remember (fst (expiries n t)) as u eqn:Hu. clear Hu.
    unfold backoff. cbn [fst tmin tmax timeout]. split; [done|]. split; [done|].
    assert (2 ^ Z.of_nat (S n) = 2 * 2 ^ Z.of_nat n) as P by (rewrite Nat2Z.inj_succ, Z.pow_succ_r; lia).
    pose proof (Z.pow_pos_nonneg 2 (Z.of_nat n)).
    rewrite Z.shiftl_mul_pow2, Z.pow_1_r by lia. rewrite wrap_small by (unfold in_width; nia).
    rewrite E2, E3, P. fold (max_timeout t). set (q := 2 ^ Z.of_nat n) in *.
    match goal with |- start_timeout ?w = _ /\ _ => set (v := w) end.
    assert (timeout v = Z.min (2 * q * start_timeout t) (max_timeout t)) as Ev.
    { subst v. cbn [timeout]. case_bool_decide; nia. }
    assert (start_timeout v = timeout v) as Ev2.
    { assert (start_timeout t <= timeout v) as Hle by (rewrite Ev; nia).
      assert (tmin v = tmin t) as Em by done. clearbody v. clear Ev. revert Hle. unfold start_timeout. rewrite Em.
      repeat case_decide; lia. }
    rewrite Ev2. done. }
  destruct (Hinv n) as (E1 & E2 & E3 & _). cbn [expiries]. remember (fst (expiries n t)) as u eqn:Hu. clear Hu Hinv.
  unfold backoff. cbn [timeout tmax]. rewrite E2, E3. fold (max_timeout t).
  assert (2 ^ Z.of_nat (S n) = 2 * 2 ^ Z.of_nat n) as P by (rewrite Nat2Z.inj_succ, Z.pow_succ_r; lia).
  pose proof (Z.pow_pos_nonneg 2 (Z.of_nat n)).
  rewrite Z.shiftl_mul_pow2, Z.pow_1_r by lia. rewrite wrap_small by (unfold in_width; nia).
  rewrite P. set (q := 2 ^ Z.of_nat n) in *. split.
  - case_bool_decide; nia.
  - apply bool_decide_ext. split; nia.
Qed.

Lemma backoff_exponential_witness :
  timeout (fst (expiries 6 (idle None))) = 10240 /\ snd (expiries 6 (idle None)) = true /\
  snd (expiries 5 (idle None)) = false.
Proof.
  pose proof (backoff_exponential (idle None) 5 ltac:(vm_compute; done) ltac:(vm_compute; done)) as H.
  destruct (expiries 6 (idle None)) as [t' f'] eqn:E. destruct H as [H1 H2]. 
  split; [exact H1|]. split; [rewrite H2|]; reflexivity.
Defined.
