(* ===== verification/Interface.v ===== *)
(** * Object interfaces (core/interface.c, include/ipxe/interface.h)

    Interfaces are numbered; number zero is the null interface.  An interface
    knows its destination, the reference counter of its object, and a
    descriptor, of which number zero is the null descriptor.  The objects of
    the firmware are parameters: [has_op] tells which operations the
    descriptor of an interface implements, [passthru] the interface that it
    passes other operations to, and [on_close] what the close method of an
    object does: it changes the rest of the state, of type [W], and then acts
    on interfaces.  A method may shut down, restart, unplug and nullify any
    interfaces, also those that are being closed; a method that connects
    interfaces again (resmux_child_close() in core/resolv.c starts the next
    resolver) is outside the model.

    [trace] is the history of the close methods that were called and of the
    objects that were freed.  The calls of a method nest; [None] is exhausted
    fuel for the depth of nesting or for a chain of pass-through interfaces.

    The theorems: with close methods that connect nothing, shutting interfaces
    down terminates and calls at most one method for each connected interface
    ([intf_shutdown_terminates]); the reference counts stay exact, so that no
    method of a freed object is called and no object is freed twice
    ([intfs_shutdown_safe], [intf_plug_plug_exact]); restarted interfaces can
    be used again ([intfs_restart_ready]); and the interfaces that are being
    shut down together hear nothing of it ([intfs_shutdown_blocks]).  Counters
    are unbounded (an int in the source, which 2^31 references would overflow),
    and methods drop no references other than through
    interfaces. *)

From S2P Require Import Prelude.

Record interface := Intf {
  dest : nat;
  refcnt : option nat;
  desc : nat;
  original : nat;
}.

(** The operations: closing, and the others, which are numbered. *)
Inductive op_type := INTF_CLOSE | INTF_OTHER (n : nat).

#[export] Instance op_type_eq_dec : EqDecision op_type.
Proof. solve_decision. Defined.

Inductive action :=
  | Shutdown (i : nat) (rc : result unit)
  | Restart (i : nat) (rc : result unit)
  | Unplug (i : nat)
  | Nullify (i : nat).

Inductive event := Closed (i : nat) (rc : result unit) | Freed (r : nat).

Section interface.
Context {W : Type}.

Record state := State {
  intf : nat -> interface;
  counts : nat -> Z;
  trace : list event;
  world : W;
}.

Definition set_intf (i : nat) (f : interface) (s : state) : state :=
  State (fun j => if decide (j = i) then f else intf s j) (counts s) (trace s) (world s).
Definition set_dest (i d : nat) (s : state) : state :=
  set_intf i (Intf d (refcnt (intf s i)) (desc (intf s i)) (original (intf s i))) s.
Definition set_desc (i d : nat) (s : state) : state :=
  set_intf i (Intf (dest (intf s i)) (refcnt (intf s i)) d (original (intf s i))) s.

(** ** Reference counts *)

Definition set_count (r : nat) (v : Z) (s : state) : state :=
  State (intf s) (fun r' => if decide (r' = r) then v else counts s r') (trace s) (world s).

Definition ref_get (r : option nat) (s : state) : state :=
  match r with
  | None => s
  | Some r => set_count r (counts s r + 1) s
  end.

Definition ref_put (r : option nat) (s : state) : state :=
  match r with
  | None => s
  | Some r =>
    let s := set_count r (counts s r - 1) s in
    if decide (counts s r >= 0) then s
    else if decide (counts s r < -1) then s
    else State (intf s) (counts s) (trace s ++ [Freed r]) (world s)
  end.

Definition intf_get (i : nat) (s : state) : state := ref_get (refcnt (intf s i)) s.
Definition intf_put (i : nat) (s : state) : state := ref_put (refcnt (intf s i)) s.

(** ** Plumbing *)

Definition intf_plug (i d : nat) (s : state) : state :=
  let s := intf_get d s in
  let s := intf_put (dest (intf s i)) s in
  set_dest i d s.

Definition intf_plug_plug (a b : nat) (s : state) : state := intf_plug b a (intf_plug a b s).

Definition intf_unplug (i : nat) (s : state) : state :=
  let s := intf_put (dest (intf s i)) s in
  set_dest i 0 s.

Definition intf_nullify (i : nat) (s : state) : state := set_desc i 0 s.
Definition intf_reinit (i : nat) (s : state) : state := set_desc i (original (intf s i)) s.

Definition intf_init (i d : nat) (r : option nat) (s : state) : state := set_intf i (Intf 0 r d d) s.

(** ** Operations *)

Context (has_op : nat -> op_type -> bool) (passthru : nat -> option nat)
        (on_close : nat -> result unit -> W -> W * list action).

(** The null descriptor implements closing only, and has no pass-through. *)
Definition provides (d : nat) (type : op_type) : bool :=
  if decide (d = 0)%nat then bool_decide (type = INTF_CLOSE) else has_op d type.
Definition intf_get_passthru (i : nat) (s : state) : option nat :=
  if decide (desc (intf s i) = 0)%nat then None else passthru i.

(** [d] is the destination of the interface: whether it implements the
    operation.  The caller receives a reference to it. *)
Definition intf_get_dest_op_no_passthru (d : nat) (type : op_type) (s : state) : bool * state :=
  let s := intf_get d s in (provides (desc (intf s d)) type, s).

(** The interface that the operation is for, and whether it implements it. *)
Fixpoint intf_get_dest_op (hops : nat) (d : nat) (type : op_type) (s : state) : option (bool * nat * state) :=
  match hops with
  | O => None
  | S hops =>
    let '(func, s) := intf_get_dest_op_no_passthru d type s in
    if func then Some (true, d, s) else
    match intf_get_passthru d s with
    | None => Some (false, d, s)
    | Some i => let s := intf_put d s in intf_get_dest_op hops (dest (intf s i)) type s
    end
  end.

(** The close method of the interface [d]: the null interface's does nothing. *)
Definition call_close (d : nat) (rc : result unit) (s : state) : list action * state :=
  if decide (desc (intf s d) = 0)%nat then ([], s) else
  let '(w, acts) := on_close d rc (world s) in
  (acts, State (intf s) (counts s) (trace s ++ [Closed d rc]) w).

Context (hops : nat).

Fixpoint in_turn (f : action -> state -> option state) (acts : list action) (s : state) : option state :=
  match acts with
  | [] => Some s
  | a :: acts => match f a s with Some s => in_turn f acts s | None => None end
  end.

(** [intf_close] on an interface with destination [d]; [act] performs the
    actions of methods. *)
Definition close_dest (act : action -> state -> option state) (d : nat) (rc : result unit) (s : state) : option state :=
  match intf_get_dest_op hops d INTF_CLOSE s with
  | None => None
  | Some (func, d, s) =>
    let done := if func then let '(acts, s) := call_close d rc s in in_turn act acts s else act (Restart d rc) s in
    match done with Some s => Some (intf_put d s) | None => None end
  end.

Definition shutdown (act : action -> state -> option state) (i : nat) (rc : result unit) (s : state) : option state :=
  let s := intf_nullify i s in
  let tmp_dest := dest (intf s i) in
  let s := set_dest i 0 s in
  match close_dest act tmp_dest rc s with
  | None => None
  | Some s => Some (intf_put tmp_dest s)
  end.

Fixpoint act (fuel : nat) (a : action) (s : state) : option state :=
  match fuel with
  | O => None
  | S fuel =>
    match a with
    | Shutdown i rc => shutdown (act fuel) i rc s
    | Restart i rc => match shutdown (act fuel) i rc s with Some s => Some (intf_reinit i s) | None => None end
    | Unplug i => Some (intf_unplug i s)
    | Nullify i => Some (intf_nullify i s)
    end
  end.

Definition intf_close (fuel i : nat) (rc : result unit) (s : state) : option state :=
  close_dest (act fuel) (dest (intf s i)) rc s.
Definition intf_shutdown (fuel i : nat) (rc : result unit) (s : state) : option state := act fuel (Shutdown i rc) s.
Definition intf_restart (fuel i : nat) (rc : result unit) (s : state) : option state := act fuel (Restart i rc) s.

Definition intfs_shutdown (fuel : nat) (l : list nat) (rc : result unit) (s : state) : option state :=
  let s := foldl (fun s i => intf_nullify i s) s l in
  in_turn (act fuel) (map (fun i => Shutdown i rc) l) s.

Definition intfs_restart (fuel : nat) (l : list nat) (rc : result unit) (s : state) : option state :=
  match intfs_shutdown fuel l rc s with
  | Some s => Some (foldl (fun s i => intf_reinit i s) s l)
  | None => None
  end.

(** [intf_poke]: the interface on which the method is called, if any; [poked]
    is what the method does. *)
Definition intf_poke (i : nat) (n : nat) (poked : nat -> W -> W) (s : state) : option state :=
  match intf_get_dest_op hops (dest (intf s i)) (INTF_OTHER n) s with
  | None => None
  | Some (func, d, s) =>
    let s := if func then State (intf s) (counts s) (trace s) (poked d (world s)) else s in
    Some (intf_put d s)
  end.
End interface.

Arguments state : clear implicits.
Arguments State {W}.

(** ** References

    The interfaces of the system are [ids].  Apart from them somebody else may
    hold references to objects: [ext r] of them to the object [r].  A counter
    is one less than the number of references. *)

Lemma filter_agree {A} (P Q : A -> Prop) `{forall x, Decision (P x)} `{forall x, Decision (Q x)} (l : list A) :
  (forall x, x ∈ l -> P x <-> Q x) -> filter P l = filter Q l.
Proof.
  induction l as [|x l IH]; intros Hpq; [done|]. rewrite !filter_cons, IH by (intros y Hy; apply Hpq; by right).
  specialize (Hpq x (list_elem_of_here _ _)). repeat case_decide; tauto.
Qed.

Lemma count_change {A} (P Q : A -> Prop) `{forall x, Decision (P x)} `{forall x, Decision (Q x)} (i : A) (l : list A) :
  NoDup l -> i ∈ l -> (forall j, j <> i -> P j <-> Q j) ->
  (length (filter P l) + (if decide (Q i) then 1 else 0) = length (filter Q l) + (if decide (P i) then 1 else 0))%nat.
Proof.
  intros Hl Hi Hpq. induction Hl as [|j l Hj Hl IH]; [by apply elem_of_nil in Hi|]. rewrite !filter_cons.
  apply elem_of_cons in Hi as [<-|Hi].
  - assert (filter P l = filter Q l) as ->.
    { apply filter_agree. intros x Hx. apply Hpq. by intros ->. }
    repeat case_decide; simpl; lia.
  - specialize (IH Hi). assert (j <> i) as Hne by (by intros ->). specialize (Hpq j Hne).
    destruct (decide (P j)), (decide (Q j)); simpl; try tauto; lia.
Qed.

Section references.
Context {W : Type} (ids : list nat).
Implicit Types s : state W.

Definition refs s (r : nat) : nat := length (filter (fun i => refcnt (intf s (dest (intf s i))) = Some r) ids).

Definition refs_ok (ext : nat -> nat) s : Prop :=
  forall r, counts s r = Z.of_nat (refs s r + ext r) - 1 /\ (Freed r ∈ trace s -> (refs s r + ext r = 0)%nat).

(** One more reference. *)
Definition add_ref (o : option nat) (ext : nat -> nat) (r : nat) : nat :=
  (ext r + if decide (o = Some r) then 1 else 0)%nat.

(** The null interface is null, and only [ids] are connected. *)
Definition structure_ok s : Prop :=
  intf s 0 = Intf 0 None 0 0 /\ forall i, i ∉ ids -> dest (intf s i) = 0%nat.

(** No use after free and no double free. *)
Definition trace_ok s : Prop :=
  forall t r t', trace s = t ++ Freed r :: t' ->
    (Freed r ∉ t') /\ forall d rc, Closed d rc ∈ t' -> refcnt (intf s d) <> Some r.

Record inv (ext : nat -> nat) s : Prop := Inv {
  inv_structure : structure_ok s;
  inv_refs : refs_ok ext s;
  inv_trace : trace_ok s;
}.

Definition alive s (o : option nat) : Prop := forall r, o = Some r -> Freed r ∉ trace s.

Lemma alive_held ext o s : refs_ok (add_ref o ext) s -> alive s o.
Proof.
  intros Hs r -> Hf. destruct (Hs r) as [_ H]. specialize (H Hf). unfold add_ref in H. rewrite decide_True in H by done. lia.
Qed.

Lemma alive_dest ext i s : inv ext s -> alive s (refcnt (intf s (dest (intf s i)))).
Proof.
  intros [[H0 Hn] Hs _] r Hr Hf. destruct (decide (i ∈ ids)) as [Hi|Hi].
  - destruct (Hs r) as [_ H]. specialize (H Hf). unfold refs in H.
    assert (i ∈ filter (fun i => refcnt (intf s (dest (intf s i))) = Some r) ids) as Hin by by apply list_elem_of_filter.
    destruct (filter _ ids); [by apply elem_of_nil in Hin|simpl in H; lia].
  - rewrite (Hn _ Hi), H0 in Hr. done.
Qed.

(** What an event may be appended to the history. *)
Lemma trace_ok_snoc s s' e :
  trace_ok s -> (forall i, refcnt (intf s' i) = refcnt (intf s i)) -> trace s' = trace s ++ [e] ->
  match e with Freed r => Freed r ∉ trace s | Closed d _ => alive s (refcnt (intf s d)) end -> trace_ok s'.
Proof.
  intros Ht Hr He Hok t r t' Heq. rewrite He in Heq. destruct t' as [|e' t' _] using rev_ind.
  { split; [by intros ?%elem_of_nil|]. by intros ?? ?%elem_of_nil. }
  rewrite app_comm_cons, app_assoc in Heq. apply app_inj_tail in Heq as [Heq ->].
  destruct (Ht _ _ _ Heq) as [H1 H2]. assert (Freed r ∈ trace s) as Hin by (rewrite Heq; set_solver). split.
  - rewrite elem_of_app, list_elem_of_singleton. intros [?|<-]; done.
  - intros d rc. rewrite elem_of_app, list_elem_of_singleton, Hr. intros [?|<-]; [eauto|]. intros Hd. by apply (Hok r).
Qed.

Lemma trace_ok_ext s s' :
  trace_ok s -> (forall i, refcnt (intf s' i) = refcnt (intf s i)) -> trace s' = trace s -> trace_ok s'.
Proof. intros Ht Hr He t r t' Heq. rewrite He in Heq. destruct (Ht _ _ _ Heq) as [H1 H2]. split; [done|]. intros. rewrite Hr. eauto. Qed.

(** Taking a reference to an object that is alive, and dropping one. *)
Lemma ref_get_inv ext o s : inv ext s -> alive s o -> inv (add_ref o ext) (ref_get o s).
Proof.
  intros [H1 Hs Ht] Ha. destruct o as [r|].
  - split; [done| |by apply (trace_ok_ext s)]. intros x. destruct (Hs x) as [Hc Hf]. unfold add_ref.
    change (refs (ref_get (Some r) s) x) with (refs s x). cbn [ref_get set_count counts trace].
    destruct (decide (x = r)) as [->|Hne].
    + rewrite decide_True by done. split; [lia|]. intros H. by destruct (Ha r).
    + rewrite decide_False by congruence. rewrite Nat.add_0_r. done.
  - split; [done| |done]. intros x. unfold add_ref. rewrite decide_False, Nat.add_0_r by done. apply Hs.
Qed.

Lemma ref_put_cases o s :
  intf (ref_put o s) = intf s /\ world (ref_put o s) = world s /\
  (trace (ref_put o s) = trace s \/ exists r, o = Some r /\ counts s r = 0 /\ trace (ref_put o s) = trace s ++ [Freed r]) /\
  (forall r, counts (ref_put o s) r = counts s r - if decide (o = Some r) then 1 else 0).
Proof.
  destruct o as [r|]; cycle 1.
  { split_and!; [done..|by left|]. intros r. rewrite decide_False by done. simpl. lia. }
  unfold ref_put. cbv zeta. cbn [counts set_count]. rewrite (decide_True (P := r = r)) by done.
  assert (forall x, counts (set_count r (counts s r - 1) s) x = counts s x - if decide (Some r = Some x) then 1 else 0) as Hc.
  { intros x. cbn [counts set_count]. destruct (decide (x = r)) as [->|]; [by rewrite decide_True|].
    rewrite decide_False by congruence. lia. }
  repeat case_decide; split_and!; try done; try (by left). right. exists r. split_and!; [done|lia|done].
Qed.

Lemma ref_put_inv ext o s : inv (add_ref o ext) s -> inv ext (ref_put o s).
Proof.
  intros [H1 Hs Ht]. destruct (ref_put_cases o s) as (Hi & _ & Htr & Hc). split.
  - unfold structure_ok. by rewrite Hi.
  - intros x. destruct (Hs x) as [Hx Hf]. rewrite Hc, Hx.
    assert (refs (ref_put o s) x = refs s x) as -> by (unfold refs; by rewrite Hi).
    unfold add_ref in *. split; [case_decide; lia|]. destruct Htr as [->|(r & -> & H0 & ->)]; [intros H%Hf; lia|].
    rewrite elem_of_app, list_elem_of_singleton. intros [H%Hf|[= ->]]; [lia|]. rewrite decide_True in Hx by done. lia.
  - destruct Htr as [Htr|(r & -> & H0 & Htr)]; [apply (trace_ok_ext s); [done|by rewrite Hi|done]|].
    apply (trace_ok_snoc s _ (Freed r)); [done|by rewrite Hi|done|]. by apply (alive_held _ _ _ Hs).
Qed.

(** Moving a pointer moves a reference. *)
Lemma set_dest_inv ext i d s :
  NoDup ids -> (i ∈ ids /\ i <> 0%nat) \/ d = 0%nat ->
  inv (add_ref (refcnt (intf s d)) ext) s -> inv (add_ref (refcnt (intf s (dest (intf s i)))) ext) (set_dest i d s).
Proof.
  intros Hnd Hid [[H0 Hn] Hs Ht].
  assert (forall x, refcnt (intf (set_dest i d s) x) = refcnt (intf s x)) as Hr.
  { intros x. cbn [set_dest set_intf intf]. by case_decide; subst. }
  assert (forall x, dest (intf (set_dest i d s) x) = if decide (x = i) then d else dest (intf s x)) as Hd.
  { intros x. cbn [set_dest set_intf intf]. by case_decide. }
  split; [split| |by apply (trace_ok_ext s)].
  - cbn [set_dest set_intf intf]. case_decide as H; [|done]. subst i. rewrite H0. destruct Hid as [[]|Hid]; [done|by subst].
  - intros x Hx. rewrite Hd. case_decide; [|by apply Hn]. destruct Hid as [[]|Hid]; by subst.
  - intros x. destruct (Hs x) as [Hx Hf].
    assert (refs (set_dest i d s) x + add_ref (refcnt (intf s (dest (intf s i)))) ext x = refs s x + add_ref (refcnt (intf s d)) ext x)%nat
      as Ht'; [|rewrite Ht'; done].
    unfold add_ref. destruct (decide (i ∈ ids)) as [Hi|Hi].
    + unfold refs.
      pose proof (count_change (fun j => refcnt (intf (set_dest i d s) (dest (intf (set_dest i d s) j))) = Some x)
                    (fun j => refcnt (intf s (dest (intf s j))) = Some x) i ids Hnd Hi) as Hcc.
      ospecialize (Hcc _); [intros j Hj; by rewrite Hr, Hd, decide_False|].
      cbv beta in Hcc. rewrite Hr, Hd, (decide_True (P := i = i)) in Hcc by done. lia.
    + assert (d = 0%nat) as -> by (destruct Hid as [[]|]; done). rewrite (Hn i Hi). f_equal. unfold refs. f_equal.
      apply filter_agree. intros j Hj. rewrite Hr, Hd, decide_False; [done|]. by intros ->.
Qed.

Lemma intf_ref_get o s : intf (ref_get o s) = intf s.
Proof. by destruct o. Qed.

Lemma trace_ref_get o s : trace (ref_get o s) = trace s.
Proof. by destruct o. Qed.

Lemma set_dest_ref_put i d o s : set_dest i d (ref_put o s) = ref_put o (set_dest i d s).
Proof. destruct o as [r|]; [|done]. unfold ref_put. cbv zeta. by repeat case_decide. Qed.

Lemma set_desc_inv ext i d s : i <> 0%nat \/ d = 0%nat -> inv ext s -> inv ext (set_desc i d s).
Proof.
  intros Hid [[H0 Hn] Hs Ht].
  assert (forall x, refcnt (intf (set_desc i d s) x) = refcnt (intf s x)) as Hr.
  { intros x. cbn [set_desc set_intf intf]. by case_decide; subst. }
  assert (forall x, dest (intf (set_desc i d s) x) = dest (intf s x)) as Hd.
  { intros x. cbn [set_desc set_intf intf]. by case_decide; subst. }
  split; [split| |by apply (trace_ok_ext s)].
  - cbn [set_desc set_intf intf]. case_decide; [|done]. subst i. rewrite H0. destruct Hid; by subst.
  - intros x Hx. rewrite Hd. by apply Hn.
  - intros x. assert (refs (set_desc i d s) x = refs s x) as ->; [|apply Hs]. unfold refs. f_equal.
    apply filter_agree. intros j _. by rewrite Hr, Hd.
Qed.
End references.

(** ** What closing may do

    Connections only disappear, and every close method that is called is paid
    for by one of them. *)

Section closing.
Context {W : Type} (ids : list nat) (ids_nodup : NoDup ids).
Implicit Types s : state W.

Definition plugged s : nat := length (filter (fun i => dest (intf s i) <> 0%nat) ids).

Fixpoint closes (t : list event) : nat :=
  match t with
  | [] => 0
  | Closed _ _ :: t => S (closes t)
  | Freed _ :: t => closes t
  end.

Lemma closes_app t t' : closes (t ++ t') = (closes t + closes t')%nat.
Proof. induction t as [|[] t IH]; simpl; lia. Qed.

Definition shrinks s s' : Prop :=
  forall i, refcnt (intf s' i) = refcnt (intf s i) /\ original (intf s' i) = original (intf s i) /\
            (dest (intf s' i) = dest (intf s i) \/ dest (intf s' i) = 0%nat).

#[export] Instance shrinks_preorder : PreOrder shrinks.
Proof.
  split; [intros s i; auto|]. intros s1 s2 s3 H1 H2 i. destruct (H1 i) as (A1 & B1 & C1), (H2 i) as (A2 & B2 & C2).
  split_and!; [congruence..|]. destruct C2 as [->|]; auto.
Qed.

(** From [s] to [s'] with at most [k] calls that no connection paid for. *)
Record ran (k : nat) (ext : nat -> nat) s s' : Prop := Ran {
  ran_inv : inv ids ext s';
  ran_shrinks : shrinks s s';
  ran_calls : exists t, trace s' = trace s ++ t /\ (closes t + plugged s' <= plugged s + k)%nat;
}.

Lemma ran_refl ext s : inv ids ext s -> ran 0 ext s s.
Proof. intros. split; [done..|]. exists []. rewrite app_nil_r. split; [done|simpl; lia]. Qed.

Lemma ran_trans j k ext ext' s s1 s2 : ran j ext' s s1 -> ran k ext s1 s2 -> ran (j + k) ext s s2.
Proof.
  intros [_ S1 (t1 & E1 & C1)] [I2 S2 (t2 & E2 & C2)]. split; [done|by trans s1|].
  exists (t1 ++ t2). rewrite E2, E1, <- app_assoc, closes_app. split; [done|lia].
Qed.

Lemma plugged_shrinks s s' : shrinks s s' -> (plugged s' <= plugged s)%nat.
Proof.
  intros Hs. unfold plugged. clear ids_nodup. induction ids as [|i l IH]; [done|]. rewrite !filter_cons. destruct (Hs i) as (_ & _ & Hd).
  repeat case_decide; simpl; lia.
Qed.

Lemma ran_plugged k ext s s' : ran k ext s s' -> (plugged s' <= plugged s)%nat.
Proof. intros []. by apply plugged_shrinks. Qed.

Lemma ran_weaken j k ext s s' : (j <= k)%nat -> ran j ext s s' -> ran k ext s s'.
Proof. intros Hjk [I S (t & E & C)]. split; [done..|]. exists t. split; [done|lia]. Qed.

Lemma ran_add_0 k ext s s' : ran (k + 0) ext s s' -> ran k ext s s'.
Proof. by rewrite Nat.add_0_r. Qed.

(** A step that calls no method. *)
Lemma ran_quiet ext s s' :
  inv ids ext s' -> shrinks s s' -> (trace s' = trace s \/ exists r, trace s' = trace s ++ [Freed r]) -> ran 0 ext s s'.
Proof.
  intros Hi Hs Ht. split; [done..|]. pose proof (plugged_shrinks _ _ Hs).
  destruct Ht as [->|[r ->]]; [exists []; rewrite app_nil_r|exists [Freed r]]; (split; [done|simpl; lia]).
Qed.

Lemma ref_get_ran ext o s : inv ids ext s -> alive s o -> ran 0 (add_ref o ext) s (ref_get o s).
Proof. intros Hi Ha. apply ran_quiet; [by apply ref_get_inv|intros i; destruct o; simpl; auto|left; by destruct o]. Qed.

Lemma ref_put_ran ext o s : inv ids (add_ref o ext) s -> ran 0 ext s (ref_put o s).
Proof.
  intros Hi. destruct (ref_put_cases o s) as (Hp & _ & Ht & _). apply ran_quiet; [by apply ref_put_inv| |].
  - intros i. rewrite Hp. auto.
  - destruct Ht as [->|(r & -> & _ & ->)]; eauto.
Qed.

Lemma set_desc_ran ext i d s : i <> 0%nat \/ d = 0%nat -> inv ids ext s -> ran 0 ext s (set_desc i d s).
Proof.
  intros Hid Hi. apply ran_quiet; [by apply set_desc_inv| |by left]. intros x. cbn [set_desc set_intf intf].
  case_decide; subst; auto.
Qed.

(** Detaching an interface leaves the caller with its reference, and pays for a call. *)
Lemma detach_ran ext i s :
  inv ids ext s ->
  let s' := set_dest i 0 s in
  let d := dest (intf s i) in
  inv ids (add_ref (refcnt (intf s d)) ext) s' /\ shrinks s s' /\
  (plugged s' + (if decide (d = 0%nat) then 0 else 1) = plugged s)%nat.
Proof.
  intros Hi s' d. subst s' d. pose proof (inv_structure _ _ _ Hi) as [H0 Hn]. split_and!.
  - apply set_dest_inv; [done|by right|]. rewrite H0. simpl. destruct Hi as [A B C]. split; [done| |done].
    intros r. unfold add_ref. rewrite decide_False, Nat.add_0_r by done. apply B.
  - intros x. cbn [set_dest set_intf intf]. case_decide; subst; auto.
  - unfold plugged. destruct (decide (i ∈ ids)) as [Hin|Hin].
    + pose proof (count_change (fun j => dest (intf (set_dest i 0 s) j) <> 0%nat) (fun j => dest (intf s j) <> 0%nat) i ids ids_nodup Hin) as Hc.
      ospecialize (Hc _); [intros j Hj; cbn [set_dest set_intf intf]; by rewrite decide_False|].
      cbn [set_dest set_intf intf] in Hc |- *. rewrite (decide_True (P := i = i)) in Hc by done. cbn [dest] in Hc.
      repeat case_decide; try lia; tauto.
    + rewrite (Hn i Hin). simpl. rewrite Nat.add_0_r. f_equal. apply filter_agree. intros j Hj. cbn [set_dest set_intf intf].
      rewrite decide_False; [done|]. by intros ->.
Qed.
End closing.

(** ** Shutting down

    Chains of pass-through interfaces are finite: [rank] decreases along them,
    and [hops] is enough for the longest. *)

Section shutting_down.
Context {W : Type} (ids : list nat) (ids_nodup : NoDup ids).
Context (has_op : nat -> op_type -> bool) (passthru : nat -> option nat)
        (on_close : nat -> result unit -> W -> W * list action).
Context (hops : nat) (rank : nat -> nat) (rank_hops : forall d, (S (rank d) < hops)%nat).
Implicit Types s : state W.

Abbreviation act := (act has_op passthru on_close hops).
Abbreviation close_dest := (close_dest has_op passthru on_close hops).
Abbreviation shutdown := (shutdown has_op passthru on_close hops).

Definition ranked s : Prop :=
  forall d i, passthru d = Some i -> dest (intf s i) <> 0%nat -> (rank (dest (intf s i)) < rank d)%nat.

Lemma ranked_shrinks s s' : ranked s -> shrinks s s' -> ranked s'.
Proof. intros Hr Hs d i Hp Hd. destruct (Hs i) as (_ & _ & [He|He]); [|done]. rewrite He in *. by apply Hr. Qed.

(** The operation is for an interface whose object is alive, and the caller
    receives a reference to it. *)
Lemma get_dest_op_ok h ext d type s :
  inv ids ext s -> ranked s -> alive s (refcnt (intf s d)) -> (d = 0%nat /\ (0 < h)%nat) \/ (S (rank d) < h)%nat ->
  exists func d' s', intf_get_dest_op has_op passthru h d type s = Some (func, d', s') /\
    ran ids 0 (add_ref (refcnt (intf s d')) ext) s s' /\ intf s' = intf s /\ (d = 0%nat -> d' = 0%nat) /\
    func = provides has_op (desc (intf s d')) type.
Proof.
  revert d s. induction h as [|h IH]; intros d s Hi Hr Ha Hd; [lia|]. cbn [intf_get_dest_op intf_get_dest_op_no_passthru].
  unfold intf_get. set (o := refcnt (intf s d)). pose proof (ref_get_ran ids ext o s Hi Ha) as Hg.
  assert (intf (ref_get o s) = intf s) as Heq by apply intf_ref_get. unfold intf_get_passthru, intf_put. rewrite !Heq.
  destruct (provides has_op (desc (intf s d)) type) eqn:Hf; [by eauto 10|].
  destruct (decide (desc (intf s d) = 0%nat)); [by eauto 10|]. destruct (passthru d) as [i|] eqn:Hp; [|by eauto 10].
  assert (d <> 0%nat) as Hd0. { intros ->. destruct (inv_structure _ _ _ Hi) as [H0 _]. by rewrite H0 in *. }
  fold o. destruct (ref_put_cases o (ref_get o s)) as (Hpi & _). rewrite Hpi, Heq.
  pose proof (ran_trans _ _ _ _ _ _ _ _ Hg (ref_put_ran ids ext o _ (ran_inv _ _ _ _ _ Hg))) as Hs1. simpl in Hs1.
  set (s1 := ref_put o (ref_get o s)) in *. assert (intf s1 = intf s) as He1 by congruence.
  destruct (IH (dest (intf s i)) s1) as (func & d' & s' & Hop & Hrun & Hii & _ & Hfun).
  - apply Hs1.
  - by apply (ranked_shrinks s), Hs1.
  - rewrite He1, <- He1. apply (alive_dest ids ext), Hs1.
  - destruct (decide (dest (intf s i) = 0%nat)) as [->|Hne]; [left; split; [done|]|right; specialize (Hr d i Hp Hne)]; lia.
  - rewrite He1 in *. exists func, d', s'. split_and!; [done| |done|done|done]. by apply (ran_trans _ 0 0 _ _ _ _ _ Hs1).
Qed.

(** The actions that [f] performs are sound when fewer than [n] interfaces
    are connected. *)
Definition sound (n : nat) (f : action -> state W -> option (state W)) : Prop :=
  forall a ext s, inv ids ext s -> ranked s -> (plugged ids s < n)%nat -> exists s', f a s = Some s' /\ ran ids 0 ext s s'.

Lemma in_turn_ok n f acts ext s :
  sound n f -> inv ids ext s -> ranked s -> (plugged ids s < n)%nat -> exists s', in_turn f acts s = Some s' /\ ran ids 0 ext s s'.
Proof.
  intros Hf. revert s. induction acts as [|a acts IH]; intros s Hi Hr Hp; simpl; [by eauto using ran_refl|].
  destruct (Hf a ext s Hi Hr Hp) as (s1 & -> & H1). pose proof (ran_plugged ids _ _ _ _ H1).
  destruct (IH s1) as (s2 & -> & H2); [apply H1|by apply (ranked_shrinks s), H1|lia|].
  exists s2. split; [done|]. by apply (ran_trans _ 0 0 _ _ _ _ _ H1).
Qed.

Lemma call_close_ran ext d rc s acts s' :
  inv ids ext s -> alive s (refcnt (intf s d)) -> call_close on_close d rc s = (acts, s') ->
  ran ids (if decide (d = 0%nat) then 0 else 1) ext s s' /\ intf s' = intf s.
Proof.
  intros Hi Ha. unfold call_close. case_decide as Hd.
  { intros [= <- <-]. split; [|done]. apply (ran_weaken _ 0); [lia|]. by apply ran_refl. }
  rewrite decide_False. 2:{ intros ->. destruct (inv_structure _ _ _ Hi) as [H0 _]. by rewrite H0 in *. }
  destruct (on_close d rc (world s)) as [w l]. intros [= <- <-]. split; [|done]. split.
  - destruct Hi as [A B C]. split; [done| |by apply (trace_ok_snoc s _ (Closed d rc))].
    intros r. destruct (B r) as [B1 B2]. split; [done|]. cbn [trace]. rewrite elem_of_app, list_elem_of_singleton.
    intros [?|?]; [by apply B2|done].
  - intros i. auto.
  - exists [Closed d rc]. split; [done|]. simpl. unfold plugged. simpl. lia.
Qed.

Lemma close_dest_ok n f ext d rc s :
  sound n f -> inv ids ext s -> ranked s -> (plugged ids s < n)%nat -> alive s (refcnt (intf s d)) ->
  exists s', close_dest f d rc s = Some s' /\ ran ids (if decide (d = 0%nat) then 0 else 1) ext s s'.
Proof.
  intros Hf Hi Hr Hn Ha. unfold Interface.close_dest.
  destruct (get_dest_op_ok hops ext d INTF_CLOSE s Hi Hr Ha) as (func & d' & s1 & -> & H1 & He & H0 & _); [right; apply rank_hops|].
  assert (forall s2, ran ids (if decide (d = 0%nat) then 0 else 1) (add_ref (refcnt (intf s d')) ext) s1 s2 ->
    ran ids (if decide (d = 0%nat) then 0 else 1) ext s (intf_put d' s2)) as Hput.
  { intros s2 H2. unfold intf_put. destruct (ran_shrinks _ _ _ _ _ H2 d') as (-> & _). rewrite He.
    eapply ran_add_0, ran_trans; [exact (ran_trans _ 0 _ _ _ _ _ _ H1 H2)|].
    apply ref_put_ran, H2. }
  pose proof (ran_plugged ids _ _ _ _ H1) as Hp1. assert (ranked s1) as Hr1 by (by apply (ranked_shrinks s), H1).
  destruct func.
  - destruct (call_close on_close d' rc s1) as [acts s2] eqn:Hcc.
    apply (call_close_ran (add_ref (refcnt (intf s d')) ext)) in Hcc as [H2 He2]; cycle 1.
    + apply H1.
    + rewrite He. apply (alive_held ids ext), H1.
    + destruct (in_turn_ok n f acts (add_ref (refcnt (intf s d')) ext) s2) as (s3 & -> & H3); [done|apply H2|by apply (ranked_shrinks s1), H2| |].
      { pose proof (ran_plugged ids _ _ _ _ H2). lia. }
      eexists; split; [done|]. apply Hput. eapply ran_add_0, ran_trans; [|exact H3].
      eapply ran_weaken; [|exact H2]. destruct (decide (d = 0%nat)); [|case_decide; lia]. by rewrite H0.
  - destruct (Hf (Restart d' rc) (add_ref (refcnt (intf s d')) ext) s1) as (s3 & -> & H3); [apply H1|done|lia|].
    eexists; split; [done|]. apply Hput. eapply ran_weaken; [|exact H3]. lia.
Qed.

(** The null interface hears nothing. *)
Lemma close_dest_null f ext rc s : inv ids ext s -> close_dest f 0 rc s = Some s.
Proof.
  intros Hi. destruct (inv_structure _ _ _ Hi) as [H0 _]. unfold Interface.close_dest. pose proof (rank_hops 0).
  destruct hops as [|h]; [lia|]. cbn [intf_get_dest_op intf_get_dest_op_no_passthru]. unfold intf_get, call_close, intf_put.
  rewrite !H0. cbn [refcnt ref_get]. rewrite !H0. change (provides _ _ _) with true. cbv beta iota. rewrite !H0.
  simpl. by rewrite H0.
Qed.

Lemma shutdown_ok n f ext i rc s :
  sound n f -> inv ids ext s -> ranked s -> (plugged ids s < S n)%nat ->
  exists s', shutdown f i rc s = Some s' /\ ran ids 0 ext s s' /\ dest (intf s' i) = 0%nat.
Proof.
  intros Hf Hi Hr Hn. unfold Interface.shutdown, intf_nullify. cbv zeta.
  pose proof (set_desc_ran ids ext i 0 s (or_intror eq_refl) Hi) as H1. set (s1 := set_desc i 0 s) in *.
  destruct (detach_ran ids ids_nodup ext i s1 (ran_inv _ _ _ _ _ H1)) as (I2 & S2 & P2). set (d := dest (intf s1 i)) in *.
  pose proof (ran_plugged ids _ _ _ _ H1) as P1. set (s2 := set_dest i 0 s1) in *.
  assert (exists s3, close_dest f d rc s2 = Some s3 /\
    ran ids (if decide (d = 0%nat) then 0 else 1) (add_ref (refcnt (intf s1 d)) ext) s2 s3) as (s3 & -> & H3).
  { destruct (decide (d = 0%nat)) as [->|Hd].
    - exists s2. split; [by eapply close_dest_null|by apply ran_refl].
    - destruct (close_dest_ok n f (add_ref (refcnt (intf s1 d)) ext) d rc s2) as (s3 & Hc & H3); [done|done| |lia| |].
      + eapply ranked_shrinks; [|exact S2]. eapply ranked_shrinks; [exact Hr|apply H1].
      + destruct (S2 d) as (-> & _). eapply alive_held, I2.
      + rewrite decide_False in H3 by done. eauto. }
  assert (dest (intf s3 i) = 0%nat) as H0.
  { destruct (ran_shrinks _ _ _ _ _ H3 i) as (_ & _ & [->|]); [|done]. subst s2. cbn [set_dest set_intf intf]. by rewrite decide_True. }
  eexists. split; [reflexivity|]. unfold intf_put. destruct (ran_shrinks _ _ _ _ _ H3 d) as (-> & _). destruct (S2 d) as (-> & _).
  pose proof (ref_put_ran ids ext _ s3 (ran_inv _ _ _ _ _ H3)) as H4. split; [|by rewrite (proj1 (ref_put_cases _ _))].
  pose proof (ran_trans _ _ _ _ _ _ _ _ H3 H4) as [I4 S4 (t & Et & Ct)]. split; [done| |].
  - etrans; [|exact S4]. etrans; [|exact S2]. apply H1.
  - exists t. split; [exact Et|]. lia.
Qed.

Lemma act_ok n : sound n (act n).
Proof.
  induction n as [|n IH]; intros a ext s Hi Hr Hn; [lia|]. destruct a as [i rc|i rc|i|i]; cbn [Interface.act].
  - destruct (shutdown_ok n (act n) ext i rc s) as (s' & -> & H & _); eauto.
  - destruct (shutdown_ok n (act n) ext i rc s) as (s' & -> & H & _); [done..|]. eexists. split; [done|].
    eapply (ran_trans _ 0 0); [exact H|]. apply set_desc_ran; [|apply H].
    destruct (decide (i = 0%nat)) as [->|]; [right|by left]. destruct (inv_structure _ _ _ (ran_inv _ _ _ _ _ H)) as [-> _]. done.
  - eexists. split; [done|]. unfold intf_unplug, intf_put. cbv zeta. rewrite set_dest_ref_put.
    destruct (detach_ran ids ids_nodup ext i s Hi) as (I2 & S2 & P2). pose proof (ref_put_ran ids ext _ _ I2) as [I3 S3 (t & Et & Ct)].
    split; [done|by etrans|]. exists t. split; [exact Et|]. case_decide; lia.
  - eexists. split; [done|]. apply set_desc_ran; [by right|done].
Qed.

(** The first method that a shutdown calls is the destination's. *)
Lemma close_dest_first n f ext d rc s :
  sound n f -> inv ids ext s -> ranked s -> (plugged ids s < n)%nat -> alive s (refcnt (intf s d)) ->
  desc (intf s d) <> 0%nat -> has_op (desc (intf s d)) INTF_CLOSE = true ->
  exists s' t, close_dest f d rc s = Some s' /\ trace s' = trace s ++ Closed d rc :: t.
Proof.
  intros Hf Hi Hr Hn Ha Hd Hop. destruct (close_dest_ok n f ext d rc s Hf Hi Hr Hn Ha) as (s' & Hc & _).
  exists s'. rewrite Hc. revert Hc. unfold Interface.close_dest. pose proof (rank_hops 0).
  assert (provides has_op (desc (intf s d)) INTF_CLOSE = true) as Hpr by (unfold provides; by rewrite decide_False).
  assert (intf_get_dest_op has_op passthru hops d INTF_CLOSE s = Some (true, d, intf_get d s)) as ->.
  { destruct hops; [lia|]. cbn [intf_get_dest_op intf_get_dest_op_no_passthru].
    assert (intf (intf_get d s) = intf s) as -> by apply intf_ref_get. by rewrite Hpr. }
  unfold intf_get. pose proof (ref_get_ran ids ext _ s Hi Ha) as Hg. set (s1 := ref_get (refcnt (intf s d)) s) in *.
  assert (intf s1 = intf s) as He by apply intf_ref_get.
  assert (trace s1 = trace s) as Ht by apply trace_ref_get.
  destruct (call_close on_close d rc s1) as [acts s2] eqn:Hcc. pose proof Hcc as Hcr.
  apply (call_close_ran (add_ref (refcnt (intf s d)) ext)) in Hcr as [H2 He2]; [|apply Hg|rewrite He; eapply alive_held, Hg].
  destruct (in_turn_ok n f acts (add_ref (refcnt (intf s d)) ext) s2) as (s3 & -> & H3).
  { done. } { apply H2. } { eapply ranked_shrinks; [|apply H2]. eapply ranked_shrinks; [exact Hr|apply Hg]. }
  { pose proof (ran_plugged ids _ _ _ _ H2). pose proof (ran_plugged ids _ _ _ _ Hg). lia. }
  intros [= <-]. unfold call_close in Hcc. rewrite He, decide_False in Hcc by done.
  destruct (on_close d rc (world s1)) as [w l]. injection Hcc as <- <-.
  destruct (ran_calls _ _ _ _ _ H3) as (t & Et & _). cbn [trace] in Et. rewrite Ht in Et.
  destruct (ref_put_cases (refcnt (intf s3 d)) s3) as (_ & _ & Hput & _). unfold intf_put.
  destruct Hput as [->|(r & _ & _ & ->)]; rewrite Et, <- !app_assoc; simpl; eauto.
Qed.

Lemma shutdown_first n f ext i rc s :
  sound n f -> inv ids ext s -> ranked s -> (plugged ids s < S n)%nat ->
  let d := dest (intf s i) in
  d <> i -> desc (intf s d) <> 0%nat -> has_op (desc (intf s d)) INTF_CLOSE = true ->
  exists s' t, shutdown f i rc s = Some s' /\ trace s' = trace s ++ Closed d rc :: t.
Proof.
  intros Hf Hi Hr Hn d Hdi Hd Hop. unfold Interface.shutdown, intf_nullify. cbv zeta.
  pose proof (set_desc_ran ids ext i 0 s (or_intror eq_refl) Hi) as H1.
  assert (dest (intf (set_desc i 0 s) i) = d) as Hds by (cbn [set_desc set_intf intf]; by rewrite decide_True).
  pose proof (ran_plugged ids _ _ _ _ H1) as P1.
  destruct (detach_ran ids ids_nodup ext i (set_desc i 0 s) (ran_inv _ _ _ _ _ H1)) as (I2 & S2 & P2). rewrite Hds in *.
  set (s2 := set_dest i 0 (set_desc i 0 s)) in *.
  assert (desc (intf s2 d) = desc (intf s d)) as Hd2 by (cbn [s2 set_dest set_desc set_intf intf]; by rewrite !decide_False).
  destruct (close_dest_first n f (add_ref (refcnt (intf (set_desc i 0 s) d)) ext) d rc s2) as (s3 & t & -> & Et).
  { done. } { done. } { eapply ranked_shrinks; [|exact S2]. eapply ranked_shrinks; [exact Hr|apply H1]. }
  { rewrite decide_False in P2; [lia|]. intros H0. rewrite H0, (proj1 (inv_structure _ _ _ Hi)) in Hd. done. }
  { destruct (S2 d) as (-> & _). eapply alive_held, I2. } { by rewrite Hd2. } { by rewrite Hd2. }
  unfold intf_put. destruct (ref_put_cases (refcnt (intf s3 d)) s3) as (_ & _ & Hput & _).
  destruct Hput as [Hput|(r & _ & _ & Hput)]; eexists _, _; (split; [done|]); rewrite Hput, Et, <- ?app_assoc; simpl; done.
Qed.

(** C33: shutting an interface down always ends when the close methods of the
    objects connect no interfaces, whatever they change otherwise and whichever
    interfaces they shut down, restart, unplug or nullify, in whatever order:
    fuel for one nested call for each connected interface is enough.  Afterwards
    the interface is not connected; no more methods were called than connections disappeared; and when the destination has a
    close method, it was the first that was called. *)
Theorem intf_shutdown_terminates fuel ext i rc s :
  inv ids ext s -> ranked s -> (plugged ids s < fuel)%nat ->
  exists s' t, intf_shutdown has_op passthru on_close hops fuel i rc s = Some s' /\
    dest (intf s' i) = 0%nat /\ trace s' = trace s ++ t /\ (closes t + plugged ids s' <= plugged ids s)%nat /\
    (let d := dest (intf s i) in
     d <> i -> desc (intf s d) <> 0%nat -> has_op (desc (intf s d)) INTF_CLOSE = true -> head t = Some (Closed d rc)).
Proof.
  intros Hi Hr Hn. destruct fuel as [|n]; [lia|]. unfold intf_shutdown. cbn [Interface.act].
  destruct (shutdown_ok n (act n) ext i rc s (act_ok n) Hi Hr Hn) as (s' & Hs & H & Hd).
  destruct (ran_calls _ _ _ _ _ H) as (t & Et & Ct). exists s', t. split_and!; [done..|lia|]. cbv zeta. intros Hdi Hdd Hop.
  destruct (shutdown_first n (act n) ext i rc s (act_ok n) Hi Hr Hn Hdi Hdd Hop) as (s'' & t' & Hs' & Et').
  assert (s'' = s') as -> by congruence. rewrite Et in Et'. apply app_inv_head in Et'. by subst.
Qed.

Lemma nullify_all_ok ext l s :
  inv ids ext s -> ran ids 0 ext s (foldl (fun s i => intf_nullify i s) s l).
Proof.
  revert s. induction l as [|i l IH]; intros s Hi; simpl; [by apply ran_refl|].
  pose proof (set_desc_ran ids ext i 0 s (or_intror eq_refl) Hi) as H1. eapply (ran_trans _ 0 0); [exact H1|]. apply IH, H1.
Qed.

Lemma shutdowns_ok n l ext rc s :
  inv ids ext s -> ranked s -> (plugged ids s < n)%nat ->
  exists s', in_turn (act n) (map (fun i => Shutdown i rc) l) s = Some s' /\ ran ids 0 ext s s' /\
    forall i, i ∈ l -> dest (intf s' i) = 0%nat.
Proof.
  revert s. induction l as [|i l IH]; intros s Hi Hr Hn; simpl.
  { exists s. split_and!; [done|by apply ran_refl|]. by intros i ?%elem_of_nil. }
  destruct n as [|n]; [lia|]. destruct (shutdown_ok n (act n) ext i rc s (act_ok n) Hi Hr Hn) as (s1 & Hs & H1 & Hd).
  change (act (S n) (Shutdown i rc) s) with (shutdown (act n) i rc s). rewrite Hs. pose proof (ran_plugged ids _ _ _ _ H1).
  destruct (IH s1) as (s2 & -> & H2 & Hl); [apply H1|eapply ranked_shrinks; [exact Hr|apply H1]|lia|].
  exists s2. split_and!; [done|by apply (ran_trans _ 0 0 _ _ _ _ _ H1)|]. intros j [->|Hj]%elem_of_cons; [|by apply Hl].
  destruct (ran_shrinks _ _ _ _ _ H2 i) as (_ & _ & [->|]); done.
Qed.

Lemma intfs_shutdown_ok fuel ext l rc s :
  inv ids ext s -> ranked s -> (plugged ids s < fuel)%nat ->
  exists s', intfs_shutdown has_op passthru on_close hops fuel l rc s = Some s' /\ ran ids 0 ext s s' /\
    forall i, i ∈ l -> dest (intf s' i) = 0%nat.
Proof.
  intros Hi Hr Hn. unfold intfs_shutdown. cbv zeta. pose proof (nullify_all_ok ext l s Hi) as H1.
  set (s1 := foldl _ s l) in *. pose proof (ran_plugged ids _ _ _ _ H1).
  destruct (shutdowns_ok fuel l ext rc s1) as (s2 & -> & H2 & Hl); [apply H1|eapply ranked_shrinks; [exact Hr|apply H1]|lia|].
  exists s2. split_and!; [done|by apply (ran_trans _ 0 0 _ _ _ _ _ H1)|done].
Qed.

(** C34: when an object shuts its interfaces down, all of them end up
    unconnected and all reference counts are still exact: one less than the
    number of interfaces that point to the object and of references held
    elsewhere.  No interface points to a freed object, no object was freed
    twice, and no method of an object was called after it was freed. *)
Theorem intfs_shutdown_safe fuel ext l rc s :
  inv ids ext s -> ranked s -> (plugged ids s < fuel)%nat ->
  exists s', intfs_shutdown has_op passthru on_close hops fuel l rc s = Some s' /\
    (forall i, i ∈ l -> dest (intf s' i) = 0%nat) /\
    (forall r, counts s' r = Z.of_nat (refs ids s' r + ext r) - 1) /\
    (forall i r, refcnt (intf s' (dest (intf s' i))) = Some r -> Freed r ∉ trace s') /\
    (forall t r t', trace s' = t ++ Freed r :: t' ->
       (Freed r ∉ t') /\ forall d rc, Closed d rc ∈ t' -> refcnt (intf s' d) <> Some r).
Proof.
  intros Hi Hr Hn. destruct (intfs_shutdown_ok fuel ext l rc s Hi Hr Hn) as (s' & -> & H & Hl). exists s'.
  destruct (ran_inv _ _ _ _ _ H) as [A B C] eqn:HI. clear HI. split_and!; [done|done|apply B| |done].
  intros i r Hir. by apply (alive_dest ids ext i s' (ran_inv _ _ _ _ _ H)).
Qed.

(** Restarted interfaces are unconnected and receive operations again. *)
Theorem intfs_restart_ready fuel ext l rc s :
  inv ids ext s -> ranked s -> (plugged ids s < fuel)%nat ->
  exists s', intfs_restart has_op passthru on_close hops fuel l rc s = Some s' /\ inv ids ext s' /\
    forall i, i ∈ l -> dest (intf s' i) = 0%nat /\ desc (intf s' i) = original (intf s i).
Proof.
  intros Hi Hr Hn. unfold intfs_restart. destruct (intfs_shutdown_ok fuel ext l rc s Hi Hr Hn) as (s1 & -> & H1 & Hl).
  eexists. split; [done|].
  assert (forall k s2, inv ids ext s2 -> inv ids ext (foldl (fun s i => intf_reinit i s) s2 k) /\
    forall i, dest (intf (foldl (fun s i => intf_reinit i s) s2 k) i) = dest (intf s2 i) /\
      (i ∈ k \/ desc (intf s2 i) = original (intf s2 i) ->
       desc (intf (foldl (fun s i => intf_reinit i s) s2 k) i) = original (intf s2 i))) as Hf.
  { induction k as [|j k IH]; intros s2 H2; simpl.
    { split; [done|]. intros i. split; [done|]. by intros [?%elem_of_nil|?]. }
    destruct (IH (intf_reinit j s2)) as [H3 H4].
    { apply set_desc_inv; [|done]. destruct (decide (j = 0%nat)) as [->|]; [right|by left].
      by rewrite (proj1 (inv_structure _ _ _ H2)). }
    split; [done|]. intros i. destruct (H4 i) as [-> H5]. revert H5. cbn [intf_reinit set_desc set_intf intf].
    destruct (decide (i = j)) as [->|Hne]; intros H5; (split; [done|]); intros Hin; apply H5; [by right|].
    destruct Hin as [[?|?]%elem_of_cons|?]; auto. done. }
  destruct (Hf l s1 (ran_inv _ _ _ _ _ H1)) as [H2 H3]. split; [done|]. intros i Hin. destruct (H3 i) as [-> H4].
  rewrite H4 by auto. split; [by apply Hl|]. apply (ran_shrinks _ _ _ _ _ H1 i).
Qed.

(** Closing without shutting down, and poking. *)
Lemma intf_close_ok fuel ext i rc s :
  inv ids ext s -> ranked s -> (plugged ids s < fuel)%nat ->
  exists s', intf_close has_op passthru on_close hops fuel i rc s = Some s' /\
    ran ids (if decide (dest (intf s i) = 0%nat) then 0 else 1) ext s s'.
Proof. intros Hi Hr Hn. eapply close_dest_ok; [apply act_ok|done..|]. by eapply alive_dest. Qed.

Lemma intf_poke_ok ext i k poked s :
  inv ids ext s -> ranked s ->
  exists s', intf_poke has_op passthru hops i k poked s = Some s' /\ ran ids 0 ext s s'.
Proof.
  intros Hi Hr. unfold intf_poke.
  destruct (get_dest_op_ok hops ext (dest (intf s i)) (INTF_OTHER k) s Hi Hr) as (func & d' & s1 & -> & H1 & He & _).
  { by eapply alive_dest. } { right. apply rank_hops. }
  eexists. split; [done|]. set (s2 := if func then _ else s1). assert (intf s2 = intf s) as He2 by (unfold s2; by destruct func).
  eapply (ran_trans _ 0 0); [exact H1|]. eapply (ran_trans _ 0 0 _ (add_ref (refcnt (intf s d')) ext) _ s2).
  - apply ran_quiet; [|intros x; rewrite He2, He; auto|left; unfold s2; by destruct func].
    destruct H1 as [[A B C] _ _]. unfold s2. by destruct func.
  - unfold intf_put. rewrite He2. apply ref_put_ran. destruct H1 as [[A B C] _ _]. unfold s2. by destruct func.
Qed.
End shutting_down.

(** ** Interfaces that are being shut down *)

Section blocking.
Context {W : Type} (l : list nat).
Context (has_op : nat -> op_type -> bool) (passthru : nat -> option nat)
        (on_close : nat -> result unit -> W -> W * list action) (hops : nat).
Implicit Types s : state W.

(** The actions that unblock none of the interfaces. *)
Definition allowed (a : action) : Prop := match a with Restart i _ => i ∉ l | _ => True end.

Definition blocked s : Prop := forall i, i ∈ l -> desc (intf s i) = 0%nat.

(** Nothing is heard by the interfaces. *)
Definition hushed s s' : Prop :=
  blocked s' /\ exists t, trace s' = trace s ++ t /\ forall d rc, Closed d rc ∈ t -> d ∉ l.

Lemma hushed_refl s : blocked s -> hushed s s.
Proof. intros. split; [done|]. exists []. rewrite app_nil_r. split; [done|]. by intros ?? ?%elem_of_nil. Qed.

Lemma hushed_trans s1 s2 s3 : hushed s1 s2 -> hushed s2 s3 -> hushed s1 s3.
Proof.
  intros [_ (t & E & H)] [B (t' & E' & H')]. split; [done|]. exists (t ++ t'). rewrite E', E, <- app_assoc. split; [done|].
  intros d rc [?|?]%elem_of_app; eauto.
Qed.

Lemma hushed_put o s : blocked s -> hushed s (ref_put o s).
Proof.
  intros Hb. destruct (ref_put_cases o s) as (Hi & _ & Ht & _). split; [intros i Hl; rewrite Hi; by apply Hb|].
  destruct Ht as [->|(r & _ & _ & ->)]; [exists []; rewrite app_nil_r|exists [Freed r]]; (split; [done|]).
  - by intros ?? ?%elem_of_nil.
  - by intros ?? ?%list_elem_of_singleton.
Qed.

(** A step that changes descriptors only to the null one, or outside [l]. *)
Lemma hushed_intf s s' : trace s' = trace s -> blocked s' -> hushed s s'.
Proof. intros Ht Hb. split; [done|]. exists []. rewrite app_nil_r. split; [done|]. by intros ?? ?%elem_of_nil. Qed.

Lemma blocked_set_dest i d s : blocked s -> blocked (set_dest i d s).
Proof. intros Hb x Hx. cbn [set_dest set_intf intf]. case_decide; [subst|]; by apply Hb. Qed.

Lemma blocked_set_desc i d s : i ∉ l \/ d = 0%nat -> blocked s -> blocked (set_desc i d s).
Proof. intros Hi Hb x Hx. cbn [set_desc set_intf intf]. case_decide; [subst; by destruct Hi|by apply Hb]. Qed.

Lemma get_dest_op_hushed h d type s func d' s' :
  blocked s -> intf_get_dest_op has_op passthru h d type s = Some (func, d', s') ->
  hushed s s' /\ func = provides has_op (desc (intf s' d')) type.
Proof.
  revert d s. induction h as [|h IH]; intros d s Hb; [done|]. cbn [intf_get_dest_op intf_get_dest_op_no_passthru].
  unfold intf_get. set (s1 := ref_get _ s). assert (intf s1 = intf s) as He by apply intf_ref_get.
  assert (hushed s s1) as H1. { apply hushed_intf; [apply trace_ref_get|]. intros i. rewrite He. apply Hb. }
  destruct (provides has_op (desc (intf s1 d)) type) eqn:Hp; [by intros [= <- <- <-]|].
  destruct (intf_get_passthru passthru d s1) as [i|]; [|by intros [= <- <- <-]].
  pose proof (hushed_put (refcnt (intf s1 d)) s1 (proj1 H1)) as H2. intros Hop. apply IH in Hop as [H3 ?]; [|apply H2].
  split; [|done]. eapply hushed_trans; [exact H1|]. by eapply hushed_trans.
Qed.

Definition quiet (f : action -> state W -> option (state W)) : Prop :=
  forall a s s', allowed a -> blocked s -> f a s = Some s' -> hushed s s'.

Lemma in_turn_hushed f acts s s' :
  quiet f -> Forall allowed acts -> blocked s -> in_turn f acts s = Some s' -> hushed s s'.
Proof.
  intros Hf Ha. revert s. induction Ha as [|a acts Ha _ IH]; intros s Hb; simpl; [intros [= <-]; by apply hushed_refl|].
  destruct (f a s) as [s1|] eqn:Hs; [|done]. pose proof (Hf a s s1 Ha Hb Hs) as H1. intros H2%IH; [|apply H1]. by eapply hushed_trans.
Qed.

Context (methods : forall d rc w, Forall allowed (on_close d rc w).2).

Lemma close_dest_hushed f d rc s s' :
  quiet f -> blocked s -> close_dest has_op passthru on_close hops f d rc s = Some s' -> hushed s s'.
Proof.
  intros Hf Hb. unfold close_dest. destruct (intf_get_dest_op _ _ _ _ _ _) as [[[func d'] s1]|] eqn:Hop; [|done].
  apply get_dest_op_hushed in Hop as [H1 ->]; [|done]. pose proof (proj1 H1) as Hb1. intros Hc.
  assert (exists s2, hushed s1 s2 /\ s' = intf_put d' s2) as (s2 & H2 & ->).
  - destruct (provides _ _ _) eqn:Hp.
    + unfold call_close in Hc. destruct (decide (desc (intf s1 d') = 0%nat)) as [H0|H0].
      * injection Hc as <-. exists s1. split; [by apply hushed_refl|done].
      * specialize (methods d' rc (world s1)). destruct (on_close d' rc (world s1)) as [w acts]. simpl in methods.
        destruct (in_turn f acts _) as [s2|] eqn:Hturn; [|done]. injection Hc as <-. exists s2. split; [|done].
        apply in_turn_hushed in Hturn; [|done..]. eapply hushed_trans; [|exact Hturn]. split; [done|].
        exists [Closed d' rc]. split; [done|]. intros d'' rc' [= -> ->]%list_elem_of_singleton Hin. by apply H0, Hb1.
    + destruct (f (Restart d' rc) s1) as [s2|] eqn:Hr; [|done]. injection Hc as <-. exists s2. split; [|done].
      apply Hf in Hr; [done| |done]. intros Hin. by rewrite (Hb1 d' Hin) in Hp.
  - eapply hushed_trans; [exact H1|]. eapply hushed_trans; [exact H2|]. apply hushed_put, H2.
Qed.

Lemma shutdown_hushed f i rc s s' :
  quiet f -> blocked s -> shutdown has_op passthru on_close hops f i rc s = Some s' -> hushed s s'.
Proof.
  intros Hf Hb. unfold shutdown, intf_nullify. cbv zeta. destruct (close_dest _ _ _ _ _ _ _ _) as [s2|] eqn:Hc; [|done].
  intros [= <-]. assert (blocked (set_dest i 0 (set_desc i 0 s))) as Hb' by (apply blocked_set_dest, blocked_set_desc; auto).
  apply close_dest_hushed in Hc; [|done..]. eapply hushed_trans; [by apply hushed_intf, Hb'|].
  eapply hushed_trans; [exact Hc|]. apply hushed_put, Hc.
Qed.

Lemma act_hushed fuel : quiet (act has_op passthru on_close hops fuel).
Proof.
  induction fuel as [|n IH]; intros a s s' Ha Hb; [done|]. destruct a as [i rc|i rc|i|i]; cbn [act].
  - by apply shutdown_hushed.
  - destruct (shutdown _ _ _ _ _ _ _ _) as [s1|] eqn:Hs; [|done]. apply shutdown_hushed in Hs; [|done..]. intros [= <-].
    eapply hushed_trans; [exact Hs|]. apply hushed_intf; [done|]. apply blocked_set_desc; [by left|apply Hs].
  - intros [= <-]. unfold intf_unplug, intf_put. eapply hushed_trans; [by apply hushed_put|].
    apply hushed_intf; [done|]. apply blocked_set_dest. by apply hushed_put.
  - intros [= <-]. apply hushed_intf; [done|]. apply blocked_set_desc; auto.
Qed.

Lemma nullify_all_blocked s :
  blocked (foldl (fun s i => intf_nullify i s) s l) /\ trace (foldl (fun s i => intf_nullify i s) s l) = trace s.
Proof.
  enough (forall k s, (forall i, i ∈ l -> i ∈ k \/ desc (intf s i) = 0%nat) ->
    blocked (foldl (fun s i => intf_nullify i s) s k) /\ trace (foldl (fun s i => intf_nullify i s) s k) = trace s) as H
    by (apply H; auto).
  induction k as [|j k IH]; intros s' Hk; simpl.
  - split; [|done]. intros i Hi. destruct (Hk i Hi) as [?%elem_of_nil|]; done.
  - destruct (IH (intf_nullify j s')) as [H1 H2]; [|by rewrite H2]. intros i Hi. cbn [intf_nullify set_desc set_intf intf].
    case_decide; [by right|]. destruct (Hk i Hi) as [[?|?]%elem_of_cons|]; auto. done.
Qed.

Lemma intfs_shutdown_hushed fuel rc s s' :
  intfs_shutdown has_op passthru on_close hops fuel l rc s = Some s' ->
  exists t, trace s' = trace s ++ t /\ forall d rc, Closed d rc ∈ t -> d ∉ l.
Proof.
  unfold intfs_shutdown. cbv zeta. destruct (nullify_all_blocked s) as [Hb Ht]. intros Hs.
  apply in_turn_hushed in Hs as [_ Hs]; [by rewrite Ht in Hs|apply act_hushed| |done].
  apply Forall_fmap, Forall_forall. by intros.
Qed.
End blocking.

(** ** The theorems on several interfaces *)

Lemma intf_plug_ok {W} (ids : list nat) ext i d (s : state W) :
  NoDup ids -> i ∈ ids -> i <> 0%nat -> inv ids ext s -> alive s (refcnt (intf s d)) -> inv ids ext (intf_plug i d s).
Proof.
  intros Hnd Hi Hi0 Hs Ha. unfold intf_plug, intf_get, intf_put. cbv zeta. rewrite set_dest_ref_put.
  apply ref_put_inv, set_dest_inv; [done|by left|].
  rewrite intf_ref_get. by apply ref_get_inv.
Qed.

(** Plugging two interfaces of objects that are alive into each other
    leaves every reference count exact, whatever they were plugged into, and
    each becomes the destination of the other. *)
Theorem intf_plug_plug_exact {W} (ids : list nat) ext a b (s : state W) :
  NoDup ids -> a ∈ ids -> b ∈ ids -> a <> 0%nat -> b <> 0%nat -> a <> b ->
  (forall r, refcnt (intf s a) = Some r -> (0 < ext r)%nat) -> (forall r, refcnt (intf s b) = Some r -> (0 < ext r)%nat) ->
  inv ids ext s ->
  let s' := intf_plug_plug a b s in
  inv ids ext s' /\ dest (intf s' a) = b /\ dest (intf s' b) = a.
Proof.
  intros Hnd Ha Hb Ha0 Hb0 Hab Hra Hrb Hs s'. subst s'.
  assert (forall (s1 : state W) i, inv ids ext s1 -> (forall r, refcnt (intf s1 i) = Some r -> (0 < ext r)%nat) ->
    alive s1 (refcnt (intf s1 i))) as Hal.
  { intros s1 i H1 Hr r Hir Hf. destruct (inv_refs _ _ _ H1 r) as [_ H]. specialize (H Hf). specialize (Hr r Hir). lia. }
  assert (forall i d (s1 : state W) x, refcnt (intf (intf_plug i d s1) x) = refcnt (intf s1 x) /\
    dest (intf (intf_plug i d s1) x) = if decide (x = i) then d else dest (intf s1 x)) as Hp.
  { intros i d s1 x. unfold intf_plug, intf_get, intf_put. cbv zeta. rewrite set_dest_ref_put.
    rewrite (proj1 (ref_put_cases _ _)). cbn [set_dest set_intf intf]. rewrite intf_ref_get. case_decide; by subst. }
  unfold intf_plug_plug. split_and!.
  - apply intf_plug_ok; [done..| |].
    + apply intf_plug_ok; auto.
    + apply Hal; [apply intf_plug_ok; auto|]. intros r. destruct (Hp a b s a) as [-> _]. apply Hra.
  - destruct (Hp b a (intf_plug a b s) a) as [_ ->]. rewrite decide_False by done. destruct (Hp a b s a) as [_ ->]. by rewrite decide_True.
  - destruct (Hp b a (intf_plug a b s) b) as [_ ->]. by rewrite decide_True.
Qed.

(** While several interfaces are shut down together, none of them
    receives a close, as long as the methods restart none of them: the
    objects at the other ends cannot call back into the object that is
    closing. *)
Theorem intfs_shutdown_blocks {W} ids has_op passthru (on_close : nat -> result unit -> W -> W * list action)
    hops rank fuel ext l rc (s : state W) :
  NoDup ids -> (forall d, (S (rank d) < hops)%nat) -> ranked passthru rank s -> inv ids ext s -> (plugged ids s < fuel)%nat ->
  (forall d rc rc' w i, i ∈ l -> Restart i rc' ∉ (on_close d rc w).2) ->
  exists s' t, intfs_shutdown has_op passthru on_close hops fuel l rc s = Some s' /\
    trace s' = trace s ++ t /\ forall d rc', Closed d rc' ∈ t -> d ∉ l.
Proof.
  intros Hnd Hh Hr Hi Hn Hm.
  destruct (intfs_shutdown_ok ids Hnd has_op passthru on_close hops rank Hh fuel ext l rc s Hi Hr Hn) as (s' & Hs & _).
  destruct (intfs_shutdown_hushed l has_op passthru on_close hops) with (fuel := fuel) (rc := rc) (s := s) (s' := s') as (t & Et & Ht); eauto.
  intros d rc' w. apply Forall_forall. intros [| i rc''| |] Ha; simpl; [done| |done..]. intros Hin. by apply (Hm d rc' rc'' w i).
Qed.

(** ** An example

    A source (object 10, interface 1), a filter (object 20, interfaces 2 and
    3) and a sink (object 30, interface 4), as in a download.  The close
    methods do what those of the firmware do: they shut down all interfaces
    of the object.  Nobody else holds a reference. *)

Definition chain_state : state unit :=
  State (fun i => match i with
         | 1 => Intf 2 (Some 10) 1 1
         | 2 => Intf 1 (Some 20) 2 2
         | 3 => Intf 4 (Some 20) 3 3
         | 4 => Intf 3 (Some 30) 4 4
         | _ => Intf 0 None 0 0
         end%nat)
        (fun r => match r with 20%nat => 1 | 10%nat | 30%nat => 0 | _ => -1 end) [] tt.

Definition chain_close (d : nat) (rc : result unit) (w : unit) : unit * list action :=
  (w, match d with
      | 1 | 4 => [Shutdown d rc]
      | _ => [Nullify 2; Nullify 3; Shutdown 2 rc; Shutdown 3 rc]
      end%nat).

Definition chain_ids : list nat := [1; 2; 3; 4]%nat.

Lemma chain_nodup : NoDup chain_ids.
Proof. apply (bool_decide_unpack _). vm_compute. exact I. Qed.

Lemma chain_inv : inv chain_ids (fun _ => 0%nat) chain_state.
Proof.
  split.
  - split; [done|]. intros i Hi. do 5 (destruct i as [|i]; [done || (exfalso; apply Hi; set_solver)|]). done.
  - intros r. split; [|by intros ?%elem_of_nil]. unfold refs, chain_ids. rewrite !filter_cons. cbn [chain_state intf dest refcnt counts].
    do 31 (destruct r as [|r]; [reflexivity|]). rewrite filter_nil, !decide_False by congruence. done.
  - intros t r t' Ht. by destruct t.
Qed.

Lemma chain_ranked : ranked (fun _ => None) (fun _ => 0%nat) chain_state.
Proof. intros d i H. discriminate H. Qed.

Lemma intf_shutdown_terminates_witness :
  exists s' t, intf_shutdown (fun _ _ => true) (fun _ => None) chain_close 2 5 1 (Ok tt) chain_state = Some s' /\
    dest (intf s' 1) = 0%nat /\ trace s' = trace chain_state ++ t /\
    (closes t + plugged chain_ids s' <= plugged chain_ids chain_state)%nat /\ head t = Some (Closed 2 (Ok tt)).
Proof.
  destruct (intf_shutdown_terminates chain_ids chain_nodup (fun _ _ => true) (fun _ => None) chain_close 2 (fun _ => 0%nat)
    (fun _ => le_n 2) 5 (fun _ => 0%nat) 1 (Ok tt) chain_state chain_inv chain_ranked) as (s' & t & H1 & H2 & H3 & H4 & H5).
  { apply Nat.ltb_lt. vm_compute. reflexivity. }
  exists s', t. do 4 (split; [done|]). apply H5; done.
Defined.

(** Closing the source closes the filter and then the sink, and frees all. *)
Example chain_trace :
  option_map (fun s => trace s) (intf_shutdown (fun _ _ => true) (fun _ => None) chain_close 2 5 1 (Ok tt) chain_state) =
  Some [Closed 2 (Ok tt); Freed 10; Closed 4 (Ok tt); Freed 30; Freed 20].
Proof. vm_compute. reflexivity. Qed.

Lemma chain_plugged : (plugged chain_ids chain_state < 5)%nat.
Proof. apply Nat.ltb_lt. vm_compute. reflexivity. Qed.

Lemma intfs_shutdown_safe_witness :
  exists s', intfs_shutdown (fun _ _ => true) (fun _ => None) chain_close 2 5 [2; 3]%nat (Ok tt) chain_state = Some s' /\
    (forall i, i ∈ [2; 3]%nat -> dest (intf s' i) = 0%nat) /\ (forall r, counts s' r = Z.of_nat (refs chain_ids s' r + 0) - 1).
Proof.
  destruct (intfs_shutdown_safe chain_ids chain_nodup (fun _ _ => true) (fun _ => None) chain_close 2 (fun _ => 0%nat)
    (fun _ => le_n 2) 5 (fun _ => 0%nat) [2; 3]%nat (Ok tt) chain_state chain_inv chain_ranked chain_plugged) as (s' & H1 & H2 & H3 & _).
  exists s'. exact (conj H1 (conj H2 H3)).
Defined.

(** When the filter closes, it hears of neither end. *)
Lemma intfs_shutdown_blocks_witness :
  exists s' t, intfs_shutdown (fun _ _ => true) (fun _ => None) chain_close 2 5 [2; 3]%nat (Ok tt) chain_state = Some s' /\
    trace s' = trace chain_state ++ t /\ forall d rc', Closed d rc' ∈ t -> d ∉ [2; 3]%nat.
Proof.
  apply (intfs_shutdown_blocks chain_ids (fun _ _ => true) (fun _ => None) chain_close 2 (fun _ => 0%nat) 5 (fun _ => 0%nat)
    [2; 3]%nat (Ok tt) chain_state chain_nodup (fun _ => le_n 2) chain_ranked chain_inv chain_plugged).
  intros d rc rc' w i _. unfold chain_close. cbn [snd]. destruct d as [|[|[|[|[|d]]]]]; set_solver.
Defined.

(** Two interfaces, each in an object that its owner holds. *)
Definition pair_state : state unit :=
  State (fun i => match i with 1 => Intf 0 (Some 1) 1 1 | 2 => Intf 0 (Some 2) 2 2 | _ => Intf 0 None 0 0 end%nat)
        (fun _ => 0) [] tt.

Lemma intf_plug_plug_exact_witness :
  let s' := intf_plug_plug 1 2 pair_state in
  inv [1; 2]%nat (fun _ => 1%nat) s' /\ dest (intf s' 1) = 2%nat /\ dest (intf s' 2) = 1%nat.
Proof.
  apply (intf_plug_plug_exact [1; 2]%nat (fun _ => 1%nat) 1 2 pair_state); try done; try (intros; lia).
  - apply (bool_decide_unpack _). vm_compute. exact I.
  - set_solver.
  - set_solver.
  - split; [split; [done|]| |].
    + intros i Hi. do 3 (destruct i as [|i]; [done|]). done.
    + intros r. split; [|by intros ?%elem_of_nil]. unfold refs. rewrite !filter_cons. simpl. reflexivity.
    + intros t r t' Ht. by destruct t.
Defined.
