(* ===== verification/Fragment.v ===== *)
(** * Fragment reassembly (net/fragment.c)

    A reassembler keeps a list of partly reassembled packets.  The network
    protocol supplies three functions on fragments; they are the class
    [FragmentOps].  A packet is the list of its bytes, of which the first
    [hdrlen] are the part that is not fragmented; headroom in front of it is
    not modelled.  Memory may be exhausted: [new_ok] and [extend_ok] say
    whether the allocations of a reassembly buffer and of its I/O buffer
    succeed. *)

From S2P Require Import Prelude Retry.

Class FragmentOps := {
  is_fragment : list Z -> list Z -> Z -> bool;
  fragment_offset : list Z -> Z -> Z;
  more_fragments : list Z -> Z -> bool;
}.

Definition FRAGMENT_TIMEOUT : Z := TICKS_PER_SEC / 2.

Record fragment := Fragment {
  fr_iobuf : list Z;
  fr_hdrlen : Z;
  fr_timer : retry_timer;
}.

Record fragment_reassembler := Reassembler {
  fr_list : list fragment;
  reasm_reqds : Z;
  reasm_oks : Z;
  reasm_fails : Z;
}.

Section reassembly.
Context `{ops : FragmentOps}.

Fixpoint fragment_find (l : list fragment) (iobuf : list Z) (hdrlen : Z) : option (nat * fragment) :=
  match l with
  | [] => None
  | f :: l => if is_fragment (fr_iobuf f) iobuf hdrlen then Some (O, f)
              else prod_map S id <$> fragment_find l iobuf hdrlen
  end.

Definition set_list (l : list fragment) (r : fragment_reassembler) : fragment_reassembler :=
  Reassembler l (reasm_reqds r) (reasm_oks r) (reasm_fails r).

Definition count_reqd (r : fragment_reassembler) : fragment_reassembler :=
  Reassembler (fr_list r) (u64 (reasm_reqds r + 1)) (reasm_oks r) (reasm_fails r).
Definition count_ok (r : fragment_reassembler) : fragment_reassembler :=
  Reassembler (fr_list r) (reasm_reqds r) (u64 (reasm_oks r + 1)) (reasm_fails r).
Definition count_fail (r : fragment_reassembler) : fragment_reassembler :=
  Reassembler (fr_list r) (reasm_reqds r) (reasm_oks r) (u64 (reasm_fails r + 1)).

Definition fragment_expired (i : nat) (r : fragment_reassembler) : fragment_reassembler :=
  count_fail (set_list (delete i (fr_list r)) r).

Definition fragment_reassemble (now : Z) (new_ok extend_ok : bool) (iobuf : list Z) (hdrlen : Z) (r : fragment_reassembler) :
    option (list Z * Z) * fragment_reassembler :=
  let r := count_reqd r in
  let found := fragment_find (fr_list r) iobuf hdrlen in
  let offset := fragment_offset iobuf hdrlen in
  let expected_offset := match found with
                         | Some (_, f) => u64 (Z.of_nat (length (fr_iobuf f)) - fr_hdrlen f)
                         | None => 0
                         end in
  if decide (offset <> expected_offset) then (None, count_fail r) else
  match found with
  | None =>
    if negb new_ok then (None, count_fail r) else
    let f := Fragment iobuf hdrlen (started now FRAGMENT_TIMEOUT (Timer false 0 0 0 0 0 None)) in
    (None, set_list (f :: fr_list r) r)
  | Some (i, f) =>
    let more_frags := more_fragments iobuf hdrlen in
    if negb extend_ok then (None, count_fail r) else
    let f := Fragment (fr_iobuf f ++ drop (Z.to_nat hdrlen) iobuf) (fr_hdrlen f) (stopped now (fr_timer f)) in
    if more_frags
    then (None, set_list (<[i := Fragment (fr_iobuf f) (fr_hdrlen f) (started now FRAGMENT_TIMEOUT (fr_timer f))]> (fr_list r)) r)
    else (Some (fr_iobuf f, fr_hdrlen f), count_ok (set_list (delete i (fr_list r)) r))
  end.
End reassembly.

(** ** Specification: one partly reassembled packet per datagram *)

(** What a protocol promises of its functions: fragments that belong together
    have the same key, and the key of a packet is found in its first bytes. *)
Class FragmentKey `{ops : FragmentOps} (K : Type) `{EqDecision K} (key : list Z -> K) (valid : list Z -> Z -> Prop) : Prop := {
  valid_hdrlen : forall b h, valid b h -> 0 <= h <= Z.of_nat (length b);
  valid_app : forall b h d, valid b h -> valid (b ++ d) h;
  key_app : forall b h d, valid b h -> key (b ++ d) = key b;
  is_fragment_key : forall f fh b h, valid f fh -> valid b h -> is_fragment f b h = bool_decide (key f = key b);
}.

(** A fragment arrives for a datagram of which [entry] has been reassembled:
    the completed datagram, if any, and what is kept. *)
Definition extend_datagram `{FragmentOps} (iobuf : list Z) (hdrlen : Z) (entry : option (list Z * Z)) :
    option (list Z * Z) * option (list Z * Z) :=
  let expected := match entry with Some (b, h) => Z.of_nat (length b) - h | None => 0 end in
  if decide (fragment_offset iobuf hdrlen <> expected) then (None, entry) else
  match entry with
  | None => (None, Some (iobuf, hdrlen))
  | Some (b, h) =>
    let b := b ++ drop (Z.to_nat hdrlen) iobuf in
    if more_fragments iobuf hdrlen then (None, Some (b, h)) else (Some (b, h), None)
  end.

Section correct.
Context `{ops : FragmentOps} {K : Type} `{!EqDecision K} (key : list Z -> K) (valid : list Z -> Z -> Prop).
Context `{fk : !FragmentKey K key valid}.

Definition fr_key (f : fragment) : K := key (fr_iobuf f).

(** The abstract state: what has been reassembled of the datagram [k]. *)
Fixpoint pending (l : list fragment) (k : K) : option (list Z * Z) :=
  match l with
  | [] => None
  | f :: l => if decide (fr_key f = k) then Some (fr_iobuf f, fr_hdrlen f) else pending l k
  end.

Definition fragment_ok (f : fragment) : Prop :=
  valid (fr_iobuf f) (fr_hdrlen f) /\ Z.of_nat (length (fr_iobuf f)) < 2 ^ 64.

Definition reassembler_ok (r : fragment_reassembler) : Prop :=
  Forall fragment_ok (fr_list r) /\ NoDup (fr_key <$> fr_list r).

Lemma fragment_find_spec l iobuf hdrlen :
  Forall fragment_ok l -> valid iobuf hdrlen ->
  match fragment_find l iobuf hdrlen with
  | None => pending l (key iobuf) = None /\ ~ key iobuf ∈ fr_key <$> l
  | Some (i, f) => l !! i = Some f /\ fr_key f = key iobuf /\ pending l (key iobuf) = Some (fr_iobuf f, fr_hdrlen f)
  end.
Proof.
  intros Hl Hv. induction Hl as [|f l [Hf _] Hl IH]; cbn [fragment_find pending]; [split; [done|apply not_elem_of_nil]|].
  rewrite (is_fragment_key _ (fr_hdrlen f)) by done. destruct (bool_decide _) eqn:E.
  - apply bool_decide_eq_true in E. rewrite decide_True by done. done.
  - apply bool_decide_eq_false in E. rewrite decide_False by done. destruct (fragment_find l iobuf hdrlen) as [[i g]|]; simpl; [done|].
    destruct IH as [-> IH]. split; [done|]. apply not_elem_of_cons. split; [|done]. intros E'. by apply E.
Qed.

(** Updating and deleting the entry of a datagram touch no other datagram. *)
Lemma pending_insert l i f g k :
  NoDup (fr_key <$> l) -> l !! i = Some f -> fr_key g = fr_key f ->
  pending (<[i := g]> l) k = if decide (k = fr_key f) then Some (fr_iobuf g, fr_hdrlen g) else pending l k.
Proof.
  intros Hnd Hi Hg. revert i Hi. induction l as [|h l IH]; intros [|i] Hi; [done..|simpl in Hi|simpl in Hi].
  - injection Hi as ->. cbn [insert list_insert pending]. rewrite Hg. destruct (decide (fr_key f = k)) as [<-|Hk]; [by rewrite decide_True|].
    by rewrite decide_False.
  - rewrite fmap_cons in Hnd. apply NoDup_cons in Hnd as [Hh Hnd]. change (<[S i := g]> (h :: l)) with (h :: <[i := g]> l).
    cbn [pending]. rewrite IH by done. destruct (decide (fr_key h = k)) as [<-|Hk]; [|done]. rewrite decide_False; [done|].
    intros E. apply Hh. rewrite E. apply list_elem_of_fmap. exists f. split; [done|]. by eapply list_elem_of_lookup_2.
Qed.

Lemma pending_notin l k : k ∉ fr_key <$> l -> pending l k = None.
Proof.
  induction l as [|f l IH]; [done|]. rewrite fmap_cons, not_elem_of_cons. intros [Hf Hl]. cbn [pending].
  rewrite decide_False by congruence. by apply IH.
Qed.

Lemma pending_delete l i f k :
  NoDup (fr_key <$> l) -> l !! i = Some f ->
  pending (delete i l) k = if decide (k = fr_key f) then None else pending l k.
Proof.
  intros Hnd Hi. revert i Hi. induction l as [|h l IH]; intros [|i] Hi; [done..|simpl in Hi|simpl in Hi];
    rewrite fmap_cons in Hnd; apply NoDup_cons in Hnd as [Hh Hnd].
  - injection Hi as ->. change (delete O (f :: l)) with l. cbn [pending].
    destruct (decide (k = fr_key f)) as [->|Hk]; [by apply pending_notin|]. by rewrite decide_False.
  - change (delete (S i) (h :: l)) with (h :: delete i l). cbn [pending]. rewrite IH by done.
    destruct (decide (fr_key h = k)) as [<-|Hk]; [|done]. rewrite decide_False; [done|].
    intros E. apply Hh. rewrite E. apply list_elem_of_fmap. exists f. split; [done|]. by eapply list_elem_of_lookup_2.
Qed.

(** A fragment is handled as the specification says for its own datagram, and
    the other datagrams are not concerned. *)
Lemma fragment_reassemble_spec now iobuf hdrlen r :
  reassembler_ok r -> valid iobuf hdrlen -> Z.of_nat (length iobuf) < 2 ^ 64 ->
  (forall b h, pending (fr_list r) (key iobuf) = Some (b, h) -> Z.of_nat (length b + length iobuf) < 2 ^ 64) ->
  let '(out, r') := fragment_reassemble now true true iobuf hdrlen r in
  reassembler_ok r' /\
  (out, pending (fr_list r') (key iobuf)) = extend_datagram iobuf hdrlen (pending (fr_list r) (key iobuf)) /\
  (forall k, k <> key iobuf -> pending (fr_list r') k = pending (fr_list r) k).
Proof.
  intros [Hok Hnd] Hv Hlen Hsum. unfold fragment_reassemble, extend_datagram. cbv zeta. cbn [count_reqd fr_list].
  pose proof (fragment_find_spec (fr_list r) iobuf hdrlen Hok Hv) as Hfind.
  destruct (fragment_find (fr_list r) iobuf hdrlen) as [[i f]|].
  - destruct Hfind as (Hi & Hkey & Hp). rewrite Hp in *. specialize (Hsum _ _ eq_refl).
    pose proof Hok as Hok'. rewrite Forall_lookup in Hok'. destruct (Hok' i f Hi) as [Hvf Hlf].
    pose proof (valid_hdrlen _ _ Hvf). rewrite wrap_small by zlia.
    destruct (decide _); [refine (conj (conj Hok Hnd) (conj _ (fun _ _ => eq_refl))); f_equal; exact Hp|]. cbn [negb fr_iobuf fr_hdrlen fr_timer].
    set (b := fr_iobuf f ++ drop (Z.to_nat hdrlen) iobuf). assert (key b = key iobuf) as Hkb.
    { subst b. rewrite (key_app _ (fr_hdrlen f)) by done. exact Hkey. }
    assert (forall t, fragment_ok (Fragment b (fr_hdrlen f) t)) as Hfo.
    { intros t. split; [by apply valid_app|]. subst b. simpl. rewrite length_app, length_drop. lia. }
    destruct (more_fragments iobuf hdrlen); cbn [set_list count_reqd count_ok fr_list]; refine (conj (conj _ _) (conj _ _));
      cbn [set_list count_reqd count_ok fr_list].
    + apply Forall_insert; [done|apply Hfo].
    + rewrite list_fmap_insert, list_insert_id; [done|]. rewrite list_lookup_fmap, Hi. simpl. f_equal. rewrite Hkey. done.
    + rewrite (pending_insert _ _ f) by (try done; unfold fr_key; simpl; by rewrite Hkb, <- Hkey). by rewrite decide_True.
    + intros k Hk. rewrite (pending_insert _ _ f) by (try done; unfold fr_key; simpl; by rewrite Hkb, <- Hkey).
      rewrite decide_False by congruence. done.
    + by apply Forall_delete.
    + rewrite list_fmap_delete. apply (sublist_NoDup _ (fr_key <$> fr_list r)); [done|apply sublist_delete].
    + rewrite (pending_delete _ _ f) by done. by rewrite decide_True.
    + intros k Hk. rewrite (pending_delete _ _ f) by done. by rewrite decide_False by congruence.
  - destruct Hfind as [Hp Hni]. rewrite Hp. destruct (decide _); cbn [count_fail fr_list count_reqd negb set_list].
    + refine (conj (conj Hok Hnd) (conj _ (fun _ _ => eq_refl))). by rewrite Hp.
    + refine (conj (conj _ _) (conj _ _)); cbn [fr_list set_list count_reqd].
      * by constructor.
      * rewrite fmap_cons. by constructor.
      * cbn [pending]. by rewrite decide_True.
      * intros k Hk. cbn [pending]. rewrite decide_False; [done|]. intros E. by apply Hk.
Qed.

(** ** Datagrams *)

(** The packets that arrive, and the datagrams that leave. *)
Fixpoint reassemble_all (now : Z) (ps : list (list Z * Z)) (r : fragment_reassembler) : list (list Z * Z) * fragment_reassembler :=
  match ps with
  | [] => ([], r)
  | (iobuf, hdrlen) :: ps =>
    let '(out, r) := fragment_reassemble now true true iobuf hdrlen r in
    let '(outs, r) := reassemble_all now ps r in
    (option_list out ++ outs, r)
  end.

(** The fragments [todo] of a datagram arrive in order, of which the data up
    to [off] has arrived; anything else that arrives for the datagram in
    between does not continue at [off]. *)
Inductive arrives : Z -> list (list Z * Z) -> list (list Z * Z) -> Prop :=
| arr_last off p h :
    fragment_offset p h = off -> more_fragments p h = false -> arrives off [(p, h)] [(p, h)]
| arr_next off p h todo ps :
    fragment_offset p h = off -> more_fragments p h = true ->
    arrives (off + (Z.of_nat (length p) - h)) todo ps -> arrives off ((p, h) :: todo) ((p, h) :: ps)
| arr_other off p h todo ps :
    fragment_offset p h <> off -> arrives off todo ps -> arrives off todo ((p, h) :: ps).

(** The data of a fragment, and of several. *)
Definition payload (f : list Z * Z) : list Z := drop (Z.to_nat (snd f)) (fst f).
Definition total (ps : list (list Z * Z)) : Z := Z.of_nat (length (concat (fst <$> ps))).

Definition packet_ok (f : list Z * Z) : Prop := valid (fst f) (snd f).

Lemma total_cons p h ps : total ((p, h) :: ps) = Z.of_nat (length p) + total ps.
Proof. unfold total. cbn [fmap list_fmap concat fst]. rewrite length_app. lia. Qed.

(** The packets of one datagram, handled as specified. *)
Fixpoint datagram_all (ps : list (list Z * Z)) (entry : option (list Z * Z)) : list (list Z * Z) * option (list Z * Z) :=
  match ps with
  | [] => ([], entry)
  | (iobuf, hdrlen) :: ps =>
    let '(out, entry) := extend_datagram iobuf hdrlen entry in
    let '(outs, entry) := datagram_all ps entry in
    (option_list out ++ outs, entry)
  end.

Definition of_datagram (k : K) (ps : list (list Z * Z)) : list (list Z * Z) := filter (fun f => key (fst f) = k) ps.

(** Lengths do not overflow when [n] more bytes arrive. *)
Definition room (r : fragment_reassembler) (n : Z) : Prop :=
  n < 2 ^ 64 /\ forall k b h, pending (fr_list r) k = Some (b, h) -> Z.of_nat (length b) + n < 2 ^ 64.

Lemma pending_Some l k b h : Forall fragment_ok l -> pending l k = Some (b, h) -> key b = k /\ valid b h.
Proof.
  induction 1 as [|f l Hf Hl IH]; cbn [pending]; [done|]. destruct (decide _) as [E|E]; [|done]. intros [= <- <-]. split; [done|apply Hf].
Qed.

Lemma room_step now iobuf hdrlen r n :
  reassembler_ok r -> valid iobuf hdrlen -> 0 <= n -> room r (Z.of_nat (length iobuf) + n) ->
  let '(out, r') := fragment_reassemble now true true iobuf hdrlen r in
  reassembler_ok r' /\ room r' n /\
  (out, pending (fr_list r') (key iobuf)) = extend_datagram iobuf hdrlen (pending (fr_list r) (key iobuf)) /\
  (forall k, k <> key iobuf -> pending (fr_list r') k = pending (fr_list r) k) /\
  (forall b h, out = Some (b, h) -> key b = key iobuf).
Proof.
  intros Hr Hv Hn [Hmax Hroom].
  pose proof (fragment_reassemble_spec now iobuf hdrlen r Hr Hv ltac:(lia)) as Hs.
  destruct (fragment_reassemble now true true iobuf hdrlen r) as [out r'].
  destruct Hs as (S1 & S2 & S3); [intros b h E; specialize (Hroom _ _ _ E); lia|].
  refine (conj S1 (conj (conj _ _) (conj S2 (conj S3 _)))); [lia| |].
  - intros k b h Hk. destruct (decide (k = key iobuf)) as [->|Hne]; [|rewrite S3 in Hk by done; specialize (Hroom _ _ _ Hk); lia].
    rewrite Hk in S2. unfold extend_datagram in S2. destruct (pending (fr_list r) (key iobuf)) as [[b0 h0]|] eqn:E.
    + specialize (Hroom _ _ _ E). destruct (decide _); [|destruct (more_fragments _ _)]; simplify_eq; [lia|].
      rewrite length_app, length_drop. lia.
    + destruct (decide _); simplify_eq. lia.
  - intros b h ->. unfold extend_datagram in S2. destruct (pending (fr_list r) (key iobuf)) as [[b0 h0]|] eqn:E; [|destruct (decide _); simplify_eq].
    destruct (pending_Some _ _ _ _ (proj1 Hr) E) as [Hk Hv0]. destruct (decide _); [|destruct (more_fragments _ _)]; simplify_eq.
    by rewrite (key_app _ h0).
Qed.

(** Each datagram is reassembled as if its fragments came alone. *)
Lemma reassemble_refines now k ps r :
  reassembler_ok r -> Forall packet_ok ps -> room r (total ps) ->
  let '(outs, r') := reassemble_all now ps r in
  reassembler_ok r' /\ (of_datagram k outs, pending (fr_list r') k) = datagram_all (of_datagram k ps) (pending (fr_list r) k).
Proof.
  intros Hr Hps. revert r Hr. induction Hps as [|[p h] ps Hp Hps IH]; intros r Hr Hroom; cbn [reassemble_all]; [done|].
  rewrite total_cons in Hroom. pose proof (room_step now p h r (total ps) Hr Hp ltac:(unfold total; lia) Hroom) as Hs.
  destruct (fragment_reassemble now true true p h r) as [out r1]. destruct Hs as (S1 & S2 & S3 & S4 & S5).
  specialize (IH r1 S1 S2). destruct (reassemble_all now ps r1) as [outs r']. destruct IH as [I1 I2]. split; [done|].
  unfold of_datagram in *. rewrite filter_app, filter_cons. cbn [fst]. destruct (decide (key p = k)) as [<-|Hk].
  - cbn [datagram_all]. rewrite <- S3, <- I2. f_equal. f_equal. destruct out as [[b h']|]; [|done].
    change (option_list (Some (b, h'))) with [(b, h')]. by rewrite filter_cons, decide_True by (apply (S5 b h' eq_refl)).
  - rewrite S4 in I2 by done. rewrite <- I2. f_equal. destruct out as [[b h']|]; [|done].
    change (option_list (Some (b, h'))) with [(b, h')]. rewrite filter_cons, decide_False; [done|]. simpl. by rewrite (S5 b h' eq_refl).
Qed.

(** The fragments of a datagram, in order, make up the datagram. *)
Lemma datagram_rest b h todo ps :
  arrives (Z.of_nat (length b) - h) todo ps -> Forall packet_ok ps ->
  datagram_all ps (Some (b, h)) = ([(b ++ concat (payload <$> todo), h)], None).
Proof.
  intros Ha. remember (Z.of_nat (length b) - h) as off eqn:E. revert b E.
  induction Ha as [off p h' Ho Hm|off p h' todo ps Ho Hm Ha IH|off p h' todo ps Ho Ha IH]; intros b E Hps;
    cbn [datagram_all]; unfold extend_datagram; rewrite <- E; inversion_clear Hps as [|? ? Hp Hps'].
  - rewrite decide_False by (intros Hne; by apply Hne). rewrite Hm. cbn [option_list app]. unfold payload. simpl. by rewrite app_nil_r.
  - rewrite decide_False by (intros Hne; by apply Hne). rewrite Hm. cbn [option_list app]. pose proof (valid_hdrlen _ _ Hp) as Hh. simpl in Hh.
    rewrite IH by (rewrite ?length_app, ?length_drop; done || lia). rewrite fmap_cons. cbn [concat]. by rewrite app_assoc.
  - rewrite decide_True by done. cbn [option_list app]. by rewrite IH.
Qed.

Lemma datagram_whole p h todo ps :
  arrives 0 ((p, h) :: todo) ps -> more_fragments p h = true -> Forall packet_ok ps ->
  datagram_all ps None = ([(p ++ concat (payload <$> todo), h)], None).
Proof.
  intros Ha Hm. remember 0 as off eqn:E. remember ((p, h) :: todo) as all eqn:Eall. revert E Eall.
  induction Ha as [off q h' Ho Hq|off q h' todo' ps Ho Hq Ha IH|off q h' todo' ps Ho Ha IH]; intros E Eall Hps;
    inversion_clear Hps as [|? ? Hp Hps']; [congruence| |].
  - injection Eall as -> -> ->. cbn [datagram_all]. unfold extend_datagram. rewrite decide_False by (intros Hne; apply Hne; congruence).
    cbn [option_list app]. rewrite (datagram_rest p h todo); [done| |done]. by rewrite E in Ha.
  - cbn [datagram_all]. unfold extend_datagram. rewrite decide_True by congruence. by rewrite IH.
Qed.

(** Fragments of a datagram that arrive in order are put together, whatever
    else arrives in between. *)
Lemma fragments_reassembled now k ps r p h todo :
  reassembler_ok r -> Forall packet_ok ps -> room r (total ps) -> pending (fr_list r) k = None ->
  arrives 0 ((p, h) :: todo) (of_datagram k ps) -> more_fragments p h = true ->
  let '(outs, r') := reassemble_all now ps r in
  of_datagram k outs = [(p ++ concat (payload <$> todo), h)] /\ reassembler_ok r' /\ pending (fr_list r') k = None.
Proof.
  intros Hr Hps Hroom Hk Ha Hm. pose proof (reassemble_refines now k ps r Hr Hps Hroom) as H.
  destruct (reassemble_all now ps r) as [outs r']. destruct H as [H1 H2].
  rewrite Hk, (datagram_whole p h todo) in H2; [by simplify_eq|done|done|]. apply Forall_forall. intros x [_ Hx]%list_elem_of_filter. by eapply Forall_forall in Hps.
Qed.
End correct.
