(* ===== verification/Ipv4.v ===== *)
(** * IPv4 (net/ipv4.c)

    Addresses are 32-bit numbers in host byte order; the bit operations of the
    source on addresses in network byte order do not depend on the order.  A
    packet is the list of its bytes.  A 16-bit checksum is stored with its low
    byte first, as a little-endian host does, and [trans_csum] is the offset
    of the transport checksum in the segment instead of a pointer to it.

    The state of IPv4 is the record [ipv4_state], a component of the state [W]
    of the firmware; the class [Ipv4Env] has the projection and what IPv4
    calls: network devices, the link layer, ARP, the clock and the allocator.
    Network devices are numbered; their reference counts, profiling and debug
    messages are left out.  The transport protocols are the table that
    [tcpip_rx] of Tcpip searches. *)

From S2P Require Import Prelude CMem Tcpip Retry Fragment.

Definition IP_VER : Z := 0x40.
Definition IP_MASK_VER : Z := 0xf0.
Definition IP_MASK_HLEN : Z := 0x0f.
Definition IP_MASK_OFFSET : Z := 0x1fff.
Definition IP_MASK_MOREFRAGS : Z := 0x2000.
Definition IP_TOS : Z := 0.
Definition IP_TTL : Z := 64.
Definition AF_INET : Z := 1.
Definition INADDR_BROADCAST : Z := 0xffffffff.
Definition IN_IS_MULTICAST (addr : Z) : bool := bool_decide (Z.land addr 0xf0000000 = 0xe0000000).
Definition LL_MULTICAST : Z := 0x0001.
Definition LL_BROADCAST : Z := 0x0002.

Record ipv4_miniroute := Miniroute {
  netdev : nat;
  address : Z;
  netmask : Z;
  gateway : Z;
}.

Inductive counter :=
  | out_requests | out_no_routes | out_bcast_pkts | out_mcast_pkts | out_transmits | out_octets
  | in_receives | in_octets | in_bcast_pkts | in_mcast_pkts | in_hdr_errors | in_truncated_pkts | in_addr_errors.

#[export] Instance counter_eq_dec : EqDecision counter.
Proof. solve_decision. Defined.

Record ipv4_state := Ipv4 {
  miniroutes : list ipv4_miniroute;
  next_ident_high : Z;
  reassembler : fragment_reassembler;
  counters : counter -> Z;
  ip_stats : ip_statistics;
}.

Class Ipv4Env (W : Type) := {
  ipv4 : W -> ipv4_state;
  set_ipv4 : ipv4_state -> W -> W;
  currticks : W -> Z;
  netdev_is_open : nat -> W -> bool;
  netdev_index : nat -> Z;
  rx_stats_bad : nat -> W -> Z;
  rx_stats_good : nat -> W -> Z;
  ll_broadcast : nat -> list Z;
  mc_hash : nat -> Z -> result (list Z);
  net_tx : list Z -> nat -> list Z -> W -> result unit * W;
  arp_tx : list Z -> nat -> Z -> Z -> W -> result unit * W;
  zalloc_ok : W -> bool;
  alloc_iob_ok : W -> bool;
}.

(** ** Packets *)

(** [sin_addr] of a socket address, and the socket address that reception
    constructs. *)
Definition sin_addr (st : sockaddr_tcpip) : Z := get32 (st_pad st) 0.
Definition sockaddr_in (addr : Z) : sockaddr_tcpip := SockaddrTcpip AF_INET 0 0 0 (be32 addr ++ replicate 20 0).

(** A 16-bit number in the byte order of the host. *)
Definition le16 (v : Z) : list Z := [v `mod` 256; v / 256].
Definition get_le16 (l : list Z) (i : nat) : Z := get8 l i + 256 * get8 l (i + 1).

Definition iphdr (len ident protocol chksum src dest : Z) : list Z :=
  [Z.lor IP_VER (20 / 4); IP_TOS] ++ be16 len ++ be16 ident ++ be16 0 ++ [IP_TTL; protocol] ++ le16 chksum ++
  be32 src ++ be32 dest.

(** The fields, by their offset. *)
Definition hdr_len (packet : list Z) : Z := Z.land (get8 packet 0) IP_MASK_HLEN * 4.
Definition hdr_frags (packet : list Z) : Z := get16 packet 6.
Definition hdr_protocol (packet : list Z) : Z := get8 packet 9.
Definition hdr_src (packet : list Z) : Z := get32 packet 12.
Definition hdr_dest (packet : list Z) : Z := get32 packet 16.

Definition ipv4_pseudo_header (packet : list Z) : list Z :=
  be32 (hdr_src packet) ++ be32 (hdr_dest packet) ++ [0; hdr_protocol packet] ++
  be16 (Z.of_nat (length packet) - hdr_len packet).

Definition ipv4_pshdr_chksum (packet : list Z) (csum : Z) : Z :=
  generic_tcpip_continue_chksum csum (ipv4_pseudo_header packet).

(** ** Fragments *)

Definition ipv4_is_fragment (fragment iobuf : list Z) (hdrlen : Z) : bool :=
  bool_decide (hdr_src iobuf = hdr_src fragment) && bool_decide (get16 iobuf 4 = get16 fragment 4).
Definition ipv4_fragment_offset (iobuf : list Z) (hdrlen : Z) : Z :=
  Z.shiftl (Z.land (hdr_frags iobuf) IP_MASK_OFFSET) 3.
Definition ipv4_more_fragments (iobuf : list Z) (hdrlen : Z) : bool :=
  bool_decide (Z.land (hdr_frags iobuf) IP_MASK_MOREFRAGS <> 0).

#[export] Instance ipv4_reassembler : FragmentOps := {|
  is_fragment := ipv4_is_fragment;
  fragment_offset := ipv4_fragment_offset;
  more_fragments := ipv4_more_fragments;
|}.

Section ipv4.
Context {W : Type} `{env : Ipv4Env W}.
Abbreviation protocol := (@tcpip_protocol W nat (list Z)).

Definition upd (f : ipv4_state -> ipv4_state) (w : W) : W := set_ipv4 (f (ipv4 w)) w.

Definition set_miniroutes (l : list ipv4_miniroute) (s : ipv4_state) : ipv4_state :=
  Ipv4 l (next_ident_high s) (reassembler s) (counters s) (ip_stats s).
Definition set_next_ident_high (v : Z) (s : ipv4_state) : ipv4_state :=
  Ipv4 (miniroutes s) v (reassembler s) (counters s) (ip_stats s).
Definition set_reassembler (r : fragment_reassembler) (s : ipv4_state) : ipv4_state :=
  Ipv4 (miniroutes s) (next_ident_high s) r (counters s) (ip_stats s).
Definition set_ip_stats (st : ip_statistics) (s : ipv4_state) : ipv4_state :=
  Ipv4 (miniroutes s) (next_ident_high s) (reassembler s) (counters s) st.
Definition bump (c : counter) (n : Z) (s : ipv4_state) : ipv4_state :=
  Ipv4 (miniroutes s) (next_ident_high s) (reassembler s)
    (fun c' => if decide (c' = c) then u64 (counters s c + n) else counters s c') (ip_stats s).
Definition count (c : counter) (w : W) : W := upd (bump c 1) w.

(** ** Routing *)

Definition add_ipv4_miniroute (allocated : bool) (route : ipv4_miniroute) (w : W) : result unit * W :=
  if negb allocated then (Err ENOMEM, w) else
  (Ok tt, upd (fun s => set_miniroutes (if decide (gateway route <> 0) then miniroutes s ++ [route] else route :: miniroutes s) s) w).

(** [i] is the position of the route in the list. *)
Definition del_ipv4_miniroute (i : nat) (w : W) : W := upd (fun s => set_miniroutes (delete i (miniroutes s)) s) w.

(** The route and the next hop. *)
Fixpoint route_loop (routes : list ipv4_miniroute) (scope_id dest : Z) (w : W) : option (ipv4_miniroute * Z) :=
  match routes with
  | [] => None
  | r :: routes =>
    if negb (netdev_is_open (netdev r) w) then route_loop routes scope_id dest w
    else if IN_IS_MULTICAST dest then
      if decide (netdev_index (netdev r) = scope_id) then Some (r, dest) else route_loop routes scope_id dest w
    else if decide (Z.land (Z.lxor dest (address r)) (netmask r) = 0) then Some (r, dest)
    else if decide (gateway r <> 0) then Some (r, gateway r)
    else route_loop routes scope_id dest w
  end.

Definition ipv4_route (scope_id dest : Z) (w : W) : option (ipv4_miniroute * Z) :=
  route_loop (miniroutes (ipv4 w)) scope_id dest w.

Definition ipv4_netdev (st_dest : sockaddr_tcpip) (w : W) : option nat :=
  match ipv4_route (st_scope_id st_dest) (sin_addr st_dest) w with
  | Some (r, _) => Some (netdev r)
  | None => None
  end.

Definition ipv4_has_any_addr (nd : nat) (w : W) : bool :=
  existsb (fun r => bool_decide (netdev r = nd)) (miniroutes (ipv4 w)).
Definition ipv4_has_addr (nd : nat) (addr : Z) (w : W) : bool :=
  existsb (fun r => bool_decide (netdev r = nd) && bool_decide (address r = addr)) (miniroutes (ipv4 w)).

Definition ipv4_arp_check (nd : nat) (addr : Z) (w : W) : result unit :=
  if ipv4_has_addr nd addr w then Ok tt else Err ENOENT.

(** ** Transmission *)

Definition next_ident (nd : nat) (w : W) : Z * W :=
  let high := u8 (next_ident_high (ipv4 w) + 1) in
  let w := upd (set_next_ident_high high) w in
  (Z.lor (Z.shiftl high 8)
     (Z.lor (Z.shiftl (Z.land (rx_stats_bad nd w) 0xf) 4) (Z.land (rx_stats_good nd w) 0xf)), w).

(** Checksums: of the transport protocol, if it asks for it, and of the header. *)
Definition ipv4_build (ident protocol src dest zero : Z) (trans_csum : option nat) (segment : list Z) : list Z :=
  let hdr chksum := iphdr (20 + Z.of_nat (length segment)) ident protocol chksum src dest in
  let segment :=
    match trans_csum with
    | None => segment
    | Some off =>
      let csum := ipv4_pshdr_chksum (hdr 0 ++ segment) (get_le16 segment off) in
      let csum := if decide (csum = 0) then zero else csum in
      list_inserts off (le16 csum) segment
    end in
  hdr (tcpip_chksum (hdr 0)) ++ segment.

Definition ipv4_tx (segment : list Z) (proto : protocol) (st_src : option sockaddr_tcpip) (st_dest : sockaddr_tcpip)
    (nd : option nat) (trans_csum : option Z) (w : W) : result unit * W :=
  let w := count out_requests w in
  let dest := sin_addr st_dest in
  let src := match st_src with Some st_src => sin_addr st_src | None => 0 end in
  let route := if decide (dest <> INADDR_BROADCAST) then ipv4_route (st_scope_id st_dest) dest w else None in
  let '(next_hop, src, netmask, nd) :=
    match route with
    | Some (r, next_hop) => (next_hop, address r, netmask r, Some (netdev r))
    | None => (dest, src, 0, nd)
    end in
  match nd with
  | None => (Err ENETUNREACH, count out_no_routes w)
  | Some nd =>
    let '(ident, w) := next_ident nd w in
    let packet := ipv4_build ident (tcpip_proto proto) src dest (zero_csum proto) (Z.to_nat <$> trans_csum) segment in
    let transmitted w := upd (bump out_octets (Z.of_nat (length packet))) (count out_transmits w) in
    if decide (Z.land (Z.lxor next_hop INADDR_BROADCAST) (0xffffffff - netmask) = 0) then
      net_tx packet nd (ll_broadcast nd) (transmitted (count out_bcast_pkts w))
    else if IN_IS_MULTICAST next_hop then
      let w := count out_mcast_pkts w in
      match mc_hash nd next_hop with
      | Err rc => (Err rc, w)
      | Ok ll_dest => net_tx packet nd ll_dest (transmitted w)
      end
    else arp_tx packet nd next_hop src (transmitted w)
  end.

(** ** Reception *)

Context (table : list protocol).

Definition header_error (w : W) : result unit * W := (Err EINVAL, count in_hdr_errors w).

(** Handing a complete packet to the transport layer. *)
Definition ipv4_deliver (packet : list Z) (hdrlen : Z) (nd : nat) (w : W) : result unit * W :=
  let src := sockaddr_in (hdr_src packet) in
  let dest := sockaddr_in (hdr_dest packet) in
  let pshdr_csum := ipv4_pshdr_chksum packet TCPIP_EMPTY_CSUM in
  let '(rc, stats, w) := tcpip_rx (fun _ w => w) table (drop (Z.to_nat hdrlen) packet) nd (hdr_protocol packet) src dest pshdr_csum
                           (ip_stats (ipv4 w)) w in
  (rc, upd (set_ip_stats stats) w).

Definition ipv4_rx_counted (packet : list Z) (flags : Z) (w : W) : W :=
  let w := upd (bump in_octets (Z.of_nat (length packet))) (count in_receives w) in
  if decide (Z.land flags LL_BROADCAST <> 0) then count in_bcast_pkts w
  else if decide (Z.land flags LL_MULTICAST <> 0) then count in_mcast_pkts w else w.

(** A unicast packet that is destined for somebody else. *)
Definition ipv4_not_local (nd : nat) (flags dest : Z) (w : W) : bool :=
  bool_decide (Z.land flags LL_MULTICAST = 0) && bool_decide (dest <> INADDR_BROADCAST) &&
  ipv4_has_any_addr nd w && negb (ipv4_has_addr nd dest w).

Definition ipv4_rx (packet : list Z) (nd : nat) (flags : Z) (w : W) : result unit * W :=
  let w := ipv4_rx_counted packet flags w in
  if decide (Z.of_nat (length packet) < 20) then header_error w else
  if decide (Z.land (get8 packet 0) IP_MASK_VER <> IP_VER) then header_error w else
  let hdrlen := hdr_len packet in
  if decide (hdrlen < 20) then header_error w else
  if decide (hdrlen > Z.of_nat (length packet)) then header_error w else
  if decide (tcpip_chksum (take (Z.to_nat hdrlen) packet) <> 0) then header_error w else
  let len := get16 packet 2 in
  if decide (len < hdrlen) then header_error w else
  if decide (len > Z.of_nat (length packet)) then (Err EINVAL, count in_truncated_pkts w) else
  let packet := take (Z.to_nat len) packet in
  if ipv4_not_local nd flags (hdr_dest packet) w then (Err EINVAL, count in_addr_errors w) else
  if decide (Z.land (hdr_frags packet) (Z.lor IP_MASK_OFFSET IP_MASK_MOREFRAGS) <> 0) then
    let '(out, r) := fragment_reassemble (currticks w) (zalloc_ok w) (alloc_iob_ok w) packet hdrlen (reassembler (ipv4 w)) in
    let w := upd (set_reassembler r) w in
    match out with
    | None => (Ok tt, w)
    | Some (packet, hdrlen) => ipv4_deliver packet hdrlen nd w
    end
  else ipv4_deliver packet hdrlen nd w.

(** IPv4 as a network protocol of the TCP/IP stack. *)
Definition ipv4_tcpip_protocol : @tcpip_net_protocol W nat (list Z) :=
  TcpipNetProtocol AF_INET 20 ipv4_tx ipv4_netdev.
End ipv4.

(** ** Headers *)

Lemma le16_bytes v : in_width 16 v -> bytes (le16 v).
Proof.
  intros Hv. pose proof (Z.mod_pos_bound v 256).
  assert (0 <= v / 256 < 256) by (split; [apply Z.div_pos|apply Z.div_lt_upper_bound]; zlia).
  repeat constructor; zlia.
Qed.

Lemma get_be16 l v : in_width 16 v -> get16 (be16 v ++ l) 0 = v.
Proof. apply be16_value. Qed.

Lemma get_be32 l v : in_width 32 v -> get32 (be32 v ++ l) 0 = v.
Proof. apply be32_value. Qed.

(** What a receiver reads from a header, whatever follows it. *)
Lemma iphdr_fields len ident protocol chksum src dest rest :
  in_width 16 len -> in_width 16 ident -> in_width 32 src -> in_width 32 dest ->
  let packet := iphdr len ident protocol chksum src dest ++ rest in
  get8 packet 0 = 0x45 /\ get16 packet 2 = len /\ get16 packet 4 = ident /\ hdr_frags packet = 0 /\
  hdr_protocol packet = protocol /\ hdr_src packet = src /\ hdr_dest packet = dest.
Proof.
  intros Hl Hi Hs Hd packet. split_and!; try done.
  - exact (get_be16 [] len Hl).
  - exact (get_be16 [] ident Hi).
  - exact (get_be32 [] src Hs).
  - exact (get_be32 [] dest Hd).
Qed.

Lemma iphdr_length len ident protocol chksum src dest : length (iphdr len ident protocol chksum src dest) = 20%nat.
Proof. done. Qed.

Lemma iphdr_bytes len ident protocol chksum src dest :
  is_byte protocol -> in_width 16 chksum -> bytes (iphdr len ident protocol chksum src dest).
Proof.
  intros Hp Hc. unfold iphdr. rewrite !Forall_app. destruct (be_bytes len) as [B1 _], (be_bytes ident) as [B2 _], (be_bytes src) as [_ B3],
    (be_bytes dest) as [_ B4], (be_bytes 0) as [B5 _]. split_and!; try done; [..|by apply le16_bytes];
    by repeat apply Forall_cons_2.
Qed.

(** A header carries its own checksum. *)
Lemma iphdr_checksum len ident protocol src dest :
  is_byte protocol ->
  let hdr c := iphdr len ident protocol c src dest in
  in_width 16 (tcpip_chksum (hdr 0)) /\ tcpip_chksum (hdr (tcpip_chksum (hdr 0))) = 0.
Proof.
  intros Hp hdr. split; [by apply continue_chksum_width; [|apply iphdr_bytes]|].
  set (front := [Z.lor IP_VER (20 / 4); IP_TOS] ++ be16 len ++ be16 ident ++ be16 0 ++ [IP_TTL; protocol]).
  set (rest := be32 src ++ be32 dest).
  assert (bytes front /\ bytes rest) as [Hf Hr].
  { pose proof (iphdr_bytes len ident protocol 0 src dest Hp ltac:(done)) as Hb. change (bytes (front ++ le16 0 ++ rest)) in Hb.
    rewrite !Forall_app in Hb. tauto. }
  exact (chksum_stored_verifies front rest Hf Hr eq_refl).
Qed.

Lemma pseudo_header_eq len ident protocol chksum src dest seg :
  in_width 16 len -> in_width 16 ident -> in_width 32 src -> in_width 32 dest ->
  ipv4_pseudo_header (iphdr len ident protocol chksum src dest ++ seg) =
    be32 src ++ be32 dest ++ [0; protocol] ++ be16 (Z.of_nat (length seg)).
Proof.
  intros Hl Hi Hs Hd. destruct (iphdr_fields len ident protocol chksum src dest seg Hl Hi Hs Hd) as (E1 & _ & _ & _ & E4 & E5 & E6).
  unfold ipv4_pseudo_header, hdr_len. rewrite E1, E4, E5, E6, length_app, iphdr_length. repeat f_equal.
  change (Z.land 69 IP_MASK_HLEN * 4) with 20. lia.
Qed.

(** A segment whose checksum field is at the end of [h]. *)
Lemma get_le16_middle h c rest : in_width 16 c -> get_le16 (h ++ le16 c ++ rest) (length h) = c.
Proof.
  intros Hc. unfold get_le16, get8. rewrite (app_nth2 h _ 0 (n := length h)), (app_nth2 h _ 0 (n := length h + 1)) by lia.
  rewrite Nat.sub_diag. replace (length h + 1 - length h)%nat with 1%nat by lia.
  cbn [nth le16 app]. pose proof (Z.div_mod c 256). lia.
Qed.

Definition pshdr (src dest protocol : Z) (seg : list Z) : list Z :=
  be32 src ++ be32 dest ++ [0; protocol] ++ be16 (Z.of_nat (length seg)).

Lemma pshdr_bytes src dest protocol seg : is_byte protocol -> bytes (pshdr src dest protocol seg).
Proof.
  intros Hp. unfold pshdr. rewrite !Forall_app. destruct (be_bytes src) as [_ B1], (be_bytes dest) as [_ B2], (be_bytes (Z.of_nat (length seg))) as [B3 _].
  split_and!; try done. by repeat apply Forall_cons_2.
Qed.

(** A packet that is built for a segment whose checksum field follows [h]. *)
Lemma ipv4_build_eq ident protocol src dest zero h c rest :
  let seg := h ++ le16 c ++ rest in
  let len := 20 + Z.of_nat (length seg) in
  let hdr chksum := iphdr len ident protocol chksum src dest in
  len < 2 ^ 16 -> in_width 16 ident -> in_width 32 src -> in_width 32 dest -> in_width 16 c ->
  ipv4_build ident protocol src dest zero (Some (length h)) seg =
    hdr (tcpip_chksum (hdr 0)) ++ (h ++ le16 (complete_csum zero c (pshdr src dest protocol seg)) ++ rest).
Proof.
  intros seg len hdr Hlen Hi Hs Hd Hc. unfold ipv4_build. cbv zeta. fold len. fold (hdr 0). fold (hdr (tcpip_chksum (hdr 0))).
  f_equal. match goal with |- list_inserts _ (le16 ?x) _ = _ => rewrite (inserts_middle h (le16 c) (le16 x) rest eq_refl : list_inserts _ _ seg = _) end.
  do 3 f_equal.
  assert (get_le16 seg (length h) = c) as -> by (by apply get_le16_middle).
  unfold ipv4_pshdr_chksum, complete_csum, hdr. by rewrite pseudo_header_eq by (done || (subst len; zlia)).
Qed.

(** The state of IPv4 is a component of the state of the firmware. *)
Class Ipv4Laws {W} `{Ipv4Env W} : Prop := {
  ipv4_set : forall s w, ipv4 (set_ipv4 s w) = s;
  open_set : forall nd s w, netdev_is_open nd (set_ipv4 s w) = netdev_is_open nd w;
}.

Section reception.
Context {W : Type} `{env : Ipv4Env W} `{laws : !Ipv4Laws} (table : list (@tcpip_protocol W nat (list Z))).

Lemma miniroutes_counted packet flags w : miniroutes (ipv4 (ipv4_rx_counted packet flags w)) = miniroutes (ipv4 w).
Proof. unfold ipv4_rx_counted, count, upd. cbv zeta. repeat case_decide; by rewrite !ipv4_set. Qed.

Lemma not_local_counted nd flags dest packet w :
  ipv4_not_local nd flags dest (ipv4_rx_counted packet flags w) = ipv4_not_local nd flags dest w.
Proof. unfold ipv4_not_local, ipv4_has_any_addr, ipv4_has_addr. by rewrite miniroutes_counted. Qed.

Lemma route_loop_ext routes scope_id dest w w' :
  (forall nd, netdev_is_open nd w' = netdev_is_open nd w) -> route_loop routes scope_id dest w' = route_loop routes scope_id dest w.
Proof. intros Ho. induction routes as [|r routes IH]; [done|]. cbn [route_loop]. by rewrite Ho, IH. Qed.

Lemma ipv4_route_counted c scope_id dest w : ipv4_route scope_id dest (count c w) = ipv4_route scope_id dest w.
Proof.
  unfold ipv4_route, count, upd. rewrite ipv4_set. apply route_loop_ext. intros nd. apply open_set.
Qed.

Lemma next_ident_width nd w : in_width 16 (fst (next_ident nd w)).
Proof.
  unfold next_ident. cbv zeta. cbn [fst]. set (w1 := upd _ w).
  pose proof (wrap_bound 8 (next_ident_high (ipv4 w) + 1) ltac:(done)) as Hh. set (high := u8 _) in *.
  assert (forall x, 0 <= Z.land x 0xf < 16) as Hn.
  { intros x. change 0xf with (2 ^ 4 - 1). rewrite land_ones_mod by done. by apply Z.mod_pos_bound. }
  pose proof (Hn (rx_stats_bad nd w1)). pose proof (Hn (rx_stats_good nd w1)).
  rewrite (lor_shiftl_add (Z.land (rx_stats_bad nd w1) 0xf)) by (done || lia). rewrite lor_shiftl_add by (done || lia). zlia.
Qed.

(** An unfragmented packet passes all the checks, and link-layer padding is cut off. *)
Lemma ipv4_rx_accepts ident protocol src dest seg pad nd flags w :
  let len := 20 + Z.of_nat (length seg) in
  let hdr c := iphdr len ident protocol c src dest in
  let packet := hdr (tcpip_chksum (hdr 0)) ++ seg in
  len < 2 ^ 16 -> in_width 16 ident -> is_byte protocol -> in_width 32 src -> in_width 32 dest ->
  ipv4_not_local nd flags dest w = false ->
  ipv4_rx table (packet ++ pad) nd flags w = ipv4_deliver table packet 20 nd (ipv4_rx_counted (packet ++ pad) flags w).
Proof.
  intros len hdr packet Hlen Hi Hp Hs Hd Hloc. destruct (iphdr_checksum len ident protocol src dest Hp) as [Hw Hc].
  fold (hdr 0) (hdr (tcpip_chksum (hdr 0))) in Hw, Hc. set (h := hdr (tcpip_chksum (hdr 0))) in *.
  assert (length h = 20%nat) as Hhl by done. assert (in_width 16 len) as Hlw by (subst len; zlia).
  assert (length packet = Z.to_nat len) as Hpl by (subst packet len; rewrite length_app, Hhl; lia).
  assert (forall rest, get8 (h ++ rest) 0 = 0x45 /\ get16 (h ++ rest) 2 = len /\ hdr_frags (h ++ rest) = 0 /\ hdr_dest (h ++ rest) = dest) as Hf.
  { intros rest. destruct (iphdr_fields len ident protocol (tcpip_chksum (hdr 0)) src dest rest Hlw Hi Hs Hd) as (? & ? & _ & ? & _ & _ & ?). done. }
  clearbody h. destruct (Hf (seg ++ pad)) as (F1 & F2 & _). destruct (Hf seg) as (_ & _ & F3 & F4). rewrite app_assoc in F1, F2. fold packet in F1, F2, F3, F4.
  unfold ipv4_rx. cbv zeta. set (w1 := ipv4_rx_counted _ _ _). unfold hdr_len. rewrite F1, F2.
  change (Z.land 69 IP_MASK_VER) with IP_VER. change (Z.land 69 IP_MASK_HLEN * 4) with 20.
  assert (len <= Z.of_nat (length (packet ++ pad)) /\ 20 <= len) as [? ?] by (rewrite length_app; subst len; lia).
  rewrite (decide_False (P := _ < 20)) by lia. rewrite (decide_False (P := _ <> IP_VER)) by (intros Hx; by apply Hx).
  rewrite (decide_False (P := 20 < 20)), (decide_False (P := 20 > _)) by lia.
  replace (take (Z.to_nat 20) (packet ++ pad)) with h by (subst packet; rewrite <- app_assoc, take_app_le by lia; by rewrite take_ge by lia).
  rewrite (decide_False (P := _ <> 0)) by (intros Hx; by apply Hx).
  rewrite (decide_False (P := len < 20)), (decide_False (P := len > _)) by lia.
  replace (take (Z.to_nat len) (packet ++ pad)) with packet by (by rewrite <- Hpl, take_app_length).
  rewrite F3, F4. unfold w1. rewrite not_local_counted, Hloc. done.
Qed.
End reception.

(** ** Reassembly *)

Lemma get8_app l d i : (i < length l)%nat -> get8 (l ++ d) i = get8 l i.
Proof. intros. unfold get8. by apply app_nth1. Qed.

Definition ipv4_key (packet : list Z) : Z * Z := (hdr_src packet, get16 packet 4).
Definition ipv4_valid (packet : list Z) (hdrlen : Z) : Prop := 20 <= hdrlen <= Z.of_nat (length packet).

#[export] Instance ipv4_fragment_key : FragmentKey (Z * Z) ipv4_key ipv4_valid.
Proof.
  unfold ipv4_valid. split.
  - intros. lia.
  - intros. rewrite length_app. lia.
  - intros b h d Hv. unfold ipv4_key, hdr_src, get32, get16. by rewrite !get8_app by lia.
  - intros f fh b h _ _. cbn [is_fragment ipv4_reassembler]. unfold ipv4_is_fragment, ipv4_key.
    rewrite <- bool_decide_and. apply bool_decide_ext. split; [by intros [-> ->]|]. by intros [= -> ->].
Qed.

(** C17: fragments of a datagram that arrive in order are put together again,
    whatever arrives in between: fragments of other datagrams, and fragments
    of this one that are repeated or out of order.  The result is the first
    fragment followed by the data of the others, once, and nothing is kept. *)
Theorem ipv4_reassembly now src ident ps r p h todo :
  reassembler_ok ipv4_key ipv4_valid r -> Forall (packet_ok ipv4_valid) ps -> room ipv4_key r (total ps) ->
  pending ipv4_key (fr_list r) (src, ident) = None ->
  arrives 0 ((p, h) :: todo) (of_datagram ipv4_key (src, ident) ps) -> ipv4_more_fragments p h = true ->
  let '(outs, r') := reassemble_all now ps r in
  of_datagram ipv4_key (src, ident) outs = [(p ++ concat (payload <$> todo), h)] /\
  reassembler_ok ipv4_key ipv4_valid r' /\ pending ipv4_key (fr_list r') (src, ident) = None.
Proof. exact (fragments_reassembled ipv4_key ipv4_valid now (src, ident) ps r p h todo). Qed.

(** Two fragments of one packet, and one of another in between. *)
Definition frag_packet (ident frags : Z) (data : list Z) : list Z * Z :=
  ([0x45; 0] ++ be16 (20 + Z.of_nat (length data)) ++ be16 ident ++ be16 frags ++ [64; 17; 0; 0; 10; 0; 0; 1; 10; 0; 0; 2] ++ data, 20).
Definition frag_first : list Z * Z := frag_packet 7 IP_MASK_MOREFRAGS [1; 2; 3; 4; 5; 6; 7; 8].
Definition frag_last : list Z * Z := frag_packet 7 1 [9; 10].
Definition frag_stranger : list Z * Z := frag_packet 8 IP_MASK_MOREFRAGS [0; 0; 0; 0; 0; 0; 0; 0].

Lemma ipv4_reassembly_witness :
  of_datagram ipv4_key (0x0a000001, 7) (fst (reassemble_all 0 [frag_first; frag_stranger; frag_first; frag_last] (Reassembler [] 0 0 0))) =
    [(fst frag_first ++ [9; 10], 20)].
Proof.
  pose proof (ipv4_reassembly 0 0x0a000001 7 [frag_first; frag_stranger; frag_first; frag_last] (Reassembler [] 0 0 0)
    (fst frag_first) 20 [frag_last]) as H.
  destruct (reassemble_all _ _ _) as [outs r']. apply H.
  - split; [constructor|constructor].
  - unfold packet_ok, ipv4_valid. apply (bool_decide_unpack _). vm_compute. exact I.
  - split; [vm_compute; reflexivity|]. intros k b h Hk. discriminate Hk.
  - reflexivity.
  - apply (arr_next 0 (fst frag_first) 20); [reflexivity|reflexivity|]. apply (arr_other 8 (fst frag_first) 20); [discriminate|].
    apply (arr_last 8 (fst frag_last) 20); reflexivity.
  - reflexivity.
Defined.
