(* ===== verification/Udp.v ===== *)
(** * UDP (net/udp.c)

    The open connections are a list of interface numbers with the local and
    the remote address; the first is the one opened last.  The class [UdpEnv]
    has this list as a component of the state of the firmware and what UDP
    calls: the users of its interfaces, the network protocols, memory.
    [udp_over_ipv4] composes the sending side with the receiving side, through
    IPv4 on both. *)

From S2P Require Import Prelude CMem Tcpip Retry Fragment Ipv4.

Definition IP_UDP : Z := 17.
Definition TCPIP_NEGATIVE_ZERO_CSUM : Z := 0xffff.

Record udp_connection := Udp {
  udp_xfer : nat;
  udp_local : sockaddr_tcpip;
  udp_peer : sockaddr_tcpip;
}.

Definition empty_pad : list Z := replicate 24 0.
Definition empty_sockaddr : sockaddr_tcpip := SockaddrTcpip 0 0 0 0 empty_pad.

Class UdpEnv (W : Type) := {
  udp_conns : W -> list udp_connection;
  set_udp_conns : list udp_connection -> W -> W;
  udp_deliver : nat -> list Z -> sockaddr_tcpip -> sockaddr_tcpip -> W -> result unit * W;
  udp_shutdown : nat -> result unit -> W -> W;
  iob_ensure_headroom : list Z -> W -> result unit;
  random : W -> Z;
}.

Section udp.
Context {W : Type} `{env : UdpEnv W} (networks : list (@tcpip_net_protocol W nat (list Z))).

Definition udp_port_available (w : W) (port : Z) : result Z :=
  if existsb (fun udp => bool_decide (st_port (udp_local udp) = u16 port)) (udp_conns w) then Err EADDRINUSE else Ok port.

(** ** Opening and closing *)

Definition udp_open_common (allocated : bool) (xfer : nat) (peer local : option sockaddr_tcpip) (promisc : bool) (w : W) :
    result unit * W :=
  if negb allocated then (Err ENOMEM, w) else
  let st_peer := match peer with Some st => st | None => empty_sockaddr end in
  let st_local := match local with Some st => st | None => empty_sockaddr end in
  let bound := if promisc then Ok st_local
               else match tcpip_bind local (udp_port_available w) (random w) with
                    | Ok port => Ok (set_st_port (u16 port) st_local)
                    | Err rc => Err rc
                    end in
  match bound with
  | Err rc => (Err rc, w)
  | Ok st_local => (Ok tt, set_udp_conns (Udp xfer st_local st_peer :: udp_conns w) w)
  end.

Definition udp_open (allocated : bool) (xfer : nat) (peer : sockaddr_tcpip) (local : option sockaddr_tcpip) (w : W) : result unit * W :=
  udp_open_common allocated xfer (Some peer) local false w.

Definition udp_open_promisc (allocated : bool) (xfer : nat) (w : W) : result unit * W :=
  udp_open_common allocated xfer None None true w.

(** [i] is the position of the connection in the list. *)
Definition udp_close (i : nat) (rc : result unit) (w : W) : W :=
  match udp_conns w !! i with
  | None => w
  | Some udp => let w := udp_shutdown (udp_xfer udp) rc w in set_udp_conns (delete i (udp_conns w)) w
  end.

(** ** Reception *)

Definition udp_matches (local : sockaddr_tcpip) (udp : udp_connection) : bool :=
  (bool_decide (st_family (udp_local udp) = st_family local) || bool_decide (st_family (udp_local udp) = 0)) &&
  (bool_decide (st_port (udp_local udp) = st_port local) || bool_decide (st_port (udp_local udp) = 0)) &&
  (bool_decide (st_pad (udp_local udp) = st_pad local) || bool_decide (st_pad (udp_local udp) = empty_pad)).

Definition udp_demux (local : sockaddr_tcpip) (w : W) : option udp_connection := find (udp_matches local) (udp_conns w).

Definition udp_rx (iobuf : list Z) (nd : nat) (st_src st_dest : sockaddr_tcpip) (pshdr_csum : Z) (w : W) : result unit * W :=
  if decide (Z.of_nat (length iobuf) < 8) then (Err EINVAL, w) else
  let ulen := get16 iobuf 4 in
  if decide (ulen < 8) then (Err EINVAL, w) else
  if decide (ulen > Z.of_nat (length iobuf)) then (Err EINVAL, w) else
  if decide (get_le16 iobuf 6 <> 0 /\ generic_tcpip_continue_chksum pshdr_csum (take (Z.to_nat ulen) iobuf) <> 0)
  then (Err EINVAL, w) else
  let st_src := set_st_port (get16 iobuf 0) st_src in
  let st_dest := set_st_port (get16 iobuf 2) st_dest in
  match udp_demux st_dest w with
  | None => (Err ENOTCONN, w)
  | Some udp => udp_deliver (udp_xfer udp) (drop 8 (take (Z.to_nat ulen) iobuf)) st_src st_dest w
  end.

Definition udp_protocol : @tcpip_protocol W nat (list Z) := TcpipProtocol IP_UDP TCPIP_NEGATIVE_ZERO_CSUM udp_rx.

(** ** Transmission *)

Definition udp_header (src dest len chksum : Z) : list Z := be16 src ++ be16 dest ++ be16 len ++ le16 chksum.

(** The segment with its checksum, to be completed with the pseudo-header. *)
Definition udp_segment (src dest : Z) (payload : list Z) : list Z :=
  let hdr := udp_header src dest (8 + Z.of_nat (length payload)) in
  hdr (tcpip_chksum (hdr 0 ++ payload)) ++ payload.

Definition udp_tx (udp : udp_connection) (iobuf : list Z) (src dest : option sockaddr_tcpip) (nd : option nat) (w : W) : result unit * W :=
  match iob_ensure_headroom iobuf w with
  | Err rc => (Err rc, w)
  | Ok _ =>
    let src := match src with Some src => src | None => udp_local udp end in
    let dest := match dest with Some dest => dest | None => udp_peer udp end in
    tcpip_tx (fun _ w => w) networks (udp_segment (st_port src) (st_port dest) iobuf) udp_protocol (Some src) dest nd (Some 6) w
  end.

Definition udp_xfer_deliver (udp : udp_connection) (iobuf : list Z) (meta_src meta_dest : option sockaddr_tcpip) (meta_netdev : option nat)
    (w : W) : result unit * W :=
  udp_tx udp iobuf meta_src meta_dest meta_netdev w.
End udp.

(** ** One datagram *)

Lemma udp_segment_split src dest payload :
  let front := be16 src ++ be16 dest ++ be16 (8 + Z.of_nat (length payload)) in
  udp_segment src dest payload = front ++ le16 (tcpip_chksum (front ++ [0; 0] ++ payload)) ++ payload.
Proof. done. Qed.

(** A received segment that was completed on transmission. *)
Lemma udp_rx_completed {W} `{env : UdpEnv W} src dest payload nd st_src st_dest ps w :
  in_width 16 src -> in_width 16 dest -> 8 + Z.of_nat (length payload) < 2 ^ 16 -> bytes payload -> bytes ps ->
  let front := be16 src ++ be16 dest ++ be16 (8 + Z.of_nat (length payload)) in
  let c := complete_csum TCPIP_NEGATIVE_ZERO_CSUM (tcpip_chksum (front ++ [0; 0] ++ payload)) ps in
  udp_rx (front ++ le16 c ++ payload) nd st_src st_dest (generic_tcpip_continue_chksum TCPIP_EMPTY_CSUM ps) w =
    match udp_demux (set_st_port dest st_dest) w with
    | None => (Err ENOTCONN, w)
    | Some udp => udp_deliver (udp_xfer udp) payload (set_st_port src st_src) (set_st_port dest st_dest) w
    end.
Proof.
  intros Hs Hd Hl Hp Hps front c. set (ulen := 8 + Z.of_nat (length payload)) in *.
  assert (bytes front) as Hf.
  { subst front. rewrite !Forall_app. destruct (be_bytes src), (be_bytes dest), (be_bytes ulen). done. }
  pose proof (chksum_completed_verifies front payload ps TCPIP_NEGATIVE_ZERO_CSUM Hf Hp Hps eq_refl ltac:(by right)) as Hv.
  cbv zeta in Hv. fold c in Hv. change [c `mod` 256; c / 256] with (le16 c) in Hv.
  set (seg := front ++ le16 c ++ payload) in *. assert (Z.of_nat (length seg) = ulen) as Hlen by (subst seg ulen; rewrite !length_app; simpl; lia).
  assert (take (Z.to_nat ulen) seg = seg) as Ht by (apply take_ge; lia).
  assert (get16 seg 0 = src /\ get16 seg 2 = dest /\ get16 seg 4 = ulen) as (E1 & E2 & E3).
  { split_and!; [exact (get_be16 [] src Hs)|exact (get_be16 [] dest Hd)|]. apply (get_be16 [] ulen). subst ulen. zlia. }
  assert (drop 8 seg = payload) as Ed by done.
  clearbody seg c. unfold udp_rx. cbv zeta. rewrite E1, E2, E3, Ht, Ed, Hv. subst ulen. rewrite !decide_False by (lia || tauto). done.
Qed.

(** The table of transport protocols contains UDP. *)
Definition has_udp {W} `{UdpEnv W} (table : list (@tcpip_protocol W nat (list Z))) : Prop :=
  exists front back, table = front ++ udp_protocol :: back /\ Forall (fun p => tcpip_proto p <> IP_UDP) front.

Lemma tcpip_rx_udp {W} `{UdpEnv W} table seg nd src dest csum stats (w : W) :
  has_udp table ->
  tcpip_rx (fun _ w => w) table seg nd IP_UDP src dest csum stats w =
    let '(rc, w) := udp_rx seg nd src dest csum w in (rc, IpStatistics (u64 (in_delivers stats + 1)) (in_unknown_protos stats), w).
Proof.
  intros (front & back & -> & Hf). induction Hf as [|p front Hp Hf IH]; cbn [app tcpip_rx].
  - by rewrite decide_True.
  - by rewrite decide_False.
Qed.

(** UDP and IPv4 keep separate parts of the state. *)
Class UdpIpv4Laws {W} `{UdpEnv W, Ipv4Env W} : Prop := {
  udp_conns_ipv4 : forall s w, udp_conns (set_ipv4 s w) = udp_conns w;
}.

Section sender.
Context {W : Type} `{UdpEnv W, Ipv4Env W, !Ipv4Laws} (networks : list (@tcpip_net_protocol W nat (list Z))).

(** The packet that a datagram becomes. *)
Definition udp_packet (ident src dest sport dport : Z) (payload : list Z) : list Z :=
  ipv4_build ident IP_UDP src dest TCPIP_NEGATIVE_ZERO_CSUM (Some 6%nat) (udp_segment sport dport payload).

Lemma udp_tx_unicast udp payload src dest nd r hop w :
  iob_ensure_headroom payload w = Ok tt ->
  find_net_protocol networks AF_INET = Some ipv4_tcpip_protocol -> st_family dest = AF_INET ->
  sin_addr dest <> INADDR_BROADCAST -> ipv4_route (st_scope_id dest) (sin_addr dest) w = Some (r, hop) ->
  Z.land (Z.lxor hop INADDR_BROADCAST) (0xffffffff - netmask r) <> 0 -> IN_IS_MULTICAST hop = false ->
  exists ident w1, in_width 16 ident /\
    udp_tx networks udp payload (Some src) (Some dest) nd w =
      arp_tx (udp_packet ident (address r) (sin_addr dest) (st_port src) (st_port dest) payload) (netdev r) hop (address r) w1.
Proof.
  intros Hh Hf Hd Hb Hr Hnb Hnm. unfold udp_tx, tcpip_tx. rewrite Hh, Hd, Hf. cbn [Tcpip.net_tx ipv4_tcpip_protocol].
  unfold ipv4_tx. cbv zeta. rewrite (decide_True (P := sin_addr dest <> _)) by done. rewrite ipv4_route_counted, Hr.
  pose proof (next_ident_width (netdev r) (count out_requests w)) as Hi.
  destruct (next_ident (netdev r) (count out_requests w)) as [ident w1]. rewrite (decide_False (P := _ = 0)) by done. rewrite Hnm.
  eexists ident, _. split; [exact Hi|]. reflexivity.
Qed.
End sender.

Section receiver.
Context {W : Type} `{UdpEnv W, Ipv4Env W, !Ipv4Laws, !UdpIpv4Laws} (table : list (@tcpip_protocol W nat (list Z))).

Lemma demux_counted st packet flags w : udp_demux st (ipv4_rx_counted packet flags w) = udp_demux st w.
Proof. unfold udp_demux, ipv4_rx_counted, count, upd. cbv zeta. repeat case_decide; by rewrite !udp_conns_ipv4. Qed.

Lemma udp_packet_received ident src dest sport dport payload pad nd flags w udp :
  has_udp table -> ipv4_not_local nd flags dest w = false ->
  udp_demux (set_st_port dport (sockaddr_in dest)) w = Some udp ->
  in_width 16 ident -> in_width 32 src -> in_width 32 dest -> in_width 16 sport -> in_width 16 dport -> bytes payload ->
  28 + Z.of_nat (length payload) < 2 ^ 16 ->
  let packet := udp_packet ident src dest sport dport payload ++ pad in
  let w1 := ipv4_rx_counted packet flags w in
  exists stats, ipv4_rx table packet nd flags w =
    prod_map id (upd (set_ip_stats stats))
      (udp_deliver (udp_xfer udp) payload (set_st_port sport (sockaddr_in src)) (set_st_port dport (sockaddr_in dest)) w1).
Proof.
  intros Ht Hloc Hdm Hi Hs Hd Hsp Hdp Hp Hl. unfold udp_packet. cbv zeta.
  rewrite udp_segment_split. set (front := be16 sport ++ be16 dport ++ _).
  set (c0 := tcpip_chksum _). assert (bytes (front ++ [0; 0] ++ payload)) as Hfb.
  { subst front. rewrite !Forall_app. destruct (be_bytes sport), (be_bytes dport), (be_bytes (8 + Z.of_nat (length payload))).
    split_and!; try done. by repeat apply Forall_cons_2. }
  assert (in_width 16 c0) as Hc0 by (by apply continue_chksum_width). set (seg := front ++ le16 c0 ++ payload).
  assert (Z.of_nat (length seg) = 8 + Z.of_nat (length payload)) as Hlen by (subst seg front; rewrite !length_app; simpl; lia).
  pose proof (ipv4_build_eq ident IP_UDP src dest TCPIP_NEGATIVE_ZERO_CSUM front c0 payload) as Hb. cbv zeta in Hb. fold seg in Hb.
  change (Some 6%nat) with (Some (length front)). rewrite Hb by (done || lia). clear Hb. set (ps := pshdr src dest IP_UDP seg). set (c := complete_csum _ c0 ps).
  set (seg' := front ++ le16 c ++ payload). assert (length seg' = length seg) as El by done.
  rewrite <- El. pose proof (ipv4_rx_accepts table ident IP_UDP src dest seg' pad nd flags w) as Ha. cbv zeta in Ha.
  rewrite Ha by (done || lia). clear Ha. set (hdr := iphdr _ _ _ _ _ _). set (w1 := ipv4_rx_counted _ _ _).
  assert (in_width 16 (20 + Z.of_nat (length seg'))) as Hlw by zlia.
  unfold ipv4_deliver. cbv zeta. unfold ipv4_pshdr_chksum.
  assert (ipv4_pseudo_header (hdr ++ seg') = ps) as -> by (subst ps; unfold pshdr; rewrite <- El; by apply pseudo_header_eq).
  assert (hdr_protocol (hdr ++ seg') = IP_UDP /\ hdr_src (hdr ++ seg') = src /\ hdr_dest (hdr ++ seg') = dest) as (-> & -> & ->).
  { pose proof (iphdr_fields (20 + Z.of_nat (length seg')) ident IP_UDP
      (tcpip_chksum (iphdr (20 + Z.of_nat (length seg')) ident IP_UDP 0 src dest)) src dest seg' Hlw Hi Hs Hd) as Hx.
    cbv zeta in Hx. fold hdr in Hx. tauto. }
  change (drop (Z.to_nat 20) (hdr ++ seg')) with seg'. rewrite tcpip_rx_udp by done.
  pose proof (udp_rx_completed sport dport payload nd (sockaddr_in src) (sockaddr_in dest) ps w1 Hsp Hdp ltac:(lia) Hp
    ltac:(by apply pshdr_bytes)) as Hu.
  cbv zeta in Hu. fold front c0 c seg' in Hu. rewrite Hu. unfold w1 at 1. rewrite demux_counted, Hdm.
  eexists. destruct (udp_deliver _ _ _ _ _) as [rc w2]. done.
Qed.
End receiver.

(** C16: a datagram that one host sends to a unicast address arrives at another.
    Sending hands ARP one packet, built with the address and the device of the
    route.  Any host that takes packets for the destination and has a
    connection bound to the destination port delivers to it exactly the
    payload, with the addresses and ports of both ends, however the link layer
    pads the packet: the header checksum, the completed UDP checksum (never
    transmitted as zero) and the lengths all pass. *)
Theorem udp_over_ipv4 {W1 : Type} `{UdpEnv W1, Ipv4Env W1, !Ipv4Laws} (networks : list (@tcpip_net_protocol W1 nat (list Z)))
    udp payload src dest nd r hop w :
  find_net_protocol networks AF_INET = Some ipv4_tcpip_protocol -> iob_ensure_headroom payload w = Ok tt ->
  st_family dest = AF_INET -> sin_addr dest <> INADDR_BROADCAST ->
  ipv4_route (st_scope_id dest) (sin_addr dest) w = Some (r, hop) ->
  Z.land (Z.lxor hop INADDR_BROADCAST) (0xffffffff - netmask r) <> 0 -> IN_IS_MULTICAST hop = false ->
  in_width 32 (address r) -> in_width 32 (sin_addr dest) -> in_width 16 (st_port src) -> in_width 16 (st_port dest) ->
  bytes payload -> 28 + Z.of_nat (length payload) < 2 ^ 16 ->
  exists packet w1,
    udp_tx networks udp payload (Some src) (Some dest) nd w = arp_tx packet (netdev r) hop (address r) w1 /\
    forall (W2 : Type) (E1 : UdpEnv W2) (E2 : Ipv4Env W2) (L1 : Ipv4Laws) (L2 : UdpIpv4Laws) table pad nd2 flags (w2 : W2) conn,
      has_udp table -> ipv4_not_local nd2 flags (sin_addr dest) w2 = false ->
      udp_demux (set_st_port (st_port dest) (sockaddr_in (sin_addr dest))) w2 = Some conn ->
      exists stats, ipv4_rx table (packet ++ pad) nd2 flags w2 =
        prod_map id (upd (set_ip_stats stats))
          (udp_deliver (udp_xfer conn) payload (set_st_port (st_port src) (sockaddr_in (address r)))
             (set_st_port (st_port dest) (sockaddr_in (sin_addr dest))) (ipv4_rx_counted (packet ++ pad) flags w2)).
Proof.
  intros Hn Hh Hf Hb Hr Hnb Hnm Ha Hd Hsp Hdp Hp Hl.
  destruct (udp_tx_unicast networks udp payload src dest nd r hop w) as (ident & w1 & Hi & E); try done.
  eexists _, w1. split; [exact E|]. intros. by apply udp_packet_received.
Qed.

(** A host with two lists: the packets it sent and the datagrams it received. *)
Record host := Host {
  host_ipv4 : ipv4_state;
  host_udp : list udp_connection;
  host_sent : list (list Z);
  host_received : list (nat * list Z);
}.

Definition host_udp_env : UdpEnv host := {|
  udp_conns := host_udp;
  set_udp_conns l h := Host (host_ipv4 h) l (host_sent h) (host_received h);
  udp_deliver id data _ _ h := (Ok tt, Host (host_ipv4 h) (host_udp h) (host_sent h) (host_received h ++ [(id, data)]));
  udp_shutdown _ _ h := h;
  iob_ensure_headroom _ _ := Ok tt;
  random _ := 0;
|}.

Definition host_ipv4_env : Ipv4Env host := {|
  ipv4 := host_ipv4;
  set_ipv4 s h := Host s (host_udp h) (host_sent h) (host_received h);
  currticks _ := 0;
  netdev_is_open _ _ := true;
  netdev_index _ := 1;
  rx_stats_bad _ _ := 0;
  rx_stats_good _ _ := 0;
  ll_broadcast _ := replicate 6 255;
  mc_hash _ _ := Err ENOTSUP;
  net_tx packet _ _ h := (Ok tt, Host (host_ipv4 h) (host_udp h) (host_sent h ++ [packet]) (host_received h));
  arp_tx packet _ _ _ h := (Ok tt, Host (host_ipv4 h) (host_udp h) (host_sent h ++ [packet]) (host_received h));
  zalloc_ok _ := true;
  alloc_iob_ok _ := true;
|}.

Lemma host_laws : @Ipv4Laws host host_ipv4_env.
Proof. by split. Qed.
Lemma host_udp_laws : @UdpIpv4Laws host host_udp_env host_ipv4_env.
Proof. by split. Qed.

Definition example_host (addr : Z) (conns : list udp_connection) : host :=
  Host (Ipv4 [Miniroute 0 addr 0xffffff00 0] 0 (Reassembler [] 0 0 0) (fun _ => 0) (IpStatistics 0 0)) conns [] [].
Definition example_client : udp_connection := Udp 1 (set_st_port 2000 (sockaddr_in 0x0a000001)) (set_st_port 69 (sockaddr_in 0x0a000002)).
Definition example_tftpd : udp_connection := Udp 7 (set_st_port 69 empty_sockaddr) empty_sockaddr.

Lemma udp_over_ipv4_witness :
  exists packet, host_sent (snd (@udp_tx _ host_udp_env [@ipv4_tcpip_protocol _ host_ipv4_env] example_client [1; 2; 3]
      (Some (udp_local example_client)) (Some (udp_peer example_client)) None (example_host 0x0a000001 []))) = [packet] /\
    host_received (snd (@ipv4_rx _ host_ipv4_env [@udp_protocol _ host_udp_env] (packet ++ [0; 0; 0]) 0 0 (example_host 0x0a000002 [example_tftpd]))) =
      [(7%nat, [1; 2; 3])].
Proof.
  destruct (@udp_over_ipv4 host host_udp_env host_ipv4_env host_laws [@ipv4_tcpip_protocol _ host_ipv4_env] example_client [1; 2; 3]
    (udp_local example_client) (udp_peer example_client) None (Miniroute 0 0x0a000001 0xffffff00 0) 0x0a000002 (example_host 0x0a000001 []))
    as (packet & w1 & E & Hrx);
    [reflexivity|reflexivity|reflexivity|discriminate|reflexivity|discriminate|reflexivity|by vm_compute|by vm_compute|by vm_compute|by vm_compute
    |apply (bool_decide_unpack _); vm_compute; exact I|by vm_compute|].
  destruct (Hrx host host_udp_env host_ipv4_env host_laws host_udp_laws [@udp_protocol _ host_udp_env] [0; 0; 0] 0%nat 0
    (example_host 0x0a000002 [example_tftpd]) example_tftpd) as [stats Es].
  - exists [], []. split; [reflexivity|constructor].
  - reflexivity.
  - reflexivity.
  - exists packet. split; [|rewrite Es; reflexivity].
    assert (host_sent w1 = []) as Hw1.
    { pose proof (f_equal (fun x => length (host_sent (snd x))) E) as Hlen. cbv beta in Hlen.
      match type of Hlen with ?a = _ => assert (a = 1%nat) as Ha by (vm_compute; reflexivity) end. rewrite Ha in Hlen.
      cbn [arp_tx host_ipv4_env snd host_sent] in Hlen. rewrite length_app in Hlen. destruct (host_sent w1); [done|]. simpl in Hlen. lia. }
    rewrite E. cbn [arp_tx host_ipv4_env snd host_sent]. by rewrite Hw1.
Defined.
