(* ===== verification/Strings.v ===== *)
(** * String and memory functions (core/string.c, core/ctype.c, include/ctype.h)

    Pointers are offsets into a block of bytes ([mem] of CMem).  A loop over a
    counted region recurses on its length; a loop that looks for a NUL takes a
    fuel and returns [None] when it runs out, and the theorems show that
    fuel larger than the string is enough.  A pointer result that may be
    NULL is an [option]. *)

From S2P Require Import Prelude CMem.
From Stdlib Require String Ascii.
Export (notations) String.

(** The characters of a string literal, without its terminator. *)
Definition lit (s : String.string) : list Z :=
  map (fun a => Z.of_N (Ascii.N_of_ascii a)) (String.list_ascii_of_string s).

(** A C string ends at its first NUL. *)
Fixpoint cstring (l : list Z) : list Z :=
  match l with
  | [] => []
  | c :: l => if decide (c = 0) then [] else c :: cstring l
  end.

(** ** Character classes *)

Definition isdigit (c : Z) : bool := bool_decide (48 <= c) && bool_decide (c <= 57).
Definition isxdigit (c : Z) : bool :=
  (bool_decide (48 <= c) && bool_decide (c <= 57)) || (bool_decide (65 <= c) && bool_decide (c <= 70)) ||
  (bool_decide (97 <= c) && bool_decide (c <= 102)).
Definition isupper (c : Z) : bool := bool_decide (65 <= c) && bool_decide (c <= 90).
Definition islower (c : Z) : bool := bool_decide (97 <= c) && bool_decide (c <= 122).
Definition isalpha (c : Z) : bool := isupper c || islower c.
Definition isalnum (c : Z) : bool := isalpha c || isdigit c.
Definition isprint (c : Z) : bool := bool_decide (32 <= c) && bool_decide (c <= 126).
Definition tolower (c : Z) : Z := if isupper c then c - 65 + 97 else c.
Definition toupper (c : Z) : Z := if islower c then c - 97 + 65 else c.
Definition isspace (c : Z) : bool :=
  bool_decide (c = 32) || bool_decide (c = 12) || bool_decide (c = 10) ||
  bool_decide (c = 13) || bool_decide (c = 9) || bool_decide (c = 11).

(** ** Memory regions *)

Fixpoint generic_memset (m : mem) (dest c : Z) (len : nat) : mem :=
  match len with
  | O => m
  | S len => generic_memset (mset m dest (u8 c)) (dest + 1) c len
  end.

Fixpoint generic_memcpy (m : mem) (dest src : Z) (len : nat) : mem :=
  match len with
  | O => m
  | S len => generic_memcpy (mset m dest (m src)) (dest + 1) (src + 1) len
  end.

(** The loop runs with the pointers at [dest + len] and [src + len]. *)
Fixpoint generic_memcpy_reverse (m : mem) (dest src : Z) (len : nat) : mem :=
  match len with
  | O => m
  | S len => generic_memcpy_reverse (mset m (dest + Z.of_nat len) (m (src + Z.of_nat len))) dest src len
  end.

Definition generic_memmove (m : mem) (dest src : Z) (len : nat) : mem :=
  if decide (dest < src) then generic_memcpy m dest src len else generic_memcpy_reverse m dest src len.

Fixpoint memcmp (m : mem) (first second : Z) (len : nat) : Z :=
  match len with
  | O => 0
  | S len =>
    let diff := m first - m second in
    if decide (diff <> 0) then diff else memcmp m (first + 1) (second + 1) len
  end.

Fixpoint memchr (m : mem) (src character : Z) (len : nat) : option Z :=
  match len with
  | O => None
  | S len => if decide (m src = character) then Some src else memchr m (src + 1) character len
  end.

Fixpoint memswap (m : mem) (first second : Z) (len : nat) : mem :=
  match len with
  | O => m
  | S len =>
    let temp := m first in
    let m := mset m first (m second) in
    let m := mset m second temp in
    memswap m (first + 1) (second + 1) len
  end.

(** ** NUL-terminated strings *)

Definition SIZE_MAX : Z := 2 ^ 64 - 1.

Fixpoint strncmp (fuel : nat) (m : mem) (first second max : Z) : option Z :=
  match fuel with
  | O => None
  | S fuel =>
    if decide (max = 0) then Some 0 else
    let diff := m first - m second in
    if decide (diff <> 0) then Some diff
    else if decide (m first = 0) then Some 0
    else strncmp fuel m (first + 1) (second + 1) (max - 1)
  end.

Definition strcmp (fuel : nat) (m : mem) (first second : Z) : option Z := strncmp fuel m first second SIZE_MAX.

Fixpoint strcasecmp (fuel : nat) (m : mem) (first second : Z) : option Z :=
  match fuel with
  | O => None
  | S fuel =>
    let diff := toupper (m first) - toupper (m second) in
    if decide (diff <> 0) then Some diff
    else if decide (m first = 0) then Some 0
    else strcasecmp fuel m (first + 1) (second + 1)
  end.

Fixpoint strnlen (fuel : nat) (m : mem) (src max : Z) : option Z :=
  match fuel with
  | O => None
  | S fuel =>
    if decide (max = 0) then Some 0
    else if decide (m src = 0) then Some 0
    else match strnlen fuel m (src + 1) (max - 1) with
         | Some len => Some (1 + len)
         | None => None
         end
  end.

Definition strlen (fuel : nat) (m : mem) (src : Z) : option Z := strnlen fuel m src SIZE_MAX.

Fixpoint strchr (fuel : nat) (m : mem) (src character : Z) : option (option Z) :=
  match fuel with
  | O => None
  | S fuel =>
    if decide (m src = character) then Some (Some src)
    else if decide (m src = 0) then Some None
    else strchr fuel m (src + 1) character
  end.

(** [strrchr] walks to the terminator and scans back from it. *)
Fixpoint strend (fuel : nat) (m : mem) (src : Z) : option Z :=
  match fuel with
  | O => None
  | S fuel => if decide (m src = 0) then Some src else strend fuel m (src + 1)
  end.

Fixpoint rscan (n : nat) (m : mem) (start character : Z) : option Z :=
  match n with
  | O => None
  | S n => if decide (m (start + Z.of_nat n) = character) then Some (start + Z.of_nat n)
           else rscan n m start character
  end.

Definition strrchr (fuel : nat) (m : mem) (src character : Z) : option (option Z) :=
  match strend fuel m src with
  | Some e => Some (rscan (Z.to_nat (e - src)) m src character)
  | None => None
  end.

Fixpoint strstr_loop (fuel : nat) (m : mem) (haystack needle : Z) (len : nat) : option (option Z) :=
  match fuel with
  | O => None
  | S fuel =>
    if decide (m haystack = 0) then Some None
    else if decide (memcmp m haystack needle len = 0) then Some (Some haystack)
    else strstr_loop fuel m (haystack + 1) needle len
  end.

Definition strstr (fuel : nat) (m : mem) (haystack needle : Z) : option (option Z) :=
  match strlen fuel m needle with
  | Some len => strstr_loop fuel m haystack needle (Z.to_nat len)
  | None => None
  end.

Fixpoint strcpy (fuel : nat) (m : mem) (dest src : Z) : option mem :=
  match fuel with
  | O => None
  | S fuel =>
    let m := mset m dest (m src) in
    if decide (m dest = 0) then Some m else strcpy fuel m (dest + 1) (src + 1)
  end.

Fixpoint strncpy (m : mem) (dest src : Z) (max : nat) : mem :=
  match max with
  | O => m
  | S max' =>
    let m := mset m dest (m src) in
    if decide (m dest = 0) then generic_memset m dest 0 max else strncpy m (dest + 1) (src + 1) max'
  end.

Definition strcat (fuel : nat) (m : mem) (dest src : Z) : option mem :=
  match strlen fuel m dest with
  | Some len => strcpy fuel m (dest + len) src
  | None => None
  end.

(** [malloc] is the allocator: the block it returns, or [None] for NULL. *)
Definition strndup (malloc : Z -> option Z) (fuel : nat) (m : mem) (src max : Z) : option (option Z * mem) :=
  match strnlen fuel m src max with
  | None => None
  | Some len =>
    match malloc (len + 1) with
    | None => Some (None, m)
    | Some dup =>
      let m := generic_memcpy m dup src (Z.to_nat len) in
      Some (Some dup, mset m (dup + len) 0)
    end
  end.

Definition strdup (malloc : Z -> option Z) (fuel : nat) (m : mem) (src : Z) : option (option Z * mem) :=
  strndup malloc fuel m src SIZE_MAX.

(** ** Numbers *)

Definition digit_value (character : Z) : Z :=
  if decide (character >= 97) then u32 (character - (97 - 10))
  else if decide (character >= 65) then u32 (character - (65 - 10))
  else if decide (character <= 57) then u32 (character - 48)
  else character.

Fixpoint skip_space (fuel : nat) (m : mem) (string : Z) : option Z :=
  match fuel with
  | O => None
  | S fuel => if isspace (m string) then skip_space fuel m (string + 1) else Some string
  end.

(** The remaining string, the negation flag and the base. *)
Definition strtoul_pre (fuel : nat) (m : mem) (string base : Z) : option (Z * bool * Z) :=
  match skip_space fuel m string with
  | None => None
  | Some string =>
    let '(string, negate) :=
      if decide (m string = 45) then (string + 1, true)
      else if decide (m string = 43) then (string + 1, false)
      else (string, false) in
    let '(string, base) :=
      if decide (base = 0) then
        if decide (m string = 48) then
          if decide (Z.land (m (string + 1)) (Z.lnot 32) = 88) then (string + 2, 16) else (string + 1, 8)
        else (string, 10)
      else (string, base) in
    Some (string, negate, base)
  end.

Fixpoint strtoul_digits (fuel : nat) (m : mem) (string base value : Z) : option (Z * Z) :=
  match fuel with
  | O => None
  | S fuel =>
    let digit := digit_value (m string) in
    if decide (digit >= base) then Some (value, string)
    else strtoul_digits fuel m (string + 1) base (u64 (value * base + digit))
  end.

(** The value and the end pointer. *)
Definition strtoul (fuel : nat) (m : mem) (string base : Z) : option (Z * Z) :=
  match strtoul_pre fuel m string base with
  | None => None
  | Some (string, negate, base) =>
    match strtoul_digits fuel m string base 0 with
    | None => None
    | Some (value, string) => Some (if negate : bool then u64 (- value) else value, string)
    end
  end.

(** ** Lemmas

    [at_mem m a l]: the bytes [l] lie at [a]; [cstr m a s]: the string [s],
    which contains no NUL, lies at [a] with its terminator. *)

Definition at_mem (m : mem) (a : Z) (l : list Z) : Prop := mload m a (length l) = l.
Definition cstr (m : mem) (a : Z) (s : list Z) : Prop := at_mem m a (s ++ [0]) /\ Forall (fun c => c <> 0) s.

Lemma at_mem_cons m a c l : at_mem m a (c :: l) <-> m a = c /\ at_mem m (a + 1) l.
Proof. unfold at_mem. simpl. split; [intros [= E1 E2]; by rewrite E2|by intros [-> ->]]. Qed.

Lemma at_mem_app m a l1 l2 :
  at_mem m a (l1 ++ l2) <-> at_mem m a l1 /\ at_mem m (a + Z.of_nat (length l1)) l2.
Proof.
  revert a. induction l1 as [|c l1 IH]; intros a; simpl.
  - rewrite Z.add_0_r. split; [done|by intros [_ ?]].
  - rewrite !at_mem_cons, IH. replace (a + 1 + Z.of_nat (length l1)) with (a + Z.of_nat (S (length l1))) by lia. tauto.
Qed.

Lemma cstr_cons m a c s : cstr m a (c :: s) <-> m a = c /\ c <> 0 /\ cstr m (a + 1) s.
Proof. unfold cstr. simpl. rewrite at_mem_cons, Forall_cons. tauto. Qed.

Lemma cstr_nil m a : cstr m a [] <-> m a = 0.
Proof. unfold cstr. simpl. rewrite at_mem_cons. split; [naive_solver|]. intros ->. by repeat constructor. Qed.

Lemma generic_memset_spec m dest c len x :
  generic_memset m dest c len x = memset m dest (u8 c) (Z.of_nat len) x.
Proof.
  revert m dest. induction len as [|len IH]; intros m dest; cbn [generic_memset].
  - unfold memset. by rewrite decide_False by lia.
  - rewrite IH. unfold memset, mset. repeat case_decide; done || lia.
Qed.

(** The forward copy is right when no source byte is overwritten before it is
    read. *)
Lemma generic_memcpy_spec m dest src len x :
  dest <= src \/ src + Z.of_nat len <= dest ->
  generic_memcpy m dest src len x = memmove m dest src (Z.of_nat len) x.
Proof.
  revert m dest src. induction len as [|len IH]; intros m dest src H; cbn [generic_memcpy].
  - unfold memmove. by rewrite decide_False by lia.
  - rewrite IH by lia. unfold memmove, mset. repeat case_decide; try done || lia; f_equal; lia.
Qed.

Lemma generic_memcpy_reverse_spec m dest src len x :
  src <= dest -> generic_memcpy_reverse m dest src len x = memmove m dest src (Z.of_nat len) x.
Proof.
  intros H. revert m. induction len as [|len IH]; intros m; cbn [generic_memcpy_reverse].
  - unfold memmove. by rewrite decide_False by lia.
  - rewrite IH. unfold memmove, mset. repeat case_decide; try done || lia; f_equal; lia.
Qed.

Lemma memcmp_eq m first second l : at_mem m second l -> memcmp m first second (length l) = 0 <-> at_mem m first l.
Proof.
  revert first second. induction l as [|c l IH]; intros first second Hl; simpl; [done|].
  apply at_mem_cons in Hl as [E Hl]. rewrite at_mem_cons. case_decide as Hd.
  - split; [lia|]. intros [? _]. lia.
  - rewrite IH by done. split; [intros; split; [lia|done]|tauto].
Qed.

Lemma strnlen_spec fuel m src s max :
  cstr m src s -> Z.of_nat (length s) <= max -> (length s < fuel)%nat -> strnlen fuel m src max = Some (Z.of_nat (length s)).
Proof.
  revert fuel src max. induction s as [|c s IH]; intros [|fuel] src max Hs Hm Hf; simpl in Hf; try lia; cbn [strnlen].
  - apply cstr_nil in Hs. case_decide; [done|]. by rewrite decide_True.
  - apply cstr_cons in Hs as (E & Hc & Hs). simpl length in Hm |- *. rewrite !decide_False by (congruence || lia).
    rewrite IH by (done || lia). f_equal. lia.
Qed.

Lemma strlen_spec fuel m src s :
  cstr m src s -> Z.of_nat (length s) < 2 ^ 64 -> (length s < fuel)%nat -> strlen fuel m src = Some (Z.of_nat (length s)).
Proof. intros. apply strnlen_spec; [done| |done]. unfold SIZE_MAX. lia. Qed.

(** Lexicographic order of byte strings. *)
Fixpoint lex_lt (s1 s2 : list Z) : Prop :=
  match s1, s2 with
  | _, [] => False
  | [], _ :: _ => True
  | c1 :: s1, c2 :: s2 => c1 < c2 \/ (c1 = c2 /\ lex_lt s1 s2)
  end.

Lemma strncmp_spec fuel m a b s1 s2 max :
  mem_ok m -> cstr m a s1 -> cstr m b s2 -> Z.of_nat (length s1) < max -> (length s1 < fuel)%nat ->
  exists d, strncmp fuel m a b max = Some d /\ (d = 0 <-> s1 = s2) /\ (d < 0 <-> lex_lt s1 s2).
Proof.
  intros Hm. revert fuel a b s2 max. induction s1 as [|c1 s1 IH]; intros [|fuel] a b s2 max H1 H2 Hmax Hf;
    simpl in Hf, Hmax; try lia; cbn [strncmp]; rewrite (decide_False (P := max = 0)) by lia.
  - apply cstr_nil in H1. rewrite H1. destruct s2 as [|c2 s2].
    + apply cstr_nil in H2. rewrite H2. cbn. exists 0. split_and!; [done..|]. simpl. lia.
    + apply cstr_cons in H2 as (E2 & Hc2 & _). rewrite decide_True by lia. eexists. split; [done|].
      pose proof (Hm b) as []. split; [split; [lia|done]|]. simpl. split; [done|lia].
  - apply cstr_cons in H1 as (E1 & Hc1 & H1). rewrite E1. destruct s2 as [|c2 s2].
    + apply cstr_nil in H2. rewrite H2, decide_True by lia. eexists. split; [done|].
      pose proof (Hm a) as []. split; [split; [lia|done]|]. simpl. split; [lia|done].
    + apply cstr_cons in H2 as (E2 & Hc2 & H2). rewrite E2. case_decide as Hd.
      * eexists. split; [done|]. split; [split; [lia|intros [= -> ->]; lia]|]. simpl. lia.
      * rewrite decide_False by done. assert (c1 = c2) as <- by lia.
        destruct (IH fuel (a + 1) (b + 1) s2 (max - 1)) as (d & -> & G1 & G2); [done..|lia|lia|].
        exists d. split; [done|]. split; [rewrite G1; split; [by intros ->|by intros [= ->]]|].
        rewrite G2. simpl. split; [by right|intros [?|[_ ?]]; [lia|done]].
Qed.

(** The positions of [haystack] at which [needle] occurs. *)
Definition occurs_at (haystack needle : list Z) (i : nat) : Prop := exists t, drop i haystack = needle ++ t.

(** Comparing past the end of the haystack is decided by its terminator. *)
Lemma occurs_at_mem m a s l : cstr m a s -> Forall (fun c => c <> 0) l -> at_mem m a l <-> occurs_at s l 0.
Proof.
  change (occurs_at s l 0) with (exists t, s = l ++ t). revert a s. induction l as [|c l IH]; intros a s Hs Hl; [split; [by exists s|done]|].
  apply Forall_cons in Hl as [Hc Hl]. rewrite at_mem_cons. destruct s as [|c' s].
  - apply cstr_nil in Hs. split; [intros [? _]; congruence|by intros [t [=]]].
  - apply cstr_cons in Hs as (E & _ & Hs). rewrite E, (IH (a + 1) s Hs Hl). split.
    + intros [-> [t ->]]. by exists t.
    + intros [t [= -> ->]]. split; [done|]. by exists t.
Qed.

Lemma strstr_loop_spec fuel m h n s l :
  cstr m h s -> at_mem m n l -> Forall (fun c => c <> 0) l -> (length s < fuel)%nat ->
  match strstr_loop fuel m h n (length l) with
  | Some (Some p) => exists i, p = h + Z.of_nat i /\ (i < length s)%nat /\ occurs_at s l i /\
                               forall j, (j < i)%nat -> ~ occurs_at s l j
  | Some None => forall i, (i < length s)%nat -> ~ occurs_at s l i
  | None => False
  end.
Proof.
  revert fuel h. induction s as [|c s IH]; intros [|fuel] h Hs Hn Hl Hf; simpl in Hf; try lia; cbn [strstr_loop].
  - apply cstr_nil in Hs. rewrite decide_True by done. simpl. lia.
  - pose proof Hs as (E & Hc & Hs')%cstr_cons. rewrite decide_False by congruence.
    pose proof (memcmp_eq m h n l Hn) as Hmc. rewrite (occurs_at_mem m h _ l Hs Hl) in Hmc.
    case_decide as Hd.
    + exists 0%nat. split_and!; [lia|simpl; lia|tauto|lia].
    + assert (~ occurs_at (c :: s) l 0) as H0 by tauto. clear Hmc.
      specialize (IH fuel (h + 1) Hs' Hn Hl ltac:(lia)).
      destruct (strstr_loop fuel m (h + 1) n (length l)) as [[p|]|]; [| |done].
      * destruct IH as (i & -> & Hi & Ho & Hmin). exists (S i). split_and!; [lia|simpl; lia|done|].
        intros [|j] Hj; [done|]. apply Hmin. lia.
      * intros [|i] Hi; [done|]. simpl in Hi. apply IH. lia.
Qed.

(** Digits of a number, most significant first, and their value. *)
Definition digit_char (d : Z) : Z := if decide (d < 10) then 48 + d else 87 + d.

Fixpoint digits_value (base acc : Z) (ds : list Z) : Z :=
  match ds with
  | [] => acc
  | d :: ds => digits_value base (acc * base + d) ds
  end.

Lemma digit_value_char d : 0 <= d < 36 -> digit_value (digit_char d) = d.
Proof. intros Hd. unfold digit_value, digit_char. repeat case_decide; try lia; rewrite wrap_small by zlia; lia. Qed.

Lemma digits_value_wrap base acc ds : digits_value base (u64 acc) ds `mod` 2 ^ 64 = digits_value base acc ds `mod` 2 ^ 64.
Proof.
  revert acc. induction ds as [|d ds IH]; intros acc; simpl; [apply wrap_wrap|].
  rewrite <- IH, <- (IH (acc * base + d)). do 2 f_equal. unfold wrap.
  by rewrite <- Zplus_mod_idemp_l, Zmult_mod_idemp_l, Zplus_mod_idemp_l.
Qed.

Lemma strtoul_digits_spec fuel m a base acc ds c :
  base <= 36 -> in_width 64 acc -> Forall (fun d => 0 <= d < base) ds ->
  at_mem m a (map digit_char ds ++ [c]) -> digit_value c >= base -> (length ds < fuel)%nat ->
  strtoul_digits fuel m a base acc = Some (u64 (digits_value base acc ds), a + Z.of_nat (length ds)).
Proof.
  intros Hb. revert fuel a acc. induction ds as [|d ds IH]; intros [|fuel] a acc Hw Hd Hm Hc Hf;
    simpl in Hf; try lia; simpl in Hm; apply at_mem_cons in Hm as [E Hm]; cbn [strtoul_digits]; rewrite E.
  - rewrite decide_True by done. cbn. rewrite wrap_small by done. do 2 f_equal. lia.
  - apply Forall_cons in Hd as [Hd Hds]. rewrite digit_value_char by lia. rewrite decide_False by lia.
    rewrite IH; [|by apply wrap_bound|done..|lia]. simpl. unfold wrap at 1 3. rewrite digits_value_wrap. do 2 f_equal. lia.
Qed.

Lemma skip_space_spec fuel m a sp c :
  Forall (fun c => isspace c = true) sp -> at_mem m a (sp ++ [c]) -> isspace c = false -> (length sp < fuel)%nat ->
  skip_space fuel m a = Some (a + Z.of_nat (length sp)).
Proof.
  revert fuel a. induction sp as [|s sp IH]; intros [|fuel] a Hsp Hm Hc Hf; simpl in Hf; try lia;
    simpl in Hm; apply at_mem_cons in Hm as [E Hm]; cbn [skip_space]; rewrite E.
  - rewrite Hc. f_equal. simpl. lia.
  - apply Forall_cons in Hsp as [-> Hsp]. rewrite IH by (done || lia). f_equal. simpl. lia.
Qed.

(** [strtoul] with an explicit base skips white space and a sign, converts
    the longest run of digits of that base and returns its value modulo
    [2 ^ 64] (negated when the sign was a minus) and a pointer to the first
    character after the digits. *)
Lemma strtoul_spec_gen fuel m a base sp negate ds c :
  2 <= base <= 36 -> Forall (fun c => isspace c = true) sp -> Forall (fun d => 0 <= d < base) ds ->
  at_mem m a (sp ++ (if negate : bool then [45] else []) ++ map digit_char ds ++ [c]) ->
  digit_value c >= base -> (ds = [] -> isspace c = false /\ c <> 45 /\ c <> 43) ->
  (length sp + length ds < fuel)%nat ->
  strtoul fuel m a base
  = Some (u64 ((if negate then -1 else 1) * digits_value base 0 ds),
          a + Z.of_nat (length sp + (if negate then 1 else 0) + length ds)).
Proof.
  intros Hb Hsp Hds Hm Hc Hcs Hf. unfold strtoul, strtoul_pre.
  assert (forall d, 0 <= d < base -> isspace (digit_char d) = false /\ digit_char d <> 45 /\ digit_char d <> 43) as Hch.
  { intros d Hd. unfold digit_char, isspace. case_decide; split_and!; try lia; rewrite !bool_decide_false by lia; done. }
  assert (exists c0 l0, (if negate then [45] else []) ++ map digit_char ds ++ [c] = c0 :: l0 /\ isspace c0 = false /\
            (if negate then c0 = 45 else c0 <> 45 /\ c0 <> 43)) as (c0 & l0 & E0 & Hs0 & Hn0).
  { destruct negate; [by eexists _, _|]. destruct ds as [|d ds]; [destruct (Hcs eq_refl) as (? & ? & ?); by eexists _, _|].
    apply Forall_cons in Hds as [Hd _]. destruct (Hch d Hd) as (? & ? & ?). by eexists _, _. }
  pose proof Hm as Hm'. rewrite E0 in Hm'. rewrite (app_assoc sp [c0] l0 : sp ++ c0 :: l0 = _) in Hm'.
  apply at_mem_app in Hm' as [Hm1 _]. rewrite (skip_space_spec _ _ _ sp c0) by (done || lia).
  apply at_mem_app in Hm1 as [_ [Hc0 _]%at_mem_cons]. apply at_mem_app in Hm as [_ Hm].
  set (p := a + Z.of_nat (length sp)) in *. rewrite Hc0.
  assert (in_width 64 0) by done. destruct negate.
  - subst c0. rewrite decide_True by done. cbv beta iota. rewrite decide_False by lia. apply at_mem_cons in Hm as [_ Hm]. fold (map digit_char ds ++ [c]) in Hm.
    rewrite (strtoul_digits_spec _ _ _ _ _ ds c) by (done || lia). f_equal. f_equal; [|lia].
    unfold wrap. by rewrite <- Z.sub_0_l, Zminus_mod_idemp_r.
  - destruct Hn0 as [Hn1 Hn2]. rewrite !decide_False by done. cbv beta iota. rewrite decide_False by lia. simpl in Hm.
    rewrite (strtoul_digits_spec _ _ _ _ _ ds c) by (done || lia). f_equal. f_equal; [|lia]. f_equal. lia.
Qed.

Lemma strtoul_spec fuel m a base sp negate ds c :
  2 <= base <= 36 -> Forall (fun c => isspace c = true) sp -> Forall (fun d => 0 <= d < base) ds ->
  at_mem m a (sp ++ (if negate : bool then [45] else []) ++ map digit_char ds ++ [c]) ->
  digit_value c >= base -> isspace c = false -> c <> 45 -> c <> 43 ->
  (length sp + length ds < fuel)%nat ->
  strtoul fuel m a base
  = Some (u64 ((if negate then -1 else 1) * digits_value base 0 ds),
          a + Z.of_nat (length sp + (if negate then 1 else 0) + length ds)).
Proof. intros. apply (strtoul_spec_gen _ _ _ _ sp negate ds c); auto. Qed.

(** [strtoul] of a string, with the rest of the string; the fuel is enough
    for its length. *)
Definition strtoul_string (value : list Z) (base : Z) : Z * list Z :=
  match strtoul (length value + 3) (mem_of (value ++ [0])) 0 base with
  | Some (v, end_) => (v, drop (Z.to_nat end_) value)
  | None => (0, value)
  end.

(** The fuel is enough. *)
Lemma skip_space_total fuel m a n :
  (forall i, n <= i -> m i = 0) -> (Z.to_nat (n - a) < fuel)%nat -> exists b, skip_space fuel m a = Some b /\ a <= b.
Proof.
  intros Hz. revert a. induction fuel as [|fuel IH]; intros a Hf; [lia|]. cbn [skip_space]. destruct (isspace (m a)) eqn:E; [|exists a; split; [done|lia]].
  destruct (decide (n <= a)) as [Hn|Hn]; [by rewrite Hz in E|]. destruct (IH (a + 1)) as (b & -> & Hb); [lia|]. exists b. split; [done|lia].
Qed.

Lemma strtoul_digits_total fuel m a base v n :
  (forall i, n <= i -> m i = 0) -> base <= 36 -> (Z.to_nat (n - a) < fuel)%nat -> is_Some (strtoul_digits fuel m a base v).
Proof.
  intros Hz Hb. revert a v. induction fuel as [|fuel IH]; intros a v Hf; [lia|]. cbn [strtoul_digits]. case_decide as Hd; [done|].
  destruct (decide (n <= a)) as [Hn|Hn]; [rewrite Hz in Hd by done; change (digit_value 0) with 4294967248 in Hd; lia|]. apply IH. lia.
Qed.

Lemma strtoul_total fuel m n base : (forall i, n <= i -> m i = 0) -> base <= 36 -> (Z.to_nat n < fuel)%nat -> is_Some (strtoul fuel m 0 base).
Proof.
  intros Hz Hb Hf. unfold strtoul, strtoul_pre. destruct (skip_space_total fuel m 0 n Hz ltac:(lia)) as (b & -> & Hle).
  assert (forall a bs v, 0 <= a -> bs <= 36 -> is_Some (strtoul_digits fuel m a bs v)) as Ht by (intros; apply (strtoul_digits_total _ _ _ _ _ n); (done || lia)).
  assert (forall a (neg : bool) bs, 0 <= a -> bs <= 36 ->
    is_Some (match strtoul_digits fuel m a bs 0 with Some (value, s) => Some (if neg then u64 (- value) else value, s) | None => None end)) as Hd.
  { intros a neg bs Ha Hbs. destruct (Ht a bs 0 Ha Hbs) as [[v s] ->]. done. }
  repeat case_decide; (refine (Hd _ true _ _ _) || refine (Hd _ false _ _ _)); lia.
Qed.

Lemma strtoul_string_total value base : base <= 36 -> is_Some (strtoul (length value + 3) (mem_of (value ++ [0])) 0 base).
Proof.
  intros Hb. apply (strtoul_total _ _ (Z.of_nat (length value) + 1)); [|done|lia]. intros i Hi. unfold mem_of, memcpy. rewrite length_app. cbn. by rewrite decide_False by lia.
Qed.

(** Digits alone. *)
Lemma strtoul_string_digits base ds :
  2 <= base <= 36 -> Forall (fun d => 0 <= d < base) ds -> strtoul_string (map digit_char ds) base = (u64 (digits_value base 0 ds), []).
Proof.
  intros Hb Hds. unfold strtoul_string. assert (at_mem (mem_of (map digit_char ds ++ [0])) 0 (map digit_char ds ++ [0])) as Hm by apply (mload_memcpy (fun _ => 0) 0).
  rewrite (strtoul_spec_gen _ _ 0 base [] false ds 0); [|done|by apply Forall_nil_2|done|exact Hm|change (digit_value 0) with 4294967248; lia|done|cbn [length]; rewrite length_map; lia].
  rewrite Z.mul_1_l. f_equal. apply drop_ge. rewrite length_map. cbn [length]. lia.
Qed.

(** ** Properties *)

(** [generic_memmove] copies correctly however the regions overlap: after
    it, every byte of the destination is what the corresponding source byte
    was before, and every other byte is unchanged. *)
Theorem generic_memmove_correct m dest src len x :
  generic_memmove m dest src len x = memmove m dest src (Z.of_nat len) x.
Proof.
  unfold generic_memmove. case_decide; [apply generic_memcpy_spec; lia|apply generic_memcpy_reverse_spec; lia].
Qed.

(** [strcmp] compares NUL-terminated strings: it terminates, returns zero
    exactly on equal strings and a negative value exactly when the first is
    lexicographically smaller as a string of unsigned bytes. *)
Theorem strcmp_correct fuel m a b s1 s2 :
  mem_ok m -> cstr m a s1 -> cstr m b s2 -> Z.of_nat (length s1) < 2 ^ 64 - 1 -> (length s1 < fuel)%nat ->
  exists d, strcmp fuel m a b = Some d /\ (d = 0 <-> s1 = s2) /\ (d < 0 <-> lex_lt s1 s2).
Proof. intros. by apply strncmp_spec. Qed.

Lemma cstr_of l s a :
  mload (mem_of l) a (length (s ++ [0])) = s ++ [0] -> Forall (fun c => c <> 0) s -> cstr (mem_of l) a s.
Proof. by split. Qed.

Lemma strcmp_correct_witness :
  exists d, strcmp 9 (mem_of [97; 98; 0; 97; 99; 0]) 0 3 = Some d /\ d < 0.
Proof.
  destruct (strcmp_correct 9 (mem_of [97; 98; 0; 97; 99; 0]) 0 3 [97; 98] [97; 99]) as (d & E & _ & H).
  - apply mem_of_ok. repeat constructor; simpl; lia.
  - apply cstr_of; [reflexivity|by repeat constructor].
  - apply cstr_of; [reflexivity|by repeat constructor].
  - reflexivity.
  - simpl. lia.
  - exists d. split; [exact E|]. apply H. simpl. lia.
Defined.

(** [strstr] finds the first occurrence of a non-empty needle, or returns
    NULL when there is none; it terminates, and although it compares
    [strlen ( needle )] bytes at every position its result does not depend on
    anything behind the terminator of the haystack. *)
Theorem strstr_correct fuel m h n s l :
  cstr m h s -> cstr m n l -> l <> [] -> Z.of_nat (length l) < 2 ^ 64 ->
  (length s < fuel)%nat -> (length l < fuel)%nat ->
  match strstr fuel m h n with
  | Some (Some p) => exists i, p = h + Z.of_nat i /\ occurs_at s l i /\ forall j, (j < i)%nat -> ~ occurs_at s l j
  | Some None => forall i, ~ occurs_at s l i
  | None => False
  end.
Proof.
  intros Hs [Hl1 Hl2] Hne Hw Hf1 Hf2. unfold strstr. rewrite (strlen_spec _ _ _ l) by done.
  rewrite Nat2Z.id. apply at_mem_app in Hl1 as [Hl1 _].
  pose proof (strstr_loop_spec fuel m h n s l Hs Hl1 Hl2 Hf1) as H.
  destruct (strstr_loop fuel m h n (length l)) as [[p|]|]; [| |done].
  - destruct H as (i & ? & _ & ? & ?). by exists i.
  - intros i Hi. destruct (decide (i < length s)%nat); [by eapply H|].
    destruct Hi as [t E]. rewrite drop_ge in E by lia. by destruct l.
Qed.

Lemma strstr_correct_witness :
  strstr 9 (mem_of [97; 98; 97; 99; 0; 97; 99; 0]) 0 5 = Some (Some 2) /\ occurs_at [97; 98; 97; 99] [97; 99] 2.
Proof.
  pose proof (strstr_correct 9 (mem_of [97; 98; 97; 99; 0; 97; 99; 0]) 0 5 [97; 98; 97; 99] [97; 99]
    ltac:(apply cstr_of; [reflexivity|by repeat constructor]) ltac:(apply cstr_of; [reflexivity|by repeat constructor])
    ltac:(done) ltac:(done) ltac:(simpl; lia) ltac:(simpl; lia)) as H.
  assert (strstr 9 (mem_of [97; 98; 97; 99; 0; 97; 99; 0]) 0 5 = Some (Some 2)) as E by (vm_compute; reflexivity).
  split; [exact E|]. rewrite E in H. destruct H as (i & Hi & Ho & _). by assert (i = 2%nat) as -> by lia.
Defined.

