(* ===== verification/Getopt.v ===== *)
(** * Command line options (core/getopt.c, core/parseopt.c)

    Arguments are C strings, as the lists of their characters without the
    terminator; reading a string at its length reads the terminator.  Messages
    to the user are left out.  The options structure of a command is of any
    type [O]; the parser of an option updates it.

    The theorems: options spelled in any of the forms of the syntax are parsed
    to the values they were written with, in order ([reparse_options_correct]),
    and parsing ends with an index inside the arguments whatever they are
    ([reparse_options_terminates]). *)

From S2P Require Import Prelude CMem Strings.

Definition no_argument : nat := 0.
Definition required_argument : nat := 1.
Definition optional_argument : nat := 2.

(** A long option; [flag] is the variable to store the value into, if any. *)
Record option_spec := Option {
  name : list Z;
  has_arg : nat;
  flag : option nat;
  val : Z;
}.

(** The global state of the parser, with the variables of the flags. *)
Record getopt_state := Getopt {
  optarg : option (list Z);
  optind : nat;
  nextchar : nat;
  optopt : Z;
  flags : nat -> Z;
}.

Definition reset_getopt (g : getopt_state) : getopt_state := Getopt (optarg g) 1 0 (optopt g) (flags g).

Definition set_optarg (a : option (list Z)) (g : getopt_state) : getopt_state :=
  Getopt a (optind g) (nextchar g) (optopt g) (flags g).
Definition set_index (i n : nat) (g : getopt_state) : getopt_state :=
  Getopt (optarg g) i n (optopt g) (flags g).
Definition set_optopt (c : Z) (g : getopt_state) : getopt_state :=
  Getopt (optarg g) (optind g) (nextchar g) c (flags g).
Definition set_flag (f : nat) (v : Z) (g : getopt_state) : getopt_state :=
  Getopt (optarg g) (optind g) (nextchar g) (optopt g) (fun f' => if decide (f' = f) then v else flags g f').

Definition get_argv_argument (argv : list (list Z)) (g : getopt_state) : option (list Z) * getopt_state :=
  match argv !! optind g with
  | None => (None, g)
  | Some arg =>
    if decide (get8 arg 0 = 45) then (None, g)
    else (Some arg, set_index (S (optind g)) (nextchar g) g)
  end.

(** The option to return, when there is a match. *)
Definition match_long_option (argv : list (list Z)) (opttext : list Z) (longopt : option_spec) (g : getopt_state) :
    option (Z * getopt_state) :=
  let optlen := length (name longopt) in
  if decide (take optlen opttext <> name longopt) then None else
  if decide (get8 opttext optlen <> 61 /\ get8 opttext optlen <> 0) then None else
  let argument := if decide (get8 opttext optlen = 61) then Some (drop (S optlen) opttext) else None in
  let g := set_index (S (optind g)) (nextchar g) g in
  let '(argument, g) :=
    if decide (has_arg longopt <> no_argument /\ argument = None) then get_argv_argument argv g else (argument, g) in
  if decide (has_arg longopt = required_argument /\ argument = None) then Some (58, g) else
  if decide (has_arg longopt = no_argument /\ argument <> None) then Some (58, g) else
  let g := set_optarg argument g in
  match flag longopt with
  | Some f => Some (0, set_flag f (val longopt) g)
  | None => Some (val longopt, g)
  end.

Definition match_short_option (argv : list (list Z)) (opttext : list Z) (shortopt : Z) (has_arg : nat) (g : getopt_state) :
    option (Z * getopt_state) :=
  if decide (get8 opttext 0 <> shortopt) then None else
  let opttext := drop 1 opttext in
  let g := set_index (optind g) (S (nextchar g)) g in
  let '(argument, g) :=
    if decide (get8 opttext 0 <> 0) then
      if decide (has_arg <> no_argument) then (Some opttext, set_index (S (optind g)) 0 g) else (None, g)
    else (None, set_index (S (optind g)) 0 g) in
  let '(argument, g) :=
    if decide (has_arg <> no_argument /\ argument = None) then get_argv_argument argv g else (argument, g) in
  if decide (has_arg = required_argument /\ argument = None) then Some (58, g) else
  Some (shortopt, set_optarg argument g).

Fixpoint long_loop (argv : list (list Z)) (opttext : list Z) (longopts : list option_spec) (g : getopt_state) :
    option (Z * getopt_state) :=
  match longopts with
  | [] => None
  | longopt :: longopts =>
    match match_long_option argv opttext longopt g with
    | Some r => Some r
    | None => long_loop argv opttext longopts g
    end
  end.

Fixpoint count_colons (optstring : list Z) : nat :=
  match optstring with
  | c :: optstring => if decide (c = 58) then S (count_colons optstring) else 0
  | [] => 0
  end.

(** A colon that was counted for the character before it is skipped. *)
Fixpoint short_loop (argv : list (list Z)) (opttext : list Z) (skip : nat) (optstring : list Z) (g : getopt_state) :
    option (Z * getopt_state) :=
  match optstring with
  | [] => None
  | shortopt :: optstring =>
    match skip with
    | S skip => short_loop argv opttext skip optstring g
    | O =>
      let has_arg := count_colons optstring in
      match match_short_option argv opttext shortopt has_arg g with
      | Some r => Some r
      | None => short_loop argv opttext has_arg optstring g
      end
    end
  end.

Definition getopt_long (argv : list (list Z)) (optstring : list Z) (longopts : list option_spec) (g : getopt_state) :
    Z * getopt_state :=
  match argv !! optind g with
  | None => (-1, g)
  | Some arg =>
    if decide (get8 arg 0 <> 45) then (-1, g) else
    if decide (get8 arg 1 = 45) then
      let opttext := drop 2 arg in
      if decide (get8 opttext 0 = 0) then (-1, set_index (S (optind g)) (nextchar g) g) else
      match long_loop argv opttext longopts g with
      | Some r => r
      | None => (63, set_optopt 63 g)
      end
    else
      let g := if decide (nextchar g < 1)%nat then set_index (optind g) 1 g else g in
      let opttext := drop (nextchar g) arg in
      match short_loop argv opttext 0 optstring g with
      | Some r => r
      | None => (63, set_optopt (get8 opttext 0) g)
      end
  end.

(** ** Options of commands *)

Section commands.
Context {O : Type}.

Record option_descriptor := OptionDesc {
  longopt : list Z;
  shortopt : Z;
  opt_has_arg : nat;
  parse : option (list Z) -> O -> result O;
}.

Record command_descriptor := CommandDesc {
  options : list option_descriptor;
  min_args : Z;
  max_args : Z;
}.

Definition longopts (cmd : command_descriptor) : list option_spec :=
  map (fun o => Option (longopt o) (opt_has_arg o) None (shortopt o)) (options cmd) ++ [Option (lit "help") 0 None 104].
Definition shortopts (cmd : command_descriptor) : list Z :=
  concat (map (fun o => shortopt o :: replicate (opt_has_arg o) 58) (options cmd)) ++ [104].

Fixpoint parse_option (c : Z) (optarg : option (list Z)) (l : list option_descriptor) (opts : O) : result O :=
  match l with
  | [] => Ok opts
  | o :: l => if decide (c <> shortopt o) then parse_option c optarg l opts else parse o optarg opts
  end.

Fixpoint options_loop (fuel : nat) (argv : list (list Z)) (cmd : command_descriptor) (opts : O) (g : getopt_state) :
    option (result O * getopt_state) :=
  match fuel with
  | 0%nat => None
  | S fuel =>
    let '(c, g) := getopt_long argv (shortopts cmd) (longopts cmd) g in
    if decide (c < 0) then Some (Ok opts, g)
    else if decide (c = 104) then Some (Err ECANCELED, g)
    else if decide (c = 63) then Some (Err EINVAL, g)
    else if decide (c = 58) then Some (Err EINVAL, g)
    else match parse_option c (optarg g) (options cmd) opts with
         | Err e => Some (Err e, g)
         | Ok opts => options_loop fuel argv cmd opts g
         end
  end.

Definition reparse_options (fuel : nat) (argv : list (list Z)) (cmd : command_descriptor) (opts : O) (g : getopt_state) :
    option (result O * getopt_state) :=
  match options_loop fuel argv cmd opts g with
  | None => None
  | Some (Err e, g) => Some (Err e, g)
  | Some (Ok opts, g) =>
    let num_args := u32 (Z.of_nat (length argv) - Z.of_nat (optind g)) in
    if decide (num_args < min_args cmd \/ num_args > max_args cmd) then Some (Err ERANGE, g) else Some (Ok opts, g)
  end.

(** [zero] is the options structure with every byte zero. *)
Definition parse_options (fuel : nat) (argv : list (list Z)) (cmd : command_descriptor) (zero : O) (g : getopt_state) :
    option (result O * getopt_state) := reparse_options fuel argv cmd zero g.
End commands.
Arguments option_descriptor : clear implicits.
Arguments command_descriptor : clear implicits.

(** ** Parsing ends

    The characters that are still to be read bound the number of options. *)

Section termination.
Context (argv : list (list Z)).

Definition unread (i : nat) : nat := foldr (fun arg n => S (length arg + n)) 0%nat (drop i argv).
Definition measure (g : getopt_state) : nat := (unread (optind g) - nextchar g)%nat.

(** The indices are inside the arguments. *)
Definition inside (g : getopt_state) : Prop :=
  (optind g <= length argv)%nat /\ (nextchar g <= length (nth (optind g) argv []))%nat /\
  (nextchar g <> 0%nat -> get8 (nth (optind g) argv []) 1 <> 45).

Lemma unread_S i arg : argv !! i = Some arg -> unread i = S (length arg + unread (S i)).
Proof. intros H. unfold unread. by rewrite (drop_S _ _ _ H). Qed.

Lemma nth_arg i arg : argv !! i = Some arg -> nth i argv [] = arg.
Proof. intros H. by rewrite nth_lookup, H. Qed.

(** A step from [g] to a later argument. *)
Definition later (g g' : getopt_state) : Prop := inside g' /\ (measure g' < measure g)%nat.

Lemma later_index g g' :
  inside g -> (optind g < length argv)%nat -> (optind g < optind g')%nat -> (optind g' <= length argv)%nat ->
  nextchar g' = 0%nat -> later g g'.
Proof.
  intros (_ & Hn & _) Hlt Hi Hle H0. split; [split_and!; [done|lia|done]|]. unfold measure. rewrite H0.
  destruct (lookup_lt_is_Some_2 argv (optind g) Hlt) as [arg Ha]. rewrite (nth_arg _ _ Ha) in Hn. rewrite (unread_S _ _ Ha).
  assert (forall k, (unread (k + S (optind g)) <= unread (S (optind g)))%nat) as Hk.
  { induction k as [|k IH]; [done|]. destruct (argv !! (k + S (optind g))%nat) as [a|] eqn:Hl.
    - rewrite (unread_S _ _ Hl) in IH. simpl. lia.
    - simpl. unfold unread in *. rewrite !(drop_ge argv) in * by (apply lookup_ge_None in Hl; lia). done. }
  specialize (Hk (optind g' - S (optind g))%nat). rewrite Nat.sub_add in Hk by lia. lia.
Qed.

Lemma get_argv_argument_index g argument g' :
  get_argv_argument argv g = (argument, g') -> (optind g <= length argv)%nat ->
  (optind g <= optind g' <= length argv)%nat /\ nextchar g' = nextchar g.
Proof.
  unfold get_argv_argument. destruct (argv !! optind g) as [arg|] eqn:Ha; intros H Hle; [|by simplify_eq].
  apply lookup_lt_Some in Ha. case_decide; simplify_eq/=; lia.
Qed.

Lemma match_long_option_later opttext longopt g c g' :
  inside g -> (optind g < length argv)%nat -> nextchar g = 0%nat ->
  match_long_option argv opttext longopt g = Some (c, g') -> later g g'.
Proof.
  intros Hi Hlt H0. unfold match_long_option. cbv zeta. destruct (decide _); [done|]. destruct (decide _); [done|].
  set (a := if decide _ then _ else None). clearbody a. destruct (if decide _ then _ else _) as [argument g1] eqn:Hg.
  assert (optind g < optind g1 <= length argv /\ nextchar g1 = 0)%nat as [Hb Hz].
  { destruct (decide _) in Hg; [apply get_argv_argument_index in Hg; cbn [set_index optind nextchar] in *; lia|]. injection Hg as <- <-. simpl. lia. }
  clear Hg. assert (forall x, later g (set_optarg x g1)) as Hl by (intros; by apply later_index; simpl; try lia).
  repeat destruct (decide _); intros H; simplify_eq; [by apply later_index; try lia..|].
  destruct (flag longopt); simplify_eq; [|done]. by apply later_index; simpl; try lia.
Qed.

Lemma match_short_option_later opttext shortopt has_arg g c g' :
  inside g -> opttext = drop (nextchar g) (nth (optind g) argv []) -> (optind g < length argv)%nat -> get8 (nth (optind g) argv []) 1 <> 45 ->
  match_short_option argv opttext shortopt has_arg g = Some (c, g') -> later g g'.
Proof.
  intros Hi -> Hlt Hs. unfold match_short_option. cbv zeta. destruct (decide (get8 _ 0 <> shortopt)) as [|Hc%dec_stable]; [done|].
  rewrite drop_drop. set (arg := nth (optind g) argv []) in *.
  destruct (if decide (get8 (drop (nextchar g + 1) arg) 0 <> 0) then _ else _) as [a1 g1] eqn:H1.
  assert ((g1 = set_index (optind g) (S (nextchar g)) g /\ (S (nextchar g) < length arg)%nat /\ has_arg = no_argument) \/
    (optind g1 = S (optind g) /\ nextchar g1 = 0%nat)) as Hg1.
  { destruct (decide _) as [Hne|He] in H1; [|injection H1 as <- <-; by right].
    destruct (decide _) as [Ha|Ha%dec_stable] in H1; injection H1 as <- <-; [by right|left]. split_and!; [done| |done].
    destruct (decide (S (nextchar g) < length arg)%nat); [done|]. rewrite drop_ge in Hne by lia. done. }
  destruct (if decide (has_arg <> no_argument /\ a1 = None) then _ else _) as [argument g2] eqn:H2.
  assert (later g g2) as Hl.
  { destruct (decide (has_arg <> no_argument /\ a1 = None)) as [[Hna _]|_].
    - destruct Hg1 as [(_ & _ & ?)|[Ho Hn]]; [done|]. apply get_argv_argument_index in H2; [|lia]. apply later_index; lia || done.
    - injection H2 as <- <-. destruct Hg1 as [(-> & Hlen & _)|[Ho Hn]]; [|by apply later_index; try lia].
      split; [split_and!; simpl; [lia|fold arg; lia|done]|]. unfold measure. simpl.
      destruct (lookup_lt_is_Some_2 argv (optind g) Hlt) as [x Hx]. rewrite (unread_S _ _ Hx).
      unfold arg in Hlen. rewrite (nth_arg _ _ Hx) in Hlen. lia. }
  clear H1 H2 Hg1. destruct (decide _); intros H; simplify_eq; [done|]. destruct Hl as [(? & ? & ?) ?]. split; [split_and!|]; done.
Qed.

Lemma long_loop_later opttext longopts g c g' :
  inside g -> (optind g < length argv)%nat -> nextchar g = 0%nat ->
  long_loop argv opttext longopts g = Some (c, g') -> later g g'.
Proof.
  intros Hi Hlt H0. induction longopts as [|o l IH]; simpl; [done|].
  destruct (match_long_option argv opttext o g) as [[c' g1]|] eqn:Hm; [|done]. intros [= <- <-]. by eapply match_long_option_later.
Qed.

Lemma short_loop_later opttext skip optstring g c g' :
  inside g -> opttext = drop (nextchar g) (nth (optind g) argv []) -> (optind g < length argv)%nat -> get8 (nth (optind g) argv []) 1 <> 45 ->
  short_loop argv opttext skip optstring g = Some (c, g') -> later g g'.
Proof.
  intros Hi Ht Hlt Hs. revert skip. induction optstring as [|x l IH]; intros skip; simpl; [done|]. destruct skip; [|apply IH].
  destruct (match_short_option _ _ _ _ _) as [[c' g1]|] eqn:Hm; [|apply IH]. intros [= <- <-]. by eapply match_short_option_later.
Qed.

(** Either an option was consumed, or the arguments are exhausted or wrong. *)
Lemma getopt_long_later optstring longopts g c g' :
  inside g -> getopt_long argv optstring longopts g = (c, g') ->
  (optind g' <= length argv)%nat /\ (c = -1 \/ c = 63 \/ later g g').
Proof.
  intros Hi. unfold getopt_long. destruct (argv !! optind g) as [arg|] eqn:Ha.
  2:{ intros [= <- <-]. destruct Hi. auto. }
  pose proof (lookup_lt_Some _ _ _ Ha) as Hlt. pose proof (nth_arg _ _ Ha) as Hn.
  destruct (decide _); [intros [= <- <-]; split; [lia|auto]|].
  assert (forall g0, later g g0 -> (optind g0 <= length argv)%nat) as Hle by (by intros g0 [[? _] _]).
  destruct (decide (get8 arg 1 = 45)) as [Hd|Hd].
  - destruct (decide _); [intros [= <- <-]; simpl; split; [lia|auto]|].
    assert (nextchar g = 0%nat) as H0.
    { destruct Hi as (_ & _ & Hi). rewrite Hn in Hi. destruct (decide (nextchar g = 0%nat)); [done|]. by destruct Hi. }
    destruct (long_loop _ _ _ _) as [[c1 g1]|] eqn:Hl; intros [= <- <-]; [|simpl; split; [lia|auto]].
    apply long_loop_later in Hl; auto.
  - set (g1 := if decide (nextchar g < 1)%nat then _ else g). destruct Hi as (Hi1 & Hi2 & Hi3). rewrite Hn in Hi2, Hi3.
    assert (inside g1 /\ optind g1 = optind g /\ (measure g1 <= measure g)%nat) as (Hi & Ho & Hm).
    { unfold g1. unfold inside. case_decide; [|by rewrite Hn]. unfold measure. cbn [set_index optind nextchar]. rewrite Hn.
      split_and!; try lia; try done. destruct arg; [done|simpl; lia]. }
    destruct (short_loop _ _ _ _ _) as [[c1 g2]|] eqn:Hl; intros [= <- <-]; [|simpl; split; [lia|auto]].
    apply short_loop_later in Hl as [Hl1 Hl2]; [|done|by rewrite Ho, Hn|lia|by rewrite Ho, Hn].
    assert (later g g2) by (split; [done|lia]). auto.
Qed.

Lemma options_loop_ends {O} fuel (cmd : command_descriptor O) opts g :
  inside g -> (measure g < fuel)%nat ->
  exists r g', options_loop fuel argv cmd opts g = Some (r, g') /\ (optind g' <= length argv)%nat.
Proof.
  revert opts g. induction fuel as [|fuel IH]; intros opts g Hi Hm; [lia|]. simpl.
  destruct (getopt_long _ _ _ g) as [c g1] eqn:Hg. apply getopt_long_later in Hg as [Hle Hc]; [|done].
  destruct (decide (c < 0)); [eauto|]. destruct (decide (c = 104)); [eauto|]. destruct (decide (c = 63)); [eauto|].
  destruct (decide (c = 58)); [eauto|]. destruct Hc as [?|[?|[Hi1 Hm1]]]; [lia..|].
  destruct (parse_option _ _ _ _); [|eauto]. apply IH; [done|lia].
Qed.
End termination.

(** Option parsing ends for all arguments, with fuel for their
    characters.  The index is then inside the arguments, and when the options
    are accepted, the number of arguments after them is in the range of the
    command. *)
Theorem reparse_options_terminates {O} fuel argv (cmd : command_descriptor O) opts g :
  argv <> [] -> Z.of_nat (length argv) < 2 ^ 32 -> (unread argv 1 < fuel)%nat ->
  exists r g', reparse_options fuel argv cmd opts (reset_getopt g) = Some (r, g') /\ (optind g' <= length argv)%nat /\
    (is_Ok r -> min_args cmd <= Z.of_nat (length argv - optind g') <= max_args cmd).
Proof.
  intros Hne Hlen Hf. unfold reparse_options.
  destruct (options_loop_ends argv fuel cmd opts (reset_getopt g)) as (r & g' & -> & Hle).
  { split_and!; simpl; [destruct argv; [done|simpl; lia]|lia|done]. }
  { unfold measure. simpl. lia. }
  destruct r as [o|e]; [|by exists (Err e), g']. rewrite wrap_small by zlia. case_decide; eexists _, g'; (split; [done|]); (split; [done|]); [done|].
  intros _. lia.
Qed.

(** ** Options are parsed as they were written *)

(** [says mid uses ws args]: the words [ws] of a command line spell the options
    [uses], each with its value if it has one, and then the arguments [args].
    With [mid = Some chars], the words come after a group of short options of
    which [chars] is left.  The value of an option is written after an equals
    sign or right after a short option, or is the next word, which must not
    look like an option; an optional value can be left out where no such word
    follows. *)
Inductive says {O} (cmd : command_descriptor O) :
    option (list Z) -> list (option_descriptor O * option (list Z)) -> list (list Z) -> list (list Z) -> Prop :=
  | says_arguments args : get8 (default [] (head args)) 0 <> 45 -> says cmd None [] args args
  | says_dashes args : says cmd None [] (lit "--" :: args) args
  | says_long_flag o uses ws args :
      o ∈ options cmd -> opt_has_arg o = no_argument ->
      says cmd None uses ws args -> says cmd None ((o, None) :: uses) ((lit "--" ++ longopt o) :: ws) args
  | says_long_inline o v uses ws args :
      o ∈ options cmd -> opt_has_arg o <> no_argument ->
      says cmd None uses ws args -> says cmd None ((o, Some v) :: uses) ((lit "--" ++ longopt o ++ lit "=" ++ v) :: ws) args
  | says_long_next o v uses ws args :
      o ∈ options cmd -> opt_has_arg o <> no_argument -> get8 v 0 <> 45 ->
      says cmd None uses ws args -> says cmd None ((o, Some v) :: uses) ((lit "--" ++ longopt o) :: v :: ws) args
  | says_long_omitted o uses ws args :
      o ∈ options cmd -> opt_has_arg o = optional_argument -> ws = [] \/ get8 (default [] (head ws)) 0 = 45 ->
      says cmd None uses ws args -> says cmd None ((o, None) :: uses) ((lit "--" ++ longopt o) :: ws) args
  | says_group chars uses ws args :
      says cmd (Some chars) uses ws args -> says cmd None uses ((lit "-" ++ chars) :: ws) args
  | says_short_flag o chars uses ws args :
      o ∈ options cmd -> opt_has_arg o = no_argument ->
      says cmd (Some chars) uses ws args -> says cmd (Some (shortopt o :: chars)) ((o, None) :: uses) ws args
  | says_short_last o uses ws args :
      o ∈ options cmd -> opt_has_arg o = no_argument ->
      says cmd None uses ws args -> says cmd (Some [shortopt o]) ((o, None) :: uses) ws args
  | says_short_inline o v uses ws args :
      o ∈ options cmd -> opt_has_arg o <> no_argument -> get8 v 0 <> 0 ->
      says cmd None uses ws args -> says cmd (Some (shortopt o :: v)) ((o, Some v) :: uses) ws args
  | says_short_next o v uses ws args :
      o ∈ options cmd -> opt_has_arg o <> no_argument -> get8 v 0 <> 45 ->
      says cmd None uses ws args -> says cmd (Some [shortopt o]) ((o, Some v) :: uses) (v :: ws) args
  | says_short_omitted o uses ws args :
      o ∈ options cmd -> opt_has_arg o = optional_argument -> ws = [] \/ get8 (default [] (head ws)) 0 = 45 ->
      says cmd None uses ws args -> says cmd (Some [shortopt o]) ((o, None) :: uses) ws args.

Definition name_ok (n : list Z) : Prop := n <> [] /\ Forall (fun c => c <> 0 /\ c <> 61) n.

(** The options of a command can be told apart. *)
Record options_ok {O} (cmd : command_descriptor O) : Prop := OptionsOk {
  long_names : Forall name_ok (map longopt (options cmd));
  long_distinct : NoDup (map longopt (options cmd) ++ [lit "help"]);
  short_names : Forall (fun c => 0 < c /\ c <> 45 /\ c <> 58 /\ c <> 63) (map shortopt (options cmd));
  short_distinct : NoDup (map shortopt (options cmd) ++ [104]);
}.

Lemma get8_app_r l l' i : get8 (l ++ l') (length l + i) = get8 l' i.
Proof. unfold get8. by rewrite app_nth2_plus. Qed.

(** A name matches only the text of its own option. *)
Lemma name_matches n1 n2 rest :
  name_ok n1 -> name_ok n2 -> rest = [] \/ (exists v, rest = 61 :: v) ->
  take (length n1) (n2 ++ rest) = n1 -> get8 (n2 ++ rest) (length n1) = 61 \/ get8 (n2 ++ rest) (length n1) = 0 -> n1 = n2.
Proof.
  intros [_ H1] [_ H2] Hr Ht Hg. destruct (Nat.lt_trichotomy (length n1) (length n2)) as [Hl|[Hl|Hl]].
  - unfold get8 in Hg. rewrite app_nth1 in Hg by done. rewrite Forall_forall in H2.
    destruct (H2 (nth (length n1) n2 0)); [by apply list_elem_of_In, nth_In|]. tauto.
  - rewrite Hl, take_app_length in Ht. done.
  - rewrite take_app_ge in Ht by lia. destruct Hr as [->|[v ->]].
    + rewrite take_nil, app_nil_r in Ht. subst. lia.
    + destruct (length n1 - length n2)%nat as [|k] eqn:Hk; [lia|]. rewrite <- Ht in H1. simpl in H1.
      apply Forall_app in H1 as [_ H1]. apply Forall_cons in H1 as [[_ ?] _]. done.
Qed.

Section written.
Context {O : Type} (cmd : command_descriptor O) (cmd_ok : options_ok cmd).

Definition spec (o : option_descriptor O) : option_spec := Option (longopt o) (opt_has_arg o) None (shortopt o).

Lemma match_long_option_other argv n1 h fl v n2 rest g :
  name_ok n1 -> name_ok n2 -> rest = [] \/ (exists v, rest = 61 :: v) -> n1 <> n2 ->
  match_long_option argv (n2 ++ rest) (Option n1 h fl v) g = None.
Proof.
  intros H1 H2 Hr Hne. unfold match_long_option. cbn [name]. destruct (decide (take _ _ <> _)) as [|Ht%dec_stable]; [done|].
  rewrite decide_True; [done|]. split; intros Hg; by destruct Hne; eapply name_matches; eauto.
Qed.

Lemma long_loop_find argv o rest g r :
  o ∈ options cmd -> rest = [] \/ (exists v, rest = 61 :: v) ->
  match_long_option argv (longopt o ++ rest) (spec o) g = Some r ->
  long_loop argv (longopt o ++ rest) (longopts cmd) g = Some r.
Proof.
  intros Ho Hr Hm. unfold longopts. pose proof (long_names _ cmd_ok) as Hn. pose proof (long_distinct _ cmd_ok) as Hd.
  assert (name_ok (longopt o)) as Hno by (rewrite Forall_map, Forall_forall in Hn; by apply Hn).
  induction (options cmd) as [|o' l IH]; [by apply elem_of_nil in Ho|]. simpl.
  apply Forall_cons in Hn as [Hn' Hn]. apply NoDup_cons in Hd as [Hx Hd].
  apply elem_of_cons in Ho as [<-|Ho]; [unfold spec in Hm; by rewrite Hm|].
  rewrite match_long_option_other; [by apply IH|done..|]. intros Heq. apply Hx. rewrite Heq. apply elem_of_app. left.
  by apply list_elem_of_fmap_2.
Qed.

Lemma short_loop_skip argv text k rest g :
  short_loop argv text k (replicate k 58 ++ rest) g = short_loop argv text 0 rest g.
Proof. induction k; simpl; auto. Qed.

Lemma count_colons_replicate k rest : get8 rest 0 <> 58 -> count_colons (replicate k 58 ++ rest) = k.
Proof.
  intros Hr. induction k as [|k IH]; simpl; [|by rewrite IH]. destruct rest as [|c rest]; [done|]. simpl. by rewrite decide_False.
Qed.

Lemma short_loop_find argv o text g r :
  o ∈ options cmd -> get8 text 0 = shortopt o -> match_short_option argv text (shortopt o) (opt_has_arg o) g = Some r ->
  short_loop argv text 0 (shortopts cmd) g = Some r.
Proof.
  intros Ho Ht Hm. unfold shortopts. pose proof (short_names _ cmd_ok) as Hn. pose proof (short_distinct _ cmd_ok) as Hd.
  induction (options cmd) as [|o' l IH]; [by apply elem_of_nil in Ho|]. simpl.
  apply Forall_cons in Hn as [Hn' Hn]. apply NoDup_cons in Hd as [Hx Hd].
  rewrite <- app_assoc, count_colons_replicate; cycle 1.
  { destruct l as [|o2 l]; [done|]. simpl. apply Forall_cons in Hn as [Hn _]. unfold get8. simpl. tauto. }
  apply elem_of_cons in Ho as [<-|Ho]; [by rewrite Hm|]. rewrite short_loop_skip. unfold match_short_option at 1.
  rewrite decide_True; [by apply IH|]. rewrite Ht. intros Heq. apply Hx. rewrite <- Heq. apply elem_of_app. left.
  by apply list_elem_of_fmap_2.
Qed.

Lemma lookup_middle {A} (pre : list A) x post : (pre ++ x :: post) !! length pre = Some x.
Proof. by rewrite lookup_app_r, Nat.sub_diag by lia. Qed.

Lemma lookup_middle_S {A} (pre : list A) x y post : (pre ++ x :: y :: post) !! S (length pre) = Some y.
Proof. rewrite lookup_app_r by lia. by replace (S (length pre) - length pre)%nat with 1%nat by lia. Qed.

Lemma option_names o :
  o ∈ options cmd -> name_ok (longopt o) /\ 0 < shortopt o /\ shortopt o <> 45 /\ shortopt o <> 58 /\ shortopt o <> 63 /\ shortopt o <> 104.
Proof.
  intros Ho. pose proof (long_names _ cmd_ok) as Hn. pose proof (short_names _ cmd_ok) as Hs.
  rewrite Forall_map, Forall_forall in Hn, Hs. destruct (Hs o Ho) as (? & ? & ? & ?). split_and!; [by apply Hn|done..|].
  intros He. pose proof (short_distinct _ cmd_ok) as (_ & Hd & _)%NoDup_app. apply (Hd 104); [|by left].
  rewrite <- He. by apply list_elem_of_fmap_2.
Qed.

Lemma getopt_long_is_long argv o rest g r :
  o ∈ options cmd -> rest = [] \/ (exists v, rest = 61 :: v) -> argv !! optind g = Some (45 :: 45 :: longopt o ++ rest) ->
  match_long_option argv (longopt o ++ rest) (spec o) g = Some r ->
  getopt_long argv (shortopts cmd) (longopts cmd) g = r.
Proof.
  intros Ho Hr Ha Hm. destruct (option_names o Ho) as [[Hne Hok] _]. unfold getopt_long. rewrite Ha.
  rewrite (decide_False (P := get8 _ 0 <> 45)) by (by intros []). rewrite (decide_True (P := get8 _ 1 = 45)) by done.
  change (drop 2 (45 :: 45 :: longopt o ++ rest)) with (longopt o ++ rest).
  rewrite (decide_False (P := get8 _ 0 = 0)); [by rewrite (long_loop_find _ _ _ _ _ Ho Hr Hm)|].
  destruct (longopt o); [done|]. by apply Forall_cons in Hok as [[? _] _].
Qed.

(** The parser is at the words [ws], perhaps after the start of a group of
    which [chars] is left. *)
Definition at_words (argv : list (list Z)) (mid : option (list Z)) (ws : list (list Z)) (g : getopt_state) : Prop :=
  match mid with
  | None => exists pre, argv = pre ++ ws /\ optind g = length pre /\ nextchar g = 0%nat
  | Some chars => exists pre front, argv = pre ++ (45 :: front ++ chars) :: ws /\ optind g = length pre /\
      (nextchar g = 0%nat /\ front = [] \/ nextchar g = S (length front)) /\ get8 (front ++ chars) 0 <> 45
  end.

Lemma getopt_long_is_short argv o chars ws g :
  o ∈ options cmd -> at_words argv (Some (shortopt o :: chars)) ws g ->
  exists pre front g1, argv = pre ++ (45 :: front ++ shortopt o :: chars) :: ws /\ optind g1 = length pre /\
    nextchar g1 = S (length front) /\ get8 (front ++ shortopt o :: chars) 0 <> 45 /\
    forall r, match_short_option argv (shortopt o :: chars) (shortopt o) (opt_has_arg o) g1 = Some r ->
      getopt_long argv (shortopts cmd) (longopts cmd) g = r.
Proof.
  intros Ho (pre & front & -> & Hi & Hc & H45). exists pre, front, (if decide (nextchar g < 1)%nat then set_index (optind g) 1 g else g).
  set (g1 := if decide (nextchar g < 1)%nat then _ else g).
  assert (optind g1 = length pre /\ nextchar g1 = S (length front)) as (H2 & H4).
  { unfold g1. destruct Hc as [[Hc ->]|Hc]; rewrite Hc; [rewrite decide_True by lia|rewrite decide_False by lia]; simpl; auto. }
  split_and!; [done..|]. intros r Hm. unfold getopt_long. rewrite Hi, lookup_middle.
  rewrite (decide_False (P := get8 _ 0 <> 45)) by (by intros []).
  rewrite (decide_False (P := get8 _ 1 = 45)) by done. cbv zeta. rewrite <- Hi. fold g1. rewrite H4.
  change (drop (S (length front)) (45 :: front ++ shortopt o :: chars)) with (drop (length front) (front ++ shortopt o :: chars)).
  rewrite drop_app_length. by rewrite (short_loop_find _ _ (shortopt o :: chars) _ _ Ho eq_refl Hm).
Qed.

(** The value of an option that is not written in the same word. *)
Definition value_after (argv : list (list Z)) (o : option_descriptor O) (g : getopt_state) : Z * getopt_state :=
  if decide (opt_has_arg o = no_argument) then (shortopt o, set_optarg None g) else
  let '(v, g) := get_argv_argument argv g in
  if decide (opt_has_arg o = required_argument /\ v = None) then (58, g) else (shortopt o, set_optarg v g).

Lemma match_long_bare argv o g :
  match_long_option argv (longopt o) (spec o) g = Some (value_after argv o (set_index (S (optind g)) (nextchar g) g)).
Proof.
  unfold match_long_option, value_after. cbn [spec name has_arg flag val].
  rewrite (decide_False (P := take _ _ <> _)) by (rewrite firstn_all; by intros []).
  assert (get8 (longopt o) (length (longopt o)) = 0) as H0 by (unfold get8; by rewrite nth_overflow). rewrite !H0.
  rewrite (decide_False (P := 0 <> 61 /\ 0 <> 0)) by lia. rewrite (decide_False (P := 0 = 61)) by done. cbv zeta.
  destruct (decide (opt_has_arg o = no_argument)) as [Ha|Ha].
  - rewrite Ha. rewrite !decide_False; [done|..]; by intros [].
  - rewrite (decide_True (P := opt_has_arg o <> no_argument /\ _)) by done. destruct (get_argv_argument _ _) as [v g'].
    destruct (decide (opt_has_arg o = required_argument /\ v = None)); [done|]. rewrite decide_False; [done|]. by intros [].
Qed.

Lemma match_long_inline argv (o : option_descriptor O) v g :
  opt_has_arg o <> no_argument ->
  match_long_option argv (longopt o ++ 61 :: v) (spec o) g = Some (shortopt o, set_optarg (Some v) (set_index (S (optind g)) (nextchar g) g)).
Proof.
  intros Ha. unfold match_long_option. cbn [spec name has_arg flag val].
  rewrite (decide_False (P := take _ _ <> _)) by (rewrite take_app_length; by intros []).
  assert (get8 (longopt o ++ 61 :: v) (length (longopt o)) = 61) as H0.
  { rewrite <- (Nat.add_0_r (length (longopt o))). by rewrite get8_app_r. }
  rewrite !H0. rewrite (decide_False (P := 61 <> 61 /\ 61 <> 0)) by lia. rewrite (decide_True (P := 61 = 61)) by done.
  rewrite decide_False by (by intros []). rewrite decide_False by (by intros []). rewrite decide_False by (by intros []).
  do 5 f_equal. rewrite cons_middle, app_assoc.
  replace (S (length (longopt o))) with (length (longopt o ++ [61])) by (rewrite length_app; simpl; lia). apply drop_app_length.
Qed.

Lemma match_short_bare argv (o : option_descriptor O) g :
  match_short_option argv [shortopt o] (shortopt o) (opt_has_arg o) g = Some (value_after argv o (set_index (S (optind g)) 0 g)).
Proof.
  unfold match_short_option, value_after. rewrite (decide_False (P := get8 _ 0 <> shortopt o)) by (by intros []).
  change (drop 1 [shortopt o]) with (@nil Z). rewrite (decide_False (P := get8 [] 0 <> 0)) by (by intros []). cbv zeta.
  cbn [set_index optind nextchar]. destruct (decide (opt_has_arg o = no_argument)) as [Ha|Ha].
  - rewrite Ha. rewrite !decide_False; [done|..]; by intros [].
  - rewrite (decide_True (P := opt_has_arg o <> no_argument /\ _)) by done. cbn [set_index optarg optopt flags].
    unfold set_index. cbn [optarg optind nextchar optopt flags]. match goal with |- context [get_argv_argument ?a ?b] => destruct (get_argv_argument a b) as [v g2] end. by case_decide.
Qed.

Lemma match_short_inline argv (o : option_descriptor O) v g :
  opt_has_arg o <> no_argument -> get8 v 0 <> 0 ->
  match_short_option argv (shortopt o :: v) (shortopt o) (opt_has_arg o) g = Some (shortopt o, set_optarg (Some v) (set_index (S (optind g)) 0 g)).
Proof.
  intros Ha Hv. unfold match_short_option. rewrite (decide_False (P := get8 _ 0 <> shortopt o)) by (by intros []).
  change (drop 1 (shortopt o :: v)) with v.
  rewrite (decide_True (P := get8 v 0 <> 0)) by done. rewrite (decide_True (P := opt_has_arg o <> no_argument)) by done.
  rewrite decide_False by (by intros []). rewrite decide_False by (by intros []). done.
Qed.

Lemma match_short_flag argv (o : option_descriptor O) chars g :
  opt_has_arg o = no_argument -> get8 chars 0 <> 0 ->
  match_short_option argv (shortopt o :: chars) (shortopt o) (opt_has_arg o) g =
    Some (shortopt o, set_optarg None (set_index (optind g) (S (nextchar g)) g)).
Proof.
  intros Ha Hv. unfold match_short_option. rewrite (decide_False (P := get8 _ 0 <> shortopt o)) by (by intros []).
  change (drop 1 (shortopt o :: chars)) with chars. rewrite (decide_True (P := get8 chars 0 <> 0)) by done. rewrite Ha.
  rewrite (decide_False (P := no_argument <> no_argument)) by (by intros []). rewrite decide_False by (by intros []).
  by rewrite decide_False by (by intros []).
Qed.

(** What follows an option decides about its value. *)
Lemma value_after_flag argv o ws g pre w :
  opt_has_arg o = no_argument -> argv = pre ++ w :: ws -> optind g = S (length pre) -> nextchar g = 0%nat ->
  exists g', value_after argv o g = (shortopt o, g') /\ optarg g' = None /\ at_words argv None ws g'.
Proof.
  intros Ha -> Hi Hc. unfold value_after. rewrite decide_True by done. eexists. split_and!; [done|done|]. exists (pre ++ [w]).
  rewrite <- app_assoc. split_and!; [done| |done]. rewrite length_app. simpl. lia.
Qed.

Lemma value_after_next argv o v ws g pre w :
  opt_has_arg o <> no_argument -> get8 v 0 <> 45 -> argv = pre ++ w :: v :: ws -> optind g = S (length pre) -> nextchar g = 0%nat ->
  exists g', value_after argv o g = (shortopt o, g') /\ optarg g' = Some v /\ at_words argv None ws g'.
Proof.
  intros Ha Hv -> Hi Hc. unfold value_after, get_argv_argument. rewrite decide_False by done. rewrite Hi, lookup_middle_S.
  rewrite (decide_False (P := get8 v 0 = 45)) by done. rewrite decide_False by (by intros []).
  eexists. split_and!; [done|done|]. exists (pre ++ [w; v]). rewrite <- app_assoc. split_and!; [done| |done]. rewrite length_app. simpl. lia.
Qed.

Lemma value_after_omitted argv o ws g pre w :
  opt_has_arg o = optional_argument -> ws = [] \/ get8 (default [] (head ws)) 0 = 45 -> argv = pre ++ w :: ws ->
  optind g = S (length pre) -> nextchar g = 0%nat ->
  exists g', value_after argv o g = (shortopt o, g') /\ optarg g' = None /\ at_words argv None ws g'.
Proof.
  intros Ha Hw -> Hi Hc. unfold value_after, get_argv_argument. rewrite Ha, decide_False by done.
  assert (match (pre ++ w :: ws) !! optind g with
          | None => (None, g)
          | Some arg => if decide (get8 arg 0 = 45) then (None, g) else (Some arg, set_index (S (optind g)) (nextchar g) g)
          end = (None, g)) as ->.
  { rewrite Hi. destruct ws as [|v ws].
    - rewrite lookup_ge_None_2; [done|]. rewrite length_app. simpl. lia.
    - rewrite lookup_middle_S. destruct Hw as [|Hw]; [done|]. by rewrite decide_True. }
  rewrite decide_False by (by intros []). eexists. split_and!; [done|done|]. exists (pre ++ [w]).
  rewrite <- app_assoc. split_and!; [done| |done]. rewrite length_app. simpl. lia.
Qed.

Lemma parse_option_found o v opts : o ∈ options cmd -> parse_option (shortopt o) v (options cmd) opts = parse o v opts.
Proof.
  intros Ho. pose proof (short_distinct _ cmd_ok) as (Hd & _)%NoDup_app.
  induction (options cmd) as [|o' l IH]; [by apply elem_of_nil in Ho|]. apply NoDup_cons in Hd as [Hx Hd]. simpl.
  apply elem_of_cons in Ho as [<-|Ho]; [by rewrite decide_False by (by intros [])|].
  rewrite decide_True; [by apply IH|]. intros He. apply Hx. rewrite <- He. by apply list_elem_of_fmap_2.
Qed.

(** The parsers of the options, one after the other. *)
Fixpoint parse_uses (uses : list (option_descriptor O * option (list Z))) (opts : O) : result O :=
  match uses with
  | [] => Ok opts
  | (o, v) :: uses => match parse o v opts with Ok opts => parse_uses uses opts | Err e => Err e end
  end.

(** A call of [getopt_long] that reads one option. *)
Definition reads_option (argv : list (list Z)) (g : getopt_state) (o : option_descriptor O) (v : option (list Z)) (mid : option (list Z))
    (ws : list (list Z)) : Prop :=
  exists g', getopt_long argv (shortopts cmd) (longopts cmd) g = (shortopt o, g') /\ optarg g' = v /\ at_words argv mid ws g'.

Lemma reads_long_bare argv o v ws ws' g :
  o ∈ options cmd -> at_words argv None ((lit "--" ++ longopt o) :: ws) g ->
  (forall pre g1, argv = pre ++ (lit "--" ++ longopt o) :: ws -> optind g1 = S (length pre) -> nextchar g1 = 0%nat ->
    exists g', value_after argv o g1 = (shortopt o, g') /\ optarg g' = v /\ at_words argv None ws' g') ->
  reads_option argv g o v None ws'.
Proof.
  intros Ho (pre & Heq & Hi & Hc) Hv. destruct (Hv pre (set_index (S (optind g)) (nextchar g) g)) as (g' & Hva & Hoa & Hat); [done|simpl; lia|done|].
  exists g'. split; [|done]. apply (getopt_long_is_long _ o []); [done|by left| |].
  - rewrite Heq, Hi, app_nil_r. apply lookup_middle.
  - rewrite app_nil_r, match_long_bare. by rewrite Hva.
Qed.

Lemma reads_short_bare argv o v ws ws' g :
  o ∈ options cmd -> at_words argv (Some [shortopt o]) ws g ->
  (forall pre w g1, argv = pre ++ w :: ws -> optind g1 = S (length pre) -> nextchar g1 = 0%nat ->
    exists g', value_after argv o g1 = (shortopt o, g') /\ optarg g' = v /\ at_words argv None ws' g') ->
  reads_option argv g o v None ws'.
Proof.
  intros Ho Hat Hv. destruct (getopt_long_is_short _ _ _ _ _ Ho Hat) as (pre & front & g1 & Heq & Hi & Hc & _ & Hr).
  destruct (Hv pre _ (set_index (S (optind g1)) 0 g1) Heq) as (g' & Hva & Hoa & Hat'); [simpl; lia|done|].
  exists g'. split; [|done]. apply Hr. rewrite match_short_bare. by rewrite Hva.
Qed.

(** The rest of a group starts with an option. *)
Lemma says_chars mid uses ws args : says cmd mid uses ws args -> forall chars, mid = Some chars ->
  exists o rest, o ∈ options cmd /\ chars = shortopt o :: rest.
Proof. intros H. induction H; intros ? [= <-]; eauto. Qed.

Lemma chars_head chars uses ws args : says cmd (Some chars) uses ws args -> get8 chars 0 <> 0 /\ get8 chars 0 <> 45.
Proof.
  intros H. destruct (says_chars _ _ _ _ H chars eq_refl) as (o & rest & Ho & ->).
  destruct (option_names o Ho) as (_ & H1 & H2 & _). unfold get8. simpl. lia.
Qed.

Lemma getopt_long_end argv args ws g :
  ws = args /\ get8 (default [] (head args)) 0 <> 45 \/ ws = lit "--" :: args -> at_words argv None ws g ->
  exists g', getopt_long argv (shortopts cmd) (longopts cmd) g = (-1, g') /\ (optind g' <= length argv)%nat /\ drop (optind g') argv = args.
Proof.
  intros Ht (pre & -> & Hi & _). unfold getopt_long. rewrite Hi. destruct Ht as [[-> Hh]| ->].
  - exists g. rewrite Hi, drop_app_length. split; [|split; [rewrite length_app; lia|done]]. destruct args as [|a args].
    + by rewrite app_nil_r, lookup_ge_None_2.
    + rewrite lookup_middle. by rewrite decide_True.
  - rewrite lookup_middle. exists (set_index (S (length pre)) (nextchar g) g). split; [done|].
    cbn [set_index optind]. split; [rewrite length_app; simpl; lia|]. rewrite cons_middle, app_assoc.
    replace (S (length pre)) with (length (pre ++ [lit "--"])) by (rewrite length_app; simpl; lia). apply drop_app_length.
Qed.

(** One option is read and the rest is parsed from there. *)
Lemma options_loop_reads argv o v uses args mid ws fuel opts g :
  o ∈ options cmd -> reads_option argv g o v mid ws -> (length ((o, v) :: uses) < fuel)%nat ->
  (forall fuel opts g, (length uses < fuel)%nat -> at_words argv mid ws g ->
    exists g', options_loop fuel argv cmd opts g = Some (parse_uses uses opts, g') /\
      (is_Ok (parse_uses uses opts) -> (optind g' <= length argv)%nat /\ drop (optind g') argv = args)) ->
  exists g', options_loop fuel argv cmd opts g = Some (parse_uses ((o, v) :: uses) opts, g') /\
    (is_Ok (parse_uses ((o, v) :: uses) opts) -> (optind g' <= length argv)%nat /\ drop (optind g') argv = args).
Proof.
  intros Ho (g1 & Hg & Ha & Hat) Hf IH. destruct fuel as [|fuel]; [simpl in Hf; lia|]. cbn [options_loop]. rewrite Hg.
  destruct (option_names o Ho) as (_ & H1 & H2 & H3 & H4 & H5). rewrite !decide_False by lia.
  rewrite Ha, parse_option_found by done. cbn [parse_uses]. destruct (parse o v opts) as [opts1|e]; [|by exists g1].
  apply IH; [simpl in Hf; lia|done].
Qed.

Lemma options_loop_says argv mid uses ws args :
  says cmd mid uses ws args -> forall fuel opts g, (length uses < fuel)%nat -> at_words argv mid ws g ->
  exists g', options_loop fuel argv cmd opts g = Some (parse_uses uses opts, g') /\
    (is_Ok (parse_uses uses opts) -> (optind g' <= length argv)%nat /\ drop (optind g') argv = args).
Proof.
  induction 1 as [args Hh|args|o uses ws args Ho Ha _ IH|o v uses ws args Ho Ha _ IH|o v uses ws args Ho Ha Hv _ IH
    |o uses ws args Ho Ha Hw _ IH|chars uses ws args Hs IH|o chars uses ws args Ho Ha Hs IH|o uses ws args Ho Ha _ IH
    |o v uses ws args Ho Ha Hv _ IH|o v uses ws args Ho Ha Hv _ IH|o uses ws args Ho Ha Hw _ IH]; intros fuel opts g Hf Hat.
  1, 2: destruct fuel as [|fuel]; [simpl in Hf; lia|]; cbn [options_loop]; edestruct (getopt_long_end argv args) as (g' & -> & Hd);
    [|exact Hat|by exists g']; auto.
  5: { apply IH; [done|]. destruct Hat as (pre & -> & Hi & Hc). exists pre, []. apply chars_head in Hs as [_ Hs]. auto 10. }
  all: eapply options_loop_reads; [exact Ho| |exact Hf|exact IH].
  - eapply reads_long_bare; [done|exact Hat|]. intros. by eapply value_after_flag.
  - destruct Hat as (pre & -> & Hi & Hc). eexists. split; [|split; [|]].
    + apply (getopt_long_is_long _ o (61 :: v)); [done|eauto|rewrite Hi; apply lookup_middle|by apply match_long_inline].
    + done.
    + exists (pre ++ [lit "--" ++ longopt o ++ lit "=" ++ v]). rewrite <- app_assoc, length_app. simpl. split_and!; [done|lia|done].
  - eapply reads_long_bare; [done|exact Hat|]. intros. by eapply value_after_next.
  - eapply reads_long_bare; [done|exact Hat|]. intros. by eapply value_after_omitted.
  - destruct (getopt_long_is_short _ _ _ _ _ Ho Hat) as (pre & front & g1 & -> & Hi & Hc & H45 & Hr).
    apply chars_head in Hs as [Hs _]. eexists. split; [apply Hr; by apply match_short_flag|]. split; [done|].
    exists pre, (front ++ [shortopt o]). rewrite <- app_assoc, length_app. simpl. split_and!; [done|done|right; lia|done].
  - eapply reads_short_bare; [done|exact Hat|]. intros. by eapply value_after_flag.
  - destruct (getopt_long_is_short _ _ _ _ _ Ho Hat) as (pre & front & g1 & -> & Hi & Hc & _ & Hr).
    eexists. split; [apply Hr; by apply match_short_inline|]. split; [done|].
    exists (pre ++ [45 :: front ++ shortopt o :: v]). rewrite <- app_assoc, length_app. simpl. split_and!; [done|lia|done].
  - eapply reads_short_bare; [done|exact Hat|]. intros. by eapply value_after_next.
  - eapply reads_short_bare; [done|exact Hat|]. intros. by eapply value_after_omitted.
Qed.
End written.

(** C26: when the words of a command line spell options, in any of the forms of
    the syntax (long or short, flags in groups, values in the same word or the
    next, optional values left out), followed by arguments, then exactly these
    options are parsed, in order, with their values; parsing stops at the
    first invalid value; the number of arguments is then checked; and the
    index is at the arguments. *)
Theorem reparse_options_correct {O} (cmd : command_descriptor O) uses words args fuel command opts g :
  options_ok cmd -> says cmd None uses words args -> (length uses < fuel)%nat -> Z.of_nat (length (command :: words)) < 2 ^ 32 ->
  exists g', reparse_options fuel (command :: words) cmd opts (reset_getopt g) =
      Some (match parse_uses uses opts with
            | Ok opts => if decide (min_args cmd <= Z.of_nat (length args) <= max_args cmd) then Ok opts else Err ERANGE
            | Err e => Err e
            end, g') /\
    (is_Ok (parse_uses uses opts) -> drop (optind g') (command :: words) = args).
Proof.
  intros Hok Hs Hf Hlen. unfold reparse_options.
  destruct (options_loop_says cmd Hok (command :: words) _ _ _ _ Hs fuel opts (reset_getopt g) Hf) as (g' & Hl & Hd); [by exists [command]|].
  rewrite Hl. exists g'. split; [|intros H; by apply Hd]. destruct (parse_uses uses opts) as [o|e]; [|done].
  destruct (Hd I) as [Hle Hda]. apply (f_equal length) in Hda. rewrite length_drop in Hda.
  rewrite wrap_small by zlia. do 2 (case_decide; try done); lia.
Qed.

(** ** Parsers of values (core/parseopt.c) *)

Definition parse_string (text : option (list Z)) : result (option (list Z)) := Ok text.
Definition parse_flag (text : option (list Z)) : result bool := Ok true.

(** An example: two of the options of the commands that fetch an image, its
    name and whether it is freed after use. *)
Definition fetch_cmd : command_descriptor (option (list Z) * bool) :=
  CommandDesc [OptionDesc (lit "name") 110 required_argument (fun t o => let* n := parse_string t in Ok (n, o.2));
               OptionDesc (lit "autofree") 97 no_argument (fun t o => let* f := parse_flag t in Ok (o.1, f))] 1 255.

Lemma fetch_cmd_ok : options_ok fetch_cmd.
Proof.
  split.
  - repeat apply Forall_cons_2; try apply Forall_nil_2; (split; [done|]); apply (bool_decide_unpack _); vm_compute; exact I.
  - apply (bool_decide_unpack _). vm_compute. exact I.
  - apply (bool_decide_unpack _). vm_compute. exact I.
  - apply (bool_decide_unpack _). vm_compute. exact I.
Qed.

Definition any_getopt : getopt_state := Getopt None 7 3 0 (fun _ => 0).

Lemma reparse_options_correct_witness :
  exists g', reparse_options 4 [lit "imgfetch"; lit "--autofree"; lit "-anboot"; lit "tftp://host/file"] fetch_cmd (None, false)
      (reset_getopt any_getopt) = Some (Ok (Some (lit "boot"), true), g') /\
    drop (optind g') [lit "imgfetch"; lit "--autofree"; lit "-anboot"; lit "tftp://host/file"] = [lit "tftp://host/file"].
Proof.
  destruct (reparse_options_correct fetch_cmd
    [(nth 1 (options fetch_cmd) (OptionDesc [] 0 0 (fun _ o => Ok o)), None);
     (nth 1 (options fetch_cmd) (OptionDesc [] 0 0 (fun _ o => Ok o)), None);
     (nth 0 (options fetch_cmd) (OptionDesc [] 0 0 (fun _ o => Ok o)), Some (lit "boot"))]
    [lit "--autofree"; lit "-anboot"; lit "tftp://host/file"]
    [lit "tftp://host/file"] 4 (lit "imgfetch") (None, false) any_getopt fetch_cmd_ok) as (g' & H1 & H2).
  - assert (forall k, (k < 2)%nat -> nth k (options fetch_cmd) (OptionDesc [] 0 0 (fun _ o => Ok o)) ∈ options fetch_cmd) as Hin.
    { intros k Hk. apply list_elem_of_In, nth_In. exact Hk. }
    apply (says_long_flag fetch_cmd (nth 1 (options fetch_cmd) _)); [apply Hin; lia|done|].
    apply (says_group fetch_cmd (lit "anboot")). apply (says_short_flag fetch_cmd (nth 1 (options fetch_cmd) _)); [apply Hin; lia|done|].
    apply (says_short_inline fetch_cmd (nth 0 (options fetch_cmd) _) (lit "boot")); [apply Hin; lia|done|done|]. by apply says_arguments.
  - simpl. lia.
  - done.
  - exists g'. split; [exact H1|]. by apply H2.
Defined.

Lemma reparse_options_terminates_witness :
  exists r g', reparse_options 30 [lit "imgfetch"; lit "--bogus"; lit "file"] fetch_cmd (None, false) (reset_getopt any_getopt) = Some (r, g') /\
    (optind g' <= 3)%nat.
Proof.
  destruct (reparse_options_terminates 30 [lit "imgfetch"; lit "--bogus"; lit "file"] fetch_cmd (None, false) any_getopt) as (r & g' & H & Hi & _);
    [done|done|apply Nat.ltb_lt; vm_compute; reflexivity|by exists r, g'].
Defined.
