(* ===== verification/Exec.v ===== *)
(** * Execution of command lines (core/exec.c)

    [shell] holds the global variables of core/exec.c, core/getopt.c and
    image/script.c, and [world] everything else.  The table of commands, which
    the linker collects, is a parameter: a command may not return ([None]).
    Expansion of settings in an argument is a parameter, too, which fails for
    lack of memory, and [alloc_fails] tells which allocations fail.

    The theorem: a command line is split at white space ([split_command_correct])
    and executed as the expression of commands and short-circuit operators
    that it denotes ([system_correct]). *)

From S2P Require Import Prelude CMem Strings Getopt.

(** The status of a command: an exit code, zero for success, or an error. *)
Inductive status := Status (code : Z) | Error (e : errno).

#[export] Instance status_eq_dec : EqDecision status.
Proof. solve_decision. Defined.

Definition SHELL_CONTINUE : Z := 0.
Definition SHELL_STOP_COMMAND : Z := 1.
Definition SHELL_STOP_COMMAND_SEQUENCE : Z := 2.

(** ** Splitting *)

(** The loops move a position in the buffer; with [populate], white space is
    overwritten with NUL. *)
Fixpoint skip_spaces (fuel : nat) (populate : bool) (command : list Z) (pos : nat) : list Z * nat :=
  match fuel with
  | O => (command, pos)
  | S fuel =>
    if isspace (get8 command pos)
    then skip_spaces fuel populate (if populate then <[pos := 0]> command else command) (S pos)
    else (command, pos)
  end.

Fixpoint skip_word (fuel : nat) (command : list Z) (pos : nat) : nat :=
  match fuel with
  | O => pos
  | S fuel =>
    if decide (get8 command pos <> 0 /\ isspace (get8 command pos) = false) then skip_word fuel command (S pos) else pos
  end.

Fixpoint split_loop (fuel : nat) (populate : bool) (command : list Z) (pos : nat) (tokens : list nat) : list nat * list Z :=
  match fuel with
  | O => (tokens, command)
  | S fuel =>
    let '(command, pos) := skip_spaces (S (length command)) populate command pos in
    if decide (get8 command pos = 0) then (tokens, command)
    else split_loop fuel populate command (skip_word (S (length command)) command pos) (tokens ++ [pos])
  end.

(** The positions of the tokens, and the buffer. *)
Definition split_command (command : list Z) (populate : bool) : list nat * list Z :=
  split_loop (S (length command)) populate command 0 [].

(** ** Terminators *)

Inductive process_next := process_on_success | process_on_failure | process_always.

Definition process_fn (p : process_next) (rc : status) : bool :=
  match p with
  | process_on_success => bool_decide (rc = Status 0)
  | process_on_failure => bool_decide (rc <> Status 0)
  | process_always => true
  end.

(** The number of arguments before the terminator, and what it asks for. *)
Fixpoint command_terminator (tokens : list (list Z)) : nat * option process_next :=
  match tokens with
  | [] => (0%nat, None)
  | token :: tokens =>
    if decide (get8 token 0 = 35) then (0%nat, None)
    else if decide (token = lit "||") then (0%nat, Some process_on_failure)
    else if decide (token = lit "&&") then (0%nat, Some process_on_success)
    else if decide (token = lit ";") then (0%nat, Some process_always)
    else let '(i, p) := command_terminator tokens in (S i, p)
  end.

Section exec.
Context {W : Type}.

Record shell := Shell {
  stop_state : Z;
  sh_errno : status;
  getopt : getopt_state;
  script_offset : nat;
  current_image : option (list Z);
  world : W;
}.

Definition set_stop (v : Z) (s : shell) : shell :=
  Shell v (sh_errno s) (getopt s) (script_offset s) (current_image s) (world s).
Definition set_errno (rc : status) (s : shell) : shell :=
  Shell (stop_state s) rc (getopt s) (script_offset s) (current_image s) (world s).
Definition set_getopt (g : getopt_state) (s : shell) : shell :=
  Shell (stop_state s) (sh_errno s) g (script_offset s) (current_image s) (world s).
Definition set_offset (o : nat) (s : shell) : shell :=
  Shell (stop_state s) (sh_errno s) (getopt s) o (current_image s) (world s).

Definition shell_stop (stop : Z) (s : shell) : shell := set_stop stop s.

Definition shell_stopped (stop : Z) (s : shell) : bool * shell :=
  let stopped := bool_decide (stop_state s >= stop) in
  let s := if decide (stop_state s <= stop) then set_stop 0 s else s in
  (stopped, s).

(** ** Execution *)

Record command := Command { cmd_name : list Z; cmd_exec : list (list Z) -> shell -> option (status * shell) }.

Context (commands : list command) (expand_settings : list Z -> shell -> option (list Z))
        (alloc_fails : nat -> shell -> bool).

Fixpoint find_command (name : list Z) (l : list command) : option (list (list Z) -> shell -> option (status * shell)) :=
  match l with
  | [] => None
  | cmd :: l => if decide (name = cmd_name cmd) then Some (cmd_exec cmd) else find_command name l
  end.

Definition store_errno (rc : status) (s : shell) : shell := if decide (rc <> Status 0) then set_errno rc s else s.

(** The command is the first argument, if there is one. *)
Definition execv (argv : list (list Z)) (s : shell) : option (status * shell) :=
  match argv with
  | [] => Some (Status 0, s)
  | command :: _ =>
    let s := set_getopt (reset_getopt (getopt s)) s in
    match find_command command commands with
    | None => Some (Error ENOEXEC, store_errno (Error ENOEXEC) s)
    | Some exec =>
      match exec argv s with
      | None => None
      | Some (rc, s) => Some (rc, store_errno rc s)
      end
    end
  end.

Fixpoint expand_tokens (tokens : list (list Z)) (s : shell) : option (list (list Z)) :=
  match tokens with
  | [] => Some []
  | token :: tokens =>
    match expand_settings token s with
    | None => None
    | Some arg => match expand_tokens tokens s with None => None | Some argv => Some (arg :: argv) end
    end
  end.

Fixpoint system_loop (fuel : nat) (tokens : list (list Z)) (process : bool) (rc : status) (s : shell) : option (status * shell) :=
  match fuel with
  | O => None
  | S fuel =>
    let '(argc, process_next) := command_terminator tokens in
    let next (rc : status) (s : shell) :=
      let '(stopped, s) := shell_stopped SHELL_STOP_COMMAND s in
      if (stopped : bool) then Some (rc, s) else
      match process_next with
      | None => Some (rc, s)
      | Some p => system_loop fuel (drop (argc + 1) tokens) (process_fn p rc) rc s
      end in
    if process then
      match expand_tokens (take argc tokens) s with
      | None => Some (Error ENOMEM, s)
      | Some argv => match execv argv s with None => None | Some (rc, s) => next rc s end
      end
    else next rc s
  end.

Definition system (command : list Z) (s : shell) : option (status * shell) :=
  if alloc_fails (S (length command)) s then Some (Error ENOMEM, s) else
  let '(offsets, buf) := split_command command true in
  let all_tokens := map (fun o => cstring (drop o buf)) offsets in
  system_loop (S (length all_tokens)) all_tokens true (Status 0) s.
End exec.
Arguments shell : clear implicits.
Arguments command : clear implicits.

(** ** Splitting is at white space *)

Definition word_char (c : Z) : Prop := c <> 0 /\ isspace c = false.

(** The string consists of these words, with white space around them. *)
Inductive spaced : list Z -> list (list Z) -> Prop :=
  | spaced_end sp : Forall (fun c => isspace c = true) sp -> spaced sp []
  | spaced_word sp w rest ws :
      Forall (fun c => isspace c = true) sp -> w <> [] -> Forall word_char w ->
      rest = [] \/ isspace (get8 rest 0) = true -> spaced rest ws -> spaced (sp ++ w ++ rest) (w :: ws).

(** What [populate] does to the buffer. *)
Definition zap (c : Z) : Z := if isspace c then 0 else c.

Lemma get8_middle pre s : get8 (pre ++ s) (length pre) = get8 s 0.
Proof. rewrite <- (Nat.add_0_r (length pre)). apply get8_app_r. Qed.

Lemma get8_first_word w rest : w <> [] -> Forall word_char w -> word_char (get8 (w ++ rest) 0).
Proof. intros Hw Hc. destruct w; [done|]. by apply Forall_cons in Hc as [? _]. Qed.

Lemma skip_spaces_spec fuel (populate : bool) sp pre rest :
  Forall (fun c => isspace c = true) sp -> (length sp < fuel)%nat -> isspace (get8 rest 0) = false ->
  skip_spaces fuel populate (pre ++ sp ++ rest) (length pre) =
    ((pre ++ (if populate then map zap sp else sp)) ++ rest, length (pre ++ sp)).
Proof.
  intros Hsp. revert fuel pre. induction Hsp as [|c sp Hc _ IH]; intros fuel pre Hf Hr; (destruct fuel as [|fuel]; [simpl in Hf; lia|]);
    cbn [skip_spaces]; rewrite get8_middle.
  - cbn [app map]. rewrite Hr, !app_nil_r. destruct populate; by rewrite app_nil_r.
  - change (get8 ((c :: sp) ++ rest) 0) with c. rewrite Hc. simpl in Hf.
    set (c' := if populate then 0 else c).
    assert ((if populate then <[length pre := 0]> (pre ++ (c :: sp) ++ rest) else pre ++ (c :: sp) ++ rest) = (pre ++ [c']) ++ sp ++ rest) as ->.
    { unfold c'. rewrite <- app_assoc. destruct populate; [|done]. rewrite insert_app_r_alt, Nat.sub_diag by lia. done. }
    replace (S (length pre)) with (length (pre ++ [c'])) by (rewrite length_app; simpl; lia). rewrite IH by (done || lia).
    f_equal; [|rewrite !length_app; simpl; lia]. unfold c', zap. rewrite <- !app_assoc. destruct populate; simpl; by rewrite ?Hc.
Qed.

Lemma skip_word_spec fuel w pre rest :
  Forall word_char w -> (length w < fuel)%nat -> rest = [] \/ isspace (get8 rest 0) = true ->
  skip_word fuel (pre ++ w ++ rest) (length pre) = length (pre ++ w).
Proof.
  intros Hw. revert fuel pre. induction Hw as [|c w [Hc1 Hc2] _ IH]; intros fuel pre Hf Hr; (destruct fuel as [|fuel]; [simpl in Hf; lia|]);
    cbn [skip_word]; rewrite get8_middle.
  - cbn [app]. rewrite decide_False, app_nil_r; [done|]. destruct Hr as [->|Hr]; [by intros []|by rewrite Hr; intros []].
  - change (get8 ((c :: w) ++ rest) 0) with c. rewrite decide_True by done. simpl in Hf.
    replace (pre ++ (c :: w) ++ rest) with ((pre ++ [c]) ++ w ++ rest) by (by rewrite <- app_assoc).
    replace (S (length pre)) with (length (pre ++ [c])) by (rewrite length_app; simpl; lia). rewrite IH by (done || lia).
    rewrite !length_app. simpl. lia.
Qed.

Lemma cstring_word w rest : Forall word_char w -> rest = [] \/ get8 rest 0 = 0 -> cstring (w ++ rest) = w.
Proof.
  intros Hw Hr. induction Hw as [|c w [Hc _] _ IH]; simpl.
  - destruct Hr as [->|Hr]; [done|]. destruct rest as [|c rest]; [done|]. simpl. by rewrite decide_True.
  - rewrite decide_False by done. by rewrite IH.
Qed.

Lemma map_zap_word w : Forall word_char w -> map zap w = w.
Proof. induction 1 as [|c w [_ Hc] _ IH]; simpl; [done|]. unfold zap at 1. by rewrite Hc, IH. Qed.

Lemma zap_space rest : rest = [] \/ isspace (get8 rest 0) = true -> map zap rest = [] \/ get8 (map zap rest) 0 = 0.
Proof. intros [->|Hr]; [by left|]. right. destruct rest as [|c rest]; [done|]. unfold get8, zap in *. simpl in *. by rewrite Hr. Qed.

Lemma split_loop_spec s ws populate fuel pre tokens :
  spaced s ws -> (length ws < fuel)%nat ->
  exists offsets, split_loop fuel populate (pre ++ s) (length pre) tokens =
      (tokens ++ offsets, pre ++ (if populate : bool then map zap s else s)) /\
    length offsets = length ws /\
    (populate = true -> map (fun o => cstring (drop o (pre ++ map zap s))) offsets = ws).
Proof.
  intros Hs. revert fuel pre tokens. induction Hs as [sp Hsp|sp w rest ws Hsp Hne Hw Hr Hs IH]; intros fuel pre tokens Hf;
    (destruct fuel as [|fuel]; [simpl in Hf; lia|]); cbn [split_loop].
  - pose proof (skip_spaces_spec (S (length (pre ++ sp))) populate sp pre [] Hsp) as Hk. rewrite !(app_nil_r sp) in Hk.
    rewrite Hk by (rewrite ?length_app; simpl; try done; lia).
    assert (get8 ((pre ++ (if populate then map zap sp else sp)) ++ []) (length (pre ++ sp)) = 0) as ->.
    { unfold get8. apply nth_overflow. rewrite !length_app. destruct populate; rewrite ?length_map; simpl; lia. }
    rewrite decide_True by done. exists []. rewrite !app_nil_r. split_and!; [done|done|done].
  - pose proof (get8_first_word w rest Hne Hw) as [Hn0 Hns].
    rewrite skip_spaces_spec by (rewrite ?length_app; simpl; try done; lia).
    set (sp' := if populate then map zap sp else sp).
    assert (length (pre ++ sp) = length (pre ++ sp')) as -> by (unfold sp'; rewrite !length_app; destruct populate; by rewrite ?length_map).
    rewrite get8_middle, decide_False by done. rewrite skip_word_spec by (rewrite ?length_app; simpl; try done; lia).
    rewrite (app_assoc (pre ++ sp')).
    destruct (IH fuel ((pre ++ sp') ++ w) (tokens ++ [length (pre ++ sp')])) as (offs & -> & Hl & Hm); [simpl in Hf; lia|].
    exists (length (pre ++ sp') :: offs). rewrite <- (app_assoc tokens). split_and!; [| |].
    + f_equal. unfold sp'. destruct populate; [|by rewrite <- !app_assoc]. by rewrite !map_app, (map_zap_word w), <- !app_assoc.
    + simpl. by rewrite Hl.
    + intros Hp. specialize (Hm Hp). unfold sp' in *. rewrite Hp in *. rewrite !map_app, (map_zap_word w) by done.
      cbn [map]. rewrite !(app_assoc pre), drop_app_length. f_equal.
      * apply cstring_word; [done|]. by apply zap_space.
      * rewrite (app_assoc (pre ++ map zap sp)). done.
Qed.

Lemma spaced_length s ws : spaced s ws -> (length ws <= length s)%nat.
Proof. induction 1 as [|sp w rest ws ? Hne]; simpl; [lia|]. rewrite !length_app. destruct w; [done|]. simpl. lia. Qed.

(** Splitting yields the words, and as many of them as the first pass counted. *)
Lemma split_command_words s ws :
  spaced s ws ->
  let '(offsets, buf) := split_command s true in
  map (fun o => cstring (drop o buf)) offsets = ws /\ length offsets = length (split_command s false).1.
Proof.
  intros Hs. pose proof (spaced_length s ws Hs) as Hl. unfold split_command.
  destruct (split_loop_spec s ws true (S (length s)) [] [] Hs) as (o1 & H1 & L1 & M1); [lia|].
  destruct (split_loop_spec s ws false (S (length s)) [] [] Hs) as (o2 & H2 & L2 & _); [lia|].
  cbn [app length] in *. rewrite H1, H2. cbn [app fst]. split; [by apply M1|lia].
Qed.

(** ** Command lines as expressions

    Operators associate to the left and have the same precedence. *)

Inductive op := And | Or | Seq.

Inductive cmdline :=
  | Simple (argv : list (list Z))
  | Chain (l : cmdline) (p : op) (argv : list (list Z)).

Definition operator (p : op) : list Z :=
  match p with And => lit "&&" | Or => lit "||" | Seq => lit ";" end.

Fixpoint cmdline_tokens (l : cmdline) : list (list Z) :=
  match l with
  | Simple argv => argv
  | Chain l p argv => cmdline_tokens l ++ operator p :: argv
  end.

Definition is_argument (t : list Z) : Prop := get8 t 0 <> 35 /\ t <> lit "||" /\ t <> lit "&&" /\ t <> lit ";".

Fixpoint cmdline_ok (l : cmdline) : Prop :=
  match l with
  | Simple argv => Forall is_argument argv
  | Chain l _ argv => cmdline_ok l /\ Forall is_argument argv
  end.

(** A comment, or nothing. *)
Definition is_comment (tokens : list (list Z)) : Prop := tokens = [] \/ get8 (default [] (head tokens)) 0 = 35.

Section cmdline.
Context {W : Type} (commands : list (command W)) (expand_settings : list Z -> shell W -> option (list Z))
        (alloc_fails : nat -> shell W -> bool).
Implicit Types s : shell W.

(** After a command, the rest of the line goes on or is abandoned. *)
Inductive outcome := Continue (rc : status) (s : shell W) | Stop (rc : status) (s : shell W).

Definition outcome_result (o : outcome) : status * shell W :=
  match o with Continue rc s => (rc, s) | Stop rc s => (rc, s) end.

(** What happens after a command, by the value of the stop variable: nothing is
    asked for; the rest of this line is to be abandoned, which is done; or the
    rest of the sequence of lines, too, which is left for the caller. *)
Definition after (rc : status) s : outcome :=
  if decide (stop_state s < 1) then Continue rc (set_stop 0 s)
  else if decide (stop_state s = 1) then Stop rc (set_stop 0 s)
  else Stop rc s.

(** A command before it runs: the option parser starts over. *)
Definition fresh_options s : shell W :=
  set_getopt (Getopt (optarg (getopt s)) 1 0 (optopt (getopt s)) (flags (getopt s))) s.

(** [performs words s o]: one command.  The words are expanded, and the first
    one names the command: the first one of that name in the table. *)
Inductive performs : list (list Z) -> shell W -> outcome -> Prop :=
  | performs_no_memory words word s :
      In word words -> expand_settings word s = None -> performs words s (Stop (Error ENOMEM) s)
  | performs_nothing s : performs [] s (after (Status 0) s)
  | performs_unknown words name args s :
      Forall2 (fun word arg => expand_settings word s = Some arg) words (name :: args) ->
      Forall (fun c => cmd_name c <> name) commands ->
      performs words s (after (Error ENOEXEC) (set_errno (Error ENOEXEC) (fresh_options s)))
  | performs_success words name args pre c post s s' :
      Forall2 (fun word arg => expand_settings word s = Some arg) words (name :: args) ->
      commands = pre ++ c :: post -> Forall (fun c => cmd_name c <> name) pre -> cmd_name c = name ->
      cmd_exec c (name :: args) (fresh_options s) = Some (Status 0, s') ->
      performs words s (after (Status 0) s')
  | performs_failure words name args pre c post rc s s' :
      Forall2 (fun word arg => expand_settings word s = Some arg) words (name :: args) ->
      commands = pre ++ c :: post -> Forall (fun c => cmd_name c <> name) pre -> cmd_name c = name ->
      cmd_exec c (name :: args) (fresh_options s) = Some (rc, s') -> rc <> Status 0 ->
      performs words s (after rc (set_errno rc s')).

(** [executes l s o]: a command line.  The command after "&&" is executed
    when the status so far is success, the one after "||" when it is not, and
    the one after ";" always; a command that is not executed leaves status and
    state; and after a stop, no command is executed. *)
Inductive executes : cmdline -> shell W -> outcome -> Prop :=
  | executes_simple argv s o : performs argv s o -> executes (Simple argv) s o
  | executes_stopped l p argv s rc s' : executes l s (Stop rc s') -> executes (Chain l p argv) s (Stop rc s')
  | executes_and l argv s s' o :
      executes l s (Continue (Status 0) s') -> performs argv s' o -> executes (Chain l And argv) s o
  | executes_and_not l argv s rc s' :
      executes l s (Continue rc s') -> rc <> Status 0 -> executes (Chain l And argv) s (Continue rc s')
  | executes_or l argv s rc s' o :
      executes l s (Continue rc s') -> rc <> Status 0 -> performs argv s' o -> executes (Chain l Or argv) s o
  | executes_or_not l argv s s' :
      executes l s (Continue (Status 0) s') -> executes (Chain l Or argv) s (Continue (Status 0) s')
  | executes_seq l argv s rc s' o :
      executes l s (Continue rc s') -> performs argv s' o -> executes (Chain l Seq argv) s o.

(** The same with the functions of the code, one command after the other. *)
Definition op_process (p : op) : process_next :=
  match p with And => process_on_success | Or => process_on_failure | Seq => process_always end.

Definition run_simple (argv : list (list Z)) s : option outcome :=
  match expand_tokens expand_settings argv s with
  | None => Some (Stop (Error ENOMEM) s)
  | Some argv =>
    match execv commands argv s with
    | None => None
    | Some (rc, s) => let '(stopped, s) := shell_stopped SHELL_STOP_COMMAND s in
                      Some (if stopped : bool then Stop rc s else Continue rc s)
    end
  end.

Definition run_operator (o : option outcome) (c : op * list (list Z)) : option outcome :=
  match o with
  | Some (Continue rc s) => if process_fn (op_process c.1) rc then run_simple c.2 s else Some (Continue rc s)
  | _ => o
  end.

Fixpoint eval (l : cmdline) s : option outcome :=
  match l with
  | Simple argv => run_simple argv s
  | Chain l p argv => run_operator (eval l s) (p, argv)
  end.

Fixpoint first_argv (l : cmdline) : list (list Z) := match l with Simple argv => argv | Chain l _ _ => first_argv l end.
Fixpoint operators (l : cmdline) : list (op * list (list Z)) :=
  match l with Simple _ => [] | Chain l p argv => operators l ++ [(p, argv)] end.
Definition operator_tokens (ops : list (op * list (list Z))) : list (list Z) :=
  concat (map (fun c => operator c.1 :: c.2) ops).

Lemma cmdline_flatten l : cmdline_tokens l = first_argv l ++ operator_tokens (operators l).
Proof.
  unfold operator_tokens. induction l as [argv|l IH p argv]; simpl; [by rewrite app_nil_r|].
  rewrite IH, map_app, concat_app, app_assoc. simpl. by rewrite app_nil_r.
Qed.

Lemma eval_flatten l s : eval l s = foldl run_operator (run_simple (first_argv l) s) (operators l).
Proof. induction l as [argv|l IH p argv]; simpl; [done|]. by rewrite foldl_app, IH. Qed.

Lemma cmdline_ok_flatten l : cmdline_ok l -> Forall is_argument (first_argv l) /\ Forall (fun c => Forall is_argument c.2) (operators l).
Proof.
  induction l as [argv|l IH p argv]; simpl; [by split|]. intros [Hl Ha]. destruct (IH Hl) as [H1 H2]. split; [done|].
  apply Forall_app_2; [done|]. by repeat constructor.
Qed.

Lemma foldl_stop o ops : (forall rc s, o <> Some (Continue rc s)) -> foldl run_operator o ops = o.
Proof. intros Ho. induction ops as [|c ops IH]; [done|]. simpl. destruct o as [[rc s|rc s]|]; [by destruct (Ho rc s)|done..]. Qed.

(** The terminator of a command. *)
Lemma command_terminator_args argv rest i p :
  Forall is_argument argv -> command_terminator rest = (i, p) -> command_terminator (argv ++ rest) = ((length argv + i)%nat, p).
Proof.
  intros Ha Hr. induction Ha as [|t argv (H1 & H2 & H3 & H4) _ IH]; simpl; [done|]. rewrite !decide_False by done. by rewrite IH.
Qed.

Lemma command_terminator_comment tokens : is_comment tokens -> command_terminator tokens = (0%nat, None).
Proof. intros [->|Hc]; [done|]. destruct tokens as [|t tokens]; [done|]. simpl in *. by rewrite decide_True. Qed.

Lemma command_terminator_operator p tokens : command_terminator (operator p :: tokens) = (0%nat, Some (op_process p)).
Proof. by destruct p. Qed.

Lemma shell_stopped_twice s s' : shell_stopped SHELL_STOP_COMMAND s = (false, s') -> shell_stopped SHELL_STOP_COMMAND s' = (false, s').
Proof.
  unfold shell_stopped, SHELL_STOP_COMMAND. intros [= Hb Hs]. apply bool_decide_eq_false in Hb. rewrite decide_True in Hs by lia.
  subst s'. done.
Qed.

Lemma system_loop_eval ops argv comment fuel process rc s :
  Forall is_argument argv -> Forall (fun c => Forall is_argument c.2) ops -> is_comment comment -> (length ops < fuel)%nat ->
  shell_stopped SHELL_STOP_COMMAND s = (false, s) \/ process = true ->
  system_loop commands expand_settings fuel (argv ++ operator_tokens ops ++ comment) process rc s =
    option_map outcome_result (foldl run_operator (if process then run_simple argv s else Some (Continue rc s)) ops).
Proof.
  intros Ha Ho Hc. revert argv fuel process rc s Ha. induction Ho as [|[p argv'] ops Hargs Ho IH];
    intros argv fuel process rc s Ha Hf Hst; (destruct fuel as [|fuel]; [simpl in Hf; lia|]); cbn [system_loop].
  - cbn [operator_tokens map concat app foldl]. rewrite (command_terminator_args _ _ _ _ Ha (command_terminator_comment _ Hc)).
    rewrite Nat.add_0_r, take_app_length. destruct process.
    + unfold run_simple. destruct (expand_tokens _ argv s) as [argv1|]; [|done]. destruct (execv _ argv1 s) as [[rc1 s1]|]; [|done].
      destruct (shell_stopped _ s1) as [[] s2]; done.
    + destruct Hst as [->|]; done.
  - cbn [operator_tokens map concat fst snd foldl run_operator]. fold (operator_tokens ops). cbn [app].
    rewrite (command_terminator_args _ _ _ _ Ha (command_terminator_operator _ _)).
    rewrite Nat.add_0_r, take_app_length, cons_middle, (app_assoc argv).
    replace (length argv + 1)%nat with (length (argv ++ [operator p])) by (rewrite length_app; simpl; lia).
    rewrite drop_app_length, <- (app_assoc argv').
    assert (forall rc1 s1, shell_stopped SHELL_STOP_COMMAND s1 = (false, s1) ->
      system_loop commands expand_settings fuel (argv' ++ operator_tokens ops ++ comment) (process_fn (op_process p) rc1) rc1 s1 =
      option_map outcome_result (foldl run_operator (if process_fn (op_process p) rc1 then run_simple argv' s1 else Some (Continue rc1 s1)) ops)) as Hnext.
    { intros rc1 s1 H1. apply IH; [done|simpl in Hf; lia|by left]. }
    destruct process.
    + unfold run_simple at 1. destruct (expand_tokens _ argv s) as [argv1|]; [|by rewrite foldl_stop].
      destruct (execv _ argv1 s) as [[rc1 s1]|]; [|by rewrite foldl_stop].
      destruct (shell_stopped _ s1) as [[] s2] eqn:Hs; [by rewrite foldl_stop|]. cbn [run_operator fst snd].
      apply Hnext. by eapply shell_stopped_twice.
    + destruct Hst as [Hst|]; [|done]. rewrite Hst. by apply Hnext.
Qed.

(** ** The functions of the code execute expressions *)

Lemma after_stopped rc s :
  (let '(stopped, s) := shell_stopped SHELL_STOP_COMMAND s in if stopped : bool then Stop rc s else Continue rc s) = after rc s.
Proof.
  unfold shell_stopped, after, SHELL_STOP_COMMAND. destruct (decide (stop_state s < 1)).
  - rewrite bool_decide_eq_false_2, decide_True by lia. done.
  - rewrite bool_decide_eq_true_2 by lia. destruct (decide (stop_state s = 1)); [by rewrite decide_True by lia|by rewrite decide_False by lia].
Qed.

Lemma expand_tokens_some words argv s :
  expand_tokens expand_settings words s = Some argv <-> Forall2 (fun word arg => expand_settings word s = Some arg) words argv.
Proof.
  split.
  - revert argv. induction words as [|w words IH]; intros argv; simpl; [by intros [= <-]|].
    destruct (expand_settings w s) eqn:Hw; [|done]. destruct (expand_tokens _ words s); [|done]. intros [= <-]. constructor; auto.
  - induction 1 as [|w a words argv Hw _ IH]; simpl; [done|]. by rewrite Hw, IH.
Qed.

Lemma expand_tokens_none words s :
  expand_tokens expand_settings words s = None <-> exists word, In word words /\ expand_settings word s = None.
Proof.
  induction words as [|w words IH]; simpl; [split; [done|naive_solver]|].
  destruct (expand_settings w s) eqn:Hw; [|split; [eauto|done]].
  destruct (expand_tokens _ words s); split; try done; [intros (x & [->|Hx] & Hn); [congruence|]|intros _]; naive_solver.
Qed.

Lemma find_command_some name l exec :
  find_command name l = Some exec <->
  exists pre c post, l = pre ++ c :: post /\ Forall (fun c : command W => cmd_name c <> name) pre /\ cmd_name c = name /\ cmd_exec c = exec.
Proof.
  split.
  - induction l as [|c l IH]; simpl; [done|]. case_decide as Hn.
    + intros [= <-]. by exists [], c, l.
    + intros (pre & d & post & -> & Hpre & Hd & He)%IH. exists (c :: pre), d, post. split_and!; [done| |done|done]. by constructor.
  - intros (pre & c & post & -> & Hpre & Hn & He). induction Hpre as [|d pre Hd _ IH]; simpl.
    + by rewrite decide_True, He.
    + by rewrite decide_False.
Qed.

Lemma find_command_none name (l : list (command W)) : find_command name l = None <-> Forall (fun c => cmd_name c <> name) l.
Proof.
  induction l as [|c l IH]; simpl; [by split|]. rewrite Forall_cons. case_decide; [|rewrite IH]; naive_solver.
Qed.

Lemma run_simple_after words s :
  run_simple words s =
    match expand_tokens expand_settings words s with
    | None => Some (Stop (Error ENOMEM) s)
    | Some argv => option_map (fun r => after r.1 r.2) (execv commands argv s)
    end.
Proof.
  unfold run_simple. destruct (expand_tokens _ words s) as [argv|]; [|done]. destruct (execv _ argv s) as [[rc s']|]; [|done].
  cbn [option_map fst snd]. rewrite <- after_stopped. by destruct (shell_stopped SHELL_STOP_COMMAND s').
Qed.

Lemma store_errno_cases rc s : rc = Status 0 /\ store_errno rc s = s \/ rc <> Status 0 /\ store_errno rc s = set_errno rc s.
Proof.
  unfold store_errno. destruct (decide (rc = Status 0)) as [->|Hn]; [left; by rewrite decide_False by (by intros [])|right; by rewrite decide_True].
Qed.

Lemma run_simple_performs words s o : run_simple words s = Some o <-> performs words s o.
Proof.
  rewrite run_simple_after. split.
  - destruct (expand_tokens _ words s) as [argv|] eqn:He.
    2:{ intros [= <-]. apply expand_tokens_none in He as (w & ? & ?). by econstructor. }
    apply expand_tokens_some in He. destruct argv as [|name args].
    { apply Forall2_nil_inv_r in He as ->. intros [= <-]. constructor. }
    cbn [execv]. destruct (find_command name commands) as [exec|] eqn:Hc.
    + apply find_command_some in Hc as (pre & c & post & Hcs & Hpre & Hn & <-).
      destruct (cmd_exec c _ _) as [[rc s']|] eqn:Hx; [|done]. intros [= <-]. cbn [fst snd].
      destruct (store_errno_cases rc s') as [[-> ->]|[Hne ->]]; [by eapply performs_success|by eapply performs_failure].
    + intros [= <-]. eapply performs_unknown; [exact He|]. by apply find_command_none.
  - intros H. destruct H as [words w s Hi Hw|s|words name args s He Hc|words name args pre c post s s' He -> Hpre Hn Hx|words name args pre c post rc s s' He -> Hpre Hn Hx Hrc].
    + assert (expand_tokens expand_settings words s = None) as -> by (apply expand_tokens_none; eauto). done.
    + done.
    + apply expand_tokens_some in He. rewrite He. cbn [execv]. apply find_command_none in Hc. by rewrite Hc.
    + apply expand_tokens_some in He. rewrite He. cbn [execv].
      assert (find_command name (pre ++ c :: post) = Some (cmd_exec c)) as -> by (apply find_command_some; eauto 10).
      change (set_getopt (reset_getopt (getopt s)) s) with (fresh_options s). rewrite Hx. done.
    + apply expand_tokens_some in He. rewrite He. cbn [execv].
      assert (find_command name (pre ++ c :: post) = Some (cmd_exec c)) as -> by (apply find_command_some; eauto 10).
      change (set_getopt (reset_getopt (getopt s)) s) with (fresh_options s). rewrite Hx.
      destruct (store_errno_cases rc s') as [[-> _]|[_ ->]]; done.
Qed.

Lemma process_fn_op p rc :
  process_fn (op_process p) rc = match p with And => bool_decide (rc = Status 0) | Or => bool_decide (rc <> Status 0) | Seq => true end.
Proof. by destruct p. Qed.

Lemma eval_executes l s o : eval l s = Some o <-> executes l s o.
Proof.
  split.
  - revert o. induction l as [argv|l IH p argv]; intros o; cbn [eval]; [intros H; constructor; by apply run_simple_performs|].
    destruct (eval l s) as [[rc s'|rc s']|]; cbn [run_operator fst snd]; [|by intros [= <-]; constructor; apply IH|done].
    specialize (IH _ eq_refl). rewrite process_fn_op. destruct p.
    + case_bool_decide as Hrc; [subst rc|intros [= <-]; by constructor]. intros H%run_simple_performs. by econstructor.
    + case_bool_decide as Hrc; [intros H%run_simple_performs; by econstructor|]. intros [= <-].
      destruct (decide (rc = Status 0)) as [->|]; [by constructor|done].
    + intros H%run_simple_performs. by econstructor.
  - induction 1 as [argv s o H%run_simple_performs|l p argv s rc s' _ IH|l argv s s' o _ IH H%run_simple_performs|l argv s rc s' _ IH Hrc
      |l argv s rc s' o _ IH Hrc H%run_simple_performs|l argv s s' _ IH|l argv s rc s' o _ IH H%run_simple_performs];
      cbn [eval]; [done|..]; rewrite IH; cbn [run_operator fst snd]; [done|..]; rewrite process_fn_op;
      first [done | by rewrite bool_decide_eq_true_2 | rewrite bool_decide_eq_false_2; naive_solver | idtac].
Qed.
End cmdline.

Lemma system_eval {W} commands expand_settings alloc_fails (s : shell W) text l comment :
  spaced text (cmdline_tokens l ++ comment) -> cmdline_ok l -> is_comment comment -> alloc_fails (S (length text)) s = false ->
  system commands expand_settings alloc_fails text s = option_map outcome_result (eval commands expand_settings l s).
Proof.
  intros Hs Hl Hc Ha. pose proof (split_command_words _ _ Hs) as Hw. unfold system. rewrite Ha.
  destruct (split_command text true) as [offsets buf]. destruct Hw as [Hw Hn]. rewrite Hw.
  rewrite cmdline_flatten, eval_flatten, <- app_assoc. destruct (cmdline_ok_flatten _ Hl) as [H1 H2].
  rewrite (system_loop_eval commands expand_settings (operators l)); [done|done|done|done| |by right].
  unfold operator_tokens. rewrite !length_app. clear. induction (operators l); simpl; [lia|]. rewrite length_app. lia.
Qed.

(** C25: when its copy can be allocated, a command line is the expression that
    its words denote: it is split exactly at white space, whatever the amount of it, into as many tokens as
    there is room for; a token starting with a hash begins a comment; and the
    commands are executed from left to right, after "&&" when the status so
    far is success, after "||" when it is a failure and after ";" always, until
    a command stops the line.  The line returns exactly when this execution
    does, with its status and state. *)
Theorem system_correct {W} commands expand_settings alloc_fails (s : shell W) text l comment :
  spaced text (cmdline_tokens l ++ comment) -> cmdline_ok l -> is_comment comment -> alloc_fails (S (length text)) s = false ->
  length (split_command text true).1 = length (split_command text false).1 /\
  forall r, system commands expand_settings alloc_fails text s = Some r <->
    exists o, executes commands expand_settings l s o /\ r = outcome_result o.
Proof.
  intros Hs Hl Hc Ha. split.
  - pose proof (split_command_words _ _ Hs) as Hw. destruct (split_command text true) as [offsets buf]. apply Hw.
  - intros r. rewrite (system_eval _ _ _ _ _ l comment) by done. setoid_rewrite <- eval_executes.
    destruct (eval commands expand_settings l s) as [o|]; simpl; split; [intros [= <-]; eauto|by intros (o' & [= ->] & ->)|done|by intros (o' & ? & _)].
Qed.

(** The theorem covers every command line: all strings consist of words, and
    all lists of words are an expression with a comment. *)
Lemma spaced_total s : Forall (fun c => c <> 0) s -> exists ws, spaced s ws.
Proof.
  induction 1 as [|c s Hc _ [ws IH]]; [by exists []; constructor|]. destruct (isspace c) eqn:Hsp.
  - destruct IH as [sp H|sp w rest ws H Hne Hw Hr Hs].
    + exists []. by repeat constructor.
    + exists (w :: ws). rewrite !app_comm_cons. constructor; [by constructor|done..].
  - assert (word_char c) as Hwc by done. destruct IH as [sp H|sp w rest ws H Hne Hw Hr Hs].
    + exists [[c]]. apply (spaced_word [] [c] sp []); [done|done|by repeat constructor| |by constructor].
      destruct H; [by left|by right].
    + destruct sp as [|x sp].
      * exists ((c :: w) :: ws). apply (spaced_word [] (c :: w)); [done|done|by constructor|done|done].
      * exists ([c] :: w :: ws). apply (spaced_word [] [c] ((x :: sp) ++ w ++ rest)); [done|done|by repeat constructor| |by constructor].
        right. by apply Forall_cons in H as [? _].
Qed.

Lemma cmdline_total tokens :
  exists l comment, tokens = cmdline_tokens l ++ comment /\ cmdline_ok l /\ is_comment comment.
Proof.
  assert (exists argv ops comment, tokens = argv ++ operator_tokens ops ++ comment /\ Forall is_argument argv /\
    Forall (fun c => Forall is_argument c.2) ops /\ is_comment comment) as (argv & ops & comment & -> & Ha & Ho & Hc).
  { induction tokens as [|t tokens (argv & ops & comment & -> & Ha & Ho & Hc)]; [by exists [], [], []; split_and!; [..|left]|].
    destruct (decide (get8 t 0 = 35)) as [|H1]; [by eexists [], [], _; split_and!; [..|right]|].
    assert (forall p, t = operator p -> exists argv' ops' comment', t :: argv ++ operator_tokens ops ++ comment =
      argv' ++ operator_tokens ops' ++ comment' /\ Forall is_argument argv' /\ Forall (fun c => Forall is_argument c.2) ops' /\
      is_comment comment') as Hop.
    { intros p ->. exists [], ((p, argv) :: ops), comment. unfold operator_tokens. simpl. rewrite <- app_assoc.
      split_and!; [done|done|by constructor|done]. }
    destruct (decide (t = lit "||")); [by apply (Hop Or)|].
    destruct (decide (t = lit "&&")); [by apply (Hop And)|].
    destruct (decide (t = lit ";")); [by apply (Hop Seq)|].
    exists (t :: argv), ops, comment. split_and!; [done| |done|done]. by constructor. }
  exists (foldl (fun l c => Chain l c.1 c.2) (Simple argv) ops), comment. rewrite (app_assoc argv).
  assert (forall l0, cmdline_ok l0 -> cmdline_tokens (foldl (fun l c => Chain l c.1 c.2) l0 ops) = cmdline_tokens l0 ++ operator_tokens ops /\
    cmdline_ok (foldl (fun l c => Chain l c.1 c.2) l0 ops)) as H.
  { unfold operator_tokens. clear -Ho. induction Ho as [|[p argv] ops Hp Ho IH]; intros l0 H0; simpl; [by rewrite app_nil_r|].
    destruct (IH (Chain l0 p argv)) as [-> H]; [done|]. split; [|done]. simpl. by rewrite <- app_assoc. }
  destruct (H (Simple argv) Ha) as [-> H2]. done.
Qed.

(** ** The commands of core/exec.c *)

(** [endp] must be the end of a string that is not empty. *)
Definition parse_integer (text : list Z) : option (result Z) :=
  match strtoul (S (S (length text))) (mem_of text) 0 0 with
  | None => None
  | Some (value, endp) =>
    Some (if decide (mem_of text endp <> 0 \/ mem_of text 0 = 0) then Err EINVAL else Ok (u32 value))
  end.

Section commands.
Context {W : Type} (alloc_fails : nat -> shell W -> bool) (puts : list Z -> W -> W).
Implicit Types s : shell W.

(** Parses the options of a command, and goes on with the arguments. *)
Definition with_options {O} (cmd : command_descriptor O) (zero : O) (argv : list (list Z)) s
    (k : O -> list (list Z) -> shell W -> option (status * shell W)) : option (status * shell W) :=
  match parse_options (S (unread argv 1)) argv cmd zero (getopt s) with
  | None => None
  | Some (Err e, g) => Some (Error e, set_getopt g s)
  | Some (Ok opts, g) => k opts (drop (optind g) argv) (set_getopt g s)
  end.

Definition concat_args (args : list (list Z)) s : option (list Z) :=
  let len := foldr (fun arg n => S (length arg) + n)%nat 1%nat args in
  if alloc_fails len s then None else
  Some (match args with [] => [] | arg :: args => foldl (fun text arg => text ++ lit " " ++ arg) arg args end).

Definition echo_cmd : command_descriptor bool := CommandDesc [OptionDesc (lit "n") 110 no_argument (fun t _ => parse_flag t)] 0 255.
Definition echo_exec (argv : list (list Z)) (s : shell W) : option (status * shell W) :=
  with_options echo_cmd false argv s (fun no_newline args s =>
    match concat_args args s with
    | None => Some (Error ENOMEM, s)
    | Some text =>
      Some (Status 0, Shell (stop_state s) (sh_errno s) (getopt s) (script_offset s) (current_image s)
                        (puts (text ++ if (no_newline : bool) then [] else [10]) (world s)))
    end).

Definition exit_cmd : command_descriptor unit := CommandDesc [] 0 1.
Definition exit_exec (argv : list (list Z)) (s : shell W) : option (status * shell W) :=
  with_options exit_cmd tt argv s (fun _ args s =>
    match args with
    | [] => Some (Status 0, shell_stop SHELL_STOP_COMMAND_SEQUENCE s)
    | arg :: _ =>
      match parse_integer arg with
      | None => None
      | Some (Err e) => Some (Error e, s)
      | Some (Ok exit_code) => Some (Status (s32 exit_code), shell_stop SHELL_STOP_COMMAND_SEQUENCE s)
      end
    end).

Definition isset_cmd : command_descriptor unit := CommandDesc [] 1 1.
Definition isset_exec (argv : list (list Z)) (s : shell W) : option (status * shell W) :=
  with_options isset_cmd tt argv s (fun _ args s =>
    Some (if decide (get8 (nth 0 args []) 0 <> 0) then Status 0 else Error ENOENT, s)).

Definition iseq_cmd : command_descriptor unit := CommandDesc [] 2 2.
Definition iseq_exec (argv : list (list Z)) (s : shell W) : option (status * shell W) :=
  with_options iseq_cmd tt argv s (fun _ args s =>
    Some (if decide (nth 0 args [] = nth 1 args []) then Status 0 else Error ERANGE, s)).

(** A command without options, on arguments that do not look like options. *)
Lemma with_no_options min max argv0 args s k :
  get8 (default [] (head args)) 0 <> 45 -> min <= Z.of_nat (length args) <= max -> Z.of_nat (S (length args)) < 2 ^ 32 ->
  optind (getopt s) = 1%nat ->
  with_options (CommandDesc [] min max) tt (argv0 :: args) s k = k tt args (set_getopt (getopt s) s).
Proof.
  intros Hd Hr Hl Hg. unfold with_options, parse_options, reparse_options. cbn [options_loop].
  assert (getopt_long (argv0 :: args) (shortopts (CommandDesc (O := unit) [] min max)) (longopts (CommandDesc (O := unit) [] min max)) (getopt s)
    = (-1, getopt s)) as ->.
  { unfold getopt_long. rewrite Hg. destruct args as [|a args]; [done|]. simpl in Hd |- *. by rewrite decide_True. }
  rewrite decide_True by lia. rewrite Hg. cbn [min_args max_args length]. rewrite wrap_small by zlia.
  rewrite decide_False by lia. by rewrite Hg.
Qed.

(** [iseq] compares its arguments. *)
Lemma iseq_exec_spec a b s :
  get8 a 0 <> 45 -> optind (getopt s) = 1%nat ->
  option_map fst (iseq_exec [lit "iseq"; a; b] s) = Some (if decide (a = b) then Status 0 else Error ERANGE).
Proof.
  intros Ha Hg. unfold iseq_exec, iseq_cmd.
  by rewrite with_no_options by (done || simpl; lia).
Qed.
End commands.

(** ** Examples *)

Definition demo_shell : shell (list Z) := Shell 0 (Status 0) any_getopt 0 None [].
Definition demo_commands : list (command (list Z)) :=
  [Command (lit "echo") (echo_exec (fun _ _ => false) (fun t w => w ++ t)); Command (lit "exit") exit_exec;
   Command (lit "isset") isset_exec; Command (lit "iseq") iseq_exec].
Definition demo_line : cmdline :=
  Chain (Chain (Simple [lit "iseq"; lit "a"; lit "b"]) Or [lit "echo"; lit "-n"; lit "no"]) And [lit "exit"; lit "3"].

Ltac next_word sp w rest :=
  apply (spaced_word sp w rest);
  [repeat first [apply Forall_nil_2 | apply Forall_cons_2]; done | done
  |repeat first [apply Forall_nil_2 | apply Forall_cons_2]; by split | first [by left | by right] |].

Lemma system_correct_witness :
  length (split_command (lit "iseq a b || echo -n no && exit 3 # done") true).1 =
    length (split_command (lit "iseq a b || echo -n no && exit 3 # done") false).1 /\
  exists r, system demo_commands (fun t _ => Some t) (fun _ _ => false) (lit "iseq a b || echo -n no && exit 3 # done") demo_shell = Some r /\
    r.1 = Status 3 /\ stop_state r.2 = 2 /\ world r.2 = lit "no" /\
    exists o, executes demo_commands (fun t _ => Some t) demo_line demo_shell o /\ r = outcome_result o.
Proof.
  destruct (system_correct demo_commands (fun t _ => Some t) (fun _ _ => false) demo_shell
    (lit "iseq a b || echo -n no && exit 3 # done") demo_line [lit "#"; lit "done"]) as [H1 H2].
  - next_word (@nil Z) (lit "iseq") (lit " a b || echo -n no && exit 3 # done"). next_word (lit " ") (lit "a") (lit " b || echo -n no && exit 3 # done").
    next_word (lit " ") (lit "b") (lit " || echo -n no && exit 3 # done"). next_word (lit " ") (lit "||") (lit " echo -n no && exit 3 # done").
    next_word (lit " ") (lit "echo") (lit " -n no && exit 3 # done"). next_word (lit " ") (lit "-n") (lit " no && exit 3 # done").
    next_word (lit " ") (lit "no") (lit " && exit 3 # done"). next_word (lit " ") (lit "&&") (lit " exit 3 # done"). next_word (lit " ") (lit "exit") (lit " 3 # done").
    next_word (lit " ") (lit "3") (lit " # done"). next_word (lit " ") (lit "#") (lit " done"). next_word (lit " ") (lit "done") (@nil Z). by apply spaced_end.
  - split; [split|]; repeat first [apply Forall_nil_2 | apply Forall_cons_2]; split_and!; done.
  - by right.
  - done.
  - split; [exact H1|]. eexists. assert (system demo_commands (fun t _ => Some t) (fun _ _ => false) (lit "iseq a b || echo -n no && exit 3 # done") demo_shell = Some _)
      as Hr by (vm_compute; reflexivity). split; [exact Hr|]. split_and!; [done..|]. apply H2. exact Hr.
Defined.
