(* ===== verification/Script.v ===== *)
(** * Scripts (image/script.c)

    A script is the contents of an image.  [process_script] reads physical
    lines, joins continued lines, splits off labels and hands each line to a
    processor; the offset of the next line is a global variable, which the
    processor may change.  [None] is exhausted fuel: a script may loop.

    [program] is the list of the logical lines of a script, and [means] what
    they are in terms of the text of the script.
    The theorems: processing a script is running its logical lines in order
    ([process_script_correct]), and a goto continues with the first line that
    carries the label, or fails without an effect ([goto_jumps],
    [goto_exec_correct]). *)

From S2P Require Import Prelude CMem Strings Getopt Exec.

Section script.
Context {W : Type} (alloc_fails : nat -> shell W -> bool).
Implicit Types s : shell W.

(** The characters before the newline. *)
Fixpoint fragment (l : list Z) : list Z :=
  match l with
  | [] => []
  | c :: l => if decide (c = 10) then [] else c :: fragment l
  end.

Definition last_is (c : Z) (l : list Z) : bool := match last l with Some x => bool_decide (x = c) | None => false end.

Definition strip_cr (line : list Z) : list Z := if last_is 13 line then removelast line else line.

Fixpoint skip_white (l : list Z) : list Z :=
  match l with
  | c :: l' => if isspace c then skip_white l' else l
  | [] => []
  end.

(** A label ends at white space, which is dropped. *)
Fixpoint split_label (l : list Z) : list Z * list Z :=
  match l with
  | [] => ([], [])
  | c :: l => if isspace c then ([], l) else let '(label, command) := split_label l in (c :: label, command)
  end.

Definition parse_line (line : list Z) : option (list Z) * list Z :=
  let command := skip_white (cstring line) in
  match command with
  | 58 :: command => let '(label, command) := split_label command in (Some label, command)
  | _ => (None, command)
  end.

Section process_script.
Context (image : list Z) (process_line : nat -> option (list Z) -> list Z -> shell W -> option (status * shell W))
        (terminate : status -> shell W -> bool * shell W).

(** One iteration: [line] is what was read of the line so far. *)
Fixpoint script_loop (fuel : nat) (line : list Z) (line_offset : nat) s : option (status * shell W) :=
  match fuel with
  | O => None
  | S fuel =>
    let frag := fragment (drop (script_offset s) image) in
    if alloc_fails (length line + length frag + 1) s then Some (Error ENOMEM, s) else
    let line := line ++ frag in
    let s := set_offset (script_offset s + (length frag + 1)) s in
    let line := strip_cr line in
    if last_is 92 line then
      if decide (script_offset s < length image)%nat then script_loop fuel (removelast line) line_offset s
      else Some (Error EINVAL, s)
    else
      let '(label, command) := parse_line line in
      match process_line line_offset label command s with
      | None => None
      | Some (rc, s) =>
        let '(stop, s) := terminate rc s in
        if (stop : bool) then Some (rc, s)
        else if decide (script_offset s < length image)%nat then script_loop fuel [] (script_offset s) s
        else Some (rc, s)
      end
  end.

Definition process_script (fuel : nat) s : option (status * shell W) := script_loop fuel [] 0 (set_offset 0 s).
End process_script.

(** ** Executing scripts *)

Context (commands : list (command W)) (expand_settings : list Z -> shell W -> option (list Z))
        (unregister_image register_image : list Z -> W -> W) (replaced : list Z -> W -> bool).

Definition terminate_on_exit_or_failure (rc : status) s : bool * shell W :=
  let '(stopped, s) := shell_stopped SHELL_STOP_COMMAND_SEQUENCE s in
  (stopped || bool_decide (rc <> Status 0), s).

Definition script_exec_line (offset : nat) (label : option (list Z)) (command : list Z) s : option (status * shell W) :=
  system commands expand_settings alloc_fails command s.

Definition set_world (w : W) s : shell W :=
  Shell (stop_state s) (sh_errno s) (getopt s) (script_offset s) (current_image s) w.

Definition script_exec (fuel : nat) (image : list Z) s : option (status * shell W) :=
  let s := set_world (unregister_image image (world s)) s in
  let saved_offset := script_offset s in
  match process_script image script_exec_line terminate_on_exit_or_failure fuel s with
  | None => None
  | Some (rc, s) =>
    let s := set_offset saved_offset s in
    Some (rc, if replaced image (world s) then s else set_world (register_image image (world s)) s)
  end.

Definition script_probe (image : list Z) : result unit :=
  if decide (length image < 7)%nat then Err ENOEXEC else
  let test := take 7 image in
  if (bool_decide (take 6 test = lit "#!ipxe") || bool_decide (take 6 test = lit "#!gpxe")) && isspace (get8 test 6)
  then Ok tt else Err ENOEXEC.

(** ** Goto *)

Definition goto_find_label (goto_label : list Z) (offset : nat) (label : option (list Z)) (command : list Z) s :
    option (status * shell W) :=
  match label with
  | None => Some (Error ENOENT, s)
  | Some label => if decide (goto_label <> label) then Some (Error ENOENT, s) else Some (Status 0, set_offset offset s)
  end.

Definition terminate_on_label_found (rc : status) s : bool * shell W := (bool_decide (rc = Status 0), s).

Definition goto_cmd : command_descriptor unit := CommandDesc [] 1 1.

(** The search reads each physical line once. *)
Definition goto_exec (argv : list (list Z)) (s : shell W) : option (status * shell W) :=
  with_options goto_cmd tt argv s (fun _ args s =>
    match current_image s with
    | None => Some (Error ENOTTY, s)
    | Some image =>
      let goto_label := nth 0 args [] in
      let saved_offset := script_offset s in
      match process_script image (goto_find_label goto_label) terminate_on_label_found (S (length image)) s with
      | None => None
      | Some (Status 0, s) => Some (Status 0, shell_stop SHELL_STOP_COMMAND s)
      | Some (rc, s) => Some (rc, set_offset saved_offset s)
      end
    end).
End script.

(** ** The logical lines of a script *)

Record script_line := Line {
  sl_offset : nat;
  sl_label : option (list Z);
  sl_command : list Z;
  sl_next : nat;
}.

(** Physical lines; a newline at the end starts no line. *)
Fixpoint lines_of (l : list Z) : list (list Z) :=
  match l with
  | [] => []
  | c :: l =>
    if decide (c = 10) then [] :: lines_of l
    else match lines_of l with [] => [[c]] | p :: ps => (c :: p) :: ps end
  end.

(** The logical line that starts at [off], of which [acc] was read up to [cur],
    and those after it; and the end of the script if the last line is
    continued there. *)
Fixpoint logical (off cur : nat) (acc : option (list Z)) (ps : list (list Z)) : list script_line * option nat :=
  match ps with
  | [] => ([], match acc with None => None | Some _ => Some cur end)
  | p :: ps =>
    let text := strip_cr (default [] acc ++ p) in
    let next := (cur + (length p + 1))%nat in
    if last_is 92 text then logical off next (Some (removelast text)) ps
    else let '(label, command) := parse_line text in
         let '(ls, t) := logical next next None ps in
         (Line off label command next :: ls, t)
  end.

Lemma logical_cons off cur acc p ps :
  logical off cur acc (p :: ps) =
    let text := strip_cr (default [] acc ++ p) in
    let next := (cur + (length p + 1))%nat in
    if last_is 92 text then logical off next (Some (removelast text)) ps
    else (Line off (parse_line text).1 (parse_line text).2 next :: (logical next next None ps).1, (logical next next None ps).2).
Proof. cbn [logical]. cbv zeta. destruct (last_is 92 _); [done|]. destruct (parse_line _), (logical _ _ None ps). done. Qed.

Definition lines_from (image : list Z) (o : nat) : list script_line * option nat := logical o o None (lines_of (drop o image)).

(** The empty image has one empty line. *)
Definition program (image : list Z) : list script_line * option nat :=
  logical 0 0 None (match image with [] => [[]] | _ => lines_of image end).

Lemma lines_of_unfold x : x <> [] -> lines_of x = fragment x :: lines_of (drop (length (fragment x) + 1) x).
Proof.
  induction x as [|c x IH]; intros Hne; [done|]. simpl. destruct (decide (c = 10)); [done|]. simpl.
  destruct x as [|c' x]; [done|]. by rewrite IH by done.
Qed.

Lemma logical_first off cur acc ps l ls t : logical off cur acc ps = (l :: ls, t) -> sl_offset l = off.
Proof.
  revert off cur acc. induction ps as [|p ps IH]; intros off cur acc; [done|]. cbn [logical]. destruct (last_is 92 _); [apply IH|].
  destruct (parse_line _) as [label command]. destruct (logical _ _ None ps) as [ls' t']. intros [= <- <- <-]. done.
Qed.

Lemma lines_of_step cur image p ps :
  p :: ps = lines_of (drop cur image) -> p = fragment (drop cur image) /\ ps = lines_of (drop (cur + (length p + 1)) image).
Proof.
  intros Hps. destruct (decide (drop cur image = [])) as [He|Hne]; [by rewrite He in Hps|].
  rewrite lines_of_unfold in Hps by done. injection Hps as -> ->. by rewrite drop_drop.
Qed.

(** A suffix of a program is the program from there. *)
Lemma logical_suffix image off cur acc ps pre l post t :
  ps = lines_of (drop cur image) -> logical off cur acc ps = (pre ++ l :: post, t) -> pre <> [] \/ acc = None /\ off = cur ->
  lines_from image (sl_offset l) = (l :: post, t).
Proof.
  revert off cur acc pre. induction ps as [|p ps IH]; intros off cur acc pre Hps Hl Hpre; [by destruct pre|].
  destruct pre as [|x pre].
  { destruct Hpre as [?|[-> ->]]; [done|]. rewrite (logical_first _ _ _ _ _ _ _ Hl). unfold lines_from. by rewrite <- Hps. }
  destruct (lines_of_step _ _ _ _ Hps) as [_ Hps']. cbn [logical] in Hl. destruct (last_is 92 _).
  - eapply IH; [exact Hps'|exact Hl|by left].
  - destruct (parse_line _) as [label command]. destruct (logical _ _ None ps) as [ls' t'] eqn:Hls. injection Hl as <- -> ->.
    eapply IH; [exact Hps'|exact Hls|by right].
Qed.

Lemma program_suffix image pre l post t : program image = (pre ++ l :: post, t) -> lines_from image (sl_offset l) = (l :: post, t) \/ image = [].
Proof.
  unfold program. intros Hp. destruct image as [|c image]; [by right|left].
  eapply (logical_suffix _ 0 0 None); [|exact Hp|by right]. done.
Qed.

(** ** Running logical lines *)

Section run.
Context {W : Type} (image : list Z) (process_line : nat -> option (list Z) -> list Z -> shell W -> option (status * shell W))
        (terminate : status -> shell W -> bool * shell W).
Implicit Types s : shell W.

(** The first line is processed with the offset of the next; then the lines
    from the offset that the processor left are run. *)
Fixpoint run (fuel : nat) (prog : list script_line * option nat) (rc : status) s : option (status * shell W) :=
  match prog with
  | ([], None) => Some (rc, s)
  | ([], Some o) => Some (Error EINVAL, set_offset o s)
  | (l :: _, _) =>
    match fuel with
    | O => None
    | S fuel =>
      match process_line (sl_offset l) (sl_label l) (sl_command l) (set_offset (sl_next l) s) with
      | None => None
      | Some (rc, s) =>
        let '(stop, s) := terminate rc s in
        if (stop : bool) then Some (rc, s) else run fuel (lines_from image (script_offset s)) rc s
      end
    end
  end.

Context (alloc_fails : nat -> shell W -> bool) (no_failure : forall n s, alloc_fails n s = false).
Abbreviation loop := (script_loop alloc_fails image process_line terminate).

(** What the loop does once a line is complete. *)
Definition finish_line (fuel : nat) (l : script_line) s : option (status * shell W) :=
  match process_line (sl_offset l) (sl_label l) (sl_command l) (set_offset (sl_next l) s) with
  | None => None
  | Some (rc, s) =>
    let '(stop, s) := terminate rc s in
    if (stop : bool) then Some (rc, s)
    else if decide (script_offset s < length image)%nat then loop fuel [] (script_offset s) s else Some (rc, s)
  end.

Lemma set_offset_twice o o' s : set_offset o (set_offset o' s) = set_offset o s.
Proof. done. Qed.

Lemma loop_step n line off s :
  let p := fragment (drop (script_offset s) image) in
  let text := strip_cr (line ++ p) in
  let next := (script_offset s + (length p + 1))%nat in
  loop (S n) line off s =
    if last_is 92 text then
      if decide (next < length image)%nat then loop n (removelast text) off (set_offset next s)
      else Some (Error EINVAL, set_offset next s)
    else finish_line n (Line off (parse_line text).1 (parse_line text).2 next) s.
Proof.
  cbn [script_loop]. rewrite no_failure. cbn [set_offset script_offset]. destruct (last_is 92 _); [done|].
  unfold finish_line. cbn [sl_offset sl_label sl_command sl_next]. by destruct (parse_line _).
Qed.

Lemma lines_of_nil_iff cur : lines_of (drop cur image) = [] <-> ~ (cur < length image)%nat.
Proof.
  split.
  - intros H Hlt. destruct (drop cur image) eqn:Hd; [apply (f_equal length) in Hd; rewrite length_drop in Hd; simpl in Hd; lia|].
    rewrite lines_of_unfold in H; done.
  - intros H. by rewrite drop_ge by lia.
Qed.

(** The loop reads a logical line, with one unit of fuel for each physical line. *)
Lemma loop_reads p ps acc off s n r :
  p = fragment (drop (script_offset s) image) -> ps = lines_of (drop (script_offset s + (length p + 1)) image) ->
  match logical off (script_offset s) acc (p :: ps) with
  | ([], None) => False
  | ([], Some o) =>
      (loop n (default [] acc) off s = Some r -> r = (Error EINVAL, set_offset o s)) /\
      loop (S (length ps)) (default [] acc) off s = Some (Error EINVAL, set_offset o s)
  | (l :: _, _) =>
      (loop n (default [] acc) off s = Some r -> exists k, (k < n)%nat /\ finish_line k l s = Some r) /\
      (finish_line n l s = Some r -> exists k, (k <= S n + length ps)%nat /\ loop k (default [] acc) off s = Some r)
  end.
Proof.
  revert p acc s n. induction ps as [|p' ps IH]; intros p acc s n Hp Hps; rewrite logical_cons; cbv zeta;
    pose proof (fun n => loop_step n (default [] acc) off s) as Hstep; cbv zeta in Hstep; rewrite <- Hp in Hstep;
    set (text := strip_cr (default [] acc ++ p)) in *; set (next := (script_offset s + (length p + 1))%nat) in *.
  - apply eq_sym, lines_of_nil_iff in Hps. destruct (last_is 92 text) eqn:Hl; cbn [logical].
    + assert (forall n, loop (S n) (default [] acc) off s = Some (Error EINVAL, set_offset next s)) as Hstep'
        by (intros k; by rewrite Hstep, decide_False).
      clear Hstep. rename Hstep' into Hstep. split; [|by rewrite Hstep].
      destruct n; [done|]. rewrite Hstep. by intros [= <-].
    + split.
      * destruct n as [|n]; [done|]. rewrite Hstep. intros H. exists n. split; [lia|done].
      * intros H. exists (S n). rewrite Hstep. split; [lia|done].
  - assert (next < length image)%nat as Hlt.
    { destruct (decide (next < length image)%nat) as [|Hn]; [done|]. apply lines_of_nil_iff in Hn. by rewrite Hn in Hps. }
    destruct (lines_of_step _ _ _ _ Hps) as [Hp' Hps']. destruct (last_is 92 text) eqn:Hl.
    + assert (forall n, loop (S n) (default [] acc) off s = loop n (removelast text) off (set_offset next s)) as Hstep'
        by (intros k; by rewrite Hstep, decide_True).
      clear Hstep. rename Hstep' into Hstep.
      specialize (IH p' (Some (removelast text)) (set_offset next s)). cbn [set_offset script_offset] in IH.
      pose proof (IH (pred n) Hp' Hps') as IH1. pose proof (IH n Hp' Hps') as IH2. clear IH. revert IH1 IH2.
      destruct (logical off next (Some (removelast text)) (p' :: ps)) as [[|l ls] t]; [destruct t as [o|]; [|done]|]; cbv beta iota.
      * intros [H1 H2] _. split; [|cbn [length]; rewrite Hstep; exact H2]. destruct n as [|n]; [done|]. rewrite Hstep. exact H1.
      * intros [H1 _] [_ H2]. split.
        -- destruct n as [|n]; [done|]. rewrite Hstep. intros (k & Hk & H)%H1. exists k. simpl in Hk. split; [lia|exact H].
        -- intros H. destruct (H2 H) as (k & Hk & Hloop). exists (S k). rewrite Hstep. simpl. split; [lia|done].
    + split.
      * destruct n as [|n]; [done|]. rewrite Hstep. intros H. exists n. split; [lia|done].
      * intros H. exists (S n). rewrite Hstep. split; [lia|done].
Qed.

Lemma lines_from_end o : ~ (o < length image)%nat -> lines_from image o = ([], None).
Proof. intros H. unfold lines_from. by rewrite drop_ge by lia. Qed.

(** The loop at the start of a line that exists, and the lines from there. *)
Definition at_line (ps : list (list Z)) s : Prop :=
  exists p ps', ps = p :: ps' /\ p = fragment (drop (script_offset s) image) /\
    ps' = lines_of (drop (script_offset s + (length p + 1)) image).

Lemma at_line_from s : (script_offset s < length image)%nat -> at_line (lines_of (drop (script_offset s) image)) s.
Proof.
  intros Hlt. destruct (lines_of (drop (script_offset s) image)) as [|p ps] eqn:Hl; [by apply lines_of_nil_iff in Hl|].
  exists p, ps. split; [done|]. by apply lines_of_step.
Qed.

Lemma loop_run n ps off rc s r :
  at_line ps s -> off = script_offset s ->
  loop n [] off s = Some r -> exists k, run k (logical off off None ps) rc s = Some r.
Proof.
  revert ps off rc s. induction (lt_wf n) as [n _ IH]. intros ps off rc s (p & ps' & -> & Hp & Hps) -> Hl.
  pose proof (loop_reads p ps' None (script_offset s) s n r Hp Hps) as Hr. cbn [default] in Hr.
  destruct (logical _ _ None (p :: ps')) as [[|l ls] t]; [destruct t as [o|]; [|done]|]; destruct Hr as [Hr _].
  { exists 0%nat. rewrite (Hr Hl). done. }
  destruct (Hr Hl) as (k & Hk & Hf). unfold finish_line in Hf. 
  destruct (process_line _ _ _ _) as [[rc1 s1]|] eqn:Hpl; [|done]. destruct (terminate rc1 s1) as [[] s2] eqn:Ht.
  { exists 1%nat. cbn [run]. by rewrite Hpl, Ht. }
  destruct (decide (script_offset s2 < length image)%nat) as [Hlt|Hge].
  - destruct (IH k Hk (lines_of (drop (script_offset s2) image)) (script_offset s2) rc1 s2) as (m & Hm); [by apply at_line_from|done|done|].
    exists (S m). cbn [run]. rewrite Hpl, Ht. exact Hm.
  - exists 1%nat. cbn [run]. rewrite Hpl, Ht, lines_from_end by done. exact Hf.
Qed.

Lemma run_loop n ps off rc s r :
  at_line ps s -> off = script_offset s ->
  run n (logical off off None ps) rc s = Some r -> exists k, loop k [] off s = Some r.
Proof.
  revert ps off rc s. induction n as [|n IH]; intros ps off rc s (p & ps' & -> & Hp & Hps) -> Hrun;
    pose proof (fun m => loop_reads p ps' None (script_offset s) s m r Hp Hps) as Hr; cbn [default] in Hr; revert Hr Hrun;
    destruct (logical _ _ None (p :: ps')) as [[|l ls] t]; try (destruct t as [o|]; [|by intros Hr; destruct (Hr 0%nat)]);
    intros Hr Hrun; cbn [run] in Hrun.
  1, 3: injection Hrun as <-; exists (S (length ps')); by apply (Hr 0%nat).
  - done.
  - assert (exists k, finish_line k l s = Some r) as [k Hk]; [|destruct (Hr k) as [_ H]; destruct (H Hk) as (m & _ & Hm); by exists m].
    unfold finish_line. destruct (process_line _ _ _ _) as [[rc1 s1]|]; [|done].
    destruct (terminate rc1 s1) as [[] s2]; [by exists 0%nat|].
    destruct (decide (script_offset s2 < length image)%nat) as [Hlt|Hge]; [|rewrite lines_from_end in Hrun by done; by destruct n; exists 0%nat].
    destruct (IH (lines_of (drop (script_offset s2) image)) (script_offset s2) rc1 s2) as (k & Hk); [by apply at_line_from|done|done|by exists k].
Qed.
End run.

Lemma at_start {W} image (s : shell W) :
  at_line image (match image with [] => [[]] | _ => lines_of image end) (set_offset 0 s).
Proof.
  destruct image as [|c image]; [by exists [], []|].
  refine (at_line_from (c :: image) (set_offset 0 s) _). simpl. lia.
Qed.

Lemma process_script_run {W} alloc_fails image process_line terminate (s : shell W) r :
  (forall n s, alloc_fails n s = false) ->
  (exists n, process_script alloc_fails image process_line terminate n s = Some r) <->
  (exists n, run image process_line terminate n (program image) (Status 0) (set_offset 0 s) = Some r).
Proof.
  intros Ha. unfold process_script, program. split; intros [n Hn].
  - eapply loop_run; [exact Ha|apply at_start|done|exact Hn].
  - eapply run_loop; [exact Ha|apply at_start|done|exact Hn].
Qed.

(** ** What a script means

    The specification reads the text of the script without the functions of
    the code. *)

(** Without the carriage return at its end, if it has one. *)
Definition chomped (text line : list Z) : Prop :=
  text = line ++ [13] \/ text = line /\ forall front, line <> front ++ [13].

Definition blank (l : list Z) : Prop := Forall (fun c => isspace c = true) l.
Definition solid (l : list Z) : Prop := Forall (fun c => c <> 0 /\ isspace c = false) l.

(** [reads line label command]: the text up to the first NUL is white space
    followed by the command, which is not a label; or by a colon, a name
    without white space and, after one character of white space, the command. *)
Inductive reads : list Z -> option (list Z) -> list Z -> Prop :=
  | reads_command sp command rest :
      blank sp -> Forall (fun c => c <> 0) command -> rest = [] \/ (exists l, rest = 0 :: l) ->
      command = [] \/ (exists c l, command = c :: l /\ isspace c = false /\ c <> 58) ->
      reads (sp ++ command ++ rest) None command
  | reads_label sp name rest :
      blank sp -> solid name -> rest = [] \/ (exists l, rest = 0 :: l) ->
      reads (sp ++ [58] ++ name ++ rest) (Some name) []
  | reads_label_command sp name c command rest :
      blank sp -> solid name -> isspace c = true -> Forall (fun c => c <> 0) command -> rest = [] \/ (exists l, rest = 0 :: l) ->
      reads (sp ++ [58] ++ name ++ [c] ++ command ++ rest) (Some name) command.

(** [means off cur acc ps ls t]: the physical lines [ps], which start at [cur],
    are the logical lines [ls], the first of which starts at [off] and has the
    text [acc] before [ps]; and the last one ends with a continuation at [t]. *)
Inductive means : nat -> nat -> list Z -> list (list Z) -> list script_line -> option nat -> Prop :=
  | means_end cur : means cur cur [] [] [] None
  | means_unfinished off cur acc p line :
      chomped (acc ++ p) (line ++ [92]) -> means off cur acc [p] [] (Some (cur + length p + 1)%nat)
  | means_continued off cur acc p p' ps line ls t :
      chomped (acc ++ p) (line ++ [92]) -> means off (cur + length p + 1) line (p' :: ps) ls t ->
      means off cur acc (p :: p' :: ps) ls t
  | means_line off cur acc p ps line label command ls t :
      chomped (acc ++ p) line -> (forall front, line <> front ++ [92]) -> reads line label command ->
      means (cur + length p + 1) (cur + length p + 1) [] ps ls t ->
      means off cur acc (p :: ps) (Line off label command (cur + length p + 1) :: ls) t.

Section means.
Context {W : Type} (image : list Z) (process_line : nat -> option (list Z) -> list Z -> shell W -> option (status * shell W))
        (terminate : status -> shell W -> bool * shell W).
Implicit Types s : shell W.

(** [performed ls t rc s r]: the script continues with the lines [ls], after
    the status [rc].  The first of them is processed, with the offset of the
    one after it; then the lines at the offset that it left are performed. *)
Inductive performed : list script_line -> option nat -> status -> shell W -> status * shell W -> Prop :=
  | performed_end rc s : performed [] None rc s (rc, s)
  | performed_unfinished o rc s : performed [] (Some o) rc s (Error EINVAL, set_offset o s)
  | performed_last l ls t rc s rc' s' s'' :
      process_line (sl_offset l) (sl_label l) (sl_command l) (set_offset (sl_next l) s) = Some (rc', s') ->
      terminate rc' s' = (true, s'') -> performed (l :: ls) t rc s (rc', s'')
  | performed_line l ls t rc s rc' s' s'' ls' t' r :
      process_line (sl_offset l) (sl_label l) (sl_command l) (set_offset (sl_next l) s) = Some (rc', s') ->
      terminate rc' s' = (false, s'') ->
      means (script_offset s'') (script_offset s'') [] (lines_of (drop (script_offset s'') image)) ls' t' ->
      performed ls' t' rc' s'' r -> performed (l :: ls) t rc s r.
End means.

(** *** The functions of the code satisfy it *)

Lemma last_is_snoc c l : last_is c l = true <-> exists front, l = front ++ [c].
Proof.
  unfold last_is. destruct l as [|x l _] using rev_ind; [split; [done|by intros ([|] & ?)]|].
  rewrite last_snoc, bool_decide_eq_true. split; [intros ->; eauto|]. by intros (front & [_ [= ->]]%app_inj_2).
Qed.

Lemma last_is_not c l : last_is c l = false <-> forall front, l <> front ++ [c].
Proof.
  rewrite <- not_true_iff_false, last_is_snoc. naive_solver.
Qed.

Lemma chomped_strip text line : chomped text line <-> line = strip_cr text.
Proof.
  unfold strip_cr. destruct (last_is 13 text) eqn:Hl.
  - apply last_is_snoc in Hl as (front & ->). rewrite removelast_last. split.
    + intros [[? _]%app_inj_2|[<- H]]; [done|done|]. by destruct (H front).
    + intros ->. by left.
  - rewrite last_is_not in Hl. split; [|intros ->; by right]. by intros [->|[-> _]]; [destruct (Hl line)|].
Qed.

Lemma blank_nonzero l : blank l -> Forall (fun c => c <> 0) l.
Proof. intros H. eapply Forall_impl; [exact H|]. by intros c Hc ->. Qed.
Lemma solid_nonzero l : solid l -> Forall (fun c => c <> 0) l.
Proof. intros H. eapply Forall_impl; [exact H|]. by intros c [Hc _]. Qed.

Lemma cstring_stops a rest : Forall (fun c => c <> 0) a -> rest = [] \/ (exists l, rest = 0 :: l) -> cstring (a ++ rest) = a.
Proof.
  intros Ha Hr. induction Ha as [|c a Hc _ IH]; simpl; [destruct Hr as [->|[l ->]]; done|]. by rewrite decide_False, IH.
Qed.

Lemma cstring_split l : exists rest, l = cstring l ++ rest /\ Forall (fun c => c <> 0) (cstring l) /\ (rest = [] \/ exists m, rest = 0 :: m).
Proof.
  induction l as [|c l (rest & Hl & Hf & Hr)]; [by exists []; split_and!; [..|left]|]. simpl. case_decide as Hc.
  - subst c. exists (0 :: l). split_and!; [done|done|eauto].
  - exists rest. split_and!; [simpl; by rewrite <- Hl|by constructor|done].
Qed.

Lemma skip_white_app sp l : blank sp -> l = [] \/ (exists c m, l = c :: m /\ isspace c = false) -> skip_white (sp ++ l) = l.
Proof.
  intros Hsp Hl. induction Hsp as [|c sp Hc _ IH]; simpl; [|by rewrite Hc].
  destruct Hl as [->|(c & m & -> & Hc)]; [done|]. simpl. by rewrite Hc.
Qed.

Lemma skip_white_split l : exists sp, l = sp ++ skip_white l /\ blank sp /\ (skip_white l = [] \/ exists c m, skip_white l = c :: m /\ isspace c = false).
Proof.
  induction l as [|c l (sp & Hl & Hs & Hw)]; [exists []; split_and!; [done|constructor|by left]|]. simpl. destruct (isspace c) eqn:Hc.
  - exists (c :: sp). split_and!; [simpl; by rewrite <- Hl|by constructor|done].
  - exists []. split_and!; [done|constructor|eauto].
Qed.

Lemma split_label_end name : solid name -> split_label name = (name, []).
Proof. induction 1 as [|c name [_ Hc] _ IH]; simpl; [done|]. by rewrite Hc, IH. Qed.

Lemma split_label_space name c command : solid name -> isspace c = true -> split_label (name ++ c :: command) = (name, command).
Proof. intros Hn Hc. induction Hn as [|d name [_ Hd] _ IH]; simpl; [by rewrite Hc|]. by rewrite Hd, IH. Qed.

Lemma split_label_split l : Forall (fun c => c <> 0) l ->
  solid (split_label l).1 /\ (l = (split_label l).1 /\ (split_label l).2 = [] \/
    exists c, isspace c = true /\ l = (split_label l).1 ++ c :: (split_label l).2).
Proof.
  induction 1 as [|c l H0 _ [IH1 IH2]]; [split; [constructor|by left]|]. simpl. destruct (isspace c) eqn:Hc.
  - split; [constructor|]. right. by exists c.
  - destruct (split_label l) as [label command]. simpl in *. split; [by constructor|].
    destruct IH2 as [[-> ->]|(d & Hd & ->)]; [by left|right; eauto].
Qed.

Lemma reads_parse line label command : reads line label command -> parse_line line = (label, command).
Proof.
  unfold parse_line. intros [sp cmd rest Hsp Hcmd Hrest Hfirst|sp name rest Hsp Hname Hrest|sp name c cmd rest Hsp Hname Hc Hcmd Hrest].
  - rewrite app_assoc, cstring_stops; [|by apply Forall_app_2; [apply blank_nonzero|]|done].
    rewrite skip_white_app by naive_solver. destruct Hfirst as [->|(c & l & -> & Hc & H58)]; [done|]. by repeat case_match; simplify_eq.
  - rewrite !app_assoc, cstring_stops; [|rewrite <- app_assoc; apply Forall_app_2; [by apply blank_nonzero|]|done].
    2:{ constructor; [done|by apply solid_nonzero]. }
    rewrite <- app_assoc, skip_white_app by (done || right; by eexists _, _). cbn [app]. by rewrite split_label_end.
  - rewrite !app_assoc, cstring_stops; [|rewrite <- !app_assoc; apply Forall_app_2; [by apply blank_nonzero|]|done].
    2:{ constructor; [done|]. apply Forall_app_2; [by apply solid_nonzero|]. constructor; [by intros ->|done]. }
    rewrite <- !app_assoc, skip_white_app by (done || right; by eexists _, _). cbn [app]. by rewrite split_label_space.
Qed.

Lemma parse_reads line : reads line (parse_line line).1 (parse_line line).2.
Proof.
  unfold parse_line. destruct (cstring_split line) as (rest & Hl & H0 & Hrest). rewrite Hl at 1. clear Hl. revert H0. generalize (cstring line) as a.
  intros a H0. destruct (skip_white_split a) as (sp & Ha & Hsp & Hw). rewrite Ha in H0. rewrite Ha at 1. apply Forall_app in H0 as [_ H0].
  revert H0 Hw. generalize (skip_white a) as b. clear a Ha. intros b H0 Hw. rewrite <- app_assoc.
  destruct b as [|c m]; [by apply (reads_command sp []); [..|left]|]. destruct (decide (c = 58)) as [->|Hn].
  - apply Forall_cons in H0 as [_ H0]. destruct (split_label_split m H0) as [Hs Hm]. destruct (split_label m) as [label command].
    cbn [fst snd] in *. destruct Hm as [[-> ->]|(c & Hc & ->)].
    + by apply reads_label.
    + apply Forall_app in H0 as [_ [_ H0]%Forall_cons]. change (58 :: label ++ c :: command) with ([58] ++ label ++ [c] ++ command).
      rewrite <- !app_assoc. by apply reads_label_command.
  - assert (match c :: m with 58 :: command => let '(label, command) := split_label command in (Some label, command) | _ => (None, c :: m) end
      = (None, c :: m)) as -> by (by repeat case_match; simplify_eq).
    apply reads_command; [done..|]. right. destruct Hw as [|(? & ? & [= <- <-] & Hc)]; [done|]. eauto.
Qed.

Lemma means_logical off cur acc ps ls t oa :
  means off cur acc ps ls t -> default [] oa = acc -> ps <> [] \/ oa = None -> logical off cur oa ps = (ls, t).
Proof.
  intros Hm. revert oa. induction Hm as [cur|off cur acc p line Hc|off cur acc p p' ps line ls t Hc _ IH|off cur acc p ps line label command ls t Hc Hn Hr _ IH];
    intros oa Ha Hne.
  - destruct Hne as [Hne|Hne]; [done|by rewrite Hne].
  - rewrite logical_cons, Ha. apply chomped_strip in Hc. cbv zeta. rewrite <- Hc.
    rewrite (proj2 (last_is_snoc 92 _)) by eauto. cbn [logical]. by rewrite Nat.add_assoc.
  - rewrite logical_cons, Ha. apply chomped_strip in Hc. cbv zeta. rewrite <- Hc.
    rewrite (proj2 (last_is_snoc 92 _)) by eauto. rewrite removelast_last, Nat.add_assoc. by apply IH; [|left].
  - rewrite logical_cons, Ha. apply chomped_strip in Hc. cbv zeta. rewrite <- Hc.
    rewrite (proj2 (last_is_not 92 _)) by done. rewrite (reads_parse _ _ _ Hr), Nat.add_assoc. by rewrite (IH None) by (done || by right).
Qed.

Lemma logical_means off cur oa ps :
  ps <> [] \/ oa = None /\ off = cur -> means off cur (default [] oa) ps (logical off cur oa ps).1 (logical off cur oa ps).2.
Proof.
  revert off cur oa. induction ps as [|p ps IH]; intros off cur oa Hne; [destruct Hne as [|[-> ->]]; [done|constructor]|].
  rewrite logical_cons. cbv zeta. pose proof (proj2 (chomped_strip (default [] oa ++ p) _) eq_refl) as Hc. rewrite Nat.add_assoc.
  destruct (last_is 92 _) eqn:Hl.
  - apply last_is_snoc in Hl as (front & Hf). rewrite Hf in *. rewrite removelast_last. destruct ps as [|p' ps].
    + by eapply means_unfinished.
    + eapply means_continued; [done|]. by apply (IH off _ (Some front)); left.
  - eapply means_line; [done|by apply last_is_not|apply parse_reads|]. apply (IH _ _ None). by right.
Qed.

(** The lines from some offset have one meaning. *)
Lemma means_iff off ps ls t : means off off [] ps ls t <-> logical off off None ps = (ls, t).
Proof.
  split; [intros H; eapply means_logical; [exact H|done|by right]|]. intros H.
  pose proof (logical_means off off None ps (or_intror (conj eq_refl eq_refl))) as Hm. by rewrite H in Hm.
Qed.

Section performed.
Context {W : Type} (image : list Z) (process_line : nat -> option (list Z) -> list Z -> shell W -> option (status * shell W))
        (terminate : status -> shell W -> bool * shell W).
Implicit Types s : shell W.

Lemma run_performed n ls t rc s r :
  run image process_line terminate n (ls, t) rc s = Some r -> performed image process_line terminate ls t rc s r.
Proof.
  revert ls t rc s. induction n as [|n IH]; intros [|l ls] t rc s; cbn [run]; [destruct t; intros [= <-]; constructor|done|destruct t; intros [= <-]; constructor|].
  destruct (process_line _ _ _ _) as [[rc' s']|] eqn:Hp; [|done]. destruct (terminate rc' s') as [[] s''] eqn:Ht.
  - intros [= <-]. by eapply performed_last.
  - destruct (lines_from image (script_offset s'')) as [ls' t'] eqn:Hl. intros Hr%IH. eapply performed_line; [done|done| |exact Hr].
    by apply means_iff.
Qed.

Lemma performed_run ls t rc s r :
  performed image process_line terminate ls t rc s r -> exists n, run image process_line terminate n (ls, t) rc s = Some r.
Proof.
  induction 1 as [rc s|o rc s|l ls t rc s rc' s' s'' Hp Ht|l ls t rc s rc' s' s'' ls' t' r Hp Ht Hm _ [n IH]]; [by exists 0%nat..| |].
  - exists 1%nat. cbn [run]. by rewrite Hp, Ht.
  - exists (S n). cbn [run]. rewrite Hp, Ht. apply means_iff in Hm. unfold lines_from. by rewrite Hm.
Qed.
End performed.

(** C24: when no allocation fails, processing a script is running its logical
    lines, as [means] and [performed] read them off its text: continued lines are
    joined, carriage returns at the end of a line dropped and labels split
    off; each line is processed with the offset of the next line, and then the
    lines from the offset that the processor left are processed.  The script
    ends when these run out, when the processor asks for it, or with an error
    when the last line is continued; and it returns exactly when the run of
    the lines does. *)
Theorem process_script_correct {W} alloc_fails image process_line terminate (s : shell W) r :
  (forall n s, alloc_fails n s = false) ->
  (exists n, process_script alloc_fails image process_line terminate n s = Some r) <->
  (exists ls t, means 0 0 [] (match image with [] => [[]] | _ => lines_of image end) ls t /\
    performed image process_line terminate ls t (Status 0) (set_offset 0 s) r).
Proof.
  intros Ha. rewrite process_script_run by done. split.
  - intros [n Hn]. exists (program image).1, (program image).2. rewrite (surjective_pairing (program image)) in Hn.
    split; [by apply means_iff, surjective_pairing|]. by eapply run_performed.
  - intros (ls & t & Hm & Hp). apply means_iff in Hm. unfold program. rewrite Hm. by apply performed_run.
Qed.

(** ** Goto *)

Section goto.
Context {W : Type} (alloc_fails : nat -> shell W -> bool) (no_failure : forall n s, alloc_fails n s = false).
Implicit Types s : shell W.

Fixpoint find_label (label : list Z) (ls : list script_line) : option script_line :=
  match ls with
  | [] => None
  | l :: ls => if decide (sl_label l = Some label) then Some l else find_label label ls
  end.

Definition not_found (t : option nat) : status := match t with None => Error ENOENT | Some _ => Error EINVAL end.

Lemma find_label_split label ls l :
  find_label label ls = Some l <-> exists pre post, ls = pre ++ l :: post /\ sl_label l = Some label /\ Forall (fun x => sl_label x <> Some label) pre.
Proof.
  split.
  - induction ls as [|x ls IH]; [done|]. cbn [find_label]. case_decide as Hx.
    + intros [= ->]. by exists [], ls.
    + intros (pre & post & -> & Hl & Hpre)%IH. exists (x :: pre), post. split_and!; [done|done|by constructor].
  - intros (pre & post & -> & Hl & Hpre). induction Hpre as [|x pre Hx _ IH]; cbn [find_label app]; [by rewrite decide_True|].
    by rewrite decide_False.
Qed.

(** One unit of fuel for each physical line is enough for the search. *)
Lemma goto_loop image label ps acc off s n :
  at_line image ps s -> (length ps <= n)%nat ->
  match find_label label (logical off (script_offset s) acc ps).1 with
  | Some l => script_loop alloc_fails image (goto_find_label label) terminate_on_label_found n (default [] acc) off s =
      Some (Status 0, set_offset (sl_offset l) s)
  | None => exists o, script_loop alloc_fails image (goto_find_label label) terminate_on_label_found n (default [] acc) off s =
      Some (not_found (logical off (script_offset s) acc ps).2, set_offset o s)
  end.
Proof.
  revert acc off s n. induction ps as [|p ps IH]; intros acc off s n (q & qs & Hq & Hp & Hps) Hn; [done|].
  injection Hq as <- <-. destruct n as [|n]; [simpl in Hn; lia|]. rewrite loop_step by done. rewrite <- Hp, logical_cons. cbv zeta.
  set (text := strip_cr (default [] acc ++ p)). set (next := (script_offset s + (length p + 1))%nat) in *.
  assert ((next < length image)%nat -> at_line image ps (set_offset next s)) as Hat.
  { intros Hlt. rewrite Hps. by apply (at_line_from image (set_offset next s)). }
  destruct (last_is 92 text).
  - destruct (decide (next < length image)%nat) as [Hlt|Hge].
    + apply (IH (Some (removelast text)) off (set_offset next s) n); [auto|simpl in Hn; lia].
    + apply lines_of_nil_iff in Hge. rewrite Hge in Hps. subst ps. simpl. eauto.
  - unfold finish_line. cbn [find_label fst snd sl_offset sl_label sl_command sl_next goto_find_label].
    destruct (parse_line text).1 as [lab|]; cbn [goto_find_label].
    + destruct (decide (Some lab = Some label)) as [[= ->]|Hne].
      { rewrite decide_False by (by intros []). done. }
      rewrite decide_True by congruence. cbn. fold next. destruct (decide (next < length image)%nat) as [Hlt|Hge].
      * apply (IH None next (set_offset next s) n); [auto|simpl in Hn; lia].
      * apply lines_of_nil_iff in Hge. rewrite Hge in Hps. subst ps. simpl. eauto.
    + rewrite decide_False by done. cbn. fold next. destruct (decide (next < length image)%nat) as [Hlt|Hge].
      * apply (IH None next (set_offset next s) n); [auto|simpl in Hn; lia].
      * apply lines_of_nil_iff in Hge. rewrite Hge in Hps. subst ps. simpl. eauto.
Qed.

Lemma length_lines_of x : (length (lines_of x) <= length x)%nat.
Proof. induction x as [|c x IH]; simpl; [lia|]. case_decide; simpl; [lia|]. destruct (lines_of x); simpl in *; lia. Qed.

Lemma set_getopt_same s : set_getopt (getopt s) s = s.
Proof. by destruct s. Qed.

(** The search of the labels of a script. *)
Lemma goto_exec_found image label s :
  current_image s = Some image -> optind (getopt s) = 1%nat -> get8 label 0 <> 45 ->
  goto_exec alloc_fails [lit "goto"; label] s =
    Some match find_label label (program image).1 with
         | Some l => (Status 0, shell_stop SHELL_STOP_COMMAND (set_offset (sl_offset l) s))
         | None => (not_found (program image).2, s)
         end.
Proof.
  intros Hi Ho Hl. unfold goto_exec, goto_cmd. rewrite with_no_options by (done || simpl; lia).
  rewrite set_getopt_same, Hi. cbn [nth]. unfold process_script.
  set (ps := match image with [] => [[]] | _ => lines_of image end).
  assert (length ps <= S (length image))%nat as Hlen.
  { unfold ps. pose proof (length_lines_of image). destruct image; simpl in *; lia. }
  pose proof (goto_loop image label ps None 0 (set_offset 0 s) (S (length image)) (at_start image s) Hlen) as Hg.
  change (logical 0 (script_offset (set_offset 0 s)) None ps) with (program image) in Hg.
  destruct (find_label label (program image).1) as [l|].
  - cbn [default] in Hg. rewrite Hg. done.
  - destruct Hg as [o Hg]. cbn [default] in Hg. rewrite Hg. unfold not_found.
    destruct (program image).2; cbn; by destruct s.
Qed.
End goto.

(** Goto finds the first line with the label in the whole script, also
    before the current line, and makes it the next line; the rest of the
    command line is abandoned.  Without such a line it fails and changes
    nothing. *)
Theorem goto_exec_correct {W} alloc_fails image label (s : shell W) :
  (forall n s, alloc_fails n s = false) ->
  current_image s = Some image -> optind (getopt s) = 1%nat -> get8 label 0 <> 45 ->
  exists rc s', goto_exec alloc_fails [lit "goto"; label] s = Some (rc, s') /\
  ((exists pre l post, (program image).1 = pre ++ l :: post /\ sl_label l = Some label /\
      Forall (fun x => sl_label x <> Some label) pre /\ rc = Status 0 /\ script_offset s' = sl_offset l /\ stop_state s' = SHELL_STOP_COMMAND) \/
   (Forall (fun x => sl_label x <> Some label) (program image).1 /\ rc <> Status 0 /\ s' = s)).
Proof.
  intros Ha Hi Ho Hl. rewrite (goto_exec_found _ Ha image) by done. destruct (find_label label (program image).1) as [l|] eqn:Hf.
  - apply find_label_split in Hf as (pre & post & Heq & Hlab & Hpre). eexists _, _. split; [done|]. left. exists pre, l, post. done.
  - eexists _, _. split; [done|]. right. split_and!; [|by unfold not_found; destruct (program image).2|done].
    apply Forall_forall. intros x Hx Hlab. apply list_elem_of_In, in_split in Hx as (pre & post & Heq).
    revert Hf. rewrite Heq. clear -Hlab. induction pre as [|y pre IH]; cbn [find_label app]; [by rewrite decide_True|].
    case_decide; done.
Qed.

Lemma store_errno_success {W} (s : shell W) : store_errno (Status 0) s = s.
Proof. unfold store_errno. rewrite decide_False; [done|]. by intros []. Qed.

Lemma shell_stopped_command {W} (s : shell W) : shell_stopped SHELL_STOP_COMMAND (shell_stop SHELL_STOP_COMMAND s) = (true, set_stop 0 s).
Proof. done. Qed.

Lemma terminate_success {W} (s : shell W) : terminate_on_exit_or_failure (Status 0) (set_stop 0 s) = (false, set_stop 0 s).
Proof. done. Qed.

(** When a line of a script is a goto whose label some line carries, the
    script continues with the first such line and the lines after it, and
    otherwise undisturbed: with no pending stop and no error. *)
Theorem goto_jumps {W} alloc_fails commands expand_settings image n l rest t0 rc label pre target post t (s : shell W) :
  (forall n s, alloc_fails n s = false) ->
  (forall w s, w = lit "goto" \/ w = label -> expand_settings w s = Some w) ->
  find_command (lit "goto") commands = Some (goto_exec alloc_fails) ->
  current_image s = Some image -> program image = (pre ++ target :: post, t) ->
  sl_label target = Some label -> Forall (fun x => sl_label x <> Some label) pre ->
  spaced (sl_command l) [lit "goto"; label] -> is_argument label -> get8 label 0 <> 45 ->
  run image (script_exec_line alloc_fails commands expand_settings) terminate_on_exit_or_failure (S n) (l :: rest, t0) rc s =
  run image (script_exec_line alloc_fails commands expand_settings) terminate_on_exit_or_failure n (target :: post, t) (Status 0)
    (set_stop 0 (set_offset (sl_offset target) (set_getopt (reset_getopt (getopt s)) s))).
Proof.
  intros Ha He Hc Hi Hp Hlab Hpre Hs Harg Hd. cbn [run]. unfold script_exec_line at 1.
  rewrite (system_eval _ _ _ _ _ (Simple [lit "goto"; label]) []); [|done| |by left|apply Ha].
  2:{ apply Forall_cons_2; [split_and!; done|]. apply Forall_cons_2; [done|apply Forall_nil_2]. }
  cbn [eval]. unfold run_simple. cbn [expand_tokens]. rewrite !He by auto. unfold execv. rewrite Hc.
  rewrite (goto_exec_found _ Ha image); [|done|done|done].
  assert (find_label label (program image).1 = Some target) as -> by (apply find_label_split; rewrite Hp; eauto).
  rewrite store_errno_success, shell_stopped_command. cbn [option_map outcome_result]. rewrite terminate_success.
  destruct (program_suffix _ _ _ _ _ Hp) as [Hsuf| ->].
  - cbn [set_stop set_offset script_offset]. by rewrite Hsuf.
  - unfold program in Hp. cbn in Hp. destruct pre as [|x pre]; [by injection Hp as <- _ _|]. by destruct pre.
Qed.

(** ** An example

    A menu loop of the kind that diskless clients boot with: it retries until
    the counter in the world is exhausted. *)

Definition demo_script : list Z :=
  lit "#!ipxe" ++ [10] ++ lit ":retry" ++ [10] ++ lit "  dec && goto retry ||" ++ [10] ++ lit ":done exit" ++ [10].

Definition dec_exec (argv : list (list Z)) (s : shell Z) : option (status * shell Z) :=
  Some (if decide (world s <= 0) then Error ENOENT else Status 0, set_world (world s - 1) s).

Definition script_commands : list (command Z) :=
  [Command (lit "dec") dec_exec; Command (lit "goto") (goto_exec (fun _ _ => false)); Command (lit "exit") exit_exec].

Definition script_shell : shell Z := Shell 0 (Status 0) any_getopt 0 (Some demo_script) 3.

Lemma process_script_correct_witness :
  exists ls t, means 0 0 [] (lines_of demo_script) ls t /\
    performed demo_script (script_exec_line (fun _ _ => false) script_commands (fun t _ => Some t)) terminate_on_exit_or_failure ls t
      (Status 0) (set_offset 0 script_shell) (Status 0, Shell 0 (Error ENOENT) (reset_getopt any_getopt) 48 (Some demo_script) (-1)).
Proof.
  apply (process_script_correct (fun _ _ => false) demo_script); [done|]. exists 20%nat. vm_compute. reflexivity.
Defined.

Definition loop_script : list Z := lit ":top" ++ [10] ++ lit "goto top" ++ [10].
Definition loop_shell : shell Z := Shell 0 (Status 0) (reset_getopt any_getopt) 14 (Some loop_script) 3.

Lemma goto_exec_correct_witness :
  exists rc s', goto_exec (fun _ _ => false) [lit "goto"; lit "top"] loop_shell = Some (rc, s') /\ rc = Status 0 /\ script_offset s' = 0%nat.
Proof.
  destruct (goto_exec_correct (fun _ _ => false) loop_script (lit "top") loop_shell) as (rc & s' & H & [Hl|Hn]); [done..| |].
  - destruct Hl as (pre & l & post & Heq & Hlab & _ & -> & Ho & _). exists (Status 0), s'. split_and!; [done|done|]. rewrite Ho.
    vm_compute in Heq. destruct pre as [|x [|y pre]]; [by injection Heq as <- _|by injection Heq as _ <- _|by destruct pre].
  - destruct Hn as [Hn _]. exfalso. vm_compute in Hn. by apply Forall_cons in Hn as [Hn _].
Defined.

Lemma goto_jumps_witness :
  run loop_script (script_exec_line (fun _ _ => false) script_commands (fun t _ => Some t)) terminate_on_exit_or_failure 5
    ([Line 5 None (lit "goto top") 14], None) (Status 0) loop_shell =
  run loop_script (script_exec_line (fun _ _ => false) script_commands (fun t _ => Some t)) terminate_on_exit_or_failure 4
    ([Line 0 (Some (lit "top")) [] 5; Line 5 None (lit "goto top") 14], None) (Status 0)
    (set_stop 0 (set_offset 0 (set_getopt (reset_getopt (getopt loop_shell)) loop_shell))).
Proof.
  apply (goto_jumps (fun _ _ => false) script_commands (fun t _ => Some t) loop_script 4 (Line 5 None (lit "goto top") 14) [] None (Status 0)
    (lit "top") [] (Line 0 (Some (lit "top")) [] 5) [Line 5 None (lit "goto top") 14] None loop_shell); try done.
  - next_word (@nil Z) (lit "goto") (lit " top"). next_word (lit " ") (lit "top") (@nil Z). by apply spaced_end.
Defined.
