(* ===== verification/Dns.v ===== *)
(** * DNS names (net/udp/dns.c)

    A name is a position in a message, of which the first [dn_len] bytes may
    be read; reading is by [get8], and every read in the model is of an offset
    that was checked, as in the code.  Labels are lists of bytes.  [encodes] is
    the meaning of an encoded name according to RFC 1035: a sequence of labels
    that ends at the root, where a compression pointer stands for the name at
    an earlier offset.

    The theorems: the limit on the number of labels never rejects a name
    ([encodes_bound]), so that decoding, comparing and copying succeed exactly
    on the names that have a meaning, and compute from it ([dns_decode_correct],
    [dns_compare_correct], [dns_copy_correct]); and encoding is inverse to
    decoding ([dns_encode_decode]). *)

From S2P Require Import Prelude CMem Strings.

Record dns_name := DnsName {
  dn_data : list Z;
  dn_offset : nat;
  dn_len : nat;
}.

Definition DNS_MAX_LABEL_LEN : nat := 63.
Definition DNS_MAX_NAME_LEN : nat := 255.

Definition DNS_IS_COMPRESSED (byte : Z) : Z := Z.land byte 192.
Definition DNS_COMPRESSED_OFFSET (word : Z) : Z := Z.land word (Z.lnot 49152).

(** Bytes that are written at an offset. *)
Definition splice (data : list Z) (offset : nat) (bytes : list Z) : list Z :=
  take offset data ++ bytes ++ drop (offset + length bytes) data.

(** ** Encoding *)

(** [dst] is the offset of the last byte that was written, [start] the offset
    of the name, [llen] the length of the label so far. *)
Fixpoint encode_loop (string : list Z) (start limit : nat) (data : list Z) (dst llen : nat) : result (list Z * nat * nat) :=
  match string with
  | [] => Ok (data, dst, llen)
  | c :: string =>
    let copy (llen : nat) :=
      let dst := S dst in
      let data := if decide (dst < limit)%nat
                  then splice (splice data dst [c]) (dst - llen) [u8 (Z.of_nat llen)] else data in
      encode_loop string start limit data dst llen in
    if decide (c = 46) then
      if decide (llen = 0%nat /\ dst <> start) then Err EINVAL
      else match string with
           | [] => Ok (data, dst, llen)
           | _ => if decide (llen = 0%nat) then Err EINVAL else copy 0%nat
           end
    else if decide (DNS_MAX_LABEL_LEN < S llen)%nat then Err EINVAL else copy (S llen)
  end.

(** The length of the name, which may be more than there is room for. *)
Definition dns_encode (string : list Z) (name : dns_name) : result (nat * dns_name) :=
  let start := dn_offset name in
  let* (data, dst, llen) := encode_loop string start (dn_len name) (dn_data name) start 0 in
  let dst := if decide (llen <> 0%nat) then S dst else dst in
  let data := if decide (dst < dn_len name)%nat then splice data dst [0] else data in
  Ok ((S dst - start)%nat, DnsName data (dn_offset name) (dn_len name)).

(** ** Labels

    Pointers go backwards, so that [S offset] steps are enough. *)

Fixpoint label_loop (fuel : nat) (data : list Z) (len offset : nat) : result nat :=
  match fuel with
  | O => Err EINVAL
  | S fuel =>
    if decide (len < offset + 1)%nat then Err EINVAL else
    let byte := get8 data offset in
    if decide (DNS_IS_COMPRESSED byte <> 0) then
      if decide (len < offset + 2)%nat then Err EINVAL else
      let ptr := Z.to_nat (DNS_COMPRESSED_OFFSET (get16 data offset)) in
      if decide (offset <= ptr)%nat then Err EINVAL else label_loop fuel data len ptr
    else
      if decide (len < offset + 1 + Z.to_nat byte)%nat then Err EINVAL else Ok offset
  end.

Definition dns_label (name : dns_name) (offset : nat) : result nat :=
  label_loop (S offset) (dn_data name) (dn_len name) offset.

Definition label_len (name : dns_name) (offset : nat) : nat := Z.to_nat (get8 (dn_data name) offset).
Definition label_bytes (name : dns_name) (offset : nat) : list Z :=
  take (label_len name offset) (drop (S offset) (dn_data name)).

(** ** Decoding, comparing, copying, skipping

    The first argument is [recursion_limit]. *)

(** [out] is what was written to the buffer of [len] bytes, and
    [decoded_len] the length of the name so far. *)
Fixpoint decode_loop (limit : nat) (name : dns_name) (offset : nat) (out : list Z) (decoded_len len : nat) : result (nat * list Z) :=
  match limit with
  | O => Err EINVAL
  | S limit =>
    let* offset := dns_label name offset in
    if decide (label_len name offset = 0%nat) then
      Ok (decoded_len, if decide (decoded_len < len)%nat then out ++ [0] else out)
    else
      let out := if decide (decoded_len <> 0 /\ decoded_len < len)%nat then out ++ [46] else out in
      let decoded_len := if decide (decoded_len <> 0%nat) then S decoded_len else decoded_len in
      let copy_len := if decide (decoded_len < len)%nat then (len - decoded_len)%nat else 0%nat in
      let copy_len := if decide (label_len name offset < copy_len)%nat then label_len name offset else copy_len in
      let out := out ++ take copy_len (drop (S offset) (dn_data name)) in
      decode_loop limit name (offset + (1 + label_len name offset)) out (decoded_len + label_len name offset) len
  end.

(** The length of the name, and the bytes that are written. *)
Definition dns_decode (name : dns_name) (len : nat) : result (nat * list Z) :=
  decode_loop (dn_len name) name (dn_offset name) [] 0 len.

Fixpoint compare_bytes (first second : list Z) : bool :=
  match first, second with
  | a :: first, b :: second => if decide (tolower a <> tolower b) then false else compare_bytes first second
  | _, _ => true
  end.

Fixpoint compare_loop (limit : nat) (first second : dns_name) (first_offset second_offset : nat) : result unit :=
  match limit with
  | O => Err EINVAL
  | S limit =>
    let* first_offset := dns_label first first_offset in
    let* second_offset := dns_label second second_offset in
    if decide (label_len first first_offset <> label_len second second_offset) then Err ENOENT
    else if decide (label_len first first_offset = 0%nat) then Ok tt
    else if compare_bytes (label_bytes first first_offset) (label_bytes second second_offset) then
      compare_loop limit first second (first_offset + (1 + label_len first first_offset))
        (second_offset + (1 + label_len first first_offset))
    else Err ENOENT
  end.

Definition dns_compare (first second : dns_name) : result unit :=
  compare_loop (dn_len first) first second (dn_offset first) (dn_offset second).

(** The destination offset, and the bytes of the destination. *)
Fixpoint copy_loop (limit : nat) (src : dns_name) (src_offset : nat) (data : list Z) (dst_offset dst_len : nat) : result (nat * list Z) :=
  match limit with
  | O => Err EINVAL
  | S limit =>
    let* src_offset := dns_label src src_offset in
    let len := (1 + label_len src src_offset)%nat in
    let copy_len := if decide (dst_offset < dst_len)%nat then (dst_len - dst_offset)%nat else 0%nat in
    let copy_len := if decide (len < copy_len)%nat then len else copy_len in
    let data := splice data dst_offset (take copy_len (drop src_offset (dn_data src))) in
    if decide (label_len src src_offset = 0%nat) then Ok ((dst_offset + len)%nat, data)
    else copy_loop limit src (src_offset + len) data (dst_offset + len) dst_len
  end.

Definition dns_copy (src dst : dns_name) : result (nat * dns_name) :=
  let* (dst_offset, data) := copy_loop (dn_len src) src (dn_offset src) (dn_data dst) (dn_offset dst) (dn_len dst) in
  Ok ((dst_offset - dn_offset dst)%nat, DnsName data (dn_offset dst) (dn_len dst)).

Fixpoint skip_loop (limit : nat) (name : dns_name) (offset : nat) : result nat :=
  match limit with
  | O => Err EINVAL
  | S limit =>
    let prev_offset := offset in
    let* offset := dns_label name prev_offset in
    if decide (offset <> prev_offset) then Ok (prev_offset + 2)%nat else
    let next := (offset + (1 + label_len name offset))%nat in
    if decide (label_len name offset = 0%nat) then Ok next else skip_loop limit name next
  end.

Definition dns_skip (name : dns_name) : result nat := skip_loop (dn_len name) name (dn_offset name).

Fixpoint skip_zeros (fuel : nat) (data : list Z) (len offset : nat) : nat :=
  match fuel with
  | O => offset
  | S fuel => if decide ((offset < len)%nat /\ get8 data offset = 0) then skip_zeros fuel data len (S offset) else offset
  end.

Definition dns_skip_search (name : dns_name) : result nat :=
  let* offset := dns_skip name in
  Ok (skip_zeros (dn_len name) (dn_data name) (dn_len name) offset).

(** ** The meaning of encoded names *)

Section meaning.
Context (data : list Z) (len : nat).

(** The label that a name starts with, after compression pointers: a byte with
    one of its two high bits set starts a pointer, the other bits of which,
    and the next byte, are an offset before it. *)
Inductive label_at : nat -> nat -> Prop :=
  | label_here o :
      (o < len)%nat -> Z.land (get8 data o) 192 = 0 -> (o + 1 + Z.to_nat (get8 data o) <= len)%nat -> label_at o o
  | label_pointer o p o' :
      (o + 2 <= len)%nat -> Z.land (get8 data o) 192 <> 0 -> p = Z.to_nat (Z.ldiff (get16 data o) 49152) ->
      (p < o)%nat -> label_at p o' -> label_at o o'.

Definition label_of (o : nat) : list Z := take (Z.to_nat (get8 data o)) (drop (S o) data).

Inductive encodes : nat -> list (list Z) -> Prop :=
  | encodes_root o o' : label_at o o' -> Z.to_nat (get8 data o') = 0%nat -> encodes o []
  | encodes_label o o' ls :
      label_at o o' -> Z.to_nat (get8 data o') <> 0%nat -> encodes (o' + (1 + Z.to_nat (get8 data o'))) ls ->
      encodes o (label_of o' :: ls).

(** Where a name ends: after the byte zero of the root, or after the two bytes
    of a pointer, which leads to a label. *)
Inductive name_ends : nat -> nat -> Prop :=
  | ends_root o : (o < len)%nat -> Z.land (get8 data o) 192 = 0 -> Z.to_nat (get8 data o) = 0%nat -> name_ends o (o + 1)
  | ends_pointer o o' : Z.land (get8 data o) 192 <> 0 -> label_at o o' -> name_ends o (o + 2)
  | ends_label o e :
      Z.land (get8 data o) 192 = 0 -> Z.to_nat (get8 data o) <> 0%nat -> (o + 1 + Z.to_nat (get8 data o) <= len)%nat ->
      name_ends (o + 1 + Z.to_nat (get8 data o)) e -> name_ends o e.

Lemma label_at_fun o a b : label_at o a -> label_at o b -> a = b.
Proof. intros Ha. revert b. induction Ha; intros b Hb; inversion Hb; subst; auto; done. Qed.

Lemma label_at_end o o' : label_at o o' -> label_at o' o' /\ (o' < len)%nat.
Proof. induction 1; [|done]. split; [by constructor|done]. Qed.

Lemma label_at_le o o' : label_at o o' -> (o' <= o)%nat /\ (o' + 1 + Z.to_nat (get8 data o') <= len)%nat.
Proof. induction 1; lia. Qed.

Lemma encodes_fun o ls1 ls2 : encodes o ls1 -> encodes o ls2 -> ls1 = ls2.
Proof.
  intros H1. revert ls2. induction H1 as [o o' Hl H0|o o' ls Hl H0 He IH]; intros ls2 H2; inversion H2; subst;
    match goal with H : label_at o ?x |- _ => assert (x = o') as -> by (by eapply label_at_fun) end; try done.
  f_equal. by apply IH.
Qed.

Lemma encodes_next o o' k l ls :
  label_at o o' -> Z.to_nat (get8 data o') = S k -> l = take (S k) (drop (S o') data) -> encodes (o' + (1 + S k)) ls -> encodes o (l :: ls).
Proof. intros Hl Hk -> He. rewrite <- Hk. apply encodes_label; [done|lia|by rewrite Hk]. Qed.

(** The offsets of the labels of a name are distinct. *)
Lemma encodes_offsets o ls :
  encodes o ls -> exists vs, length vs = S (length ls) /\ NoDup vs /\
    Forall (fun v => (v < len)%nat /\ exists ls', encodes v ls' /\ (length ls' <= length ls)%nat) vs.
Proof.
  induction 1 as [o o' Hl H0|o o' ls Hl H0 He (vs & Hlen & Hnd & Hvs)]; destruct (label_at_end _ _ Hl) as [Hl' Hlt].
  - exists [o']. split_and!; [done|apply NoDup_singleton|]. repeat constructor; [done|]. exists []. split; [by econstructor|done].
  - assert (encodes o' (label_of o' :: ls)) as Ho' by (by econstructor). exists (o' :: vs). split_and!; [simpl; lia| |].
    + constructor; [|done]. intros Hin. rewrite Forall_forall in Hvs. destruct (Hvs o' Hin) as (_ & ls' & He' & Hle).
      pose proof (encodes_fun _ _ _ Ho' He') as <-. simpl in Hle. lia.
    + constructor; [eauto|]. eapply Forall_impl; [exact Hvs|]. simpl. intros v (Hv & ls' & ? & ?). split; [done|]. exists ls'. split; [done|lia].
Qed.

(** A name has fewer labels than its message has bytes. *)
Lemma encodes_bound o ls : encodes o ls -> (length ls < len)%nat.
Proof.
  intros (vs & Hlen & Hnd & Hvs)%encodes_offsets. rewrite <- (length_seq len 0), <- Nat.le_succ_l, <- Hlen.
  apply submseteq_length, NoDup_submseteq; [done|]. intros v Hv. rewrite Forall_forall in Hvs.
  destruct (Hvs v Hv) as [? _]. apply elem_of_seq. lia.
Qed.

Lemma label_loop_ok fuel o o' : (o < fuel)%nat -> label_loop fuel data len o = Ok o' <-> label_at o o'.
Proof.
  revert o. induction fuel as [|fuel IH]; intros o Hf; [lia|]. cbn [label_loop]. unfold DNS_IS_COMPRESSED, DNS_COMPRESSED_OFFSET. cbv zeta. rewrite <- Z.ldiff_land. split.
  - repeat case_decide; try done.
    + intros Hx%IH; [|lia]. eapply label_pointer; try done; lia.
    + intros [= <-]. apply label_here; lia.
  - intros H. inversion H; subst; rewrite decide_False by lia.
    + rewrite decide_False by auto. by rewrite decide_False by lia.
    + rewrite decide_True by done. rewrite !decide_False by lia. apply IH; [lia|done].
Qed.

Lemma label_loop_err fuel o e : label_loop fuel data len o = Err e -> e = EINVAL.
Proof. revert o. induction fuel as [|fuel IH]; intros o; cbn [label_loop]; [congruence|]. repeat case_decide; try congruence. apply IH. Qed.
End meaning.

Definition name_encodes (n : dns_name) (ls : list (list Z)) : Prop := encodes (dn_data n) (dn_len n) (dn_offset n) ls.

Lemma dns_label_ok n o o' : dns_label n o = Ok o' <-> label_at (dn_data n) (dn_len n) o o'.
Proof. apply label_loop_ok. lia. Qed.

Lemma dns_label_cases n o : (exists o', dns_label n o = Ok o' /\ label_at (dn_data n) (dn_len n) o o') \/
  (dns_label n o = Err EINVAL /\ forall o', ~ label_at (dn_data n) (dn_len n) o o').
Proof.
  destruct (dns_label n o) as [o'|e] eqn:Hl.
  - left. exists o'. split; [done|]. by apply dns_label_ok.
  - right. pose proof (label_loop_err _ _ _ _ _ Hl) as ->. split; [done|]. intros o' H%dns_label_ok. congruence.
Qed.

(** ** Decoding *)

Fixpoint dotted_from (text : list Z) (ls : list (list Z)) : list Z :=
  match ls with
  | [] => text
  | l :: ls => dotted_from (match text with [] => l | _ => text ++ 46 :: l end) ls
  end.

(** A name as text. *)
Definition dotted (ls : list (list Z)) : list Z := dotted_from [] ls.

(** Output that is cut off at the end of the buffer. *)
Lemma take_extend len (text l : list Z) :
  take len text ++ take (let c := if decide (length text < len)%nat then (len - length text)%nat else 0%nat in
                         if decide (length l < c)%nat then length l else c) l = take len (text ++ l).
Proof.
  rewrite take_app. f_equal. cbv zeta. case_decide; case_decide; try done.
  - by rewrite !take_ge by lia.
  - lia.
  - by replace (len - length text)%nat with 0%nat by lia.
Qed.

Lemma label_of_length data len o o' :
  (len <= length data)%nat -> label_at data len o o' -> length (label_of data o') = Z.to_nat (get8 data o').
Proof.
  intros Hlen [_ Hle]%label_at_le. unfold label_of. rewrite length_take, length_drop. lia.
Qed.

Lemma decode_loop_ok limit n o ls len text :
  (dn_len n <= length (dn_data n))%nat ->
  encodes (dn_data n) (dn_len n) o ls -> (length ls < limit)%nat ->
  decode_loop limit n o (take len text) (length text) len =
    Ok (length (dotted_from text ls), take len (dotted_from text ls ++ [0])).
Proof.
  intros Hlen He. revert limit text. induction He as [o o' Hl H0|o o' ls Hl H0 He IH]; intros limit text Hlim;
    (destruct limit as [|limit]; [simpl in Hlim; lia|]); cbn [decode_loop];
    rewrite (proj2 (dns_label_ok _ _ _) Hl); cbn [result_bind]; unfold label_len.
  - rewrite decide_True by done. cbn [dotted_from]. f_equal. f_equal. rewrite take_app.
    case_decide; [by rewrite (take_ge [0]) by (simpl; lia)|].
    replace (len - length text)%nat with 0%nat by lia. cbn [take]. by rewrite app_nil_r.
  - rewrite decide_False by done. cbn [dotted_from]. pose proof (label_of_length _ _ _ _ Hlen Hl) as Hll.
    set (l := label_of (dn_data n) o') in *. rewrite <- Hll in *.
    assert (forall k, (k <= length l)%nat -> take k (drop (S o') (dn_data n)) = take k l) as Hk.
    { intros k Hk. unfold l, label_of. rewrite take_take. f_equal. lia. }
    rewrite Hk by (repeat case_decide; lia). destruct text as [|c text].
    + cbn [length]. rewrite (decide_False (P := (0 <> 0 /\ _)%nat)) by lia. rewrite (decide_False (P := (0 <> 0)%nat)) by lia.
      pose proof (take_extend len [] l) as Ht. cbn [length] in Ht. cbv zeta in Ht. rewrite Ht. apply IH. simpl in Hlim. lia.
    + cbv iota. set (t := c :: text). assert (length t <> 0)%nat as Ht0 by done. clearbody t.
      rewrite (decide_True (P := (length t <> 0)%nat)) by done.
      assert ((if decide (length t <> 0 /\ length t < len)%nat then take len t ++ [46] else take len t) = take len (t ++ [46])) as ->.
      { rewrite take_app. case_decide as Hd; [by rewrite (take_ge [46]) by (simpl; lia)|].
        replace (len - length t)%nat with 0%nat by lia. cbn [take]. by rewrite app_nil_r. }
      replace (S (length t)) with (length (t ++ [46])) by (rewrite length_app; simpl; lia).
      pose proof (take_extend len (t ++ [46]) l) as Ht. cbv zeta in Ht. rewrite Ht, <- (length_app (t ++ [46])), <- app_assoc.
      apply IH. simpl in Hlim. lia.
Qed.

Lemma decode_loop_valid limit n o out d len r :
  decode_loop limit n o out d len = Ok r -> exists ls, encodes (dn_data n) (dn_len n) o ls.
Proof.
  revert o out d. induction limit as [|limit IH]; intros o out d; [done|]. cbn [decode_loop].
  destruct (dns_label_cases n o) as [(o' & -> & Hl)|[-> _]]; [|done]. cbn [result_bind]. unfold label_len.
  destruct (decide (Z.to_nat (get8 (dn_data n) o') = 0%nat)) as [H0|H0]; [intros _; exists []; by econstructor|].
  intros [ls Hls]%IH. eexists. by econstructor.
Qed.

Lemma decode_loop_err limit n o out d len e : decode_loop limit n o out d len = Err e -> e = EINVAL.
Proof.
  revert o out d. induction limit as [|limit IH]; intros o out d; cbn [decode_loop]; [congruence|].
  destruct (dns_label_cases n o) as [(o' & -> & Hl)|[-> _]]; cbn [result_bind]; [|congruence]. case_decide; [done|]. apply IH.
Qed.

(** Decoding succeeds exactly on the encoded names that have a meaning,
    including all compressed ones; its result is the length of the text of
    the name, and it writes as much of the text, with its terminator, as fits
    into the buffer. *)
Theorem dns_decode_correct n len :
  (dn_len n <= length (dn_data n))%nat ->
  (forall ls, name_encodes n ls -> dns_decode n len = Ok (length (dotted ls), take len (dotted ls ++ [0]))) /\
  ((forall ls, ~ name_encodes n ls) -> dns_decode n len = Err EINVAL).
Proof.
  intros Hlen. split.
  - intros ls He. pose proof (decode_loop_ok (dn_len n) n (dn_offset n) ls len [] Hlen He) as Hd.
    rewrite take_nil in Hd. apply Hd. by eapply encodes_bound.
  - intros Hn. destruct (dns_decode n len) as [r|e] eqn:Hd; [|by rewrite (decode_loop_err _ _ _ _ _ _ _ Hd)].
    apply decode_loop_valid in Hd as [ls Hls]. by destruct (Hn ls).
Qed.

(** ** Comparing *)

Definition same_label (a b : list Z) : Prop := map tolower a = map tolower b.

Lemma compare_bytes_ok a b : length a = length b -> compare_bytes a b = true <-> same_label a b.
Proof.
  revert b. unfold same_label. induction a as [|x a IH]; intros [|y b] Hl; simpl in *; try done. case_decide as Hd.
  - split; [done|]. by intros [= ? _].
  - rewrite IH by lia. rewrite Hd. split; [by intros ->|by intros [= ->]].
Qed.

Lemma compare_loop_ok limit a b o1 o2 ls1 ls2 :
  (dn_len a <= length (dn_data a))%nat -> (dn_len b <= length (dn_data b))%nat ->
  encodes (dn_data a) (dn_len a) o1 ls1 -> encodes (dn_data b) (dn_len b) o2 ls2 -> (length ls1 < limit)%nat ->
  (compare_loop limit a b o1 o2 = Ok tt /\ Forall2 same_label ls1 ls2) \/
  (compare_loop limit a b o1 o2 = Err ENOENT /\ ~ Forall2 same_label ls1 ls2).
Proof.
  intros Ha Hb He1. revert limit o2 ls2. induction He1 as [o1 o1' Hl1 H01|o1 o1' ls1 Hl1 H01 He1 IH]; intros limit o2 ls2 He2 Hlim;
    (destruct limit as [|limit]; [simpl in Hlim; lia|]); cbn [compare_loop]; rewrite (proj2 (dns_label_ok _ _ _) Hl1); cbn [result_bind];
    destruct He2 as [o2 o2' Hl2 H02|o2 o2' ls2 Hl2 H02 He2]; rewrite (proj2 (dns_label_ok _ _ _) Hl2); cbn [result_bind]; unfold label_len.
  - left. rewrite decide_False by lia. rewrite decide_True by done. done.
  - right. rewrite decide_True by lia. split; [done|]. intros H. inversion H.
  - right. rewrite decide_True by lia. split; [done|]. intros H. inversion H.
  - pose proof (label_of_length _ _ _ _ Ha Hl1) as L1. pose proof (label_of_length _ _ _ _ Hb Hl2) as L2.
    destruct (decide (Z.to_nat (get8 (dn_data a) o1') <> Z.to_nat (get8 (dn_data b) o2'))) as [Hne|He%dec_stable].
    { right. split; [done|]. intros [H _]%Forall2_cons. apply Hne. rewrite <- L1, <- L2.
      rewrite <- (length_map tolower (label_of _ o1')), <- (length_map tolower (label_of _ o2')). by rewrite H. }
    rewrite decide_False by done. change (label_bytes a o1') with (label_of (dn_data a) o1').
    change (label_bytes b o2') with (label_of (dn_data b) o2'). pose proof (compare_bytes_ok (label_of (dn_data a) o1') (label_of (dn_data b) o2')) as Hc.
    destruct (compare_bytes _ _).
    + rewrite <- He in He2. destruct (IH limit _ _ He2) as [[-> HF]|[-> HF]]; [simpl in Hlim; lia| |].
      * left. split; [done|]. constructor; [|done]. apply Hc; [lia|done].
      * right. split; [done|]. by intros [_ ?]%Forall2_cons.
    + right. split; [done|]. intros [H _]%Forall2_cons. apply Hc in H; [done|lia].
Qed.

Lemma compare_loop_valid limit a b o1 o2 :
  compare_loop limit a b o1 o2 = Ok tt ->
  exists ls1 ls2, encodes (dn_data a) (dn_len a) o1 ls1 /\ encodes (dn_data b) (dn_len b) o2 ls2.
Proof.
  revert o1 o2. induction limit as [|limit IH]; intros o1 o2; [done|]. cbn [compare_loop].
  destruct (dns_label_cases a o1) as [(o1' & -> & Hl1)|[-> _]]; [|done]. cbn [result_bind].
  destruct (dns_label_cases b o2) as [(o2' & -> & Hl2)|[-> _]]; [|done]. cbn [result_bind]. unfold label_len.
  destruct (decide (_ <> _)) as [|He%dec_stable]; [done|]. destruct (decide (Z.to_nat (get8 (dn_data a) o1') = 0%nat)) as [H0|H0].
  { intros _. exists [], []. split; econstructor; eauto; lia. }
  destruct (compare_bytes _ _); [|done]. rewrite He at 2. intros (ls1 & ls2 & H1 & H2)%IH.
  eexists _, _. split; econstructor; eauto; lia.
Qed.

Lemma dns_compare_valid a b :
  dns_compare a b = Ok tt -> (dn_len a <= length (dn_data a))%nat -> (dn_len b <= length (dn_data b))%nat ->
  exists ls1 ls2, name_encodes a ls1 /\ name_encodes b ls2 /\ Forall2 same_label ls1 ls2.
Proof.
  unfold dns_compare. intros H Ha Hb. destruct (compare_loop_valid _ _ _ _ _ H) as (ls1 & ls2 & H1 & H2). exists ls1, ls2. split_and!; [done|done|].
  destruct (compare_loop_ok (dn_len a) a b _ _ _ _ Ha Hb H1 H2) as [[_ ?]|[? _]]; [by eapply encodes_bound|done|congruence].
Qed.

Lemma dns_compare_same a b ls1 ls2 :
  (dn_len a <= length (dn_data a))%nat -> (dn_len b <= length (dn_data b))%nat ->
  name_encodes a ls1 -> name_encodes b ls2 -> Forall2 same_label ls1 ls2 -> dns_compare a b = Ok tt.
Proof.
  intros Ha Hb H1 H2 HF. unfold dns_compare.
  destruct (compare_loop_ok (dn_len a) a b _ _ _ _ Ha Hb H1 H2) as [[? _]|[_ ?]]; [by eapply encodes_bound|done|done].
Qed.

(** Comparing succeeds exactly when both names have a meaning and their
    labels are the same up to case, however each is compressed. *)
Theorem dns_compare_correct a b :
  (dn_len a <= length (dn_data a))%nat -> (dn_len b <= length (dn_data b))%nat ->
  dns_compare a b = Ok tt <-> exists ls1 ls2, name_encodes a ls1 /\ name_encodes b ls2 /\ Forall2 same_label ls1 ls2.
Proof.
  intros Ha Hb. split; [intros H; by apply dns_compare_valid|]. intros (ls1 & ls2 & H1 & H2 & HF). by eapply dns_compare_same.
Qed.

(** ** Copying *)

(** The uncompressed encoding. *)
Definition wire_label (l : list Z) : list Z := Z.of_nat (length l) :: l.
Definition wire_labels (ls : list (list Z)) : list Z := concat (map wire_label ls).
Definition wire (ls : list (list Z)) : list Z := wire_labels ls ++ [0].

Lemma splice_nil data o : splice data o [] = data.
Proof. unfold splice. cbn [app length]. by rewrite Nat.add_0_r, take_drop. Qed.

Lemma length_splice data o bs : (o + length bs <= length data)%nat -> length (splice data o bs) = length data.
Proof. intros. unfold splice. rewrite !length_app, length_take, length_drop. lia. Qed.

Lemma splice_middle P Q bs : splice (P ++ Q) (length P) bs = P ++ bs ++ drop (length bs) Q.
Proof. unfold splice. by rewrite take_app_length, <- drop_drop, drop_app_length. Qed.

Lemma splice_app data o a b :
  (o <= length data)%nat -> splice (splice data o a) (o + length a) b = splice data o (a ++ b).
Proof.
  intros Hl. rewrite <- (take_drop o data). set (P := take o data). set (Q := drop o data).
  assert (length P = o) as HP by (unfold P; rewrite length_take; lia). clearbody P Q. subst o. rewrite !splice_middle, app_assoc, <- length_app, splice_middle.
  by rewrite length_app, drop_drop, <- !app_assoc.
Qed.

Lemma take_wire data len o o' :
  (len <= length data)%nat -> bytes data -> label_at data len o o' ->
  take (1 + Z.to_nat (get8 data o')) (drop o' data) = wire_label (label_of data o').
Proof.
  intros Hlen Hb Hl. pose proof (label_of_length _ _ _ _ Hlen Hl) as Hll. destruct (label_at_end _ _ _ _ Hl) as [_ Hlt].
  unfold wire_label. rewrite Hll.
  assert (data !! o' = Some (get8 data o')) as Ho.
  { destruct (lookup_lt_is_Some_2 data o') as [x Hx]; [lia|]. unfold get8. by rewrite nth_lookup, Hx. }
  assert (is_byte (get8 data o')) as Hby by (by eapply Forall_lookup_1 in Ho).
  rewrite (drop_S _ _ _ Ho). cbn [Nat.add take]. f_equal. zlia.
Qed.

(** One label of a copy, cut off at the end of the destination. *)
Lemma copy_len_ok data len o o' d dlen :
  (len <= length data)%nat -> bytes data -> label_at data len o o' ->
  take (let c := if decide (d < dlen)%nat then (dlen - d)%nat else 0%nat in
        if decide (1 + Z.to_nat (get8 data o') < c)%nat then (1 + Z.to_nat (get8 data o'))%nat else c) (drop o' data) =
  take (dlen - d) (wire_label (label_of data o')).
Proof.
  intros Hlen Hby Hl. rewrite <- (take_wire _ _ _ _ Hlen Hby Hl), take_take. f_equal. cbv zeta. repeat case_decide; lia.
Qed.

Lemma wire_cons l ls : wire (l :: ls) = wire_label l ++ wire ls.
Proof. unfold wire, wire_labels. cbn [map concat]. by rewrite app_assoc. Qed.

Lemma copy_loop_ok limit src o ls data d dlen :
  (dn_len src <= length (dn_data src))%nat -> bytes (dn_data src) -> (dlen <= length data)%nat ->
  encodes (dn_data src) (dn_len src) o ls -> (length ls < limit)%nat ->
  copy_loop limit src o data d dlen = Ok ((d + length (wire ls))%nat, splice data d (take (dlen - d) (wire ls))).
Proof.
  intros Hlen Hby Hdl He. revert limit data d Hdl. induction He as [o o' Hl H0|o o' ls Hl H0 He IH]; intros limit data d Hdl Hlim;
    (destruct limit as [|limit]; [simpl in Hlim; lia|]); cbn [copy_loop]; rewrite (proj2 (dns_label_ok _ _ _) Hl); cbn [result_bind];
    unfold label_len; pose proof (copy_len_ok _ _ _ _ d dlen Hlen Hby Hl) as Hc; cbv zeta in Hc; rewrite Hc; clear Hc;
    pose proof (label_of_length _ _ _ _ Hlen Hl) as Hll.
  - rewrite decide_True by done. rewrite H0. do 3 f_equal. unfold wire, wire_label. rewrite Hll, H0.
    destruct (label_of (dn_data src) o') as [|c l]; [done|]. simpl in Hll. lia.
  - rewrite decide_False by done. set (l := label_of (dn_data src) o') in *. rewrite <- Hll in IH |- *.
    assert (length (splice data d (take (dlen - d) (wire_label l))) = length data) as Hls.
    { destruct (decide (d < dlen)%nat); [apply length_splice; rewrite length_take; lia|].
      replace (dlen - d)%nat with 0%nat by lia. by rewrite splice_nil. }
    rewrite IH; [|by rewrite Hls|simpl in Hlim; lia]. rewrite wire_cons, length_app, take_app.
    change (1 + length l)%nat with (length (wire_label l)). f_equal. f_equal; [lia|].
    destruct (decide (length (wire_label l) <= dlen - d)%nat) as [Hfit|Hcut].
    + rewrite (take_ge (wire_label l)) by lia. rewrite splice_app by (simpl in Hfit; lia).
      by replace (dlen - (d + length (wire_label l)))%nat with (dlen - d - length (wire_label l))%nat by lia.
    + replace (dlen - (d + length (wire_label l)))%nat with 0%nat by lia.
      replace (dlen - d - length (wire_label l))%nat with 0%nat by lia. cbn [take]. by rewrite splice_nil, app_nil_r.
Qed.

Lemma copy_loop_valid limit src o data d dlen r :
  copy_loop limit src o data d dlen = Ok r -> exists ls, encodes (dn_data src) (dn_len src) o ls.
Proof.
  revert o data d. induction limit as [|limit IH]; intros o data d; [done|]. cbn [copy_loop].
  destruct (dns_label_cases src o) as [(o' & -> & Hl)|[-> _]]; [|done]. cbn [result_bind]. unfold label_len.
  destruct (decide (Z.to_nat (get8 (dn_data src) o') = 0%nat)) as [H0|H0]; [intros _; exists []; by econstructor|].
  intros [ls Hls]%IH. eexists. by econstructor.
Qed.

Lemma copy_loop_err limit src o data d dlen e : copy_loop limit src o data d dlen = Err e -> e = EINVAL.
Proof.
  revert o data d. induction limit as [|limit IH]; intros o data d; cbn [copy_loop]; [congruence|].
  destruct (dns_label_cases src o) as [(o' & -> & Hl)|[-> _]]; cbn [result_bind]; [|congruence]. case_decide; [done|]. apply IH.
Qed.

(** Copying writes the uncompressed encoding, as far as it fits, and returns
    its whole length; it fails on names without a meaning. *)
Lemma dns_copy_correct src dst :
  (dn_len src <= length (dn_data src))%nat -> bytes (dn_data src) -> (dn_len dst <= length (dn_data dst))%nat ->
  (forall ls, name_encodes src ls ->
     dns_copy src dst = Ok (length (wire ls), DnsName (splice (dn_data dst) (dn_offset dst) (take (dn_len dst - dn_offset dst) (wire ls)))
                                                     (dn_offset dst) (dn_len dst))) /\
  ((forall ls, ~ name_encodes src ls) -> dns_copy src dst = Err EINVAL).
Proof.
  intros Hs Hb Hd. unfold dns_copy. split.
  - intros ls He. rewrite (copy_loop_ok _ _ _ ls) by (try done; by eapply encodes_bound). cbn [result_bind]. do 2 f_equal. lia.
  - intros Hn. destruct (copy_loop _ _ _ _ _ _) as [r|e] eqn:Hc; [|by rewrite (copy_loop_err _ _ _ _ _ _ _ Hc)].
    apply copy_loop_valid in Hc as [ls Hls]. by destruct (Hn ls).
Qed.

(** ** Skipping *)

Lemma skip_loop_bounds limit n o e : skip_loop limit n o = Ok e -> (o < e <= dn_len n)%nat.
Proof.
  revert o. induction limit as [|limit IH]; intros o; [done|]. cbn [skip_loop].
  destruct (dns_label_cases n o) as [(o' & -> & Hl)|[-> _]]; [|done]. cbn [result_bind]. unfold label_len. case_decide as Hne.
  - intros [= <-]. inversion Hl; subst; [done|]. lia.
  - subst o'. destruct (label_at_le _ _ _ _ Hl) as [_ Hle]. case_decide; [intros [= <-]; lia|]. intros Hx%IH. lia.
Qed.

Lemma skip_loop_valid limit n o ls :
  encodes (dn_data n) (dn_len n) o ls -> (length ls < limit)%nat -> exists e, skip_loop limit n o = Ok e.
Proof.
  intros He. revert limit. induction He as [o o' Hl H0|o o' ls Hl H0 He IH]; intros limit Hlim;
    (destruct limit as [|limit]; [simpl in Hlim; lia|]); cbn [skip_loop]; rewrite (proj2 (dns_label_ok _ _ _) Hl); cbn [result_bind];
    unfold label_len; (case_decide; [eauto|]).
  - rewrite decide_True by done. eauto.
  - rewrite decide_False by done. apply IH. simpl in Hlim. lia.
Qed.

(** Skipping finds the end of a name. *)
Lemma skip_loop_ends limit n o e : skip_loop limit n o = Ok e -> name_ends (dn_data n) (dn_len n) o e.
Proof.
  revert o. induction limit as [|limit IH]; intros o; [done|]. cbn [skip_loop].
  destruct (dns_label_cases n o) as [(o' & -> & Hl)|[-> _]]; [|done]. cbn [result_bind]. unfold label_len. case_decide as Hne.
  - intros [= <-]. eapply ends_pointer; [|exact Hl]. by inversion Hl.
  - subst o'. assert (Z.land (get8 (dn_data n) o) 192 = 0) as Hc.
    { inversion Hl; [done|]. match goal with H : label_at _ _ ?p o |- _ => apply label_at_le in H as [? _] end. lia. }
    destruct (label_at_le _ _ _ _ Hl) as [_ Hle]. case_decide as H0.
    + intros [= <-]. rewrite H0. apply ends_root; lia.
    + intros Hx%IH. rewrite Nat.add_assoc in Hx. apply ends_label; [done|done|lia|done].
Qed.

Lemma name_ends_skip limit n o e :
  name_ends (dn_data n) (dn_len n) o e -> (dn_len n <= o + limit)%nat -> skip_loop limit n o = Ok e.
Proof.
  intros He. revert limit. induction He as [o Ho Hc H0|o o' Hc Hl|o e Hc H0 Hlen _ IH]; intros limit Hlim.
  - destruct limit as [|limit]; [lia|]. cbn [skip_loop]. rewrite (proj2 (dns_label_ok n o o)) by (apply label_here; done || lia).
    cbn [result_bind]. rewrite decide_False by (by intros []). unfold label_len. rewrite H0. by rewrite decide_True.
  - destruct limit as [|limit]; [inversion Hl; lia|]. cbn [skip_loop]. rewrite (proj2 (dns_label_ok n o o') Hl). cbn [result_bind].
    rewrite decide_True; [done|]. intros ->. inversion Hl; [done|].
    match goal with H : label_at _ _ ?p o |- _ => apply label_at_le in H as [? _] end. lia.
  - destruct limit as [|limit]; [lia|]. cbn [skip_loop]. rewrite (proj2 (dns_label_ok n o o)) by (apply label_here; done || lia).
    cbn [result_bind]. rewrite decide_False by (by intros []). unfold label_len. rewrite decide_False by lia.
    rewrite Nat.add_assoc. apply IH. lia.
Qed.

Lemma dns_skip_ends data len o e : dns_skip (DnsName data o len) = Ok e <-> name_ends data len o e.
Proof.
  split; [intros H; by apply skip_loop_ends in H|]. intros H. apply (name_ends_skip _ (DnsName data o len)); [done|simpl; lia].
Qed.

(** ** Uncompressed names *)

Definition label_fits (l : list Z) : Prop := (0 < length l <= DNS_MAX_LABEL_LEN)%nat.
Definition label_ok (l : list Z) : Prop := label_fits l /\ Forall (fun c => 0 < c < 256 /\ c <> 46) l.

Lemma not_compressed k : (k <= 63)%nat -> DNS_IS_COMPRESSED (Z.of_nat k) = 0.
Proof.
  intros Hk. pose proof (all_bytes (fun c => bool_decide (63 < c) || bool_decide (DNS_IS_COMPRESSED c = 0))) as H.
  ospecialize (H _ (Z.of_nat k)); [vm_compute; reflexivity|]. ospecialize (H _); [zlia|]. apply orb_true_iff in H as [H|H];
    apply bool_decide_eq_true in H; lia || done.
Qed.

Lemma wire_label_at P l Q len :
  label_fits l -> (length P + S (length l) <= len)%nat ->
  let data := P ++ wire_label l ++ Q in
  label_at data len (length P) (length P) /\ Z.to_nat (get8 data (length P)) = length l /\ label_of data (length P) = l.
Proof.
  intros Hl Hlen data. unfold label_fits in Hl.
  assert (get8 data (length P) = Z.of_nat (length l)) as Hg by (unfold get8, data; by rewrite app_nth2, Nat.sub_diag by lia).
  rewrite Hg, Nat2Z.id. split_and!; [|done|].
  - apply label_here; rewrite ?Hg, ?Nat2Z.id; [lia|apply not_compressed; unfold DNS_MAX_LABEL_LEN in Hl; lia|lia].
  - unfold label_of. rewrite Hg, Nat2Z.id. unfold data, wire_label. cbn [app]. rewrite cons_middle, app_assoc.
    replace (S (length P)) with (length (P ++ [Z.of_nat (length l)])) by (rewrite length_app; simpl; lia).
    by rewrite drop_app_length, take_app_length.
Qed.

Lemma encodes_wire P ls Q len :
  Forall label_fits ls -> (length P + length (wire ls) <= len)%nat -> encodes (P ++ wire ls ++ Q) len (length P) ls.
Proof.
  intros Hls. revert P. induction Hls as [|l ls Hl _ IH]; intros P Hlen.
  - assert (get8 (P ++ wire [] ++ Q) (length P) = 0) as Hg by (unfold get8, wire; cbn [map concat app]; by rewrite app_nth2, Nat.sub_diag by lia).
    apply (encodes_root _ _ _ (length P)); [|by rewrite Hg]. apply label_here; rewrite ?Hg; simpl in Hlen; [lia|done|simpl; lia].
  - rewrite wire_cons, length_app in *. rewrite <- (app_assoc (wire_label l)).
    destruct (wire_label_at P l (wire ls ++ Q) len Hl) as (H1 & H2 & H3); [simpl in Hlen; lia|]. rewrite <- H3 at 2.
    eapply encodes_label; [exact H1|rewrite H2; unfold label_fits in Hl; lia|]. rewrite H2.
    specialize (IH (P ++ wire_label l)). rewrite length_app, <- app_assoc in IH. apply IH. lia.
Qed.

Lemma skip_loop_wire P ls Q data o0 len limit :
  Forall label_fits ls -> (length P + length (wire ls) <= len)%nat -> (length ls < limit)%nat -> data = P ++ wire ls ++ Q ->
  skip_loop limit (DnsName data o0 len) (length P) = Ok (length P + length (wire ls))%nat.
Proof.
  intros Hls. revert P limit data. induction Hls as [|l ls Hl _ IH]; intros P limit data Hlen Hlim ->;
    (destruct limit as [|limit]; [simpl in Hlim; lia|]); cbn [skip_loop].
  - pose proof (encodes_wire P [] Q len (Forall_nil_2 _) Hlen) as He.
    assert (get8 (P ++ wire [] ++ Q) (length P) = 0) as Hg by (unfold get8, wire; cbn [map concat app]; by rewrite app_nth2, Nat.sub_diag by lia).
    assert (dns_label (DnsName (P ++ wire [] ++ Q) o0 len) (length P) = Ok (length P)) as ->.
    { apply dns_label_ok. simpl in Hlen. apply label_here; cbn [dn_data dn_len]; rewrite ?Hg; [lia|done|simpl; lia]. }
    cbn [result_bind]. rewrite decide_False by (by intros []). unfold label_len. cbn [dn_data]. rewrite Hg. rewrite decide_True by done. done.
  - rewrite wire_cons, length_app in *. rewrite <- (app_assoc (wire_label l)).
    destruct (wire_label_at P l (wire ls ++ Q) len Hl) as (H1 & H2 & H3); [simpl in Hlen; lia|].
    rewrite (proj2 (dns_label_ok (DnsName _ o0 len) _ _) H1). cbn [result_bind]. rewrite decide_False by (by intros []).
    unfold label_len. cbn [dn_data]. rewrite H2, decide_False by (unfold label_fits in Hl; lia).
    specialize (IH (P ++ wire_label l) limit). rewrite length_app in IH.
    change (length P + (1 + length l))%nat with (length P + length (wire_label l))%nat.
    rewrite IH; [f_equal; lia|lia|simpl in Hlim; lia|by rewrite <- !app_assoc].
Qed.

Lemma labels_fit ls : Forall label_ok ls -> Forall label_fits ls.
Proof. intros H. eapply Forall_impl; [exact H|]. by intros ? []. Qed.

(** ** Encoding *)

(** Writing one more character of a label after [B], and its new length. *)
Lemma write_char B n cur x Q c n' :
  splice (splice ((B ++ n :: cur) ++ x :: Q) (length (B ++ n :: cur)) [c]) (length B) [n'] = (B ++ n' :: cur ++ [c]) ++ Q.
Proof.
  rewrite splice_middle. cbn [length drop app]. rewrite drop_0, <- app_assoc. cbn [app]. rewrite splice_middle. cbn [length drop app].
  rewrite drop_0, <- app_assoc. cbn [app]. by rewrite <- app_assoc.
Qed.

(** Encoding of the rest [l] of a label of which [cur] is written. *)
Lemma encode_label l rest B n cur Q start limit :
  Forall (fun c => 0 < c < 256 /\ c <> 46) l -> (length cur + length l <= DNS_MAX_LABEL_LEN)%nat ->
  (length (B ++ n :: cur) + length l <= limit)%nat -> (length l <= length Q)%nat ->
  encode_loop (l ++ rest) start limit ((B ++ n :: cur) ++ Q) (length B + length cur) (length cur) =
  encode_loop rest start limit ((B ++ (match l with [] => n | _ => Z.of_nat (length cur + length l) end) :: cur ++ l) ++ drop (length l) Q)
    (length B + length (cur ++ l)) (length (cur ++ l)).
Proof.
  intros Hl. revert n cur Q. induction Hl as [|c l [_ Hc] Hl IH]; intros n cur Q Hmax Hlim HQ.
  { cbn [app length drop]. by rewrite app_nil_r, drop_0. }
  destruct Q as [|x Q]; [simpl in HQ; lia|]. cbn [app encode_loop]. rewrite decide_False by done.
  simpl in Hmax, HQ. rewrite decide_False by (unfold DNS_MAX_LABEL_LEN in *; lia). rewrite length_app in Hlim. simpl in Hlim.
  rewrite decide_True by lia. replace (S (length B + length cur)) with (length (B ++ n :: cur)) by (rewrite length_app; simpl; lia).
  replace (length (B ++ n :: cur) - S (length cur))%nat with (length B) by (rewrite length_app; simpl; lia).
  rewrite (wrap_small 8) by (unfold DNS_MAX_LABEL_LEN in *; zlia). rewrite write_char.
  replace (length (B ++ n :: cur)) with (length B + length (cur ++ [c]))%nat by (rewrite !length_app; simpl; lia).
  replace (S (length cur)) with (length (cur ++ [c])) by (rewrite length_app; simpl; lia).
  rewrite IH; [|rewrite length_app; simpl; lia|rewrite !length_app; simpl; rewrite !length_app; simpl; lia|lia].
  rewrite <- (app_assoc cur). cbn [app length drop]. f_equal. f_equal. f_equal. f_equal. destruct l; rewrite length_app; simpl; lia.
Qed.

Lemma encode_whole_label l rest B n Q start limit :
  label_ok l -> (length B + length (wire_label l) <= limit)%nat -> (length l <= length Q)%nat ->
  encode_loop (l ++ rest) start limit (B ++ n :: Q) (length B) 0 =
  encode_loop rest start limit ((B ++ wire_label l) ++ drop (length l) Q) (length B + length l) (length l).
Proof.
  intros [[Hl0 Hl1] Hl2] Hlim HQ. pose proof (encode_label l rest B n [] Q start limit Hl2) as He. cbn [wire_label app length] in He, Hlim.
  rewrite Nat.add_0_r, <- app_assoc in He. cbn [app] in He. rewrite He; [|lia|rewrite length_app; simpl; lia|done].
  unfold wire_label. by destruct l; [simpl in Hl0; lia|].
Qed.

Definition encode_finish (limit : nat) (r : list Z * nat * nat) : list Z * nat :=
  let '(data, dst, llen) := r in
  let dst := if decide (llen <> 0%nat) then S dst else dst in
  (if decide (dst < limit)%nat then splice data dst [0] else data, S dst).

Lemma encode_names l ls tail B n Q start limit :
  Forall label_ok (l :: ls) -> tail = [] \/ tail = [46] -> (length B + length (wire (l :: ls)) <= limit)%nat ->
  (length (wire (l :: ls)) <= S (length Q))%nat ->
  result_bind (encode_loop (l ++ concat (map (cons 46) ls) ++ tail) start limit (B ++ n :: Q) (length B) 0) (fun r => Ok (encode_finish limit r)) =
  Ok (B ++ wire (l :: ls) ++ drop (length (wire (l :: ls))) (n :: Q), (length B + length (wire (l :: ls)))%nat).
Proof.
  revert l B n Q. induction ls as [|l' ls IH]; intros l B n Q [Hl Hls]%Forall_cons Htail Hlim HQ;
    rewrite wire_cons, length_app in *; (rewrite encode_whole_label; [|done|simpl in *; lia|simpl in *; lia]).
  - assert (encode_loop (concat (map (cons 46) []) ++ tail) start limit ((B ++ wire_label l) ++ drop (length l) Q) (length B + length l) (length l) =
      Ok ((B ++ wire_label l) ++ drop (length l) Q, (length B + length l)%nat, length l)) as ->.
    { destruct Htail as [->| ->]; [done|]. cbn [map concat app encode_loop]. rewrite decide_True by done. rewrite decide_False; [done|].
      destruct Hl as [[? ?] _]. lia. }
    cbn [result_bind encode_finish]. rewrite (decide_True (P := length l <> 0%nat)) by (destruct Hl as [[? ?] _]; lia).
    change (length (wire [])) with 1%nat in *. change (wire []) with [0]. cbn [wire_label length] in Hlim, HQ.
    rewrite decide_True by lia. assert (S (length B + length l) = length (B ++ wire_label l)) as -> by (rewrite length_app; simpl; lia).
    rewrite splice_middle, length_app. cbn [wire_label length]. do 2 f_equal; [|lia].
    rewrite <- !app_assoc. do 3 f_equal. by rewrite drop_drop.
  - cbn [map concat app]. destruct (drop (length l) Q) as [|y R] eqn:HR.
    { apply (f_equal length) in HR. rewrite length_drop in HR. rewrite wire_cons, length_app in HQ. simpl in HR, HQ. lia. }
    cbn [encode_loop]. rewrite (decide_True (P := 46 = 46)) by done. rewrite decide_False by (destruct Hl as [[? ?] _]; lia).
    destruct ((l' ++ concat (map (cons 46) ls)) ++ tail) as [|z Z] eqn:HZ.
    { apply (f_equal length) in HZ. rewrite !length_app in HZ. apply Forall_cons in Hls as [[[Hl' _] _] _]. simpl in HZ. lia. }
    rewrite <- HZ. rewrite decide_False by (destruct Hl as [[? ?] _]; lia). rewrite wire_cons, length_app in Hlim. cbn [wire_label length] in Hlim.
    rewrite decide_True by lia. assert (S (length B + length l) = length (B ++ wire_label l)) as -> by (rewrite length_app; simpl; lia).
    rewrite Nat.sub_0_r, splice_middle. cbn [length drop app]. rewrite drop_0, splice_middle. cbn [length drop app]. rewrite drop_0.
    change (u8 (Z.of_nat 0)) with 0. rewrite <- (app_assoc l').
    assert (length (wire (l' :: ls)) = S (length l' + length (wire ls))) as Hwl by (by rewrite wire_cons, length_app).
    assert (length R = (length Q - length l - 1)%nat) as HRl by (apply (f_equal length) in HR; rewrite length_drop in HR; simpl in HR; lia).
    cbn [wire_label length] in HQ. rewrite IH; [|done|done|rewrite Hwl, length_app; cbn [wire_label length]; lia|lia].
    do 2 f_equal; [|rewrite length_app; lia]. rewrite <- !app_assoc. do 3 f_equal.
    cbn [wire_label length Nat.add drop]. rewrite <- drop_drop, HR, Hwl. done.
Qed.

Lemma dotted_cons l ls : l <> [] -> dotted (l :: ls) = l ++ concat (map (cons 46) ls).
Proof.
  intros Hl. unfold dotted. cbn [dotted_from]. revert l Hl. induction ls as [|l' ls IH]; intros l Hl; cbn [dotted_from map concat].
  - by rewrite app_nil_r.
  - destruct l as [|c l]; [done|]. rewrite IH by done. by rewrite <- app_assoc.
Qed.

(** A name with a terminating dot, or without. *)
Lemma dns_encode_wire ls tail n :
  Forall label_ok ls -> tail = [] \/ tail = [46] ->
  (dn_offset n + length (wire ls) <= dn_len n)%nat -> (dn_len n <= length (dn_data n))%nat ->
  dns_encode (dotted ls ++ tail) n =
    Ok (length (wire ls), DnsName (splice (dn_data n) (dn_offset n) (wire ls)) (dn_offset n) (dn_len n)).
Proof.
  destruct n as [data start limit]. cbn [dn_data dn_offset dn_len]. intros Hls Htail Hfit Hlen. unfold dns_encode. cbn [dn_data dn_offset dn_len].
  assert (exists B n Q, data = B ++ n :: Q /\ length B = start) as (B & n & Q & -> & HB).
  { assert (length (wire ls) > 0)%nat by (unfold wire; rewrite length_app; simpl; lia).
    destruct (lookup_lt_is_Some_2 data start) as [x Hx]; [lia|]. exists (take start data), x, (drop (S start) data).
    split; [by rewrite take_drop_middle|]. rewrite length_take. lia. }
  subst start. rewrite length_app in Hlen. simpl in Hlen.
  destruct ls as [|l ls].
  - assert (encode_loop (dotted [] ++ tail) (length B) limit (B ++ n :: Q) (length B) 0 = Ok (B ++ n :: Q, length B, 0%nat)) as ->.
    { destruct Htail as [->| ->]; [done|]. cbn [dotted dotted_from app encode_loop]. rewrite decide_True by done.
      rewrite decide_False; [done|]. by intros [_ []]. }
    cbn [result_bind]. rewrite (decide_False (P := (0 <> 0)%nat)) by lia. change (length (wire [])) with 1%nat in *.
    rewrite (decide_True (P := (length B < limit)%nat)) by lia. do 2 f_equal. lia.
  - pose proof (encode_names l ls tail B n Q (length B) limit Hls Htail Hfit) as He. ospecialize (He _); [lia|].
    apply Forall_cons in Hls as [[[Hl _] _] _]. rewrite dotted_cons, <- app_assoc by (by intros ->; simpl in Hl; lia).
    destruct (encode_loop _ _ _ _ _ _) as [[[data' dst] llen]|e]; [|done]. cbn [result_bind] in He |- *.
    apply (f_equal (fun r => match r with Ok p => p | Err _ => ([], 0%nat) end)) in He.
    pose proof (f_equal fst He) as Hd. pose proof (f_equal snd He) as Hs. cbn [fst snd encode_finish] in Hd, Hs.
    rewrite Hd, Hs, splice_middle. do 2 f_equal. lia.
Qed.

(** The bytes that may be changed: those of the name that are inside the room. *)
Definition keeps (start limit : nat) (data data' : list Z) : Prop :=
  length data' = length data /\ take start data' = take start data /\ drop limit data' = drop limit data.

Lemma keeps_refl start limit data : keeps start limit data data.
Proof. done. Qed.

Lemma keeps_splice start limit data data' o c :
  keeps start limit data data' -> (start <= o < limit)%nat -> (limit <= length data)%nat -> keeps start limit data (splice data' o [c]).
Proof.
  intros (Hl & Ht & Hd) Ho Hlim. unfold keeps. split_and!; [rewrite length_splice by (simpl; lia); done| |].
  - unfold splice. rewrite take_app_le by (rewrite length_take; lia). by rewrite take_take, Nat.min_l by lia.
  - rewrite <- Hd. unfold splice. rewrite app_assoc, drop_app_ge; [|rewrite length_app, length_take; simpl; lia].
    rewrite drop_drop. f_equal. rewrite length_app, length_take. simpl. lia.
Qed.

Lemma encode_loop_keeps string start limit data0 data dst llen data' dst' llen' :
  (limit <= length data0)%nat -> keeps start limit data0 data -> (start + llen <= dst)%nat ->
  encode_loop string start limit data dst llen = Ok (data', dst', llen') -> keeps start limit data0 data' /\ (start <= dst')%nat.
Proof.
  intros Hlim. revert data dst llen. induction string as [|c string IH]; intros data dst llen Hk Hd; cbn [encode_loop].
  { intros [= <- <- <-]. split; [done|lia]. }
  assert (forall k, (k <= S llen)%nat ->
    keeps start limit data0 (if decide (S dst < limit)%nat then splice (splice data (S dst) [c]) (S dst - k) [u8 (Z.of_nat k)] else data)) as Hs.
  { intros k Hle. case_decide; [|done]. apply keeps_splice; [|lia|done]. apply keeps_splice; [done|lia|done]. }
  cbv zeta. destruct (decide (c = 46)).
  - destruct (decide (llen = 0%nat /\ dst <> start)); [done|]. destruct string as [|c' string]; [intros [= <- <- <-]; split; [done|lia]|].
    destruct (decide (llen = 0%nat)); [done|]. apply IH; [apply Hs; lia|lia].
  - destruct (decide (DNS_MAX_LABEL_LEN < S llen)%nat); [done|]. apply IH; [apply Hs; lia|lia].
Qed.

(** Encoding a name, with or without the final dot, writes the labels of
    the name, from which decoding recovers the text without the final dot;
    and whatever string is encoded, only bytes inside the buffer are
    written. *)
Theorem dns_encode_decode string n n' len0 :
  (dn_len n <= length (dn_data n))%nat -> dns_encode string n = Ok (len0, n') ->
  keeps (dn_offset n) (dn_len n) (dn_data n) (dn_data n') /\
  forall ls tail len, Forall label_ok ls -> tail = [] \/ tail = [46] -> string = dotted ls ++ tail ->
    (dn_offset n + length (wire ls) <= dn_len n)%nat ->
    len0 = length (wire ls) /\ dns_decode n' len = Ok (length (dotted ls), take len (dotted ls ++ [0])).
Proof.
  intros Hlen He. split.
  - unfold dns_encode in He. destruct (encode_loop _ _ _ _ _ _) as [[[data' dst] llen]|e] eqn:Hl; [|done]. cbn [result_bind] in He.
    injection He as _ <-. cbn [dn_data]. apply encode_loop_keeps with (data0 := dn_data n) in Hl as [Hk Hd]; [|done|apply keeps_refl|lia].
    set (d := if decide (llen <> 0%nat) then S dst else dst). assert (dn_offset n <= d)%nat by (unfold d; case_decide; lia).
    case_decide; [|done]. apply keeps_splice; [done|lia|done].
  - intros ls tail len Hls Htail -> Hfit. rewrite dns_encode_wire in He by done. injection He as <- <-. split; [done|].
    assert (exists B Q, dn_data n = B ++ Q /\ length B = dn_offset n) as (B & Q & HB & HBl).
    { exists (take (dn_offset n) (dn_data n)), (drop (dn_offset n) (dn_data n)). rewrite take_drop, length_take. split; [done|lia]. }
    rewrite <- HBl, HB, splice_middle. rewrite HB, length_app in Hlen.
    pose proof (encodes_wire B ls (drop (length (wire ls)) Q) (dn_len n) (labels_fit _ Hls)) as Hw. ospecialize (Hw _); [lia|].
    pose proof (decode_loop_ok (dn_len n) (DnsName (B ++ wire ls ++ drop (length (wire ls)) Q) (length B) (dn_len n)) (length B) ls len []) as Hd.
    rewrite take_nil in Hd. apply Hd; [|done|by eapply encodes_bound].
    cbn [dn_len dn_data]. rewrite !length_app, length_drop. lia.
Qed.

(** The labels of an encoded name have the length of labels. *)
Lemma compressed_small c : is_byte c -> DNS_IS_COMPRESSED c = 0 -> c <= 63.
Proof.
  intros Hc H0. pose proof (all_bytes (fun c => bool_decide (c <= 63) || negb (bool_decide (DNS_IS_COMPRESSED c = 0)))) as H.
  ospecialize (H _ c Hc); [vm_compute; reflexivity|]. apply orb_true_iff in H as [H|H]; [by apply bool_decide_eq_true in H|].
  apply negb_true_iff, bool_decide_eq_false in H. done.
Qed.

Lemma encodes_fits data len o ls : bytes data -> (len <= length data)%nat -> encodes data len o ls -> Forall label_fits ls.
Proof.
  intros Hb Hlen He. induction He as [|o o' ls Hl H0 He IH]; constructor; [|done]. unfold label_fits, DNS_MAX_LABEL_LEN.
  rewrite (label_of_length _ _ _ _ Hlen Hl). destruct (label_at_end _ _ _ _ Hl) as [Hh Hlt].
  assert (is_byte (get8 data o')) as Hby.
  { destruct (lookup_lt_is_Some_2 data o') as [x Hx]; [lia|]. unfold get8. rewrite nth_lookup, Hx. by eapply Forall_lookup_1 in Hx. }
  inversion Hh as [? ? Hc|? ? ? ? ? ? ? Hp]; subst; [|apply label_at_le in Hp; lia].
  apply compressed_small in Hc; [|done]. lia.
Qed.

Lemma dns_copy_inv src dst len n' :
  (dn_len src <= length (dn_data src))%nat -> bytes (dn_data src) -> (dn_len dst <= length (dn_data dst))%nat ->
  dns_copy src dst = Ok (len, n') ->
  exists ls, name_encodes src ls /\ Forall label_fits ls /\ len = length (wire ls) /\
    n' = DnsName (splice (dn_data dst) (dn_offset dst) (take (dn_len dst - dn_offset dst) (wire ls))) (dn_offset dst) (dn_len dst).
Proof.
  intros Hs Hb Hd Hc. assert (exists ls, name_encodes src ls) as [ls Hls].
  { unfold dns_copy in Hc. destruct (copy_loop _ _ _ _ _ _) as [[? ?]|] eqn:Hl; [|done]. by eapply copy_loop_valid. }
  rewrite (proj1 (dns_copy_correct src dst Hs Hb Hd) ls Hls) in Hc. injection Hc as <- <-. exists ls. split_and!; [done| |done|done].
  by eapply encodes_fits.
Qed.

Lemma wire_app ls1 ls2 : wire (ls1 ++ ls2) = wire_labels ls1 ++ wire ls2.
Proof. unfold wire, wire_labels. by rewrite map_app, concat_app, <- app_assoc. Qed.

Lemma wire_root ls : wire ls = wire_labels ls ++ [0].
Proof. done. Qed.

(** ** Examples *)

Module NameSample.
(** "www.a", and after it "b.a" with a pointer to the last label of the first name. *)
Definition message : list Z := [3; 119; 119; 119; 1; 97; 0; 1; 98; 192; 4].
Definition b_a : dns_name := DnsName message 7 11.
Definition B_A : dns_name := DnsName [1; 66; 1; 65; 0] 0 5.

Lemma b_a_encodes : name_encodes b_a [[98]; [97]].
Proof.
  apply (encodes_next _ _ _ 7 0); [|done|done|].
  { apply label_here; [by apply Nat.ltb_lt|done|by apply Nat.leb_le]. }
  apply (encodes_next _ _ _ 4 0); [|done|done|].
  { apply (label_pointer _ _ _ 4); [by apply Nat.leb_le|done|done|by apply Nat.ltb_lt|]. apply label_here; [by apply Nat.ltb_lt|done|by apply Nat.leb_le]. }
  apply (encodes_root _ _ _ 6); [|done]. apply label_here; [by apply Nat.ltb_lt|done|by apply Nat.leb_le].
Qed.
End NameSample.

Lemma dns_decode_correct_witness : dns_decode NameSample.b_a 16 = Ok (3%nat, [98; 46; 97; 0]).
Proof.
  destruct (dns_decode_correct NameSample.b_a 16) as [H _]; [apply Nat.leb_le; reflexivity|]. exact (H _ NameSample.b_a_encodes).
Defined.

Lemma dns_compare_correct_witness :
  exists ls1 ls2, name_encodes NameSample.b_a ls1 /\ name_encodes NameSample.B_A ls2 /\ Forall2 same_label ls1 ls2.
Proof. apply (dns_compare_correct NameSample.b_a NameSample.B_A); [apply Nat.leb_le; reflexivity..|reflexivity]. Defined.

Lemma dns_encode_decode_witness :
  let n := DnsName (replicate 12 7) 2 9 in
  exists n', dns_encode [98; 46; 97; 46] n = Ok (5%nat, n') /\ keeps 2 9 (dn_data n) (dn_data n') /\
    dns_decode n' 16 = Ok (3%nat, [98; 46; 97; 0]).
Proof.
  intros n. eexists. split; [vm_compute; reflexivity|].
  destruct (dns_encode_decode [98; 46; 97; 46] n (DnsName [7; 7; 1; 98; 1; 97; 0; 7; 7; 7; 7; 7] 2 9) 5) as [Hk Hd];
    [apply Nat.leb_le; reflexivity|vm_compute; reflexivity|]. split; [exact Hk|].
  apply (Hd [[98]; [97]] [46]); [repeat constructor; vm_compute; congruence|by right|reflexivity|apply Nat.leb_le; reflexivity].
Defined.
