(* ===== verification/DnsRequest.v ===== *)
(** * DNS requests (net/udp/dns.c)

    A request keeps the query in a buffer: a header of 12 bytes, room for a
    name of up to 255 bytes and a question of 4 bytes.  The name of the query
    is in this buffer, and the question follows it.  What a request sends and
    reports is recorded in its state; the configured servers, the search list
    and the source of query identifiers are parameters.

    The theorems: a response is always processed to the end, whatever it
    contains ([dns_deliver_terminates]); a request that is resolved got its
    address from a record of the response for the queried name, or for a name
    that a chain of CNAME records of the response leads to
    ([dns_resolved_sound]), and a response with such a record resolves it
    ([dns_resolved_complete]); whatever happens to a request, it sends only
    well-formed queries, its timer runs until it is done, and it reports at
    most one address ([dns_request_invariant]).  [dns_cname_not_followed] is
    an execution in which the answer to a CNAME query is not used. *)

From S2P Require Import Prelude CMem Strings Dns.

Inductive dns_addr := In4 (addr : list Z) | In6 (addr : list Z).

Definition DNS_TYPE_A : Z := 1.
Definition DNS_TYPE_CNAME : Z := 5.
Definition DNS_TYPE_AAAA : Z := 28.
Definition DNS_CLASS_IN : Z := 1.
Definition DNS_FLAG_RD : Z := 256.
Definition DNS_MAX_CNAME_RECURSION : nat := 32.

(** The layout of the buffer. *)
Definition NAME_OFFSET : nat := 12.
Definition NAME_LIMIT : nat := 267.
Definition BUF_LEN : nat := 271.

Record dns_request := Dns {
  d_address : option dns_addr;
  d_qtype : Z;
  d_buf : list Z;
  d_name_offset : nat;
  d_question : nat;
  d_len : nat;
  d_offset : nat;
  d_search : dns_name;
  d_recursion : nat;
  d_timer : bool;
  d_index : Z;
  d_sent : list (dns_addr * list Z);
  d_resolved : list dns_addr;
  d_done : option (result unit);
}.

Section request.
Context (dns4 dns6 : list (list Z)) (random : nat -> Z).

Definition dns_count : Z := Z.of_nat (length dns4 + length dns6).

Definition with_buf (buf : list Z) (d : dns_request) : dns_request :=
  Dns (d_address d) (d_qtype d) buf (d_name_offset d) (d_question d) (d_len d) (d_offset d) (d_search d) (d_recursion d)
      (d_timer d) (d_index d) (d_sent d) (d_resolved d) (d_done d).
Definition with_timer (t : bool) (d : dns_request) : dns_request :=
  Dns (d_address d) (d_qtype d) (d_buf d) (d_name_offset d) (d_question d) (d_len d) (d_offset d) (d_search d) (d_recursion d)
      t (d_index d) (d_sent d) (d_resolved d) (d_done d).
Definition with_name_offset (o : nat) (d : dns_request) : dns_request :=
  Dns (d_address d) (d_qtype d) (d_buf d) o (d_question d) (d_len d) (d_offset d) (d_search d) (d_recursion d)
      (d_timer d) (d_index d) (d_sent d) (d_resolved d) (d_done d).
Definition with_question (q l : nat) (d : dns_request) : dns_request :=
  Dns (d_address d) (d_qtype d) (d_buf d) (d_name_offset d) q l (d_offset d) (d_search d) (d_recursion d)
      (d_timer d) (d_index d) (d_sent d) (d_resolved d) (d_done d).
Definition with_search (search : dns_name) (o : nat) (d : dns_request) : dns_request :=
  Dns (d_address d) (d_qtype d) (d_buf d) (d_name_offset d) (d_question d) (d_len d) o search (d_recursion d)
      (d_timer d) (d_index d) (d_sent d) (d_resolved d) (d_done d).
Definition with_recursion (r : nat) (d : dns_request) : dns_request :=
  Dns (d_address d) (d_qtype d) (d_buf d) (d_name_offset d) (d_question d) (d_len d) (d_offset d) (d_search d) r
      (d_timer d) (d_index d) (d_sent d) (d_resolved d) (d_done d).
Definition with_index (i : Z) (d : dns_request) : dns_request :=
  Dns (d_address d) (d_qtype d) (d_buf d) (d_name_offset d) (d_question d) (d_len d) (d_offset d) (d_search d) (d_recursion d)
      (d_timer d) i (d_sent d) (d_resolved d) (d_done d).
Definition with_sent (p : dns_addr * list Z) (d : dns_request) : dns_request :=
  Dns (d_address d) (d_qtype d) (d_buf d) (d_name_offset d) (d_question d) (d_len d) (d_offset d) (d_search d) (d_recursion d)
      (d_timer d) (d_index d) (d_sent d ++ [p]) (d_resolved d) (d_done d).
Definition with_address (a : dns_addr) (d : dns_request) : dns_request :=
  Dns (Some a) (d_qtype d) (d_buf d) (d_name_offset d) (d_question d) (d_len d) (d_offset d) (d_search d) (d_recursion d)
      (d_timer d) (d_index d) (d_sent d) (d_resolved d) (d_done d).

(** The name of the query is part of the buffer. *)
Definition d_name (d : dns_request) : dns_name := DnsName (d_buf d) (d_name_offset d) NAME_LIMIT.
Definition query_id (d : dns_request) : Z := get16 (d_buf d) 0.
Definition question_qtype (d : dns_request) : Z := get16 (d_buf d) (d_question d).
Definition set_qtype (t : Z) (d : dns_request) : dns_request := with_buf (splice (d_buf d) (d_question d) (be16 t)) d.

(** The interfaces can be closed once. *)
Definition dns_done (rc : result unit) (d : dns_request) : dns_request :=
  let d := with_timer false d in
  Dns (d_address d) (d_qtype d) (d_buf d) (d_name_offset d) (d_question d) (d_len d) (d_offset d) (d_search d) (d_recursion d)
      (d_timer d) (d_index d) (d_sent d) (d_resolved d) (match d_done d with None => Some rc | Some rc => Some rc end).

Definition dns_resolved (a : dns_addr) (d : dns_request) : dns_request :=
  let d := Dns (Some a) (d_qtype d) (d_buf d) (d_name_offset d) (d_question d) (d_len d) (d_offset d) (d_search d) (d_recursion d)
               (d_timer d) (d_index d) (d_sent d) (d_resolved d ++ [a]) (d_done d) in
  dns_done (Ok tt) d.

Definition search_root : dns_name := DnsName [0] 0 1.

(** When this fails the request is closed, or never opened: what the copy
    wrote before it failed is left out. *)
Definition dns_question (d : dns_request) : result unit * dns_request :=
  let search := if decide (dn_offset (d_search d) = dn_len (d_search d)) then search_root else d_search d in
  let d := with_name_offset (d_offset d) d in
  match dns_copy search (d_name d) with
  | Err e => (Err e, d)
  | Ok (len, name) =>
    let d := with_buf (dn_data name) d in
    let offset := (d_name_offset d + len)%nat in
    if decide (NAME_LIMIT < offset)%nat then (Err EINVAL, d) else
    let d := with_question offset (offset + 4) d in
    let d := with_buf (splice (d_buf d) offset (be16 (d_qtype d) ++ be16 DNS_CLASS_IN)) d in
    let d := with_name_offset NAME_OFFSET d in
    (Ok tt, with_buf (splice (d_buf d) 0 (be16 0)) d)
  end.

Definition dns_send_packet (d : dns_request) : result unit * dns_request :=
  let d := with_timer true d in
  if decide (dns_count = 0) then (Err EINVAL, d) else
  let index := Z.to_nat (d_index d `mod` dns_count) in
  let nameserver := if decide (index < length dns6)%nat then In6 (nth index dns6 []) else In4 (nth (index - length dns6) dns4 []) in
  let d := if decide (query_id d = 0) then with_buf (splice (d_buf d) 0 (be16 (random (length (d_sent d))))) d else d in
  (Ok tt, with_sent (nameserver, take (d_len d) (d_buf d)) d).

Definition dns_timer_expired (fail : bool) (d : dns_request) : dns_request :=
  let d := with_timer false d in
  if fail then dns_done (Err ETIMEDOUT) d else
  let d := if decide (query_id d <> 0) then with_index (u32 (d_index d + 1)) d else d in
  (dns_send_packet d).2.

(** ** Responses *)

(** How the search through the answers ends: with a status, or without a
    final answer. *)
Inductive answer_result := Answered (rc : result unit) (d : dns_request) | Exhausted (d : dns_request).

(** [response] is the received packet and [pos] the offset of the record. *)
Fixpoint answers (fuel : nat) (response : list Z) (answer_offset pos : nat) (d : dns_request) : option answer_result :=
  match fuel with
  | O => None
  | S fuel =>
    if decide (pos = length response) then Some (Exhausted d) else
    let buf := DnsName response pos (length response) in
    match dns_skip buf with
    | Err e => Some (Answered (Err e) d)
    | Ok offset =>
      if decide (length response < offset + 10)%nat then Some (Answered (Err EINVAL) d) else
      let type := get16 response offset in
      let rdlength := Z.to_nat (get16 response (offset + 8)) in
      let next_offset := (offset + 10 + rdlength)%nat in
      if decide (length response < next_offset)%nat then Some (Answered (Err EINVAL) d) else
      if decide (dns_compare buf (d_name d) <> Ok tt) then answers fuel response answer_offset next_offset d else
      if decide (type = DNS_TYPE_AAAA) then
        if decide (rdlength < 16)%nat then Some (Answered (Err EINVAL) d)
        else Some (Answered (Ok tt) (dns_resolved (In6 (take 16 (drop (offset + 10) response))) d))
      else if decide (type = DNS_TYPE_A) then
        if decide (rdlength < 4)%nat then Some (Answered (Err EINVAL) d)
        else Some (Answered (Ok tt) (dns_resolved (In4 (take 4 (drop (offset + 10) response))) d))
      else if decide (type = DNS_TYPE_CNAME) then
        let d := with_recursion (S (d_recursion d)) d in
        if decide (DNS_MAX_CNAME_RECURSION < d_recursion d)%nat then Some (Answered (Err ELOOP) (dns_done (Err ELOOP) d)) else
        let target := DnsName response (offset + 10) (length response) in
        let exhausted := DnsName (dn_data (d_search d)) (dn_len (d_search d)) (dn_len (d_search d)) in
        match dns_copy target (d_name d) with
        | Err e =>
          (* The length is a negative number, and the offset of the suffix wraps
             around to one that [dns_question] rejects.  The request is closed,
             and what its buffer holds then is not used again. *)
          let d := with_search exhausted (d_offset d) d in
          Some (Answered (Err EINVAL) (dns_done (Err EINVAL) (with_name_offset (d_offset d) d)))
        | Ok (name_len, name) =>
          let d := with_buf (dn_data name) (with_search exhausted (NAME_OFFSET + name_len - 1) d) in
          match dns_question d with
          | (Err e, d) => Some (Answered (Err e) (dns_done (Err e) d))
          | (Ok _, d) => answers fuel response answer_offset answer_offset d
          end
        end
      else answers fuel response answer_offset next_offset d
    end
  end.

(** What to do when the response had no final answer to a query of type [qtype]. *)
Definition next_query (qtype : Z) (d : dns_request) : result unit * dns_request :=
  let d := with_timer false d in
  if decide (qtype = DNS_TYPE_AAAA) then (Ok tt, (dns_send_packet (set_qtype DNS_TYPE_A d)).2)
  else if decide (qtype = DNS_TYPE_A) then (Ok tt, (dns_send_packet (set_qtype DNS_TYPE_CNAME d)).2)
  else if decide (qtype = DNS_TYPE_CNAME) then
    if decide (qtype = d_qtype d) then (Ok tt, (dns_send_packet d).2)
    else if decide (dn_offset (d_search d) = dn_len (d_search d)) then (Err ENXIO, dns_done (Err ENXIO) d)
    else
      match dns_skip_search (d_search d) with
      | Err e => (Err e, dns_done (Err e) d)
      | Ok offset =>
        let d := with_search (DnsName (dn_data (d_search d)) offset (dn_len (d_search d))) (d_offset d) d in
        match dns_question d with
        | (Err e, d) => (Err e, dns_done (Err e) d)
        | (Ok _, d) => (Ok tt, (dns_send_packet d).2)
        end
      end
  else (Err EINVAL, dns_done (Err EINVAL) d).

Definition dns_xfer_deliver (fuel : nat) (response : list Z) (d : dns_request) : option (result unit * dns_request) :=
  let qtype := question_qtype d in
  if decide (length response < 12)%nat then Some (Err EINVAL, d) else
  if decide (get16 response 0 <> query_id d) then Some (Err EINVAL, d) else
  if decide (get16 response 4 <> 1) then Some (Err EINVAL, d) else
  match dns_skip (DnsName response 12 (length response)) with
  | Err e => Some (Err e, d)
  | Ok offset =>
    let answer_offset := (offset + 4)%nat in
    match answers fuel response answer_offset answer_offset d with
    | None => None
    | Some (Answered rc d) => Some (rc, d)
    | Some (Exhausted d) => Some (next_query qtype d)
    end
  end.

Definition dns_xfer_close (rc : result unit) (d : dns_request) : dns_request :=
  dns_done (match rc with Ok _ => Err ECONNABORTED | Err e => Err e end) d.

(** ** New requests *)

(** [search_list] is the configured search list, [socket] the status of opening
    a socket; the structure is cleared when it is allocated. *)
Definition dns_resolv (search_list : list Z) (socket : result unit) (alloc_fails : bool) (index : Z) (name : list Z) : result dns_request :=
  if decide (dns_count = 0) then Err ENXIO else
  let search_data := if decide (46 ∈ name) then [] else search_list in
  if alloc_fails then Err ENOMEM else
  let qtype := if decide (length dns6 <> 0%nat) then DNS_TYPE_AAAA else DNS_TYPE_A in
  let buf := be16 0 ++ be16 DNS_FLAG_RD ++ be16 1 ++ replicate (BUF_LEN - 6) 0 in
  let* (name_len, encoded) := dns_encode name (DnsName buf NAME_OFFSET NAME_LIMIT) in
  let d := Dns None qtype (dn_data encoded) NAME_OFFSET 0 0 (NAME_OFFSET + name_len - 1)
               (DnsName search_data 0 (length search_data)) 0 false index [] [] None in
  match dns_question d with
  | (Err e, _) => Err e
  | (Ok _, d) => let* _ := socket in Ok (with_timer true d)
  end.
End request.

(** ** Questions *)

(** The suffix that is tried. *)
Definition current_search (d : dns_request) : dns_name :=
  if decide (dn_offset (d_search d) = dn_len (d_search d)) then search_root else d_search d.

Definition search_ok (n : dns_name) : Prop := (dn_len n <= length (dn_data n))%nat /\ bytes (dn_data n).

Lemma current_search_ok d : search_ok (d_search d) -> search_ok (current_search d).
Proof. intros H. unfold current_search. case_decide; [|done]. split; [done|]. by repeat constructor. Qed.

Lemma search_root_encodes : name_encodes search_root [].
Proof. apply (encodes_root _ _ _ 0); [|done]. apply label_here; [by apply Nat.ltb_lt|done|by apply Nat.leb_le]. Qed.

Lemma root_only ls : name_encodes search_root ls -> ls = [].
Proof. intros H. by eapply encodes_fun; [exact H|apply search_root_encodes]. Qed.

(** A question is the name up to the offset of the suffix, with the suffix. *)
Lemma dns_question_ok d d' H W R :
  d_buf d = H ++ W ++ R -> length H = NAME_OFFSET -> d_offset d = (NAME_OFFSET + length W)%nat -> length (d_buf d) = BUF_LEN ->
  search_ok (d_search d) -> dns_question d = (Ok tt, d') ->
  exists sl R', name_encodes (current_search d) sl /\ Forall label_fits sl /\
    let q := (NAME_OFFSET + length (W ++ wire sl))%nat in
    (q <= NAME_LIMIT)%nat /\
    d' = with_buf ((be16 0 ++ drop 2 H) ++ (W ++ wire sl) ++ be16 (d_qtype d) ++ be16 DNS_CLASS_IN ++ R')
           (with_name_offset NAME_OFFSET (with_question q (q + 4) d)) /\ length R' = (BUF_LEN - q - 4)%nat.
Proof.
  intros Hbuf HH Ho Hlen Hs. unfold dns_question. fold (current_search d).
  destruct (dns_copy _ _) as [[len name]|e] eqn:Hc; [|done].
  pose proof (current_search_ok d Hs) as [Hs1 Hs2]. apply dns_copy_inv in Hc as (sl & He & Hf & -> & ->); [|done|done|].
  2:{ cbn [d_name dn_len dn_data with_name_offset d_buf]. rewrite Hlen. unfold NAME_LIMIT, BUF_LEN. lia. }
  cbn [d_name dn_len dn_data dn_offset with_name_offset with_buf with_question d_buf d_name_offset d_qtype]. rewrite Ho.
  destruct (decide (NAME_LIMIT < NAME_OFFSET + length W + length (wire sl))%nat) as [|Hfit]; [done|].
  intros Hq. apply (f_equal snd) in Hq. cbn [snd] in Hq. subst d'. rewrite take_ge by lia. rewrite Hbuf, (app_assoc H).
  assert (NAME_OFFSET + length W = length (H ++ W))%nat as HHW by (rewrite length_app; lia). rewrite HHW, splice_middle.
  rewrite (app_assoc (H ++ W)), <- (length_app (H ++ W)), splice_middle.
  set (R' := drop _ (drop (length (wire sl)) R)).
  assert (exists a b H', H = a :: b :: H') as (a & b & H' & ->).
  { destruct H as [|a [|b H']]; [simpl in HH; unfold NAME_OFFSET in HH; lia..|]. by exists a, b, H'. }
  exists sl, R'. split_and!; [done|done|rewrite length_app; lia| |].
  - assert (forall B1 B2 B3 o n q l, with_buf B3 (with_name_offset n (with_buf B2 (with_question q l (with_buf B1 (with_name_offset o d))))) =
      with_buf B3 (with_name_offset n (with_question q l d))) as -> by done.
    assert (length (((a :: b :: H') ++ W) ++ wire sl) = NAME_OFFSET + length (W ++ wire sl))%nat as -> by (rewrite !(length_app _ (wire sl)); lia).
    f_equal. unfold splice. cbn [be16 app length take drop Nat.add]. rewrite !drop_0. by rewrite <- !app_assoc.
  - unfold R'. rewrite !length_drop. rewrite Hbuf, !length_app in Hlen. rewrite length_app. unfold BUF_LEN in *. rewrite !length_app. cbn [length be16]. lia.
Qed.

(** ** The query of a request *)

Definition query_header (id : Z) : list Z := be16 id ++ be16 DNS_FLAG_RD ++ be16 1 ++ replicate 6 0.
Definition query (id : Z) (ls : list (list Z)) (t : Z) : list Z := query_header id ++ wire ls ++ be16 t ++ be16 DNS_CLASS_IN.

Definition known_type (t : Z) : Prop := t = DNS_TYPE_A \/ t = DNS_TYPE_AAAA \/ t = DNS_TYPE_CNAME.

(** The buffer holds a query for the labels [ls], of which those after [ls0]
    are the suffix from the search list. *)
Record request_ok (d : dns_request) (ls0 ls : list (list Z)) (t : Z) : Prop := RequestOk {
  ro_buf : exists id R, d_buf d = query id ls t ++ R /\ length (d_buf d) = BUF_LEN;
  ro_fits : Forall label_fits ls;
  ro_len : d_len d = length (query 0 ls t) /\ (length (query 0 ls t) <= BUF_LEN)%nat;
  ro_question : d_question d = (NAME_OFFSET + length (wire ls))%nat;
  ro_name : d_name_offset d = NAME_OFFSET;
  ro_prefix : exists sl, ls = ls0 ++ sl;
  ro_offset : d_offset d = (NAME_OFFSET + length (wire_labels ls0))%nat;
  ro_search : search_ok (d_search d);
  ro_qtype : (d_qtype d = DNS_TYPE_A \/ d_qtype d = DNS_TYPE_AAAA) /\ known_type t;
}.

Lemma length_be16 v : length (be16 v) = 2%nat.
Proof. done. Qed.

Lemma query_header_length id : length (query_header id) = NAME_OFFSET.
Proof. done. Qed.

Lemma query_length id ls t : length (query id ls t) = (NAME_OFFSET + length (wire ls) + 4)%nat.
Proof. unfold query. rewrite !length_app, query_header_length. simpl. lia. Qed.

Lemma known_type_width t : known_type t -> in_width 16 t.
Proof. intros [->|[->| ->]]; done. Qed.

Lemma get16_app l l' i : get16 (l ++ l') (length l + i) = get16 l' i.
Proof. unfold get16. by rewrite <- Nat.add_assoc, !(app_nth2_plus l l') || (unfold get8; rewrite <- Nat.add_assoc, !app_nth2_plus). Qed.

Lemma get16_be16 v l : in_width 16 v -> get16 (be16 v ++ l) 0 = v.
Proof. intros Hv. unfold get16, get8. cbn [be16 app nth Nat.add]. by apply be16_value. Qed.

Lemma request_encodes d ls0 ls t : request_ok d ls0 ls t -> name_encodes (d_name d) ls.
Proof.
  intros [(id & R & Hb & _) Hf [_ Hl] _ Hn _ _ _ _]. unfold name_encodes, d_name. cbn [dn_data dn_len dn_offset]. rewrite Hb, Hn.
  unfold query. rewrite <- !app_assoc. rewrite <- (query_header_length id). apply encodes_wire; [done|].
  rewrite query_length in Hl. rewrite query_header_length. unfold NAME_LIMIT, BUF_LEN, NAME_OFFSET in *. lia.
Qed.

Lemma request_qtype d ls0 ls t : request_ok d ls0 ls t -> question_qtype d = t.
Proof.
  intros [(id & R & Hb & _) _ _ Hq _ _ _ _ [_ Ht]]. unfold question_qtype. rewrite Hb, Hq. unfold query. rewrite <- !app_assoc.
  rewrite (app_assoc (query_header id)). replace (NAME_OFFSET + length (wire ls))%nat with (length (query_header id ++ wire ls) + 0)%nat
    by (rewrite length_app, query_header_length; lia).
  rewrite get16_app. apply get16_be16. by apply known_type_width.
Qed.

(** What is sent parses as a query. *)
Definition is_query (p : list Z) : Prop := exists id ls t, p = query id ls t /\ Forall label_fits ls /\ known_type t /\ (length p <= BUF_LEN)%nat.

Lemma is_query_parses id ls t :
  Forall label_fits ls -> known_type t ->
  let p := query id ls t in
  encodes p (length p) NAME_OFFSET ls /\
  exists q, dns_skip (DnsName p NAME_OFFSET (length p)) = Ok q /\ length p = (q + 4)%nat /\ get16 p q = t /\ get16 p (q + 2) = DNS_CLASS_IN.
Proof.
  intros Hf Ht p. pose proof (query_length id ls t) as Hl. fold p in Hl.
  assert (p = query_header id ++ wire ls ++ be16 t ++ be16 DNS_CLASS_IN) as Hp by done.
  assert (encodes p (length p) NAME_OFFSET ls) as He.
  { rewrite Hp at 1. rewrite <- (query_header_length id). apply encodes_wire; [done|]. rewrite Hl, query_header_length. lia. }
  split; [done|]. exists (NAME_OFFSET + length (wire ls))%nat. split_and!.
  - unfold dns_skip. cbn [dn_len dn_offset]. rewrite <- (query_header_length id).
    apply (skip_loop_wire _ _ (be16 t ++ be16 DNS_CLASS_IN)); [done|rewrite Hl, query_header_length; lia|by eapply encodes_bound|done].
  - rewrite Hl. lia.
  - rewrite Hp, (app_assoc (query_header id)). rewrite <- (query_header_length id), <- length_app, <- (Nat.add_0_r (length _)), get16_app.
    apply get16_be16. by apply known_type_width.
  - rewrite Hp, (app_assoc (query_header id)). rewrite <- (query_header_length id), <- length_app, get16_app.
    change 2%nat with (length (be16 t) + 0)%nat. rewrite get16_app. done.
Qed.

(** ** Termination

    Each record moves the position forward, and each CNAME record uses up one
    of the allowed recursions. *)

Lemma dns_question_recursion d r d' : dns_question d = (r, d') -> d_recursion d' = d_recursion d.
Proof.
  unfold dns_question. destruct (dns_copy _ _) as [[len name]|e]; [|intros Hq; apply (f_equal snd) in Hq; cbn [snd] in Hq; by subst d'].
  case_decide; intros Hq; apply (f_equal snd) in Hq; cbn [snd] in Hq; by subst d'.
Qed.

Lemma answers_total fuel response ao pos d :
  ((33 - d_recursion d) * (length response + 2) + (length response + 1 - pos) < fuel)%nat -> is_Some (answers fuel response ao pos d).
Proof.
  revert pos d. induction fuel as [|fuel IH]; intros pos d Hf; [by apply Nat.nlt_0_r in Hf|]. cbn [answers].
  destruct (decide (pos = length response)); [done|]. destruct (dns_skip _) as [off|e] eqn:Hs; [|done].
  apply skip_loop_bounds in Hs. cbn [dn_len dn_offset] in Hs. cbv zeta. do 2 (case_decide; [done|]).
  set (next := (off + 10 + _)%nat) in *. assert (is_Some (answers fuel response ao next d)) as Hnext by (apply IH; nia).
  case_decide; [done|].
  destruct (decide (_ = DNS_TYPE_AAAA)); [case_decide; done|]. destruct (decide (_ = DNS_TYPE_A)); [case_decide; done|].
  destruct (decide (_ = DNS_TYPE_CNAME)); [|done]. case_decide as Hrec; [done|]. unfold DNS_MAX_CNAME_RECURSION in Hrec. cbn [d_recursion with_recursion] in Hrec.
  destruct (dns_copy _ _) as [[len name]|]; [|done]. destruct (dns_question _) as [[?|?] d'] eqn:Hq; [|done]. apply IH.
  rewrite (dns_question_recursion _ _ _ Hq). cbn [d_recursion with_recursion with_buf with_search]. nia.
Qed.

Definition deliver_fuel (response : list Z) : nat := (34 * (length response + 2))%nat.

(** A response is processed to the end, whatever it contains: malformed
    names, pointers and CNAME records that refer to each other do not keep
    the code in a loop. *)
Theorem dns_deliver_terminates dns4 dns6 random response d :
  is_Some (dns_xfer_deliver dns4 dns6 random (deliver_fuel response) response d).
Proof.
  unfold dns_xfer_deliver. repeat (case_decide; [done|]). destruct (dns_skip _) as [off|e]; [|done].
  destruct (answers_total (deliver_fuel response) response (off + 4) (off + 4) d) as [[rc d'|d'] ->]; [unfold deliver_fuel; nia|done|done].
Qed.

(** ** The operations keep the query well-formed *)

(** What a request does not change when it prepares a question. *)
Record same_io (d d' : dns_request) : Prop := SameIo {
  si_qtype : d_qtype d' = d_qtype d;
  si_timer : d_timer d' = d_timer d;
  si_index : d_index d' = d_index d;
  si_sent : d_sent d' = d_sent d;
  si_resolved : d_resolved d' = d_resolved d;
  si_done : d_done d' = d_done d;
}.

Lemma same_io_trans d d' d'' : same_io d d' -> same_io d' d'' -> same_io d d''.
Proof. intros [] []. constructor; congruence. Qed.

Definition address_type (t : Z) : Prop := t = DNS_TYPE_A \/ t = DNS_TYPE_AAAA.

Lemma question_request d d' id ls0 R :
  dns_question d = (Ok tt, d') ->
  d_buf d = query_header id ++ wire_labels ls0 ++ R -> length (d_buf d) = BUF_LEN -> d_offset d = (NAME_OFFSET + length (wire_labels ls0))%nat ->
  Forall label_fits ls0 -> search_ok (d_search d) -> address_type (d_qtype d) ->
  exists sl, name_encodes (current_search d) sl /\ request_ok d' ls0 (ls0 ++ sl) (d_qtype d) /\ d_search d' = d_search d /\ same_io d d'.
Proof.
  intros Hq Hb Hl Ho Hf Hs Ht. destruct (dns_question_ok d d' (query_header id) (wire_labels ls0) R Hb (query_header_length id) Ho Hl Hs Hq)
    as (sl & R' & He & Hfs & Hlim & -> & HR'). clear Hq. exists sl. split; [done|]. rewrite <- wire_app in *. split; [|split; [done|by constructor]].
  assert (NAME_OFFSET + length (wire (ls0 ++ sl)) + 4 <= BUF_LEN)%nat as Hle by (unfold NAME_LIMIT, BUF_LEN in *; lia).
  constructor; cbn [d_buf d_len d_question d_name_offset d_offset d_search d_qtype with_buf with_name_offset with_question].
  - exists 0, R'. assert (be16 0 ++ drop 2 (query_header id) = query_header 0) as -> by done. unfold query. rewrite <- !app_assoc. split; [done|].
    rewrite !length_app, HR', query_header_length, !length_be16. lia.
  - by apply Forall_app.
  - rewrite query_length. done.
  - done.
  - done.
  - by exists sl.
  - done.
  - done.
  - split; [done|]. by destruct Ht as [->| ->]; [left|right; left].
Qed.

(** Sending the query. *)
Lemma send_request dns4 dns6 random d ls0 ls t r d' :
  request_ok d ls0 ls t -> dns_send_packet dns4 dns6 random d = (r, d') ->
  request_ok d' ls0 ls t /\ d_timer d' = true /\ d_resolved d' = d_resolved d /\ d_done d' = d_done d /\
  (d_sent d' = d_sent d \/ exists ns id, d_sent d' = d_sent d ++ [(ns, query id ls t)]).
Proof.
  intros Hok. unfold dns_send_packet. case_decide; intros Hq; apply (f_equal snd) in Hq; cbn [snd] in Hq; subst d'.
  { destruct Hok. split; [by constructor|]. split_and!; [done..|]. by left. }
  set (d1 := with_timer true d). assert (request_ok d1 ls0 ls t) as Hok1 by (destruct Hok; by constructor).
  set (d2 := if decide _ then _ else d1). assert (request_ok d2 ls0 ls t /\ d_timer d2 = true /\ d_resolved d2 = d_resolved d /\ d_done d2 = d_done d /\ d_sent d2 = d_sent d) as
    (Hok2 & Ht & Hr & Hd & Hsent).
  { unfold d2. case_decide; [|done]. split; [|done]. destruct Hok1 as [(id & R & Hb & Hl)]. constructor; try done.
    cbn [d_buf with_buf]. rewrite Hb. exists (random (length (d_sent d1))), R. split; [done|]. rewrite <- Hl, Hb. done. }
  clearbody d2. destruct Hok2 as [(id & R & Hb & Hl) ? [Hlen ?]]. split; [constructor; by eauto|]. split_and!; [done..|].
  right. eexists _, id. cbn [d_sent with_sent]. rewrite Hsent, Hb, Hlen. do 3 f_equal. rewrite query_length, <- (query_length id ls t). by rewrite take_app_length.
Qed.

Lemma set_qtype_request d ls0 ls t t' : request_ok d ls0 ls t -> known_type t' -> request_ok (set_qtype t' d) ls0 ls t'.
Proof.
  intros [(id & R & Hb & Hl) Hf [Hlen Hle] Hq Hn Hp Ho Hs [Ht _]] Ht'. rewrite query_length in *.
  assert (splice (d_buf d) (d_question d) (be16 t') = query id ls t' ++ R) as Hb'.
  { rewrite Hb, Hq. unfold query. rewrite <- !app_assoc, (app_assoc (query_header id)), <- (query_header_length id), <- length_app, splice_middle.
    rewrite <- app_assoc. done. }
  constructor; unfold set_qtype; cbn [d_buf d_len d_question d_name_offset d_offset d_search d_qtype with_buf]; try rewrite query_length; try done.
  exists id, R. split; [done|]. rewrite Hb'. rewrite Hb in Hl. rewrite <- Hl, !length_app, !query_length. done.
Qed.

Lemma dns_question_limit d d' :
  dns_question d = (Ok tt, d') -> search_ok (d_search d) -> length (d_buf d) = BUF_LEN -> (d_offset d < NAME_LIMIT)%nat.
Proof.
  intros Hq Hs Hlen. revert Hq. unfold dns_question. fold (current_search d). destruct (dns_copy _ _) as [[len name]|e] eqn:Hc; [|done].
  apply current_search_ok in Hs as [Hs1 Hs2]. apply dns_copy_inv in Hc as (sl & _ & _ & -> & ->); [|done|done|].
  2:{ cbn [d_name dn_len dn_data with_name_offset d_buf]. rewrite Hlen. unfold NAME_LIMIT, BUF_LEN. lia. }
  cbn [d_name_offset with_name_offset with_buf]. destruct (decide _) as [|Hle]; [done|]. intros _. rewrite wire_root, length_app in Hle. simpl in Hle. lia.
Qed.

(** A query for the target of a CNAME record. *)
Lemma cname_request d ls0 ls t response o len name d' r :
  request_ok d ls0 ls t -> bytes response -> dns_copy (DnsName response o (length response)) (d_name d) = Ok (len, name) ->
  let exhausted := DnsName (dn_data (d_search d)) (dn_len (d_search d)) (dn_len (d_search d)) in
  dns_question (with_buf (dn_data name) (with_search exhausted (NAME_OFFSET + len - 1) (with_recursion r d))) = (Ok tt, d') ->
  exists ls', encodes response (length response) o ls' /\ request_ok d' ls' ls' (d_qtype d) /\
    dn_offset (d_search d') = dn_len (d_search d') /\ same_io d d'.
Proof.
  intros [(id & R & Hb & Hl) Hf [Hlen Hle] Hq Hn Hp Ho Hs [Ht _]] Hby Hc exhausted Hquest.
  assert (search_ok exhausted) as Hse by (destruct Hs; by split).
  apply dns_copy_inv in Hc as (ls' & He & Hfs & -> & ->); [|done|done|cbn [d_name dn_len dn_data]; rewrite Hl; unfold NAME_LIMIT, BUF_LEN; lia].
  cbn [d_name dn_data dn_offset dn_len] in Hquest. rewrite Hn in Hquest. unfold query in Hb. rewrite <- app_assoc in Hb.
  set (R1 := (_ ++ R)) in Hb. clearbody R1. rewrite Hb, <- (query_header_length id), splice_middle, query_header_length in Hquest. rewrite Hb in Hl.
  set (W := take _ (wire ls')) in Hquest. assert (length W <= length R1)%nat as HW.
  { unfold W. rewrite length_take. rewrite length_app, query_header_length in Hl. unfold NAME_LIMIT, BUF_LEN in *. lia. }
  assert (length (query_header id ++ W ++ drop (length W) R1) = BUF_LEN) as HlW.
  { rewrite <- Hl, !(length_app (query_header id)), length_app, length_drop. clear -HW. lia. }
  pose proof (dns_question_limit _ _ Hquest Hse HlW) as Hlim. cbn [d_offset with_buf with_search] in Hlim.
  assert (W = wire_labels ls' ++ [0]) as HWe by (unfold W; rewrite take_ge by lia; done).
  clearbody W. subst W. rewrite <- (app_assoc (wire_labels ls')) in Hquest.
  eapply question_request in Hquest as (sl & Hsl & Hok & Hsearch & Hio); [|cbn [d_buf with_buf]; reflexivity| | |done|done|done].
  2:{ cbn [d_buf with_buf]. rewrite (app_assoc (wire_labels ls')). done. }
  2:{ cbn [d_offset with_buf with_search]. rewrite wire_root, length_app. cbn [length]. lia. }
  assert (sl = []) as ->.
  { apply root_only. unfold current_search in Hsl. cbn [d_search with_buf with_search dn_offset dn_len exhausted] in Hsl. by rewrite decide_True in Hsl. }
  rewrite app_nil_r in Hok. exists ls'. split; [done|]. split; [done|]. split; [by rewrite Hsearch|]. by destruct Hio; constructor.
Qed.

(** ** Answers *)

Section records.
Context (response : list Z) (answer_offset : nat).

(** The record at an offset: the name of its owner ends at [offset], where
    its type, class, time to live and the length of its data follow, and then
    the data, inside the message. *)
Definition record_at (pos : nat) (type : Z) (data rdlength : nat) : Prop :=
  exists offset, name_ends response (length response) pos offset /\
    type = get16 response offset /\ rdlength = Z.to_nat (get16 response (offset + 8)) /\
    data = (offset + 10)%nat /\ (data + rdlength <= length response)%nat.

(** The same with the functions of the code. *)
Definition read_record (pos : nat) : option (Z * nat * nat) :=
  match dns_skip (DnsName response pos (length response)) with
  | Err _ => None
  | Ok offset =>
    let rdlength := Z.to_nat (get16 response (offset + 8)) in
    if decide (offset + 10 + rdlength <= length response)%nat then Some (get16 response offset, (offset + 10)%nat, rdlength) else None
  end.

Lemma record_at_read pos type data rdlength : record_at pos type data rdlength <-> read_record pos = Some (type, data, rdlength).
Proof.
  unfold record_at, read_record. split.
  - intros (offset & He%dns_skip_ends & -> & -> & -> & Hle). rewrite He. by rewrite decide_True.
  - destruct (dns_skip _) as [offset|] eqn:Hs; [|done]. apply dns_skip_ends in Hs. cbv zeta. case_decide; [|done].
    intros [= <- <- <-]. by exists offset.
Qed.

(** The offsets of the records, in sequence. *)
Inductive record_offset : nat -> Prop :=
  | record_first : record_offset answer_offset
  | record_next pos type data rdlength :
      record_offset pos -> record_at pos type data rdlength -> record_offset (data + rdlength).

(** A record for the name with labels [ls], up to case. *)
Definition record_for (ls : list (list Z)) (type : Z) (data rdlength : nat) : Prop :=
  exists pos owner, record_offset pos /\ record_at pos type data rdlength /\
    encodes response (length response) pos owner /\ Forall2 same_label owner ls.

(** A name that CNAME records lead to. *)
Inductive cname_chain : list (list Z) -> list (list Z) -> Prop :=
  | chain_refl ls : cname_chain ls ls
  | chain_cname ls ls1 ls2 data rdlength :
      record_for ls DNS_TYPE_CNAME data rdlength -> encodes response (length response) data ls1 ->
      cname_chain ls1 ls2 -> cname_chain ls ls2.

Inductive address_for (ls : list (list Z)) : dns_addr -> Prop :=
  | address_a data rdlength :
      record_for ls DNS_TYPE_A data rdlength -> (4 <= rdlength)%nat -> address_for ls (In4 (take 4 (drop data response)))
  | address_aaaa data rdlength :
      record_for ls DNS_TYPE_AAAA data rdlength -> (16 <= rdlength)%nat -> address_for ls (In6 (take 16 (drop data response))).

(** An unfinished request that was not changed by the answers, except for its query. *)
Definition asked (ls : list (list Z)) (d d' : dns_request) : Prop :=
  same_io d d' /\ exists ls0 ls' t, request_ok d' ls0 ls' t /\ cname_chain ls ls' /\ address_type (d_qtype d').

(** A request that was closed, and what was reported if it was resolved. *)
Definition closed (ls : list (list Z)) (rc : result unit) (d d' : dns_request) : Prop :=
  d_done d' = Some rc /\ d_timer d' = false /\ d_sent d' = d_sent d /\
  match rc with
  | Ok _ => exists ls' a, cname_chain ls ls' /\ address_for ls' a /\ d_resolved d' = d_resolved d ++ [a]
  | Err _ => d_resolved d' = d_resolved d
  end.
End records.

Lemma asked_cname response ao ls ls1 data rdlength d d1 d' :
  record_for response ao ls DNS_TYPE_CNAME data rdlength -> encodes response (length response) data ls1 -> same_io d d1 ->
  asked response ao ls1 d1 d' -> asked response ao ls d d'.
Proof.
  intros Hr He Hio (Hio' & ls0 & ls' & t & Hok & Hc & Ht). split; [by eapply same_io_trans|]. exists ls0, ls', t. split_and!; [done| |done]. by eapply chain_cname.
Qed.

Lemma closed_cname response ao ls ls1 data rdlength rc d d1 d' :
  record_for response ao ls DNS_TYPE_CNAME data rdlength -> encodes response (length response) data ls1 -> same_io d d1 ->
  closed response ao ls1 rc d1 d' -> closed response ao ls rc d d'.
Proof.
  intros Hr He [_ _ _ Hs Hres _] (Hd & Ht & Hs' & Hrc). split; [done|]. split; [done|]. split; [congruence|]. rewrite <- Hres. destruct rc as [u|e]; [|done].
  destruct Hrc as (ls' & a & Hc & Ha & Hrr). exists ls', a. split_and!; [|done|done]. by eapply chain_cname.
Qed.

Lemma dns_done_closed response ao ls e d d' :
  d_done d = None -> d_sent d' = d_sent d -> d_resolved d' = d_resolved d -> d_done d' = d_done d ->
  closed response ao ls (Err e) d (dns_done (Err e) d').
Proof. intros Hn Hs Hr Hd. split; [by unfold dns_done, with_timer; cbn [d_done]; rewrite Hd, Hn|done]. Qed.

Lemma dns_resolved_closed response ao ls a d :
  d_done d = None -> address_for response ao ls a -> closed response ao ls (Ok tt) d (dns_resolved a d).
Proof.
  intros Hn Ha. split; [by unfold dns_resolved, dns_done, with_timer; cbn [d_done]; rewrite Hn|]. split; [done|]. split; [done|]. exists ls, a. split; [constructor|done].
Qed.

Lemma dns_question_io d r d' : dns_question d = (r, d') -> same_io d d'.
Proof.
  unfold dns_question. destruct (dns_copy _ _) as [[len name]|e]; [case_decide|]; intros Hq; apply (f_equal snd) in Hq; cbn [snd] in Hq; subst d'; by constructor.
Qed.

Lemma answers_spec fuel response ao pos d ls0 ls t r :
  bytes response -> request_ok d ls0 ls t -> d_done d = None -> record_offset response ao pos -> answers fuel response ao pos d = Some r ->
  match r with
  | Exhausted d' => asked response ao ls d d'
  | Answered rc d' => (rc <> Ok tt /\ asked response ao ls d d') \/ closed response ao ls rc d d'
  end.
Proof.
  intros Hby. revert pos d ls0 ls t. induction fuel as [|fuel IH]; intros pos d ls0 ls t Hok Hnd Hpos; [done|].
  assert (asked response ao ls d d) as Hsame.
  { split; [by constructor|]. exists ls0, ls, t. split_and!; [done|constructor|]. apply Hok. }
  cbn [answers]. destruct (decide (pos = length response)); [by intros [= <-]|]. destruct (dns_skip _) as [off|] eqn:Hs; [|intros [= <-]; by left].
  cbv zeta. destruct (decide (length response < off + 10)%nat); [intros [= <-]; by left|].
  set (rdlength := Z.to_nat _). destruct (decide (length response < off + 10 + rdlength)%nat) as [|Hfit]; [intros [= <-]; by left|].
  assert (record_at response pos (get16 response off) (off + 10) rdlength) as Hrec.
  { apply record_at_read. unfold read_record. rewrite Hs. cbv zeta. fold rdlength. by rewrite decide_True by lia. }
  pose proof (record_next _ _ _ _ _ _ Hpos Hrec) as Hnext. destruct (decide (dns_compare _ _ <> Ok tt)) as [|Hcmp%dec_stable]; [by eapply IH|].
  assert (record_for response ao ls (get16 response off) (off + 10) rdlength) as Hfor.
  { apply dns_compare_valid in Hcmp as (owner & ls' & Ho & Hn & HF); [|done|].
    - pose proof (encodes_fun _ _ _ _ _ Hn (request_encodes _ _ _ _ Hok)) as ->. by exists pos, owner.
    - destruct Hok as [(id & R & _ & Hl)]. cbn [d_name dn_len dn_data]. rewrite Hl. unfold NAME_LIMIT, BUF_LEN. lia. }
  destruct (decide (_ = DNS_TYPE_AAAA)) as [Ht|_].
  { rewrite Ht in Hfor. case_decide; intros [= <-]; [by left|right]. apply dns_resolved_closed; [done|]. eapply address_aaaa; [done|lia]. }
  destruct (decide (_ = DNS_TYPE_A)) as [Ht|_].
  { rewrite Ht in Hfor. case_decide; intros [= <-]; [by left|right]. apply dns_resolved_closed; [done|]. eapply address_a; [done|lia]. }
  destruct (decide (_ = DNS_TYPE_CNAME)) as [Ht|_]; [|by eapply IH]. rewrite Ht in Hfor. case_decide; [intros [= <-]; right; by apply dns_done_closed|].
  destruct (dns_copy _ _) as [[len name]|e] eqn:Hc; [|intros [= <-]; right; by apply dns_done_closed].
  destruct (dns_question _) as [[[]|e] d1] eqn:Hq.
  - destruct (cname_request _ _ _ _ _ _ _ _ _ _ Hok Hby Hc Hq) as (ls1 & He & Hok1 & _ & Hio). intros Ha. eapply IH in Ha; [|done|by rewrite (si_done _ _ Hio)|constructor].
    destruct r as [rc d'|d']; [destruct Ha as [[? ?]|?]; [left|right]|]; [split; [done|]| |]; eauto using asked_cname, closed_cname.
  - intros [= <-]. right. destruct (dns_question_io _ _ _ Hq) as [_ _ _ ? ? ?]. by apply dns_done_closed.
Qed.

(** An unfinished request after it sent its query, or one that failed. *)
Definition continued (d d' : dns_request) : Prop :=
  d_resolved d' = d_resolved d /\
  ((d_done d' = None /\ d_timer d' = true /\ exists ls0 ls t, request_ok d' ls0 ls t /\
      (d_sent d' = d_sent d \/ exists ns id, d_sent d' = d_sent d ++ [(ns, query id ls t)])) \/
   (exists e, d_done d' = Some (Err e)) /\ d_timer d' = false /\ d_sent d' = d_sent d).

Section servers.
Context (dns4 dns6 : list (list Z)) (random : nat -> Z).

Lemma send_continued d d1 ls0 ls t :
  request_ok d1 ls0 ls t -> d_done d1 = None -> d_resolved d1 = d_resolved d -> d_sent d1 = d_sent d ->
  continued d (dns_send_packet dns4 dns6 random d1).2.
Proof.
  intros Hok Hn Hr Hs. destruct (dns_send_packet _ _ _ d1) as [r d'] eqn:Hsend. cbn [snd].
  destruct (send_request _ _ _ _ _ _ _ _ _ Hok Hsend) as (Hok' & Ht & Hr' & Hd & Hs'). split; [congruence|]. left. split_and!; [congruence|done|].
  exists ls0, ls, t. split; [done|]. by rewrite <- Hs.
Qed.

Lemma done_continued d d1 e : d_done d1 = None -> d_resolved d1 = d_resolved d -> d_sent d1 = d_sent d -> continued d (dns_done (Err e) d1).
Proof.
  intros Hn Hr Hs. split; [done|]. right. split; [|done]. exists e. unfold dns_done, with_timer. cbn [d_done]. by rewrite Hn.
Qed.

(** Every way of going on either sends a query and runs the timer, or ends the request. *)
Lemma next_query_continued qtype d ls0 ls t r d' :
  request_ok d ls0 ls t -> d_done d = None -> next_query dns4 dns6 random qtype d = (r, d') -> continued d d'.
Proof.
  intros Hok Hn. unfold next_query. set (d1 := with_timer false d). assert (request_ok d1 ls0 ls t) as Hok1 by (destruct Hok; by constructor).
  destruct (decide (qtype = DNS_TYPE_AAAA)).
  { intros Hq. apply (f_equal snd) in Hq. cbn [snd] in Hq. subst d'. eapply send_continued; [eapply set_qtype_request; [done|by left]|done..]. }
  destruct (decide (qtype = DNS_TYPE_A)).
  { intros Hq. apply (f_equal snd) in Hq. cbn [snd] in Hq. subst d'. eapply send_continued; [eapply set_qtype_request; [done|by right; right]|done..]. }
  destruct (decide (qtype = DNS_TYPE_CNAME)); [|intros [= _ <-]; by apply done_continued].
  destruct (decide (qtype = d_qtype d1)); [intros [= _ <-]; by eapply send_continued|].
  destruct (decide (dn_offset _ = _)); [intros [= _ <-]; by apply done_continued|].
  destruct (dns_skip_search _) as [o|]; [|intros [= _ <-]; by apply done_continued].
  destruct (dns_question _) as [[[]|] d2] eqn:Hq; intros Hx; apply (f_equal snd) in Hx; cbn [snd] in Hx; subst d'.
  - destruct Hok1 as [(id & R & Hb & Hl) Hf _ _ _ (sl & ->) Ho Hs [Ht _]]. unfold query in Hb. rewrite wire_app, <- !app_assoc in Hb.
    apply Forall_app in Hf as [Hf _].
    destruct (question_request _ _ id ls0 _ Hq Hb Hl Ho Hf) as (sl' & _ & Hok' & _ & Hio); [by destruct Hs|done|].
    destruct Hio as [_ _ _ ? ? Hd']. eapply send_continued; [exact Hok'|by rewrite Hd'|done|done].
  - destruct (dns_question_io _ _ _ Hq) as [_ _ _ ? ? Hd']. apply done_continued; [by rewrite Hd'|done|done].
Qed.

(** The answers of a response that belongs to the query. *)
Definition answers_at (response : list Z) (d : dns_request) (ao : nat) : Prop :=
  (12 <= length response)%nat /\ get16 response 0 = query_id d /\ get16 response 4 = 1 /\
  exists offset, name_ends response (length response) 12 offset /\ ao = (offset + 4)%nat.

Lemma deliver_cases fuel response d rc d' ls0 ls t :
  bytes response -> request_ok d ls0 ls t -> d_done d = None -> dns_xfer_deliver dns4 dns6 random fuel response d = Some (rc, d') ->
  d' = d \/ exists ao, answers_at response d ao /\
    ((rc <> Ok tt /\ asked response ao ls d d') \/ closed response ao ls rc d d' \/ exists d1, asked response ao ls d d1 /\ continued d1 d').
Proof.
  intros Hby Hok Hn. unfold dns_xfer_deliver. destruct (decide (length response < 12)%nat) as [|Hlen]; [intros [= _ <-]; by left|].
  destruct (decide (_ <> query_id d)) as [|Hid%dec_stable]; [intros [= _ <-]; by left|].
  destruct (decide (_ <> 1)) as [|Hqd%dec_stable]; [intros [= _ <-]; by left|].
  destruct (dns_skip _) as [off|] eqn:Hs; [|intros [= _ <-]; by left].
  destruct (answers fuel response (off + 4) (off + 4) d) as [r|] eqn:Ha; [|done]. intros Hr. right. exists (off + 4)%nat.
  split; [unfold answers_at; split_and!; [lia|done|done|exists off; split; [by apply dns_skip_ends|done]]|]. eapply answers_spec in Ha; [|done|done|done|constructor].
  destruct r as [rc1 d1|d1].
  - injection Hr as -> ->. destruct Ha; auto.
  - right. right. exists d1. split; [done|]. destruct Ha as (Hio & ls1 & ls2 & t2 & Hok1 & _). injection Hr as Hr.
    eapply next_query_continued; [exact Hok1| |exact Hr]. by rewrite (si_done _ _ Hio).
Qed.

(** C31: an address that is reported is in a record of the response, for the
    name that the query asked about, or for a name that CNAME records of the
    response lead to from it; and the response had the identifier of the
    query. *)
Theorem dns_resolved_sound fuel response d rc d' ls0 ls t :
  bytes response -> request_ok d ls0 ls t -> d_done d = None -> dns_xfer_deliver dns4 dns6 random fuel response d = Some (rc, d') ->
  d_resolved d' <> d_resolved d ->
  exists ao ls' a, answers_at response d ao /\ cname_chain response ao ls ls' /\ address_for response ao ls' a /\
    d_resolved d' = d_resolved d ++ [a] /\ d_done d' = Some (Ok tt) /\ rc = Ok tt.
Proof.
  intros Hby Hok Hn Hd Hne. destruct (deliver_cases _ _ _ _ _ _ _ _ Hby Hok Hn Hd) as [->|(ao & Hao & [[_ [Hio _]]|[Hc|(d1 & [Hio _] & Hr & _)]])].
  - done.
  - by rewrite (si_resolved _ _ Hio) in Hne.
  - destruct Hc as (Hd' & _ & _ & Hrc). destruct rc as [[]|e]; [|done]. destruct Hrc as (ls' & a & ? & ? & ?). by exists ao, ls', a.
  - by rewrite Hr, (si_resolved _ _ Hio) in Hne.
Qed.

(** ** Completeness *)

(** The records from one offset on. *)
Inductive record_path (response : list Z) : nat -> nat -> Prop :=
  | path_here pos : record_path response pos pos
  | path_next pos type data rdlength pos' :
      record_at response pos type data rdlength -> record_path response (data + rdlength) pos' -> record_path response pos pos'.

Lemma record_path_snoc response pos pos' type data rdlength :
  record_path response pos pos' -> record_at response pos' type data rdlength -> record_path response pos (data + rdlength).
Proof. induction 1; intros Hr; [eapply path_next; [done|constructor]|eapply path_next; eauto]. Qed.

Lemma record_offset_path response ao pos : record_offset response ao pos -> record_path response ao pos.
Proof. induction 1; [constructor|by eapply record_path_snoc]. Qed.

Definition long_enough (type : Z) (rdlength : nat) : Prop :=
  (type = DNS_TYPE_A -> 4 <= rdlength)%nat /\ (type = DNS_TYPE_AAAA -> 16 <= rdlength)%nat.

Section complete.
Context (response : list Z) (ao : nat) (d : dns_request) (ls0 ls : list (list Z)) (t : Z).
Context (Hok : request_ok d ls0 ls t).
Context (Hnc : forall data rdlength, ~ record_for response ao ls DNS_TYPE_CNAME data rdlength).
Context (Hlong : forall type data rdlength, record_for response ao ls type data rdlength -> long_enough type rdlength).

Lemma compare_record pos :
  dns_compare (DnsName response pos (length response)) (d_name d) = Ok tt <->
  exists owner, encodes response (length response) pos owner /\ Forall2 same_label owner ls.
Proof.
  assert (dn_len (d_name d) <= length (dn_data (d_name d)))%nat as Hl.
  { destruct Hok as [(id & R & _ & Hl)]. cbn [d_name dn_len dn_data]. rewrite Hl. unfold NAME_LIMIT, BUF_LEN. lia. }
  pose proof (request_encodes _ _ _ _ Hok) as Hn. split.
  - intros (owner & ls' & Ho & Hn' & HF)%dns_compare_valid; [|done|done]. rewrite (encodes_fun _ _ _ _ _ Hn' Hn) in HF. by exists owner.
  - intros (owner & Ho & HF). by apply (dns_compare_same _ _ owner ls).
Qed.

Lemma record_at_bounds pos type data rdlength :
  record_at response pos type data rdlength -> (pos < data + rdlength <= length response)%nat.
Proof.
  intros (off & Hs%dns_skip_ends & _ & _ & -> & Hle). apply skip_loop_bounds in Hs. cbn [dn_offset dn_len] in Hs. lia.
Qed.

Lemma answers_record fuel pos type data rdlength :
  record_offset response ao pos -> record_at response pos type data rdlength ->
  (exists a, answers (S fuel) response ao pos d = Some (Answered (Ok tt) (dns_resolved a d))) \/
  (answers (S fuel) response ao pos d = answers fuel response ao (data + rdlength) d /\
   ((exists owner, encodes response (length response) pos owner /\ Forall2 same_label owner ls) -> ~ address_type type)).
Proof.
  intros Hpos Hr. pose proof (record_at_bounds _ _ _ _ Hr) as Hb. rewrite <- compare_record.
  assert (dns_compare (DnsName response pos (length response)) (d_name d) = Ok tt -> record_for response ao ls type data rdlength) as Hfor.
  { intros (owner & ? & ?)%compare_record. by exists pos, owner. }
  apply record_at_read in Hr. unfold read_record in Hr. cbn [answers]. rewrite decide_False by lia. destruct (dns_skip _) as [off|]; [|done]. cbv zeta in Hr |- *.
  case_decide as Hle; [|done]. injection Hr as <- <- <-. rewrite !(decide_False (P := (length response < _)%nat)) by lia.
  destruct (decide (dns_compare _ _ <> Ok tt)) as [|Hc%dec_stable]; [by right|]. specialize (Hfor Hc). destruct (Hlong _ _ _ Hfor) as [H4 H6].
  destruct (decide (_ = DNS_TYPE_AAAA)) as [Ht|Ht]; [left; specialize (H6 Ht); rewrite decide_False by lia; by eexists|].
  destruct (decide (_ = DNS_TYPE_A)) as [Ha|Ha]; [left; specialize (H4 Ha); rewrite decide_False by lia; by eexists|].
  destruct (decide (_ = DNS_TYPE_CNAME)) as [Hcn|_]; [rewrite Hcn in Hfor; by destruct (Hnc _ _ Hfor)|]. right. split; [done|]. by intros _ [?|?].
Qed.

Lemma answers_complete tpos fuel pos type data rdlength :
  record_at response tpos type data rdlength -> address_type type ->
  (exists owner, encodes response (length response) tpos owner /\ Forall2 same_label owner ls) ->
  record_path response pos tpos -> record_offset response ao pos -> (length response < pos + fuel)%nat ->
  exists a, answers fuel response ao pos d = Some (Answered (Ok tt) (dns_resolved a d)).
Proof.
  intros Htr Hty Hto Hpath. revert fuel. induction Hpath as [pos|pos type' data' rdlength' tpos Hr Hpath IH]; intros fuel Hpos Hf.
  - pose proof (record_at_bounds _ _ _ _ Htr) as Hb. destruct fuel as [|fuel]; [lia|]. destruct (answers_record fuel _ _ _ _ Hpos Htr) as [?|[_ Hn]]; [done|].
    by destruct (Hn Hto).
  - pose proof (record_at_bounds _ _ _ _ Hr) as Hb. destruct fuel as [|fuel]; [lia|]. destruct (answers_record fuel _ _ _ _ Hpos Hr) as [?|[-> _]]; [done|].
    apply IH; [done|done|by eapply record_next|lia].
Qed.
End complete.

(** A response to the query that has an address record for the queried
    name resolves the request, provided that it has no CNAME record for the
    name and that its address records have the length of addresses. *)
Theorem dns_resolved_complete response d ls0 ls t ao type data rdlength :
  request_ok d ls0 ls t -> d_done d = None -> answers_at response d ao ->
  record_for response ao ls type data rdlength -> address_type type ->
  (forall data rdlength, ~ record_for response ao ls DNS_TYPE_CNAME data rdlength) ->
  (forall type data rdlength, record_for response ao ls type data rdlength -> long_enough type rdlength) ->
  exists d' a, dns_xfer_deliver dns4 dns6 random (deliver_fuel response) response d = Some (Ok tt, d') /\
    d_resolved d' = d_resolved d ++ [a] /\ d_done d' = Some (Ok tt) /\ d_timer d' = false.
Proof.
  intros Hok Hn (Hlen & Hid & Hqd & off & Hs%dns_skip_ends & ->) (pos & owner & Hpos & Hr & Ho & HF) Hty Hnc Hlong.
  unfold dns_xfer_deliver. rewrite !decide_False by (lia || auto). rewrite Hs.
  destruct (answers_complete response (off + 4) d ls0 ls t Hok Hnc Hlong pos (deliver_fuel response) (off + 4) _ _ _ Hr Hty) as [a ->].
  - by exists owner.
  - by apply record_offset_path.
  - constructor.
  - unfold deliver_fuel. lia.
  - exists (dns_resolved a d), a. split_and!; [done|done| |done]. unfold dns_resolved, dns_done, with_timer. cbn [d_done]. by rewrite Hn.
Qed.
End servers.

(** ** Runs of a request *)

(** [Cancelled]: the client closes its interface, with an error; a close with
    status zero, which ends the request without an address, is left out. *)
Inductive dns_event :=
  | TimerExpired (fail : bool)
  | Delivered (response : list Z)
  | SocketClosed (rc : result unit)
  | Cancelled (e : errno).

Section runs.
Context (dns4 dns6 : list (list Z)) (random : nat -> Z).

(** The interfaces of a request that is done are closed, and its timer is stopped. *)
Definition dns_event_step (d : dns_request) (ev : dns_event) : dns_request :=
  match d_done d with
  | Some _ => d
  | None =>
    match ev with
    | TimerExpired fail => dns_timer_expired dns4 dns6 random fail d
    | Delivered response =>
      match dns_xfer_deliver dns4 dns6 random (deliver_fuel response) response d with
      | Some (_, d') => d'
      | None => d
      end
    | SocketClosed rc => dns_xfer_close rc d
    | Cancelled e => dns_done (Err e) d
    end
  end.

Definition event_ok (ev : dns_event) : Prop := match ev with Delivered response => bytes response | _ => True end.

(** What holds of a request at all times. *)
Record request_inv (d : dns_request) : Prop := RequestInv {
  ri_sent : Forall (fun p => is_query p.2) (d_sent d);
  ri_state :
    match d_done d with
    | None => d_timer d = true /\ d_resolved d = [] /\ exists ls0 ls t, request_ok d ls0 ls t
    | Some (Ok _) => d_timer d = false /\ exists a, d_resolved d = [a]
    | Some (Err _) => d_timer d = false /\ d_resolved d = []
    end;
}.

Lemma request_query d ls0 ls t id : request_ok d ls0 ls t -> is_query (query id ls t).
Proof.
  intros [_ Hf [_ Hl] _ _ _ _ _ [_ Ht]]. exists id, ls, t. split_and!; [done|done|done|]. rewrite query_length in *. done.
Qed.

Lemma continued_inv d d' :
  Forall (fun p => is_query p.2) (d_sent d) -> d_resolved d = [] -> continued d d' -> request_inv d'.
Proof.
  intros Hs Hr [Hr' [(Hd & Ht & ls0 & ls & t & Hok & Hsent)|([e Hd] & Ht & Hsent)]].
  - constructor; [|rewrite Hd; split_and!; [done|congruence|by exists ls0, ls, t]].
    destruct Hsent as [-> |(ns & id & ->)]; [done|]. apply Forall_app. split; [done|]. repeat constructor. by eapply request_query.
  - constructor; [by rewrite Hsent|]. rewrite Hd. split; [done|congruence].
Qed.

Lemma dns_event_inv d ev : event_ok ev -> request_inv d -> request_inv (dns_event_step d ev).
Proof.
  intros Hev Hinv. unfold dns_event_step. destruct (d_done d) as [rc|] eqn:Hd; [done|]. destruct Hinv as [Hs Hst]. rewrite Hd in Hst.
  destruct Hst as (Ht & Hr & ls0 & ls & t & Hok). destruct ev as [fail|response|rc|e].
  - unfold dns_timer_expired. destruct fail; [by eapply continued_inv, done_continued|]. eapply continued_inv; [exact Hs|exact Hr|].
    eapply (send_continued _ _ _ _ _ ls0 ls t); [|case_decide; done..]. case_decide; destruct Hok; by constructor.
  - destruct (dns_xfer_deliver _ _ _ _ _ _) as [[rc d']|] eqn:Hx; [|constructor; [done|]; rewrite Hd; eauto 8].
    destruct (deliver_cases _ _ _ _ _ _ _ _ _ _ _ Hev Hok Hd Hx) as [->|(ao & _ & [[_ [Hio Hok']]|[Hc|(d1 & [Hio _] & Hc)]])].
    + constructor; [done|]. rewrite Hd. eauto 8.
    + destruct Hio as [_ Ht' _ Hs' Hr' Hd']. constructor; [by rewrite Hs'|]. rewrite Hd', Hd, Ht', Hr'. destruct Hok' as (? & ? & ? & ? & _). eauto 8.
    + destruct Hc as (Hd' & Ht' & Hs' & Hrc). constructor; [by rewrite Hs'|]. rewrite Hd'. destruct rc as [[]|e]; (split; [done|]).
      * destruct Hrc as (_ & a & _ & _ & ->). rewrite Hr. by exists a.
      * by rewrite Hrc.
    + destruct Hio as [_ _ _ Hs' Hr' _]. eapply continued_inv; [|by rewrite Hr'|exact Hc]. by rewrite Hs'.
  - unfold dns_xfer_close. destruct rc; by eapply continued_inv, done_continued.
  - by eapply continued_inv, done_continued.
Qed.

(** A new request. *)
Lemma dns_resolv_ok search_list socket index name ls tail d :
  bytes search_list -> Forall label_ok ls -> tail = [] \/ tail = [46] -> (length (wire ls) <= DNS_MAX_NAME_LEN)%nat -> name = dotted ls ++ tail ->
  dns_resolv dns4 dns6 search_list socket false index name = Ok d ->
  exists sl, request_ok d ls (ls ++ sl) (d_qtype d) /\ d_sent d = [] /\ d_resolved d = [] /\ d_done d = None /\ d_timer d = true.
Proof.
  intros Hby Hls Htail Hlen -> Hd. unfold dns_resolv in Hd. case_decide; [done|]. cbv zeta in Hd.
  set (search := if decide _ then [] else search_list) in Hd. assert (bytes search) as Hbs by (unfold search; destruct (decide (46 ∈ _)); [constructor|done]).
  set (qtype := if decide _ then _ else _) in Hd. assert (address_type qtype) as Hqt by (unfold qtype; destruct (decide (length dns6 <> _)); [by right|by left]).
  assert (be16 0 ++ be16 DNS_FLAG_RD ++ be16 1 ++ replicate (BUF_LEN - 6) 0 = query_header 0 ++ replicate (BUF_LEN - NAME_OFFSET) 0) as HB by done.
  rewrite HB in Hd. rewrite dns_encode_wire in Hd; [|done|done| |]; cbn [dn_offset dn_len dn_data].
  2:{ unfold DNS_MAX_NAME_LEN, NAME_OFFSET, NAME_LIMIT in *. lia. }
  2:{ rewrite length_app, query_header_length, length_replicate. unfold NAME_OFFSET, NAME_LIMIT, BUF_LEN. lia. }
  cbn [result_bind dn_data dn_offset] in Hd. rewrite <- (query_header_length 0), splice_middle in Hd. rewrite query_header_length in Hd.
  destruct (dns_question _) as [[[]|e] d1] eqn:Hq; [|done].
  destruct (question_request _ d1 0 ls (0 :: drop (length (wire ls)) (replicate (BUF_LEN - NAME_OFFSET) 0)) Hq) as (sl & _ & Hok & _ & [Hio1 Hio2 Hio3 Hio4 Hio5 Hio6]);
    cbn [d_buf d_offset d_search d_qtype].
  - rewrite wire_root, <- app_assoc. done.
  - rewrite !length_app, length_drop, length_replicate, query_header_length. unfold DNS_MAX_NAME_LEN, BUF_LEN, NAME_OFFSET in *. lia.
  - rewrite wire_root, length_app. cbn [length]. lia.
  - by apply labels_fit.
  - done.
  - done.
  - destruct socket as [[]|]; [|done]. cbn [result_bind] in Hd. injection Hd as <-. exists sl. cbn [d_sent d_resolved d_done d_timer d_qtype with_timer].
    rewrite Hio1. destruct Hok. split; [by constructor|done].
Qed.

(** C30: the request for a valid name, whatever happens to it: each packet
    that it sent is a well-formed query of at most the size of the buffer;
    until it is done its timer runs, so that it does not hang; and it is done
    without an error exactly when one address was reported. *)
Theorem dns_request_invariant search_list socket index name ls tail d events :
  bytes search_list -> Forall label_ok ls -> tail = [] \/ tail = [46] -> (length (wire ls) <= DNS_MAX_NAME_LEN)%nat -> name = dotted ls ++ tail ->
  dns_resolv dns4 dns6 search_list socket false index name = Ok d -> Forall event_ok events ->
  request_inv (foldl dns_event_step d events).
Proof.
  intros Hs Hls Htail Hlen Hname Hd Hev. apply (dns_resolv_ok _ _ _ _ _ _ _ Hs Hls Htail Hlen Hname) in Hd as (sl & Hok & Hsent & Hr & Hdone & Ht).
  assert (request_inv d) as Hinv by (constructor; [by rewrite Hsent|]; rewrite Hdone; eauto 8). clear -Hinv Hev.
  revert d Hinv. induction Hev as [|ev events He _ IH]; intros d Hinv; [done|]. cbn [foldl]. by apply IH, dns_event_inv.
Qed.
End runs.

(** ** Examples *)

Module Sample.
Definition dns4 : list (list Z) := [[10; 0; 0; 1]].
Definition random (n : nat) : Z := 4660.

(** A request for the name "a", and the query that it sent. *)
Definition request : dns_request :=
  match dns_resolv dns4 [] [] (Ok tt) false 0 [97] with Ok d => d | Err _ => Dns None 0 [] 0 0 0 0 search_root 0 false 0 [] [] None end.
Definition run (events : list dns_event) : dns_request := foldl (dns_event_step dns4 [] random) request events.
Definition asked_a : dns_request := run [TimerExpired false].

Definition header (ancount : Z) : list Z := [18; 52; 129; 128; 0; 1; 0; ancount; 0; 0; 0; 0; 1; 97; 0; 0; 1; 0; 1].
Definition record (type : Z) (data : list Z) : list Z := [192; 12; 0; type; 0; 1; 0; 0; 0; 60; 0; Z.of_nat (length data)] ++ data.
Definition no_answer : list Z := header 0.
Definition a_answer : list Z := header 1 ++ record 1 [10; 0; 0; 7].
Definition cname_answer : list Z := header 1 ++ record 5 [1; 98; 0].

Lemma request_resolv : dns_resolv dns4 [] [] (Ok tt) false 0 [97] = Ok request.
Proof. vm_compute. reflexivity. Qed.

Lemma label_a : Forall label_ok [[97]].
Proof. repeat constructor; by vm_compute. Qed.

Lemma asked_a_ok : exists ls0 t, request_ok asked_a ls0 [[97]] t.
Proof.
  destruct (dns_resolv_ok dns4 [] [] (Ok tt) 0 [97] [[97]] [] request) as (sl & Hok & _); [constructor|apply label_a|by left|by apply Nat.leb_le|done|apply request_resolv|].
  assert (sl = []) as ->.
  { pose proof (request_encodes _ _ _ _ Hok) as He. assert (name_encodes (d_name request) [[97]]) as He'.
    { apply (encodes_next _ _ _ 12 0); [|by vm_compute|by vm_compute|].
      - apply label_here; [apply Nat.ltb_lt|..|apply Nat.leb_le]; by vm_compute.
      - apply (encodes_root _ _ _ 14); [|by vm_compute]. apply label_here; [apply Nat.ltb_lt|..|apply Nat.leb_le]; by vm_compute. }
    pose proof (encodes_fun _ _ _ _ _ He He') as Hsl. by injection Hsl. }
  eexists _, _. eapply send_request; [exact Hok|]. unfold asked_a, run. cbn [foldl]. unfold dns_event_step.
  instantiate (1 := Ok tt). instantiate (1 := random). instantiate (1 := []). instantiate (1 := dns4). vm_compute. reflexivity.
Qed.

Lemma a_answer_at : answers_at a_answer asked_a 19.
Proof. unfold answers_at. split_and!; [by apply Nat.leb_le|by vm_compute|by vm_compute|]. exists 15%nat. split; [|done]. apply dns_skip_ends. by vm_compute. Qed.

Lemma a_answer_owner : encodes a_answer (length a_answer) 19 [[97]].
Proof.
  apply (encodes_next _ _ _ 12 0); [|by vm_compute|by vm_compute|].
  - apply (label_pointer _ _ _ 12); [by apply Nat.leb_le|by vm_compute|by vm_compute|by apply Nat.ltb_lt|].
    apply label_here; [apply Nat.ltb_lt|..|apply Nat.leb_le]; by vm_compute.
  - apply (encodes_root _ _ _ 14); [|by vm_compute]. apply label_here; [apply Nat.ltb_lt|..|apply Nat.leb_le]; by vm_compute.
Qed.

Lemma a_answer_offsets pos : record_offset a_answer 19 pos -> pos = 19%nat \/ pos = 35%nat.
Proof.
  induction 1 as [|pos type data rdlength _ [->| ->] Hr]; [by left|right|]; apply record_at_read in Hr; vm_compute in Hr; [by injection Hr as <- <- <-|done].
Qed.

Lemma a_answer_records ls type data rdlength : record_for a_answer 19 ls type data rdlength -> type = DNS_TYPE_A /\ rdlength = 4%nat.
Proof.
  intros (pos & owner & Hp & Hr & _). destruct (a_answer_offsets _ Hp) as [->| ->]; apply record_at_read in Hr; vm_compute in Hr; [by injection Hr as <- <- <-|done].
Qed.
End Sample.

Lemma dns_resolved_sound_witness :
  exists ao ls' a, cname_chain Sample.a_answer ao [[97]] ls' /\ address_for Sample.a_answer ao ls' a /\ d_resolved (Sample.run [TimerExpired false; Delivered Sample.a_answer]) = [a].
Proof.
  destruct Sample.asked_a_ok as (ls0 & t & Hok).
  destruct (dns_resolved_sound Sample.dns4 [] Sample.random (deliver_fuel Sample.a_answer) Sample.a_answer Sample.asked_a (Ok tt)
    (Sample.run [TimerExpired false; Delivered Sample.a_answer]) ls0 [[97]] t) as (ao & ls' & a & _ & Hc & Ha & Hr & _).
  - apply (bool_decide_unpack _). vm_compute. exact I.
  - exact Hok.
  - vm_compute. reflexivity.
  - vm_compute. reflexivity.
  - vm_compute. discriminate.
  - exists ao, ls', a. split; [exact Hc|]. split; [exact Ha|]. rewrite Hr. reflexivity.
Defined.

Lemma dns_resolved_complete_witness :
  exists a, d_resolved (Sample.run [TimerExpired false; Delivered Sample.a_answer]) = [a].
Proof.
  destruct Sample.asked_a_ok as (ls0 & t & Hok).
  destruct (dns_resolved_complete Sample.dns4 [] Sample.random Sample.a_answer Sample.asked_a ls0 [[97]] t 19 DNS_TYPE_A 31 4) as (d' & a & Hd & Hr & _).
  - exact Hok.
  - vm_compute. reflexivity.
  - exact Sample.a_answer_at.
  - exists 19%nat, [[97]]. split; [constructor|]. split; [apply record_at_read; vm_compute; reflexivity|]. split; [exact Sample.a_answer_owner|repeat constructor].
  - left. reflexivity.
  - intros data rdlength H. apply Sample.a_answer_records in H. destruct H as [H _]. discriminate H.
  - intros type data rdlength H. apply Sample.a_answer_records in H. destruct H as [-> ->]. split; [intros _; apply Nat.leb_le; vm_compute; reflexivity|discriminate].
  - exists a. assert (Sample.run [TimerExpired false; Delivered Sample.a_answer] = d') as ->; [|exact Hr].
    unfold Sample.run. cbn [foldl]. change (dns_event_step Sample.dns4 [] Sample.random Sample.request (TimerExpired false)) with Sample.asked_a.
    unfold dns_event_step. replace (d_done Sample.asked_a) with (@None (result unit)) by (vm_compute; reflexivity). rewrite Hd. reflexivity.
Defined.

Lemma dns_request_invariant_witness :
  request_inv (Sample.run [TimerExpired false; Delivered Sample.no_answer; Delivered Sample.cname_answer]).
Proof.
  apply (dns_request_invariant Sample.dns4 [] Sample.random [] (Ok tt) 0 [97] [[97]] [] Sample.request).
  - constructor.
  - exact Sample.label_a.
  - left. reflexivity.
  - apply Nat.leb_le. vm_compute. reflexivity.
  - reflexivity.
  - exact Sample.request_resolv.
  - repeat constructor; apply (bool_decide_unpack _); vm_compute; exact I.
Defined.

(** The answer to a CNAME query is not used.  No A record is found for
    "a", so that its CNAME is asked for; the answer says that it is "b", and
    the query for the address of "b" is set up, but instead of sending it the
    request ends with [ENXIO]: the type of the query was read before the
    answers were processed, and is not the type of the prepared query. *)
Example dns_cname_not_followed :
  let d := Sample.run [TimerExpired false; Delivered Sample.no_answer; Delivered Sample.cname_answer] in
  map snd (d_sent d) = [query 4660 [[97]] DNS_TYPE_A; query 4660 [[97]] DNS_TYPE_CNAME] /\
  d_done d = Some (Err ENXIO) /\ d_resolved d = [] /\
  take (d_len d) (d_buf d) = query 0 [[98]] DNS_TYPE_A.
Proof. vm_compute. done. Qed.
