(* ===== verification/DhcpEncap.v ===== *)
(** * Encapsulated DHCP options (net/dhcpopts.c)

    An option of an encapsulated block is searched for inside the data of its
    encapsulator, and two bytes past them.  Where these two bytes cannot
    matter, because the encapsulated block has an end marker or the end marker
    of the whole block follows it, encapsulated options behave like plain
    ones: a new one is placed in front of the block, and is found again
    ([dhcpopt_encap_store_fetch]).  The block has a fixed size, as in a
    packet. *)

From S2P Require Import Prelude CMem DhcpOpts.

Definition encap_tag_ok (e t : Z) : Prop := 1 <= e <= DHCP_MAX_OPTION /\ 1 <= t <= DHCP_MAX_OPTION.

Lemma encap_tag e t : encap_tag_ok e t ->
  DHCP_ENCAPSULATOR (DHCP_ENCAP_OPT e t) = e /\ DHCP_ENCAPSULATED (DHCP_ENCAP_OPT e t) = t /\ DHCP_ENCAP_OPT e t = 256 * e + t /\
  u8 (DHCP_ENCAP_OPT e t) = t.
Proof.
  intros [He Ht]. unfold DHCP_MAX_OPTION in *. assert (DHCP_ENCAP_OPT e t = 256 * e + t) as Heq.
  { unfold DHCP_ENCAP_OPT. rewrite Z.lor_comm, Z.shiftl_mul_pow2 by lia.
    assert (Z.land t (e * 2 ^ 8) = 0) as Hl.
    { rewrite <- Z.shiftl_mul_pow2 by lia. apply Z.bits_inj'. intros n Hn. rewrite Z.land_spec, Z.bits_0, Z.shiftl_spec by lia.
      destruct (decide (n < 8)); [rewrite (Z.testbit_neg_r e) by lia; apply andb_false_r|].
      assert (Z.log2 t < n) by (apply Z.log2_lt_pow2; [lia|]; apply (Z.lt_le_trans _ (2 ^ 8)); [lia|apply Z.pow_le_mono_r; lia]).
      by rewrite (Z.bits_above_log2 t n) by lia. }
    pose proof (Z.add_lor_land t (e * 2 ^ 8)). lia. }
  unfold DHCP_ENCAPSULATOR, DHCP_ENCAPSULATED, wrap. rewrite Heq. change 0xff with (Z.ones 8). rewrite Z.land_ones, Z.shiftr_div_pow2 by lia.
  assert ((256 * e + t) / 2 ^ 8 = e) as -> by (symmetry; apply (Z.div_unique_pos _ _ _ t); lia).
  assert ((256 * e + t) `mod` 2 ^ 8 = t) as -> by (symmetry; apply (Z.mod_unique_pos _ _ e); lia). done.
Qed.

(** ** Searching *)

(** The encapsulated block ends before the two bytes after it matter. *)
Definition guarded (stail : list Z) (post : list item) (tail : list Z) : Prop :=
  (exists rest, stail = DHCP_END :: rest) \/ (stail = [] /\ post = [] /\ exists rest, tail = DHCP_END :: rest).

Section encap.
Context (o : dhcp_options) (pre : list item) (e : Z) (sitems : list item) (stail : list Z) (post : list item) (tail : list Z) (t : Z).
Context (Htag : encap_tag_ok e t).
Context (Hr : represents o (pre ++ Opt e (encode_items sitems ++ stail) :: post) tail).
Context (Hpre : Forall (fun i => ~ is_opt e i) pre) (Hsok : Forall item_ok sitems) (Hg : guarded stail post tail).

Definition sub_offset : Z := Z.of_nat (length (encode_items pre)) + 2.

(** The encapsulated block in memory, with the byte after it. *)
Lemma sub_bytes : exists rest b,
  mload (data o) sub_offset (length (encode_items sitems ++ stail) + 2) = encode_items sitems ++ DHCP_END :: rest /\
  mload (data o) (sub_offset - 2) 2 = [e; b] /\ b = Z.of_nat (length (encode_items sitems ++ stail)).
Proof.
  destruct Hr as (Hu & Ha & Hm & Hok & _). rewrite encode_items_app, encode_items_cons, <- !app_assoc in Hm. cbn [encode_item app] in Hm.
  apply mload_split in Hm as [_ Hm]. rewrite Z.add_0_l in Hm. apply mload_cons in Hm as [He Hm]. apply mload_cons in Hm as [Hl Hm]. rewrite <- !app_assoc in Hm.
  set (off := Z.of_nat (length (encode_items pre))) in *. unfold sub_offset. fold off. replace (off + 1 + 1) with (off + 2) in Hm by lia.
  assert (exists rest, mload (data o) (off + 2) (length (encode_items sitems ++ stail) + 2) = encode_items sitems ++ DHCP_END :: rest) as [rest Hrest].
  { rewrite length_app. destruct Hg as [(srest & ->)|(-> & -> & (trest & ->))]; cbn [app encode_items fmap list_fmap mjoin list_join] in Hm.
    - apply mload_split in Hm as [H1 Hm]. apply mload_cons in Hm as [H2 _]. rewrite <- Nat.add_assoc, mload_app, H1. eexists. f_equal.
      cbn [length Nat.add mload]. rewrite H2. done.
    - apply mload_split in Hm as [H1 Hm]. apply mload_cons in Hm as [H2 _]. rewrite <- Nat.add_assoc, mload_app, H1. eexists. f_equal.
      cbn [length Nat.add mload]. rewrite H2. done. }
  exists rest, (data o (off + 1)). split; [done|]. replace (off + 2 - 2) with off by lia. cbn [mload]. rewrite He. split; [done|]. done.
Qed.

(** The search goes on inside the encapsulator. *)
Lemma find_enters :
  exists fuel, (length (encode_items sitems ++ stail) + 2 < fuel)%nat /\
    find_dhcp_option_with_encap o (DHCP_ENCAP_OPT e t) =
      match find_loop fuel (data o) t sub_offset (Z.of_nat (length (encode_items sitems ++ stail) + 2)) (Some (sub_offset - 2)) with
      | Some r => r | None => (Err ENOENT, None) end.
Proof.
  destruct (encap_tag _ _ Htag) as (E1 & E2 & E3 & _). destruct Htag as [He Ht]. unfold DHCP_MAX_OPTION in *.
  destruct Hr as (Hu & Ha & Hm & Hok & _). rewrite encode_items_app, encode_items_cons, <- !app_assoc in Hm.
  apply Forall_app in Hok as [Hok1 [Hok2 _]%Forall_cons]. unfold find_dhcp_option_with_encap. rewrite decide_False by (unfold DHCP_PAD; lia).
  edestruct (find_loop_pass pre (find_fuel o) 2%nat (data o) (DHCP_ENCAP_OPT e t) 0) as (fuel' & Hf' & E); [exact Hm|done| |lia|unfold find_fuel; lia|].
  { apply Forall_forall. intros i Hi. rewrite Forall_forall in Hpre, Hok1. split; [|rewrite E1; intros [_ Hx]; by apply (Hpre i Hi)].
    specialize (Hok1 i Hi). destruct i as [|t' bs]; [by intros []|]. simpl in *. unfold DHCP_MAX_OPTION in Hok1. lia. }
  rewrite Z2Nat.id in E by lia. rewrite E. clear E. apply mload_split in Hm as [_ Hm].
  destruct (dhcp_option_len_item _ _ _ _ _ Hm Hok2) as [Hlen Htg]. rewrite Z.add_0_l in *.
  pose proof (length_app (encode_item (Opt e (encode_items sitems ++ stail))) (encode_items post ++ tail)) as Hla.
  pose proof (encode_item_length (Opt e (encode_items sitems ++ stail))) as Hil. cbn beta iota in Hil.
  destruct fuel' as [|fuel']; [lia|]. cbn [find_loop]. rewrite Hlen, Htg. unfold DHCP_END. rewrite (decide_False (P := Z.of_nat _ = 0)) by lia.
  rewrite (decide_False (P := Z.of_nat _ - _ < 0)) by lia. rewrite (decide_False (P := e = 255)) by lia. rewrite (decide_False (P := e = DHCP_ENCAP_OPT e t)) by lia.
  rewrite decide_True; [|split; [unfold DHCP_IS_ENCAP_OPT; lia|done]]. rewrite E2. exists fuel'. split; [lia|].
  unfold sub_offset, DHCP_OPTION_HEADER_LEN. replace (Z.of_nat (length (encode_items pre)) + 2 - 2) with (Z.of_nat (length (encode_items pre))) by lia.
  rewrite Hil. by replace (Z.of_nat (length (encode_items sitems ++ stail) + 2)) with (Z.of_nat (length (encode_items sitems ++ stail)) + 2) by lia.
Qed.

Lemma find_encap_absent :
  Forall (fun i => ~ is_opt t i) sitems -> find_dhcp_option_with_encap o (DHCP_ENCAP_OPT e t) = (Err ENOENT, Some (sub_offset - 2)).
Proof.
  intros Hno. destruct find_enters as (fuel & Hf & ->). destruct sub_bytes as (rest & b & Hm & _). destruct Htag as [_ Ht]. unfold DHCP_MAX_OPTION in Ht.
  edestruct (find_loop_skip sitems fuel (data o) t sub_offset) as (fuel' & Hf' & ->); [exact Hm|done|done|lia|lia|].
  apply mload_split in Hm as [_ Hm]. apply mload_cons in Hm as [Hm _]. destruct fuel' as [|fuel']; [lia|]. cbn [find_loop length].
  unfold dhcp_option_len, option_tag. rewrite Hm. rewrite (decide_True (P := DHCP_END = DHCP_END \/ _)) by auto. cbn [length] in Hf'.
  rewrite !decide_False by lia. rewrite decide_True by done. by rewrite decide_False by (unfold DHCP_END; lia).
Qed.

Lemma find_encap_present spre bs spost :
  sitems = spre ++ Opt t bs :: spost -> Forall (fun i => ~ is_opt t i) spre ->
  find_dhcp_option_with_encap o (DHCP_ENCAP_OPT e t) = (Ok (sub_offset + Z.of_nat (length (encode_items spre))), Some (sub_offset - 2)) /\
  option_len (data o) (sub_offset + Z.of_nat (length (encode_items spre))) = Z.of_nat (length bs) /\
  mload (data o) (option_data (sub_offset + Z.of_nat (length (encode_items spre)))) (length bs) = bs.
Proof.
  intros Hs Hno. destruct find_enters as (fuel & Hf & ->). destruct sub_bytes as (rest & b & Hm & _). destruct Htag as [_ Ht]. unfold DHCP_MAX_OPTION in Ht.
  rewrite Hs, encode_items_app, encode_items_cons, <- !app_assoc in Hm. rewrite Hs in Hsok. apply Forall_app in Hsok as [Hok1 [Hok2 _]%Forall_cons].
  rewrite Hs in Hf |- *. rewrite encode_items_app, encode_items_cons, <- !app_assoc in Hf |- *.
  edestruct (find_loop_skip spre fuel (data o) t sub_offset) as (fuel' & Hf' & ->); [exact Hm|done|done|lia|lia|].
  apply mload_split in Hm as [_ Hm]. destruct (dhcp_option_len_item _ _ _ _ _ Hm Hok2) as [Hlen Htg].
  pose proof (length_app (encode_item (Opt t bs)) (encode_items spost ++ DHCP_END :: rest)) as Hla.
  pose proof (encode_item_length (Opt t bs)) as Hil. cbn beta iota in Hil.
  destruct fuel' as [|fuel']; [lia|]. cbn [find_loop]. rewrite Hlen, Htg. rewrite (decide_False (P := Z.of_nat _ = 0)) by lia.
  rewrite (decide_False (P := Z.of_nat _ - _ < 0)) by lia. rewrite (decide_False (P := t = DHCP_END)) by (unfold DHCP_END; lia).
  rewrite (decide_True (P := t = t)) by done. split; [done|]. cbn [encode_item app] in Hm. apply mload_cons in Hm as [_ Hm]. apply mload_cons in Hm as [Hl Hm].
  split; [done|]. apply mload_split in Hm as [Hm _]. rewrite <- Hm at 2. f_equal. unfold option_data, DHCP_OPTION_HEADER_LEN. lia.
Qed.
End encap.

(** ** The size of the block *)

Lemma resize_alloc o off enc old new : alloc_len (resize_dhcp_option dhcpopt_no_realloc o off enc old new).2 = alloc_len o.
Proof.
  assert (forall o n, (dhcpopt_no_realloc o n).2 = o) as Hno by (intros o1 n; unfold dhcpopt_no_realloc; by case_decide).
  unfold resize_dhcp_option. case_decide; [done|]. set (n := u64 _). assert (alloc_len (expand_block dhcpopt_no_realloc o n).2 = alloc_len o) as H1.
  { unfold expand_block. case_decide; [|done]. pose proof (Hno o n) as Hn. by destruct (dhcpopt_no_realloc o n) as [[[]|rc] o1]; cbn [snd] in *; subst o1. }
  destruct (expand_block _ _ _) as [[[]|rc] o1]; cbn [snd] in H1; [|done].
  assert (alloc_len (update_encapsulator o1 enc (s64 (new - old))).2 = alloc_len o1) as H2 by (unfold update_encapsulator; destruct enc; [by case_decide|done]).
  destruct (update_encapsulator _ _ _) as [[[]|rc] o2]; cbn [snd] in H2; [|cbn [snd]; congruence]. case_decide; [rewrite Hno|]; cbn [alloc_len snd]; congruence.
Qed.

Lemma set_option_alloc depth o tag bs : alloc_len (set_dhcp_option dhcpopt_no_realloc depth o tag bs).2 = alloc_len o.
Proof.
  revert o tag bs. induction depth as [|depth IH]; intros o tag bs; [done|]. cbn [set_dhcp_option]. case_decide; [done|].
  destruct (find_dhcp_option_with_encap o tag) as [found encap]. set (ensured := if decide (DHCP_ENCAPSULATOR tag <> 0) then _ else _).
  assert (alloc_len ensured.2 = alloc_len o) as He.
  { unfold ensured. case_decide; [|done]. destruct encap; [done|]. specialize (IH o (DHCP_ENCAPSULATOR tag) [DHCP_END]). by destruct (set_dhcp_option _ _ _ _ _). }
  destruct ensured as [[[encap' creation]|rc] o1]; cbn [snd] in He; [|done]. rewrite <- He. clear He.
  set (off := match found with Ok _ => _ | Err _ => _ end). set (old := match found with Ok _ => _ | Err _ => _ end). set (new := if decide _ then 0 else _).
  pose proof (resize_alloc o1 off encap' old new) as Hs. destruct (resize_dhcp_option _ _ _ _ _ _) as [[[]|rc] o2]; cbn [snd] in *; [|done]. rewrite <- Hs.
  set (o3 := if decide _ then write_option o2 off tag bs else o2). assert (alloc_len o3 = alloc_len o2) as <- by (unfold o3; by case_decide).
  destruct encap'; [|done]. case_decide; [apply IH|done].
Qed.

Lemma dhcpopt_store_alloc o tag bs : alloc_len (dhcpopt_store dhcpopt_no_realloc o tag bs).2 = alloc_len o.
Proof. unfold dhcpopt_store. pose proof (set_option_alloc 4 o tag bs) as Ha. by destruct (set_dhcp_option _ _ _ _ _) as [[]]. Qed.

(** ** Storing a new option *)

(** Making room inside an encapsulator is making room in the block whose
    encapsulator already has its new length. *)
Lemma resize_encap o off enc new_len r o' :
  let l := option_len (data o) enc in
  resize_dhcp_option dhcpopt_no_realloc o off (Some enc) 0 new_len = (r, o') ->
  0 <= used_len o <= alloc_len o -> alloc_len o < 2 ^ 31 -> 0 <= new_len -> 0 <= l <= 255 ->
  match r with
  | Err rc => o' = o /\ rc = ENOSPC /\ (255 < l + new_len \/ alloc_len o < used_len o + new_len)
  | Ok _ => l + new_len <= 255 /\
      resize_dhcp_option dhcpopt_no_realloc (DhcpOptions (mset (data o) (enc + 1) (l + new_len)) (used_len o) (alloc_len o)) off None 0 new_len = (Ok tt, o')
  end.
Proof.
  intros l E Hu Ha Hn Hl. unfold resize_dhcp_option in *. unfold DHCP_MAX_LEN in *. cbn [used_len alloc_len] in *.
  destruct (decide (new_len > 255)) as [Hbig|Hbig]; [injection E as <- <-; split_and!; [done|done|left; lia]|]. rewrite Z.sub_0_r in *. rewrite (sext_small 64 new_len) in E |- * by lia.
  rewrite (wrap_small 64 (used_len o + new_len)) in E |- * by zlia. unfold expand_block in *. cbn [alloc_len] in *.
  destruct (decide (used_len o + new_len > alloc_len o)) as [Hgrow|Hgrow].
  { unfold dhcpopt_no_realloc in E. rewrite decide_False in E by lia. injection E as <- <-. split_and!; [done|done|right; lia]. }
  unfold update_encapsulator in *. fold l in E. rewrite (wrap_small 64 (l + new_len)) in E by zlia. unfold DHCP_MAX_LEN in E.
  destruct (decide (l + new_len > 255)) as [Hover|Hover]; [injection E as <- <-; split_and!; [done|done|left; lia]|]. rewrite (wrap_small 8) in E by zlia. cbn [data used_len alloc_len] in *.
  destruct r as [[]|rc]; [split; [lia|exact E]|]. exfalso. case_decide; [|done]. unfold dhcpopt_no_realloc in E. cbn [alloc_len] in E. rewrite decide_True in E by lia. done.
Qed.

Section store.
Context (o : dhcp_options) (pre : list item) (e : Z) (sitems : list item) (stail : list Z) (post : list item) (tail : list Z) (t : Z).
Context (Htag : encap_tag_ok e t).
Context (Hr : represents o (pre ++ Opt e (encode_items sitems ++ stail) :: post) tail).
Context (Hpre : Forall (fun i => ~ is_opt e i) pre) (Hsok : Forall item_ok sitems) (Hg : guarded stail post tail).
Context (Hno : Forall (fun i => ~ is_opt t i) sitems).

Lemma set_encap_absent bs depth r o' :
  set_dhcp_option dhcpopt_no_realloc (S depth) o (DHCP_ENCAP_OPT e t) bs = (r, o') -> bs <> [] ->
  match r with
  | Err rc => o' = o /\ rc = ENOSPC /\
      (255 < Z.of_nat (length (encode_items sitems ++ stail)) + (Z.of_nat (length bs) + 2) \/ alloc_len o < used_len o + (Z.of_nat (length bs) + 2))
  | Ok _ => represents o' (pre ++ Opt e (encode_items (Opt t bs :: sitems) ++ stail) :: post) tail
  end.
Proof.
  intros E Hne. destruct (encap_tag _ _ Htag) as (E1 & E2 & E3 & E4). pose proof Htag as [He Ht]. unfold DHCP_MAX_OPTION in He, Ht.
  pose proof (find_encap_absent o pre e sitems stail post tail t Htag Hr Hpre Hsok Hg Hno) as Hf.
  destruct (sub_bytes o pre e sitems stail post tail Hr Hg) as (rest & b & _ & Hb & Hbl). set (sub := encode_items sitems ++ stail) in *.
  pose proof Hr as (Hu & Ha & Hm & Hok & Htail). apply Forall_app in Hok as [Hok1 [Hok2 Hok3]%Forall_cons].
  assert (0 < Z.of_nat (length bs)) as Hlb by (destruct bs; simpl; [done|lia]).
  assert (option_len (data o) (sub_offset pre - 2) = Z.of_nat (length sub)) as Hol.
  { unfold option_len. cbn [mload] in Hb. injection Hb as _ Hb2. by rewrite Hb2. }
  cbn [set_dhcp_option] in E. rewrite decide_False in E by (unfold DHCP_PAD; lia). rewrite Hf in E. rewrite (decide_True (P := DHCP_ENCAPSULATOR _ <> 0)) in E by (rewrite E1; lia).
  unfold DHCP_OPTION_HEADER_LEN in E. replace (sub_offset pre - 2 + 2) with (sub_offset pre) in E by lia. rewrite (decide_False (P := Z.of_nat (length bs) = 0)) in E by lia.
  destruct (resize_dhcp_option _ _ _ _ _ _) as [r1 o1] eqn:Er.
  apply resize_encap in Er; [|lia|lia|lia|rewrite Hol; destruct Hok2; unfold DHCP_MAX_LEN in *; lia].
  destruct r1 as [[]|rc]; [|injection E as <- <-; by rewrite Hol in Er]. destruct Er as [Hle Er]. rewrite Hol in Er, Hle.
  set (l' := Z.of_nat (length sub) + (Z.of_nat (length bs) + 2)) in *.
  set (P := encode_items pre ++ [e; l']). set (S := sub ++ encode_items post ++ tail).
  assert (sub_offset pre = Z.of_nat (length P)) as Hoff by (unfold sub_offset, P; rewrite length_app; cbn [length]; lia).
  rewrite encode_items_app, encode_items_cons, <- !app_assoc in Hm. cbn [encode_item app] in Hm.
  assert (Z.to_nat (used_len o) = length P + length S)%nat as Hul.
  { apply (f_equal length) in Hm. rewrite mload_length in Hm. rewrite Hm. unfold P, S. rewrite !length_app. cbn [length]. rewrite !length_app. lia. }
  assert (mload (mset (data o) (sub_offset pre - 2 + 1) l') 0 (Z.to_nat (used_len o)) = P ++ [] ++ S) as Hm'.
  { apply mload_split in Hm as [Hm1 Hm2]. apply mload_cons in Hm2 as [Hm2 Hm3]. apply mload_cons in Hm3 as [_ Hm3].
    rewrite Hul, mload_app. cbn [app]. f_equal.
    - unfold P. rewrite length_app, mload_app. rewrite mload_mset_outside by (rewrite Hoff; unfold P; rewrite length_app; cbn [length]; lia). rewrite Hm1. f_equal.
      cbn [length mload]. unfold mset. rewrite (decide_False (P := 0 + _ = _)) by (unfold sub_offset; lia). rewrite decide_True by (unfold sub_offset; lia). by rewrite Hm2.
    - rewrite mload_mset_outside by (rewrite <- Hoff; unfold sub_offset; lia). rewrite <- Hoff. unfold S, sub_offset. rewrite <- Hm3 at 2. f_equal; lia. }
  rewrite Hoff in Er, Hm'. apply (resize_plain_spec dhcpopt_no_realloc _ P [] S) in Er; cbn [used_len alloc_len]; [|lia|lia|lia|exact Hm'].
  cbn [used_len alloc_len length] in Er. destruct Er as (Hu1 & Hmax & Ha1 & HP & HS). unfold DHCP_MAX_LEN in Hmax.
  rewrite !(decide_True (P := Z.of_nat (length bs) <> 0)) in E by lia. rewrite Hoff in E.
  assert (write_option o1 (Z.of_nat (length P)) (DHCP_ENCAP_OPT e t) bs = write_option o1 (Z.of_nat (length P)) t bs) as Hw.
  { unfold write_option. rewrite E4, (wrap_small 8 t) by zlia. done. }
  rewrite Hw in E. set (N := encode_items (new_item t bs)) in *.
  assert (Z.of_nat (length N) = Z.of_nat (length bs) + 2) as HN by (unfold N; rewrite encode_new_item_length; by rewrite decide_False by lia).
  assert (mload (data (write_option o1 (Z.of_nat (length P)) t bs)) 0 (length (P ++ N ++ S)) = P ++ N ++ S) as Hfinal.
  { apply (write_option_spec o1 P S t bs); [unfold DHCP_MAX_OPTION; lia|unfold DHCP_MAX_LEN; lia|done|done|]. fold N. rewrite HN. done. }
  assert (encode_items (pre ++ Opt e (encode_items (Opt t bs :: sitems) ++ stail) :: post) ++ tail = P ++ N ++ S) as Henc.
  { unfold P, N, S, new_item. rewrite decide_False by done. rewrite encode_items_app, encode_items_cons, encode_items_cons. cbn [encode_item].
    rewrite <- !app_assoc. cbn [app]. do 3 f_equal. { unfold l', sub. cbn [length app]. rewrite !length_app. cbn [length]. rewrite ?length_app. lia. }
    rewrite encode_items_cons. cbn [encode_item encode_items fmap list_fmap mjoin list_join app]. unfold sub. rewrite app_nil_r, <- !app_assoc. done. }
  assert (option_len (data (write_option o1 (Z.of_nat (length P)) t bs)) (Z.of_nat (length P) - 2) = l') as Hl'.
  { unfold option_len. assert (length P = length (encode_items pre) + 2)%nat as HlP by (unfold P; rewrite length_app; done).
    pose proof (mload_lookup (data (write_option o1 (Z.of_nat (length P)) t bs)) 0 (length (P ++ N ++ S)) (length (encode_items pre) + 1)) as Hlk.
    assert (P !! (length (encode_items pre) + 1)%nat = Some l') as HPl.
    { unfold P. rewrite lookup_app_r by lia. by replace (length (encode_items pre) + 1 - length (encode_items pre))%nat with 1%nat by lia. }
    rewrite Hfinal, lookup_app_l, HPl in Hlk by lia. ospecialize (Hlk _); [rewrite length_app; lia|]. injection Hlk as Hlk. rewrite Hlk. f_equal. lia. }
  rewrite Hl' in E. rewrite decide_False in E by lia. injection E as <- <-. split_and!.
  - unfold write_option. cbn [used_len alloc_len]. lia.
  - unfold write_option. cbn [used_len alloc_len]. lia.
  - unfold write_option. cbn [alloc_len]. lia.
  - rewrite Henc, <- Hfinal. f_equal. unfold write_option. cbn [used_len]. rewrite !length_app. lia.
  - apply Forall_app. split; [done|]. constructor; [|done]. split; [by destruct Hok2|].
    assert (length (encode_items (Opt t bs :: sitems) ++ stail) = length bs + 2 + length sub)%nat as ->; [|unfold DHCP_MAX_LEN, l' in *; lia].
    unfold sub. rewrite encode_items_cons, !length_app. cbn [encode_item length]. lia.
  - done.
Qed.
End store.

(** Stores that are placed in front of the encapsulated block. *)
Lemma dhcpopt_encap_store o o' pre e sitems stail post tail t bs :
  encap_tag_ok e t -> represents o (pre ++ Opt e (encode_items sitems ++ stail) :: post) tail ->
  Forall (fun i => ~ is_opt e i) pre -> Forall item_ok sitems -> guarded stail post tail -> Forall (fun i => ~ is_opt t i) sitems -> bs <> [] ->
  dhcpopt_store dhcpopt_no_realloc o (DHCP_ENCAP_OPT e t) bs = (Ok tt, o') ->
  represents o' (pre ++ Opt e (encode_items (Opt t bs :: sitems) ++ stail) :: post) tail.
Proof.
  intros Htag Hr Hpre Hsok Hg Hno Hne E. unfold dhcpopt_store in E. destruct (set_dhcp_option _ _ _ _ _) as [r o1] eqn:Es.
  eapply set_encap_absent in Es; [|done..]. destruct r; [|done]. by injection E as <-.
Qed.

Lemma dhcpopt_encap_room o pre e sitems stail post tail t bs :
  encap_tag_ok e t -> represents o (pre ++ Opt e (encode_items sitems ++ stail) :: post) tail ->
  Forall (fun i => ~ is_opt e i) pre -> Forall item_ok sitems -> guarded stail post tail -> Forall (fun i => ~ is_opt t i) sitems -> bs <> [] ->
  Z.of_nat (length (encode_items sitems ++ stail)) + (Z.of_nat (length bs) + 2) <= 255 -> used_len o + (Z.of_nat (length bs) + 2) <= alloc_len o ->
  exists o', dhcpopt_store dhcpopt_no_realloc o (DHCP_ENCAP_OPT e t) bs = (Ok tt, o').
Proof.
  intros Htag Hr Hpre Hsok Hg Hno Hne H1 H2. unfold dhcpopt_store. destruct (set_dhcp_option _ _ _ _ _) as [r o1] eqn:Es.
  eapply set_encap_absent in Es; [|done..]. destruct r; [by eexists|]. lia.
Qed.

(** A new encapsulated option can be fetched with its value after it was
    stored, the options of its encapsulator stay where they were after it, and
    all other options keep their values, provided that an end marker follows
    the encapsulated block. *)
Theorem dhcpopt_encap_store_fetch o o' pre e sitems stail post tail t bs len :
  encap_tag_ok e t -> represents o (pre ++ Opt e (encode_items sitems ++ stail) :: post) tail ->
  Forall (fun i => ~ is_opt e i) pre -> Forall item_ok sitems -> guarded stail post tail -> Forall (fun i => ~ is_opt t i) sitems -> bs <> [] ->
  dhcpopt_store dhcpopt_no_realloc o (DHCP_ENCAP_OPT e t) bs = (Ok tt, o') -> Z.of_nat (length bs) <= len ->
  dhcpopt_fetch o' (DHCP_ENCAP_OPT e t) len = (Ok (Z.of_nat (length bs)), bs) /\
  dhcpopt_fetch o' e 255 = (Ok (Z.of_nat (length bs + 2 + length (encode_items sitems ++ stail))), t :: Z.of_nat (length bs) :: bs ++ encode_items sitems ++ stail) /\
  forall tag' len', 1 <= tag' <= DHCP_MAX_OPTION -> tag' <> e -> 0 <= len' -> dhcpopt_fetch o' tag' len' = dhcpopt_fetch o tag' len'.
Proof.
  intros Htag Hr Hpre Hsok Hg Hno Hne E Hlen. pose proof (dhcpopt_encap_store _ _ _ _ _ _ _ _ _ _ Htag Hr Hpre Hsok Hg Hno Hne E) as Hr'.
  pose proof Hr' as (_ & _ & _ & Hok' & _). apply Forall_app in Hok' as [_ [[_ Hmax] _]%Forall_cons]. unfold DHCP_MAX_LEN in Hmax. pose proof Htag as [He Ht].
  assert (length (encode_items (Opt t bs :: sitems) ++ stail) = length bs + 2 + length (encode_items sitems ++ stail))%nat as Hls.
  { rewrite encode_items_cons, !length_app. cbn [encode_item length]. lia. }
  split_and!.
  - assert (Forall item_ok (Opt t bs :: sitems)) as Hsok' by (constructor; [|done]; split; [done|]; unfold DHCP_MAX_LEN; lia).
    destruct (find_encap_present o' pre e (Opt t bs :: sitems) stail post tail t Htag Hr' Hpre Hsok' Hg [] bs sitems) as (Hf & Hl & Hd); [done|done|].
    unfold dhcpopt_fetch. rewrite Hf. cbn [fst]. rewrite Hl. f_equal. case_decide; [by rewrite Nat2Z.id|].
    replace len with (Z.of_nat (length bs)) by lia. by rewrite Nat2Z.id.
  - rewrite (fetch_refines _ _ _ _ _ Hr'), fetch_items_present by (done || lia). rewrite Hls, take_ge; [|rewrite Hls; lia].
    rewrite encode_items_cons. cbn [encode_item app]. by rewrite <- app_assoc.
  - intros tag' len' Ht' Hne' Hlen'. rewrite (fetch_refines _ _ _ _ _ Hr'), (fetch_refines _ _ _ _ _ Hr) by done.
    assert (forall x, fetch_items tag' (pre ++ Opt e x :: post) = fetch_items tag' (pre ++ post)) as Hx; [|by rewrite !Hx].
    intros x. clear -Hne'. induction pre as [|[|t' y] pre IH]; cbn [app fetch_items]; [by rewrite decide_False|done|]. by rewrite IH.
Qed.

Lemma dhcpopt_encap_store_fetch_witness :
  dhcpopt_fetch (dhcpopt_store dhcpopt_no_realloc (DhcpOptions (mem_of [53; 1; 5; 175; 3; 21; 1; 1; 255]) 9 64) (DHCP_ENCAP_OPT 175 177) [7; 8]).2
    (DHCP_ENCAP_OPT 175 177) 4 = (Ok 2, [7; 8]).
Proof.
  refine (proj1 (dhcpopt_encap_store_fetch (DhcpOptions (mem_of [53; 1; 5; 175; 3; 21; 1; 1; 255]) 9 64)
    (dhcpopt_store dhcpopt_no_realloc (DhcpOptions (mem_of [53; 1; 5; 175; 3; 21; 1; 1; 255]) 9 64) (DHCP_ENCAP_OPT 175 177) [7; 8]).2
    [Opt 53 [5]] 175 [Opt 21 [1]] [] [] [255] 177 [7; 8] 4 _ _ _ _ _ _ _ _ _)).
  - split; unfold DHCP_MAX_OPTION; lia.
  - split_and!; [done..| |done]. repeat constructor; done.
  - repeat constructor. done.
  - repeat constructor; done.
  - right. split; [done|]. split; [done|]. by exists [].
  - repeat constructor. done.
  - done.
  - apply injective_projections; [by vm_compute|reflexivity].
  - cbn. lia.
Defined.
