(* ===== verification/DhcpPkt.v ===== *)
(** * DHCP packets (net/dhcppkt.c)

    A packet is its fixed header, a memory block of 240 bytes, and the block
    of options that follows it (DhcpOpts).  Some settings live in fields of
    the header instead of in options.

    The theorems: a well-formed packet is a map from setting tags to values,
    which [dhcppkt_fetch] reads ([dhcppkt_fetch_refines]) and [dhcppkt_store]
    updates ([dhcppkt_store_refines]), whichever of the two places a setting
    lives in. *)

From S2P Require Import Prelude CMem Strings DhcpOpts.

(** Offsets of the fields of [struct dhcphdr]. *)
Definition HDR_OP : Z := 0.
Definition HDR_HTYPE : Z := 1.
Definition HDR_HLEN : Z := 2.
Definition HDR_XID : Z := 4.
Definition HDR_SECS : Z := 8.
Definition HDR_FLAGS : Z := 10.
Definition HDR_CIADDR : Z := 12.
Definition HDR_YIADDR : Z := 16.
Definition HDR_SIADDR : Z := 20.
Definition HDR_CHADDR : Z := 28.
Definition HDR_SNAME : Z := 44.
Definition HDR_FILE : Z := 108.
Definition HDR_MAGIC : Z := 236.
Definition HDR_OPTIONS : Z := 240.

Definition DHCP_EB_ENCAP : Z := 175.
Definition DHCP_EB_YIADDR : Z := DHCP_ENCAP_OPT DHCP_EB_ENCAP 2.
Definition DHCP_EB_SIADDR : Z := DHCP_ENCAP_OPT DHCP_EB_ENCAP 3.
Definition DHCP_TFTP_SERVER_NAME : Z := 66.
Definition DHCP_BOOTFILE_NAME : Z := 67.

Record dhcp_packet := DhcpPacket {
  dhcphdr : mem;
  options : dhcp_options;
}.

Definition dhcppkt_len (p : dhcp_packet) : Z := HDR_OPTIONS + used_len (options p).

(** ** Fields *)

Definition used_len_ipv4 (m : mem) (data len : Z) : Z :=
  if decide (get32 (mload m data 4) 0 <> 0) then 4 else 0.
Definition used_len_string (m : mem) (data len : Z) : Z := default 0 (strnlen (S (Z.to_nat len)) m data len).

Record packet_field := PacketField {
  field_tag : Z;
  field_offset : Z;
  field_len : Z;
  field_used_len : mem -> Z -> Z -> Z;
}.

Definition dhcp_packet_fields : list packet_field :=
  [PacketField DHCP_EB_YIADDR HDR_YIADDR 4 used_len_ipv4; PacketField DHCP_EB_SIADDR HDR_SIADDR 4 used_len_ipv4;
   PacketField DHCP_TFTP_SERVER_NAME HDR_SNAME 64 used_len_string; PacketField DHCP_BOOTFILE_NAME HDR_FILE 128 used_len_string].

Definition find_dhcp_packet_field (tag : Z) : option packet_field :=
  snd <$> list_find (fun f => field_tag f = tag) dhcp_packet_fields.

(** ** Operations *)

Definition dhcppkt_applies (tag : Z) : bool := dhcpopt_applies tag.

Definition dhcppkt_store (p : dhcp_packet) (tag : Z) (bs : list Z) : result unit * dhcp_packet :=
  match find_dhcp_packet_field tag with
  | Some field =>
    if decide (field_len field < Z.of_nat (length bs)) then (Err ENOSPC, p) else
    let m := memset (dhcphdr p) (field_offset field) 0 (field_len field) in
    let m := memcpy m (field_offset field) bs in
    (Ok tt, DhcpPacket m (dhcpopt_store dhcpopt_no_realloc (options p) tag []).2)
  | None =>
    let '(rc, o) := dhcpopt_store dhcpopt_no_realloc (options p) tag bs in
    (rc, DhcpPacket (dhcphdr p) o)
  end.

(** The length of the setting and the bytes copied to a buffer of [len]. *)
Definition dhcppkt_fetch (p : dhcp_packet) (tag len : Z) : result Z * list Z :=
  let field := find_dhcp_packet_field tag in
  let flen := match field with Some f => field_used_len f (dhcphdr p) (field_offset f) (field_len f) | None => 0 end in
  match field with
  | Some f =>
    if decide (flen <> 0) then
      (Ok flen, mload (dhcphdr p) (field_offset f) (Z.to_nat (if decide (flen < len) then flen else len)))
    else dhcpopt_fetch (options p) tag len
  | None => dhcpopt_fetch (options p) tag len
  end.

(** A setting with a scope is not a DHCP setting. *)
Definition dhcppkt_settings_applies (has_scope : bool) (tag : Z) : bool := negb has_scope && dhcppkt_applies tag.

(** [data] points to a buffer of [len] bytes that holds the packet. *)
Definition dhcppkt_init (data : mem) (len : Z) : dhcp_packet :=
  DhcpPacket data (dhcpopt_init (fun x => data (HDR_OPTIONS + x)) (u64 (len - HDR_OPTIONS))).

(** ** Packets as maps *)

(** The contents of a field: nothing when it is zero. *)
Definition field_value (p : dhcp_packet) (tag : Z) : option (list Z) :=
  f ← find_dhcp_packet_field tag;
  let flen := field_used_len f (dhcphdr p) (field_offset f) (field_len f) in
  if decide (flen <> 0) then Some (mload (dhcphdr p) (field_offset f) (Z.to_nat flen)) else None.

Definition packet_lookup (p : dhcp_packet) (items : list item) (tag : Z) : option (list Z) :=
  match field_value p tag with
  | Some bs => Some bs
  | None => fetch_items tag items
  end.

(** The values that a field can represent. *)
Definition field_ok (tag : Z) (bs : list Z) : Prop :=
  (tag = DHCP_TFTP_SERVER_NAME \/ tag = DHCP_BOOTFILE_NAME -> Forall (fun c => c <> 0) bs) /\
  (tag = DHCP_EB_YIADDR \/ tag = DHCP_EB_SIADDR -> length bs = 4%nat /\ bytes bs /\ get32 bs 0 <> 0).

Definition plain_tag (tag : Z) : Prop := 1 <= tag <= DHCP_MAX_OPTION.

Lemma find_field_cases tag :
  find_dhcp_packet_field tag = None \/
  exists f, find_dhcp_packet_field tag = Some f /\ f ∈ dhcp_packet_fields /\ field_tag f = tag.
Proof.
  unfold find_dhcp_packet_field. destruct (list_find _ _) as [[i f]|] eqn:Hf; [|by left].
  apply list_find_Some in Hf as (Hl & Ht & _). right. exists f. split; [done|]. split; [|done]. by eapply list_elem_of_lookup_2.
Qed.

Lemma find_field_plain tag : plain_tag tag -> tag <> 66 -> tag <> 67 -> find_dhcp_packet_field tag = None.
Proof.
  intros Ht H1 H2. destruct (find_field_cases tag) as [->|(f & _ & Hin & Hf)]; [done|].
  unfold plain_tag, DHCP_MAX_OPTION in Ht. unfold dhcp_packet_fields in Hin.
  repeat (apply elem_of_cons in Hin as [->|Hin]; [vm_compute in Hf; lia|]). by apply elem_of_nil in Hin.
Qed.

(** The length of a string that fills a field, or ends before its end. *)
Lemma strnlen_field fuel m a max bs :
  Forall (fun c => c <> 0) bs -> mload m a (length bs) = bs -> (Z.of_nat (length bs) <= max) ->
  (Z.of_nat (length bs) < max -> m (a + Z.of_nat (length bs)) = 0) -> (length bs < fuel)%nat ->
  strnlen fuel m a max = Some (Z.of_nat (length bs)).
Proof.
  revert fuel a max. induction bs as [|c bs IH]; intros [|fuel] a max Hnz Hm Hle Hz Hf; cbn [strnlen length] in *; try lia.
  - case_decide; [done|]. rewrite Z.add_0_r in Hz. by rewrite Hz, decide_True by lia.
  - apply Forall_cons in Hnz as [Hc Hnz]. cbn [mload] in Hm. injection Hm as Ha Hm. rewrite Ha.
    rewrite !decide_False by (done || lia). rewrite IH; [f_equal; lia|done|done|lia| |lia]. intros Hlt.
    replace (a + 1 + Z.of_nat (length bs)) with (a + Z.of_nat (S (length bs))) by lia. apply Hz. lia.
Qed.

Section fields.
Context (p : dhcp_packet) (f : packet_field) (Hin : f ∈ dhcp_packet_fields).
Context (bs : list Z) (Hfit : Z.of_nat (length bs) <= field_len f).

Definition stored_header : mem := memcpy (memset (dhcphdr p) (field_offset f) 0 (field_len f)) (field_offset f) bs.

Lemma stored_header_data : mload stored_header (field_offset f) (length bs) = bs.
Proof. apply mload_memcpy. Qed.

Lemma stored_header_after x :
  field_offset f + Z.of_nat (length bs) <= x < field_offset f + field_len f -> stored_header x = 0.
Proof. intros Hx. unfold stored_header, memcpy, memset. rewrite decide_False by lia. by rewrite decide_True by lia. Qed.

Lemma stored_header_outside x : ~ (field_offset f <= x < field_offset f + field_len f) -> stored_header x = dhcphdr p x.
Proof. intros Hx. unfold stored_header, memcpy, memset. by rewrite !decide_False by lia. Qed.

Lemma stored_used_len :
  field_ok (field_tag f) bs -> bs <> [] ->
  field_used_len f stored_header (field_offset f) (field_len f) = Z.of_nat (length bs).
Proof.
  intros [Hs Hi] Hne. pose proof stored_header_data as Hd. pose proof stored_header_after as Hz.
  assert (forall a len, field_offset f = a -> field_len f = len -> Forall (fun c => c <> 0) bs -> 0 <= len -> used_len_string stored_header a len = Z.of_nat (length bs)) as Hstr.
  { intros a len <- <- Hnz Hlen. unfold used_len_string. rewrite (strnlen_field _ _ _ _ bs); [done|done|done|done| |lia]. intros Hlt. apply Hz. lia. }
  assert (forall a, field_offset f = a -> length bs = 4%nat /\ bytes bs /\ get32 bs 0 <> 0 -> used_len_ipv4 stored_header a 4 = Z.of_nat (length bs)) as Hip.
  { intros a <- (Hl & _ & Hn). unfold used_len_ipv4. rewrite <- Hl, Hd. by rewrite decide_True, Hl. }
  unfold dhcp_packet_fields in Hin. clear Hd Hz.
  repeat (apply elem_of_cons in Hin as [->|Hin]); [apply Hip; auto..|apply Hstr; auto; done|apply Hstr; auto; done|by apply elem_of_nil in Hin].
Qed.

(** An empty value clears the field. *)
Lemma cleared_used_len : bs = [] -> field_used_len f stored_header (field_offset f) (field_len f) = 0.
Proof.
  intros Hb. pose proof stored_header_after as Hz. rewrite Hb in Hz. cbn [length] in Hz.
  assert (0 < field_len f -> stored_header (field_offset f) = 0) as H0 by (intros; apply Hz; lia).
  assert (field_len f = 4 -> used_len_ipv4 stored_header (field_offset f) 4 = 0) as Hip.
  { intros H4. unfold used_len_ipv4. cbn [mload]. rewrite !Hz by lia. done. }
  clear Hz. unfold dhcp_packet_fields in Hin.
  repeat (apply elem_of_cons in Hin as [->|Hin]); [by apply Hip..| | |by apply elem_of_nil in Hin].
  all: unfold used_len_string; cbn [field_used_len field_offset field_len] in *; cbn [Z.to_nat Pos.to_nat strnlen]; by rewrite H0.
Qed.
End fields.

(** A field depends on its own bytes only. *)
Lemma strnlen_ext fuel m1 m2 a max :
  (forall x, a <= x < a + max -> m1 x = m2 x) -> 0 <= max -> strnlen fuel m1 a max = strnlen fuel m2 a max.
Proof.
  revert a max. induction fuel as [|fuel IH]; intros a max Hm Hmax; cbn [strnlen]; [done|]. case_decide; [done|].
  rewrite (Hm a) by lia. case_decide; [done|]. rewrite IH; [done| |lia]. intros x Hx. apply Hm. lia.
Qed.

Lemma strnlen_bound fuel m a max n : strnlen fuel m a max = Some n -> 0 <= max -> 0 <= n <= max.
Proof.
  revert a max n. induction fuel as [|fuel IH]; intros a max n; cbn [strnlen]; [done|].
  case_decide; [intros [= <-]; lia|]. case_decide; [intros [= <-]; lia|]. destruct (strnlen fuel m (a + 1) (max - 1)) as [k|] eqn:Hk; [|done].
  intros [= <-] Hmax. apply IH in Hk; lia.
Qed.

Lemma field_local f m1 m2 :
  f ∈ dhcp_packet_fields -> (forall x, field_offset f <= x < field_offset f + field_len f -> m1 x = m2 x) ->
  field_used_len f m1 (field_offset f) (field_len f) = field_used_len f m2 (field_offset f) (field_len f).
Proof.
  intros Hin Hm. unfold dhcp_packet_fields in Hin.
  repeat (apply elem_of_cons in Hin as [->|Hin]); [..|by apply elem_of_nil in Hin]; cbn [field_offset field_len field_used_len] in *;
    unfold used_len_ipv4, used_len_string; try (by rewrite (mload_ext m1 m2)); by rewrite (strnlen_ext _ m1 m2).
Qed.

Lemma field_bound f m :
  f ∈ dhcp_packet_fields -> 0 <= field_used_len f m (field_offset f) (field_len f) <= field_len f.
Proof.
  intros Hin. assert (forall a len, 0 <= len -> 0 <= used_len_string m a len <= len) as Hs.
  { intros a len Hlen. unfold used_len_string. destruct (strnlen _ _ _ _) as [n|] eqn:Hn; cbn [default]; [|simpl; lia]. by eapply strnlen_bound. }
  unfold dhcp_packet_fields in Hin.
  repeat (apply elem_of_cons in Hin as [->|Hin]); [..|by apply elem_of_nil in Hin]; cbn [field_offset field_len field_used_len];
    try (by apply Hs); unfold used_len_ipv4; case_decide; lia.
Qed.

(** The fields do not overlap. *)
Lemma fields_disjoint f f' x :
  f ∈ dhcp_packet_fields -> f' ∈ dhcp_packet_fields -> field_tag f <> field_tag f' ->
  field_offset f' <= x < field_offset f' + field_len f' -> ~ (field_offset f <= x < field_offset f + field_len f).
Proof.
  intros Hf Hf' Hne. unfold dhcp_packet_fields in Hf, Hf'.
  repeat (apply elem_of_cons in Hf as [->|Hf]); [..|by apply elem_of_nil in Hf];
    (repeat (apply elem_of_cons in Hf' as [->|Hf']); [..|by apply elem_of_nil in Hf']); try (by destruct Hne);
    cbn [field_offset field_len]; unfold HDR_YIADDR, HDR_SIADDR, HDR_SNAME, HDR_FILE; lia.
Qed.

Lemma field_value_ext p p' tag :
  (forall f x, f ∈ dhcp_packet_fields -> field_tag f = tag -> field_offset f <= x < field_offset f + field_len f -> dhcphdr p' x = dhcphdr p x) ->
  field_value p' tag = field_value p tag.
Proof.
  intros Hm. unfold field_value. destruct (find_field_cases tag) as [->|(f & -> & Hin & Ht)]; [done|]. cbn [mbind option_bind].
  assert (forall x, field_offset f <= x < field_offset f + field_len f -> dhcphdr p' x = dhcphdr p x) as Hx by eauto.
  rewrite (field_local f _ (dhcphdr p) Hin Hx). pose proof (field_bound f (dhcphdr p) Hin). case_decide; [|done]. f_equal.
  apply mload_ext. intros x Hr. apply Hx. lia.
Qed.

(** Fetching a setting from a well-formed packet reads the field of the
    header if the setting has one that is filled in, and otherwise the first
    option with its tag: the length of the value, and as much of it as fits
    into the buffer. *)
Theorem dhcppkt_fetch_refines p items tail tag len :
  represents (options p) items tail -> plain_tag tag \/ is_Some (field_value p tag) -> 0 <= len ->
  dhcppkt_fetch p tag len =
    match packet_lookup p items tag with
    | Some bs => (Ok (Z.of_nat (length bs)), take (Z.to_nat len) bs)
    | None => (Err ENOENT, [])
    end.
Proof.
  intros Hr Ht Hlen. unfold dhcppkt_fetch, packet_lookup, field_value in *.
  assert (plain_tag tag -> dhcpopt_fetch (options p) tag len = match fetch_items tag items with
    | Some bs => (Ok (Z.of_nat (length bs)), take (Z.to_nat len) bs) | None => (Err ENOENT, []) end) as Hopt.
  { intros Hp. by eapply fetch_refines. }
  destruct (find_field_cases tag) as [Hf|(f & Hf & Hin & Htag)]; rewrite Hf in *; cbn [mbind option_bind] in *.
  { destruct Ht as [Ht|[? ?]]; [by apply Hopt|done]. }
  pose proof (field_bound f (dhcphdr p) Hin) as Hb. case_decide as Hne; cbn [decide] in Ht.
  - rewrite mload_length, Z2Nat.id by lia. f_equal. rewrite (mload_firstn _ _ (Z.to_nat (field_used_len f (dhcphdr p) (field_offset f) (field_len f)))) by (case_decide; lia).
    case_decide; [|done]. rewrite !take_ge; [done|rewrite mload_length; lia..].
  - destruct Ht as [Ht|[? ?]]; [by apply Hopt|done].
Qed.

(** ** Storing *)

Definition single (tag : Z) (items : list item) : Prop := (length (filter (is_opt tag) items) <= 1)%nat.

Lemma fetch_deleted tag items : single tag items -> fetch_items tag (store_items tag [] items) = None.
Proof.
  unfold single. intros Hs. destruct (items_split tag items) as [H|(pre & old & post & -> & H)].
  - rewrite store_items_absent by done. unfold new_item. rewrite decide_True, app_nil_r by done. by apply fetch_items_absent.
  - rewrite store_items_present by done. unfold new_item. rewrite decide_True by done. apply fetch_items_absent. apply Forall_app. split; [done|].
    rewrite filter_app, filter_cons_True in Hs by done. rewrite length_app in Hs. cbn [length] in Hs.
    assert (filter (is_opt tag) post = []) as Hp by (apply length_zero_iff_nil; lia). apply Forall_forall. intros i Hi Ho.
    assert (i ∈ filter (is_opt tag) post) as Hin by (by apply list_elem_of_filter). rewrite Hp in Hin. by apply elem_of_nil in Hin.
Qed.

(** Deleting an option never fails. *)
Lemma dhcpopt_delete o items tail tag :
  represents o items tail -> plain_tag tag ->
  exists o', dhcpopt_store dhcpopt_no_realloc o tag [] = (Ok tt, o') /\ represents o' (store_items tag [] items) tail.
Proof.
  intros Hr Ht. unfold dhcpopt_store. destruct (set_dhcp_option _ _ _ _ _) as [r o'] eqn:E.
  apply (set_plain_spec dhcpopt_no_realloc _ items tail) in E; [|done..]. destruct r as [off|e]; [by exists o'|].
  destruct E as [_ [[_ Hbig]|(n & Hn & _)]]; [simpl in Hbig; lia|]. unfold new_item in Hn. rewrite decide_True in Hn by done.
  destruct Hr as [? _]. cbn [encode_items fmap list_fmap mjoin list_join length] in Hn. lia.
Qed.

Lemma dhcpopt_store_plain o items tail tag bs :
  represents o items tail -> plain_tag tag ->
  match dhcpopt_store dhcpopt_no_realloc o tag bs with
  | (Ok _, o') => represents o' (store_items tag bs items) tail
  | (Err e, o') => o' = o /\ e = ENOSPC /\ (253 < Z.of_nat (length bs) \/ alloc_len o < used_len o + 2 + Z.of_nat (length bs))
  end.
Proof.
  intros Hr Ht. unfold dhcpopt_store. destruct (set_dhcp_option _ _ _ _ _) as [r o'] eqn:E.
  apply (set_plain_spec dhcpopt_no_realloc _ items tail) in E; [|done..]. destruct r as [off|e]; [done|].
  destruct E as [-> [[-> Hb]|(n & Hn & He)]]; [split_and!; [done|done|left; lia]|]. split; [done|]. split; [unfold dhcpopt_no_realloc in He; by case_decide; simplify_eq/=|].
  right. rewrite encode_new_item_length in Hn. unfold DHCP_OPTION_HEADER_LEN in Hn. case_decide; lia.
Qed.

(** C39: storing a setting with a tag from 1 to 254, in an option or, for the
    TFTP server name and the boot file name, in its field of the header, updates
    the map that a well-formed packet stands for: the setting has the new value,
    or none if the value is empty and the tag was there at most once, every
    other setting keeps its value, and the packet stays well-formed.  The store
    fails only if the value is longer than an option or the field can be, or
    does not fit into the rest of the block, and then the packet is unchanged.
    Encapsulated tags, among them the two address fields of the header, are not
    covered: a store of one that fails may leave its encapsulator behind
    ([dhcppkt_store_leftover]). *)
Theorem dhcppkt_store_refines p items tail tag bs rc p' :
  represents (options p) items tail -> plain_tag tag -> field_ok tag bs -> dhcppkt_store p tag bs = (rc, p') ->
  match rc with
  | Err e =>
    e = ENOSPC /\ p' = p /\
    match find_dhcp_packet_field tag with
    | Some f => field_len f < Z.of_nat (length bs)
    | None => 253 < Z.of_nat (length bs) \/ alloc_len (options p) < used_len (options p) + 2 + Z.of_nat (length bs)
    end
  | Ok _ =>
    exists items', represents (options p') items' tail /\
      (bs <> [] -> packet_lookup p' items' tag = Some bs) /\
      (bs = [] -> single tag items -> packet_lookup p' items' tag = None) /\
      (forall tag', tag' <> tag -> packet_lookup p' items' tag' = packet_lookup p items tag')
  end.
Proof.
  intros Hr Ht Hok. unfold dhcppkt_store. destruct (find_field_cases tag) as [Hf|(f & Hf & Hin & Htag)]; rewrite Hf.
  - pose proof (dhcpopt_store_plain _ _ _ _ bs Hr Ht) as Hs. destruct (dhcpopt_store _ _ _ _) as [[[]|e] o']; intros [= <- <-].
    2:{ destruct Hs as (-> & -> & Hroom). split_and!; [done|by destruct p|done]. }
    exists (store_items tag bs items). cbn [options]. split; [done|]. unfold packet_lookup.
    assert (field_value (DhcpPacket (dhcphdr p) o') tag = None) as -> by (unfold field_value; by rewrite Hf). split_and!.
    + intros Hne. by rewrite fetch_store_same.
    + intros -> Hsg. by apply fetch_deleted.
    + intros tag' Hne. rewrite fetch_store_other by done. by rewrite (field_value_ext p).
  - case_decide as Hfit; intros [= <- <-]; [split_and!; [done|done|lia]|]. destruct (dhcpopt_delete _ _ _ _ Hr Ht) as (o' & -> & Hr'). cbn [snd].
    fold (stored_header p f bs). exists (store_items tag [] items). cbn [options]. split; [done|]. unfold packet_lookup.
    assert (Z.of_nat (length bs) <= field_len f) as Hfit' by lia. subst tag. split_and!.
    + intros Hne. unfold field_value. rewrite Hf. cbn [mbind option_bind dhcphdr]. rewrite (stored_used_len p f Hin bs Hfit' Hok Hne).
      rewrite decide_True by (destruct bs; simpl; [done|lia]). rewrite Nat2Z.id. by rewrite stored_header_data.
    + intros -> Hsg. unfold field_value. rewrite Hf. cbn [mbind option_bind dhcphdr]. rewrite (cleared_used_len p f Hin []) by done.
      by apply fetch_deleted.
    + intros tag' Hne. rewrite fetch_store_other by done. rewrite (field_value_ext p); [done|]. intros f' x Hin' <- Hx. cbn [dhcphdr].
      apply stored_header_outside; [done|]. eapply (fields_disjoint f f'); [done|done| |done]. by intros E; rewrite E in Hne.
Qed.

(** ** Reading a buffer *)

(** A packet in a buffer: its header, well-formed options, an optional end marker, and pads. *)
Lemma dhcppkt_init_represents m len items tail k :
  HDR_OPTIONS <= len < HDR_OPTIONS + 2 ^ 31 ->
  mload m HDR_OPTIONS (Z.to_nat (len - HDR_OPTIONS)) = encode_items items ++ tail ++ replicate k DHCP_PAD ->
  Forall item_ok items -> ends_in_option items tail ->
  represents (options (dhcppkt_init m len)) items tail /\ dhcphdr (dhcppkt_init m len) = m.
Proof.
  intros Hlen Hm Hok He. split; [|done]. unfold dhcppkt_init. cbn [options]. unfold HDR_OPTIONS in *. rewrite (wrap_small 64) by zlia.
  eapply dhcpopt_init_represents; [lia| |done|done]. etransitivity; [|exact Hm]. apply mload_shift. intros i Hi. f_equal. 
Qed.

(** ** Examples *)

Module PacketSample.
(** A boot file name in the header, and a message type in the options. *)
Definition packet : dhcp_packet := DhcpPacket (memcpy (fun _ => 0) HDR_FILE [97; 98]) (DhcpOptions (mem_of [53; 1; 5; 255]) 4 64).

Lemma packet_represents : represents (options packet) [Opt 53 [5]] [255].
Proof. split_and!; [done..| |done]. repeat constructor; done. Qed.
End PacketSample.

Lemma dhcppkt_fetch_refines_witness : dhcppkt_fetch PacketSample.packet DHCP_BOOTFILE_NAME 1 = (Ok 2, [97]).
Proof.
  rewrite (dhcppkt_fetch_refines PacketSample.packet [Opt 53 [5]] [255] DHCP_BOOTFILE_NAME 1).
  - vm_compute. reflexivity.
  - exact PacketSample.packet_represents.
  - left. vm_compute. split; congruence.
  - lia.
Defined.

Lemma dhcppkt_store_refines_witness :
  exists items', packet_lookup (dhcppkt_store PacketSample.packet DHCP_BOOTFILE_NAME [99]).2 items' DHCP_BOOTFILE_NAME = Some [99].
Proof.
  destruct (dhcppkt_store_refines PacketSample.packet [Opt 53 [5]] [255] DHCP_BOOTFILE_NAME [99] (Ok tt) (dhcppkt_store PacketSample.packet DHCP_BOOTFILE_NAME [99]).2)
    as (items' & _ & H & _).
  - exact PacketSample.packet_represents.
  - vm_compute. split; congruence.
  - split; [intros _; repeat constructor; discriminate|]. intros [H|H]; vm_compute in H; discriminate H.
  - apply injective_projections; [vm_compute; reflexivity|reflexivity].
  - exists items'. apply H. discriminate.
Defined.

(** An encapsulated option for which there is no room leaves the encapsulator that was made for it. *)
Example dhcppkt_store_leftover :
  let p := DhcpPacket (fun _ => 0) (DhcpOptions (mem_of [53; 1; 5; 255]) 4 7) in
  let '(rc, p') := dhcppkt_store p (DHCP_ENCAP_OPT DHCP_EB_ENCAP 1) [9] in
  rc = Err ENOSPC /\ mload (data (options p')) 0 (Z.to_nat (used_len (options p'))) = [53; 1; 5; 175; 1; 255; 255].
Proof. split; vm_compute; reflexivity. Qed.
