(* ===== verification/Dhcp.v ===== *)
(** * The DHCP client (net/udp/dhcp.c)

    A session goes through the states discovery, request and, if a ProxyDHCP
    server answered without boot options, ProxyDHCP; a PXE boot server
    discovery has a state of its own.  What a session sends, registers as
    settings and reports at its end is recorded in it.  What a handler asks of
    the rest of the firmware (time, link state, buffers, other settings, the
    result of registering settings) is an [environment], another one for each
    event.  IPv4 addresses are numbers.

    The theorems: a session that ends without an error holds a lease, of the
    last offer of the highest priority, that the same server acknowledged for
    its transaction and its hardware address ([dhcp_lease_sound]); until it
    ends its timer runs ([dhcp_session_settled]).  A boot server
    discovery ends with a server of the requested type ([dhcp_pxebs_sound]),
    and the list of boot servers fits the room that is reserved for it
    ([pxebs_list_correct]).  [dhcp_short_packet] is an execution in which a
    session takes an offer from memory that is not part of the packet. *)

From S2P Require Import Prelude CMem Strings DhcpOpts DhcpPkt.

Definition BOOTPS_PORT : Z := 67.
Definition PXE_PORT : Z := 4011.
Definition INADDR_BROADCAST : Z := 4294967295.

Definition DHCPDISCOVER : Z := 1.
Definition DHCPOFFER : Z := 2.
Definition DHCPREQUEST : Z := 3.
Definition DHCPACK : Z := 5.

Definition BOOTP_REQUEST : Z := 1.
Definition BOOTP_REPLY : Z := 2.
Definition BOOTP_FL_BROADCAST : Z := 32768.
Definition DHCP_MAGIC_COOKIE : Z := 1669485411.
Definition DHCP_MIN_LEN : Z := 552.

Definition DHCP_VENDOR_ENCAP : Z := 43.
Definition DHCP_REQUESTED_ADDRESS : Z := 50.
Definition DHCP_MESSAGE_TYPE : Z := 53.
Definition DHCP_SERVER_IDENTIFIER : Z := 54.
Definition DHCP_VENDOR_CLASS_ID : Z := 60.
Definition DHCP_CLIENT_ID : Z := 61.
Definition DHCP_CLIENT_UUID : Z := 97.
Definition DHCP_CLIENT_UUID_TYPE : Z := 0.
Definition DHCP_PXE_BOOT_MENU : Z := DHCP_ENCAP_OPT DHCP_VENDOR_ENCAP 9.
Definition DHCP_PXE_BOOT_MENU_ITEM : Z := DHCP_ENCAP_OPT DHCP_VENDOR_ENCAP 71.
Definition DHCP_EB_PRIORITY : Z := DHCP_ENCAP_OPT DHCP_EB_ENCAP 1.
Definition DHCP_EB_NO_PXEDHCP : Z := DHCP_ENCAP_OPT DHCP_EB_ENCAP 176.
Definition DHCP_EB_BUS_ID : Z := DHCP_ENCAP_OPT DHCP_EB_ENCAP 177.

Definition TICKS_PER_SEC : Z := 1024.
Definition DHCP_DISC_START_TIMEOUT_SEC : Z := 1.
Definition DHCP_DISC_END_TIMEOUT_SEC : Z := 10.
Definition DHCP_DISC_MAX_DEFERRALS : Z := 60.
Definition DHCP_DISC_PROXY_TIMEOUT_SEC : Z := 2.
Definition DHCP_REQ_START_TIMEOUT_SEC : Z := 0.
Definition DHCP_REQ_END_TIMEOUT_SEC : Z := 10.
Definition DHCP_PROXY_START_TIMEOUT_SEC : Z := 0.
Definition DHCP_PROXY_END_TIMEOUT_SEC : Z := 10.
Definition DHCP_REQ_PROXY_TIMEOUT_SEC : Z := 2.
Definition PXEBS_START_TIMEOUT_SEC : Z := 1.
Definition PXEBS_END_TIMEOUT_SEC : Z := 10.
Definition PXEBS_MAX_TIMEOUT_SEC : Z := 3.

Definition PXEBS_NO_BROADCAST : Z := 1.
Definition PXEBS_NO_MULTICAST : Z := 2.
Definition PXEBS_NO_UNKNOWN_SERVERS : Z := 4.

(** ** Sessions *)

Inductive dhcp_session_state := dhcp_state_discover | dhcp_state_request | dhcp_state_proxy | dhcp_state_pxebs.

#[export] Instance dhcp_session_state_eq_dec : EqDecision dhcp_session_state.
Proof. solve_decision. Defined.

Definition tx_msgtype (s : dhcp_session_state) : Z :=
  match s with dhcp_state_discover => DHCPDISCOVER | _ => DHCPREQUEST end.

Definition timeout_sec (s : dhcp_session_state) : Z * Z :=
  match s with
  | dhcp_state_discover => (DHCP_DISC_START_TIMEOUT_SEC, DHCP_DISC_END_TIMEOUT_SEC)
  | dhcp_state_request => (DHCP_REQ_START_TIMEOUT_SEC, DHCP_REQ_END_TIMEOUT_SEC)
  | dhcp_state_proxy => (DHCP_PROXY_START_TIMEOUT_SEC, DHCP_PROXY_END_TIMEOUT_SEC)
  | dhcp_state_pxebs => (PXEBS_START_TIMEOUT_SEC, PXEBS_END_TIMEOUT_SEC)
  end.

(** How the retry timer was last started. *)
Inductive timer_state := Stopped | Nodelay | Backoff | Fixed (ticks : Z).

(** The blocks that packets are registered under. *)
Inductive settings_name := DHCP_SETTINGS_NAME | PROXYDHCP_SETTINGS_NAME | PXEBS_SETTINGS_NAME.

Record net_device := NetDevice {
  nd_ll_proto : Z;
  nd_ll_addr : list Z;
  nd_name_only : bool;
}.

(** What a handler asks of the rest of the firmware. *)
Record environment := Environment {
  currticks : Z;
  netdev_link_blocked : bool;
  ipv4_has_any_addr : bool;
  iob_tailroom : option Z;
  xfer_deliver : result unit;
  dhcp_features : list Z;
  busid : list Z;
  client_uuid : option (list Z);
  request_settings : list (Z * option (list Z));
  register_settings : settings_name -> result unit;
}.

Record dhcp_session := DhcpSession {
  s_state : dhcp_session_state;
  s_xid : Z;
  s_local : Z;
  s_offer : Z;
  s_server : Z;
  s_priority : Z;
  s_no_pxedhcp : Z;
  s_proxy_server : Z;
  s_proxy_offer : option dhcp_packet;
  s_proxy_priority : Z;
  s_pxe_type : list Z;
  s_pxe_attempt : list Z;
  s_pxe_accept : option (list Z);
  s_timer : timer_state;
  s_limits : Z * Z;
  s_count : Z;
  s_start : Z;
  s_sent : list (Z * Z * list Z);
  s_registered : list (settings_name * dhcp_packet);
  s_done : option (result unit);
}.

Definition with_state (st : dhcp_session_state) (s : dhcp_session) : dhcp_session :=
  DhcpSession st (s_xid s) (s_local s) (s_offer s) (s_server s) (s_priority s) (s_no_pxedhcp s) (s_proxy_server s) (s_proxy_offer s)
    (s_proxy_priority s) (s_pxe_type s) (s_pxe_attempt s) (s_pxe_accept s) (s_timer s) (s_limits s) (s_count s) (s_start s) (s_sent s) (s_registered s) (s_done s).
Definition with_local (a : Z) (s : dhcp_session) : dhcp_session :=
  DhcpSession (s_state s) (s_xid s) a (s_offer s) (s_server s) (s_priority s) (s_no_pxedhcp s) (s_proxy_server s) (s_proxy_offer s)
    (s_proxy_priority s) (s_pxe_type s) (s_pxe_attempt s) (s_pxe_accept s) (s_timer s) (s_limits s) (s_count s) (s_start s) (s_sent s) (s_registered s) (s_done s).
Definition with_offer (offer server priority no_pxedhcp : Z) (s : dhcp_session) : dhcp_session :=
  DhcpSession (s_state s) (s_xid s) (s_local s) offer server priority no_pxedhcp (s_proxy_server s) (s_proxy_offer s)
    (s_proxy_priority s) (s_pxe_type s) (s_pxe_attempt s) (s_pxe_accept s) (s_timer s) (s_limits s) (s_count s) (s_start s) (s_sent s) (s_registered s) (s_done s).
Definition with_proxy_offer (server : Z) (p : dhcp_packet) (priority : Z) (s : dhcp_session) : dhcp_session :=
  DhcpSession (s_state s) (s_xid s) (s_local s) (s_offer s) (s_server s) (s_priority s) (s_no_pxedhcp s) server (Some p)
    priority (s_pxe_type s) (s_pxe_attempt s) (s_pxe_accept s) (s_timer s) (s_limits s) (s_count s) (s_start s) (s_sent s) (s_registered s) (s_done s).
Definition with_pxe_attempt (l : list Z) (s : dhcp_session) : dhcp_session :=
  DhcpSession (s_state s) (s_xid s) (s_local s) (s_offer s) (s_server s) (s_priority s) (s_no_pxedhcp s) (s_proxy_server s) (s_proxy_offer s)
    (s_proxy_priority s) (s_pxe_type s) l (s_pxe_accept s) (s_timer s) (s_limits s) (s_count s) (s_start s) (s_sent s) (s_registered s) (s_done s).
Definition with_timer (t : timer_state) (s : dhcp_session) : dhcp_session :=
  DhcpSession (s_state s) (s_xid s) (s_local s) (s_offer s) (s_server s) (s_priority s) (s_no_pxedhcp s) (s_proxy_server s) (s_proxy_offer s)
    (s_proxy_priority s) (s_pxe_type s) (s_pxe_attempt s) (s_pxe_accept s) t (s_limits s) (s_count s) (s_start s) (s_sent s) (s_registered s) (s_done s).
Definition with_limits (l : Z * Z) (s : dhcp_session) : dhcp_session :=
  DhcpSession (s_state s) (s_xid s) (s_local s) (s_offer s) (s_server s) (s_priority s) (s_no_pxedhcp s) (s_proxy_server s) (s_proxy_offer s)
    (s_proxy_priority s) (s_pxe_type s) (s_pxe_attempt s) (s_pxe_accept s) (s_timer s) l (s_count s) (s_start s) (s_sent s) (s_registered s) (s_done s).
Definition with_count (c : Z) (s : dhcp_session) : dhcp_session :=
  DhcpSession (s_state s) (s_xid s) (s_local s) (s_offer s) (s_server s) (s_priority s) (s_no_pxedhcp s) (s_proxy_server s) (s_proxy_offer s)
    (s_proxy_priority s) (s_pxe_type s) (s_pxe_attempt s) (s_pxe_accept s) (s_timer s) (s_limits s) c (s_start s) (s_sent s) (s_registered s) (s_done s).
Definition with_start (t : Z) (s : dhcp_session) : dhcp_session :=
  DhcpSession (s_state s) (s_xid s) (s_local s) (s_offer s) (s_server s) (s_priority s) (s_no_pxedhcp s) (s_proxy_server s) (s_proxy_offer s)
    (s_proxy_priority s) (s_pxe_type s) (s_pxe_attempt s) (s_pxe_accept s) (s_timer s) (s_limits s) (s_count s) t (s_sent s) (s_registered s) (s_done s).
Definition with_sent (p : Z * Z * list Z) (s : dhcp_session) : dhcp_session :=
  DhcpSession (s_state s) (s_xid s) (s_local s) (s_offer s) (s_server s) (s_priority s) (s_no_pxedhcp s) (s_proxy_server s) (s_proxy_offer s)
    (s_proxy_priority s) (s_pxe_type s) (s_pxe_attempt s) (s_pxe_accept s) (s_timer s) (s_limits s) (s_count s) (s_start s) (s_sent s ++ [p]) (s_registered s) (s_done s).
Definition with_registered (n : settings_name) (p : dhcp_packet) (s : dhcp_session) : dhcp_session :=
  DhcpSession (s_state s) (s_xid s) (s_local s) (s_offer s) (s_server s) (s_priority s) (s_no_pxedhcp s) (s_proxy_server s) (s_proxy_offer s)
    (s_proxy_priority s) (s_pxe_type s) (s_pxe_attempt s) (s_pxe_accept s) (s_timer s) (s_limits s) (s_count s) (s_start s) (s_sent s) (s_registered s ++ [(n, p)]) (s_done s).
Definition with_done (rc : result unit) (s : dhcp_session) : dhcp_session :=
  DhcpSession (s_state s) (s_xid s) (s_local s) (s_offer s) (s_server s) (s_priority s) (s_no_pxedhcp s) (s_proxy_server s) (s_proxy_offer s)
    (s_proxy_priority s) (s_pxe_type s) (s_pxe_attempt s) (s_pxe_accept s) (s_timer s) (s_limits s) (s_count s) (s_start s) (s_sent s) (s_registered s)
    (match s_done s with None => Some rc | Some rc => Some rc end).

Definition dhcp_finished (rc : result unit) (s : dhcp_session) : dhcp_session := with_done rc (with_timer Stopped s).

Definition dhcp_set_state (e : environment) (st : dhcp_session_state) (s : dhcp_session) : dhcp_session :=
  let s := with_start (currticks e) (with_state st s) in
  let s := with_timer Stopped s in
  let s := with_limits ((timeout_sec st).1 * TICKS_PER_SEC, (timeout_sec st).2 * TICKS_PER_SEC) s in
  with_timer Nodelay s.

(** ** Reading packets *)

Definition get_addr (p : dhcp_packet) (offset : Z) : Z := get32 (mload (dhcphdr p) offset 4) 0.
Definition yiaddr (p : dhcp_packet) : Z := get_addr p HDR_YIADDR.
Definition siaddr (p : dhcp_packet) : Z := get_addr p HDR_SIADDR.

(** A setting that is fetched into a variable of [n] bytes which are zero before. *)
Definition fetch_var (p : dhcp_packet) (tag : Z) (n : nat) : list Z :=
  let bs := (dhcppkt_fetch p tag (Z.of_nat n)).2 in bs ++ replicate (n - length bs) 0.

(** [dhcppkt_fetch ( dhcppkt, tag, NULL, 0 ) > 0] *)
Definition has_setting (p : dhcp_packet) (tag : Z) : bool :=
  match (dhcppkt_fetch p tag 0).1 with Ok len => bool_decide (0 < len) | Err _ => false end.

Definition dhcp_has_pxeopts (p : dhcp_packet) : bool :=
  if decide (siaddr p <> 0 /\ has_setting p DHCP_BOOTFILE_NAME = true) then true
  else has_setting p DHCP_PXE_BOOT_MENU.

(** [strncmp ( "PXEClient", vci, 9 ) == 0], for a class identifier of at least nine bytes. *)
Definition PXEClient : list Z := [80; 88; 69; 67; 108; 105; 101; 110; 116].
Definition has_pxeclient (p : dhcp_packet) : bool :=
  match dhcppkt_fetch p DHCP_VENDOR_CLASS_ID 9 with
  | (Ok vci_len, vci) => bool_decide (9 <= vci_len /\ vci = PXEClient)
  | (Err _, _) => false
  end.

(** ** Handlers for received packets

    A packet comes with the address and port of its sender, its message type
    and the identifiers of the server. *)

Record rx_info := RxInfo {
  rx_peer : Z;
  rx_port : Z;
  rx_msgtype : Z;
  rx_server_id : Z;
  rx_pseudo_id : Z;
}.

Definition pkt_priority (p : dhcp_packet) : Z := sext 8 (get8 (fetch_var p DHCP_EB_PRIORITY 1) 0).
Definition pkt_no_pxedhcp (p : dhcp_packet) : Z := get8 (fetch_var p DHCP_EB_NO_PXEDHCP 1) 0.

Definition elapsed (e : environment) (s : dhcp_session) : Z := u64 (currticks e - s_start s).

Definition dhcp_discovery_rx (e : environment) (p : dhcp_packet) (i : rx_info) (s : dhcp_session) : dhcp_session :=
  let ip := yiaddr p in
  let priority := pkt_priority p in
  let s := if decide (ip <> 0 /\ rx_port i = BOOTPS_PORT /\ (rx_msgtype i = DHCPOFFER \/ rx_msgtype i = 0) /\ s_priority s <= priority)
           then with_offer ip (rx_server_id i) priority (pkt_no_pxedhcp p) s else s in
  let s := if decide (rx_pseudo_id i <> 0 /\ has_pxeclient p = true /\ s_proxy_priority s <= priority)
           then with_proxy_offer (rx_pseudo_id i) p priority s else s in
  if decide (s_offer s = 0) then s else
  if decide (s_no_pxedhcp s <> 0 \/ is_Some (s_proxy_offer s) \/ DHCP_DISC_PROXY_TIMEOUT_SEC * TICKS_PER_SEC < elapsed e s)
  then dhcp_set_state e dhcp_state_request s else s.

Definition dhcp_request_rx (e : environment) (p : dhcp_packet) (i : rx_info) (s : dhcp_session) : dhcp_session :=
  let ip := yiaddr p in
  if decide (rx_port i <> BOOTPS_PORT) then s else
  if decide (rx_msgtype i <> 0 /\ rx_msgtype i <> DHCPACK) then s else
  if decide (rx_server_id i <> s_server s) then s else
  if decide (ip <> s_offer s) then s else
  let s := with_local ip s in
  match register_settings e DHCP_SETTINGS_NAME with
  | Err rc => dhcp_finished (Err rc) s
  | Ok _ =>
    let s := with_registered DHCP_SETTINGS_NAME p s in
    match s_proxy_offer s with
    | Some proxy_offer =>
      if decide (s_no_pxedhcp s = 0) then
        if dhcp_has_pxeopts proxy_offer then
          match register_settings e PROXYDHCP_SETTINGS_NAME with
          | Err rc => dhcp_finished (Err rc) s
          | Ok _ => dhcp_finished (Ok tt) (with_registered PROXYDHCP_SETTINGS_NAME proxy_offer s)
          end
        else dhcp_set_state e dhcp_state_proxy s
      else dhcp_finished (Ok tt) s
    | None => dhcp_finished (Ok tt) s
    end
  end.

Definition dhcp_proxy_rx (e : environment) (p : dhcp_packet) (i : rx_info) (s : dhcp_session) : dhcp_session :=
  if decide (rx_port i <> PXE_PORT) then s else
  if decide (rx_msgtype i <> DHCPOFFER /\ rx_msgtype i <> DHCPACK) then s else
  if decide (rx_pseudo_id i <> s_proxy_server s) then s else
  if dhcp_has_pxeopts p then
    match register_settings e PROXYDHCP_SETTINGS_NAME with
    | Err rc => dhcp_finished (Err rc) s
    | Ok _ => dhcp_finished (Ok tt) (with_registered PROXYDHCP_SETTINGS_NAME p s)
    end
  else s.

(** A list of addresses ends at the first zero. *)
Fixpoint accept_loop (accept : list Z) (bs : Z) : bool :=
  match accept with
  | [] => false
  | a :: accept => if decide (a = 0) then false else if decide (a = bs) then true else accept_loop accept bs
  end.

Definition dhcp_pxebs_accept (s : dhcp_session) (bs : Z) : bool :=
  match s_pxe_accept s with None => true | Some accept => accept_loop accept bs end.

Definition dhcp_pxebs_rx (e : environment) (p : dhcp_packet) (i : rx_info) (s : dhcp_session) : dhcp_session :=
  let menu_item := fetch_var p DHCP_PXE_BOOT_MENU_ITEM 4 in
  if decide (rx_port i <> BOOTPS_PORT /\ rx_port i <> PXE_PORT) then s else
  if decide (rx_msgtype i <> DHCPACK) then s else
  if decide (take 2 menu_item <> s_pxe_type s) then s else
  if dhcp_pxebs_accept s (rx_pseudo_id i) then
    match register_settings e PXEBS_SETTINGS_NAME with
    | Err rc => dhcp_finished (Err rc) s
    | Ok _ => dhcp_finished (Ok tt) (with_registered PXEBS_SETTINGS_NAME p s)
    end
  else s.

Definition dhcp_rx (e : environment) (p : dhcp_packet) (i : rx_info) (s : dhcp_session) : dhcp_session :=
  match s_state s with
  | dhcp_state_discover => dhcp_discovery_rx e p i s
  | dhcp_state_request => dhcp_request_rx e p i s
  | dhcp_state_proxy => dhcp_proxy_rx e p i s
  | dhcp_state_pxebs => dhcp_pxebs_rx e p i s
  end.

(** ** Packet construction *)

Section packets.
Context (netdev : net_device) (arch : Z) (ndi : Z * Z * Z).

(** [dhcp_op], for the message types that a client sends. *)
Definition dhcp_op (msgtype : Z) : Z :=
  if decide (msgtype = DHCPOFFER \/ msgtype = DHCPACK \/ msgtype = 6) then BOOTP_REPLY else BOOTP_REQUEST.

Definition digit (v k : Z) : Z := 48 + (v / k) `mod` 10.
Definition DHCP_VENDOR_PXECLIENT : list Z :=
  PXEClient ++ [58; 65; 114; 99; 104; 58] ++ [digit arch 10000; digit arch 1000; digit arch 100; digit arch 10; digit arch 1] ++
  [58; 85; 78; 68; 73; 58] ++ [digit ndi.1.2 100; digit ndi.1.2 10; digit ndi.1.2 1; digit ndi.2 100; digit ndi.2 10; digit ndi.2 1].

(** The raw options are those of [dhcp_request_items], with an end marker. *)
Definition dhcp_request_items : list item :=
  [Opt DHCP_MESSAGE_TYPE [0]; Opt 57 (be16 (1500 - 20 - 8)); Opt 93 (be16 arch); Opt 94 [ndi.1.1; ndi.1.2; ndi.2];
   Opt DHCP_VENDOR_CLASS_ID DHCP_VENDOR_PXECLIENT; Opt 77 [105; 80; 88; 69];
   Opt 55 [1; 3; 6; 7; 12; 15; 17; 26; DHCP_VENDOR_ENCAP; DHCP_VENDOR_CLASS_ID; DHCP_TFTP_SERVER_NAME; DHCP_BOOTFILE_NAME; 119;
           128; 129; 130; 131; 132; 133; 134; 135; DHCP_EB_ENCAP; 203]].
Definition dhcp_request_options_data : list Z := encode_items dhcp_request_items ++ [DHCP_END].

(** The packet is built in a buffer of [max_len] bytes. *)
Definition dhcp_create_packet (e : environment) (msgtype xid : Z) (opts : list Z) (data : mem) (max_len : Z) : result unit * dhcp_packet :=
  if decide (max_len < HDR_OPTIONS + Z.of_nat (length opts)) then (Err ENOSPC, DhcpPacket data (DhcpOptions data 0 0)) else
  let m := memset data 0 0 max_len in
  let m := memcpy m HDR_XID (be32 xid) in
  let m := memcpy m HDR_MAGIC (be32 DHCP_MAGIC_COOKIE) in
  let m := mset m HDR_HTYPE (u8 (nd_ll_proto netdev)) in
  let m := mset m HDR_OP (dhcp_op msgtype) in
  let m := mset m HDR_HLEN (u8 (Z.of_nat (length (nd_ll_addr netdev)))) in
  let m := memcpy m HDR_CHADDR (nd_ll_addr netdev) in
  let m := memcpy m HDR_OPTIONS opts in
  let flags := if decide (nd_name_only netdev = true \/ ipv4_has_any_addr e = true) then BOOTP_FL_BROADCAST else 0 in
  let m := memcpy m HDR_FLAGS (be16 flags) in
  dhcppkt_store (dhcppkt_init m max_len) DHCP_MESSAGE_TYPE [msgtype].

(** Stores in sequence, up to the first that fails. *)
Fixpoint store_all (p : dhcp_packet) (l : list (Z * list Z)) : result unit * dhcp_packet :=
  match l with
  | [] => (Ok tt, p)
  | (tag, bs) :: l =>
    match dhcppkt_store p tag bs with
    | (Ok _, p) => store_all p l
    | (Err e, p) => (Err e, p)
    end
  end.

Definition uuid_mangle (uuid : list Z) : list Z :=
  rev (take 4 uuid) ++ rev (take 2 (drop 4 uuid)) ++ rev (take 2 (drop 6 uuid)) ++ drop 8 uuid.

Definition request_stores (e : environment) : list (Z * list Z) :=
  [(DHCP_EB_ENCAP, dhcp_features e); (DHCP_EB_BUS_ID, busid e); (DHCP_CLIENT_ID, u8 (nd_ll_proto netdev) :: nd_ll_addr netdev)] ++
  match client_uuid e with Some uuid => [(DHCP_CLIENT_UUID, DHCP_CLIENT_UUID_TYPE :: uuid_mangle uuid)] | None => [] end ++
  omap (fun '(tag, value) => (fun raw => (tag, raw)) <$> value) (request_settings e).

Definition with_hdr (p : dhcp_packet) (offset : Z) (bs : list Z) : dhcp_packet := DhcpPacket (memcpy (dhcphdr p) offset bs) (options p).

Definition dhcp_create_request (e : environment) (msgtype xid ciaddr : Z) (data : mem) (max_len : Z) : result unit * dhcp_packet :=
  match dhcp_create_packet e msgtype xid dhcp_request_options_data data max_len with
  | (Err rc, p) => (Err rc, p)
  | (Ok _, p) => store_all (with_hdr p HDR_CIADDR (be32 ciaddr)) (request_stores e)
  end.

(** What the state adds to the packet, and where it is sent. *)
Definition dhcp_discovery_tx (s : dhcp_session) (p : dhcp_packet) : result (Z * Z) * dhcp_packet :=
  (Ok (INADDR_BROADCAST, BOOTPS_PORT), p).

Definition dhcp_request_tx (s : dhcp_session) (p : dhcp_packet) : result (Z * Z) * dhcp_packet :=
  match store_all p [(DHCP_SERVER_IDENTIFIER, be32 (s_server s)); (DHCP_REQUESTED_ADDRESS, be32 (s_offer s))] with
  | (Ok _, p) => (Ok (INADDR_BROADCAST, BOOTPS_PORT), p)
  | (Err rc, p) => (Err rc, p)
  end.

Definition dhcp_proxy_tx (s : dhcp_session) (p : dhcp_packet) : result (Z * Z) * dhcp_packet :=
  match dhcppkt_store p DHCP_SERVER_IDENTIFIER (be32 (s_proxy_server s)) with
  | (Ok _, p) => (Ok (s_proxy_server s, PXE_PORT), p)
  | (Err rc, p) => (Err rc, p)
  end.

Definition dhcp_pxebs_tx (s : dhcp_session) (p : dhcp_packet) : result (Z * Z) * dhcp_packet :=
  let addr := hd 0 (s_pxe_attempt s) in
  match dhcppkt_store p DHCP_PXE_BOOT_MENU_ITEM (s_pxe_type s ++ [0; 0]) with
  | (Ok _, p) => (Ok (addr, if decide (addr = INADDR_BROADCAST) then BOOTPS_PORT else PXE_PORT), p)
  | (Err rc, p) => (Err rc, p)
  end.

(** The [tx] operation of the state of the session. *)
Definition state_tx (s : dhcp_session) (p : dhcp_packet) : result (Z * Z) * dhcp_packet :=
  match s_state s with
  | dhcp_state_discover => dhcp_discovery_tx s p
  | dhcp_state_request => dhcp_request_tx s p
  | dhcp_state_proxy => dhcp_proxy_tx s p
  | dhcp_state_pxebs => dhcp_pxebs_tx s p
  end.

Definition packet_bytes (p : dhcp_packet) : list Z :=
  mload (dhcphdr p) 0 (Z.to_nat HDR_OPTIONS) ++ mload (data (options p)) 0 (Z.to_nat (used_len (options p))).

(** The contents of a new buffer are arbitrary.  The packets that the interface took are recorded. *)
Definition dhcp_tx (e : environment) (buf : mem) (s : dhcp_session) : result unit * dhcp_session :=
  let s := with_timer Backoff s in
  match iob_tailroom e with
  | None => (Err ENOMEM, s)
  | Some tailroom =>
    match dhcp_create_request e (tx_msgtype (s_state s)) (s_xid s) (s_local s) buf tailroom with
    | (Err rc, _) => (Err rc, s)
    | (Ok _, p) =>
      let secs := Z.lor (Z.lor (Z.shiftl (s_count s) 2) (if decide (s_offer s <> 0) then 2 else 0))
                        (if decide (is_Some (s_proxy_offer s)) then 1 else 0) in
      let p := with_hdr p HDR_SECS (be16 secs) in
      match state_tx s p with
      | (Err rc, _) => (Err rc, s)
      | (Ok (addr, port), p) =>
        match xfer_deliver e with
        | Err rc => (Err rc, s)
        | Ok _ => (Ok tt, with_sent (addr, port, packet_bytes p) s)
        end
      end
    end
  end.

(** ** Timer *)

Definition dhcp_discovery_expired (e : environment) (buf : mem) (s : dhcp_session) : dhcp_session :=
  let waited := elapsed e s in
  if decide (netdev_link_blocked e = true /\ s_count s <= DHCP_DISC_MAX_DEFERRALS) then
    with_timer (Fixed (DHCP_DISC_START_TIMEOUT_SEC * TICKS_PER_SEC)) (with_start (currticks e) s)
  else if decide (s_offer s <> 0 /\ DHCP_DISC_PROXY_TIMEOUT_SEC * TICKS_PER_SEC < waited) then
    dhcp_set_state e dhcp_state_request s
  else (dhcp_tx e buf s).2.

Definition dhcp_request_expired (e : environment) (buf : mem) (s : dhcp_session) : dhcp_session := (dhcp_tx e buf s).2.

Definition dhcp_proxy_expired (e : environment) (buf : mem) (s : dhcp_session) : dhcp_session :=
  if decide (DHCP_REQ_PROXY_TIMEOUT_SEC * TICKS_PER_SEC < elapsed e s) then dhcp_finished (Ok tt) s
  else (dhcp_tx e buf s).2.

Definition dhcp_pxebs_expired (e : environment) (buf : mem) (s : dhcp_session) : dhcp_session :=
  if decide (PXEBS_MAX_TIMEOUT_SEC * TICKS_PER_SEC < elapsed e s) then
    let s := with_pxe_attempt (tail (s_pxe_attempt s)) s in
    if decide (hd 0 (s_pxe_attempt s) <> 0) then dhcp_set_state e dhcp_state_pxebs s
    else dhcp_finished (Err ETIMEDOUT) s
  else (dhcp_tx e buf s).2.

Definition dhcp_timer_expired (e : environment) (buf : mem) (fail : bool) (s : dhcp_session) : dhcp_session :=
  let s := with_timer Stopped s in
  if fail then dhcp_finished (Err ETIMEDOUT) s else
  let s := with_count (u32 (s_count s + 1)) s in
  match s_state s with
  | dhcp_state_discover => dhcp_discovery_expired e buf s
  | dhcp_state_request => dhcp_request_expired e buf s
  | dhcp_state_proxy => dhcp_proxy_expired e buf s
  | dhcp_state_pxebs => dhcp_pxebs_expired e buf s
  end.

(** ** Reception

    The packet is copied into a new object; [heap] is the memory at that
    place, of which the bytes after the packet are not part of it. *)

Definition received_packet (heap : mem) (bytes : list Z) : dhcp_packet :=
  dhcppkt_init (memcpy heap 0 bytes) (Z.of_nat (length bytes)).

Definition server_id (p : dhcp_packet) : Z := get32 (fetch_var p DHCP_SERVER_IDENTIFIER 4) 0.
Definition packet_info (p : dhcp_packet) (peer port : Z) : rx_info :=
  let msgtype := get8 (fetch_var p DHCP_MESSAGE_TYPE 1) 0 in
  let pseudo_id := server_id p in
  let pseudo_id := if decide (pseudo_id = 0) then siaddr p else pseudo_id in
  let pseudo_id := if decide (pseudo_id = 0) then peer else pseudo_id in
  RxInfo peer port msgtype (server_id p) pseudo_id.

Definition pkt_xid (p : dhcp_packet) : Z := get_addr p HDR_XID.
Definition pkt_chaddr (p : dhcp_packet) : list Z := mload (dhcphdr p) HDR_CHADDR (length (nd_ll_addr netdev)).

Definition dhcp_deliver (e : environment) (heap : mem) (alloc_fails : bool) (src : option (Z * Z)) (bytes : list Z) (s : dhcp_session) :
    result unit * dhcp_session :=
  match src with
  | None => (Err EINVAL, s)
  | Some (peer, port) =>
    if alloc_fails then (Err ENOMEM, s) else
    let p := received_packet heap bytes in
    let i := packet_info p peer port in
    if decide (pkt_xid p <> s_xid s) then (Err EINVAL, s) else
    if decide (pkt_chaddr p <> nd_ll_addr netdev) then (Err EINVAL, s) else
    (Ok tt, dhcp_rx e p i s)
  end.

(** ** Instantiation *)

Definition new_session (xid local : Z) (pxe_type attempt : list Z) (accept : option (list Z)) : dhcp_session :=
  DhcpSession dhcp_state_discover xid local 0 0 0 0 0 None 0 pxe_type attempt accept Stopped (0, 0) 0 0 [] [] None.

(** The allocation, the random number and the status of opening the socket are parameters. *)
Definition start_dhcp (e : environment) (alloc_fails : bool) (random : Z) (socket : result unit) : result dhcp_session :=
  if alloc_fails then Err ENOMEM else
  let* _ := socket in
  Ok (dhcp_set_state e dhcp_state_discover (new_session (u32 random) 0 [0; 0] [] None)).

(** The addresses of the servers of a type, from the raw list. *)
Fixpoint pxebs_list (fuel : nat) (pxe_type raw : list Z) : list Z :=
  match fuel with
  | O => []
  | S fuel =>
    if decide (raw = []) then [] else
    if decide (length raw < 3)%nat then [] else
    let num_ip := Z.to_nat (get8 raw 2) in
    let server_len := (3 + 4 * num_ip)%nat in
    if decide (length raw < server_len)%nat then [] else
    let ips := if decide (take 2 raw = pxe_type) then (fun k => get32 raw (3 + 4 * k)) <$> seq 0 num_ip else [] in
    ips ++ pxebs_list fuel pxe_type (drop server_len raw)
  end.

(** The settings: discovery control, multicast address, list of servers (nothing if it is not set), own address. *)
Definition start_pxebs (e : environment) (alloc_fails : bool) (socket : result unit) (control mcast : Z) (servers : list Z) (local pxe_type : Z) :
    result dhcp_session :=
  if alloc_fails then Err ENOMEM else
  let type := le_bytes 2 pxe_type in
  let mcasts := if decide (Z.land control PXEBS_NO_MULTICAST = 0 /\ mcast <> 0) then [mcast] else [] in
  let bcasts := if decide (Z.land control PXEBS_NO_BROADCAST = 0) then [INADDR_BROADCAST] else [] in
  let ips := pxebs_list (S (length servers)) type servers in
  let attempt := mcasts ++ bcasts ++ ips in
  let accept := if decide (Z.land control PXEBS_NO_UNKNOWN_SERVERS <> 0) then Some ips else None in
  if decide (hd 0 attempt = 0) then Err EINVAL else
  let* _ := socket in
  Ok (dhcp_set_state e dhcp_state_pxebs (new_session 0 local type attempt accept)).
End packets.

(** ** Runs of a session *)

Inductive dhcp_event :=
  | TimerExpired (buf : mem) (fail : bool)
  | Received (heap : mem) (alloc_fails : bool) (src : option (Z * Z)) (bytes : list Z)
  | Cancelled (rc : errno).

Section runs.
Context (netdev : net_device) (arch : Z) (ndi : Z * Z * Z).

(** A session that is finished has no interfaces and no timer. *)
Definition dhcp_step (s : dhcp_session) (ev : environment * dhcp_event) : dhcp_session :=
  match s_done s with
  | Some _ => s
  | None =>
    match ev with
    | (e, TimerExpired buf fail) => dhcp_timer_expired netdev arch ndi e buf fail s
    | (e, Received heap alloc_fails src bytes) => (dhcp_deliver netdev e heap alloc_fails src bytes s).2
    | (e, Cancelled rc) => dhcp_finished (Err rc) s
    end
  end.

Definition dhcp_run (s : dhcp_session) (evs : list (environment * dhcp_event)) : dhcp_session := foldl dhcp_step s evs.

(** ** Waiting *)

(** A session either waits, with its timer running, or is finished. *)
Definition waiting (s : dhcp_session) : Prop := s_done s = None /\ s_timer s <> Stopped.
Definition finished (s : dhcp_session) : Prop := is_Some (s_done s) /\ s_timer s = Stopped.

Lemma finished_ok rc s : finished (dhcp_finished rc s).
Proof. split; [|done]. unfold dhcp_finished, with_done. cbn [s_done]. destruct (s_done _); by eexists. Qed.

Lemma set_state_waiting e st s : s_done s = None -> waiting (dhcp_set_state e st s).
Proof. intros Hd. split; [exact Hd|done]. Qed.

Lemma dhcp_tx_cases e buf s :
  (dhcp_tx netdev arch ndi e buf s).2 = with_timer Backoff s \/ exists m, (dhcp_tx netdev arch ndi e buf s).2 = with_sent m (with_timer Backoff s).
Proof.
  unfold dhcp_tx. destruct (iob_tailroom e) as [t|]; [|by left]. destruct (dhcp_create_request _ _ _ _ _ _ _ _ _) as [[[]|rc] p]; [|by left].
  cbv zeta. destruct (state_tx _ _) as [[[addr port]|rc] p']; [|by left]. destruct (xfer_deliver e); [right; by eexists|by left].
Qed.

Lemma dhcp_tx_waiting e buf s : s_done s = None -> waiting (dhcp_tx netdev arch ndi e buf s).2.
Proof. intros Hd. destruct (dhcp_tx_cases e buf s) as [->|[m ->]]; by split. Qed.

Definition settled (s : dhcp_session) : Prop := waiting s \/ finished s.

Lemma rx_settled e p i s : waiting s -> settled (dhcp_rx e p i s).
Proof.
  intros [Hd Ht]. assert (forall rc s, settled (dhcp_finished rc s)) as Hf by (right; apply finished_ok).
  assert (forall s', s_done s' = s_done s -> s_timer s' = s_timer s -> settled s') as Hk by (intros s' E1 E2; left; split; congruence).
  assert (forall st s', s_done s' = s_done s -> settled (dhcp_set_state e st s')) as Hs by (intros st s' E; left; apply set_state_waiting; congruence).
  unfold dhcp_rx. destruct (s_state s).
  - unfold dhcp_discovery_rx. cbv zeta. set (s1 := if decide (yiaddr p <> 0 /\ _) then _ else s).
    assert (s_done s1 = s_done s /\ s_timer s1 = s_timer s) as [H1 H1'] by (unfold s1; by case_decide). clearbody s1.
    set (s2 := if decide (rx_pseudo_id i <> 0 /\ _) then _ else s1).
    assert (s_done s2 = s_done s /\ s_timer s2 = s_timer s) as [H2 H2'] by (unfold s2; by case_decide). clearbody s2.
    case_decide; [by apply Hk|]. case_decide; [by apply Hs|by apply Hk].
  - unfold dhcp_request_rx. cbv zeta. repeat (case_decide; [by apply Hk|]). destruct (register_settings e DHCP_SETTINGS_NAME); [|apply Hf].
    destruct (s_proxy_offer _); [|apply Hf]. case_decide; [|apply Hf]. destruct (dhcp_has_pxeopts _); [|by apply Hs].
    destruct (register_settings e PROXYDHCP_SETTINGS_NAME); apply Hf.
  - unfold dhcp_proxy_rx. repeat (case_decide; [by apply Hk|]). destruct (dhcp_has_pxeopts p); [|by apply Hk].
    destruct (register_settings e PROXYDHCP_SETTINGS_NAME); apply Hf.
  - unfold dhcp_pxebs_rx. cbv zeta. repeat (case_decide; [by apply Hk|]). destruct (dhcp_pxebs_accept s _); [|by apply Hk].
    destruct (register_settings e PXEBS_SETTINGS_NAME); apply Hf.
Qed.

Lemma expired_settled e buf fail s : s_done s = None -> settled (dhcp_timer_expired netdev arch ndi e buf fail s).
Proof.
  intros Hd. unfold dhcp_timer_expired. destruct fail; [right; apply finished_ok|]. set (s1 := with_count _ _).
  assert (s_done s1 = None) as H1 by done. destruct (s_state s1).
  - unfold dhcp_discovery_expired. case_decide; [left; by split|]. case_decide; left; [by apply set_state_waiting|by apply dhcp_tx_waiting].
  - left. by apply dhcp_tx_waiting.
  - unfold dhcp_proxy_expired. case_decide; [right; apply finished_ok|left; by apply dhcp_tx_waiting].
  - unfold dhcp_pxebs_expired. case_decide; [|left; by apply dhcp_tx_waiting]. case_decide; [left; by apply set_state_waiting|right; apply finished_ok].
Qed.

Lemma step_settled s ev : settled s -> settled (dhcp_step s ev).
Proof.
  intros [Hw|Hf]; unfold dhcp_step.
  - destruct Hw as [Hd Ht]. rewrite Hd. destruct ev as [e [buf fail|heap af src bytes|rc]].
    + by apply expired_settled.
    + unfold dhcp_deliver. destruct src as [[peer port]|]; [|by left]. destruct af; [by left|]. repeat (case_decide; [by left|]). by apply rx_settled.
    + right. apply finished_ok.
  - destruct Hf as [[rc Hd] Ht]. rewrite Hd. right. split; [by exists rc|done].
Qed.

(** A session of either kind, whatever happens to it, is waiting with its
    timer running or is finished with its timer stopped: it does not hang. *)
Theorem dhcp_session_settled e s evs :
  (exists random, start_dhcp e false random (Ok tt) = Ok s) \/
  (exists control mcast servers local type, start_pxebs e false (Ok tt) control mcast servers local type = Ok s) ->
  settled (dhcp_run s evs).
Proof.
  intros Hs. assert (settled s) as Hset.
  { left. destruct Hs as [[random Hs]|(control & mcast & servers & local & type & Hs)].
    - unfold start_dhcp in Hs. cbn [result_bind] in Hs. injection Hs as <-. by apply set_state_waiting.
    - unfold start_pxebs in Hs. cbv zeta in Hs. case_decide; [done|]. cbn [result_bind] in Hs. injection Hs as <-. by apply set_state_waiting. }
  clear Hs. revert s Hset. induction evs as [|ev evs IH]; intros s Hset; [done|]. cbn [dhcp_run foldl]. by apply IH, step_settled.
Qed.

(** ** Leases *)

Abbreviation history := (list (environment * dhcp_event)).

(** The packet of an event that belongs to the transaction and to this machine. *)
Definition received (xid : Z) (ev : environment * dhcp_event) : option (dhcp_packet * rx_info) :=
  match ev.2 with
  | Received heap false (Some (peer, port)) bytes =>
    let p := received_packet heap bytes in
    if decide (pkt_xid p = xid /\ pkt_chaddr netdev p = nd_ll_addr netdev) then Some (p, packet_info p peer port) else None
  | _ => None
  end.

(** An offer of an address by a server, with its priority. *)
Definition offers (xid : Z) (ev : environment * dhcp_event) (addr server priority : Z) : Prop :=
  exists p i, received xid ev = Some (p, i) /\ rx_port i = BOOTPS_PORT /\ (rx_msgtype i = DHCPOFFER \/ rx_msgtype i = 0) /\
    yiaddr p = addr /\ addr <> 0 /\ rx_server_id i = server /\ pkt_priority p = priority.

(** The last offer of the highest priority that is not negative. *)
Definition best_offer (xid : Z) (h : history) (addr server priority : Z) : Prop :=
  exists h1 ev h2, h = h1 ++ ev :: h2 /\ offers xid ev addr server priority /\ 0 <= priority /\
    (forall ev' a s pr, ev' ∈ h1 -> offers xid ev' a s pr -> pr <= priority) /\
    (forall ev' a s pr, ev' ∈ h2 -> offers xid ev' a s pr -> pr < priority).

Definition no_offer (xid : Z) (h : history) : Prop := forall ev a s pr, ev ∈ h -> offers xid ev a s pr -> pr < 0.

Definition acknowledges (xid : Z) (ev : environment * dhcp_event) (addr server : Z) (p : dhcp_packet) : Prop :=
  exists i, received xid ev = Some (p, i) /\ rx_port i = BOOTPS_PORT /\ (rx_msgtype i = DHCPACK \/ rx_msgtype i = 0) /\
    yiaddr p = addr /\ rx_server_id i = server.

Section lease.
Context (start : dhcp_session).

(** The events up to the one after which the session is, for the first time, not looking for offers any more. *)
Definition phase (h : history) : dhcp_session_state := s_state (dhcp_run start h).
Definition discovers (h : history) : Prop := forall h' h'', h = h' ++ h'' -> phase h' = dhcp_state_discover.
Definition turns (h : history) : Prop := phase h = dhcp_state_request /\ forall h' ev h'', h = h' ++ ev :: h'' -> phase h' = dhcp_state_discover.

Lemma discovers_turns h ev : discovers h -> phase (h ++ [ev]) = dhcp_state_request -> turns (h ++ [ev]).
Proof.
  intros Hd Hp. split; [done|]. intros h' x h'' E. destruct (exists_last (l := x :: h'')) as (l & y & El); [done|].
  rewrite El, app_assoc in E. apply app_inj_tail in E as [E _]. by apply (Hd h' l).
Qed.

Lemma discovers_snoc h ev : discovers h -> phase (h ++ [ev]) = dhcp_state_discover -> discovers (h ++ [ev]).
Proof.
  intros Hd Hp h' h'' E. destruct h'' as [|x h'']; [by rewrite app_nil_r in E; subst h'|]. destruct (exists_last (l := x :: h'')) as (l & y & El); [done|].
  rewrite El, app_assoc in E. apply app_inj_tail in E as [E _]. by apply (Hd h' l).
Qed.

(** The offers up to the turn to the request state, of which the best is
    taken, and the later acknowledgement that was registered. *)
Definition leased (xid : Z) (h : history) (s : dhcp_session) : Prop :=
  exists h1 h2 ev h3 p, h = h1 ++ h2 ++ ev :: h3 /\ turns h1 /\ best_offer xid h1 (s_offer s) (s_server s) (s_priority s) /\
    acknowledges xid ev (s_offer s) (s_server s) p /\ (DHCP_SETTINGS_NAME, p) ∈ s_registered s /\ s_local s = s_offer s /\ s_offer s <> 0.

Record lease_inv (xid : Z) (h : history) (s : dhcp_session) : Prop := LeaseInv {
  li_xid : s_xid s = xid;
  li_discover : s_state s = dhcp_state_discover -> s_done s = None -> discovers h /\
    ((s_offer s = 0 /\ s_priority s = 0 /\ no_offer xid h) \/ (s_offer s <> 0 /\ best_offer xid h (s_offer s) (s_server s) (s_priority s)));
  li_request : s_state s = dhcp_state_request -> s_done s = None ->
    s_offer s <> 0 /\ exists h1 h2, h = h1 ++ h2 /\ turns h1 /\ best_offer xid h1 (s_offer s) (s_server s) (s_priority s);
  li_proxy : s_state s = dhcp_state_proxy -> leased xid h s;
  li_pxebs : s_state s <> dhcp_state_pxebs;
  li_done : s_done s = Some (Ok tt) -> leased xid h s;
}.

Lemma offers_fun xid ev a s pr a' s' pr' : offers xid ev a s pr -> offers xid ev a' s' pr' -> a = a' /\ s = s' /\ pr = pr'.
Proof. intros (p & i & E & _ & _ & <- & _ & <- & <-) (p' & i' & E' & _ & _ & <- & _ & <- & <-). rewrite E in E'. by injection E' as <- <-. Qed.

(** Another event without an offer that is taken. *)
Lemma best_offer_snoc xid h a s pr ev :
  best_offer xid h a s pr -> (forall a' s' pr', offers xid ev a' s' pr' -> pr' < pr) -> best_offer xid (h ++ [ev]) a s pr.
Proof.
  intros (h1 & e0 & h2 & -> & Ho & Hp & H1 & H2) Hev. exists h1, e0, (h2 ++ [ev]). rewrite <- app_assoc. split_and!; [done|done|done|done|].
  intros ev' a' s' pr' [Hin|Hin]%elem_of_app Ho'; [by eapply H2|]. apply list_elem_of_singleton in Hin as ->. by eapply Hev.
Qed.

(** Another event whose offer is taken. *)
Lemma best_offer_new xid h a s pr ev :
  offers xid ev a s pr -> 0 <= pr -> (forall ev' a' s' pr', ev' ∈ h -> offers xid ev' a' s' pr' -> pr' <= pr) -> best_offer xid (h ++ [ev]) a s pr.
Proof. intros Ho Hp Hh. exists h, ev, []. split_and!; [done|done|done|done|]. intros ev' ? ? ? Hin. by apply elem_of_nil in Hin. Qed.

Lemma leased_snoc xid h ev s s' :
  leased xid h s -> s_offer s' = s_offer s -> s_server s' = s_server s -> s_priority s' = s_priority s -> s_local s' = s_local s ->
  (forall x, x ∈ s_registered s -> x ∈ s_registered s') -> leased xid (h ++ [ev]) s'.
Proof.
  intros (h1 & h2 & e0 & h3 & p & -> & Htn & Hb & Ha & Hr & Hl & Hz) Ho Hs Hp Hloc Hreg. unfold leased. rewrite Ho, Hs, Hp. exists h1, h2, e0, (h3 ++ [ev]), p.
  rewrite <- !app_assoc. split_and!; [done|done|done|done|by apply Hreg|congruence|done].
Qed.

(** Steps that neither take an offer nor register anything. *)
Record same_lease (s s' : dhcp_session) : Prop := SameLease {
  sl_xid : s_xid s' = s_xid s;
  sl_local : s_local s' = s_local s;
  sl_offer : s_offer s' = s_offer s;
  sl_server : s_server s' = s_server s;
  sl_priority : s_priority s' = s_priority s;
  sl_registered : s_registered s' = s_registered s;
}.

Lemma leased_same xid h ev s s' : leased xid h s -> same_lease s s' -> leased xid (h ++ [ev]) s'.
Proof. intros Hl []. eapply leased_snoc; [done..|congruence]. Qed.

Lemma dhcp_tx_same e buf s :
  let s' := (dhcp_tx netdev arch ndi e buf s).2 in same_lease s s' /\ s_state s' = s_state s /\ s_done s' = s_done s.
Proof. cbv zeta. destruct (dhcp_tx_cases e buf s) as [->|[m ->]]; (split; [by constructor|done]). Qed.

(** A step that keeps the state, or finishes the session with an error. *)
Lemma lease_kept xid h ev s s' :
  lease_inv xid h s -> s_done s = None -> received xid ev = None \/ s_state s <> dhcp_state_discover ->
  same_lease s s' -> s_state s' = s_state s -> s_done s' = None \/ (exists rc, s_done s' = Some (Err rc)) ->
  phase (h ++ [ev]) = s_state s' -> lease_inv xid (h ++ [ev]) s'.
Proof.
  intros [Hx Hd Hq Hp Hb Hk] Hn Hev Hs Hst Hdone Hph. pose proof Hs as [Hsx Hsl Hso Hss Hsp _]. constructor; [congruence| | | |congruence|].
  - rewrite Hst, Hso, Hss, Hsp. intros Hst' _. destruct Hev as [Hev|?]; [|done]. assert (forall a s pr, ~ offers xid ev a s pr) as Hno.
    { intros a s0 pr (p & i & E & _). congruence. }
    destruct (Hd Hst' Hn) as (Hds & Hcase). split; [apply discovers_snoc; [done|congruence]|].
    destruct Hcase as [(H0 & Hp0 & Hno')|(H0 & Hbest)]; [left; split_and!; [done..|]|right; split; [done|]].
    + intros ev' a' s0 pr' [Hin|Hin]%elem_of_app Ho; [by eapply Hno'|]. apply list_elem_of_singleton in Hin as ->. by destruct (Hno _ _ _ Ho).
    + apply best_offer_snoc; [done|]. intros a' s0 pr' Ho. by destruct (Hno _ _ _ Ho).
  - rewrite Hst, Hso, Hss, Hsp. intros Hst' _. destruct (Hq Hst' Hn) as (? & h1 & h2 & -> & Htn & Hbest). split; [done|].
    exists h1, (h2 ++ [ev]). split; [by rewrite app_assoc|done].
  - rewrite Hst. intros Hst'. eapply leased_same; eauto.
  - destruct Hdone as [->|[rc ->]]; done.
Qed.

Lemma best_offer_all xid h a s pr ev' a' s' pr' : best_offer xid h a s pr -> ev' ∈ h -> offers xid ev' a' s' pr' -> pr' <= pr.
Proof.
  intros (h1 & e0 & h2 & -> & Ho & _ & H1 & H2) [Hin|[->|Hin]%elem_of_cons]%elem_of_app Ho'.
  - by eapply H1.
  - destruct (offers_fun _ _ _ _ _ _ _ _ Ho Ho') as (_ & _ & ->). lia.
  - specialize (H2 _ _ _ _ Hin Ho'). lia.
Qed.

(** A session that failed. *)
Lemma lease_failed xid h s rc :
  s_xid s = xid -> s_state s = dhcp_state_discover \/ s_state s = dhcp_state_request -> s_done s = Some (Err rc) -> lease_inv xid h s.
Proof. intros Hx Hst Hd. constructor; [done|congruence|congruence| | |congruence]; destruct Hst as [-> | ->]; done. Qed.

(** A session that has its lease. *)
Lemma lease_taken xid h s : leased xid h s -> s_xid s = xid -> s_state s = dhcp_state_proxy \/ s_state s = dhcp_state_request /\ is_Some (s_done s) -> lease_inv xid h s.
Proof. intros Hl Hx Hst. constructor; auto; destruct Hst as [->|[-> [rc Hd]]]; congruence. Qed.

(** The offer of an event, if it has one, is taken unless its priority is too low. *)
Lemma discovery_offer xid h ev p i s :
  lease_inv xid h s -> s_state s = dhcp_state_discover -> s_done s = None -> received xid ev = Some (p, i) ->
  let s' := if decide (yiaddr p <> 0 /\ rx_port i = BOOTPS_PORT /\ (rx_msgtype i = DHCPOFFER \/ rx_msgtype i = 0) /\ s_priority s <= pkt_priority p)
            then with_offer (yiaddr p) (rx_server_id i) (pkt_priority p) (pkt_no_pxedhcp p) s else s in
  (s_offer s' = 0 /\ s_priority s' = 0 /\ no_offer xid (h ++ [ev])) \/ (s_offer s' <> 0 /\ best_offer xid (h ++ [ev]) (s_offer s') (s_server s') (s_priority s')).
Proof.
  intros Hinv Hst Hn Hev s'. destruct (li_discover _ _ _ Hinv Hst Hn) as [_ [(H0 & Hp0 & Hno)|[H0 Hb]]]; unfold s'; case_decide as Hc.
  - right. destruct Hc as (Hip & Hport & Hmsg & Hpr). split; [done|]. cbn [s_offer s_server s_priority with_offer]. apply best_offer_new.
    + by exists p, i.
    + lia.
    + intros ev' a' s0 pr' Hin Ho. specialize (Hno _ _ _ _ Hin Ho). lia.
  - left. split_and!; [done..|]. intros ev' a s0 pr [Hin|Hin]%elem_of_app Ho; [by eapply Hno|]. apply list_elem_of_singleton in Hin as ->.
    destruct Ho as (p' & i' & E & Hport & Hmsg & <- & Hz & _ & <-). rewrite Hev in E. injection E as <- <-.
    destruct (decide (s_priority s <= pkt_priority p)); [by destruct Hc|lia].
  - right. destruct Hc as (Hip & Hport & Hmsg & Hpr). split; [done|]. cbn [s_offer s_server s_priority with_offer]. apply best_offer_new.
    + by exists p, i.
    + destruct Hb as (? & ? & ? & ? & ? & ? & _). lia.
    + intros ev' a' s0 pr' Hin Ho. pose proof (best_offer_all _ _ _ _ _ _ _ _ _ Hb Hin Ho). lia.
  - right. split; [done|]. apply best_offer_snoc; [done|]. intros a s0 pr (p' & i' & E & Hport & Hmsg & <- & Hz & _ & <-).
    rewrite Hev in E. injection E as <- <-. destruct (decide (s_priority s <= pkt_priority p)); [by destruct Hc|lia].
Qed.

(** The offer that is requested. *)
Lemma lease_request xid h e s s' :
  s_xid s = xid -> s_offer s <> 0 -> best_offer xid h (s_offer s) (s_server s) (s_priority s) -> s' = dhcp_set_state e dhcp_state_request s ->
  s_done s = None -> turns h -> lease_inv xid h s'.
Proof.
  intros Hx H0 Hb -> Hn Htn. constructor; try done.
  - intros _ _. split; [done|]. exists h, []. split; [by rewrite app_nil_r|done].
  - cbn [dhcp_set_state with_timer with_limits with_start with_state s_done]. by rewrite Hn.
Qed.

Lemma discovery_lease xid h ev e p i s :
  lease_inv xid h s -> s_state s = dhcp_state_discover -> s_done s = None -> received xid ev = Some (p, i) ->
  phase (h ++ [ev]) = s_state (dhcp_discovery_rx e p i s) -> lease_inv xid (h ++ [ev]) (dhcp_discovery_rx e p i s).
Proof.
  intros Hinv Hst Hn Hev. pose proof (discovery_offer _ _ _ _ _ _ Hinv Hst Hn Hev) as Ho. unfold dhcp_discovery_rx. cbv zeta in Ho |- *.
  set (s1 := if decide (yiaddr p <> 0 /\ _) then _ else s) in *.
  assert (s_xid s1 = xid /\ s_state s1 = dhcp_state_discover /\ s_done s1 = None) as (Hx1 & Hst1 & Hn1).
  { destruct Hinv as [Hx]. unfold s1. by case_decide. } clearbody s1.
  set (s2 := if decide (rx_pseudo_id i <> 0 /\ _) then _ else s1) in *.
  assert (same_lease s1 s2 /\ s_state s2 = dhcp_state_discover /\ s_done s2 = None) as ([Hx2 _ Ho2 Hs2 Hp2 _] & Hst2 & Hn2).
  { unfold s2. case_decide; (split; [by constructor|done]). } clearbody s2. rewrite <- Ho2, <- Hs2, <- Hp2 in Ho.
  destruct (li_discover _ _ _ Hinv Hst Hn) as [Hds _].
  assert (phase (h ++ [ev]) = s_state s2 -> lease_inv xid (h ++ [ev]) s2) as Hkeep.
  { intros Hph. constructor; try congruence. intros _ _. split; [apply discovers_snoc; [done|congruence]|done]. }
  case_decide as Hz; [done|]. case_decide; [|done]. destruct Ho as [(? & _)|[_ Hb]]; [done|].
  intros Hph. eapply lease_request; [|exact Hz|exact Hb|done|done|by apply discovers_turns]. congruence.
Qed.

Lemma request_lease xid h ev e p i s :
  lease_inv xid h s -> s_state s = dhcp_state_request -> s_done s = None -> received xid ev = Some (p, i) ->
  phase (h ++ [ev]) = s_state (dhcp_request_rx e p i s) -> lease_inv xid (h ++ [ev]) (dhcp_request_rx e p i s).
Proof.
  intros Hinv Hst Hn Hev. pose proof (li_xid _ _ _ Hinv) as Hx. destruct (li_request _ _ _ Hinv Hst Hn) as (H0 & h1 & h2 & Hh & Htn & Hb).
  assert (phase (h ++ [ev]) = s_state s -> lease_inv xid (h ++ [ev]) s) as Hkeep by (intros Hph; eapply lease_kept; [done|done|right; congruence|by constructor|done|by left|done]).
  unfold dhcp_request_rx. cbv zeta. case_decide as Hport; [done|]. case_decide as Hmsg; [done|]. case_decide as Hsrv; [done|]. case_decide as Hip; [done|].
  intros _. set (s1 := with_local _ s).
  assert (forall rc s', s_xid s' = xid -> s_state s' = dhcp_state_request -> s_done s' = None -> lease_inv xid (h ++ [ev]) (dhcp_finished (Err rc) s')) as Herr.
  { intros rc s' E1 E2 E3. eapply lease_failed; [done|by right|]. cbn [dhcp_finished with_done with_timer s_done]. by rewrite E3. }
  destruct (register_settings e DHCP_SETTINGS_NAME); [|by apply Herr]. set (s2 := with_registered _ p s1).
  assert (forall s', s_offer s' = s_offer s2 -> s_server s' = s_server s2 -> s_priority s' = s_priority s2 -> s_local s' = s_local s2 ->
    (forall x, x ∈ s_registered s2 -> x ∈ s_registered s') -> leased xid (h ++ [ev]) s') as Hlease.
  { intros s' Eo Es Ep El Er. exists h1, h2, ev, [], p. rewrite Eo, Es, Ep, El. rewrite Hh, <- app_assoc. split_and!; [done|exact Htn|exact Hb| |apply Er|exact Hip|exact H0].
    - exists i. split_and!; [done|done| |done|done]. destruct (decide (rx_msgtype i = 0)); [by right|]. left. apply dec_stable. tauto.
    - unfold s2. cbn [with_registered s_registered]. apply elem_of_app. right. by apply list_elem_of_singleton. }
  assert (forall s', leased xid (h ++ [ev]) s' -> s_xid s' = xid -> s_state s' = dhcp_state_request -> s_done s' = None ->
    lease_inv xid (h ++ [ev]) (dhcp_finished (Ok tt) s')) as Hok.
  { intros s' (a1 & a2 & a3 & a4 & a5 & Ha) E1 E2 E3. apply lease_taken; [by exists a1, a2, a3, a4, a5|done|]. right. split; [done|].
    cbn [dhcp_finished with_done with_timer s_done]. rewrite E3. by eexists. }
  assert (leased xid (h ++ [ev]) s2) as Hl2 by (by apply Hlease).
  destruct (s_proxy_offer s2) as [po|]; [|by apply Hok]. case_decide; [|by apply Hok]. destruct (dhcp_has_pxeopts po).
  - destruct (register_settings e PROXYDHCP_SETTINGS_NAME); [|by apply Herr]. apply Hok; [|done..]. apply Hlease; try done.
    intros x Hin. cbn [with_registered s_registered]. apply elem_of_app. by left.
  - apply lease_taken; [by apply Hlease|done|by left].
Qed.

Lemma proxy_lease xid h ev e p i s :
  lease_inv xid h s -> s_state s = dhcp_state_proxy -> s_done s = None ->
  phase (h ++ [ev]) = s_state (dhcp_proxy_rx e p i s) -> lease_inv xid (h ++ [ev]) (dhcp_proxy_rx e p i s).
Proof.
  intros Hinv Hst Hn. pose proof (li_xid _ _ _ Hinv) as Hx. pose proof (li_proxy _ _ _ Hinv Hst) as Hl.
  assert (phase (h ++ [ev]) = s_state s -> lease_inv xid (h ++ [ev]) s) as Hkeep by (intros Hph; eapply lease_kept; [done|done|right; congruence|by constructor|done|by left|done]).
  unfold dhcp_proxy_rx. repeat (case_decide; [done|]). destruct (dhcp_has_pxeopts p); [|done]. intros _.
  destruct (register_settings e PROXYDHCP_SETTINGS_NAME); (apply lease_taken; [eapply leased_snoc; [exact Hl|done..|]|done|by left]).
  - intros x Hin. apply elem_of_app. by left.
  - done.
Qed.

Lemma timer_lease xid h ev e buf fail s :
  ev.2 = TimerExpired buf fail -> lease_inv xid h s -> s_done s = None ->
  phase (h ++ [ev]) = s_state (dhcp_timer_expired netdev arch ndi e buf fail s) -> lease_inv xid (h ++ [ev]) (dhcp_timer_expired netdev arch ndi e buf fail s).
Proof.
  intros Hev Hinv Hn. pose proof (li_xid _ _ _ Hinv) as Hx. assert (received xid ev = None) as Hrx by (unfold received; by rewrite Hev).
  assert (forall s', same_lease s s' -> s_state s' = s_state s -> s_done s' = None \/ (exists rc, s_done s' = Some (Err rc)) ->
    phase (h ++ [ev]) = s_state s' -> lease_inv xid (h ++ [ev]) s') as Hkeep.
  { intros s' H1 H2 H3 H4. eapply lease_kept; [done|done|by left|done|done|done|done]. }
  unfold dhcp_timer_expired. destruct fail.
  { apply Hkeep; [by constructor|done|]. right. exists ETIMEDOUT. cbn [dhcp_finished with_done with_timer s_done]. by rewrite Hn. }
  set (s1 := with_count _ _). assert (same_lease s s1) as Hs1 by by constructor.
  assert (phase (h ++ [ev]) = s_state (dhcp_tx netdev arch ndi e buf s1).2 -> lease_inv xid (h ++ [ev]) (dhcp_tx netdev arch ndi e buf s1).2) as Htx.
  { destruct (dhcp_tx_same e buf s1) as ([] & H2 & H3). apply Hkeep; [by constructor|by rewrite H2|left; by rewrite H3]. }
  change (s_state s1) with (s_state s). destruct (s_state s) eqn:Hst; [|exact Htx| |].
  - unfold dhcp_discovery_expired. case_decide; [apply Hkeep; [by constructor|done|by left]|]. case_decide as Hc; [|done].
    destruct Hc as [Hz _]. destruct (li_discover _ _ _ Hinv Hst Hn) as [Hds [(? & _)|[_ Hb]]]; [done|]. intros Hph.
    eapply lease_request; [|exact Hz| |done|done|by apply discovers_turns]; [done|]. apply best_offer_snoc; [exact Hb|]. intros a s' pr (p & i & E & _). congruence.
  - unfold dhcp_proxy_expired. case_decide; [|done]. intros _. apply lease_taken; [|done|by left].
    eapply leased_same; [by apply (li_proxy _ _ _ Hinv)|by constructor].
  - by destruct (li_pxebs _ _ _ Hinv).
Qed.

Lemma step_lease xid h ev s : lease_inv xid h s -> phase (h ++ [ev]) = s_state (dhcp_step s ev) -> lease_inv xid (h ++ [ev]) (dhcp_step s ev).
Proof.
  intros Hinv. unfold dhcp_step. destruct (s_done s) as [rc|] eqn:Hd.
  { intros _. destruct Hinv as [Hx _ _ Hp Hb Hk]. constructor; try congruence.
    - intros Hst. eapply leased_same; [by apply Hp|by constructor].
    - intros Hok. eapply leased_same; [by apply Hk|by constructor]. }
  pose proof (li_xid _ _ _ Hinv) as Hx. destruct ev as [e [buf fail|heap af src bytes|rc]].
  - by apply timer_lease.
  - assert (received xid (e, Received heap af src bytes) = None -> phase (h ++ [(e, Received heap af src bytes)]) = s_state s ->
      lease_inv xid (h ++ [(e, Received heap af src bytes)]) s) as Hkeep.
    { intros Hr Hph. eapply lease_kept; [done|done|by left|by constructor|done|by left|done]. }
    unfold dhcp_deliver. destruct src as [[peer port]|]; [|apply Hkeep; by destruct af]. destruct af; [by apply Hkeep|]. cbv zeta.
    unfold received in Hkeep. cbn [snd] in Hkeep.
    destruct (decide (pkt_xid _ <> s_xid s)) as [Hxid|Hxid%dec_stable]; [apply Hkeep; rewrite decide_False; [done|]; intros [E _]; congruence|].
    destruct (decide (pkt_chaddr _ _ <> nd_ll_addr _)) as [Hch|Hch%dec_stable]; [apply Hkeep; rewrite decide_False; [done|]; intros [_ E]; congruence|]. cbn [snd].
    assert (received xid (e, Received heap false (Some (peer, port)) bytes) = Some (received_packet heap bytes, packet_info (received_packet heap bytes) peer port)) as Hr.
    { unfold received. cbn [snd]. rewrite decide_True; [done|]. split; [congruence|done]. }
    unfold dhcp_rx. destruct (s_state s) eqn:Hst; [by apply discovery_lease|by apply request_lease|by apply proxy_lease|by destruct (li_pxebs _ _ _ Hinv)].
  - intros Hph. eapply lease_kept; [done|done|by left|by constructor|done| |done]. right. exists rc. cbn [dhcp_finished with_done with_timer s_done]. by rewrite Hd.
Qed.

End lease.

(** C27: a DHCP session that ends without an error has a lease: the address
    of the last offer of the highest priority among all offers up to the event
    at which the session turned from discovery to requesting, which the server
    that offered it acknowledged later in a packet for this transaction and
    this hardware address; that packet is registered as settings, and the
    address is the local address of the session.  The packets are what the
    session reads: of one that is shorter than the header, which is not
    refused, the memory behind it is part ([dhcp_short_packet]). *)
Theorem dhcp_lease_sound e random s evs :
  start_dhcp e false random (Ok tt) = Ok s -> s_done (dhcp_run s evs) = Some (Ok tt) -> leased s (u32 random) evs (dhcp_run s evs).
Proof.
  intros Hs Hd. unfold start_dhcp in Hs. cbn [result_bind] in Hs. injection Hs as <-.
  set (s0 := dhcp_set_state _ _ _) in *. assert (lease_inv s0 (u32 random) [] s0) as Hinv.
  { constructor; try done. intros _ _. split.
    - intros h' h'' E. symmetry in E. by apply app_nil in E as [-> ->].
    - left. split_and!; [done..|]. intros ev ? ? ? Hin. by apply elem_of_nil in Hin. }
  clearbody s0. apply (li_done s0 (u32 random) evs); [|done]. clear Hd. induction evs as [|ev evs IH] using rev_ind; [done|].
  assert (dhcp_run s0 (evs ++ [ev]) = dhcp_step (dhcp_run s0 evs) ev) as Hr by (unfold dhcp_run; by rewrite foldl_app).
  rewrite Hr. apply step_lease; [done|]. unfold phase. by rewrite Hr.
Qed.

(** ** Accepting an offer *)

(** A good offer that asks not to wait is requested at once. *)
Lemma discovery_requests e p i s :
  yiaddr p <> 0 -> rx_port i = BOOTPS_PORT -> rx_msgtype i = DHCPOFFER \/ rx_msgtype i = 0 -> s_priority s <= pkt_priority p -> pkt_no_pxedhcp p <> 0 ->
  let s' := dhcp_discovery_rx e p i s in
  s_state s' = dhcp_state_request /\ s_done s' = s_done s /\ s_no_pxedhcp s' = pkt_no_pxedhcp p /\ s_xid s' = s_xid s /\
  s_offer s' = yiaddr p /\ s_server s' = rx_server_id i /\ s_registered s' = s_registered s /\ s_local s' = s_local s /\ s_sent s' = s_sent s.
Proof.
  intros Hz Hport Hmsg Hpr Hnp. unfold dhcp_discovery_rx. cbv zeta.
  set (s1 := if decide (yiaddr p <> 0 /\ _) then _ else s). assert (s1 = with_offer (yiaddr p) (rx_server_id i) (pkt_priority p) (pkt_no_pxedhcp p) s) as Hs1.
  { unfold s1. by rewrite decide_True. }
  clearbody s1. set (s2 := if decide (rx_pseudo_id i <> 0 /\ _) then _ else s1).
  assert (s_offer s2 = yiaddr p /\ s_server s2 = rx_server_id i /\ s_no_pxedhcp s2 = pkt_no_pxedhcp p /\ s_xid s2 = s_xid s /\ s_registered s2 = s_registered s /\
    s_done s2 = s_done s /\ s_local s2 = s_local s /\ s_sent s2 = s_sent s) as (H1 & H2 & H3 & H4 & H5 & H6 & H7 & H8) by (unfold s2; case_decide; subst s1; done).
  clearbody s2. rewrite decide_False by congruence. rewrite decide_True by (left; congruence).
  cbn [dhcp_set_state with_timer with_limits with_start with_state s_state s_done s_no_pxedhcp s_xid s_offer s_server s_registered s_local s_sent]. split_and!; congruence.
Qed.

(** The acknowledgement of the offer, without proxies, ends the session. *)
Lemma request_acknowledged e p i s :
  rx_port i = BOOTPS_PORT -> rx_msgtype i = DHCPACK \/ rx_msgtype i = 0 -> rx_server_id i = s_server s -> yiaddr p = s_offer s ->
  register_settings e DHCP_SETTINGS_NAME = Ok tt -> s_no_pxedhcp s <> 0 ->
  dhcp_request_rx e p i s = dhcp_finished (Ok tt) (with_registered DHCP_SETTINGS_NAME p (with_local (yiaddr p) s)).
Proof.
  intros Hport Hmsg Hsrv Hip Hreg Hnp. unfold dhcp_request_rx. cbv zeta. rewrite decide_False by (intros Hx; by apply Hx). rewrite decide_False by (intros []; by destruct Hmsg).
  rewrite !decide_False by (intros Hx; by apply Hx). rewrite Hreg. destruct (s_proxy_offer _); [|done]. by rewrite decide_False.
Qed.

Lemma step_received s ev p i : received (s_xid s) ev = Some (p, i) -> s_done s = None -> dhcp_step s ev = dhcp_rx ev.1 p i s.
Proof.
  destruct ev as [e [?|heap [] [[peer port]|] bytes|?]]; try done. intros Hr Hn. unfold received in Hr. cbn [snd] in Hr.
  unfold dhcp_step. rewrite Hn. unfold dhcp_deliver. cbv zeta in Hr |- *. destruct (decide (_ /\ _)) as [[H1 H2]|]; [|done]. injection Hr as <- <-.
  rewrite !decide_False by (intros H; by apply H). done.
Qed.

End runs.

(** ** PXE boot servers *)

Definition encode_server (server : list Z * list Z) : list Z :=
  server.1 ++ [Z.of_nat (length server.2)] ++ concat (map be32 server.2).
Definition encode_servers (servers : list (list Z * list Z)) : list Z := concat (map encode_server servers).
Definition server_ok (server : list Z * list Z) : Prop :=
  length server.1 = 2%nat /\ (length server.2 < 256)%nat /\ Forall (in_width 32) server.2.

Lemma length_addresses ips : length (concat (map be32 ips)) = (4 * length ips)%nat.
Proof. induction ips as [|a ips IH]; [done|]. cbn [map concat length]. rewrite length_app, IH. cbn [be32 length]. lia. Qed.

Lemma read_addresses pre ips post :
  Forall (in_width 32) ips ->
  (fun k => get32 (pre ++ concat (map be32 ips) ++ post) (length pre + 4 * k)) <$> seq 0 (length ips) = ips.
Proof.
  intros Hw. revert pre. induction Hw as [|a ips Ha _ IH]; intros pre; [done|]. cbn [length seq fmap list_fmap]. f_equal.
  - unfold get32, get8. cbn [map concat]. rewrite Nat.mul_0_r, Nat.add_0_r, <- app_assoc. rewrite !app_nth2_plus. rewrite app_nth2, Nat.sub_diag by lia.
    cbn [be32 app nth]. by apply be32_value.
  - rewrite <- fmap_S_seq, <- list_fmap_compose. etransitivity; [|exact (IH (pre ++ be32 a))]. apply list_fmap_ext. intros _ k _. cbn [compose].
    cbn [map concat]. rewrite <- !app_assoc, length_app. f_equal. cbn [be32 length]. lia.
Qed.

Lemma pxebs_list_servers fuel type servers :
  Forall server_ok servers -> (length (encode_servers servers) < fuel)%nat ->
  pxebs_list fuel type (encode_servers servers) = concat (map snd (filter (fun server => server.1 = type) servers)).
Proof.
  intros Hok. revert fuel. induction Hok as [|[t ips] servers (Ht & Hn & Hw) _ IH]; intros fuel Hf; (destruct fuel as [|fuel]; [lia|]); [done|].
  cbn [encode_servers map concat] in Hf |- *. fold (encode_servers servers) in *. cbn [fst snd] in Ht, Hn, Hw. cbn [pxebs_list].
  set (raw := encode_server (t, ips) ++ encode_servers servers) in *.
  assert (raw = (t ++ [Z.of_nat (length ips)]) ++ concat (map be32 ips) ++ encode_servers servers) as Hraw.
  { unfold raw, encode_server. cbn [fst snd]. by rewrite <- !app_assoc. }
  assert (length (encode_server (t, ips)) = 3 + 4 * length ips)%nat as Hlen.
  { unfold encode_server. cbn [fst snd]. rewrite !length_app, length_addresses, Ht. cbn [length]. lia. }
  assert (length raw = 3 + 4 * length ips + length (encode_servers servers))%nat as Hl by (unfold raw; rewrite length_app; lia).
  assert (get8 raw 2 = Z.of_nat (length ips)) as Hg by (rewrite Hraw; destruct t as [|x [|y [|]]]; done).
  rewrite Hg, Nat2Z.id. rewrite decide_False by (intros E; rewrite E in Hl; simpl in Hl; lia). rewrite !decide_False by lia.
  assert (drop (3 + 4 * length ips) raw = encode_servers servers) as -> by (unfold raw; rewrite <- Hlen; apply drop_app_length).
  rewrite IH by lia. assert (take 2 raw = t) as -> by (rewrite Hraw, <- app_assoc, <- Ht; apply take_app_length). rewrite filter_cons. cbn [fst]. case_decide as Hc; [|done].
  cbn [map concat snd]. f_equal. rewrite Hraw. etransitivity; [|exact (read_addresses (t ++ [Z.of_nat (length ips)]) ips (encode_servers servers) Hw)].
  apply list_fmap_ext. intros _ k _. by rewrite (length_app t), Ht.
Qed.

Lemma pxebs_list_room fuel type raw : (4 * length (pxebs_list fuel type raw) <= length raw)%nat.
Proof.
  revert raw. induction fuel as [|fuel IH]; intros raw; cbn [pxebs_list length]; [lia|]. case_decide; [simpl; lia|]. case_decide; [simpl; lia|].
  cbv zeta. set (n := Z.to_nat _). case_decide; [simpl; lia|]. rewrite length_app. specialize (IH (drop (3 + 4 * n) raw)). rewrite length_drop in IH.
  case_decide; [rewrite length_fmap, length_seq|cbn [length]]; lia.
Qed.

(** The addresses that are taken from the list of boot servers are those
    of the servers of the type, in order; and whatever the list contains,
    they fit into the room that was reserved, which is as many bytes as the
    list has. *)
Theorem pxebs_list_correct type raw :
  (4 * length (pxebs_list (S (length raw)) type raw) <= length raw)%nat /\
  forall servers, Forall server_ok servers -> raw = encode_servers servers ->
    pxebs_list (S (length raw)) type raw = concat (map snd (filter (fun server => server.1 = type) servers)).
Proof. split; [apply pxebs_list_room|]. intros servers Hok ->. apply pxebs_list_servers; [done|lia]. Qed.

Section pxebs.
Context (netdev : net_device) (arch : Z) (ndi : Z * Z * Z).

(** An acknowledgement by a boot server of the type, which is on the list of servers if there is one. *)
Definition boot_server (ev : environment * dhcp_event) (type : list Z) (accept : option (list Z)) (p : dhcp_packet) : Prop :=
  exists i, received netdev 0 ev = Some (p, i) /\ (rx_port i = BOOTPS_PORT \/ rx_port i = PXE_PORT) /\ rx_msgtype i = DHCPACK /\
    take 2 (fetch_var p DHCP_PXE_BOOT_MENU_ITEM 4) = type /\ forall l, accept = Some l -> rx_pseudo_id i ∈ l.

Record pxebs_inv (type : list Z) (accept : option (list Z)) (h : list (environment * dhcp_event)) (s : dhcp_session) : Prop := PxebsInv {
  pi_state : s_state s = dhcp_state_pxebs;
  pi_xid : s_xid s = 0;
  pi_type : s_pxe_type s = type;
  pi_accept : s_pxe_accept s = accept;
  pi_registered : s_done s <> Some (Ok tt) -> s_registered s = [];
  pi_done : s_done s = Some (Ok tt) -> exists ev p, ev ∈ h /\ boot_server ev type accept p /\ s_registered s = [(PXEBS_SETTINGS_NAME, p)];
}.

Lemma accept_loop_elem l a : accept_loop l a = true -> a ∈ l.
Proof. induction l as [|x l IH]; cbn [accept_loop]; [done|]. case_decide; [done|]. case_decide; [subst; left|]. intros Hx%IH. by right. Qed.

(** Steps that do not finish the session with success. *)
Lemma pxebs_kept type accept h ev s s' :
  pxebs_inv type accept h s -> s_state s' = s_state s -> s_xid s' = s_xid s -> s_pxe_type s' = s_pxe_type s -> s_pxe_accept s' = s_pxe_accept s ->
  s_registered s' = s_registered s -> (s_done s' = Some (Ok tt) -> s_done s = Some (Ok tt)) -> (s_done s = Some (Ok tt) -> s_done s' = Some (Ok tt)) ->
  pxebs_inv type accept (h ++ [ev]) s'.
Proof.
  intros [Hst Hx Ht Ha Hr Hd] E1 E2 E3 E4 E5 E6 E7. constructor; try congruence.
  - intros Hn. rewrite E5. apply Hr. intros E. apply Hn. by apply E7.
  - intros E. destruct (Hd (E6 E)) as (ev' & p & Hin & Hb & Hreg). exists ev', p. split; [apply elem_of_app; by left|]. split; [done|congruence].
Qed.

Lemma pxebs_rx_inv type accept h ev e p i s :
  pxebs_inv type accept h s -> s_done s = None -> received netdev 0 ev = Some (p, i) -> pxebs_inv type accept (h ++ [ev]) (dhcp_pxebs_rx e p i s).
Proof.
  intros Hinv Hn Hev. assert (pxebs_inv type accept (h ++ [ev]) s) as Hkeep by (by eapply pxebs_kept).
  pose proof Hinv as [Hst Hx Ht Ha Hreg Hdone]. unfold dhcp_pxebs_rx. cbv zeta. case_decide as Hport; [done|]. case_decide as Hmsg; [done|]. case_decide as Htype; [done|].
  destruct (dhcp_pxebs_accept s (rx_pseudo_id i)) eqn:Hacc; [|done]. destruct (register_settings e PXEBS_SETTINGS_NAME) as [[]|rc].
  - constructor; try done; [intros []; cbn [dhcp_finished with_done with_timer with_registered s_done]; by rewrite Hn|].
    intros _. exists ev, p. split; [apply elem_of_app; right; by apply list_elem_of_singleton|]. split.
    + exists i. split_and!; [done| |done|congruence|].
      * destruct (decide (rx_port i = BOOTPS_PORT)); [by left|right]. apply dec_stable. tauto.
      * intros l Hl. unfold dhcp_pxebs_accept in Hacc. rewrite Ha, Hl in Hacc. by apply accept_loop_elem.
    + cbn [dhcp_finished with_done with_timer with_registered s_registered]. rewrite Hreg; [done|]. by rewrite Hn.
  - eapply pxebs_kept; [exact Hinv|reflexivity..| |]; cbn [dhcp_finished with_done with_timer s_done]; by rewrite Hn.
Qed.

Lemma pxebs_step_inv type accept h ev s : pxebs_inv type accept h s -> pxebs_inv type accept (h ++ [ev]) (dhcp_step netdev arch ndi s ev).
Proof.
  intros Hinv. unfold dhcp_step. destruct (s_done s) as [rc|] eqn:Hn; [by eapply pxebs_kept|].
  destruct ev as [e [buf fail|heap af src bytes|rc]].
  - unfold dhcp_timer_expired. destruct fail; [eapply pxebs_kept; [exact Hinv|reflexivity..| |]; cbn [dhcp_finished with_done with_timer s_done]; by rewrite Hn|].
    set (s1 := with_count _ _). change (s_state s1) with (s_state s). rewrite (pi_state _ _ _ _ Hinv).
    unfold dhcp_pxebs_expired. case_decide.
    + case_decide; (eapply pxebs_kept; [exact Hinv| |reflexivity..| |]);
        cbn [dhcp_set_state dhcp_finished with_done with_timer with_limits with_start with_state with_pxe_attempt with_count s1 s_state s_done]; rewrite ?Hn; try done.
      by rewrite (pi_state _ _ _ _ Hinv).
    + destruct (dhcp_tx_cases netdev arch ndi e buf s1) as [->|[m ->]]; (eapply pxebs_kept; [exact Hinv|reflexivity..| |]); by cbn; rewrite Hn.
  - destruct (received netdev 0 (e, Received heap af src bytes)) as [[p i]|] eqn:Hr.
    + pose proof (step_received netdev arch ndi s (e, Received heap af src bytes) p i) as Hs. rewrite (pi_xid _ _ _ _ Hinv) in Hs. specialize (Hs Hr Hn).
      unfold dhcp_step in Hs. rewrite Hn in Hs. rewrite Hs. unfold dhcp_rx. rewrite (pi_state _ _ _ _ Hinv). by apply pxebs_rx_inv.
    + assert ((dhcp_deliver netdev e heap af src bytes s).2 = s) as ->; [|by eapply pxebs_kept]. unfold received in Hr. cbn [snd] in Hr.
      unfold dhcp_deliver. destruct src as [[peer port]|]; [|done]. destruct af; [done|]. cbv zeta in Hr |- *. rewrite (pi_xid _ _ _ _ Hinv).
      destruct (decide (pkt_xid _ <> 0)) as [|H1%dec_stable]; [done|]. destruct (decide (pkt_chaddr _ _ <> _)) as [|H2%dec_stable]; [done|]. by rewrite decide_True in Hr.
  - eapply pxebs_kept; [exact Hinv|reflexivity..| |]; cbn [dhcp_finished with_done with_timer s_done]; by rewrite Hn.
Qed.

(** A boot server discovery that ends without an error has registered
    the acknowledgement of a boot server of the requested type, and of one of
    the listed servers if unknown servers are not to be accepted. *)
Theorem dhcp_pxebs_sound e control mcast servers local pxe_type s evs :
  start_pxebs e false (Ok tt) control mcast servers local pxe_type = Ok s -> s_done (dhcp_run netdev arch ndi s evs) = Some (Ok tt) ->
  exists ev p, ev ∈ evs /\ s_registered (dhcp_run netdev arch ndi s evs) = [(PXEBS_SETTINGS_NAME, p)] /\
    boot_server ev (le_bytes 2 pxe_type)
      (if decide (Z.land control PXEBS_NO_UNKNOWN_SERVERS <> 0) then Some (pxebs_list (S (length servers)) (le_bytes 2 pxe_type) servers) else None) p.
Proof.
  intros Hs Hd. set (accept := if decide _ then Some _ else None). assert (pxebs_inv (le_bytes 2 pxe_type) accept [] s) as Hinv.
  { unfold start_pxebs in Hs. cbv zeta in Hs. destruct (decide (hd 0 _ = 0)); [done|]. cbn [result_bind] in Hs. injection Hs as <-. by constructor. }
  clear Hs. assert (forall h s, pxebs_inv (le_bytes 2 pxe_type) accept h s -> pxebs_inv (le_bytes 2 pxe_type) accept (h ++ evs) (dhcp_run netdev arch ndi s evs)) as Hrun.
  { clear. clearbody accept. induction evs as [|ev evs IH]; intros h s Hi; [by rewrite app_nil_r|]. cbn [dhcp_run foldl]. rewrite (app_assoc h [ev] evs : h ++ ev :: evs = _).
    apply IH. by apply pxebs_step_inv. }
  destruct (pi_done _ _ _ _ (Hrun [] s Hinv) Hd) as (ev & p & Hin & Hb & Hreg). by exists ev, p.
Qed.
End pxebs.

(** ** Examples *)

Module DhcpSample.
Definition env : environment := Environment 0 false false (Some 552) (Ok tt) [21; 1; 1] [1; 2; 3; 4; 5] None [] (fun _ => Ok tt).
Definition netdev : net_device := NetDevice 1 [2; 0; 0; 0; 0; 1] false.
Definition ndi : Z * Z * Z := (1, 3, 16).
Definition xid : Z := 16909060.
Definition address : Z := 167772167.
Definition server : Z := 167772161.

Definition header (xid yiaddr : Z) : list Z :=
  [2; 1; 6; 0] ++ be32 xid ++ replicate 8 0 ++ be32 yiaddr ++ replicate 8 0 ++ [2; 0; 0; 0; 0; 1] ++ replicate 202 0 ++ be32 DHCP_MAGIC_COOKIE.
Definition offer : list Z := header xid address ++ [53; 1; 2; 54; 4; 10; 0; 0; 1; 175; 3; 176; 1; 1; 255].
Definition ack : list Z := header xid address ++ [53; 1; 5; 54; 4; 10; 0; 0; 1; 255].
Definition receive (bytes : list Z) : environment * dhcp_event := (env, Received (fun _ => 0) false (Some (server, BOOTPS_PORT)) bytes).
Definition expire : environment * dhcp_event := (env, TimerExpired (fun _ => 0) false).
Definition session : dhcp_session := dhcp_set_state env dhcp_state_discover (new_session xid 0 [0; 0] [] None).
Definition run : list (environment * dhcp_event) -> dhcp_session := dhcp_run netdev 0 ndi session.

Definition menu_ack : list Z := header 0 address ++ [53; 1; 5; 54; 4; 10; 0; 0; 1; 43; 6; 71; 4; 1; 0; 0; 0; 255].
Definition servers : list Z := [1; 0; 1; 10; 0; 0; 1; 2; 0; 1; 10; 0; 0; 2].
Definition pxebs_session : dhcp_session :=
  dhcp_set_state env dhcp_state_pxebs (new_session 0 address [1; 0] [INADDR_BROADCAST; server] (Some [server])).
End DhcpSample.

Lemma dhcp_session_settled_witness : settled (DhcpSample.run [DhcpSample.expire; DhcpSample.receive DhcpSample.offer]).
Proof.
  apply (dhcp_session_settled DhcpSample.netdev 0 DhcpSample.ndi DhcpSample.env DhcpSample.session). left. exists DhcpSample.xid. reflexivity.
Defined.

Lemma dhcp_lease_sound_witness :
  let evs := [DhcpSample.expire; DhcpSample.receive DhcpSample.offer; DhcpSample.expire; DhcpSample.receive DhcpSample.ack] in
  leased DhcpSample.netdev 0 DhcpSample.ndi DhcpSample.session DhcpSample.xid evs (DhcpSample.run evs) /\ s_local (DhcpSample.run evs) = DhcpSample.address.
Proof.
  intros evs. split; [|vm_compute; reflexivity].
  apply (dhcp_lease_sound DhcpSample.netdev 0 DhcpSample.ndi DhcpSample.env DhcpSample.xid); [reflexivity|vm_compute; reflexivity].
Defined.

Lemma pxebs_list_correct_witness : pxebs_list 15 [1; 0] DhcpSample.servers = [DhcpSample.server].
Proof.
  refine (proj2 (pxebs_list_correct [1; 0] DhcpSample.servers) [([1; 0], [DhcpSample.server]); ([2; 0], [167772162])] _ _).
  - repeat constructor; vm_compute; congruence.
  - vm_compute. reflexivity.
Defined.

Lemma dhcp_pxebs_sound_witness :
  exists ev p, ev ∈ [DhcpSample.receive DhcpSample.menu_ack] /\
    s_registered (dhcp_run DhcpSample.netdev 0 DhcpSample.ndi DhcpSample.pxebs_session [DhcpSample.receive DhcpSample.menu_ack]) = [(PXEBS_SETTINGS_NAME, p)] /\
    boot_server DhcpSample.netdev ev [1; 0] (Some [DhcpSample.server]) p.
Proof.
  apply (dhcp_pxebs_sound DhcpSample.netdev 0 DhcpSample.ndi DhcpSample.env 4 0 DhcpSample.servers DhcpSample.address 1).
  - vm_compute. reflexivity.
  - vm_compute. reflexivity.
Defined.

(** The length of a received packet is not checked.  Of a packet without any
    byte, the session reads the header from the memory behind it, and takes
    the offer that happens to be there. *)
Example dhcp_short_packet :
  let heap := mem_of (DhcpSample.header DhcpSample.xid DhcpSample.address) in
  s_offer (DhcpSample.run [(DhcpSample.env, Received heap false (Some (DhcpSample.server, BOOTPS_PORT)) [])]) = DhcpSample.address /\
  s_offer (DhcpSample.run [(DhcpSample.env, Received (fun _ => 0) false (Some (DhcpSample.server, BOOTPS_PORT)) [])]) = 0.
Proof. split; vm_compute; reflexivity. Qed.
