(* ===== verification/DhcpTx.v ===== *)
(** * DHCP requests as their receivers read them (net/udp/dhcp.c)

    The theorem [dhcp_request_correct] follows a request from the options that
    are common to all requests over the stores of [dhcp_create_request] and of
    the state of the session to the bytes that are sent, and reads these bytes
    with the functions for received packets.  With room for all options the
    request is made ([tx_succeeds]), so that an exchange with a server sends
    what it should and ends with the lease ([dhcp_exchange_completes]). *)

From S2P Require Import Prelude CMem Strings DhcpOpts DhcpEncap DhcpPkt Dhcp.

(** Settings that live in the options. *)
Definition option_tag_ok (tag : Z) : Prop := plain_tag tag /\ tag <> DHCP_TFTP_SERVER_NAME /\ tag <> DHCP_BOOTFILE_NAME.

Lemma option_store p items tail tag bs p' :
  represents (options p) items tail -> option_tag_ok tag -> dhcppkt_store p tag bs = (Ok tt, p') ->
  represents (options p') (store_items tag bs items) tail /\ dhcphdr p' = dhcphdr p.
Proof.
  intros Hr (Ht & H1 & H2) E. unfold dhcppkt_store in E. rewrite find_field_plain in E by done.
  pose proof (dhcpopt_store_plain _ _ _ _ bs Hr Ht) as Hs. destruct (dhcpopt_store _ _ _ _) as [[[]|rc] o']; [|done]. by injection E as <-.
Qed.

Lemma option_fetch p items tail tag len :
  represents (options p) items tail -> option_tag_ok tag -> 0 <= len ->
  dhcppkt_fetch p tag len =
    match fetch_items tag items with Some bs => (Ok (Z.of_nat (length bs)), take (Z.to_nat len) bs) | None => (Err ENOENT, []) end.
Proof. intros Hr (Ht & H1 & H2) Hlen. unfold dhcppkt_fetch. rewrite find_field_plain by done. by eapply fetch_refines. Qed.

Definition fold_items (items : list item) (l : list (Z * list Z)) : list item := foldl (fun items '(tag, bs) => store_items tag bs items) items l.

Lemma options_store p items tail l p' :
  represents (options p) items tail -> Forall (fun x => option_tag_ok x.1) l -> store_all p l = (Ok tt, p') ->
  represents (options p') (fold_items items l) tail /\ dhcphdr p' = dhcphdr p.
Proof.
  intros Hr Hl. revert p items Hr. induction Hl as [|[tag bs] l Ht _ IH]; intros p items Hr; cbn [store_all]; [by intros [= <-]|].
  destruct (dhcppkt_store p tag bs) as [[[]|rc] p1] eqn:E; [|done]. destruct (option_store _ _ _ _ _ _ Hr Ht E) as [Hr1 Hh1]. intros E'.
  destruct (IH _ _ Hr1 E') as [Hr2 Hh2]. split; [done|congruence].
Qed.

Lemma fold_items_other tag items l : tag ∉ l.*1 -> fetch_items tag (fold_items items l) = fetch_items tag items.
Proof.
  revert items. induction l as [|[t bs] l IH]; intros items Hn; [done|]. cbn [fold_items foldl]. cbn [fmap list_fmap fst] in Hn.
  apply not_elem_of_cons in Hn as [Hne Hn]. etransitivity; [by apply IH|]. by apply fetch_store_other.
Qed.

(** ** Room for options *)

Definition stores_len (l : list (Z * list Z)) : Z := foldr (fun x n => 2 + Z.of_nat (length x.2) + n) 0 l.

Lemma encode_store_length tag bs items :
  (length (encode_items (store_items tag bs items)) <= length (encode_items items) + 2 + length bs)%nat.
Proof.
  assert (length (encode_items (new_item tag bs)) <= 2 + length bs)%nat as Hn.
  { unfold new_item. case_decide; [simpl; lia|]. rewrite encode_items_cons, length_app. cbn [encode_item length encode_items fmap list_fmap mjoin list_join]. lia. }
  destruct (items_split tag items) as [H|(pre & old & post & -> & H)].
  - rewrite store_items_absent, encode_items_app, length_app by done. lia.
  - rewrite store_items_present, !encode_items_app, !length_app, encode_items_cons, length_app by done. lia.
Qed.

Lemma represents_used o items tail : represents o items tail -> used_len o = Z.of_nat (length (encode_items items) + length tail).
Proof. intros (Hu & _ & Hm & _). apply (f_equal length) in Hm. rewrite mload_length, length_app in Hm. lia. Qed.

Lemma option_store_room p items tail tag bs :
  represents (options p) items tail -> option_tag_ok tag -> (length bs <= 253)%nat -> used_len (options p) + 2 + Z.of_nat (length bs) <= alloc_len (options p) ->
  exists p', dhcppkt_store p tag bs = (Ok tt, p') /\ represents (options p') (store_items tag bs items) tail /\
    used_len (options p') <= used_len (options p) + 2 + Z.of_nat (length bs) /\ alloc_len (options p') = alloc_len (options p).
Proof.
  intros Hr Ht Hb Hroom. destruct (dhcppkt_store p tag bs) as [[[]|rc] p'] eqn:E.
  - exists p'. split; [done|]. destruct (option_store _ _ _ _ _ _ Hr Ht E) as [Hr' _]. split; [done|].
    rewrite (represents_used _ _ _ Hr), (represents_used _ _ _ Hr'). pose proof (encode_store_length tag bs items). split; [lia|].
    destruct Ht as (Ht & H1 & H2). unfold dhcppkt_store in E. rewrite find_field_plain in E by done.
    pose proof (dhcpopt_store_alloc (options p) tag bs) as Ha. destruct (dhcpopt_store _ _ _ _) as [[[]|] o']; [|done]. by injection E as <-.
  - exfalso. destruct Ht as (Ht & H1 & H2). unfold dhcppkt_store in E. rewrite find_field_plain in E by done. unfold dhcpopt_store in E.
    destruct (set_dhcp_option _ _ _ _ _) as [r o'] eqn:Es. apply (set_plain_spec dhcpopt_no_realloc _ items tail) in Es; [|done..]. destruct r; [done|].
    destruct Es as [_ [[_ Hx]|(n & Hn & _)]]; [lia|]. rewrite encode_new_item_length in Hn. unfold DHCP_OPTION_HEADER_LEN in Hn. case_decide; lia.
Qed.

Lemma options_store_room p items tail l :
  represents (options p) items tail -> Forall (fun x => option_tag_ok x.1) l -> Forall (fun x => (length x.2 <= 253)%nat) l ->
  used_len (options p) + stores_len l <= alloc_len (options p) ->
  exists p', store_all p l = (Ok tt, p') /\ used_len (options p') <= used_len (options p) + stores_len l /\ alloc_len (options p') = alloc_len (options p).
Proof.
  intros Hr Hl Hb. revert p items Hr. induction Hl as [|[tag bs] l Ht _ IH]; intros p items Hr Hroom; cbn [store_all stores_len foldr fst snd] in *.
  { exists p. split_and!; [done|lia|done]. }
  apply Forall_cons in Hb as [Hb1 Hb2]. cbn [fst snd] in Ht, Hb1. fold (stores_len l) in Hroom |- *. assert (0 <= stores_len l) as H0 by (clear; induction l as [|x l IH]; simpl; lia).
  destruct (option_store_room _ _ _ _ bs Hr Ht Hb1) as (p1 & -> & Hr1 & Hu1 & Ha1); [lia|].
  destruct (IH Hb2 p1 _ Hr1) as (p2 & -> & Hu2 & Ha2); [lia|]. exists p2. split_and!; [done|lia|congruence].
Qed.

(** ** The options of a new request *)

Section requests.
Context (netdev : net_device) (arch : Z) (ndi : Z * Z * Z).

Lemma request_items_ok : Forall item_ok (dhcp_request_items arch ndi).
Proof. repeat constructor; unfold DHCP_MAX_OPTION, DHCP_MAX_LEN; simpl; vm_compute; congruence. Qed.

(** The header that [dhcp_create_packet] fills in. *)
Definition new_header (e : environment) (msgtype xid : Z) (m : mem) : Prop :=
  mload m HDR_XID 4 = be32 xid /\ mload m HDR_MAGIC 4 = be32 DHCP_MAGIC_COOKIE /\ m HDR_OP = dhcp_op msgtype /\
  mload m HDR_CHADDR (length (nd_ll_addr netdev)) = nd_ll_addr netdev.

(** The block that [dhcp_create_packet] sets up and stores the message type in. *)
Lemma create_packet_block e msgtype xid data max_len :
  (length (nd_ll_addr netdev) <= 16)%nat -> HDR_OPTIONS + Z.of_nat (length (dhcp_request_options_data arch ndi)) <= max_len < 2 ^ 31 ->
  exists m, dhcp_create_packet netdev e msgtype xid (dhcp_request_options_data arch ndi) data max_len =
      dhcppkt_store (dhcppkt_init m max_len) DHCP_MESSAGE_TYPE [msgtype] /\
    represents (options (dhcppkt_init m max_len)) (dhcp_request_items arch ndi) [DHCP_END] /\ new_header e msgtype xid m.
Proof.
  intros Hll [Hfit Hmax]. unfold dhcp_create_packet. set (opts := dhcp_request_options_data arch ndi) in *. rewrite decide_False by lia. cbv zeta.
  set (flags := be16 _). set (m := memcpy _ HDR_FLAGS flags). exists m. split; [done|]. unfold HDR_OPTIONS in Hfit.
  assert (length flags = 2%nat) as Hfl by done. assert (forall v, length (be32 v) = 4%nat) as Hb4 by done.
  destruct (dhcppkt_init_represents m max_len (dhcp_request_items arch ndi) [DHCP_END] (Z.to_nat (max_len - 240) - length opts)) as [Hr _].
  - unfold HDR_OPTIONS. lia.
  - rewrite app_assoc. fold (dhcp_request_options_data arch ndi). fold opts. unfold HDR_OPTIONS.
    assert (Z.to_nat (max_len - 240) = length opts + (Z.to_nat (max_len - 240) - length opts))%nat as Hn by lia. rewrite Hn at 1. rewrite mload_app. apply (f_equal2 app).
    + unfold m, HDR_OPTIONS, HDR_FLAGS. rewrite mload_memcpy_outside by (rewrite Hfl; lia). apply mload_memcpy.
    + unfold m, HDR_FLAGS, HDR_OPTIONS, HDR_CHADDR, HDR_HLEN, HDR_OP, HDR_HTYPE, HDR_MAGIC, HDR_XID.
      rewrite !mload_memcpy_outside by (rewrite ?Hfl; lia). rewrite !mload_mset_outside by lia. rewrite !mload_memcpy_outside by (rewrite ?Hb4; lia).
      apply mload_memset; lia.
  - apply request_items_ok.
  - by left.
  - split; [done|].
    unfold new_header, m, HDR_FLAGS, HDR_OPTIONS, HDR_CHADDR, HDR_HLEN, HDR_OP, HDR_HTYPE, HDR_MAGIC, HDR_XID. split_and!.
    + rewrite !mload_memcpy_outside by (rewrite ?Hfl; lia). rewrite !mload_mset_outside by lia. rewrite mload_memcpy_outside by (rewrite ?Hb4; lia).
      apply (mload_memcpy _ 4 (be32 xid)).
    + rewrite !mload_memcpy_outside by (rewrite ?Hfl; lia). rewrite !mload_mset_outside by lia. apply (mload_memcpy _ 236 (be32 DHCP_MAGIC_COOKIE)).
    + unfold memcpy at 1 2 3. rewrite !decide_False by (rewrite ?Hfl; lia). done.
    + rewrite !mload_memcpy_outside by (rewrite ?Hfl; lia). apply mload_memcpy.
Qed.

Lemma create_packet_ok e msgtype xid data max_len p :
  (length (nd_ll_addr netdev) <= 16)%nat -> max_len < 2 ^ 31 ->
  dhcp_create_packet netdev e msgtype xid (dhcp_request_options_data arch ndi) data max_len = (Ok tt, p) ->
  represents (options p) (store_items DHCP_MESSAGE_TYPE [msgtype] (dhcp_request_items arch ndi)) [DHCP_END] /\ new_header e msgtype xid (dhcphdr p).
Proof.
  intros Hll Hmax E. destruct (decide (max_len < HDR_OPTIONS + Z.of_nat (length (dhcp_request_options_data arch ndi)))) as [Hs|Hs].
  { unfold dhcp_create_packet in E. by rewrite decide_True in E. }
  destruct (create_packet_block e msgtype xid data max_len) as (m & Hm & Hr & Hh); [done|lia|]. rewrite Hm in E.
  assert (option_tag_ok DHCP_MESSAGE_TYPE) as Ht by (by vm_compute). destruct (option_store _ _ _ _ _ _ Hr Ht E) as [Hr' Hh']. split; [done|]. by rewrite Hh'.
Qed.

(** What a request needs of the rest of the firmware: the features are
    options, none of which is the bus identifier; only the user and vendor
    class are set by request settings. *)
Record environment_ok (e : environment) : Prop := EnvironmentOk {
  eo_features : exists fs, dhcp_features e = encode_items fs /\ fs <> [] /\ Forall item_ok fs /\ Forall (fun i => ~ is_opt 177 i) fs;
  eo_busid : busid e <> [];
  eo_settings : Forall (fun x => x.1 = DHCP_VENDOR_CLASS_ID \/ x.1 = 77) (request_settings e);
  eo_room : forall room, iob_tailroom e = Some room -> room < 2 ^ 31;
}.

Definition client_id : list Z := u8 (nd_ll_proto netdev) :: nd_ll_addr netdev.

Lemma encode_items_nil items : encode_items items = [] -> items = [].
Proof. destruct items as [|[|t bs] items]; done. Qed.

(** The features and the bus identifier, which is placed in front of them. *)
Lemma encap_stores e p items p1 p2 :
  environment_ok e -> represents (options p) items [DHCP_END] -> Forall (fun i => ~ is_opt DHCP_EB_ENCAP i) items ->
  dhcppkt_store p DHCP_EB_ENCAP (dhcp_features e) = (Ok tt, p1) -> dhcppkt_store p1 DHCP_EB_BUS_ID (busid e) = (Ok tt, p2) ->
  exists eb, represents (options p2) (items ++ [Opt DHCP_EB_ENCAP eb]) [DHCP_END] /\ dhcphdr p2 = dhcphdr p.
Proof.
  intros [(fs & Hfs & Hne & Hok & Hno) Hbus _ _] Hr Habs E1 E2.
  assert (option_tag_ok DHCP_EB_ENCAP) as Ht by (by vm_compute). destruct (option_store _ _ _ _ _ _ Hr Ht E1) as [Hr1 Hh1].
  rewrite store_items_absent in Hr1 by done. unfold new_item in Hr1. rewrite Hfs in Hr1. rewrite decide_False in Hr1 by (by intros Hn%encode_items_nil).
  unfold dhcppkt_store in E2. assert (find_dhcp_packet_field DHCP_EB_BUS_ID = None) as Hf by done. rewrite Hf in E2.
  destruct (dhcpopt_store _ _ _ _) as [[[]|rc] o'] eqn:Es; [|done]. injection E2 as <-. cbn [options dhcphdr]. rewrite <- (app_nil_r (encode_items fs)) in Hr1.
  eapply (dhcpopt_encap_store _ _ items DHCP_EB_ENCAP fs [] []) in Es; [|by vm_compute|done|done|done|right; split_and!; [done|done|by exists []]|done|done].
  eexists. split; [exact Es|done].
Qed.

Lemma request_rest_tags e : environment_ok e ->
  Forall (fun x => x.1 = DHCP_CLIENT_UUID \/ x.1 = DHCP_VENDOR_CLASS_ID \/ x.1 = 77)
    (match client_uuid e with Some uuid => [(DHCP_CLIENT_UUID, DHCP_CLIENT_UUID_TYPE :: uuid_mangle uuid)] | None => [] end ++
     omap (fun '(tag, value) => (fun raw => (tag, raw)) <$> value) (request_settings e)).
Proof.
  intros [_ _ Hset _]. apply Forall_app. split; [destruct (client_uuid e); repeat constructor; by left|]. induction Hset as [|[tag [raw|]] l Hx _ IH]; cbn [omap list_omap fmap option_fmap option_map]; [done| |done].
  constructor; [by right|done].
Qed.

Lemma create_request_ok e msgtype xid ciaddr data max_len p :
  environment_ok e -> (length (nd_ll_addr netdev) <= 16)%nat -> max_len < 2 ^ 31 ->
  dhcp_create_request netdev arch ndi e msgtype xid ciaddr data max_len = (Ok tt, p) ->
  exists items, represents (options p) items [DHCP_END] /\ fetch_items DHCP_MESSAGE_TYPE items = Some [msgtype] /\
    fetch_items DHCP_CLIENT_ID items = Some client_id /\ new_header e msgtype xid (dhcphdr p) /\ mload (dhcphdr p) HDR_CIADDR 4 = be32 ciaddr.
Proof.
  intros Henv Hll Hmax. unfold dhcp_create_request. destruct (dhcp_create_packet _ _ _ _ _ _ _) as [[[]|rc] p0] eqn:E0; [|done].
  destruct (create_packet_ok _ _ _ _ _ _ Hll Hmax E0) as [Hr0 Hh0]. unfold request_stores. cbn [app store_all].
  set (p1 := with_hdr p0 _ _). destruct (dhcppkt_store p1 DHCP_EB_ENCAP _) as [[[]|rc] p2] eqn:E2; [|done].
  destruct (dhcppkt_store p2 DHCP_EB_BUS_ID _) as [[[]|rc] p3] eqn:E3; [|done].
  edestruct (encap_stores e p1) as (eb & Hr3 & Hh3); [exact Henv|exact Hr0| |exact E2|exact E3|]; [by repeat constructor|].
  destruct (dhcppkt_store p3 DHCP_CLIENT_ID _) as [[[]|rc] p4] eqn:E4; [|done]. intros E5. pose proof (request_rest_tags e Henv) as Htags.
  set (rest := _ ++ _) in E5, Htags. assert (Forall (fun x => option_tag_ok x.1) rest) as Hoks.
  { eapply Forall_impl; [exact Htags|]. intros x [-> |[-> | ->]]; by vm_compute. }
  assert (forall tag, tag = DHCP_MESSAGE_TYPE \/ tag = DHCP_CLIENT_ID -> tag ∉ rest.*1) as Hnot.
  { intros tag Htag Hin. apply list_elem_of_fmap in Hin as (x & -> & Hin). rewrite Forall_forall in Htags. specialize (Htags x Hin).
    unfold DHCP_MESSAGE_TYPE, DHCP_CLIENT_ID, DHCP_CLIENT_UUID, DHCP_VENDOR_CLASS_ID in *. lia. }
  assert (option_tag_ok DHCP_CLIENT_ID) as Hid by (by vm_compute). destruct (option_store _ _ _ _ _ _ Hr3 Hid E4) as [Hr4 Hh4].
  destruct (options_store _ _ _ _ _ Hr4 Hoks E5) as [Hr5 Hh5]. eexists. split; [exact Hr5|]. rewrite !fold_items_other by auto.
  rewrite Hh5, Hh4, Hh3. unfold p1. cbn [with_hdr dhcphdr]. split_and!.
  - rewrite fetch_store_other by done. done.
  - by rewrite fetch_store_same.
  - destruct Hh0 as (H1 & H2 & H3 & H4). unfold new_header, HDR_XID, HDR_MAGIC, HDR_OP, HDR_CHADDR, HDR_CIADDR in *. split_and!.
    + rewrite mload_memcpy_outside by (cbn [be32 length]; lia). done.
    + rewrite mload_memcpy_outside by (cbn [be32 length]; lia). done.
    + done.
    + rewrite mload_memcpy_outside by (cbn [be32 length]; lia). done.
  - apply (mload_memcpy _ HDR_CIADDR (be32 ciaddr)).
Qed.

(** A buffer with room for the common options and all that are stored makes the request. *)
Record transmits (e : environment) : Prop := Transmits {
  tr_env : environment_ok e;
  tr_room : exists room, iob_tailroom e = Some room /\
    HDR_OPTIONS + Z.of_nat (length (dhcp_request_options_data arch ndi)) + stores_len ((DHCP_MESSAGE_TYPE, [0]) :: request_stores netdev e) +
      stores_len [(DHCP_SERVER_IDENTIFIER, be32 0); (DHCP_REQUESTED_ADDRESS, be32 0)] <= room;
  tr_values : Forall (fun x => (length x.2 <= 253)%nat) (request_stores netdev e);
  tr_encap : (length (dhcp_features e) + 2 + length (busid e) <= 255)%nat;
  tr_deliver : xfer_deliver e = Ok tt;
}.

Lemma create_packet_room e msgtype xid data max_len :
  (length (nd_ll_addr netdev) <= 16)%nat -> max_len < 2 ^ 31 -> HDR_OPTIONS + Z.of_nat (length (dhcp_request_options_data arch ndi)) + 3 <= max_len ->
  exists p, dhcp_create_packet netdev e msgtype xid (dhcp_request_options_data arch ndi) data max_len = (Ok tt, p) /\
    used_len (options p) = Z.of_nat (length (dhcp_request_options_data arch ndi)) /\ alloc_len (options p) = max_len - HDR_OPTIONS.
Proof.
  intros Hll Hmax Hroom. destruct (create_packet_block e msgtype xid data max_len) as (m & Hm & Hr & Hh); [done|lia|]. rewrite Hm.
  pose proof (represents_used _ _ _ Hr) as Hu. rewrite <- length_app in Hu. fold (dhcp_request_options_data arch ndi) in Hu.
  assert (alloc_len (options (dhcppkt_init m max_len)) = max_len - HDR_OPTIONS) as Ha.
  { unfold dhcppkt_init. cbn [options]. unfold dhcpopt_init, dhcpopt_update_used_len. cbn [alloc_len]. by rewrite wrap_small by (unfold HDR_OPTIONS in *; zlia). }
  destruct (option_store_room _ _ _ DHCP_MESSAGE_TYPE [msgtype] Hr) as (p & E & Hr' & _ & Ha'); [by vm_compute|simpl; lia|cbn [length]; lia|].
  exists p. split; [done|]. rewrite (represents_used _ _ _ Hr'). split; [done|congruence].
Qed.

Lemma encap_stores_room e p items :
  environment_ok e -> (length (dhcp_features e) + 2 + length (busid e) <= 255)%nat -> (length (busid e) <= 253)%nat ->
  represents (options p) items [DHCP_END] -> Forall (fun i => ~ is_opt DHCP_EB_ENCAP i) items ->
  used_len (options p) + stores_len [(DHCP_EB_ENCAP, dhcp_features e); (DHCP_EB_BUS_ID, busid e)] <= alloc_len (options p) ->
  exists p1 p2, dhcppkt_store p DHCP_EB_ENCAP (dhcp_features e) = (Ok tt, p1) /\ dhcppkt_store p1 DHCP_EB_BUS_ID (busid e) = (Ok tt, p2) /\
    used_len (options p2) <= used_len (options p) + stores_len [(DHCP_EB_ENCAP, dhcp_features e); (DHCP_EB_BUS_ID, busid e)] /\
    alloc_len (options p2) = alloc_len (options p).
Proof.
  intros Henv Hsum Hbl Hr Habs Hroom. cbn [stores_len foldr snd] in Hroom |- *.
  destruct (option_store_room _ _ _ DHCP_EB_ENCAP (dhcp_features e) Hr) as (p1 & E1 & Hr1 & Hu1 & Ha1); [by vm_compute|lia|lia|].
  destruct (eo_features _ Henv) as (fs & Hfs & Hne & Hok & Hno). rewrite store_items_absent in Hr1 by done.
  unfold new_item in Hr1. rewrite Hfs, decide_False in Hr1 by (by intros Hn%encode_items_nil). rewrite <- (app_nil_r (encode_items fs)) in Hr1.
  destruct (dhcpopt_encap_room (options p1) items DHCP_EB_ENCAP fs [] [] [DHCP_END] 177 (busid e)) as (o2 & E2);
    [by vm_compute|done|done|done|right; split_and!; [done|done|by exists []]|done|apply (eo_busid _ Henv)|rewrite app_nil_r, <- Hfs; lia|lia|].
  assert (dhcppkt_store p1 DHCP_EB_BUS_ID (busid e) = (Ok tt, DhcpPacket (dhcphdr p1) o2)) as E2'.
  { unfold dhcppkt_store. assert (find_dhcp_packet_field DHCP_EB_BUS_ID = None) as -> by done. change (DHCP_ENCAP_OPT DHCP_EB_ENCAP 177) with DHCP_EB_BUS_ID in E2. by rewrite E2. }
  exists p1, (DhcpPacket (dhcphdr p1) o2). split_and!; [done|done| |].
  - pose proof (dhcpopt_encap_store (options p1) o2 items DHCP_EB_ENCAP fs [] [] [DHCP_END] 177 (busid e)) as Hr2. ospecialize (Hr2 _ _ _ _ _ _ _ E2);
      [by vm_compute|done|done|done|right; split_and!; [done|done|by exists []]|done|apply (eo_busid _ Henv)|]. cbn [options].
    assert (forall tag x, length (encode_items (items ++ [Opt tag x])) = length (encode_items items) + (2 + length x))%nat as Hlen.
    { intros tag x. rewrite encode_items_app, length_app, encode_items_cons, length_app. cbn [encode_item length encode_items fmap list_fmap mjoin list_join]. lia. }
    rewrite (represents_used _ _ _ Hr2). rewrite (represents_used _ _ _ Hr1) in Hu1. rewrite !app_nil_r, Hlen in *. rewrite encode_items_cons, length_app.
    cbn [encode_item length] in *. lia.
  - cbn [options]. pose proof (dhcpopt_store_alloc (options p1) DHCP_EB_BUS_ID (busid e)) as Ha. change (DHCP_ENCAP_OPT DHCP_EB_ENCAP 177) with DHCP_EB_BUS_ID in E2. rewrite E2 in Ha. cbn [snd] in Ha. congruence.
Qed.

Lemma create_request_room e msgtype xid ciaddr data room :
  environment_ok e -> (length (nd_ll_addr netdev) <= 16)%nat -> room < 2 ^ 31 ->
  Forall (fun x => (length x.2 <= 253)%nat) (request_stores netdev e) -> (length (dhcp_features e) + 2 + length (busid e) <= 255)%nat ->
  HDR_OPTIONS + Z.of_nat (length (dhcp_request_options_data arch ndi)) + stores_len ((DHCP_MESSAGE_TYPE, [0]) :: request_stores netdev e) <= room ->
  exists p, dhcp_create_request netdev arch ndi e msgtype xid ciaddr data room = (Ok tt, p) /\
    used_len (options p) <= Z.of_nat (length (dhcp_request_options_data arch ndi)) + stores_len (request_stores netdev e) /\
    alloc_len (options p) = room - HDR_OPTIONS.
Proof.
  intros Henv Hll Hmax Hval Hsum Hroom. assert (forall l, 0 <= stores_len l) as H0 by (intros l; induction l as [|x l IH]; simpl; lia).
  assert (forall x l, stores_len (x :: l) = 2 + Z.of_nat (length x.2) + stores_len l) as Hc by done.
  pose proof (request_rest_tags e Henv) as Htags. unfold dhcp_create_request, request_stores in *. cbn [app] in *.
  set (rest := (DHCP_CLIENT_ID, _) :: _) in *. assert (Forall (fun x => option_tag_ok x.1) rest) as Hoks.
  { constructor; [by vm_compute|]. eapply Forall_impl; [exact Htags|]. intros x [-> |[-> | ->]]; by vm_compute. }
  clearbody rest. rewrite !Hc in *. cbn [length snd] in *. pose proof (H0 rest).
  destruct (create_packet_room e msgtype xid data room Hll Hmax) as (p0 & E0 & Hu0 & Ha0); [lia|]. rewrite E0.
  destruct (create_packet_ok _ _ _ _ _ _ Hll Hmax E0) as [Hr0 _]. set (p1 := with_hdr p0 _ _).
  apply Forall_cons in Hval as [Hv1 [Hv2 Hval]%Forall_cons]. cbn [snd] in Hv1, Hv2.
  destruct (encap_stores_room e p1 _ Henv Hsum Hv2 Hr0) as (p2 & p3 & E2 & E3 & Hu3 & Ha3);
    [by repeat constructor|rewrite !Hc; cbn [snd stores_len foldr]; change (options p1) with (options p0); rewrite Hu0, Ha0; lia|].
  destruct (encap_stores e p1 _ p2 p3 Henv Hr0) as (eb & Hr3 & _); [by repeat constructor|done|done|]. cbn [store_all]. rewrite E2, E3.
  rewrite !Hc in Hu3. cbn [snd stores_len foldr] in Hu3. change (options p1) with (options p0) in *.
  destruct (options_store_room p3 _ _ rest Hr3 Hoks Hval) as (p & E & Hu & Ha); [lia|]. exists p. split_and!; [exact E|lia|congruence].
Qed.

(** ** Reading the bytes that are sent *)

Lemma read_packet p items heap :
  represents (options p) items [DHCP_END] ->
  let q := received_packet heap (packet_bytes p) in
  represents (options q) items [DHCP_END] /\ forall a n, 0 <= a -> a + Z.of_nat n <= HDR_OPTIONS -> mload (dhcphdr q) a n = mload (dhcphdr p) a n.
Proof.
  intros (Hu & Ha & Hm & Hok & Htail) q. unfold q, received_packet. set (H := mload (dhcphdr p) 0 (Z.to_nat HDR_OPTIONS)).
  assert (length H = 240%nat) as HH by (unfold H; by rewrite mload_length).
  assert (packet_bytes p = H ++ encode_items items ++ [DHCP_END]) as Hb by (unfold packet_bytes; by rewrite Hm).
  set (m := memcpy heap 0 (packet_bytes p)). pose proof (mload_memcpy heap 0 (packet_bytes p)) as Hload. fold m in Hload. rewrite Hb in Hload at 2.
  apply mload_split in Hload as [Hl1 Hl2]. rewrite HH in Hl2.
  assert (Z.of_nat (length (packet_bytes p)) = 240 + used_len (options p)) as Hlen.
  { unfold packet_bytes. rewrite length_app, !mload_length. unfold HDR_OPTIONS. lia. }
  destruct (dhcppkt_init_represents m (Z.of_nat (length (packet_bytes p))) items [DHCP_END] 0) as [Hr Hh].
  - unfold HDR_OPTIONS. lia.
  - cbn [replicate]. rewrite app_nil_r, <- Hl2. f_equal. rewrite Hlen. unfold HDR_OPTIONS. apply (f_equal length) in Hm. rewrite mload_length in Hm. lia.
  - done.
  - by left.
  - split; [done|]. intros a n H0 Hn. rewrite Hh. apply mload_ext. intros x Hx. unfold HDR_OPTIONS in Hn.
    assert (H !! Z.to_nat x = Some (dhcphdr p (0 + Z.of_nat (Z.to_nat x)))) as Hx1 by (apply mload_lookup; unfold HDR_OPTIONS; lia).
    pose proof (mload_lookup m 0 (length H) (Z.to_nat x)) as Hx2. rewrite Hl1, Hx1 in Hx2. ospecialize (Hx2 _); [lia|].
    injection Hx2 as Hx2. rewrite !Z2Nat.id in Hx2 by lia. done.
Qed.

Lemma read_be32 (m : mem) a v : mload m a 4 = be32 v -> in_width 32 v -> get32 (mload m a 4) 0 = v.
Proof. intros -> Hv. unfold get32, get8. cbn [be32 nth Nat.add]. by apply be32_value. Qed.

Lemma read_var p items tag n bs :
  represents (options p) items [DHCP_END] -> option_tag_ok tag -> fetch_items tag items = Some bs -> length bs = n -> fetch_var p tag n = bs.
Proof.
  intros Hr Ht Hf Hn. unfold fetch_var. rewrite (option_fetch _ _ _ _ _ Hr Ht), Hf by lia. cbn [snd]. rewrite Nat2Z.id, take_ge by lia.
  rewrite Hn, Nat.sub_diag. by rewrite app_nil_r.
Qed.

Lemma request_sent e buf s s' heap :
  environment_ok e -> (length (nd_ll_addr netdev) <= 16)%nat -> s_state s <> dhcp_state_pxebs ->
  in_width 32 (s_xid s) -> in_width 32 (s_local s) -> in_width 32 (s_server s) -> in_width 32 (s_offer s) -> (s_state s = dhcp_state_proxy -> in_width 32 (s_proxy_server s)) ->
  dhcp_tx netdev arch ndi e buf s = (Ok tt, s') ->
  exists addr port bytes, s_sent s' = s_sent s ++ [(addr, port, bytes)] /\
    let q := received_packet heap bytes in
    pkt_xid q = s_xid s /\ pkt_chaddr netdev q = nd_ll_addr netdev /\ get_addr q HDR_CIADDR = s_local s /\
    fetch_var q DHCP_MESSAGE_TYPE 1 = [tx_msgtype (s_state s)] /\ fetch_var q DHCP_CLIENT_ID (length client_id) = client_id /\
    match s_state s with
    | dhcp_state_request =>
      addr = INADDR_BROADCAST /\ port = BOOTPS_PORT /\ server_id q = s_server s /\ get32 (fetch_var q DHCP_REQUESTED_ADDRESS 4) 0 = s_offer s
    | dhcp_state_proxy => addr = s_proxy_server s /\ port = PXE_PORT /\ server_id q = s_proxy_server s
    | _ => addr = INADDR_BROADCAST /\ port = BOOTPS_PORT
    end.
Proof.
  intros Henv Hll Hst Hx Hlo Hsrv Hoff Hpr E. unfold dhcp_tx in E. destruct (iob_tailroom e) as [room|] eqn:Hroom; [|done].
  destruct (dhcp_create_request _ _ _ _ _ _ _ _ _) as [[[]|rc] p0] eqn:Ec; [|done].
  destruct (create_request_ok _ _ _ _ _ _ _ Henv Hll (eo_room _ Henv _ Hroom) Ec) as (items & Hr & Hmsg & Hid & (Hxid & _ & _ & Hch) & Hci).
  cbv zeta in E. cbn [s_state s_xid s_local with_timer] in *. set (p1 := with_hdr p0 _ _) in E.
  destruct (state_tx _ p1) as [[[addr port]|rc] p2] eqn:Et; [|done].
  destruct (xfer_deliver e) as [[]|rc]; [|done]. injection E as <-. exists addr, port, (packet_bytes p2). split; [done|]. cbv zeta.
  assert (exists items2, represents (options p2) items2 [DHCP_END] /\ dhcphdr p2 = dhcphdr p1 /\
    fetch_items DHCP_MESSAGE_TYPE items2 = Some [tx_msgtype (s_state s)] /\ fetch_items DHCP_CLIENT_ID items2 = Some client_id /\
    match s_state s with
    | dhcp_state_request => addr = INADDR_BROADCAST /\ port = BOOTPS_PORT /\ fetch_items DHCP_SERVER_IDENTIFIER items2 = Some (be32 (s_server s)) /\
        fetch_items DHCP_REQUESTED_ADDRESS items2 = Some (be32 (s_offer s))
    | dhcp_state_proxy => addr = s_proxy_server s /\ port = PXE_PORT /\ fetch_items DHCP_SERVER_IDENTIFIER items2 = Some (be32 (s_proxy_server s))
    | _ => addr = INADDR_BROADCAST /\ port = BOOTPS_PORT
    end) as (items2 & Hr2 & Hh2 & Hmsg2 & Hid2 & Hstate).
  { unfold state_tx, dhcp_discovery_tx, dhcp_request_tx, dhcp_proxy_tx, dhcp_pxebs_tx in Et. cbn [s_state s_server s_offer s_proxy_server with_timer] in Et. destruct (s_state s); try done.
    - injection Et as <- <- <-. by exists items.
    - destruct (store_all p1 _) as [[[]|rc] p3] eqn:Es; [|done]. injection Et as <- <- <-.
      eapply options_store in Es as [Hr3 Hh3]; [|exact Hr|by repeat constructor]. eexists. split; [exact Hr3|].
      rewrite !fold_items_other by (cbn; set_solver). split_and!; [done|done|done|done|done| |].
      + cbn [fold_items foldl]. rewrite fetch_store_other by done. by rewrite fetch_store_same.
      + cbn [fold_items foldl]. by rewrite fetch_store_same.
    - destruct (dhcppkt_store p1 _ _) as [[[]|rc] p3] eqn:Es; [|done]. injection Et as <- <- <-.
      eapply option_store in Es as [Hr3 Hh3]; [|exact Hr|by vm_compute]. eexists. split; [exact Hr3|].
      rewrite !fetch_store_other by done. split_and!; [done|done|done|done|done|]. by rewrite fetch_store_same. }
  destruct (read_packet p2 items2 heap Hr2) as [Hrq Hhq]. set (q := received_packet heap _) in *.
  assert (forall a n, 12 <= a \/ a + Z.of_nat n <= 8 -> 0 <= a -> a + Z.of_nat n <= HDR_OPTIONS -> mload (dhcphdr q) a n = mload (dhcphdr p0) a n) as Hhdr.
  { intros a n Ha H0 Hn. rewrite Hhq, Hh2 by done. unfold p1, HDR_SECS. cbn [with_hdr dhcphdr]. apply mload_memcpy_outside. cbn [be16 length]. lia. }
  split_and!.
  - unfold pkt_xid, get_addr. apply read_be32; [|done]. rewrite Hhdr; [done|right; by vm_compute|done|by vm_compute].
  - unfold pkt_chaddr. rewrite Hhdr; [done|left; by vm_compute|done|unfold HDR_CHADDR, HDR_OPTIONS; lia].
  - unfold get_addr. apply read_be32; [|done]. rewrite Hhdr; [done|left; by vm_compute|done|by vm_compute].
  - by eapply read_var.
  - by eapply read_var.
  - destruct (s_state s); try done.
    + destruct Hstate as (? & ? & H1 & H2). split_and!; [done|done| |].
      * unfold server_id. rewrite (read_var q items2 _ 4 _ Hrq) with (2 := H1); [by apply be32_value|by vm_compute|done].
      * rewrite (read_var q items2 _ 4 _ Hrq) with (2 := H2); [by apply be32_value|by vm_compute|done].
    + destruct Hstate as (? & ? & H1). split_and!; [done|done|]. unfold server_id.
      rewrite (read_var q items2 _ 4 _ Hrq) with (2 := H1); [by apply be32_value, Hpr|by vm_compute|done].
Qed.

(** C29: a request that is sent is read by its receiver as it was meant: it
    belongs to the transaction, the hardware address and the client identifier
    of the session, has the message type of the state of the session and its
    local address; a DHCPREQUEST goes to all servers and names the server and
    the address of the offer, and a ProxyDHCP request goes to the proxy server
    and names it. *)
Theorem dhcp_request_correct e buf s s' heap :
  environment_ok e -> (length (nd_ll_addr netdev) <= 16)%nat -> s_state s <> dhcp_state_pxebs ->
  in_width 32 (s_xid s) -> in_width 32 (s_local s) -> in_width 32 (s_server s) -> in_width 32 (s_offer s) -> in_width 32 (s_proxy_server s) ->
  dhcp_tx netdev arch ndi e buf s = (Ok tt, s') ->
  exists addr port bytes, s_sent s' = s_sent s ++ [(addr, port, bytes)] /\
    let q := received_packet heap bytes in
    pkt_xid q = s_xid s /\ pkt_chaddr netdev q = nd_ll_addr netdev /\ get_addr q HDR_CIADDR = s_local s /\
    fetch_var q DHCP_MESSAGE_TYPE 1 = [tx_msgtype (s_state s)] /\ fetch_var q DHCP_CLIENT_ID (length client_id) = client_id /\
    match s_state s with
    | dhcp_state_request =>
      addr = INADDR_BROADCAST /\ port = BOOTPS_PORT /\ server_id q = s_server s /\ get32 (fetch_var q DHCP_REQUESTED_ADDRESS 4) 0 = s_offer s
    | dhcp_state_proxy => addr = s_proxy_server s /\ port = PXE_PORT /\ server_id q = s_proxy_server s
    | _ => addr = INADDR_BROADCAST /\ port = BOOTPS_PORT
    end.
Proof. intros Henv Hll Hst Hx Hlo Hsrv Hoff Hpr. by apply request_sent. Qed.

(** ** The exchange *)

Lemma tx_succeeds e buf s :
  transmits e -> (length (nd_ll_addr netdev) <= 16)%nat -> s_state s = dhcp_state_discover \/ s_state s = dhcp_state_request ->
  exists s', dhcp_tx netdev arch ndi e buf s = (Ok tt, s').
Proof.
  intros [Henv (room & Hroom & Hfit) Hval Hsum Hdel] Hll Hst. unfold dhcp_tx. rewrite Hroom, Hdel. pose proof (eo_room _ Henv _ Hroom) as Hmax.
  cbn [stores_len foldr snd length be32] in Hfit. fold (stores_len (request_stores netdev e)) in Hfit. cbn [s_state s_xid s_local with_timer].
  destruct (create_request_room e (tx_msgtype (s_state s)) (s_xid s) (s_local s) buf room Henv Hll Hmax Hval Hsum) as (p & Ep & Hu & Ha).
  { cbn [stores_len foldr snd length]. fold (stores_len (request_stores netdev e)). lia. }
  rewrite Ep. destruct (create_request_ok _ _ _ _ _ _ _ Henv Hll Hmax Ep) as (items & Hr & _). cbv zeta. set (p1 := with_hdr p _ _).
  unfold state_tx, dhcp_discovery_tx, dhcp_request_tx. cbn [s_state with_timer s_server s_offer]. destruct Hst as [-> | ->]; [by eexists|].
  destruct (options_store_room p1 items [DHCP_END] [(DHCP_SERVER_IDENTIFIER, be32 (s_server s)); (DHCP_REQUESTED_ADDRESS, be32 (s_offer s))]) as (p2 & E2 & _ & _).
  - exact Hr.
  - by repeat constructor.
  - repeat constructor; cbn [snd be32 length]; lia.
  - cbn [stores_len foldr snd length be32]. change (options p1) with (options p). unfold HDR_OPTIONS in *. lia.
  - rewrite E2. by eexists.
Qed.

(** A message that is sent to all servers, as they read it. *)
Definition message (heap : mem) (xid msgtype : Z) (m : Z * Z * list Z) : Prop :=
  let q := received_packet heap m.2 in
  m.1 = (INADDR_BROADCAST, BOOTPS_PORT) /\ pkt_xid q = xid /\ pkt_chaddr netdev q = nd_ll_addr netdev /\
  fetch_var q DHCP_MESSAGE_TYPE 1 = [msgtype] /\ fetch_var q DHCP_CLIENT_ID (length client_id) = client_id.
Definition requests (heap : mem) (server addr : Z) (m : Z * Z * list Z) : Prop :=
  let q := received_packet heap m.2 in server_id q = server /\ get32 (fetch_var q DHCP_REQUESTED_ADDRESS 4) 0 = addr.

(** A session that sends whenever its timer expires. *)
Record sending (st : dhcp_session_state) (xid offer server no_pxedhcp : Z) (sent : list (Z * Z * list Z)) (s : dhcp_session) : Prop := Sending {
  sd_state : s_state s = st;
  sd_xid : s_xid s = xid;
  sd_offer : s_offer s = offer;
  sd_server : s_server s = server;
  sd_no_pxedhcp : s_no_pxedhcp s = no_pxedhcp;
  sd_priority : st = dhcp_state_discover -> s_priority s = 0;
  sd_local : s_local s = 0;
  sd_registered : s_registered s = [];
  sd_done : s_done s = None;
  sd_sent : s_sent s = sent;
}.

Lemma timer_sends heap e buf st xid offer server np sent s :
  sending st xid offer server np sent s -> transmits e -> (length (nd_ll_addr netdev) <= 16)%nat ->
  in_width 32 xid -> in_width 32 offer -> in_width 32 server ->
  st = dhcp_state_request \/ st = dhcp_state_discover /\ offer = 0 /\ netdev_link_blocked e = false ->
  exists m, sending st xid offer server np (sent ++ [m]) (dhcp_step netdev arch ndi s (e, TimerExpired buf false)) /\
    message heap xid (tx_msgtype st) m /\ (st = dhcp_state_request -> requests heap server offer m).
Proof.
  intros [Hst Hx Ho Hs Hnp Hp Hl Hreg Hd Hsent] Htr Hll Hwx Hwo Hws Hcase. unfold dhcp_step. rewrite Hd. unfold dhcp_timer_expired. set (s1 := with_count _ _).
  assert (s_state s1 = st) as Hst1 by exact Hst. destruct (tx_succeeds e buf s1 Htr Hll) as [s' E]; [rewrite Hst1; naive_solver|].
  assert (match s_state s1 with dhcp_state_discover => dhcp_discovery_expired netdev arch ndi e buf s1 | dhcp_state_request => dhcp_request_expired netdev arch ndi e buf s1
    | dhcp_state_proxy => dhcp_proxy_expired netdev arch ndi e buf s1 | dhcp_state_pxebs => dhcp_pxebs_expired netdev arch ndi e buf s1 end = s') as ->.
  { rewrite Hst1. destruct Hcase as [-> |(-> & Hz & Hb)].
    - unfold dhcp_request_expired. by rewrite E.
    - unfold dhcp_discovery_expired. rewrite Hb, decide_False by (by intros []). rewrite decide_False; [by rewrite E|]. intros [Hx' _]. apply Hx'. cbn [s1 s_offer with_count with_timer]. congruence. }
  destruct (request_sent e buf s1 s' heap (tr_env _ Htr) Hll) as (a & port & bytes & Hs' & H1 & H2 & _ & H4 & H5 & H6); [..|exact E|].
  { rewrite Hst1. intros ->. naive_solver. } { by rewrite <- Hx in Hwx. } { cbn [s1 s_local with_count with_timer]. rewrite Hl. by vm_compute. }
  { by rewrite <- Hs in Hws. } { by rewrite <- Ho in Hwo. } { rewrite Hst1. intros ->. naive_solver. }
  exists (a, port, bytes). split; [|split].
  - destruct (dhcp_tx_cases netdev arch ndi e buf s1) as [Ht|[m Ht]]; rewrite E in Ht; cbn [snd] in Ht; subst s'.
    + exfalso. change (s_sent (with_timer Backoff s1)) with (s_sent s1) in Hs'. apply (f_equal length) in Hs'. rewrite length_app in Hs'. simpl in Hs'. lia.
    + constructor; try done. by rewrite Hs', <- Hsent.
  - rewrite Hst1 in *. unfold message. cbn [fst snd]. split_and!; [|by rewrite H1|done|done|done]. destruct Hcase as [-> |(-> & _)]; naive_solver.
  - intros ->. rewrite Hst1 in H6. destruct H6 as (_ & _ & H7 & H8). unfold requests. cbn [snd]. rewrite H7, H8. by split.
Qed.

Definition expires (x : environment * mem) : environment * dhcp_event := (x.1, TimerExpired x.2 false).

Lemma timers_send heap timers st xid offer server np sent s :
  sending st xid offer server np sent s -> (length (nd_ll_addr netdev) <= 16)%nat -> in_width 32 xid -> in_width 32 offer -> in_width 32 server ->
  Forall (fun x => transmits x.1 /\ (st = dhcp_state_request \/ st = dhcp_state_discover /\ offer = 0 /\ netdev_link_blocked x.1 = false)) timers ->
  exists ms, sending st xid offer server np (sent ++ ms) (foldl (dhcp_step netdev arch ndi) s (expires <$> timers)) /\ length ms = length timers /\
    Forall (fun m => message heap xid (tx_msgtype st) m /\ (st = dhcp_state_request -> requests heap server offer m)) ms.
Proof.
  intros Hsd Hll Hwx Hwo Hws Ht. revert s sent Hsd. induction Ht as [|[e buf] timers [Htr Hc] _ IH]; intros s sent Hsd; [exists []; by rewrite app_nil_r|].
  destruct (timer_sends heap e buf _ _ _ _ _ _ _ Hsd Htr Hll Hwx Hwo Hws Hc) as (m & Hsd' & Hm). destruct (IH _ _ Hsd') as (ms & Hsd'' & Hlen & Hms).
  exists (m :: ms). rewrite <- app_assoc in Hsd''. split_and!; [done|simpl; lia|by constructor].
Qed.

(** C28: the exchange succeeds.  Each expiry of the timer in discovery, with
    the link up, broadcasts a DHCPDISCOVER; when a server then offers an
    address and asks not to wait for proxies, each expiry broadcasts a
    DHCPREQUEST that names the server and the address, however often the
    session has to retransmit; and an acknowledgement ends it with the lease,
    with nothing else sent.  At each expiry a buffer with room for the options
    can be allocated and the interface takes the packet ([transmits]); the
    settings can be registered. *)
Theorem dhcp_exchange_completes e random s timers1 ev1 timers2 ev2 addr server priority p1 i1 p2 heap :
  start_dhcp e false random (Ok tt) = Ok s -> (length (nd_ll_addr netdev) <= 16)%nat -> in_width 32 addr -> in_width 32 server ->
  Forall (fun x => transmits x.1 /\ netdev_link_blocked x.1 = false) timers1 -> Forall (fun x => transmits x.1) timers2 ->
  offers netdev (u32 random) ev1 addr server priority -> 0 <= priority -> received netdev (u32 random) ev1 = Some (p1, i1) -> pkt_no_pxedhcp p1 <> 0 ->
  acknowledges netdev (u32 random) ev2 addr server p2 -> register_settings ev2.1 DHCP_SETTINGS_NAME = Ok tt ->
  let s' := dhcp_run netdev arch ndi s ((expires <$> timers1) ++ [ev1] ++ (expires <$> timers2) ++ [ev2]) in
  s_done s' = Some (Ok tt) /\ s_local s' = addr /\ s_registered s' = [(DHCP_SETTINGS_NAME, p2)] /\
  exists ds rs, s_sent s' = ds ++ rs /\ length ds = length timers1 /\ length rs = length timers2 /\
    Forall (message heap (u32 random) DHCPDISCOVER) ds /\
    Forall (fun m => message heap (u32 random) DHCPREQUEST m /\ requests heap server addr m) rs.
Proof.
  intros Hs Hll Hwa Hws Ht1 Ht2 Ho Hp Hr1 Hnp Ha Hreg. unfold start_dhcp in Hs. cbn [result_bind] in Hs. injection Hs as <-. set (s0 := dhcp_set_state _ _ _).
  assert (in_width 32 (u32 random)) as Hwx by (unfold in_width, wrap; apply Z.mod_pos_bound; lia). cbv zeta. unfold dhcp_run. rewrite !foldl_app. cbn [foldl].
  assert (sending dhcp_state_discover (u32 random) 0 0 0 [] s0) as Hsd0 by done. clearbody s0.
  destruct (timers_send heap timers1 _ _ _ _ _ _ _ Hsd0 Hll Hwx) as (ds & Hsd1 & Hlen1 & Hds); [by vm_compute|by vm_compute|eapply Forall_impl; [exact Ht1|]; naive_solver|].
  set (s1 := foldl _ s0 _) in *. clearbody s1. assert (sending dhcp_state_request (u32 random) addr server (pkt_no_pxedhcp p1) ds (dhcp_step netdev arch ndi s1 ev1)) as Hsd2.
  { destruct Hsd1 as [Hst Hx Hof Hsv Hn Hpr Hl Hrg Hd Hsent]. destruct Ho as (p & i & E & Hport & Hmsg & Hyi & Hz & Hsrv & Hprio). rewrite Hr1 in E. injection E as <- <-.
    rewrite (step_received netdev arch ndi s1 ev1 p1 i1) by congruence. unfold dhcp_rx. rewrite Hst.
    destruct (discovery_requests ev1.1 p1 i1 s1) as (H1 & H2 & H3 & H4 & H5 & H6 & H7 & H8 & H9); [congruence|done|done|rewrite Hpr by done; lia|done|].
    cbn [app] in Hsent. constructor; (done || congruence). }
  set (s2 := dhcp_step _ _ _ s1 ev1) in *. clearbody s2.
  destruct (timers_send heap timers2 _ _ _ _ _ _ _ Hsd2 Hll Hwx Hwa Hws) as (rs & Hsd3 & Hlen2 & Hrs); [eapply Forall_impl; [exact Ht2|]; naive_solver|].
  set (s3 := foldl _ s2 _) in *. clearbody s3. destruct Hsd3 as [Hst Hx Hof Hsv Hn Hpr Hl Hrg Hd Hsent].
  destruct Ha as (i & Hr2 & Hport & Hmsg & Hyi & Hsrv). rewrite (step_received netdev arch ndi s3 ev2 p2 i) by congruence. unfold dhcp_rx. rewrite Hst.
  rewrite (request_acknowledged ev2.1 p2 i s3) by (congruence || naive_solver). cbn [dhcp_finished with_done with_timer with_registered with_local s_done s_local s_registered s_sent].
  rewrite Hd, Hrg. split_and!; [done|done|done|]. exists ds, rs. split_and!; [done|done|done| |].
  - eapply Forall_impl; [exact Hds|]. by intros m [].
  - eapply Forall_impl; [exact Hrs|]. intros m [H1 H2]. split; [done|by apply H2].
Qed.
End requests.

Lemma dhcp_request_correct_witness :
  let s := DhcpSample.run [DhcpSample.receive DhcpSample.offer] in
  exists addr port bytes, s_sent (dhcp_tx DhcpSample.netdev 0 DhcpSample.ndi DhcpSample.env (fun _ => 7) s).2 = s_sent s ++ [(addr, port, bytes)] /\
    server_id (received_packet (fun _ => 9) bytes) = DhcpSample.server.
Proof.
  intros s. destruct (dhcp_request_correct DhcpSample.netdev 0 DhcpSample.ndi DhcpSample.env (fun _ => 7) s
    (dhcp_tx DhcpSample.netdev 0 DhcpSample.ndi DhcpSample.env (fun _ => 7) s).2 (fun _ => 9)) as (addr & port & bytes & Hsent & _ & _ & _ & _ & _ & Hstate).
  - constructor.
    + exists [Opt 21 [1]]. split_and!; [reflexivity|discriminate| |]; repeat constructor; vm_compute; congruence.
    + discriminate.
    + constructor.
    + intros room [= <-]. vm_compute. reflexivity.
  - apply Nat.leb_le. reflexivity.
  - vm_compute. discriminate.
  - vm_compute. split; congruence.
  - vm_compute. split; congruence.
  - vm_compute. split; congruence.
  - vm_compute. split; congruence.
  - vm_compute. split; congruence.
  - apply injective_projections; [vm_compute; reflexivity|reflexivity].
  - exists addr, port, bytes. split; [exact Hsent|]. assert (s_state s = dhcp_state_request) as Hst by (vm_compute; reflexivity). rewrite Hst in Hstate.
    destruct Hstate as (_ & _ & Hs & _). rewrite Hs. vm_compute. reflexivity.
Defined.

Lemma sample_transmits : transmits DhcpSample.netdev 0 DhcpSample.ndi DhcpSample.env.
Proof.
  constructor.
  - constructor.
    + exists [Opt 21 [1]]. split_and!; [reflexivity|discriminate| |]; repeat constructor; vm_compute; congruence.
    + discriminate.
    + constructor.
    + intros room [= <-]. vm_compute. reflexivity.
  - exists 552. split; [reflexivity|]. vm_compute. discriminate.
  - repeat constructor; apply Nat.leb_le; reflexivity.
  - apply Nat.leb_le. reflexivity.
  - reflexivity.
Defined.

Lemma dhcp_exchange_completes_witness :
  let timer := (DhcpSample.env, fun _ => 0) in
  let s' := dhcp_run DhcpSample.netdev 0 DhcpSample.ndi DhcpSample.session
    ((expires <$> [timer]) ++ [DhcpSample.receive DhcpSample.offer] ++ (expires <$> [timer; timer]) ++ [DhcpSample.receive DhcpSample.ack]) in
  s_done s' = Some (Ok tt) /\ length (s_sent s') = 3%nat /\ exists d rs, s_sent s' = d :: rs /\
    Forall (requests (fun _ => 0) DhcpSample.server DhcpSample.address) rs.
Proof.
  intros timer s'. pose (p1 := received_packet (fun _ => 0) DhcpSample.offer). pose (p2 := received_packet (fun _ => 0) DhcpSample.ack).
  destruct (dhcp_exchange_completes DhcpSample.netdev 0 DhcpSample.ndi DhcpSample.env DhcpSample.xid DhcpSample.session
    [timer] (DhcpSample.receive DhcpSample.offer) [timer; timer] (DhcpSample.receive DhcpSample.ack)
    DhcpSample.address DhcpSample.server 0 p1 (packet_info p1 DhcpSample.server BOOTPS_PORT) p2 (fun _ => 0)) as (Hd & _ & _ & ds & rs & Hs & Hl1 & Hl2 & _ & Hrs).
  - reflexivity.
  - apply Nat.leb_le. reflexivity.
  - vm_compute. split; congruence.
  - vm_compute. split; congruence.
  - repeat constructor; apply sample_transmits.
  - repeat constructor; apply sample_transmits.
  - exists p1, (packet_info p1 DhcpSample.server BOOTPS_PORT).
    split_and!; [reflexivity|reflexivity|left; vm_compute; reflexivity|vm_compute; reflexivity|discriminate|vm_compute; reflexivity|vm_compute; reflexivity].
  - lia.
  - reflexivity.
  - vm_compute. discriminate.
  - exists (packet_info p2 DhcpSample.server BOOTPS_PORT). split_and!; [reflexivity|reflexivity|left; vm_compute; reflexivity|vm_compute; reflexivity|vm_compute; reflexivity].
  - reflexivity.
  - split; [exact Hd|]. fold s' in Hs. destruct ds as [|d [|]]; try discriminate Hl1. rewrite Hs. split; [cbn [length app]; rewrite Hl2; reflexivity|]. exists d, rs.
    split; [reflexivity|]. eapply Forall_impl; [exact Hrs|]. intros m [_ Hm]. exact Hm.
Defined.
