(* ===== verification/Vsprintf.v ===== *)
(** * Formatted output (core/vsprintf.c)

    [vcprintf] interprets a format string over a list of typed arguments.
    The characters it emits are a list; the handlers that store them in a
    buffer are applied to that list.  [None] is behaviour the C standard does
    not define: an argument that is missing or has the wrong type, a format
    that ends in the middle of a conversion, a length modifier outside the
    table, a number too wide for the 32-byte temporary buffer, or a store
    outside the buffer of the caller.  The wide
    character conversion is the stub of include/wchar.h.  Types have their
    sizes on a 64-bit build. *)

From S2P Require Import Prelude CMem Strings.

Definition LCASE : Z := 32.
Definition ALT_FORM : Z := 2.
Definition ZPAD : Z := 16.
Definition INT_LEN : Z := 2.
Definition LONG_LEN : Z := 3.
Definition SIZE_T_LEN : Z := 5.
Definition type_sizes : list Z := [1; 2; 4; 8; 8; 8].

(** "0123456789ABCDEF" *)
Definition hex_digits : list Z := [48; 49; 50; 51; 52; 53; 54; 55; 56; 57; 65; 66; 67; 68; 69; 70].

(** The digit loop, filling the buffer backwards; a 64-bit number has at most
    16 hexadecimal digits. *)
Fixpoint hex_loop (fuel : nat) (case_mod num : Z) (acc : list Z) : list Z :=
  match fuel with
  | O => acc
  | S fuel =>
    let acc := Z.lor (nth (Z.to_nat (Z.land num 15)) hex_digits 0) case_mod :: acc in
    let num := Z.shiftr num 4 in
    if decide (num <> 0) then hex_loop fuel case_mod num acc else acc
  end.

(** [while ( ( end - ptr ) < width ) *(--ptr) = pad;] *)
Definition pad_to (width pad : Z) (acc : list Z) : list Z :=
  replicate (Z.to_nat (width - Z.of_nat (length acc))) pad ++ acc.

Definition format_hex (num width flags : Z) : list Z :=
  let case_mod := Z.land flags LCASE in
  let pad := Z.lor (Z.land flags ZPAD) 32 in
  let ptr := hex_loop 16 case_mod num [] in
  let ptr := pad_to width pad ptr in
  if decide (Z.land flags ALT_FORM <> 0) then 48 :: Z.lor 88 case_mod :: ptr else ptr.

(** At most 19 decimal digits. *)
Fixpoint dec_loop (fuel : nat) (num : Z) (acc : list Z) : list Z :=
  match fuel with
  | O => acc
  | S fuel =>
    let acc := u8 (48 + Z.rem num 10) :: acc in
    let num := Z.quot num 10 in
    if decide (num <> 0) then dec_loop fuel num acc else acc
  end.

Definition format_decimal (num width flags : Z) : list Z :=
  let zpad := Z.land flags ZPAD in
  let pad := Z.lor zpad 32 in
  let negative := bool_decide (num < 0) in
  let num := if negative then s64 (- num) else num in
  let ptr := dec_loop 19 num [] in
  let ptr := if negative && bool_decide (zpad = 0) then 45 :: ptr else ptr in
  let ptr := pad_to width pad ptr in
  if negative && bool_decide (zpad <> 0) then <[0%nat := 45]> ptr else ptr.

(** ** Format strings *)

Inductive varg :=
  | VInt (value : Z)
  | VStr (s : option (list Z))
  | VWide (s : option (list Z))
  | VPtr (p : Z).

Fixpoint parse_flags (fmt : list Z) (flags : Z) : Z * list Z :=
  match fmt with
  | c :: fmt' =>
    if decide (c = 35) then parse_flags fmt' (Z.lor flags ALT_FORM)
    else if decide (c = 48) then parse_flags fmt' (Z.lor flags ZPAD)
    else (flags, fmt)
  | [] => (flags, [])
  end.

Fixpoint parse_width (fmt : list Z) (width : Z) : Z * list Z :=
  match fmt with
  | c :: fmt' => if decide (u32 (c - 48) < 10) then parse_width fmt' (width * 10 + (c - 48)) else (width, fmt)
  | [] => (width, [])
  end.

Fixpoint parse_length (fmt : list Z) (length : Z) : Z * list Z :=
  match fmt with
  | c :: fmt' =>
    if decide (c = 104) then parse_length fmt' (length - 1)
    else if decide (c = 108) then parse_length fmt' (length + 1)
    else if decide (c = 122) then parse_length fmt' SIZE_T_LEN
    else (length, fmt)
  | [] => (length, [])
  end.

(** [*length] *)
Definition type_size (length : Z) : option Z :=
  if decide (0 <= length) then type_sizes !! Z.to_nat length else None.

Definition null_string : list Z := [60; 78; 85; 76; 76; 62].

(** A number goes through [tmp_buf], which has room for 31 characters. *)
Definition via_tmp_buf (s : list Z) (args : list varg) : option (list Z * list varg) :=
  if decide (length s <= 31)%nat then Some (s, args) else None.

(** The conversion of one argument: its characters and the other arguments. *)
Definition convert (c flags width len : Z) (args : list varg) : option (list Z * list varg) :=
  if decide (c = 99) then
    match args with
    | VInt v :: args =>
      if decide (len < LONG_LEN) then Some ([u8 v], args)
      else Some (if decide (u8 v = 0) then [] else [u8 v], args)
    | _ => None
    end
  else if decide (c = 115) then
    if decide (len < LONG_LEN) then
      match args with
      | VStr s :: args => Some (match s with Some s => s | None => null_string end, args)
      | _ => None
      end
    else
      match args with
      | VWide s :: args => Some (match s with Some s => map u8 s | None => null_string end, args)
      | _ => None
      end
  else if decide (c = 112) then
    match args with
    | VPtr p :: args => via_tmp_buf (format_hex (u64 p) width (Z.lor ALT_FORM LCASE)) args
    | _ => None
    end
  else if decide (Z.land c (Z.lnot 32) = 88) then
    match type_size len, args with
    | Some size, VInt v :: args =>
      via_tmp_buf (format_hex (if decide (size >= 8) then u64 v else u32 v) width (Z.lor flags (Z.land c 32))) args
    | _, _ => None
    end
  else if decide (c = 100 \/ c = 105) then
    match type_size len, args with
    | Some size, VInt v :: args =>
      via_tmp_buf (format_decimal (if decide (size >= 8) then s64 v else s32 v) width flags) args
    | _, _ => None
    end
  else Some ([c], args).

(** The fuel is the length of the format string. *)
Fixpoint vcprintf_loop (fuel : nat) (fmt : list Z) (args : list varg) : option (list Z) :=
  match fmt, fuel with
  | [], _ => Some []
  | _, O => None
  | c :: fmt, S fuel =>
    if decide (c <> 37) then (cons c) <$> vcprintf_loop fuel fmt args
    else
      let '(flags, fmt) := parse_flags fmt 0 in
      let '(width, fmt) := parse_width fmt 0 in
      let '(len, fmt) := parse_length fmt INT_LEN in
      match fmt with
      | [] => None
      | c :: fmt =>
        match convert c flags width len args with
        | Some (s, args) => app s <$> vcprintf_loop fuel fmt args
        | None => None
        end
      end
  end.

Definition vcprintf (fmt : list Z) (args : list varg) : option (list Z) := vcprintf_loop (length fmt) fmt args.

(** [buf[i] = c], which is not defined outside the buffer. *)
Definition store (buf : list Z) (i : nat) (c : Z) : option (list Z) :=
  if decide (i < length buf)%nat then Some (<[i := c]> buf) else None.

(** [len] is the number of characters that were emitted before. *)
Definition printf_sputc (buf : list Z) (max_len len : nat) (c : Z) : option (list Z) :=
  if decide (len < max_len)%nat then store buf len c else Some buf.

(** [printf_sputc] for each character in turn. *)
Fixpoint sputs (buf : list Z) (max_len len : nat) (s : list Z) : option (list Z) :=
  match s with
  | [] => Some buf
  | c :: s => match printf_sputc buf max_len len c with None => None | Some buf => sputs buf max_len (S len) s end
  end.

(** The return value is an [int]; [size] is what the caller says of the size
    of the buffer [buf]. *)
Definition vsnprintf_sized (buf : list Z) (size : nat) (fmt : list Z) (args : list varg) : option (Z * list Z) :=
  match vcprintf fmt args with
  | None => None
  | Some s =>
    match sputs buf size 0 s with
    | None => None
    | Some buf =>
      if decide (size <> 0)%nat then
        let end_ := (size - 1)%nat in
        let end_ := if decide (length s < end_)%nat then length s else end_ in
        match store buf end_ 0 with None => None | Some buf => Some (s32 (Z.of_nat (length s)), buf) end
      else Some (s32 (Z.of_nat (length s)), buf)
    end
  end.

(** With the size of the buffer. *)
Definition vsnprintf (buf fmt : list Z) (args : list varg) : option (Z * list Z) := vsnprintf_sized buf (length buf) fmt args.

(** [ssnprintf ( ( data + used ), ( len - used ), ... )] on the buffer [data]
    of [len] bytes; a negative size is treated as zero. *)
Definition vssnprintf (data : list Z) (used : nat) (fmt : list Z) (args : list varg) : option (Z * list Z) :=
  match vsnprintf (drop used data) fmt args with
  | Some (len, buf) => Some (len, take used data ++ buf)
  | None => None
  end.

(** ** Lemmas *)

(** One step of the format loop for the directives the firmware uses most. *)
Lemma vcprintf_plain fuel c fmt args :
  c <> 37 -> vcprintf_loop (S fuel) (c :: fmt) args = cons c <$> vcprintf_loop fuel fmt args.
Proof. intros Hc. cbn [vcprintf_loop]. by rewrite decide_True. Qed.

Lemma vcprintf_c fuel fmt v args :
  vcprintf_loop (S fuel) (37 :: 99 :: fmt) (VInt v :: args) = app [u8 v] <$> vcprintf_loop fuel fmt args.
Proof. reflexivity. Qed.

Lemma vcprintf_s fuel fmt s args :
  vcprintf_loop (S fuel) (37 :: 115 :: fmt) (VStr (Some s) :: args) = app s <$> vcprintf_loop fuel fmt args.
Proof. reflexivity. Qed.

Lemma vcprintf_d fuel fmt v args s :
  format_decimal (s32 v) 0 0 = s -> (length s <= 31)%nat ->
  vcprintf_loop (S fuel) (37 :: 100 :: fmt) (VInt v :: args) = app s <$> vcprintf_loop fuel fmt args.
Proof.
  intros <- Hl. transitivity (match via_tmp_buf (format_decimal (s32 v) 0 0) args with
    | Some (s, args) => app s <$> vcprintf_loop fuel fmt args | None => None end); [reflexivity|].
  unfold via_tmp_buf. by rewrite decide_True.
Qed.

Lemma vcprintf_zd fuel fmt v args s :
  format_decimal (s64 v) 0 0 = s -> (length s <= 31)%nat ->
  vcprintf_loop (S fuel) (37 :: 122 :: 100 :: fmt) (VInt v :: args) = app s <$> vcprintf_loop fuel fmt args.
Proof.
  intros <- Hl. transitivity (match via_tmp_buf (format_decimal (s64 v) 0 0) args with
    | Some (s, args) => app s <$> vcprintf_loop fuel fmt args | None => None end); [reflexivity|].
  unfold via_tmp_buf. by rewrite decide_True.
Qed.

Lemma digits_value_app base acc ds1 ds2 :
  digits_value base acc (ds1 ++ ds2) = digits_value base (digits_value base acc ds1) ds2.
Proof. revert acc. induction ds1 as [|d ds1 IH]; intros acc; simpl; auto. Qed.

Lemma digits_value_zeroes base n ds : digits_value base 0 (replicate n 0 ++ ds) = digits_value base 0 ds.
Proof. induction n as [|n IH]; simpl; auto. Qed.

Definition is_numeral (base num : Z) (ds : list Z) : Prop :=
  Forall (fun d => 0 <= d < base) ds /\ digits_value base 0 ds = num.

Lemma is_numeral_snoc base q d ds : is_numeral base q ds -> 0 <= d < base -> is_numeral base (q * base + d) (ds ++ [d]).
Proof.
  intros [H1 H2] Hd. split; [apply Forall_app; split; [done|by constructor]|]. by rewrite digits_value_app, H2.
Qed.

Lemma hex_digit_lcase d : 0 <= d < 16 -> Z.lor (nth (Z.to_nat d) hex_digits 0) 32 = digit_char d.
Proof.
  intros Hd. assert (forall n, (n < 16)%nat -> Z.lor (nth n hex_digits 0) 32 = digit_char (Z.of_nat n)) as H.
  { intros n Hn. do 16 (destruct n as [|n]; [reflexivity|]). lia. }
  rewrite H by lia. f_equal. lia.
Qed.

Lemma hex_loop_spec fuel num acc :
  (0 < fuel)%nat -> 0 <= num < 16 ^ Z.of_nat fuel ->
  exists ds, hex_loop fuel 32 num acc = map digit_char ds ++ acc /\ is_numeral 16 num ds.
Proof.
  revert num acc. induction fuel as [|fuel IH]; intros num acc Hf Hn; [lia|]. cbn [hex_loop].
  rewrite Nat2Z.inj_succ, Z.pow_succ_r in Hn by lia.
  change 15 with (2 ^ 4 - 1). rewrite land_ones_mod by lia. rewrite Z.shiftr_div_pow2 by lia. change (2 ^ 4) with 16.
  pose proof (Z.div_mod num 16). pose proof (Z.mod_pos_bound num 16 ltac:(lia)) as H0.
  rewrite hex_digit_lcase by lia. case_decide as Hz.
  - destruct (IH (num / 16) (digit_char (num `mod` 16) :: acc)) as (ds & -> & Hds).
    + destruct fuel; [|lia]. simpl in Hn. rewrite Z.div_small in Hz by lia. done.
    + split; [apply Z.div_pos; lia|]. apply Z.div_lt_upper_bound; lia.
    + exists (ds ++ [num `mod` 16]). rewrite map_app, <- app_assoc. split; [done|].
      pose proof (is_numeral_snoc 16 _ _ _ Hds H0) as G. by replace (num / 16 * 16 + num `mod` 16) with num in G by lia.
  - exists [num `mod` 16]. split; [done|]. split; [by apply Forall_singleton|]. simpl. lia.
Qed.

Lemma dec_loop_spec fuel num acc :
  (0 < fuel)%nat -> 0 <= num < 10 ^ Z.of_nat fuel ->
  exists ds, dec_loop fuel num acc = map digit_char ds ++ acc /\ is_numeral 10 num ds.
Proof.
  revert num acc. induction fuel as [|fuel IH]; intros num acc Hf Hn; [lia|]. cbn [dec_loop].
  rewrite Nat2Z.inj_succ, Z.pow_succ_r in Hn by lia.
  rewrite Z.rem_mod_nonneg, Z.quot_div_nonneg by lia.
  pose proof (Z.div_mod num 10). pose proof (Z.mod_pos_bound num 10 ltac:(lia)) as H0.
  assert (u8 (48 + num `mod` 10) = digit_char (num `mod` 10)) as ->.
  { unfold digit_char. rewrite decide_True by lia. apply wrap_small. zlia. }
  case_decide as Hz.
  - destruct (IH (num / 10) (digit_char (num `mod` 10) :: acc)) as (ds & -> & Hds).
    + destruct fuel; [|lia]. simpl in Hn. rewrite Z.div_small in Hz by lia. done.
    + split; [apply Z.div_pos; lia|]. apply Z.div_lt_upper_bound; lia.
    + exists (ds ++ [num `mod` 10]). rewrite map_app, <- app_assoc. split; [done|].
      pose proof (is_numeral_snoc 10 _ _ _ Hds H0) as G. by replace (num / 10 * 10 + num `mod` 10) with num in G by lia.
  - exists [num `mod` 10]. split; [done|]. split; [by apply Forall_singleton|]. simpl. lia.
Qed.

(** Characters after the first [len] of the output, in a buffer of the size
    that it is said to have. *)
Lemma sputs_value buf len s :
  exists buf', sputs buf (length buf) len s = Some buf' /\ length buf' = length buf /\
  forall i, (i < length buf)%nat -> buf' !! i = if decide (len <= i < len + length s)%nat then s !! (i - len)%nat else buf !! i.
Proof.
  remember (length buf) as max eqn:Hmax. revert buf len Hmax. induction s as [|c s IH]; intros buf len Hmax; cbn [sputs].
  { exists buf. split_and!; [done|done|]. intros i Hi. by rewrite decide_False by (simpl; lia). }
  assert (exists buf1, printf_sputc buf max len c = Some buf1 /\ length buf1 = max /\
    forall i, (i < max)%nat -> buf1 !! i = if decide (i = len) then Some c else buf !! i) as (buf1 & -> & Hl1 & H1).
  { unfold printf_sputc, store. destruct (decide (len < max)%nat).
    - rewrite decide_True by lia. eexists. split_and!; [done|by rewrite length_insert|]. intros i Hi.
      destruct (decide (i = len)) as [->|Hne]; [by rewrite list_lookup_insert_eq by lia|by rewrite list_lookup_insert_ne].
    - exists buf. split_and!; [done|done|]. intros i Hi. by rewrite decide_False by lia. }
  destruct (IH buf1 (S len) (eq_sym Hl1)) as (buf' & -> & Hl & H). exists buf'. split_and!; [done|lia|]. intros i Hi.
  rewrite H, H1 by done. cbn [length]. destruct (decide (i = len)) as [->|Hne].
  - rewrite (decide_False (P := (S len <= len < S len + length s)%nat)) by lia. rewrite decide_True by lia. by rewrite Nat.sub_diag.
  - destruct (decide (S len <= i < S len + length s)%nat).
    + rewrite (decide_True (P := (len <= i < len + S (length s))%nat)) by lia. replace (i - len)%nat with (S (i - S len)) by lia. done.
    + by rewrite (decide_False (P := (len <= i < len + S (length s))%nat)) by lia.
Qed.

(** The buffer after [vsnprintf]: the string, cut to leave room for the
    terminator, the terminator, and the rest of the buffer as it was. *)
Definition printed (buf s : list Z) : list Z :=
  match buf with [] => [] | _ => take (length buf - 1) s ++ 0 :: drop (S (length s)) buf end.

Lemma printed_length buf s : length (printed buf s) = length buf.
Proof.
  unfold printed. destruct buf as [|c buf]; [done|]. rewrite length_app, length_take. cbn [length]. rewrite length_drop. cbn [length]. lia.
Qed.

Lemma vsnprintf_value buf fmt args s :
  vcprintf fmt args = Some s -> vsnprintf buf fmt args = Some (s32 (Z.of_nat (length s)), printed buf s).
Proof.
  intros Hs. unfold vsnprintf, vsnprintf_sized. rewrite Hs. destruct (sputs_value buf 0 s) as (buf' & -> & Hl & H).
  destruct (decide (length buf <> 0)%nat) as [Hb|Hb].
  2:{ destruct buf as [|? buf]; [|simpl in Hb; lia]. apply nil_length_inv in Hl as ->. done. }
  cbv zeta. set (end_ := if decide (length s < length buf - 1)%nat then length s else (length buf - 1)%nat).
  assert (end_ = length (take (length buf - 1) s)) as Ee by (unfold end_; rewrite length_take; case_decide; lia).
  assert (end_ < length buf)%nat as Hlt by (unfold end_; case_decide; lia).
  unfold store. rewrite decide_True by lia. do 2 f_equal. apply list_eq_same_length with (length buf); [apply printed_length|by rewrite length_insert|].
  intros i x y Hi. unfold printed. destruct buf as [|c0 buf0]; [done|]. set (buf := c0 :: buf0) in *.
  destruct (decide (i = end_)) as [->|Hie].
  - rewrite list_lookup_insert_eq by lia. rewrite lookup_app_r by lia. rewrite Ee, Nat.sub_diag. cbn [lookup list_lookup]. congruence.
  - rewrite list_lookup_insert_ne by done. rewrite H by done. rewrite Nat.add_0_l, Nat.sub_0_r.
    destruct (decide (i < end_)%nat).
    + rewrite lookup_app_l by lia. rewrite lookup_take_lt by (unfold end_ in *; revert l; case_decide; lia).
      rewrite decide_True; [congruence|]. rewrite Ee, length_take in l. lia.
    + assert (length s < length buf - 1)%nat by (rewrite Ee, length_take in *; lia).
      assert (end_ = length s) as E by (unfold end_; by rewrite decide_True).
      rewrite decide_False by lia. rewrite lookup_app_r by lia. rewrite <- Ee, E.
      replace (i - length s)%nat with (S (i - S (length s))) by lia.
      assert (forall (l : list Z) k, (0 :: l) !! S k = l !! k) as Hc by done. rewrite Hc, lookup_drop.
      replace (S (length s) + (i - S (length s)))%nat with i by lia. congruence.
Qed.

Lemma vsnprintf_none buf fmt args : vcprintf fmt args = None -> vsnprintf buf fmt args = None.
Proof. intros Hs. unfold vsnprintf, vsnprintf_sized. by rewrite Hs. Qed.

(** Padding on the left is white space, or zero digits. *)
Lemma pad_to_spec base num width (zpad : bool) ds tail :
  is_numeral base num ds -> 0 < base ->
  exists sp ds', pad_to width (if zpad then 48 else 32) (map digit_char ds) ++ tail = sp ++ map digit_char ds' ++ tail /\
    Forall (fun c => isspace c = true) sp /\ is_numeral base num ds'.
Proof.
  intros [H1 H2] Hb. unfold pad_to. set (n := Z.to_nat _). destruct zpad.
  - exists [], (replicate n 0 ++ ds). split_and!; [|done|split].
    + rewrite map_app. change (map digit_char (replicate n 0)) with (digit_char <$> replicate n 0). by rewrite fmap_replicate, <- !app_assoc.
    + apply Forall_app. split; [apply Forall_replicate; lia|done].
    + by rewrite digits_value_zeroes.
  - exists (replicate n 32), ds. split; [by rewrite <- app_assoc|split; [by apply Forall_replicate|done]].
Qed.

Lemma format_hex_spec num width (zpad : bool) tail :
  0 <= num < 2 ^ 64 ->
  exists sp ds, format_hex num width (if zpad then Z.lor LCASE ZPAD else LCASE) ++ tail = sp ++ map digit_char ds ++ tail /\
    Forall (fun c => isspace c = true) sp /\ is_numeral 16 num ds.
Proof.
  intros Hn. destruct (hex_loop_spec 16 num []) as (ds & E & Hds); [lia|done|]. rewrite app_nil_r in E.
  assert (format_hex num width (if zpad then Z.lor LCASE ZPAD else LCASE)
          = pad_to width (if zpad then 48 else 32) (map digit_char ds)) as ->.
  { unfold format_hex. replace (Z.land _ LCASE) with 32 by (by destruct zpad). rewrite E.
    rewrite decide_False by (destruct zpad; intros H; by apply H). by destruct zpad. }
  by apply pad_to_spec.
Qed.

(** C37: [snprintf] stores only inside the buffer: whenever the format and the
    arguments have a meaning, it returns, also when the string is longer than
    the buffer or the buffer is empty.  It returns the length of the
    untruncated string; a buffer that is not empty then holds the string,
    truncated to fit, with a terminator, and the rest of it is left alone. *)
Theorem vsnprintf_correct buf fmt args s :
  vcprintf fmt args = Some s ->
  exists buf', vsnprintf_sized buf (length buf) fmt args = Some (s32 (Z.of_nat (length s)), buf') /\ length buf' = length buf /\
    (buf <> [] -> buf' = take (length buf - 1) s ++ 0 :: drop (S (length s)) buf).
Proof.
  intros Hs. exists (printed buf s). split_and!; [by apply vsnprintf_value|apply printed_length|]. by destruct buf.
Qed.

(** "a%04x", cut to four bytes. *)
Lemma vsnprintf_correct_witness :
  exists buf', vsnprintf_sized [7; 7; 7; 7] 4 [97; 37; 48; 52; 120] [VInt 255] = Some (5, buf') /\ buf' = [97; 48; 48; 0].
Proof.
  destruct (vsnprintf_correct [7; 7; 7; 7] [97; 37; 48; 52; 120] [VInt 255] [97; 48; 48; 102; 102]) as (buf' & E & _ & Hb); [reflexivity|].
  exists buf'. split; [exact E|]. apply Hb. discriminate.
Defined.

(** A formatted number reads back.  The output of [format_decimal] with
    space padding, followed by a NUL, is converted by [strtoul] to the number
    (modulo [2 ^ 64]), for every [signed long] but the most negative one and
    whatever the field width; so is the lower-case hexadecimal format, space
    or zero padded, of every [unsigned long]. *)
Theorem format_number_roundtrip fuel m a num width zpad :
  (19 + Z.to_nat width < fuel)%nat ->
  (- 2 ^ 63 < num < 2 ^ 63 -> at_mem m a (format_decimal num width 0 ++ [0]) ->
    exists e, strtoul fuel m a 10 = Some (u64 num, e)) /\
  (0 <= num < 2 ^ 64 -> at_mem m a (format_hex num width (if zpad : bool then Z.lor LCASE ZPAD else LCASE) ++ [0]) ->
    exists e, strtoul fuel m a 16 = Some (num, e)).
Proof.
  intros Hf.
  assert (forall fuel num acc, (length (dec_loop fuel num acc) <= fuel + length acc)%nat) as Hdl.
  { clear. induction fuel as [|fuel IH]; intros num acc; cbn [dec_loop]; [lia|]. case_decide; [|simpl; lia].
    etransitivity; [apply IH|]. simpl. lia. }
  assert (forall fuel cm num acc, (length (hex_loop fuel cm num acc) <= fuel + length acc)%nat) as Hhl.
  { clear. induction fuel as [|fuel IH]; intros cm num acc; cbn [hex_loop]; [lia|]. case_decide; [|simpl; lia].
    etransitivity; [apply IH|]. simpl. lia. }
  split; intros Hn Hm.
  - set (neg := bool_decide (num < 0)). set (v := if neg then - num else num).
    assert (0 <= v < 2 ^ 63) as Hv by (unfold v, neg; case_bool_decide; lia).
    destruct (dec_loop_spec 19 v []) as (ds & E & Hds & Hdv); [lia|lia|]. rewrite app_nil_r in E.
    set (body := (if neg then [45] else []) ++ map digit_char ds).
    assert (format_decimal num width 0 = replicate (Z.to_nat (width - Z.of_nat (length body))) 32 ++ body) as Efmt.
    { unfold format_decimal. change (Z.land 0 ZPAD) with 0. fold neg.
      replace (if neg then s64 (- num) else num) with v.
      2:{ unfold v. destruct neg eqn:En; [|done]. symmetry. apply sext_small; lia. }
      rewrite E. unfold body. by destruct neg. }
    rewrite Efmt in Hm. unfold body in Hm. rewrite <- !app_assoc in Hm.
    set (n := Z.to_nat _) in Hm. eexists. rewrite (strtoul_spec fuel m a 10 (replicate n 32) neg ds 0);
      [|lia|by apply Forall_replicate|done|done|done..|].
    + rewrite Hdv. do 2 f_equal. unfold v, neg. case_bool_decide; f_equal; lia.
    + rewrite length_replicate. specialize (Hdl 19%nat v []). rewrite E, length_map in Hdl. simpl in Hdl. unfold n. lia.
  - destruct (format_hex_spec num width zpad [0] Hn) as (sp & ds & E & Hsp & Hds & Hdv). 
    assert (length sp + length ds < fuel)%nat as Hlen.
    { assert (le (length (format_hex num width (if zpad then Z.lor LCASE ZPAD else LCASE) ++ [0])) (17 + Z.to_nat width)) as Hl.
      { unfold format_hex, pad_to. rewrite length_app. rewrite decide_False by (destruct zpad; intros H; by apply H).
        rewrite length_app, length_replicate. specialize (Hhl 16%nat (Z.land (if zpad then Z.lor LCASE ZPAD else LCASE) LCASE) num []).
        cbn [length] in Hhl |- *. lia. }
      rewrite E, !length_app, length_map in Hl. simpl in Hl. lia. }
    rewrite E in Hm. eexists. rewrite (strtoul_spec fuel m a 16 sp false ds 0); [|done..].
    rewrite Hdv, Z.mul_1_l, wrap_small by done. done.
Qed.

Lemma format_number_roundtrip_witness :
  exists e, strtoul 30 (mem_of (format_decimal (-42) 6 0)) 0 10 = Some (2 ^ 64 - 42, e).
Proof. exact (proj1 (format_number_roundtrip 30 (mem_of (format_decimal (-42) 6 0)) 0 (-42) 6 false ltac:(simpl; lia)) ltac:(lia) eq_refl). Defined.

(** A negative number printed with zero padding loses its leading digit
    when its digits already fill the field: the sign is stored over the first
    character although no padding was added.  "%02d" of -15 prints "-5". *)
Theorem format_decimal_zpad_negative : vcprintf [37; 48; 50; 100] [VInt (-15)] = Some [45; 53].
Proof. reflexivity. Qed.
