(* ===== verification/Encoding.v ===== *)
(** * Base16 and Base64 encoding (core/base16.c, core/base64.c)

    An encoded string is the list of its characters without the terminator, a
    buffer is the list of its bytes; a store is guarded by the buffer length
    the way the source guards it.  The Base64 alphabet is an array without a
    terminator, so the decoder's [strchr] runs over whatever the linker placed
    behind it: the memory [rodata] is a parameter of which only the first 64
    bytes are known. *)

From S2P Require Import Prelude CMem Strings Vsprintf.

(** [if ( used < len ) data[used] = c;] *)
Definition put (data : list Z) (used : nat) (c : Z) : list Z :=
  if decide (used < length data)%nat then <[used := c]> data else data.

(** "ABCDEFGHIJKLMNOPQRSTUVWXYZabcdefghijklmnopqrstuvwxyz0123456789+/" *)
Definition base64 : list Z :=
  map (fun i => 65 + Z.of_nat i) (seq 0 26) ++ map (fun i => 97 + Z.of_nat i) (seq 0 26) ++
  map (fun i => 48 + Z.of_nat i) (seq 0 10) ++ [43; 47].

Definition base64_encoded_len (raw_len : Z) : Z := (raw_len + 3 - 1) / 3 * 4.

Definition encode_sextet (raw : list Z) (bit : Z) : Z :=
  let raw_len := Z.of_nat (length raw) in
  let byte := bit / 8 in
  let shift := bit `mod` 8 in
  let tmp := Z.shiftl (nth (Z.to_nat byte) raw 0) shift in
  let tmp := if decide (byte + 1 < raw_len)
             then Z.lor tmp (Z.shiftr (nth (Z.to_nat (byte + 1)) raw 0) (8 - shift)) else tmp in
  Z.land (Z.shiftr tmp 2) 63.

(** The two loops of the encoder.  [bit] grows by 6 each time; the fuel is
    taken as the number of raw bits, and one more, respectively 4. *)
Fixpoint encode_loop (fuel : nat) (raw data : list Z) (bit : Z) (used : nat) : Z * nat * list Z :=
  match fuel with
  | O => (bit, used, data)
  | S fuel =>
    if decide (bit < 8 * Z.of_nat (length raw))
    then encode_loop fuel raw (put data used (nth (Z.to_nat (encode_sextet raw bit)) base64 0)) (bit + 6) (S used)
    else (bit, used, data)
  end.

Fixpoint pad_loop (fuel : nat) (data : list Z) (bit : Z) (used : nat) : nat * list Z :=
  match fuel with
  | O => (used, data)
  | S fuel =>
    if decide (bit `mod` 8 <> 0) then pad_loop fuel (put data used 61) (bit + 6) (S used)
    else (used, data)
  end.

Definition base64_encode (raw data : list Z) : nat * list Z :=
  let '(bit, used, data) := encode_loop (8 * length raw + 1) raw data 0 0 in
  let '(used, data) := pad_loop 4 data bit used in
  let data := put data used 0 in
  let data := if decide (length data <> 0)%nat then <[(length data - 1)%nat := 0]> data else data in
  (used, data).

(** One OR of the decoder: [if ( offset < len ) out[offset] |= v;] *)
Definition or_byte (out : list Z) (offset : Z) (v : Z) : list Z :=
  if decide (offset < Z.of_nat (length out))
  then <[Z.to_nat offset := u8 (Z.lor (nth (Z.to_nat offset) out 0) v)]> out else out.

Definition decode_sextet (out : list Z) (bit in_bits : Z) : list Z :=
  let in_bits := Z.shiftl in_bits 2 in
  let offset := bit / 8 in
  let out := or_byte out offset (Z.shiftr in_bits (bit `mod` 8)) in
  or_byte out (offset + 1) (Z.shiftl in_bits (8 - bit `mod` 8)).

(** [None] is a [strchr] that found neither the character nor a NUL within
    the fuel. *)
Fixpoint decode_loop (fuel : nat) (rodata : mem) (encoded out : list Z) (bit pad_count : Z) :
    option (result Z * list Z) :=
  match encoded with
  | [] =>
    if decide (bit `mod` 8 <> 0) then Some (Err EINVAL, out) else Some (Ok (bit / 8), out)
  | in_char :: encoded =>
    if isspace in_char then decode_loop fuel rodata encoded out bit pad_count
    else if decide (in_char = 61) then
      if decide (pad_count >= 2) then Some (Err EINVAL, out)
      else decode_loop fuel rodata encoded out (u32 (bit - 2)) (pad_count + 1)
    else if decide (pad_count <> 0) then Some (Err EINVAL, out)
    else match strchr fuel rodata 0 in_char with
         | None => None
         | Some None => Some (Err EINVAL, out)
         | Some (Some match_) =>
           decode_loop fuel rodata encoded (decode_sextet out bit match_) (u32 (bit + 6)) pad_count
         end
  end.

Definition base64_decode (fuel : nat) (rodata : mem) (encoded data : list Z) : option (result Z * list Z) :=
  decode_loop fuel rodata encoded (replicate (length data) 0) 0 0.

(** ** Lemmas: writing a string into a buffer *)

Definition written (l data : list Z) : list Z := take (length data) (l ++ drop (length l) data).

Lemma written_length l data : length (written l data) = length data.
Proof. unfold written. rewrite length_take, length_app, length_drop. lia. Qed.

Lemma written_nil data : written [] data = data.
Proof. unfold written. simpl. rewrite drop_0. by apply take_ge. Qed.

Lemma put_length data i c : length (put data i c) = length data.
Proof. unfold put. case_decide; [apply length_insert|done]. Qed.

Lemma put_written l data c : put (written l data) (length l) c = written (l ++ [c]) data.
Proof.
  unfold put. rewrite written_length. unfold written. apply list_eq. intros i. case_decide as H.
  - destruct (decide (i < length data)%nat); [|rewrite !lookup_ge_None_2; [done|..]].
    + rewrite !lookup_take_lt by lia. destruct (decide (i = length l)) as [->|Hne].
      * rewrite list_lookup_insert_eq by (rewrite length_take, length_app, length_drop; lia).
        rewrite <- app_assoc, lookup_app_r, Nat.sub_diag by lia. done.
      * rewrite list_lookup_insert_ne by done. rewrite lookup_take_lt by lia.
        destruct (decide (i < length l)%nat).
        -- rewrite <- app_assoc, !lookup_app_l by lia. done.
        -- rewrite !lookup_app_r by (rewrite ?length_app; simpl; lia). rewrite !lookup_drop, length_app. simpl.
           f_equal. lia.
    + rewrite length_take. lia.
    + rewrite length_insert, length_take. lia.
  - by rewrite !take_app_le by (rewrite ?length_app; lia).
Qed.

(** ** Bits of a byte string, the most significant first *)

Definition bit_of (l : list Z) (i : Z) : bool := Z.testbit (nth (Z.to_nat (i / 8)) l 0) (7 - i `mod` 8).

Lemma testbit_byte_high v i : is_byte v -> 8 <= i -> Z.testbit v i = false.
Proof.
  intros Hv Hi. rewrite <- (wrap_small 8 v Hv). unfold wrap. apply Z.mod_pow2_bits_high. lia.
Qed.

Lemma nth_byte l i : bytes l -> is_byte (nth i l 0).
Proof.
  intros Hl. destruct (decide (i < length l)%nat).
  - rewrite Forall_forall in Hl. by apply Hl, list_elem_of_In, nth_In.
  - rewrite nth_overflow by lia. done.
Qed.

(** Two byte strings of the same length with the same bits are equal. *)
Lemma bit_of_inj l1 l2 :
  bytes l1 -> bytes l2 -> length l1 = length l2 ->
  (forall i, 0 <= i < 8 * Z.of_nat (length l1) -> bit_of l1 i = bit_of l2 i) -> l1 = l2.
Proof.
  intros H1 H2 Hl Hb. apply (nth_ext _ _ 0 0 Hl). intros n Hn. apply Z.bits_inj'. intros k Hk.
  destruct (decide (k < 8)).
  - specialize (Hb (7 - k + Z.of_nat n * 8) ltac:(lia)). unfold bit_of in Hb.
    rewrite Z.div_add, Z.mod_add, Z.div_small, Z.mod_small, Z.add_0_l, Nat2Z.id in Hb by lia.
    by replace (7 - (7 - k)) with k in Hb by lia.
  - rewrite !testbit_byte_high by (lia || by apply nth_byte). done.
Qed.

Lemma bit_of_beyond l i : 8 * Z.of_nat (length l) <= i -> bit_of l i = false.
Proof.
  intros Hi. unfold bit_of. pose proof (Z.div_mod i 8). pose proof (Z.mod_pos_bound i 8).
  rewrite nth_overflow by lia. apply Z.bits_0.
Qed.

Lemma land_63_bit a k : 0 <= k -> Z.testbit (Z.land a 63) k = bool_decide (k < 6) && Z.testbit a k.
Proof.
  intros Hk. change 63 with (Z.ones 6). rewrite Z.land_spec, andb_comm. f_equal.
  case_bool_decide; [by apply Z.ones_spec_low|apply Z.ones_spec_high; lia].
Qed.

(** A sextet is the six bits of the raw data from [bit]. *)
Lemma encode_sextet_bits raw bit k :
  bytes raw -> 0 <= bit -> bit `mod` 2 = 0 -> 0 <= k ->
  Z.testbit (encode_sextet raw bit) k = bool_decide (k < 6) && bit_of raw (bit + (5 - k)).
Proof.
  intros Hr Hb Heven Hk. unfold encode_sextet. cbv zeta. rewrite land_63_bit by done.
  case_bool_decide as Hk6; [simpl|done]. rewrite Z.shiftr_spec by done.
  pose proof (Z.div_mod bit 8). pose proof (Z.mod_pos_bound bit 8). pose proof (Z.div_mod bit 2).
  set (q := bit / 8) in *. set (s := bit `mod` 8) in *.
  assert (s + (5 - k) < 8 -> bit_of raw (bit + (5 - k)) = Z.testbit (nth (Z.to_nat q) raw 0) (7 - (s + (5 - k)))) as C1.
  { intros Hlt. unfold bit_of. replace (bit + (5 - k)) with (s + (5 - k) + q * 8) by lia.
    by rewrite Z.div_add, Z.mod_add, Z.div_small, Z.mod_small by lia. }
  assert (8 <= s + (5 - k) -> bit_of raw (bit + (5 - k)) = Z.testbit (nth (Z.to_nat (q + 1)) raw 0) (15 - (s + (5 - k)))) as C2.
  { intros Hlt. unfold bit_of. replace (bit + (5 - k)) with (s + (5 - k) - 8 + (q + 1) * 8) by lia.
    rewrite Z.div_add, Z.mod_add, Z.div_small, Z.mod_small by lia. rewrite Z.add_0_l. f_equal. lia. }
  assert (Z.testbit (Z.shiftl (nth (Z.to_nat q) raw 0) s) (k + 2) =
          bool_decide (s + (5 - k) < 8) && Z.testbit (nth (Z.to_nat q) raw 0) (7 - (s + (5 - k)))) as E1.
  { rewrite Z.shiftl_spec by lia. case_bool_decide; cbn [andb]; [f_equal; lia|apply Z.testbit_neg_r; lia]. }
  assert (forall v, is_byte v -> Z.testbit (Z.shiftr v (8 - s)) (k + 2) =
          bool_decide (8 <= s + (5 - k)) && Z.testbit v (15 - (s + (5 - k)))) as E2.
  { intros v Hv. rewrite Z.shiftr_spec by lia. destruct (decide (8 <= s + (5 - k))).
    - rewrite bool_decide_true by done. cbn [andb]. f_equal. lia.
    - rewrite bool_decide_false by done. apply testbit_byte_high; [done|lia]. }
  destruct (decide (8 <= s + (5 - k))) as [Hc|Hc].
  - rewrite C2 by done. destruct (decide (q + 1 < Z.of_nat (length raw))).
    + rewrite Z.lor_spec, E1, E2 by (by apply nth_byte). rewrite bool_decide_false, bool_decide_true by lia. done.
    + rewrite E1, bool_decide_false by lia. simpl. rewrite nth_overflow by lia. by rewrite Z.bits_0.
  - rewrite C1 by lia. destruct (decide (q + 1 < Z.of_nat (length raw))).
    + rewrite Z.lor_spec, E1, E2 by (by apply nth_byte). rewrite bool_decide_true, bool_decide_false by lia. apply orb_false_r.
    + rewrite E1, bool_decide_true by lia. done.
Qed.

Lemma encode_sextet_bound raw bit : 0 <= encode_sextet raw bit < 64.
Proof.
  unfold encode_sextet. change 63 with (Z.ones 6). rewrite Z.land_ones by lia. apply (Z.mod_pos_bound _ 64). lia.
Qed.

(** The decoder's OR sets the six bits from [bit]. *)
Lemma or_byte_length out o v : length (or_byte out o v) = length out.
Proof. unfold or_byte. case_decide; [apply length_insert|done]. Qed.

Lemma or_byte_bytes out o v : bytes out -> bytes (or_byte out o v).
Proof. intros Ho. unfold or_byte. case_decide; [|done]. apply Forall_insert; [done|]. by apply wrap_bound. Qed.

Lemma or_byte_bit out o v i :
  0 <= o -> 0 <= i < 8 * Z.of_nat (length out) ->
  bit_of (or_byte out o v) i = bit_of out i || (bool_decide (i / 8 = o) && Z.testbit v (7 - i `mod` 8)).
Proof.
  intros Ho Hi. unfold or_byte, bit_of. pose proof (Z.div_mod i 8). pose proof (Z.mod_pos_bound i 8).
  assert (0 <= i / 8) by (apply Z.div_pos; lia).
  case_decide as Hlt; [|by rewrite bool_decide_false, orb_false_r by lia].
  rewrite !nth_lookup. case_bool_decide as E.
  - rewrite <- E, list_lookup_insert_eq by lia. simpl. unfold wrap. rewrite Z.mod_pow2_bits_low, Z.lor_spec by lia. done.
  - rewrite list_lookup_insert_ne by lia. by rewrite orb_false_r.
Qed.

Lemma decode_sextet_bit out bit v i :
  0 <= bit -> bit `mod` 2 = 0 -> 0 <= v < 64 -> 0 <= i < 8 * Z.of_nat (length out) ->
  bit_of (decode_sextet out bit v) i
  = bit_of out i || (bool_decide (bit <= i < bit + 6) && Z.testbit v (5 - (i - bit))).
Proof.
  intros Hb Heven Hv Hi. unfold decode_sextet.
  assert (0 <= bit / 8) by (apply Z.div_pos; lia).
  rewrite or_byte_bit by (rewrite ?or_byte_length; lia). rewrite or_byte_bit by lia.
  rewrite <- orb_assoc. f_equal.
  pose proof (Z.div_mod i 8). pose proof (Z.mod_pos_bound i 8).
  pose proof (Z.div_mod bit 8). pose proof (Z.mod_pos_bound bit 8). pose proof (Z.div_mod bit 2).
  rewrite Z.shiftr_spec, !Z.shiftl_spec by lia.
  set (q := bit / 8) in *. set (s := bit `mod` 8) in *. set (r := i `mod` 8) in *.
  assert (forall k, 6 <= k -> Z.testbit v k = false) as Hhigh.
  { intros k Hk. rewrite <- (Z.mod_small v (2 ^ 6)) by lia. apply Z.mod_pow2_bits_high. lia. }
  destruct (decide (i / 8 = q)) as [E|E]; [|destruct (decide (i / 8 = q + 1)) as [E'|E']].
  - rewrite (bool_decide_true (i / 8 = q)), (bool_decide_false (i / 8 = q + 1)) by lia. rewrite orb_false_r. cbn [andb].
    replace (7 - r + s - 2) with (5 - (i - bit)) by lia.
    destruct (decide (bit <= i < bit + 6)); [by rewrite bool_decide_true|rewrite bool_decide_false by done; cbn [andb]]. destruct (decide (i < bit)); [apply Hhigh; lia|apply Z.testbit_neg_r; lia].
  - rewrite (bool_decide_false (i / 8 = q)), (bool_decide_true (i / 8 = q + 1)) by lia. cbn [andb orb].
    destruct (decide (0 <= 7 - r - (8 - s))) as [Hp|Hp].
    + rewrite Z.shiftl_spec by lia. replace (7 - r - (8 - s) - 2) with (5 - (i - bit)) by lia.
      destruct (decide (bit <= i < bit + 6)); [by rewrite bool_decide_true|rewrite bool_decide_false by done; cbn [andb]]. apply Z.testbit_neg_r. lia.
    + rewrite (Z.testbit_neg_r _ (7 - r - (8 - s))) by lia.
      destruct (decide (bit <= i < bit + 6)); [rewrite bool_decide_true by done; cbn [andb]|by rewrite bool_decide_false]. symmetry. apply Z.testbit_neg_r. lia.
  - rewrite (bool_decide_false (i / 8 = q)), (bool_decide_false (i / 8 = q + 1)) by lia. simpl.
    rewrite bool_decide_false by lia. done.
Qed.

(** ** The alphabet *)

Lemma base64_length : length base64 = 64%nat.
Proof. reflexivity. Qed.

Lemma base64_facts :
  Forall (fun c => c <> 0 /\ c <> 61 /\ isspace c = false) base64 /\ NoDup base64.
Proof. split; [|by apply (bool_decide_unpack _); vm_compute]. by apply (bool_decide_unpack _); vm_compute. Qed.

Lemma strchr_table fuel m a l k c :
  at_mem m a l -> Forall (fun c => c <> 0) l -> NoDup l -> l !! k = Some c -> (k < fuel)%nat ->
  strchr fuel m a c = Some (Some (a + Z.of_nat k)).
Proof.
  revert fuel a k. induction l as [|c' l IH]; intros [|fuel] a k Hm Hz Hnd Hk Hf; try done || lia.
  apply at_mem_cons in Hm as [E Hm]. apply Forall_cons in Hz as [Hz1 Hz2]. apply NoDup_cons in Hnd as [Hn1 Hn2].
  cbn [strchr]. rewrite E. destruct k as [|k]; simpl in Hk.
  - simplify_eq. rewrite decide_True by done. do 2 f_equal. simpl. lia.
  - rewrite decide_False by (intros ->; apply Hn1; by eapply list_elem_of_lookup_2). rewrite decide_False by done.
    rewrite (IH fuel (a + 1) k) by (done || lia). do 2 f_equal. lia.
Qed.

(** ** The encoder and decoder as a whole

    [sextets n raw] is what the first [n] rounds of the encoder produce;
    [encoding raw] is the complete encoded string. *)

Definition sextet_char (raw : list Z) (k : nat) : Z :=
  nth (Z.to_nat (encode_sextet raw (6 * Z.of_nat k))) base64 0.

Definition num_sextets (raw : list Z) : nat := ((4 * length raw + 2) / 3)%nat.
Definition num_pads (raw : list Z) : nat := ((3 - length raw mod 3) mod 3)%nat.

Definition encoding (raw : list Z) : list Z :=
  map (sextet_char raw) (seq 0 (num_sextets raw)) ++ replicate (num_pads raw) 61.

Lemma encoding_arith raw :
  let n := length raw in
  (num_sextets raw = 4 * (n / 3) + n mod 3 + (if decide (n mod 3 = 0) then 0 else 1) /\
   num_pads raw = (if decide (n mod 3 = 0) then 0 else 3 - n mod 3) /\
   n = 3 * (n / 3) + n mod 3 /\ n mod 3 < 3)%nat.
Proof.
  intros n. unfold num_sextets, num_pads. fold n. pose proof (Nat.div_mod n 3 ltac:(lia)).
  pose proof (Nat.mod_upper_bound n 3 ltac:(lia)). set (q := (n / 3)%nat) in *. set (r := (n mod 3)%nat) in *.
  split_and!; [| |done..].
  - symmetry. apply (Nat.div_unique _ _ _ (4 * n + 2 - 3 * (4 * q + r + (if decide (r = 0) then 0 else 1)))%nat);
      case_decide; lia.
  - case_decide as E; [by rewrite E|]. rewrite Nat.mod_small; lia.
Qed.

Lemma encode_loop_spec fuel raw data k :
  (k <= num_sextets raw)%nat -> (num_sextets raw - k < fuel)%nat ->
  encode_loop fuel raw (written (map (sextet_char raw) (seq 0 k)) data) (6 * Z.of_nat k) k
  = (6 * Z.of_nat (num_sextets raw), num_sextets raw,
     written (map (sextet_char raw) (seq 0 (num_sextets raw))) data).
Proof.
  pose proof (encoding_arith raw) as (E1 & _ & E2 & E3).
  revert k. induction fuel as [|fuel IH]; intros k Hk Hf; [lia|]. cbn [encode_loop].
  destruct (decide (6 * Z.of_nat k < 8 * Z.of_nat (length raw))) as [Hb|Hb].
  - assert (k < num_sextets raw)%nat as Hlt by (destruct (decide (length raw mod 3 = 0)%nat); lia).
    fold (sextet_char raw k).
    assert (length (map (sextet_char raw) (seq 0 k)) = k) as El by (by rewrite length_map, length_seq).
    pose proof (put_written (map (sextet_char raw) (seq 0 k)) data (sextet_char raw k)) as P.
    rewrite El in P. rewrite P. replace (map _ (seq 0 k) ++ [_]) with (map (sextet_char raw) (seq 0 (S k)))
      by (by rewrite seq_S, map_app).
    rewrite <- (IH (S k)) by lia. f_equal. lia.
  - assert (k = num_sextets raw) as -> by (destruct (decide (length raw mod 3 = 0)%nat); lia). done.
Qed.

Lemma pad_loop_spec fuel l data bit n :
  (n < fuel)%nat -> 0 <= bit -> (n < 4)%nat -> (bit + 6 * Z.of_nat n) `mod` 8 = 0 ->
  pad_loop fuel (written l data) bit (length l) = ((length l + n)%nat, written (l ++ replicate n 61) data).
Proof.
  revert fuel l bit. induction n as [|n IH]; intros [|fuel] l bit Hf Hb Hn Hm; try lia; cbn [pad_loop].
  - rewrite Z.add_0_r in Hm. rewrite decide_False by lia. simpl. rewrite app_nil_r. f_equal. lia.
  - rewrite decide_True; [|pose proof (Z.div_mod bit 8); pose proof (Z.div_mod (bit + 6 * Z.of_nat (S n)) 8); lia].
    rewrite put_written. replace (S (length l)) with (length (l ++ [61])) by (rewrite length_app; simpl; lia).
    rewrite IH by (lia || (rewrite <- Hm; f_equal; lia)). rewrite <- app_assoc, length_app. simpl. f_equal. lia.
Qed.

Lemma base64_encode_spec raw data :
  base64_encode raw data
  = (length (encoding raw),
     if decide (length data <> 0)%nat then <[(length data - 1)%nat := 0]> (written (encoding raw ++ [0]) data)
     else written (encoding raw ++ [0]) data).
Proof.
  pose proof (encoding_arith raw) as (E1 & E2 & E3 & E4). unfold base64_encode.
  pose proof (encode_loop_spec (8 * length raw + 1) raw data 0 ltac:(lia)) as H.
  change (map _ (seq 0 0)) with (@nil Z) in H. change (6 * Z.of_nat 0) with 0 in H. rewrite written_nil in H. rewrite H.
  2:{ destruct (decide (length raw mod 3 = 0)%nat); lia. }
  set (l := map (sextet_char raw) (seq 0 (num_sextets raw))).
  assert (length l = num_sextets raw) as El by (unfold l; by rewrite length_map, length_seq).
  rewrite <- El at 2. rewrite (pad_loop_spec 4 l data _ (num_pads raw)); [| |lia| |].
  - fold (encoding raw). replace (length l + num_pads raw)%nat with (length (encoding raw)).
    2:{ unfold encoding. rewrite length_app, length_replicate. done. }
    rewrite put_written, written_length. done.
  - destruct (decide (length raw mod 3 = 0)%nat); lia.
  - destruct (decide (length raw mod 3 = 0)%nat); lia.
  - apply Z.mod_divide; [lia|].
    exists (Z.of_nat (length raw / 3) * 3 + (if decide (length raw mod 3 = 0)%nat then 0 else 3)).
    destruct (decide (length raw mod 3 = 0)%nat); lia.
Qed.

Lemma sextet_char_class raw k :
  isspace (sextet_char raw k) = false /\ sextet_char raw k <> 61 /\ sextet_char raw k <> 0.
Proof.
  destruct base64_facts as [Hf _]. rewrite Forall_forall in Hf.
  destruct (Hf (sextet_char raw k)) as (? & ? & ?); [|done]. apply list_elem_of_In, nth_In.
  rewrite base64_length. pose proof (encode_sextet_bound raw (6 * Z.of_nat k)). lia.
Qed.

Lemma decode_pads fuel rodata encoded_pads out bit pc :
  0 <= pc -> pc + Z.of_nat encoded_pads <= 2 -> 2 * Z.of_nat encoded_pads <= bit < 2 ^ 32 ->
  (bit - 2 * Z.of_nat encoded_pads) `mod` 8 = 0 ->
  decode_loop fuel rodata (replicate encoded_pads 61) out bit pc
  = Some (Ok ((bit - 2 * Z.of_nat encoded_pads) / 8), out).
Proof.
  revert bit pc. induction encoded_pads as [|n IH]; intros bit pc Hpc Hn Hb Hm; cbn [replicate decode_loop].
  - rewrite Z.sub_0_r in *. rewrite decide_False by lia. done.
  - change (isspace 61) with false. cbv iota. rewrite decide_True, decide_False by (done || lia).
    rewrite wrap_small by zlia. rewrite IH by (lia || (rewrite <- Hm; f_equal; lia)). do 4 f_equal. lia.
Qed.

Section decode.
Context (fuel : nat) (rodata : mem).
Context (Htable : at_mem rodata 0 base64) (Hfuel : (64 <= fuel)%nat).

Lemma strchr_sextet v : 0 <= v < 64 -> strchr fuel rodata 0 (nth (Z.to_nat v) base64 0) = Some (Some v).
Proof.
  intros Hv. destruct base64_facts as [Hf Hnd].
  rewrite (strchr_table fuel rodata 0 base64 (Z.to_nat v)); [do 2 f_equal; lia|done| |done| |lia].
  - eapply Forall_impl; [exact Hf|]. naive_solver.
  - destruct (nth_lookup_or_length base64 (Z.to_nat v) 0) as [E|E]; [done|]. rewrite base64_length in E. lia.
Qed.

Lemma decode_sextets raw out k n pads :
  bytes raw -> bytes out -> (length raw <= length out)%nat ->
  6 * Z.of_nat (k + n) < 2 ^ 32 ->
  (forall i, 0 <= i < 8 * Z.of_nat (length out) -> bit_of out i = bool_decide (i < 6 * Z.of_nat k) && bit_of raw i) ->
  exists out', decode_loop fuel rodata (map (sextet_char raw) (seq k n) ++ replicate pads 61) out (6 * Z.of_nat k) 0
    = decode_loop fuel rodata (replicate pads 61) out' (6 * Z.of_nat (k + n)) 0 /\
    bytes out' /\ length out' = length out /\
    forall i, 0 <= i < 8 * Z.of_nat (length out) -> bit_of out' i = bool_decide (i < 6 * Z.of_nat (k + n)) && bit_of raw i.
Proof.
  intros Hr. revert out k. induction n as [|n IH]; intros out k Ho Hl Hw Hbits.
  { rewrite Nat.add_0_r in *. exists out. by split_and!. }
  cbn [seq map app decode_loop]. destruct (sextet_char_class raw k) as (-> & Hc & _).
  rewrite decide_False by done. rewrite (decide_False (P := 0 <> 0)) by (intros H; by apply H).
  pose proof (encode_sextet_bound raw (6 * Z.of_nat k)) as Hv.
  unfold sextet_char at 1. rewrite strchr_sextet by done.
  rewrite wrap_small by zlia. replace (6 * Z.of_nat k + 6) with (6 * Z.of_nat (S k)) by lia.
  set (v := encode_sextet raw (6 * Z.of_nat k)) in *. set (out1 := decode_sextet out (6 * Z.of_nat k) v).
  assert (length out1 = length out) as El by (unfold out1, decode_sextet; by rewrite !or_byte_length).
  assert ((6 * Z.of_nat k) `mod` 2 = 0) as Hev.
  { replace (6 * Z.of_nat k) with (3 * Z.of_nat k * 2) by lia. apply Z.mod_mul. lia. }
  destruct (IH out1 (S k)) as (out' & -> & H1 & H2 & H3).
  - unfold out1, decode_sextet. by do 2 apply or_byte_bytes.
  - lia.
  - lia.
  - intros i Hi. rewrite El in Hi. unfold out1. rewrite decode_sextet_bit by lia. rewrite Hbits by done. unfold v.
    destruct (decide (6 * Z.of_nat k <= i < 6 * Z.of_nat k + 6)) as [Hin|Hin].
    + rewrite (bool_decide_true (_ <= i < _)) by done. rewrite encode_sextet_bits by (done || lia).
      rewrite (bool_decide_true (_ < 6)), (bool_decide_false (i < 6 * Z.of_nat k)), bool_decide_true by lia.
      simpl. f_equal. lia.
    + rewrite (bool_decide_false (_ <= i < _)) by done. rewrite orb_false_r. f_equal. apply bool_decide_ext. lia.
  - exists out'. replace (k + S n)%nat with (S k + n)%nat by lia. rewrite El in *. by split_and!.
Qed.
End decode.

Lemma bit_of_zeroes n i : bit_of (replicate n 0) i = false.
Proof.
  unfold bit_of. destruct (nth_in_or_default (Z.to_nat (i / 8)) (replicate n 0) 0) as [H| ->]; [|apply Z.bits_0].
  apply list_elem_of_In, elem_of_replicate in H as [-> _]. apply Z.bits_0.
Qed.

Lemma bit_of_app_zeroes l n i : bit_of (l ++ replicate n 0) i = bit_of l i.
Proof.
  unfold bit_of. set (j := Z.to_nat (i / 8)). destruct (decide (j < length l)%nat).
  - by rewrite app_nth1.
  - rewrite app_nth2, (nth_overflow l) by lia.
    destruct (nth_in_or_default (j - length l) (replicate n 0) 0) as [H| ->]; [|done].
    by apply list_elem_of_In, elem_of_replicate in H as [-> _].
Qed.

Lemma bytes_replicate n : bytes (replicate n 0).
Proof. apply Forall_replicate. done. Qed.

Lemma encoding_length raw : Z.of_nat (length (encoding raw)) = base64_encoded_len (Z.of_nat (length raw)).
Proof.
  destruct (encoding_arith raw) as (E1 & E2 & E3 & E4). unfold encoding, base64_encoded_len.
  rewrite length_app, length_map, length_seq, length_replicate.
  pose proof (Z.div_mod (Z.of_nat (length raw) + 3 - 1) 3). pose proof (Z.mod_pos_bound (Z.of_nat (length raw) + 3 - 1) 3).
  destruct (decide (length raw mod 3 = 0)%nat); lia.
Qed.

Lemma encoding_chars raw : Forall (fun c => c <> 0) (encoding raw).
Proof.
  unfold encoding. apply Forall_app. split; [|by apply Forall_replicate].
  apply Forall_forall. intros c Hc. apply list_elem_of_In, in_map_iff in Hc as (k & <- & _). by destruct (sextet_char_class raw k) as (_ & _ & ?).
Qed.

Lemma base64_decode_encoding fuel rodata raw data :
  at_mem rodata 0 base64 -> (64 <= fuel)%nat -> bytes raw -> Z.of_nat (length raw) < 2 ^ 28 ->
  (length raw <= length data)%nat ->
  base64_decode fuel rodata (encoding raw) data
  = Some (Ok (Z.of_nat (length raw)), raw ++ replicate (length data - length raw) 0).
Proof.
  intros Ht Hf Hr Hw Hl. destruct (encoding_arith raw) as (E1 & E2 & E3 & E4). unfold base64_decode, encoding.
  set (n := num_sextets raw) in *. set (p := num_pads raw) in *.
  assert (6 * Z.of_nat n - 2 * Z.of_nat p = 8 * Z.of_nat (length raw)) as E5
    by (destruct (decide (length raw mod 3 = 0)%nat); lia).
  assert (p <= 2)%nat as Hp by (destruct (decide (length raw mod 3 = 0)%nat); lia).
  destruct (decode_sextets fuel rodata Ht Hf raw (replicate (length data) 0) 0 n p) as (out & H & Ho & Hlen & Hbits).
  - done.
  - apply bytes_replicate.
  - by rewrite length_replicate.
  - lia.
  - intros i Hi. rewrite bit_of_zeroes, bool_decide_false by lia. done.
  - change (6 * Z.of_nat 0) with 0 in H. rewrite H. simpl Nat.add. rewrite length_replicate in *.
    rewrite (decode_pads fuel rodata p); [|lia..|rewrite E5, Z.mul_comm; apply Z.mod_mul; lia].
    rewrite E5, (Z.mul_comm 8), Z.div_mul by lia. do 2 f_equal. apply bit_of_inj.
    + done.
    + apply Forall_app. split; [done|apply bytes_replicate].
    + rewrite length_app, length_replicate. lia.
    + intros i Hi. rewrite Hlen in Hi. rewrite Hbits, bit_of_app_zeroes by done. simpl Nat.add.
      case_bool_decide; [done|]. symmetry. apply bit_of_beyond. lia.
Qed.

(** Base64 round trip.  Encoding into a buffer with room for the string
    and its terminator produces a NUL-terminated string of the advertised
    length, and decoding that string returns the raw data and its length,
    whatever lies in memory behind the alphabet. *)
Theorem base64_roundtrip fuel rodata raw data out :
  at_mem rodata 0 base64 -> (64 <= fuel)%nat -> bytes raw -> Z.of_nat (length raw) < 2 ^ 28 ->
  base64_encoded_len (Z.of_nat (length raw)) < Z.of_nat (length data) -> (length raw <= length out)%nat ->
  exists enc rest, base64_encode raw data = (length enc, enc ++ 0 :: rest) /\
    Z.of_nat (length enc) = base64_encoded_len (Z.of_nat (length raw)) /\ Forall (fun c => c <> 0) enc /\
    base64_decode fuel rodata enc out
    = Some (Ok (Z.of_nat (length raw)), raw ++ replicate (length out - length raw) 0).
Proof.
  intros Ht Hf Hr Hw Hd Ho. exists (encoding raw). rewrite <- encoding_length in Hd.
  rewrite base64_encode_spec, decide_True by lia. unfold written.
  rewrite length_app. simpl. rewrite take_ge by (rewrite !length_app, length_drop; simpl; lia).
  destruct (decide (length data - 1 = length (encoding raw))%nat) as [E|E].
  - eexists. split; [|split; [apply encoding_length|split; [apply encoding_chars|by apply base64_decode_encoding]]].
    rewrite E, <- app_assoc, insert_app_r_alt, Nat.sub_diag by lia. done.
  - exists (<[(length data - 1 - S (length (encoding raw)))%nat := 0]> (drop (length (encoding raw) + 1) data)).
    split; [|split; [apply encoding_length|split; [apply encoding_chars|by apply base64_decode_encoding]]].
    rewrite <- app_assoc, insert_app_r_alt by lia. simpl.
    replace (length data - 1 - length (encoding raw))%nat with (S (length data - 1 - S (length (encoding raw)))) by lia. done.
Qed.

Lemma base64_roundtrip_witness :
  exists enc rest, base64_encode [102; 111; 111; 98] (replicate 10 7) = (8%nat, enc ++ 0 :: rest) /\
    base64_decode 64 (mem_of base64) enc [9; 9; 9; 9] = Some (Ok 4, [102; 111; 111; 98]).
Proof.
  destruct (base64_roundtrip 64 (mem_of base64) [102; 111; 111; 98] (replicate 10 7) [9; 9; 9; 9])
    as (enc & rest & E1 & E2 & _ & E3).
  - reflexivity.
  - lia.
  - by repeat constructor.
  - done.
  - done.
  - simpl. lia.
  - exists enc, rest. split; [|exact E3]. rewrite E1. f_equal. apply Nat2Z.inj. rewrite E2. reflexivity.
Defined.

(** The decoder's search runs past the alphabet, which has no terminator.
    With a suitable byte behind it the decoder accepts a string of characters
    that are not in the alphabet instead of returning -EINVAL. *)
Theorem base64_decode_overread :
  exists rodata, at_mem rodata 0 base64 /\ ~ In 33 base64 /\
    exists data, base64_decode 66 rodata [33; 33; 33; 33] [0; 0; 0] = Some (Ok 3, data).
Proof.
  exists (mem_of (base64 ++ [33; 0])). split; [reflexivity|]. split; [|eexists; vm_compute; reflexivity].
  intros H%list_elem_of_In. revert H. by apply (bool_decide_unpack (33 ∉ base64)).
Qed.

(** ** Base16 *)

Definition base16_encoded_len (raw_len : Z) : Z := 2 * raw_len.

(** The format string "%s%02x" *)
Definition hex_format : list Z := [37; 115; 37; 48; 50; 120].

Fixpoint hex_encode_loop (separator : Z) (raw data : list Z) (used : Z) : option (Z * list Z) :=
  match raw with
  | [] => Some (used, data)
  | byte :: raw =>
    let delimiter := if decide (separator = 0) then [] else [separator] in
    match vssnprintf data (Z.to_nat used) hex_format
            [VStr (Some (if decide (used <> 0) then delimiter else [])); VInt byte] with
    | Some (len, data) => hex_encode_loop separator raw data (u64 (used + len))
    | None => None
    end
  end.

Definition hex_encode (separator : Z) (raw data : list Z) : option (Z * list Z) :=
  let data := if decide (length data <> 0)%nat then <[0%nat := 0]> data else data in
  hex_encode_loop separator raw data 0.

(** [*(encoded++)], which is the terminator at the end of the list. *)
Definition next_char (encoded : list Z) : Z * list Z :=
  match encoded with
  | c :: encoded => (c, encoded)
  | [] => (0, [])
  end.

(** One round of the loop: at most one separator and two digits. *)
Definition hex_decode_byte (separator count : Z) (encoded : list Z) : result (Z * list Z) :=
  let '(bad, encoded) :=
    if decide (count <> 0 /\ separator <> 0) then
      let '(c, encoded) := next_char encoded in (bool_decide (c <> separator), encoded)
    else (false, encoded) in
  if bad : bool then Err EINVAL else
  let '(c, encoded) := next_char encoded in
  let sixteens := digit_value c in
  if decide (sixteens >= 16) then Err EINVAL else
  let '(c, encoded) := next_char encoded in
  let units := digit_value c in
  if decide (units >= 16) then Err EINVAL else
  Ok (Z.lor (Z.shiftl sixteens 4) units, encoded).

(** The fuel is the length of the string; a round that succeeds consumes at
    least two characters. *)
Fixpoint hex_decode_loop (fuel : nat) (separator : Z) (encoded out : list Z) (count : Z) : result Z * list Z :=
  match encoded, fuel with
  | [], _ => (Ok count, out)
  | _, O => (Err EINVAL, out)
  | _, S fuel =>
    match hex_decode_byte separator count encoded with
    | Err e => (Err e, out)
    | Ok (byte, encoded) =>
      hex_decode_loop fuel separator encoded (put out (Z.to_nat count) byte) (u32 (count + 1))
    end
  end.

Definition hex_decode (separator : Z) (encoded data : list Z) : result Z * list Z :=
  hex_decode_loop (length encoded) separator encoded data 0.

Definition base16_encode (raw data : list Z) : option (Z * list Z) := hex_encode 0 raw data.
Definition base16_decode (encoded data : list Z) : result Z * list Z := hex_decode 0 encoded data.

(** The characters of one byte and of the whole data. *)
Definition hex_byte (b : Z) : list Z := [digit_char (b / 16); digit_char (b `mod` 16)].

Definition delimiter (separator : Z) : list Z := if decide (separator = 0) then [] else [separator].

Fixpoint hex_tail (separator : Z) (raw : list Z) : list Z :=
  match raw with
  | [] => []
  | b :: raw => delimiter separator ++ hex_byte b ++ hex_tail separator raw
  end.

Definition hex_string (separator : Z) (raw : list Z) : list Z :=
  match raw with
  | [] => []
  | b :: raw => hex_byte b ++ hex_tail separator raw
  end.

Lemma format_hex_byte b : is_byte b -> format_hex b 2 (Z.lor ZPAD LCASE) = hex_byte b.
Proof.
  intros Hb.
  assert (forallb (fun n => bool_decide (format_hex (Z.of_nat n) 2 (Z.lor ZPAD LCASE) = hex_byte (Z.of_nat n))) (seq 0 256)
          = true) as H by (vm_compute; reflexivity).
  rewrite forallb_forall in H. specialize (H (Z.to_nat b)). rewrite Z2Nat.id in H by zlia.
  eapply bool_decide_eq_true, H, in_seq. zlia.
Qed.

Lemma vcprintf_hex s b : is_byte b -> vcprintf hex_format [VStr (Some s); VInt b] = Some (s ++ hex_byte b).
Proof.
  intros Hb. transitivity (app s <$> (match via_tmp_buf (format_hex (u32 b) 2 (Z.lor ZPAD LCASE)) [] with
    | Some (s', _) => Some (s' ++ []) | None => None end)); [reflexivity|].
  rewrite wrap_small by (eapply in_width_le; [|done]; lia). by rewrite format_hex_byte.
Qed.

Lemma vssnprintf_append str rest s b :
  is_byte b -> (length (s ++ hex_byte b) <= length rest)%nat -> (length s <= 1)%nat ->
  exists rest', length rest = (length (s ++ hex_byte b) + length rest')%nat /\
    vssnprintf (str ++ 0 :: rest) (length str) hex_format [VStr (Some s); VInt b]
    = Some (Z.of_nat (length (s ++ hex_byte b)), (str ++ s ++ hex_byte b) ++ 0 :: rest').
Proof.
  intros Hb Hl Hs. exists (drop (length (s ++ hex_byte b)) rest). split; [rewrite length_drop; lia|].
  unfold vssnprintf. rewrite drop_app_length, take_app_length. rewrite (vsnprintf_value _ _ _ _ (vcprintf_hex s b Hb)).
  remember (s ++ hex_byte b) as w eqn:Ew.
  assert (length w <= 3)%nat as Hw by (subst w; rewrite length_app; simpl; lia).
  unfold printed. cbn [length drop]. rewrite Nat.sub_succ, Nat.sub_0_r, take_ge by lia. rewrite sext_small by lia. by rewrite <- app_assoc.
Qed.

Lemma hex_encode_loop_spec separator raw str rest :
  bytes raw -> let tail := if decide (str = []) then hex_string separator raw else hex_tail separator raw in
  (length tail <= length rest)%nat -> Z.of_nat (length str + length rest) < 2 ^ 31 ->
  exists rest', hex_encode_loop separator raw (str ++ 0 :: rest) (Z.of_nat (length str))
    = Some (Z.of_nat (length (str ++ tail)), (str ++ tail) ++ 0 :: rest').
Proof.
  revert str rest. induction raw as [|b raw IH]; intros str rest Hr tail Hl Hw; cbn [hex_encode_loop].
  { exists rest. assert (tail = []) as -> by (unfold tail; by case_decide). by rewrite app_nil_r. }
  apply Forall_cons in Hr as [Hb Hr]. rewrite Nat2Z.id. set (s := if decide (Z.of_nat (length str) <> 0) then _ else _).
  assert (tail = (s ++ hex_byte b) ++ hex_tail separator raw /\ (length s <= 1)%nat) as [Et Hs].
  { unfold tail, s. destruct str as [|c str]; [split; [reflexivity|simpl; lia]|]. rewrite (decide_False (P := c :: str = [])), decide_True by (simpl; lia || done).
    cbn [hex_tail]. unfold delimiter. case_decide; rewrite ?app_assoc; split; done || simpl; lia. }
  clearbody s tail. subst tail.
  destruct (vssnprintf_append str rest s b) as (rest1 & El & ->); [done| |done|].
  { rewrite length_app in Hl. lia. }
  specialize (IH (str ++ s ++ hex_byte b) rest1 Hr). rewrite decide_False in IH.
  2:{ intros E%(f_equal length). rewrite !length_app in E. simpl in E. lia. }
  cbv zeta in IH. repeat (rewrite length_app in Hl || rewrite length_app in El || rewrite length_app in IH || rewrite length_app).
  destruct IH as [rest' IH]; [lia|lia|]. exists rest'.
  rewrite wrap_small by (split; lia). replace (Z.of_nat (length str) + Z.of_nat (length s + length (hex_byte b)))
    with (Z.of_nat (length str + (length s + length (hex_byte b)))) by lia.
  rewrite IH. rewrite <- !app_assoc. do 2 f_equal. lia.
Qed.

Lemma hex_decode_byte_spec separator count b tail :
  is_byte b -> hex_decode_byte separator count ((if decide (count <> 0) then delimiter separator else []) ++ hex_byte b ++ tail)
  = Ok (b, tail).
Proof.
  intros Hb. unfold hex_decode_byte, delimiter, hex_byte.
  pose proof (Z.div_mod b 16). pose proof (Z.mod_pos_bound b 16).
  assert (0 <= b / 16 < 16) by (split; [apply Z.div_pos; zlia|apply Z.div_lt_upper_bound; zlia]).
  assert (forall enc, enc = [digit_char (b / 16); digit_char (b `mod` 16)] ++ tail ->
    (let '(c, encoded) := next_char enc in
     if decide (digit_value c >= 16) then Err EINVAL else
     let '(c0, encoded0) := next_char encoded in
     if decide (digit_value c0 >= 16) then Err EINVAL
     else Ok (Z.lor (Z.shiftl (digit_value c) 4) (digit_value c0), encoded0)) = Ok (b, tail)) as Hd.
  { intros enc ->. cbn [app next_char]. rewrite !digit_value_char by lia. rewrite !decide_False by lia.
    rewrite lor_shiftl_add by lia. do 2 f_equal. lia. }
  destruct (decide (count <> 0)); [destruct (decide (separator = 0))|].
  - rewrite decide_False by tauto. by apply Hd.
  - rewrite decide_True by done. cbn [app next_char]. rewrite bool_decide_false by tauto. exact (Hd _ eq_refl).
  - rewrite decide_False by tauto. by apply Hd.
Qed.

Lemma hex_decode_loop_spec fuel separator raw pre data :
  bytes raw -> let tail := if decide (pre = []) then hex_string separator raw else hex_tail separator raw in
  (length raw <= fuel)%nat -> Z.of_nat (length pre + length raw) < 2 ^ 32 ->
  hex_decode_loop fuel separator tail (written pre data) (Z.of_nat (length pre))
  = (Ok (Z.of_nat (length (pre ++ raw))), written (pre ++ raw) data).
Proof.
  revert fuel pre. induction raw as [|b raw IH]; intros fuel pre Hr tail Hf Hw.
  { assert (tail = []) as -> by (unfold tail; by case_decide). destruct fuel; simpl; by rewrite app_nil_r. }
  apply Forall_cons in Hr as [Hb Hr]. destruct fuel as [|fuel]; simpl in Hf; [lia|].
  assert (tail = (if decide (Z.of_nat (length pre) <> 0) then delimiter separator else []) ++ hex_byte b ++ hex_tail separator raw) as Et.
  { unfold tail. destruct pre as [|c pre]; [done|]. rewrite decide_False, decide_True by (simpl; lia || done). done. }
  clearbody tail. subst tail. pose proof (hex_decode_byte_spec separator (Z.of_nat (length pre)) b (hex_tail separator raw) Hb) as E.
  assert (exists c t, (if decide (Z.of_nat (length pre) <> 0) then delimiter separator else []) ++ hex_byte b ++ hex_tail separator raw
    = c :: t) as (c & t & Ec) by (case_decide; unfold delimiter; repeat case_decide; by eexists _, _).
  rewrite Ec in *. cbn [hex_decode_loop]. rewrite E. rewrite Nat2Z.id, put_written.
  rewrite wrap_small by (split; simpl in *; lia). specialize (IH fuel (pre ++ [b]) Hr). rewrite decide_False in IH by (by destruct pre).
  rewrite length_app in IH. simpl in IH, Hw. replace (Z.of_nat (length pre) + 1) with (Z.of_nat (length pre + 1)) by lia.
  rewrite IH by lia. by rewrite <- !app_assoc.
Qed.

(** Base16 round trip, with or without a separator.  Encoding into a
    buffer with room for the string and its terminator gives a terminated
    string, and decoding that string returns the raw data and its length;
    bytes of the output buffer behind the data are not touched. *)
Theorem hex_roundtrip separator raw data out :
  bytes raw -> (length (hex_string separator raw) < length data)%nat -> Z.of_nat (length data) < 2 ^ 31 ->
  (length raw <= length out)%nat ->
  exists str rest, hex_encode separator raw data = Some (Z.of_nat (length str), str ++ 0 :: rest) /\
    (separator = 0 -> Z.of_nat (length str) = base16_encoded_len (Z.of_nat (length raw))) /\
    hex_decode separator str out = (Ok (Z.of_nat (length raw)), raw ++ drop (length raw) out).
Proof.
  intros Hr Hd Hw Ho. destruct data as [|d data]; [simpl in Hd; lia|]. simpl in Hd, Hw.
  destruct (hex_encode_loop_spec separator raw [] data Hr) as [rest E]; [simpl; lia|simpl; lia|].
  exists (hex_string separator raw), rest. split; [exact E|]. split.
  - intros ->. unfold base16_encoded_len. clear. destruct raw as [|b raw]; [done|]. simpl.
    assert (length (hex_tail 0 raw) = 2 * length raw)%nat as -> by (induction raw as [|c raw IH]; simpl; lia). lia.
  - assert (length raw <= length (hex_string separator raw))%nat as Hl.
    { clear. destruct raw as [|b raw]; [done|]. simpl.
      assert (length raw <= length (hex_tail separator raw))%nat; [|lia].
      induction raw as [|c raw IH]; simpl; [lia|]. rewrite length_app. simpl. lia. }
    pose proof (hex_decode_loop_spec (length (hex_string separator raw)) separator raw [] out Hr Hl) as F.
    simpl in F. rewrite written_nil in F. unfold hex_decode. change 0 with (Z.of_nat 0). rewrite F by lia.
    f_equal. unfold written. rewrite take_ge; [done|]. rewrite length_app, length_drop. lia.
Qed.

Lemma hex_roundtrip_witness :
  exists str rest, hex_encode 58 [10; 255] (replicate 8 1) = Some (Z.of_nat (length str), str ++ 0 :: rest) /\
    hex_decode 58 str [0; 0; 9] = (Ok 2, [10; 255; 9]).
Proof.
  destruct (hex_roundtrip 58 [10; 255] (replicate 8 1) [0; 0; 9]) as (str & rest & E1 & _ & E2).
  - by repeat constructor.
  - simpl. lia.
  - done.
  - simpl. lia.
  - exists str, rest. split; [exact E1|exact E2].
Defined.
