(* ===== verification/Inet.v ===== *)
(** * IPv4 address notation (net/ipv4.c)

    [inet_aton] reads the string at an address of a memory block, with the
    [strtoul] of Strings; [inet_ntoa] prints with the [sprintf] of Vsprintf.
    An address is its four bytes in network order. *)

From S2P Require Import Prelude CMem Strings Vsprintf.

(** The loop of [inet_aton] over the separators that are left; the last one is
    the terminator of the string.  [None]: out of fuel; [Some None]: the
    source returns zero. *)
Fixpoint inet_aton_loop (fuel : nat) (m : mem) (string : Z) (separators acc : list Z) : option (option (list Z)) :=
  match separators with
  | [] => Some None
  | separator :: separators =>
    match strtoul fuel m string 0 with
    | None => None
    | Some (value, endp) =>
      if decide (string = endp) then Some None
      else if decide (value > 0xff) then Some None
      else if decide (m endp <> separator) then Some None
      else if decide (separator = 0) then Some (Some (acc ++ [value]))
      else inet_aton_loop fuel m (endp + 1) separators (acc ++ [value])
    end
  end.

Definition inet_aton (fuel : nat) (m : mem) (string : Z) : option (option (list Z)) :=
  inet_aton_loop fuel m string (lit "..." ++ [0]) [].

Definition inet_ntoa (bytes : list Z) : option (list Z) :=
  vcprintf (lit "%d.%d.%d.%d") (map VInt bytes).

(** ** Round trip *)

(** The decimal digits of a byte. *)
Definition byte_digits (v : Z) : list Z :=
  if decide (v < 10) then [v] else if decide (v < 100) then [v / 10; v `mod` 10] else [v / 100; (v / 10) `mod` 10; v `mod` 10].

Definition byte_check (v : Z) : bool :=
  forallb (fun d => bool_decide (0 <= d < 10)) (byte_digits v) && bool_decide (digits_value 10 0 (byte_digits v) = v) &&
  bool_decide (format_decimal v 0 0 = map digit_char (byte_digits v)) && bool_decide (length (byte_digits v) <= 3)%nat &&
  (bool_decide (byte_digits v = [0]) || bool_decide (0 < nth 0 (byte_digits v) 0 < 10)).

Lemma byte_digits_ok v :
  is_byte v -> Forall (fun d => 0 <= d < 10) (byte_digits v) /\ digits_value 10 0 (byte_digits v) = v /\
    format_decimal v 0 0 = map digit_char (byte_digits v) /\
    (length (byte_digits v) <= 3)%nat /\ (byte_digits v = [0] \/ exists d ds, byte_digits v = d :: ds /\ 0 < d < 10).
Proof.
  intros Hv. pose proof (all_bytes byte_check ltac:(vm_compute; reflexivity) v Hv) as Ha. unfold byte_check in Ha.
  rewrite !andb_true_iff, orb_true_iff, !bool_decide_eq_true, forallb_forall in Ha.
  destruct Ha as ((((A1 & A2) & A3) & A4) & A5). split_and!; try done.
  - apply Forall_forall. intros d Hd. specialize (A1 d). rewrite bool_decide_eq_true in A1. by apply A1, list_elem_of_In.
  - destruct A5 as [A5|A5]; [by left|right]. destruct (byte_digits v) as [|d ds]; [simpl in A5; lia|]. by exists d, ds.
Qed.

(** [strtoul] with automatic base reads a decimal byte; a lone zero is read as
    an octal prefix without digits. *)
Lemma strtoul_byte fuel m a v c :
  is_byte v -> at_mem m a (map digit_char (byte_digits v) ++ [c]) -> c = 46 \/ c = 0 -> (4 <= fuel)%nat ->
  strtoul fuel m a 0 = Some (v, a + Z.of_nat (length (byte_digits v))).
Proof.
  intros Hv Hm Hc Hf. destruct (byte_digits_ok v Hv) as (B1 & B2 & _ & B4 & B5).
  assert (digit_value c >= 10 /\ Z.land c (Z.lnot 32) <> 88) as [Hd Hx] by (destruct Hc as [->| ->]; vm_compute; done).
  destruct fuel as [|fuel]; [lia|]. unfold strtoul, strtoul_pre. destruct B5 as [E|(d & ds & E & Hd0)]; rewrite E in *.
  - cbn [map app] in Hm. apply at_mem_cons in Hm as [E0 Hm]. pose proof Hm as [E1 _]%at_mem_cons. change (digit_char 0) with 48 in E0.
    cbn [skip_space]. rewrite E0. change (isspace 48) with false. cbv iota. rewrite E0. cbn [decide].
    rewrite !(decide_False (P := 48 = 45)), !(decide_False (P := 48 = 43)) by done. cbv beta iota.
    rewrite !(decide_True (P := 0 = 0)) by done. rewrite E0, (decide_True (P := 48 = 48)), E1, decide_False by done.
    rewrite (strtoul_digits_spec _ _ _ 8 0 [] c); [|lia|done|constructor|done|lia|simpl; lia].
    simpl in B2. subst v. cbn. do 2 f_equal. lia.
  - cbn [map app] in Hm. pose proof Hm as [E0 _]%at_mem_cons.
    assert (48 < digit_char d <= 57) as Hch by (unfold digit_char; rewrite decide_True by lia; lia).
    assert (isspace (digit_char d) = false) as Hs by (unfold isspace; rewrite !bool_decide_false by lia; done).
    cbn [skip_space]. rewrite E0, Hs. cbv iota. rewrite E0, !(decide_False (P := digit_char d = _)) by lia. cbv beta iota.
    rewrite (decide_True (P := 0 = 0)) by done. rewrite E0, decide_False by lia.
    rewrite (strtoul_digits_spec _ _ _ 10 0 (d :: ds) c); [|lia|done|done|done|lia|lia].
    rewrite B2, wrap_small; [done|]. zlia.
Qed.

(** An IPv4 address printed by [inet_ntoa] is read back by [inet_aton]. *)
Theorem inet_roundtrip fuel m a b0 b1 b2 b3 :
  bytes [b0; b1; b2; b3] -> (4 <= fuel)%nat ->
  exists s, inet_ntoa [b0; b1; b2; b3] = Some s /\ (length s <= 15)%nat /\
    (cstr m a s -> inet_aton fuel m a = Some (Some [b0; b1; b2; b3])).
Proof.
  intros Hb Hf. rewrite !Forall_cons in Hb. destruct Hb as (H0 & H1 & H2 & H3 & _).
  set (p v := map digit_char (byte_digits v)).
  exists (p b0 ++ [46] ++ p b1 ++ [46] ++ p b2 ++ [46] ++ p b3).
  assert (forall v, is_byte v -> format_decimal (s32 v) 0 0 = p v /\ (length (p v) <= 3)%nat) as Hp.
  { intros v Hv. destruct (byte_digits_ok v Hv) as (_ & _ & B3 & B4 & _). assert (length (p v) <= 3)%nat as Hl by (unfold p; by rewrite length_map).
    split; [|done]. by rewrite sext_small by zlia. }
  destruct (Hp b0 H0) as [P0 L0], (Hp b1 H1) as [P1 L1], (Hp b2 H2) as [P2 L2], (Hp b3 H3) as [P3 L3].
  split_and!.
  - change (inet_ntoa [b0; b1; b2; b3]) with (vcprintf_loop 11 [37; 100; 46; 37; 100; 46; 37; 100; 46; 37; 100] [VInt b0; VInt b1; VInt b2; VInt b3]).
    rewrite (vcprintf_d _ _ _ _ _ P0), vcprintf_plain, (vcprintf_d _ _ _ _ _ P1), vcprintf_plain, (vcprintf_d _ _ _ _ _ P2),
      vcprintf_plain, (vcprintf_d _ _ _ _ _ P3) by (done || lia).
    simpl. by rewrite app_nil_r.
  - rewrite !length_app. simpl. lia.
  - intros [Hm _]. unfold inet_aton. change (lit "..." ++ [0]) with [46; 46; 46; 0]. rewrite <- !app_assoc in Hm.
    assert (forall v, length (byte_digits v) = length (p v)) as Hlen by (intros v; unfold p; by rewrite length_map).
    assert (forall a v c l, at_mem m a (p v ++ [c] ++ l) -> is_byte v -> c = 46 \/ c = 0 ->
      strtoul fuel m a 0 = Some (v, a + Z.of_nat (length (p v))) /\ m (a + Z.of_nat (length (p v))) = c /\
      a <> a + Z.of_nat (length (p v)) /\ at_mem m (a + Z.of_nat (length (p v)) + 1) l) as Hst.
    { intros a0 v c l Ha Hv Hc. rewrite app_assoc in Ha. apply at_mem_app in Ha as [Ha Hr].
      rewrite (strtoul_byte fuel m a0 v c) by done. pose proof (at_mem_app m a0 (p v) [c]) as Hap. apply Hap in Ha as [_ Hc0].
      apply at_mem_cons in Hc0 as [Hc0 _]. rewrite Hlen. split_and!; [done|done| |].
      - destruct (byte_digits_ok v Hv) as (_ & _ & _ & _ & B5). rewrite <- Hlen. destruct B5 as [->|(d & ds & -> & _)]; simpl; lia.
      - rewrite length_app in Hr. simpl in Hr. by replace (a0 + Z.of_nat (length (p v)) + 1) with (a0 + Z.of_nat (length (p v) + 1)) by lia. }
    cbn [inet_aton_loop].
    destruct (Hst _ _ _ _ Hm H0 ltac:(by left)) as (-> & E0 & N0 & M0). rewrite decide_False, decide_False, E0, decide_False, decide_False by (done || zlia).
    destruct (Hst _ _ _ _ M0 H1 ltac:(by left)) as (-> & E1 & N1 & M1). rewrite decide_False, decide_False, E1, decide_False, decide_False by (done || zlia).
    destruct (Hst _ _ _ _ M1 H2 ltac:(by left)) as (-> & E2 & N2 & M2). rewrite decide_False, decide_False, E2, decide_False, decide_False by (done || zlia).
    rewrite <- (app_nil_r [0]) in M2.
    destruct (Hst _ _ _ _ M2 H3 ltac:(by right)) as (-> & E3 & N3 & _). rewrite decide_False, decide_False, E3, decide_False, decide_True by (done || zlia).
    done.
Qed.

Lemma inet_roundtrip_witness :
  exists s, inet_ntoa [192; 168; 0; 10] = Some s /\
    inet_aton 4 (mem_of (s ++ [0])) 0 = Some (Some [192; 168; 0; 10]).
Proof.
  destruct (inet_roundtrip 4 (mem_of (lit "192.168.0.10" ++ [0])) 0 192 168 0 10) as (s & E & _ & Hs).
  - repeat constructor; done.
  - lia.
  - exists s. split; [exact E|]. vm_compute in E. injection E as <-. apply Hs. split; [reflexivity|].
    repeat constructor; done.
Defined.
