(* ===== verification/Uri.v ===== *)
(** * Uniform resource identifiers (core/uri.c, core/basename.c, include/ipxe/uri.h)

    A C string is the list of its characters without the terminator, and a
    field of a URI that is not present is [None].  The parser of the source
    splits one copy of the string in place by overwriting delimiters; the
    pieces are disjoint, so each is a list of its own here, and [chop] is a
    [strchr] followed by the split.  A decoded field that contains a NUL ends
    there.  [char] is signed, as on x86.  The parameter lists of core/params.c
    are a parameter: [find_parameters] returns a number for a known name.
    Allocation failures are left out, reference counting too. *)

From S2P Require Import Prelude CMem Strings Vsprintf.

(** ** Fields *)

Inductive uri_fields :=
  | URI_SCHEME | URI_OPAQUE | URI_USER | URI_PASSWORD | URI_HOST | URI_PORT | URI_PATH | URI_QUERY | URI_FRAGMENT.

#[export] Instance uri_fields_eq_dec : EqDecision uri_fields.
Proof. solve_decision. Defined.

Definition all_fields : list uri_fields :=
  [URI_SCHEME; URI_OPAQUE; URI_USER; URI_PASSWORD; URI_HOST; URI_PORT; URI_PATH; URI_QUERY; URI_FRAGMENT].

Record uri := Uri {
  scheme : option (list Z);
  opaque : option (list Z);
  user : option (list Z);
  password : option (list Z);
  host : option (list Z);
  port : option (list Z);
  path : option (list Z);
  query : option (list Z);
  fragment : option (list Z);
  params : option nat;
}.

#[export] Instance uri_eq_dec : EqDecision uri.
Proof. solve_decision. Defined.

Definition uri_field (u : uri) (field : uri_fields) : option (list Z) :=
  match field with
  | URI_SCHEME => scheme u
  | URI_OPAQUE => opaque u
  | URI_USER => user u
  | URI_PASSWORD => password u
  | URI_HOST => host u
  | URI_PORT => port u
  | URI_PATH => path u
  | URI_QUERY => query u
  | URI_FRAGMENT => fragment u
  end.

Definition uri_is_absolute (u : uri) : bool := match scheme u with Some _ => true | None => false end.
Definition uri_has_opaque (u : uri) : bool := match opaque u with Some (_ :: _) => true | _ => false end.
Definition uri_has_path (u : uri) : bool := match path u with Some (_ :: _) => true | _ => false end.
Definition uri_has_absolute_path (u : uri) : bool := match path u with Some (c :: _) => bool_decide (c = 47) | _ => false end.
Definition uri_has_relative_path (u : uri) : bool :=
  match path u with Some (c :: _) => bool_decide (c <> 47) | Some [] => true | None => false end.

(** ** Decoding and encoding *)

(** The number after a percent sign: its value, and how many of the at most two
    characters that were copied to [hexbuf] belong to it. *)
Definition decode_escape (encoded : list Z) : Z * nat :=
  match strtoul 4 (mem_of (take 2 encoded ++ [0])) 0 16 with
  | Some (decoded, hexbuf_end) => (u8 decoded, Z.to_nat hexbuf_end)
  | None => (0, O)
  end.

(** The characters written by [uri_decode]; each round consumes at least one
    character, so the length is enough fuel. *)
Fixpoint uri_decode_loop (fuel : nat) (encoded : list Z) : list Z :=
  match fuel, encoded with
  | S fuel, c :: encoded =>
    if decide (c = 37) then
      let '(decoded, skip) := decode_escape encoded in
      (if decide (skip <> 0)%nat then decoded else c) :: uri_decode_loop fuel (drop skip encoded)
    else c :: uri_decode_loop fuel encoded
  | _, _ => []
  end.

(** The length, and the [len] bytes of the buffer that are written at most. *)
Definition uri_decode (encoded : list Z) (len : nat) : nat * list Z :=
  let out := uri_decode_loop (length encoded) encoded in (length out, take len out).

Definition uri_decode_inplace (encoded : option (list Z)) : option (list Z) :=
  match encoded with
  | None => None
  | Some encoded => Some (cstring (snd (uri_decode encoded (length encoded))))
  end.

Definition escaped (field : uri_fields) : list Z :=
  match field with
  | URI_SCHEME => lit "/#:@?=&"
  | URI_OPAQUE => lit "#"
  | URI_USER => lit "/#:@?"
  | URI_PASSWORD => lit "/#:@?"
  | URI_HOST => lit "/#@?"
  | URI_PORT => lit "/#:@?"
  | URI_PATH => lit "#:@?"
  | URI_QUERY => lit "#:@?"
  | URI_FRAGMENT => lit "/#:@?"
  end.

(** [c] is a signed character. *)
Definition uri_character_escaped (c : Z) (field : uri_fields) : bool :=
  negb (isprint c) || bool_decide (c = 32) || bool_decide (c = 37) || bool_decide (c ∈ escaped field ++ [0]).

(** [ssnprintf ( ( buf + used ), ( len - used ), ... )] on a buffer of which
    [used] characters are used, when the arguments match the format. *)
Definition ssnprintf (fmt : list Z) (args : list varg) (o : nat * list Z) : nat * list Z :=
  let '(used, buf) := o in
  match vssnprintf buf used fmt args with
  | Some (n, buf) => (used + Z.to_nat n, buf)%nat
  | None => (used, buf)
  end.

Definition encode_char (field : uri_fields) (byte : Z) (o : nat * list Z) : nat * list Z :=
  let c := sext 8 byte in
  if uri_character_escaped c field then ssnprintf (lit "%%%02X") [VInt c] o else ssnprintf (lit "%c") [VInt c] o.

Fixpoint encode_chars (field : uri_fields) (raw : list Z) (o : nat * list Z) : nat * list Z :=
  match raw with
  | [] => o
  | byte :: raw => encode_chars field raw (encode_char field byte o)
  end.

(** [buf[0] = '\0'] at the current position, if there is room. *)
Definition terminate (o : nat * list Z) : nat * list Z :=
  let '(used, buf) := o in (used, if decide (used < length buf)%nat then <[used := 0]> buf else buf).

Definition uri_encode (field : uri_fields) (raw : list Z) (o : nat * list Z) : nat * list Z :=
  encode_chars field raw (terminate o).

(** ** Parsing *)

(** The string before the first [c] and after it. *)
Fixpoint chop (c : Z) (l : list Z) : option (list Z * list Z) :=
  match l with
  | [] => None
  | x :: l => if decide (x = c) then Some ([], l)
              else match chop c l with Some (pre, post) => Some (x :: pre, post) | None => None end
  end.

(** The same for the last [c]. *)
Fixpoint rchop (c : Z) (l : list Z) : option (list Z * list Z) :=
  match l with
  | [] => None
  | x :: l => match rchop c l with
              | Some (pre, post) => Some (x :: pre, post)
              | None => if decide (x = c) then Some ([], l) else None
              end
  end.

(** The string before the first occurrence of [needle] and after it. *)
Fixpoint chop_string (needle l : list Z) : option (list Z * list Z) :=
  if decide (take (length needle) l = needle) then Some ([], drop (length needle) l)
  else match l with
       | [] => None
       | x :: l => match chop_string needle l with Some (pre, post) => Some (x :: pre, post) | None => None end
       end.

(** Splits off what follows the first [c], if there is one. *)
Definition chop_optional (c : Z) (l : list Z) : list Z * option (list Z) :=
  match chop c l with
  | Some (pre, post) => (pre, Some post)
  | None => (l, None)
  end.

(** [host[:port]]; a colon inside a bracketed literal address is not a port. *)
Definition split_port (l : list Z) : list Z * option (list Z) :=
  match rchop 58 l with
  | Some (pre, post) => if decide (last l <> Some 93) then (pre, Some post) else (l, None)
  | None => (l, None)
  end.

(** The authority: user, password, host and port. *)
Definition split_authority (authority : list Z) : option (list Z) * option (list Z) * list Z * option (list Z) :=
  let '(user, password, hostport) :=
    match chop 64 authority with
    | Some (userpass, hostport) => let '(user, password) := chop_optional 58 userpass in (Some user, password, hostport)
    | None => (None, None, authority)
    end in
  let '(host, port) := split_port hostport in
  (user, password, host, port).

(** The hierarchical part: everything but scheme, opaque part and fragment. *)
Definition parse_hier (scheme fragment : option (list Z)) (params : option nat) (path : list Z) : uri :=
  let '(path, query) := chop_optional 63 path in
  match path with
  | [] => Uri scheme None None None None None None query fragment params
  | _ =>
    if bool_decide (scheme <> None) && bool_decide (take 2 path = [47; 47]) then
      let '(authority, path) := match chop 47 (drop 2 path) with
                                | Some (authority, rest) => (authority, Some (47 :: rest))
                                | None => (drop 2 path, None)
                                end in
      let '(user, password, host, port) := split_authority authority in
      Uri scheme None user password (Some host) port path query fragment params
    else Uri scheme None None None None None (Some path) query fragment params
  end.

Definition decode_fields (u : uri) : uri :=
  Uri (uri_decode_inplace (scheme u)) (uri_decode_inplace (opaque u)) (uri_decode_inplace (user u))
      (uri_decode_inplace (password u)) (uri_decode_inplace (host u)) (uri_decode_inplace (port u))
      (uri_decode_inplace (path u)) (uri_decode_inplace (query u)) (uri_decode_inplace (fragment u)) (params u).

Section parse.
Context (find_parameters : option (list Z) -> option nat).

Definition parse_uri (uri_string : list Z) : uri :=
  let '(raw, params) :=
    match chop_string (lit "##params") uri_string with
    | Some (raw, tmp) => (raw, find_parameters (match tmp with [] => None | _ :: name => Some name end))
    | None => (uri_string, None)
    end in
  let '(raw, fragment) := chop_optional 35 raw in
  decode_fields
    match chop 58 raw with
    | Some (scheme, tmp) =>
      if decide (head tmp = Some 47) then parse_hier (Some scheme) fragment params tmp
      else Uri (Some scheme) (Some tmp) None None None None None None fragment params
    | None => parse_hier None fragment params raw
    end.

Definition uri_port (u : option uri) (default_port : Z) : option Z :=
  match u with
  | Some u =>
    match port u with
    | Some p => match strtoul (S (length p)) (mem_of (p ++ [0])) 0 0 with Some (v, _) => Some (u32 v) | None => None end
    | None => Some default_port
    end
  | None => Some default_port
  end.

(** ** Formatting *)

Definition prefix (u : uri) (field : uri_fields) : Z :=
  match field with
  | URI_PASSWORD => 58
  | URI_PORT => 58
  | URI_QUERY => 63
  | URI_FRAGMENT => 35
  | URI_HOST => match user u with Some _ => 64 | None => 0 end
  | _ => 0
  end.

Definition format_field (u : uri) (o : nat * list Z) (field : uri_fields) : nat * list Z :=
  match uri_field u field with
  | None => o
  | Some s =>
    let o := if decide (prefix u field <> 0) then ssnprintf (lit "%c") [VInt (prefix u field)] o else o in
    let o := uri_encode field s o in
    if decide (field = URI_SCHEME)
    then ssnprintf (lit ":%s") [VStr (Some (match host u with Some _ => lit "//" | None => [] end))] o else o
  end.

(** The length of the URI string, and the buffer. *)
Definition format_uri (u : option uri) (buf : list Z) : nat * list Z :=
  let o := terminate (O, buf) in
  match u with
  | None => o
  | Some u => fold_left (format_field u) all_fields o
  end.

(** The buffer of the length that the first call returns, less its terminator. *)
Definition format_uri_alloc (u : option uri) : list Z :=
  let len := (fst (format_uri u []) + 1)%nat in
  take (len - 1) (snd (format_uri u (replicate len 0))).

(** [uri_dup] copies every field and the parameters. *)
Definition uri_dup (u : uri) : uri :=
  Uri (scheme u) (opaque u) (user u) (password u) (host u) (port u) (path u) (query u) (fragment u) (params u).

(** ** Resolution *)

Definition dirname (path : list Z) : list Z :=
  match rchop 47 path with
  | Some ([], _) => lit "/"
  | Some (pre, _) => pre
  | None => lit "."
  end.

Definition basename (path : list Z) : list Z :=
  match rchop 47 path with
  | Some (_, post) => post
  | None => path
  end.

(** The loop over leading "./" and "../" elements: the directory and what is
    left of the relative path.  Every round shortens the path. *)
Fixpoint resolve_loop (fuel : nat) (base_tmp relative_path : list Z) : list Z * list Z :=
  match fuel, relative_path with
  | S fuel, 46 :: rest =>
    match rest with
    | [] => resolve_loop fuel base_tmp []
    | 47 :: rest => resolve_loop fuel base_tmp rest
    | 46 :: [] => resolve_loop fuel (dirname base_tmp) []
    | 46 :: 47 :: rest => resolve_loop fuel (dirname base_tmp) rest
    | _ => (base_tmp, relative_path)
    end
  | _, _ => (base_tmp, relative_path)
  end.

Definition resolve_path (base_path relative_path : list Z) : list Z :=
  match relative_path with
  | 47 :: _ => relative_path
  | _ =>
    let '(base_tmp, rest) := resolve_loop (length relative_path) (dirname base_path) relative_path in
    base_tmp ++ (if decide (last base_tmp = Some 47) then [] else [47]) ++ rest
  end.

Definition resolve_uri (base_uri : option uri) (relative_uri : uri) : uri :=
  match base_uri with
  | Some base =>
    if uri_is_absolute relative_uri then relative_uri
    else
      uri_dup
        match path relative_uri, query relative_uri, fragment relative_uri, params relative_uri with
        | Some p, _, _, _ =>
          Uri (scheme base) (opaque base) (user base) (password base) (host base) (port base)
              (Some (resolve_path (match path base with Some b => b | None => lit "/" end) p))
              (query relative_uri) (fragment relative_uri) (params relative_uri)
        | None, Some _, _, _ =>
          Uri (scheme base) (opaque base) (user base) (password base) (host base) (port base) (path base)
              (query relative_uri) (fragment relative_uri) (params relative_uri)
        | None, None, Some _, _ =>
          Uri (scheme base) (opaque base) (user base) (password base) (host base) (port base) (path base)
              (query base) (fragment relative_uri) (params relative_uri)
        | None, None, None, Some _ =>
          Uri (scheme base) (opaque base) (user base) (password base) (host base) (port base) (path base)
              (query base) (fragment base) (params relative_uri)
        | None, None, None, None => base
        end
  | None => relative_uri
  end.

(** [sock_ntoa] is the textual address, [st_port] the port of the server. *)
Definition tftp_uri (sock_ntoa : option (list Z)) (st_port : Z) (filename : list Z) : option uri :=
  match sock_ntoa with
  | None => None
  | Some host =>
    let port := if decide (st_port <> 0) then
                  match vsnprintf (replicate 6 0) (lit "%d") [VInt st_port] with
                  | Some (_, buf) => Some (cstring buf)
                  | None => None
                  end
                else None in
    Some (uri_dup (Uri (Some (lit "tftp")) None None None (Some host) port (Some (47 :: filename)) None None None))
  end.

Definition pxe_uri (sock_ntoa : option (list Z)) (st_port : Z) (filename : list Z) : option uri :=
  match filename with
  | [] => None
  | _ =>
    let u := parse_uri filename in
    if uri_is_absolute u && bool_decide (opaque u = None) then Some u else tftp_uri sock_ntoa st_port filename
  end.
End parse.
