(* ===== verification/UriRoundtrip.v ===== *)
(** * URIs: formatting, parsing and resolution

    The string that [format_uri] writes, that [parse_uri] inverts it on the
    URIs that have a textual form, and what [resolve_path] computes. *)

From S2P Require Import Prelude CMem Strings Vsprintf Uri.

(** ** The string of a URI *)

(** The escape sequence of a character, as the source prints it. *)
Definition escape (byte : Z) : list Z :=
  match vcprintf (lit "%%%02X") [VInt (sext 8 byte)] with Some s => s | None => [] end.

Definition enc_char (field : uri_fields) (byte : Z) : list Z :=
  if uri_character_escaped (sext 8 byte) field then escape byte else [u8 (sext 8 byte)].

Definition enc (field : uri_fields) (s : list Z) : list Z := concat (map (enc_char field) s).

Definition field_string (u : uri) (field : uri_fields) : list Z :=
  match uri_field u field with
  | None => []
  | Some s =>
    (if decide (prefix u field <> 0) then [u8 (prefix u field)] else []) ++ enc field s ++
    (if decide (field = URI_SCHEME) then 58 :: match host u with Some _ => lit "//" | None => [] end else [])
  end.

Definition uri_string (u : uri) : list Z := concat (map (field_string u) all_fields).

(** ** Output buffers

    [emitted str o]: the characters [str] have been printed to [o]; the buffer
    holds as many of them as fit, with a terminator. *)
Definition emitted (str : list Z) (o : nat * list Z) : Prop :=
  fst o = length str /\
  (snd o <> [] -> exists rest, snd o = take (length (snd o) - 1) str ++ 0 :: rest).

Lemma emitted_ssnprintf fmt args s str o :
  vcprintf fmt args = Some s -> Z.of_nat (length s) < 2 ^ 31 -> emitted str o -> emitted (str ++ s) (ssnprintf fmt args o).
Proof.
  intros Hs Hl. destruct o as [used buf]. intros [E Hb]. cbn [fst snd] in *. subst used.
  unfold ssnprintf, vssnprintf. rewrite (vsnprintf_value _ _ _ _ Hs). rewrite sext_small by lia. rewrite Nat2Z.id.
  split; cbn [fst snd]; [by rewrite length_app|]. intros Hne.
  destruct (decide (length str < length buf)%nat) as [Hlt|Hge].
  - destruct Hb as [rest Hb]; [by intros ->; simpl in Hlt; lia|]. rewrite (take_ge str) in Hb by lia.
    assert (printed (drop (length str) buf) s = take (length (drop (length str) buf) - 1) s ++ 0 :: drop (S (length s)) (drop (length str) buf)) as ->.
    { unfold printed. destruct (drop (length str) buf) eqn:E; [|done]. apply (f_equal length) in E. rewrite length_drop in E. simpl in E. lia. }
    assert (take (length str) buf = str) as -> by (rewrite Hb; apply take_app_length). rewrite length_drop.
    exists (drop (S (length s)) (drop (length str) buf)). rewrite !length_app. cbn [length]. rewrite length_take, !length_drop.
    rewrite app_assoc. f_equal. rewrite take_app. f_equal; [rewrite take_ge; [done|lia]|]. f_equal. lia.
  - rewrite (drop_ge buf) in * by lia. cbn [printed] in *.
    rewrite app_nil_r in *. rewrite (take_ge buf) in * by lia.
    destruct Hb as [rest Hb]; [done|]. exists rest. rewrite take_app_le by lia. exact Hb.
Qed.

Lemma emitted_terminate str o : emitted str o -> emitted str (terminate o).
Proof.
  destruct o as [used buf]. intros [E Hb]. cbn [fst snd] in *. subst used. unfold terminate.
  destruct (decide (length str < length buf)%nat) as [Hlt|Hge]; [|by split]. split; [done|]. cbn [snd]. intros _.
  destruct Hb as [rest Hb]; [by intros ->; simpl in Hlt; lia|]. rewrite length_insert. exists rest.
  rewrite (take_ge str) in * by lia. rewrite Hb at 1. by rewrite insert_app_r_alt, Nat.sub_diag by lia.
Qed.

Lemma emitted_start buf : emitted [] (terminate (O, buf)).
Proof.
  unfold terminate. destruct buf as [|c buf]; [by split|]. split; [done|]. intros _. exists buf. by rewrite take_nil.
Qed.

Definition hexdig (c : Z) : bool := isdigit c || (bool_decide (65 <= c) && bool_decide (c <= 70)).

(** What the escape sequences are, checked on every byte: a seven-bit character
    becomes a percent sign and two digits that are read back. *)
Definition escape_check (b : Z) : bool :=
  match vcprintf (lit "%%%02X") [VInt (sext 8 b)] with
  | None => false
  | Some s =>
    bool_decide (length s <= 9)%nat &&
    (bool_decide (128 <= b) ||
     match s with
     | [p; h1; h2] => bool_decide (p = 37) && hexdig h1 && hexdig h2 &&
                      bool_decide (strtoul 4 (mem_of ([h1; h2] ++ [0])) 0 16 = Some (b, 2))
     | _ => false
     end)
  end.

Lemma escape_checked b : is_byte b -> escape_check b = true.
Proof. apply all_bytes. vm_compute. reflexivity. Qed.

#[local] Opaque vcprintf.
Lemma escape_length byte : is_byte byte -> vcprintf (lit "%%%02X") [VInt (sext 8 byte)] = Some (escape byte) /\ (length (escape byte) <= 9)%nat.
Proof.
  intros Hb. pose proof (escape_checked byte Hb) as Ha. unfold escape_check, escape in *.
  destruct (vcprintf _ _) as [s|]; [|done]. apply andb_true_iff in Ha as [Ha _]. by apply bool_decide_eq_true in Ha.
Qed.

Lemma escape_ascii b :
  0 <= b < 128 -> exists h1 h2, escape b = [37; h1; h2] /\ hexdig h1 = true /\ hexdig h2 = true /\
    strtoul 4 (mem_of ([h1; h2] ++ [0])) 0 16 = Some (b, 2).
Proof.
  intros Hb. pose proof (escape_checked b ltac:(zlia)) as Ha. unfold escape_check, escape in *.
  destruct (vcprintf _ _) as [s|]; [|done]. apply andb_true_iff in Ha as [_ Ha]. rewrite bool_decide_false in Ha by lia.
  cbn [orb] in Ha. destruct s as [|p [|h1 [|h2 [|]]]]; try done. rewrite !andb_true_iff, !bool_decide_eq_true in Ha.
  destruct Ha as (((-> & ?) & ?) & ?). by exists h1, h2.
Qed.

#[local] Transparent vcprintf.
Lemma emitted_char field byte str o : is_byte byte -> emitted str o -> emitted (str ++ enc_char field byte) (encode_char field byte o).
Proof.
  intros Hb Ho. unfold encode_char, enc_char. destruct (uri_character_escaped _ _).
  - destruct (escape_length byte Hb) as [E L]. eapply emitted_ssnprintf; [exact E|lia|done].
  - eapply emitted_ssnprintf; [|cbn; lia|done]. reflexivity.
Qed.

Lemma emitted_chars field s str o : bytes s -> emitted str o -> emitted (str ++ enc field s) (encode_chars field s o).
Proof.
  intros Hs. revert str o. induction Hs as [|b s Hb Hs IH]; intros str o Ho; cbn [encode_chars].
  - unfold enc. simpl. by rewrite app_nil_r.
  - unfold enc. cbn [map concat]. rewrite app_assoc. by apply IH, emitted_char.
Qed.

(** The fields that are present hold bytes. *)
Definition uri_bytes (u : uri) : Prop := forall field s, uri_field u field = Some s -> bytes s.

Lemma emitted_field u str o field :
  uri_bytes u -> emitted str o -> emitted (str ++ field_string u field) (format_field u o field).
Proof.
  intros Hu Ho. unfold format_field, field_string. destruct (uri_field u field) as [s|] eqn:Es; [|by rewrite app_nil_r].
  set (o1 := if decide (prefix u field <> 0) then _ else o). set (p := if decide (prefix u field <> 0) then _ else _).
  assert (emitted (str ++ p) o1) as H1.
  { subst o1 p. destruct (decide (prefix u field <> 0)); [|by rewrite app_nil_r]. eapply emitted_ssnprintf; [|cbn; lia|done]. reflexivity. }
  clearbody o1. apply emitted_terminate, (emitted_chars field s) in H1; [|by eapply Hu]. fold (uri_encode field s o1) in H1.
  set (o2 := uri_encode field s o1) in *. clearbody o2. rewrite !app_assoc. destruct (decide (field = URI_SCHEME)); [|by rewrite app_nil_r].
  destruct (host u); (eapply emitted_ssnprintf; [|cbn; lia|done]); reflexivity.
Qed.

Lemma format_uri_emitted u buf : uri_bytes u -> emitted (uri_string u) (format_uri (Some u) buf).
Proof.
  intros Hu. unfold format_uri, uri_string.
  assert (forall fields str o, emitted str o -> emitted (str ++ concat (map (field_string u) fields)) (fold_left (format_field u) fields o)) as Hf.
  { induction fields as [|f fields IH]; intros str o Ho; cbn [map concat fold_left]; [by rewrite app_nil_r|].
    rewrite app_assoc. by apply IH, emitted_field. }
  apply (Hf all_fields [] _ (emitted_start buf)).
Qed.

Lemma format_uri_alloc_string u : uri_bytes u -> format_uri_alloc (Some u) = uri_string u.
Proof.
  intros Hu. unfold format_uri_alloc. destruct (format_uri_emitted u [] Hu) as [-> _].
  set (len := (length (uri_string u) + 1)%nat). destruct (format_uri_emitted u (replicate len 0) Hu) as [_ Hb].
  assert (length (snd (format_uri (Some u) (replicate len 0))) = len) as Hl.
  { unfold format_uri. assert (forall fields o, length (snd (fold_left (format_field u) fields o)) = length (snd o)) as Hf.
    { assert (forall fmt args o, length (snd (ssnprintf fmt args o)) = length (snd o)) as Hss.
      { intros fmt args [used buf]. unfold ssnprintf, vssnprintf.
        destruct (vcprintf fmt args) as [s|] eqn:Hs; [rewrite (vsnprintf_value _ _ _ _ Hs)|by rewrite vsnprintf_none]. cbn [snd].
        rewrite length_app, printed_length, length_take, length_drop. lia. }
      assert (forall f s o, length (snd (uri_encode f s o)) = length (snd o)) as Hue.
      { intros f s [used buf]. unfold uri_encode. transitivity (length (snd (terminate (used, buf)))).
        - generalize (terminate (used, buf)). induction s as [|b s IH]; intros o; cbn [encode_chars]; [done|]. rewrite IH.
          unfold encode_char. by destruct (uri_character_escaped _ _).
        - unfold terminate. destruct (decide _); cbn [snd]; by rewrite ?length_insert. }
      induction fields as [|f fields IH]; intros o; cbn [fold_left]; [done|]. rewrite IH. unfold format_field.
      destruct (uri_field u f); [|done]. destruct (decide (f = URI_SCHEME)); rewrite ?Hss, Hue; destruct (decide _); by rewrite ?Hss. }
    rewrite Hf. unfold terminate. cbn [snd]. destruct (decide _); by rewrite ?length_insert, length_replicate. }
  destruct Hb as [rest Hb]; [intros E; rewrite E in Hl; simpl in Hl; lia|]. rewrite Hl in Hb.
  replace (len - 1)%nat with (length (uri_string u)) in Hb |- * by lia. rewrite (take_ge (uri_string u)) in Hb by lia. rewrite Hb.
  apply take_app_length.
Qed.

(** ** Encoding and decoding *)

Definition ascii (s : list Z) : Prop := Forall (fun c => 1 <= c < 128) s.

Lemma ascii_bytes s : ascii s -> bytes s.
Proof. intros Hs. eapply Forall_impl; [exact Hs|]. intros c Hc. zlia. Qed.

Lemma enc_char_ascii field c :
  1 <= c < 128 -> (uri_character_escaped c field = false /\ enc_char field c = [c] /\ c <> 37) \/
    (uri_character_escaped c field = true /\ enc_char field c = escape c).
Proof.
  intros Hc. unfold enc_char. rewrite sext_small by lia. destruct (uri_character_escaped c field) eqn:E; [by right|left].
  rewrite wrap_small by zlia. split_and!; try done. intros ->. unfold uri_character_escaped in E.
  rewrite (bool_decide_true (37 = 37)), !orb_true_r in E by done. done.
Qed.

Lemma decode_enc_char field c rest fuel :
  1 <= c < 128 ->
  uri_decode_loop (length (enc_char field c) + fuel) (enc_char field c ++ rest) = c :: uri_decode_loop (length (enc_char field c) - 1 + fuel) rest.
Proof.
  intros Hc. destruct (enc_char_ascii field c Hc) as [(_ & -> & Hne)|[_ ->]].
  - cbn [length app Nat.add uri_decode_loop]. by rewrite decide_False.
  - destruct (escape_ascii c ltac:(lia)) as (h1 & h2 & -> & _ & _ & E). cbn [length app Nat.add uri_decode_loop Nat.sub].
    rewrite decide_True by done. unfold decode_escape. change (take 2 (h1 :: h2 :: rest)) with [h1; h2]. rewrite E. cbn [Z.to_nat Pos.to_nat].
    rewrite wrap_small by zlia. done.
Qed.

Lemma decode_loop_enc field s fuel : ascii s -> (length (enc field s) <= fuel)%nat -> uri_decode_loop fuel (enc field s) = s.
Proof.
  intros Hs. revert fuel. induction Hs as [|c s Hc Hs IH]; intros fuel Hf; [by destruct fuel|].
  unfold enc in *. cbn [map concat] in *. rewrite length_app in Hf.
  replace fuel with (length (enc_char field c) + (fuel - length (enc_char field c)))%nat by lia.
  rewrite decode_enc_char by done. f_equal. apply IH. lia.
Qed.

Lemma cstring_ascii s : ascii s -> cstring s = s.
Proof. induction 1 as [|c s Hc Hs IH]; [done|]. cbn [cstring]. rewrite decide_False by lia. by rewrite IH. Qed.

Lemma length_enc field s : ascii s -> (length s <= length (enc field s))%nat.
Proof.
  induction 1 as [|c s Hc Hs IH]; [done|]. unfold enc in *. cbn [map concat length]. rewrite length_app.
  destruct (enc_char_ascii field c Hc) as [(_ & -> & _)|[_ ->]]; [cbn; lia|].
  destruct (escape_ascii c ltac:(lia)) as (h1 & h2 & -> & _). cbn. lia.
Qed.

Lemma decode_enc field s : ascii s -> uri_decode_inplace (Some (enc field s)) = Some s.
Proof.
  intros Hs. unfold uri_decode_inplace, uri_decode. cbn [snd]. rewrite decode_loop_enc by done.
  rewrite take_ge by (by apply length_enc). by rewrite cstring_ascii.
Qed.

(** An encoded field holds percent signs, hexadecimal digits and the characters
    of the field that need no escape. *)
Lemma elem_of_enc field s d :
  ascii s -> d ∈ enc field s -> d = 37 \/ hexdig d = true \/ (d ∈ s /\ uri_character_escaped d field = false).
Proof.
  induction 1 as [|c s Hc Hs IH]; unfold enc in *; cbn [map concat]; [by intros ?%not_elem_of_nil|].
  rewrite elem_of_app. intros [Hd|Hd].
  - destruct (enc_char_ascii field c Hc) as [(E1 & E2 & _)|[_ E2]]; rewrite E2 in Hd.
    + apply list_elem_of_singleton in Hd as ->. right. right. split; [left|done].
    + destruct (escape_ascii c ltac:(lia)) as (h1 & h2 & E & H1 & H2 & _). rewrite E in Hd.
      rewrite !elem_of_cons, elem_of_nil in Hd. destruct Hd as [->|[->|[->|[]]]]; auto.
  - destruct (IH Hd) as [?|[?|[? ?]]]; auto. right. right. split; [by right|done].
Qed.

Lemma enc_avoids field s d : ascii s -> d ∈ escaped field -> d <> 37 -> hexdig d = false -> d ∉ enc field s.
Proof.
  intros Hs Hd Hp Hh Hin. destruct (elem_of_enc field s d Hs Hin) as [?|[?|[_ E]]]; [done|congruence|].
  unfold uri_character_escaped in E. rewrite (bool_decide_true (d ∈ _)) in E by (apply elem_of_app; by left). by rewrite orb_true_r in E.
Qed.

(** ** Splitting *)

Lemma chop_app d pre post : d ∉ pre -> chop d (pre ++ d :: post) = Some (pre, post).
Proof.
  induction pre as [|c pre IH]; intros Hd; cbn [app chop]; [by rewrite decide_True|].
  apply not_elem_of_cons in Hd as [Hc Hd]. rewrite decide_False by done. by rewrite IH.
Qed.

Lemma chop_none d l : d ∉ l -> chop d l = None.
Proof.
  induction l as [|c l IH]; intros Hd; cbn [chop]; [done|].
  apply not_elem_of_cons in Hd as [Hc Hd]. rewrite decide_False by done. by rewrite IH.
Qed.

Lemma rchop_none d l : d ∉ l -> rchop d l = None.
Proof.
  induction l as [|c l IH]; intros Hd; cbn [rchop]; [done|].
  apply not_elem_of_cons in Hd as [Hc Hd]. rewrite IH by done. by rewrite decide_False.
Qed.

Lemma rchop_app d pre post : d ∉ post -> rchop d (pre ++ d :: post) = Some (pre, post).
Proof.
  intros Hd. induction pre as [|c pre IH]; cbn [app rchop]; [by rewrite rchop_none, decide_True|]. by rewrite IH.
Qed.

(** [chop] is the source's [strchr]. *)
Lemma chop_strchr fuel m a c l :
  cstr m a l -> c <> 0 -> (length l < fuel)%nat ->
  strchr fuel m a c = Some (match chop c l with Some (pre, _) => Some (a + Z.of_nat (length pre)) | None => None end).
Proof.
  intros Hm Hc. revert a fuel Hm. induction l as [|x l IH]; intros a [|fuel] Hm Hf; simpl in Hf; try lia; cbn [strchr chop].
  - apply cstr_nil in Hm. by rewrite Hm, decide_False, decide_True by done.
  - apply cstr_cons in Hm as (E & Hx & Hm). rewrite E. destruct (decide (x = c)).
    + do 2 f_equal. simpl. lia.
    + rewrite decide_False by done. rewrite IH by (done || lia). destruct (chop c l) as [[pre post]|]; [|done].
      do 2 f_equal. simpl. lia.
Qed.

(** A double hash does not occur when there is at most one hash. *)
Lemma chop_string_none rest pre post :
  35 ∉ pre -> (post = [] \/ exists frag, post = 35 :: frag /\ 35 ∉ frag) -> chop_string (35 :: 35 :: rest) (pre ++ post) = None.
Proof.
  intros Hpre Hpost. induction pre as [|c pre IH].
  - destruct Hpost as [->|(frag & -> & Hf)]; [done|]. cbn [app].
    assert (chop_string (35 :: 35 :: rest) frag = None) as Hn.
    { clear -Hf. induction frag as [|c frag IH]; [done|]. apply not_elem_of_cons in Hf as [Hc Hf]. cbn [chop_string].
      rewrite decide_False; [by rewrite IH|]. cbn. by intros [= -> _]. }
    cbn [chop_string]. rewrite decide_False; [by rewrite Hn|]. cbn. intros [= E]. destruct frag as [|c frag]; [done|].
    cbn in E. injection E as -> _. apply not_elem_of_cons in Hf as [Hf _]. done.
  - apply not_elem_of_cons in Hpre as [Hc Hpre]. cbn [app chop_string]. rewrite decide_False; [by rewrite IH|]. cbn. by intros [= -> _].
Qed.

(** ** The URIs with a textual form *)

Definition field_ascii (o : option (list Z)) : Prop := match o with Some s => ascii s | None => True end.

Definition uri_ascii (u : uri) : Prop := forall field, field_ascii (uri_field u field).

(** A host contains no colon, unless it is a bracketed literal address or a
    port follows; a port does not end in a bracket. *)
Definition hostport_ok (host : list Z) (port : option (list Z)) : Prop :=
  match port with
  | None => 58 ∉ host \/ last host = Some 93
  | Some p => last p <> Some 93
  end.

(** Relative references, opaque URIs, URIs with an authority and URIs with a
    path alone. *)
Definition uri_shape (u : uri) : Prop :=
  match scheme u, opaque u, host u with
  | None, opaque, host =>
    opaque = None /\ host = None /\ user u = None /\ password u = None /\ port u = None /\ path u <> Some []
  | Some _, Some o, host =>
    host = None /\ user u = None /\ password u = None /\ port u = None /\ path u = None /\ query u = None /\ head o <> Some 47
  | Some _, None, Some h =>
    (user u = None -> password u = None) /\ hostport_ok h (port u) /\
    (path u = None \/ exists p, path u = Some (47 :: p))
  | Some _, None, None =>
    user u = None /\ password u = None /\ port u = None /\ exists p, path u = Some (47 :: p) /\ head p <> Some 47
  end.

Definition uri_wf (u : uri) : Prop := uri_ascii u /\ uri_shape u /\ params u = None.

(** The encoded value of a field that may be missing. *)
Definition eopt (field : uri_fields) (o : option (list Z)) : option (list Z) := enc field <$> o.

Lemma decode_eopt field o : field_ascii o -> uri_decode_inplace (eopt field o) = o.
Proof. destruct o as [s|]; [|done]. intros Hs. cbn [eopt fmap option_fmap option_map]. by apply decode_enc. Qed.

Definition encode_fields (u : uri) : uri :=
  Uri (eopt URI_SCHEME (scheme u)) (eopt URI_OPAQUE (opaque u)) (eopt URI_USER (user u)) (eopt URI_PASSWORD (password u))
      (eopt URI_HOST (host u)) (eopt URI_PORT (port u)) (eopt URI_PATH (path u)) (eopt URI_QUERY (query u))
      (eopt URI_FRAGMENT (fragment u)) (params u).

Lemma decode_encode_fields u : uri_ascii u -> decode_fields (encode_fields u) = u.
Proof.
  intros Hu. unfold decode_fields, encode_fields. cbn [scheme opaque user password host port path query fragment params].
  rewrite !decode_eopt by (apply (Hu URI_SCHEME) || apply (Hu URI_OPAQUE) || apply (Hu URI_USER) || apply (Hu URI_PASSWORD) ||
    apply (Hu URI_HOST) || apply (Hu URI_PORT) || apply (Hu URI_PATH) || apply (Hu URI_QUERY) || apply (Hu URI_FRAGMENT)).
  by destruct u.
Qed.

(** A delimiter and a field, if the field is present. *)
Definition delim (d : Z) (o : option (list Z)) : list Z := match o with Some s => d :: s | None => [] end.

Lemma chop_optional_delim d pre o : d ∉ pre -> chop_optional d (pre ++ delim d o) = (pre, o).
Proof.
  intros Hd. unfold chop_optional, delim. destruct o as [s|]; [by rewrite chop_app|]. by rewrite app_nil_r, chop_none.
Qed.

Lemma last_enc_bracket field s :
  ascii s -> 93 ∉ escaped field -> last (enc field s) = Some 93 <-> last s = Some 93.
Proof.
  intros Hs Hf. destruct s as [|c s _] using rev_ind; [done|]. apply Forall_app in Hs as [Hs Hc]. apply Forall_cons in Hc as [Hc _].
  unfold enc. rewrite map_app, concat_app. cbn [map concat]. rewrite app_nil_r, !last_snoc.
  destruct (enc_char_ascii field c Hc) as [(_ & -> & _)|[E ->]]; [by rewrite last_snoc|].
  destruct (escape_ascii c ltac:(lia)) as (h1 & h2 & -> & _ & H2 & _).
  change [37; h1; h2] with ([37; h1] ++ [h2]). rewrite app_assoc, last_snoc. split; intros [= ->]; [done|].
  exfalso. unfold uri_character_escaped in E. rewrite (bool_decide_false (93 ∈ _)) in E; [done|].
  rewrite elem_of_app, list_elem_of_singleton. intros [?|?]; done.
Qed.

(** The authority part of a URI with a host. *)
Definition userinfo (u : uri) : list Z :=
  match user u with
  | Some s => enc URI_USER s ++ delim 58 (eopt URI_PASSWORD (password u)) ++ [64]
  | None => []
  end.

Definition authority (u : uri) (h : list Z) : list Z := userinfo u ++ enc URI_HOST h ++ delim 58 (eopt URI_PORT (port u)).

(** Every encoded field avoids the delimiters that its encoder escapes. *)
Lemma eopt_avoids field o d :
  field_ascii o -> d ∈ escaped field -> d <> 37 -> hexdig d = false -> d ∉ default [] (eopt field o).
Proof. destruct o as [s|]; intros Ho; [by apply enc_avoids|]. intros _ _ _. apply not_elem_of_nil. Qed.

Lemma delim_avoids field o d c :
  field_ascii o -> d ∈ escaped field -> d <> 37 -> hexdig d = false -> d <> c -> d ∉ delim c (eopt field o).
Proof.
  intros Ho Hd H1 H2 Hc. pose proof (eopt_avoids field o d Ho Hd H1 H2) as Ha. destruct o as [s|]; [|apply not_elem_of_nil].
  cbn [delim eopt fmap option_fmap option_map] in *. rewrite not_elem_of_cons. by split.
Qed.

(** Discharges the side conditions of the two lemmas for a given delimiter. *)
Ltac in_escaped := apply (bool_decide_unpack _); vm_compute; exact I.
Ltac avoids := first [apply not_elem_of_nil | (apply delim_avoids || apply enc_avoids || apply eopt_avoids); [assumption|in_escaped..]].

Lemma authority_avoids u h d :
  uri_ascii u -> ascii h -> d = 47 \/ d = 63 \/ d = 35 -> d ∉ authority u h.
Proof.
  intros Hu Hh Hd. pose proof (Hu URI_USER) as U1. pose proof (Hu URI_PASSWORD) as U2. pose proof (Hu URI_PORT) as U3.
  cbn [uri_field] in *. unfold authority, userinfo. rewrite !not_elem_of_app.
  assert (d ∉ match user u with Some s => enc URI_USER s ++ delim 58 (eopt URI_PASSWORD (password u)) ++ [64] | None => [] end).
  { destruct (user u) as [s|]; [|apply not_elem_of_nil]. rewrite !not_elem_of_app, list_elem_of_singleton.
    destruct Hd as [->|[->| ->]]; split_and!; try avoids; done. }
  destruct Hd as [->|[->| ->]]; split_and!; try done; avoids.
Qed.

Lemma split_port_ok u h :
  uri_ascii u -> ascii h -> hostport_ok h (port u) ->
  split_port (enc URI_HOST h ++ delim 58 (eopt URI_PORT (port u))) = (enc URI_HOST h, eopt URI_PORT (port u)).
Proof.
  intros Hu Hh Hok. pose proof (Hu URI_PORT) as U3. cbn [uri_field] in U3. unfold split_port, hostport_ok in *.
  destruct (port u) as [p|]; cbn [eopt fmap option_fmap option_map delim].
  - rewrite rchop_app by avoids. rewrite decide_True; [done|]. intros E.
    assert (last (enc URI_PORT p) = Some 93 \/ 58 = 93) as [E'|E'].
    { destruct (enc URI_PORT p) as [|c l] eqn:Ep.
      - rewrite last_snoc in E. injection E as E. by right.
      - left. by rewrite last_app_cons, last_cons_cons in E. }
    + by apply last_enc_bracket in E'; [|done|in_escaped].
    + done.
  - rewrite app_nil_r. destruct Hok as [Hok|Hok].
    + rewrite rchop_none; [done|]. intros Hin. by destruct (elem_of_enc URI_HOST h 58 Hh Hin) as [?|[?|[? _]]].
    + destruct (rchop 58 (enc URI_HOST h)) as [[pre post]|]; [|done]. rewrite decide_False; [done|]. intros Hn. apply Hn.
      apply last_enc_bracket; [done|in_escaped|done].
Qed.

Lemma split_authority_ok u h :
  uri_ascii u -> ascii h -> hostport_ok h (port u) -> (user u = None -> password u = None) ->
  split_authority (authority u h)
  = (eopt URI_USER (user u), eopt URI_PASSWORD (password u), enc URI_HOST h, eopt URI_PORT (port u)).
Proof.
  intros Hu Hh Hok Hp. pose proof (Hu URI_USER) as U1. pose proof (Hu URI_PASSWORD) as U2. pose proof (Hu URI_PORT) as U3.
  cbn [uri_field] in *. unfold split_authority, authority, userinfo. destruct (user u) as [s|].
  - rewrite <- !app_assoc. cbn [app]. rewrite app_assoc, chop_app.
    + rewrite chop_optional_delim by avoids. by rewrite split_port_ok.
    + rewrite not_elem_of_app. split; avoids.
  - rewrite Hp by done. cbn [app]. rewrite chop_none; [by rewrite split_port_ok|]. rewrite not_elem_of_app. split; avoids.
Qed.

(** ** The round trip *)

(** What remains to be parsed once parameters and fragment are cut off. *)
Definition parse_main (raw : list Z) (fragment : option (list Z)) (params : option nat) : uri :=
  match chop 58 raw with
  | Some (scheme, tmp) =>
    if decide (head tmp = Some 47) then parse_hier (Some scheme) fragment params tmp
    else Uri (Some scheme) (Some tmp) None None None None None None fragment params
  | None => parse_hier None fragment params raw
  end.

Lemma parse_uri_split ff raw frag :
  35 ∉ raw -> field_ascii frag ->
  parse_uri ff (raw ++ delim 35 (eopt URI_FRAGMENT frag)) = decode_fields (parse_main raw (eopt URI_FRAGMENT frag) None).
Proof.
  intros Hr Hf. unfold parse_uri. change (lit "##params") with (35 :: 35 :: lit "params").
  rewrite chop_string_none; [|done|].
  - by rewrite chop_optional_delim.
  - destruct frag as [s|]; [right|by left]. exists (enc URI_FRAGMENT s). split; [done|avoids].
Qed.

Lemma u8_prefix d : 0 <= d < 256 -> u8 d = d.
Proof. intros Hd. by apply wrap_small. Qed.

(** Evaluates tests between constants. *)
Ltac decided :=
  repeat match goal with
  | |- context [decide ?P] =>
    first [rewrite (decide_True (P := P)) by done | rewrite (decide_False (P := P)) by done
          | rewrite (decide_False (P := P)) by (let Hn := fresh in intros Hn; by apply Hn)]
  end.

(** The string of each shape. *)
Lemma field_string_frag u : field_string u URI_FRAGMENT = delim 35 (eopt URI_FRAGMENT (fragment u)).
Proof. unfold field_string. cbn [uri_field]. destruct (fragment u); [|done]. cbn. by rewrite app_nil_r. Qed.

Lemma field_string_query u : field_string u URI_QUERY = delim 63 (eopt URI_QUERY (query u)).
Proof. unfold field_string. cbn [uri_field]. destruct (query u); [|done]. cbn. by rewrite app_nil_r. Qed.

Lemma field_string_path u : field_string u URI_PATH = default [] (eopt URI_PATH (path u)).
Proof. unfold field_string. cbn [uri_field]. destruct (path u); [|done]. cbn. by rewrite app_nil_r. Qed.

Lemma uri_string_relative u :
  scheme u = None -> opaque u = None -> user u = None -> password u = None -> host u = None -> port u = None ->
  uri_string u = (default [] (eopt URI_PATH (path u)) ++ delim 63 (eopt URI_QUERY (query u))) ++ delim 35 (eopt URI_FRAGMENT (fragment u)).
Proof.
  intros E1 E2 E3 E4 E5 E6. unfold uri_string, all_fields. cbn [map concat].
  rewrite field_string_frag, field_string_query, field_string_path. unfold field_string. cbn [uri_field].
  rewrite E1, E2, E3, E4, E5, E6. cbn [app]. by rewrite app_nil_r, app_assoc.
Qed.

Lemma uri_string_opaque u s o :
  scheme u = Some s -> opaque u = Some o -> user u = None -> password u = None -> host u = None -> port u = None ->
  path u = None -> query u = None ->
  uri_string u = (enc URI_SCHEME s ++ 58 :: enc URI_OPAQUE o) ++ delim 35 (eopt URI_FRAGMENT (fragment u)).
Proof.
  intros E1 E2 E3 E4 E5 E6 E7 E8. unfold uri_string, all_fields. cbn [map concat].
  rewrite field_string_frag, field_string_query, field_string_path. unfold field_string. cbn [uri_field prefix].
  rewrite E1, E2, E3, E4, E5, E6, E7, E8. cbn [app]. decided.
  cbn [app eopt fmap option_fmap option_map default delim]. by rewrite !app_nil_r, <- !app_assoc.
Qed.

Lemma uri_string_hier u s :
  scheme u = Some s -> opaque u = None -> host u = None -> user u = None -> password u = None -> port u = None ->
  uri_string u = (enc URI_SCHEME s ++ 58 :: default [] (eopt URI_PATH (path u)) ++ delim 63 (eopt URI_QUERY (query u))) ++
    delim 35 (eopt URI_FRAGMENT (fragment u)).
Proof.
  intros E1 E2 E3 E4 E5 E6. unfold uri_string, all_fields. cbn [map concat].
  rewrite field_string_frag, field_string_query, field_string_path. unfold field_string. cbn [uri_field prefix].
  rewrite E1, E2, E3, E4, E5, E6. cbn [app]. decided.
  cbn [app]. rewrite !app_nil_r, <- !app_assoc. cbn [app]. by rewrite <- ?app_assoc.
Qed.

(** Brings both sides of an equality between concatenations to normal form. *)
Ltac flatten_app :=
  cbn [eopt fmap option_fmap option_map delim]; decided; change (u8 58) with 58; change (u8 64) with 64;
  rewrite ?app_nil_r; repeat (progress (rewrite <- ?app_assoc; cbn [app])); done.

Lemma uri_string_net u s h :
  scheme u = Some s -> opaque u = None -> host u = Some h -> (user u = None -> password u = None) ->
  uri_string u = (enc URI_SCHEME s ++ 58 :: 47 :: 47 :: authority u h ++ default [] (eopt URI_PATH (path u)) ++
    delim 63 (eopt URI_QUERY (query u))) ++ delim 35 (eopt URI_FRAGMENT (fragment u)).
Proof.
  intros E1 E2 E3 Hp. unfold uri_string, all_fields. cbn [map concat].
  rewrite field_string_frag, field_string_query, field_string_path. unfold field_string, authority, userinfo. cbn [uri_field prefix].
  rewrite E1, E2, E3. cbn [app]. decided. rewrite app_nil_r.
  change (lit "//") with [47; 47]. destruct (user u) as [us|].
  - destruct (password u) as [pw|], (port u) as [pt|]; flatten_app.
  - rewrite Hp by done. destruct (port u) as [pt|]; flatten_app.
Qed.

Lemma scheme_colon s rest : ascii s -> chop 58 (enc URI_SCHEME s ++ 58 :: rest) = Some (enc URI_SCHEME s, rest).
Proof. intros Hs. apply chop_app. avoids. Qed.

Lemma enc_slash p : ascii (47 :: p) -> enc URI_PATH (47 :: p) = 47 :: enc URI_PATH p.
Proof. reflexivity. Qed.

(** A field whose first character is not a slash is not encoded to one that
    starts with a slash. *)
Lemma enc_head field s : ascii s -> head s <> Some 47 -> head (enc field s) <> Some 47.
Proof.
  destruct s as [|c s]; [done|]. intros [Hc _]%Forall_cons Hh. unfold enc. cbn [map concat].
  destruct (enc_char_ascii field c Hc) as [(_ & -> & _)|[_ ->]]; [exact Hh|].
  by destruct (escape_ascii c ltac:(lia)) as (h1 & h2 & -> & _).
Qed.

Lemma parse_main_relative u :
  uri_ascii u -> params u = None -> scheme u = None -> uri_shape u ->
  parse_main (default [] (eopt URI_PATH (path u)) ++ delim 63 (eopt URI_QUERY (query u))) (eopt URI_FRAGMENT (fragment u)) None
  = encode_fields u.
Proof.
  intros Hu Hp Es Hs. unfold uri_shape in Hs. rewrite Es in Hs. destruct Hs as (E1 & E2 & E3 & E4 & E5 & E6).
  pose proof (Hu URI_PATH) as U1. pose proof (Hu URI_QUERY) as U2. cbn [uri_field] in U1, U2.
  unfold parse_main. rewrite chop_none by (rewrite not_elem_of_app; split; avoids).
  unfold parse_hier. rewrite chop_optional_delim by avoids. unfold encode_fields. rewrite Es, E1, E2, E3, E4, E5, Hp.
  destruct (path u) as [p|]; cbn [eopt fmap option_fmap option_map default]; [|done].
  destruct (enc URI_PATH p) as [|c l] eqn:Ep; [|done]. exfalso. destruct p as [|c p]; [done|].
  pose proof (length_enc URI_PATH (c :: p) U1) as Hl. rewrite Ep in Hl. simpl in Hl. lia.
Qed.

Lemma parse_main_opaque u s o :
  uri_ascii u -> params u = None -> scheme u = Some s -> opaque u = Some o -> uri_shape u ->
  parse_main (enc URI_SCHEME s ++ 58 :: enc URI_OPAQUE o) (eopt URI_FRAGMENT (fragment u)) None = encode_fields u.
Proof.
  intros Hu Hp Es Eo Hs. unfold uri_shape in Hs. rewrite Es, Eo in Hs. destruct Hs as (E1 & E2 & E3 & E4 & E5 & E6 & Ho).
  pose proof (Hu URI_SCHEME) as U1. pose proof (Hu URI_OPAQUE) as U2. cbn [uri_field] in U1, U2. rewrite Es in U1. rewrite Eo in U2.
  unfold parse_main. rewrite scheme_colon by done. unfold encode_fields. rewrite Es, Eo, E1, E2, E3, E4, E5, E6, Hp.
  by rewrite decide_False by (by apply enc_head).
Qed.

Lemma parse_main_hier u s :
  uri_ascii u -> params u = None -> scheme u = Some s -> opaque u = None -> host u = None -> uri_shape u ->
  parse_main (enc URI_SCHEME s ++ 58 :: default [] (eopt URI_PATH (path u)) ++ delim 63 (eopt URI_QUERY (query u)))
    (eopt URI_FRAGMENT (fragment u)) None = encode_fields u.
Proof.
  intros Hu Hp Es Eo Eh Hs. unfold uri_shape in Hs. rewrite Es, Eo, Eh in Hs. destruct Hs as (E1 & E2 & E3 & p & E4 & Hhd).
  pose proof (Hu URI_SCHEME) as U1. pose proof (Hu URI_PATH) as U2. cbn [uri_field] in U1, U2. rewrite Es in U1. rewrite E4 in U2.
  unfold parse_main. rewrite scheme_colon by done. rewrite E4.
  change (default [] (eopt URI_PATH (Some (47 :: p)))) with (enc URI_PATH (47 :: p)). rewrite enc_slash by done.
  cbn [app head]. rewrite decide_True by done. unfold parse_hier. pose proof (chop_optional_delim 63 (47 :: enc URI_PATH p) (eopt URI_QUERY (query u))) as Hq. cbn [app] in Hq.
  rewrite Hq by (rewrite <- enc_slash by done; avoids).
  rewrite (bool_decide_false (take 2 _ = _)).
  - rewrite andb_false_r. unfold encode_fields. by rewrite Es, Eo, Eh, E1, E2, E3, E4, Hp.
  - apply Forall_cons in U2 as [_ U2]. pose proof (enc_head URI_PATH p U2 Hhd) as Hh.
    destruct (enc URI_PATH p) as [|c l]; [done|]. cbn. intros [= ->]. done.
Qed.

Lemma parse_main_net u s h :
  uri_ascii u -> params u = None -> scheme u = Some s -> opaque u = None -> host u = Some h -> uri_shape u ->
  parse_main (enc URI_SCHEME s ++ 58 :: 47 :: 47 :: authority u h ++ default [] (eopt URI_PATH (path u)) ++
    delim 63 (eopt URI_QUERY (query u))) (eopt URI_FRAGMENT (fragment u)) None = encode_fields u.
Proof.
  intros Hu Hp Es Eo Eh Hs. unfold uri_shape in Hs. rewrite Es, Eo, Eh in Hs. destruct Hs as (E1 & E2 & E3).
  pose proof (Hu URI_SCHEME) as U1. pose proof (Hu URI_PATH) as U2. pose proof (Hu URI_HOST) as U3. cbn [uri_field] in U1, U2, U3.
  rewrite Es in U1. rewrite Eh in U3. unfold parse_main. rewrite scheme_colon by done. cbv beta iota.
  rewrite decide_True by done. unfold parse_hier. rewrite app_assoc.
  set (hier := authority u h ++ default [] (eopt URI_PATH (path u))).
  pose proof (chop_optional_delim 63 (47 :: 47 :: hier) (eopt URI_QUERY (query u))) as Hq. cbn [app] in Hq. rewrite Hq.
  2:{ rewrite !not_elem_of_cons. split_and!; [done|done|]. unfold hier. rewrite not_elem_of_app. split; [|avoids].
      apply authority_avoids; auto. }
  rewrite (bool_decide_true (take 2 _ = _)) by done. rewrite bool_decide_true by done. cbn [andb].
  change (drop 2 (47 :: 47 :: hier)) with hier.
  assert ((match chop 47 hier with Some (a, rest) => (a, Some (47 :: rest)) | None => (hier, None) end)
          = (authority u h, eopt URI_PATH (path u))) as Ea.
  { assert (47 ∉ authority u h) as Hav by (apply authority_avoids; auto). unfold hier. destruct E3 as [E3|[p E3]]; rewrite E3 in *.
    - change (default [] (eopt URI_PATH None)) with (@nil Z). by rewrite app_nil_r, chop_none.
    - change (default [] (eopt URI_PATH (Some (47 :: p)))) with (enc URI_PATH (47 :: p)). by rewrite enc_slash, chop_app. }
  rewrite Ea. rewrite split_authority_ok by done. unfold encode_fields. by rewrite Es, Eo, Eh, Hp.
Qed.

Lemma uri_ascii_bytes u : uri_ascii u -> uri_bytes u.
Proof. intros Hu field s E. pose proof (Hu field) as Hf. rewrite E in Hf. by apply ascii_bytes. Qed.

(** C18: formatting a URI and parsing the string gives the URI back, for every
    well-formed URI: its fields are of seven-bit characters, it refers to no
    parameter list, and it is a relative reference (without a scheme and an
    authority, the path not empty), an opaque URI (a scheme, an opaque part that
    does not start with a slash, and perhaps a fragment), a URI with a scheme
    and a host (a password only with a user, no path or an absolute one, the
    host without a colon unless it is in brackets or a port follows, the port
    not ending in a bracket), or a URI with a scheme and a path that starts with
    one slash; each but the opaque one with or without a query, and all with or
    without a fragment.  Characters of eight bits do not survive
    ([uri_encode_high_byte]), and a host with a colon and no port is cut at the
    colon, as the source says. *)
Theorem uri_format_parse ff u : uri_wf u -> parse_uri ff (format_uri_alloc (Some u)) = u.
Proof.
  intros (Hu & Hs & Hp). rewrite format_uri_alloc_string by (by apply uri_ascii_bytes). rewrite <- (decode_encode_fields u Hu) at 2.
  pose proof (Hu URI_FRAGMENT) as U0. pose proof (Hu URI_PATH) as U1. pose proof (Hu URI_QUERY) as U2.
  pose proof (Hu URI_SCHEME) as U3. pose proof (Hu URI_OPAQUE) as U4. pose proof (Hu URI_HOST) as U5. cbn [uri_field] in *.
  destruct (scheme u) as [s|] eqn:Es; [destruct (opaque u) as [o|] eqn:Eo; [|destruct (host u) as [h|] eqn:Eh]|].
  - pose proof Hs as Hs'. unfold uri_shape in Hs'. rewrite Es, Eo in Hs'. destruct Hs' as (E1 & E2 & E3 & E4 & E5 & E6 & Ho).
    rewrite (uri_string_opaque u s o) by done. rewrite parse_uri_split; [by rewrite parse_main_opaque| |done].
    rewrite not_elem_of_app, not_elem_of_cons. split_and!; [avoids|done|avoids].
  - pose proof Hs as Hs'. unfold uri_shape in Hs'. rewrite Es, Eo, Eh in Hs'. destruct Hs' as (E1 & E2 & E3).
    rewrite (uri_string_net u s h) by done. rewrite parse_uri_split; [by rewrite parse_main_net| |done].
    rewrite not_elem_of_app, !not_elem_of_cons, !not_elem_of_app. split_and!; [avoids|done|done|done|apply authority_avoids; auto|avoids|avoids].
  - pose proof Hs as Hs'. unfold uri_shape in Hs'. rewrite Es, Eo, Eh in Hs'. destruct Hs' as (E1 & E2 & E3 & _).
    rewrite (uri_string_hier u s) by done. rewrite parse_uri_split; [by rewrite parse_main_hier| |done].
    rewrite not_elem_of_app, !not_elem_of_cons, !not_elem_of_app. split_and!; [avoids|done|avoids|avoids].
  - pose proof Hs as Hs'. unfold uri_shape in Hs'. rewrite Es in Hs'. destruct Hs' as (E1 & E2 & E3 & E4 & E5 & E6).
    rewrite (uri_string_relative u) by done. rewrite parse_uri_split; [by rewrite parse_main_relative| |done].
    rewrite not_elem_of_app. split; avoids.
Qed.

Definition example_uri : uri :=
  Uri (Some (lit "http")) None (Some (lit "a:b")) (Some (lit "p@ss")) (Some (lit "[fe80::1]")) (Some (lit "8080"))
      (Some (lit "/dir/a file")) (Some (lit "x=1&y=#2")) (Some (lit "top")) None.

Lemma uri_format_parse_witness :
  format_uri_alloc (Some example_uri) = lit "http://a%3Ab:p%40ss@[fe80::1]:8080/dir/a%20file?x=1&y=%232#top" /\
  parse_uri (fun _ => None) (format_uri_alloc (Some example_uri)) = example_uri.
Proof.
  split; [vm_compute; reflexivity|]. apply uri_format_parse. split_and!; [|split_and!|reflexivity].
  - intros field. destruct field; simpl; repeat constructor; done.
  - discriminate.
  - vm_compute. discriminate.
  - right. eexists. reflexivity.
Defined.

(** A byte above 127 is printed as a sign-extended integer, so that the
    path of a URI is not read back: of "%FFFFFFE9" only the first two digits
    are taken for the escape. *)
Example uri_encode_high_byte :
  let u := Uri None None None None None None (Some [233]) None None None in
  format_uri_alloc (Some u) = lit "%FFFFFFE9" /\
  path (parse_uri (fun _ => None) (format_uri_alloc (Some u))) = Some (255 :: lit "FFFFE9").
Proof. vm_compute. done. Qed.

(** ** Resolution of relative paths *)

(** The directory named by a list of components. *)
Definition dirpath (ds : list (list Z)) : list Z := concat (map (cons 47) ds).
Definition dir (ds : list (list Z)) : list Z := match ds with [] => [47] | _ => dirpath ds end.

Lemma dirname_component ds d : 47 ∉ d -> dirname (dirpath ds ++ 47 :: d) = dir ds.
Proof. intros Hd. unfold dirname. rewrite rchop_app by done. by destruct ds as [|[|c e] ds]. Qed.

Lemma dirname_dir ds : Forall (fun d => 47 ∉ d) ds -> dirname (dir ds) = dir (take (length ds - 1) ds).
Proof.
  intros Hds. destruct ds as [|d ds _] using rev_ind; [done|]. apply Forall_app in Hds as [_ Hd]. apply Forall_cons in Hd as [Hd _].
  rewrite length_app. cbn [length]. rewrite Nat.add_sub, take_app_length.
  replace (dir (ds ++ [d])) with (dirpath ds ++ 47 :: d); [by apply dirname_component|].
  unfold dir. destruct (ds ++ [d]) eqn:E; [by destruct ds|]. rewrite <- E. unfold dirpath. rewrite map_app, concat_app. cbn. by rewrite app_nil_r.
Qed.

Definition dotdot (k : nat) : list Z := concat (replicate k [46; 46; 47]).

Lemma resolve_loop_stop fuel base rest : head rest <> Some 46 -> resolve_loop fuel base rest = (base, rest).
Proof.
  intros Hr. destruct fuel, rest as [|c rest]; try done. cbn [resolve_loop].
  repeat match goal with |- context [match ?x with _ => _ end] => destruct x; try done end.
Qed.

Lemma resolve_loop_dotdot k fuel ds rest :
  Forall (fun d => 47 ∉ d) ds -> head rest <> Some 46 -> (k <= fuel)%nat ->
  resolve_loop fuel (dir ds) (dotdot k ++ rest) = (dir (take (length ds - k) ds), rest).
Proof.
  revert fuel ds. induction k as [|k IH]; intros fuel ds Hds Hr Hf.
  { cbn [dotdot replicate concat app]. by rewrite resolve_loop_stop, Nat.sub_0_r, firstn_all. }
  destruct fuel as [|fuel]; [lia|]. cbn [dotdot replicate concat app resolve_loop].
  change (concat (replicate k [46; 46; 47])) with (dotdot k). rewrite dirname_dir, IH by (done || lia || by apply Forall_take).
  rewrite length_take, take_take. do 3 f_equal. lia.
Qed.

Lemma dirpath_last ds : Forall (fun d => d <> [] /\ 47 ∉ d) ds -> last (dirpath ds) <> Some 47.
Proof.
  intros Hds. destruct ds as [|d ds _] using rev_ind; [done|]. apply Forall_app in Hds as [_ Hd]. apply Forall_cons in Hd as [[Hn Hd] _].
  unfold dirpath. rewrite map_app, concat_app. cbn [map concat]. rewrite app_nil_r.
  destruct d as [|c d _] using rev_ind; [done|]. rewrite app_comm_cons, app_assoc, last_snoc. intros [= ->].
  apply Hd. apply elem_of_app. right. by left.
Qed.

(** A relative path is resolved against the directory of the base path:
    every leading "../" removes one component, and the root is never left. *)
Theorem resolve_path_correct ds file k rest :
  Forall (fun d => d <> [] /\ 47 ∉ d) ds -> 47 ∉ file -> head rest <> Some 46 -> (k = 0%nat -> head rest <> Some 47) ->
  resolve_path (dirpath ds ++ 47 :: file) (dotdot k ++ rest) = dirpath (take (length ds - k) ds) ++ 47 :: rest.
Proof.
  intros Hds Hfile Hr Hk.
  assert (Forall (fun d => 47 ∉ d) ds) as Hds' by (eapply Forall_impl; [exact Hds|]; by intros ? [? ?]).
  transitivity (let '(base_tmp, rest) := resolve_loop (length (dotdot k ++ rest)) (dirname (dirpath ds ++ 47 :: file)) (dotdot k ++ rest) in
    base_tmp ++ (if decide (last base_tmp = Some 47) then [] else [47]) ++ rest).
  { unfold resolve_path. destruct k as [|k]; [|done]. cbn [dotdot replicate concat app]. destruct rest as [|c rest]; [done|].
    specialize (Hk eq_refl). repeat match goal with |- context [match ?x with _ => _ end] => destruct x; try done end. }
  assert (forall j, j <= length (dotdot j ++ rest))%nat as Hl.
  { induction j as [|j IH]; [lia|]. cbn [dotdot replicate concat app length]. unfold dotdot in IH. lia. }
  rewrite dirname_component, resolve_loop_dotdot by auto.
  set (ds' := take _ ds). assert (Forall (fun d => d <> [] /\ 47 ∉ d) ds') as Hds2 by (by apply Forall_take). clearbody ds'.
  destruct ds' as [|d ds']; [done|]. unfold dir. rewrite decide_False by (by apply dirpath_last). done.
Qed.

Lemma resolve_path_correct_witness : resolve_path (lit "/var/lib/vmlinuz") (lit "../../../initrd") = lit "/initrd".
Proof.
  apply (resolve_path_correct [lit "var"; lit "lib"] (lit "vmlinuz") 3 (lit "initrd")).
  - repeat constructor; try discriminate; apply (bool_decide_unpack _); vm_compute; exact I.
  - apply (bool_decide_unpack _). vm_compute. exact I.
  - discriminate.
  - discriminate.
Defined.
