(* ===== verification/XferBuf.v ===== *)
(** * Data transfer buffers (core/xferbuf.c, core/xfer.c)

    A buffer owns the byte array [xb_data]; [xb_len] and [xb_pos] are the
    fields len and pos.  The two sets of buffer operations of the source,
    on top of realloc() and of urealloc(), differ in how memory is addressed
    and not in what happens to the bytes: [realloc] is a parameter, and
    [buffer_write] and [buffer_read] are memcpy() and copy_to_user().  A byte
    that memcpy() would put outside the array is dropped by [buffer_write]:
    [xferbuf_write_spec] shows that there is none. *)

From S2P Require Import Prelude CMem.

Definition XFER_FL_ABS_OFFSET : Z := 1.

Record xfer_metadata := Meta {
  xm_flags : Z;
  xm_offset : Z;
}.

Definition dummy_metadata : xfer_metadata := Meta 0 0.

Record xfer_buffer := XferBuf {
  xb_data : list Z;
  xb_len : Z;
  xb_pos : Z;
}.

Definition xferbuf_init : xfer_buffer := XferBuf [] 0 0.

(** ** Operations *)

Section xferbuf.
Context (realloc : list Z -> Z -> option (list Z)).

Definition buffer_realloc (xferbuf : xfer_buffer) (len : Z) : result unit * xfer_buffer :=
  match realloc (xb_data xferbuf) len with
  | None => (Err ENOSPC, xferbuf)
  | Some new_data => (Ok tt, XferBuf new_data (xb_len xferbuf) (xb_pos xferbuf))
  end.

Definition buffer_write (xferbuf : xfer_buffer) (offset : Z) (data : list Z) : xfer_buffer :=
  XferBuf (list_inserts (Z.to_nat offset) data (xb_data xferbuf)) (xb_len xferbuf) (xb_pos xferbuf).

Definition buffer_read (xferbuf : xfer_buffer) (offset len : Z) : list Z :=
  take (Z.to_nat len) (drop (Z.to_nat offset) (xb_data xferbuf)).

Definition xferbuf_free (xferbuf : xfer_buffer) : xfer_buffer :=
  XferBuf (xb_data (snd (buffer_realloc xferbuf 0))) 0 0.

Definition xferbuf_ensure_size (xferbuf : xfer_buffer) (len : Z) : result unit * xfer_buffer :=
  if decide (len <= xb_len xferbuf) then (Ok tt, xferbuf) else
  match buffer_realloc xferbuf len with
  | (Err rc, xferbuf) => (Err rc, xferbuf)
  | (Ok _, xferbuf) => (Ok tt, XferBuf (xb_data xferbuf) len (xb_pos xferbuf))
  end.

Definition xferbuf_write (xferbuf : xfer_buffer) (offset : Z) (data : list Z) : result unit * xfer_buffer :=
  let max_len := u64 (offset + Z.of_nat (length data)) in
  if decide (max_len < offset) then (Err EOVERFLOW, xferbuf) else
  match xferbuf_ensure_size xferbuf max_len with
  | (Err rc, xferbuf) => (Err rc, xferbuf)
  | (Ok _, xferbuf) => (Ok tt, buffer_write xferbuf offset data)
  end.

Definition xferbuf_read (xferbuf : xfer_buffer) (offset len : Z) : result (list Z) :=
  if decide (offset > xb_len xferbuf \/ len > xb_len xferbuf - offset) then Err ENOENT
  else Ok (buffer_read xferbuf offset len).

(** The position at which a delivery is made; [off_t] is signed. *)
Definition delivery_pos (pos : Z) (meta : xfer_metadata) : Z :=
  u64 ((if decide (Z.land (xm_flags meta) XFER_FL_ABS_OFFSET <> 0) then 0 else pos) + xm_offset meta).

Definition xferbuf_deliver (xferbuf : xfer_buffer) (iobuf : list Z) (meta : xfer_metadata) : result unit * xfer_buffer :=
  let pos := delivery_pos (xb_pos xferbuf) meta in
  match xferbuf_write xferbuf pos iobuf with
  | (Err rc, xferbuf) => (Err rc, xferbuf)
  | (Ok _, xferbuf) => (Ok tt, XferBuf (xb_data xferbuf) (xb_len xferbuf) (u64 (pos + Z.of_nat (length iobuf))))
  end.
End xferbuf.

(** ** Helpers of the data transfer interface

    [alloc_iob] and [deliver] are what the destination of the interface does. *)

Section xfer.
Context {W : Type} (alloc_iob : Z -> W -> bool * W) (deliver : list Z -> xfer_metadata -> W -> result unit * W).

Definition xfer_deliver_iob (iobuf : list Z) (w : W) : result unit * W := deliver iobuf dummy_metadata w.

Definition xfer_deliver_raw_meta (data : list Z) (meta : xfer_metadata) (w : W) : result unit * W :=
  let '(allocated, w) := alloc_iob (Z.of_nat (length data)) w in
  if negb allocated then (Err ENOMEM, w) else deliver data meta w.

Definition xfer_deliver_raw (data : list Z) (w : W) : result unit * W := xfer_deliver_raw_meta data dummy_metadata w.

Definition xfer_seek (offset : Z) (w : W) : result unit * W :=
  let '(allocated, w) := alloc_iob 0 w in
  if negb allocated then (Err ENOMEM, w) else deliver [] (Meta XFER_FL_ABS_OFFSET offset) w.
End xfer.

Definition xfer_check_order (meta : xfer_metadata) (pos len : Z) : result unit * Z :=
  if decide (len = 0) then (Ok tt, pos) else
  if decide (delivery_pos pos meta <> pos) then (Err EPROTO, pos)
  else (Ok tt, u64 (pos + len)).

(** ** What a write does to the contents *)

(** [b'] is [b] after [data] was put at [off]; whatever lies between the old
    end and [off] is arbitrary. *)
Definition written (off : Z) (data b b' : list Z) : Prop :=
  Z.of_nat (length b') = Z.max (Z.of_nat (length b)) (off + Z.of_nat (length data)) /\
  (forall i, off <= i < off + Z.of_nat (length data) -> b' !! Z.to_nat i = data !! Z.to_nat (i - off)) /\
  forall i, 0 <= i < Z.of_nat (length b) -> ~ off <= i < off + Z.of_nat (length data) -> b' !! Z.to_nat i = b !! Z.to_nat i.

(** An array of bytes with its size, as long as an object can be. *)
Definition xferbuf_ok (xferbuf : xfer_buffer) : Prop :=
  bytes (xb_data xferbuf) /\ xb_len xferbuf = Z.of_nat (length (xb_data xferbuf)) /\ xb_len xferbuf < 2 ^ 64 /\
  in_width 64 (xb_pos xferbuf).

Lemma inserts_written off data b :
  0 <= off -> off + Z.of_nat (length data) <= Z.of_nat (length b) -> written off data b (list_inserts (Z.to_nat off) data b).
Proof.
  intros Hoff Hlen. split_and!; [rewrite length_inserts; lia|..].
  - intros i Hi. rewrite list_lookup_inserts by lia. f_equal. lia.
  - intros i Hi Hni. destruct (decide (i < off)); [apply list_lookup_inserts_lt|apply list_lookup_inserts_ge]; lia.
Qed.

Section facts.
Context (realloc : list Z -> Z -> option (list Z)) (realloc_ok : realloc_contract 8 realloc).

Lemma ensure_size_spec xferbuf len :
  xferbuf_ok xferbuf -> in_width 64 len ->
  match xferbuf_ensure_size realloc xferbuf len with
  | (Ok _, b') => xferbuf_ok b' /\ xb_len b' = Z.max (xb_len xferbuf) len /\ xb_pos b' = xb_pos xferbuf /\
      forall i, (i < length (xb_data xferbuf))%nat -> xb_data b' !! i = xb_data xferbuf !! i
  | (Err e, b') => e = ENOSPC /\ b' = xferbuf /\ xb_len xferbuf < len /\ realloc (xb_data xferbuf) len = None
  end.
Proof.
  intros (Hb & Hl & Hw & Hp) Hlen. unfold xferbuf_ensure_size, buffer_realloc. destruct (decide _) as [Hle|Hgt].
  - refine (conj _ (conj _ (conj eq_refl _))); [by split_and!|lia|done].
  - destruct (realloc _ len) as [l|] eqn:E; [|split_and!; auto; lia].
    destruct (realloc_ok _ len l ltac:(zlia) Hb E) as (E1 & E2 & E3). cbn [xb_len xb_data xb_pos].
    refine (conj _ (conj _ (conj eq_refl _))); [|lia|intros i Hi; apply E3; lia].
    split_and!; cbn [xb_len xb_data xb_pos]; [done|zlia|zlia|done].
Qed.

(** [xferbuf_write] either writes, or changes nothing. *)
Lemma xferbuf_write_spec xferbuf offset data :
  xferbuf_ok xferbuf -> in_width 64 offset -> bytes data -> Z.of_nat (length data) < 2 ^ 64 ->
  match xferbuf_write realloc xferbuf offset data with
  | (Ok _, b') => xferbuf_ok b' /\ written offset data (xb_data xferbuf) (xb_data b') /\ xb_pos b' = xb_pos xferbuf
  | (Err e, b') => b' = xferbuf /\
      (e = EOVERFLOW /\ 2 ^ 64 <= offset + Z.of_nat (length data) \/
       e = ENOSPC /\ xb_len xferbuf < offset + Z.of_nat (length data) /\
       realloc (xb_data xferbuf) (offset + Z.of_nat (length data)) = None)
  end.
Proof.
  intros Hb Ho Hd Hlen. unfold xferbuf_write. cbv zeta.
  destruct (decide (offset + Z.of_nat (length data) < 2 ^ 64)) as [Hsm|Hbig].
  2:{ rewrite decide_True; [split; [done|left; split; [done|lia]]|].
      unfold wrap, in_width in *. rewrite <- (Z.mod_add _ (-1)) by lia. rewrite Z.mod_small; lia. }
  rewrite wrap_small, decide_False by zlia.
  pose proof (ensure_size_spec xferbuf (offset + Z.of_nat (length data)) Hb ltac:(zlia)) as He.
  destruct (xferbuf_ensure_size _ _ _) as [[[]|e] b1].
  - destruct He as ((E1 & E2 & E3 & E4) & E5 & E6 & E7). destruct Hb as (_ & Hl & _).
    destruct (inserts_written offset data (xb_data b1)) as (W1 & W2 & W3); [zlia..|].
    unfold buffer_write. cbn [xb_data xb_len xb_pos]. refine (conj _ (conj (conj _ (conj _ _)) E6)).
    + split_and!; cbn [xb_data xb_len xb_pos]; [by apply Forall_inserts|by rewrite length_inserts|done|done].
    + rewrite length_inserts. lia.
    + done.
    + intros i Hi Hni. rewrite W3 by lia. apply E7. lia.
  - destruct He as (-> & -> & ? & ?). split; [done|]. right. done.
Qed.

Lemma written_read off data b b' :
  0 <= off -> written off data b b' -> take (length data) (drop (Z.to_nat off) b') = data.
Proof.
  intros Hoff (H1 & H2 & _). apply list_eq. intros i. destruct (decide (i < length data)%nat) as [Hi|Hi].
  - rewrite lookup_take_lt, lookup_drop by done. specialize (H2 (off + Z.of_nat i) ltac:(lia)).
    replace (Z.to_nat (off + Z.of_nat i)) with (Z.to_nat off + i)%nat in H2 by lia. rewrite H2. f_equal. lia.
  - rewrite lookup_take_ge, (lookup_ge_None_2 data) by lia. done.
Qed.

Lemma delivery_pos_width pos meta : in_width 64 (delivery_pos pos meta).
Proof. by apply wrap_bound. Qed.

Lemma xferbuf_deliver_spec xferbuf iobuf meta :
  xferbuf_ok xferbuf -> bytes iobuf -> Z.of_nat (length iobuf) < 2 ^ 64 ->
  let pos := delivery_pos (xb_pos xferbuf) meta in
  match xferbuf_deliver realloc xferbuf iobuf meta with
  | (Ok _, b') => xferbuf_ok b' /\ written pos iobuf (xb_data xferbuf) (xb_data b') /\
      xb_pos b' = u64 (pos + Z.of_nat (length iobuf))
  | (Err e, b') => b' = xferbuf /\
      (e = EOVERFLOW /\ 2 ^ 64 <= pos + Z.of_nat (length iobuf) \/
       e = ENOSPC /\ xb_len xferbuf < pos + Z.of_nat (length iobuf) /\
       realloc (xb_data xferbuf) (pos + Z.of_nat (length iobuf)) = None)
  end.
Proof.
  intros Hb Hd Hlen pos. unfold xferbuf_deliver. cbv zeta. fold pos.
  pose proof (xferbuf_write_spec xferbuf pos iobuf Hb (delivery_pos_width _ _) Hd Hlen) as Hw.
  destruct (xferbuf_write _ _ _ _) as [[[]|e] b1]; [|done]. destruct Hw as ((W1 & W2 & W3 & W4) & W5 & W6).
  refine (conj _ (conj W5 eq_refl)). split_and!; cbn [xb_data xb_len xb_pos]; [done..|]. by apply wrap_bound.
Qed.
End facts.

(** C23: a delivery to a data transfer buffer either succeeds, and then the
    data can be read back where it was delivered, everything else in the
    buffer is unchanged and the position is behind the data; or it fails with
    the buffer unchanged, because the end of the data would not be an address
    or because the buffer could not be extended. *)
Theorem xferbuf_deliver_correct realloc xferbuf iobuf meta :
  realloc_contract 8 realloc -> xferbuf_ok xferbuf -> bytes iobuf -> Z.of_nat (length iobuf) < 2 ^ 64 ->
  let pos := delivery_pos (xb_pos xferbuf) meta in
  let end_ := pos + Z.of_nat (length iobuf) in
  match xferbuf_deliver realloc xferbuf iobuf meta with
  | (Ok _, b') => xferbuf_ok b' /\ xferbuf_read b' pos (Z.of_nat (length iobuf)) = Ok iobuf /\
      xb_len b' = Z.max (xb_len xferbuf) end_ /\ xb_pos b' = u64 end_ /\
      (forall off len, 0 <= off -> 0 <= len -> off + len <= xb_len xferbuf -> off + len <= pos \/ end_ <= off ->
         xferbuf_read b' off len = xferbuf_read xferbuf off len)
  | (Err e, b') => b' = xferbuf /\
      (e = EOVERFLOW /\ 2 ^ 64 <= end_ \/ e = ENOSPC /\ xb_len xferbuf < end_ /\ realloc (xb_data xferbuf) end_ = None)
  end.
Proof.
  intros Hr Hb Hd Hlen pos end_. pose proof (xferbuf_deliver_spec realloc Hr xferbuf iobuf meta Hb Hd Hlen) as Hs.
  cbv zeta in Hs. fold pos end_ in Hs. destruct (xferbuf_deliver _ _ _ _) as [[[]|e] b']; [|done].
  destruct Hs as (S1 & S2 & S3). pose proof S1 as (B1 & B2 & B3 & B4). pose proof S2 as (W1 & W2 & W3).
  destruct Hb as (A1 & A2 & A3 & A4). pose proof (delivery_pos_width (xb_pos xferbuf) meta) as Hpos. fold pos in Hpos.
  assert (xb_len b' = Z.max (xb_len xferbuf) end_) as El by (subst end_; lia). refine (conj S1 (conj _ (conj El (conj S3 _)))).
  - unfold xferbuf_read, buffer_read. rewrite decide_False by (subst end_; zlia). rewrite Nat2Z.id. f_equal.
    apply (written_read pos iobuf (xb_data xferbuf)); [zlia|done].
  - intros off len Ho Hl Hol Hdis. unfold xferbuf_read, buffer_read. rewrite !decide_False by lia. f_equal.
    apply list_eq. intros i. destruct (decide (i < Z.to_nat len)%nat) as [Hi|Hi]; [|by rewrite !lookup_take_ge by lia].
    rewrite !lookup_take_lt, !lookup_drop by done. specialize (W3 (off + Z.of_nat i)).
    replace (Z.to_nat (off + Z.of_nat i)) with (Z.to_nat off + i)%nat in W3 by lia. apply W3; subst end_; lia.
Qed.

Definition example_buffer : xfer_buffer := XferBuf [1; 2; 3; 4] 4 2.

Lemma xferbuf_deliver_correct_witness :
  let b' := snd (xferbuf_deliver zero_realloc example_buffer [7; 8; 9] dummy_metadata) in
  xferbuf_read b' 2 3 = Ok [7; 8; 9] /\ xferbuf_read b' 0 2 = Ok [1; 2] /\ xb_len b' = 5.
Proof.
  destruct (xferbuf_deliver_correct zero_realloc example_buffer [7; 8; 9] dummy_metadata) as (_ & H1 & H2 & _ & H3).
  - apply zero_realloc_ok. lia.
  - unfold xferbuf_ok. apply (bool_decide_unpack _). vm_compute. exact I.
  - apply (bool_decide_unpack _). vm_compute. exact I.
  - done.
  - split_and!; [exact H1| |exact H2]. etransitivity; [apply (H3 0 2)|reflexivity]; [lia|lia|vm_compute; done|left; vm_compute; done].
Defined.

(** A receiver that checks the order of deliveries sees each byte of the
    stream once, and is told of every gap. *)
Lemma xfer_check_order_spec meta pos len :
  in_width 64 pos -> 0 < len -> pos + len < 2 ^ 64 ->
  xfer_check_order meta pos len =
    if decide (delivery_pos pos meta = pos) then (Ok tt, pos + len) else (Err EPROTO, pos).
Proof.
  intros Hp Hl Hs. unfold xfer_check_order. rewrite (decide_False (P := len = 0)) by lia.
  rewrite wrap_small by zlia. by do 2 case_decide.
Qed.
