(* ===== verification/Tftp.v ===== *)
(** * TFTP client (net/udp/tftp.c, include/ipxe/tftp.h)

    A request is the record [tftp_request]; handlers pass a state made of the
    request and of the rest of the firmware, of type [W].  What TFTP calls
    outside net/udp/tftp.c is the class [TftpEnv]: sockets, the recipient of
    the data, the clock and the allocator.  The block bitmap is the one of
    Bitmap, the timer the record of Retry.

    An I/O buffer is the list of its bytes.  A socket address is its family and
    the other bytes of the structure.  [outcome] is the state of the data
    transfer interface: [None] while it is plugged in, and the status it was
    shut down with after [tftp_done]; shutting down an interface twice has no
    further effect.  A handler that writes outside the block array of the
    bitmap returns [None].  The variants of EINVAL that only select an error
    message are one error.  Reference counting is left out. *)

From S2P Require Import Prelude CMem Strings Vsprintf Inet Bitmap Retry.

Definition TFTP_PORT : Z := 69.
Definition TFTP_DEFAULT_BLKSIZE : Z := 512.
Definition TFTP_MAX_BLKSIZE : Z := 1432.
Definition TFTP_RRQ : Z := 1.
Definition TFTP_DATA : Z := 3.
Definition TFTP_ACK : Z := 4.
Definition TFTP_ERROR : Z := 5.
Definition TFTP_OACK : Z := 6.
Definition TFTP_ERR_FILE_NOT_FOUND : Z := 1.
Definition TFTP_ERR_ACCESS_DENIED : Z := 2.
Definition TFTP_ERR_ILLEGAL_OP : Z := 4.
Definition MTFTP_PORT : Z := 1759.
Definition TFTP_FL_SEND_ACK : Z := 1.
Definition TFTP_FL_RRQ_SIZES : Z := 2.
Definition TFTP_FL_RRQ_MULTICAST : Z := 4.
Definition TFTP_FL_MTFTP_RECOVERY : Z := 8.
Definition MTFTP_MAX_TIMEOUTS : Z := 3.
Definition AF_INET : Z := 1.

Record sockaddr := Sockaddr {
  sa_family : Z;
  sa_data : list Z;
}.

#[export] Instance sockaddr_eq_dec : EqDecision sockaddr.
Proof. solve_decision. Defined.

Definition sockaddr_zero : sockaddr := Sockaddr 0 [].

Record tftp_request := Tftp {
  path : list Z;
  blksize : Z;
  tsize : Z;
  port : Z;
  peer : sockaddr;
  flags : Z;
  mtftp_timeouts : Z;
  tbitmap : bitmap;
  filesize : Z;
  timer : retry_timer;
  outcome : option (result unit);
}.

Definition set_blksize (v : Z) (r : tftp_request) : tftp_request :=
  Tftp (path r) v (tsize r) (port r) (peer r) (flags r) (mtftp_timeouts r) (tbitmap r) (filesize r) (timer r) (outcome r).
Definition set_tsize (v : Z) (r : tftp_request) : tftp_request :=
  Tftp (path r) (blksize r) v (port r) (peer r) (flags r) (mtftp_timeouts r) (tbitmap r) (filesize r) (timer r) (outcome r).
Definition set_port (v : Z) (r : tftp_request) : tftp_request :=
  Tftp (path r) (blksize r) (tsize r) v (peer r) (flags r) (mtftp_timeouts r) (tbitmap r) (filesize r) (timer r) (outcome r).
Definition set_peer (v : sockaddr) (r : tftp_request) : tftp_request :=
  Tftp (path r) (blksize r) (tsize r) (port r) v (flags r) (mtftp_timeouts r) (tbitmap r) (filesize r) (timer r) (outcome r).
Definition set_flags (v : Z) (r : tftp_request) : tftp_request :=
  Tftp (path r) (blksize r) (tsize r) (port r) (peer r) v (mtftp_timeouts r) (tbitmap r) (filesize r) (timer r) (outcome r).
Definition set_mtftp_timeouts (v : Z) (r : tftp_request) : tftp_request :=
  Tftp (path r) (blksize r) (tsize r) (port r) (peer r) (flags r) v (tbitmap r) (filesize r) (timer r) (outcome r).
Definition set_tbitmap (v : bitmap) (r : tftp_request) : tftp_request :=
  Tftp (path r) (blksize r) (tsize r) (port r) (peer r) (flags r) (mtftp_timeouts r) v (filesize r) (timer r) (outcome r).
Definition set_filesize (v : Z) (r : tftp_request) : tftp_request :=
  Tftp (path r) (blksize r) (tsize r) (port r) (peer r) (flags r) (mtftp_timeouts r) (tbitmap r) v (timer r) (outcome r).
Definition set_timer (v : retry_timer) (r : tftp_request) : tftp_request :=
  Tftp (path r) (blksize r) (tsize r) (port r) (peer r) (flags r) (mtftp_timeouts r) (tbitmap r) (filesize r) v (outcome r).
Definition set_outcome (v : option (result unit)) (r : tftp_request) : tftp_request :=
  Tftp (path r) (blksize r) (tsize r) (port r) (peer r) (flags r) (mtftp_timeouts r) (tbitmap r) (filesize r) (timer r) v.

Inductive tftp_intf := TFTP_SOCKET | TFTP_MC_SOCKET.

Record state (W : Type) := State {
  req : tftp_request;
  world : W;
}.
Arguments State {W}.
Arguments req {W}.
Arguments world {W}.

Class TftpEnv (W : Type) := {
  currticks : W -> Z;
  socket_window : W -> Z;
  xfer_window : W -> Z;
  xfer_alloc_iob : Z -> W -> bool * W;
  socket_deliver : list Z -> option sockaddr -> W -> result unit * W;
  xfer_deliver : list Z -> Z -> W -> result unit * W;
  xfer_seek : Z -> W -> W;
  intf_restart : tftp_intf -> W -> W;
  open_named_socket : Z -> W -> result unit * W;
  open_mc_socket : sockaddr -> W -> result unit * W;
  intf_shutdown : result unit -> W -> W;
  realloc : list Z -> Z -> option (list Z);
}.

Section tftp.
Context {W : Type} `{env : TftpEnv W}.
Abbreviation st := (state W).

Definition upd (f : tftp_request -> tftp_request) (s : st) : st := State (f (req s)) (world s).
Definition updw (f : W -> W) (s : st) : st := State (req s) (f (world s)).
Definition now (s : st) : Z := currticks (world s).

(** [if ( x & bits )] *)
Definition has (x bits : Z) : bool := bool_decide (Z.land x bits <> 0).

Definition tftp_done (rc : result unit) (s : st) : st :=
  let s := upd (fun r => set_timer (stopped (now s) (timer r)) r) s in
  let s := updw (intf_shutdown rc) s in
  match outcome (req s) with
  | None => upd (set_outcome (Some rc)) s
  | Some _ => s
  end.

Definition tftp_reopen (s : st) : result unit * st :=
  let s := updw (intf_restart TFTP_SOCKET) s in
  let s := upd (fun r => set_flags (Z.land (flags r) (Z.lnot TFTP_FL_SEND_ACK)) r) s in
  let s := upd (set_peer sockaddr_zero) s in
  let '(rc, w) := open_named_socket (port (req s)) (world s) in
  (rc, State (req s) w).

Definition tftp_reopen_mc (local : sockaddr) (s : st) : result unit * st :=
  let s := updw (intf_restart TFTP_MC_SOCKET) s in
  let '(rc, w) := open_mc_socket local (world s) in
  (rc, State (req s) w).

Definition tftp_presize (size : Z) (s : st) : result unit * st :=
  if decide (size <= filesize (req s)) then (Ok tt, s) else
  let s := upd (set_filesize size) s in
  let s := updw (xfer_seek size) s in
  let s := updw (xfer_seek 0) s in
  if decide (blksize (req s) = 0) then (Err EINVAL, s) else
  let num_blocks := u32 (size / blksize (req s) + 1) in
  let '(rc, b) := bitmap_resize realloc (tbitmap (req s)) num_blocks in
  (rc, upd (set_tbitmap b) s).

(** ** Transmission *)

(** [iob_put ( iobuf, snprintf ( iobuf->tail, iob_tailroom ( iobuf ), ... ) + 1 )]
    for an I/O buffer with room for [len] bytes. *)
Definition iob_printf (len : nat) (fmt : list Z) (args : list varg) (iobuf : list Z) : list Z :=
  match vsnprintf (replicate (len - length iobuf) 0) fmt args with
  | Some (n, buf) => iobuf ++ take (Z.to_nat (n + 1)) buf
  | None => iobuf
  end.

(** The length of the buffer that is allocated for the request. *)
Definition rrq_len (path : list Z) : nat :=
  (2 + length path + 1 + 5 + 1 + 7 + 1 + 5 + 1 + 5 + 1 + 1 + 1 + 9 + 1 + 1)%nat.

Definition rrq_packet (path : list Z) (flags blksize : Z) : list Z :=
  let len := rrq_len path in
  let iobuf := be16 TFTP_RRQ in
  let iobuf := iob_printf len (lit "%s%coctet") [VStr (Some path); VInt 0] iobuf in
  let iobuf := if has flags TFTP_FL_RRQ_SIZES
               then iob_printf len (lit "blksize%c%zd%ctsize%c0") [VInt 0; VInt blksize; VInt 0; VInt 0] iobuf else iobuf in
  if has flags TFTP_FL_RRQ_MULTICAST then iob_printf len (lit "multicast%c") [VInt 0] iobuf else iobuf.

Definition tftp_send_rrq (s : st) : result unit * st :=
  let path := drop 1 (path (req s)) in
  let '(ok, w) := xfer_alloc_iob (Z.of_nat (rrq_len path)) (world s) in
  let s := State (req s) w in
  if negb ok then (Err ENOMEM, s) else
  let blksize := xfer_window (world s) in
  let blksize := if decide (blksize > TFTP_MAX_BLKSIZE) then TFTP_MAX_BLKSIZE else blksize in
  let '(rc, w) := socket_deliver (rrq_packet path (flags (req s)) blksize) None (world s) in
  (rc, State (req s) w).

Definition tftp_send_ack (s : st) : result unit * st :=
  let block := bitmap_first_gap (tbitmap (req s)) in
  let '(ok, w) := xfer_alloc_iob 4 (world s) in
  let s := State (req s) w in
  if negb ok then (Err ENOMEM, s) else
  let '(rc, w) := socket_deliver (be16 TFTP_ACK ++ be16 block) (Some (peer (req s))) (world s) in
  (rc, State (req s) w).

Definition tftp_send_error (errcode : Z) (errmsg : list Z) (s : st) : result unit * st :=
  let msglen := 4 + Z.of_nat (length errmsg) + 1 in
  let '(ok, w) := xfer_alloc_iob msglen (world s) in
  let s := State (req s) w in
  if negb ok then (Err ENOMEM, s) else
  let '(rc, w) := socket_deliver (be16 TFTP_ERROR ++ be16 errcode ++ errmsg ++ [0]) (Some (peer (req s))) (world s) in
  (rc, State (req s) w).

Definition tftp_send_packet (s : st) : result unit * st :=
  let s := upd (fun r => set_timer (stopped (now s) (timer r)) r) s in
  let s := upd (fun r => set_timer (started (now s) (if decide (socket_window (world s) <> 0)
                                                      then start_timeout (timer r) else 0) (timer r)) r) s in
  if decide (sa_family (peer (req s)) = 0) then tftp_send_rrq s
  else if has (flags (req s)) TFTP_FL_SEND_ACK then tftp_send_ack s
  else (Ok tt, s).

(** The recovery strategies of MTFTP. *)
Definition mtftp_recover (s : st) : result unit * st :=
  if decide (sa_family (peer (req s)) <> 0) then tftp_reopen s
  else
    let s := upd (fun r => set_mtftp_timeouts (u32 (mtftp_timeouts r + 1)) r) s in
    if decide (mtftp_timeouts (req s) > MTFTP_MAX_TIMEOUTS) then
      let s := upd (set_flags TFTP_FL_RRQ_SIZES) s in
      let s := updw (intf_restart TFTP_MC_SOCKET) s in
      let s := upd (fun r => set_timer (started (now s) 0 (timer r)) r) s in
      let s := upd (set_tbitmap (Bitmap [] 0 0)) s in
      let s := upd (set_port TFTP_PORT) s in
      tftp_reopen s
    else (Ok tt, s).

Definition tftp_timer_expired (fail : bool) (s : st) : st :=
  let '(rc, s) := if has (flags (req s)) TFTP_FL_MTFTP_RECOVERY then mtftp_recover s
                  else if fail then (Err ETIMEDOUT, s) else (Ok tt, s) in
  match rc with
  | Ok _ => snd (tftp_send_packet s)
  | Err e => tftp_done (Err e) s
  end.

(** ** Options *)

(** The options are strings in the packet; the handlers read them from a
    memory block [m] that holds the packet.  [None]: out of fuel. *)

Definition tftp_process_blksize (fuel : nat) (m : mem) (value : Z) (s : st) : option (result unit * st) :=
  match strtoul fuel m value 10 with
  | None => None
  | Some (v, end_) =>
    let s := upd (set_blksize (u32 v)) s in
    Some (if decide (m end_ <> 0) then (Err EINVAL, s) else (Ok tt, s))
  end.

Definition tftp_process_tsize (fuel : nat) (m : mem) (value : Z) (s : st) : option (result unit * st) :=
  match strtoul fuel m value 10 with
  | None => None
  | Some (v, end_) =>
    let s := upd (set_tsize v) s in
    Some (if decide (m end_ <> 0) then (Err EINVAL, s) else (Ok tt, s))
  end.

(** The part of [tftp_process_multicast] that opens the multicast socket. *)
Definition multicast_socket (fuel : nat) (m : mem) (addr port : Z) (s : st) : option (result unit * st) :=
  match inet_aton fuel m addr with
  | None => None
  | Some None => Some (Err EINVAL, s)
  | Some (Some ip) =>
    match strtoul fuel m port 0 with
    | None => None
    | Some (v, port_end) =>
      if decide (m port_end <> 0) then Some (Err EINVAL, s)
      else Some (tftp_reopen_mc (Sockaddr AF_INET (be16 (u16 v) ++ ip)) s)
    end
  end.

(** The separators that are overwritten belong to the value, which is not read
    again: the modified memory is local. *)
Definition tftp_process_multicast (fuel : nat) (m : mem) (value : Z) (s : st) : option (result unit * st) :=
  match strchr fuel m value 44 with
  | None => None
  | Some None => Some (Err EINVAL, s)
  | Some (Some port) =>
    let m := mset m port 0 in
    let port := port + 1 in
    match strchr fuel m port 44 with
    | None => None
    | Some None => Some (Err EINVAL, s)
    | Some (Some mc) =>
      let m := mset m mc 0 in
      let mc := mc + 1 in
      match strtoul fuel m mc 0 with
      | None => None
      | Some (v, mc_end) =>
        let s := if decide (v = 0) then upd (fun r => set_flags (Z.land (flags r) (Z.lnot TFTP_FL_SEND_ACK)) r) s else s in
        if decide (m mc_end <> 0) then Some (Err EINVAL, s)
        else if decide (m value <> 0 /\ m port <> 0) then multicast_socket fuel m value port s
        else Some (Ok tt, s)
      end
    end
  end.

(** The packet at address zero, and below it the option names of the table
    [tftp_options]. *)
Definition option_names : list Z := lit "blksize" ++ [0] ++ lit "tsize" ++ [0] ++ lit "multicast" ++ [0].
Definition oack_mem (packet : list Z) : mem := memcpy (mem_of packet) (-24) option_names.
Definition tftp_options : list (Z * (nat -> mem -> Z -> st -> option (result unit * st))) :=
  [(-24, tftp_process_blksize); (-16, tftp_process_tsize); (-10, tftp_process_multicast)].

Fixpoint process_option_loop (fuel : nat) (m : mem)
    (table : list (Z * (nat -> mem -> Z -> st -> option (result unit * st)))) (name value : Z) (s : st) :
    option (result unit * st) :=
  match table with
  | [] => Some (Ok tt, s)
  | (option_name, process) :: table =>
    match strcasecmp fuel m name option_name with
    | None => None
    | Some diff => if decide (diff = 0) then process fuel m value s else process_option_loop fuel m table name value s
    end
  end.

Definition tftp_process_option (fuel : nat) (m : mem) (name value : Z) (s : st) : option (result unit * st) :=
  process_option_loop fuel m tftp_options name value s.

(** The loop over the options, from [name] to [end_]; parsing errors end it.
    Each round moves on by at least two bytes: the length of the packet is
    enough fuel. *)
Fixpoint oack_loop (rounds fuel : nat) (m : mem) (name end_ : Z) (s : st) : option (result unit * st) :=
  if decide (name >= end_) then Some (Ok tt, s) else
  match rounds with
  | O => None
  | S rounds =>
    match strnlen fuel m name (end_ - name) with
    | None => None
    | Some len =>
      let value := name + len + 1 in
      if decide (value > end_) then Some (Ok tt, s)
      else if decide (value = end_) then Some (Ok tt, s)
      else
        match strnlen fuel m value (end_ - value) with
        | None => None
        | Some len =>
          let next := value + len + 1 in
          if decide (next > end_) then Some (Ok tt, s)
          else
            match tftp_process_option fuel m name value s with
            | None => None
            | Some (Err e, s) => Some (Err e, s)
            | Some (Ok _, s) => oack_loop rounds fuel m next end_ s
            end
        end
    end
  end.

Definition finish (rc : result unit) (s : st) : result unit * st :=
  match rc with
  | Ok _ => (Ok tt, s)
  | Err e => (Err e, tftp_done (Err e) s)
  end.

Definition tftp_rx_oack (packet : list Z) (s : st) : option (result unit * st) :=
  let len := Z.of_nat (length packet) in
  if decide (len < 2) then Some (finish (Err EINVAL) s) else
  match oack_loop (length packet) (length packet + 16) (oack_mem packet) 2 len s with
  | None => None
  | Some (Err e, s) => Some (finish (Err e) s)
  | Some (Ok _, s) =>
    let '(rc, s) := if decide (tsize (req s) <> 0) then tftp_presize (tsize (req s)) s else (Ok tt, s) in
    match rc with
    | Err e => Some (finish (Err e) s)
    | Ok _ => Some (Ok tt, snd (tftp_send_packet s))
    end
  end.

(** ** Reception *)

(** The block that a DATA packet numbered [wire] carries: its low 16 bits
    count from one, the others are those of the next block wanted. *)
Definition block_base (s : st) : Z := Z.land (u32 (bitmap_first_gap (tbitmap (req s)) + 1)) (2 ^ 32 - 1 - 0xffff).

Definition tftp_rx_data (packet : list Z) (s : st) : option (result unit * st) :=
  if decide (Z.of_nat (length packet) < 4) then Some (finish (Err EINVAL) s) else
  let block := block_base s in
  let wire := get16 packet 2 in
  if decide (wire = 0 /\ block = 0) then Some (finish (Err EINVAL) s) else
  let block := u32 (block + (wire - 1)) in
  let offset := u32 (block * blksize (req s)) in
  let data := drop 4 packet in
  let data_len := Z.of_nat (length data) in
  if decide (data_len > blksize (req s)) then Some (finish (Err EINVAL) s) else
  let '(rc, w) := xfer_deliver data offset (world s) in
  let s := State (req s) w in
  match rc with
  | Err e => Some (finish (Err e) s)
  | Ok _ =>
    let '(rc, s) := tftp_presize (offset + data_len) s in
    match rc with
    | Err e => Some (finish (Err e) s)
    | Ok _ =>
      match bitmap_set (tbitmap (req s)) block with
      | None => None
      | Some b =>
        let s := upd (set_tbitmap b) s in
        let s := snd (tftp_send_packet s) in
        Some (Ok tt, if bitmap_full (tbitmap (req s)) then tftp_done (Ok tt) s else s)
      end
    end
  end.

Definition tftp_errcode_to_rc (errcode : Z) : errno :=
  if decide (errcode = TFTP_ERR_FILE_NOT_FOUND) then ENOENT
  else if decide (errcode = TFTP_ERR_ACCESS_DENIED) then EACCES
  else if decide (errcode = TFTP_ERR_ILLEGAL_OP) then ENOTTY
  else ENOTSUP.

Definition tftp_rx_error (packet : list Z) (s : st) : option (result unit * st) :=
  if decide (Z.of_nat (length packet) < 4) then Some (Err EINVAL, s)
  else Some (Ok tt, tftp_done (Err (tftp_errcode_to_rc (get16 packet 2))) s).

Definition tftp_rx (packet : list Z) (src : option sockaddr) (s : st) : option (result unit * st) :=
  if decide (Z.of_nat (length packet) < 2) then Some (Err EINVAL, s) else
  match src with
  | None => Some (Err EINVAL, s)
  | Some src =>
    if decide (sa_family (peer (req s)) <> 0 /\ peer (req s) <> src) then Some (Err EINVAL, s) else
    let s := if decide (sa_family (peer (req s)) = 0) then upd (set_peer src) s else s in
    let opcode := get16 packet 0 in
    if decide (opcode = TFTP_OACK) then tftp_rx_oack packet s
    else if decide (opcode = TFTP_DATA) then tftp_rx_data packet s
    else if decide (opcode = TFTP_ERROR) then tftp_rx_error packet s
    else Some (Err EINVAL, s)
  end.

Definition tftp_socket_deliver (packet : list Z) (src : option sockaddr) (s : st) : option (result unit * st) :=
  tftp_rx packet src (upd (fun r => set_flags (Z.lor (flags r) TFTP_FL_SEND_ACK) r) s).

Definition tftp_xfer_window (s : st) : Z := blksize (req s).

Definition tftp_close (rc : result unit) (s : st) : st := tftp_done rc (snd (tftp_send_error 0 (lit "TFTP Aborted") s)).

(** ** Opening *)

Definition new_request (path : list Z) (flags port : Z) : tftp_request :=
  Tftp path TFTP_DEFAULT_BLKSIZE 0 port sockaddr_zero flags 0 (Bitmap [] 0 0) 0 (Timer false 0 0 0 0 0 None) None.

(** [host] and [path] are the parts of the URI, [port] is the answer of
    [uri_port], [allocated] says whether [zalloc] succeeded. *)
Definition tftp_core_open (host path : option (list Z)) (allocated : bool) (port : Z)
    (multicast : option sockaddr) (flags : Z) (w : W) : result unit * option st * W :=
  match host, path with
  | Some _, Some (47 :: rest) =>
    if negb allocated then (Err ENOMEM, None, w) else
    let '(rc, s) := tftp_reopen (State (new_request (47 :: rest) flags port) w) in
    let '(rc, s) := match rc, multicast with
                    | Ok _, Some local => tftp_reopen_mc local s
                    | _, _ => (rc, s)
                    end in
    match rc with
    | Err e => let s := tftp_done (Err e) s in (Err e, None, world s)
    | Ok _ => let s := upd (fun r => set_timer (started (now s) 0 (timer r)) r) s in (Ok tt, Some s, world s)
    end
  | _, _ => (Err EINVAL, None, w)
  end.

Definition tftp_open (host path : option (list Z)) (allocated : bool) (port : Z) (w : W) : result unit * option st * W :=
  tftp_core_open host path allocated port None TFTP_FL_RRQ_SIZES w.
Definition tftm_open (host path : option (list Z)) (allocated : bool) (port : Z) (w : W) : result unit * option st * W :=
  tftp_core_open host path allocated port None (Z.lor TFTP_FL_RRQ_SIZES TFTP_FL_RRQ_MULTICAST) w.
Definition mtftp_open (host path : option (list Z)) (allocated : bool) (port : Z) (mtftp_socket : sockaddr) (w : W) :
    result unit * option st * W :=
  tftp_core_open host path allocated port (Some mtftp_socket) TFTP_FL_MTFTP_RECOVERY w.
End tftp.
