(* ===== verification/TftpDownload.v ===== *)
(** * TFTP downloads

    A server that holds a file and sends its blocks, in any order and as often
    as it likes, against the client of Tftp: what the recipient of the data
    has been given when the request completes, that it does complete, and
    the executions in which the block bitmap is written out of range. *)

From S2P Require Import Prelude CMem Strings Vsprintf Bitmap Retry XferBuf Tftp.

(** What the client relies on.  The recipient of the data has a buffer [buf],
    and an invariant [valid] that holds while it accepts data: data delivered
    at an offset is written there, seeking inside the buffer and the traffic
    of the sockets leave it alone, and when the request is shut down what
    [received] yields is the contents of the buffer. *)
Class Recipient {W} `{TftpEnv W} (valid : W -> Prop) (buf received : W -> list Z) : Prop := {
  deliver_writes : forall data off w w',
    valid w -> bytes data -> in_width 32 off -> Z.of_nat (length data) < 2 ^ 32 ->
    xfer_deliver data off w = (Ok tt, w') -> valid w' /\ written off data (buf w) (buf w');
  seek_keeps : forall m w, valid w -> 0 <= m <= Z.of_nat (length (buf w)) -> valid (xfer_seek m w) /\ buf (xfer_seek m w) = buf w;
  alloc_keeps : forall m w, valid w -> valid (snd (xfer_alloc_iob m w)) /\ buf (snd (xfer_alloc_iob m w)) = buf w;
  socket_keeps : forall p a w, valid w -> valid (snd (socket_deliver p a w)) /\ buf (snd (socket_deliver p a w)) = buf w;
  shutdown_reports : forall rc w, valid w -> received (intf_shutdown rc w) = buf w;
  realloc_ok : realloc_contract 64 realloc;
}.

(** The high half of a 32-bit number. *)
Lemma land_high x : in_width 32 x -> Z.land x (2 ^ 32 - 1 - 0xffff) = x / 2 ^ 16 * 2 ^ 16.
Proof.
  intros Hx. change (2 ^ 32 - 1 - 0xffff) with (Z.land (Z.ones 32) (Z.lnot (Z.ones 16))).
  rewrite Z.land_assoc, Z.land_ones, Z.mod_small, land_lnot_ones by zlia. pose proof (Z.div_mod x (2 ^ 16)). lia.
Qed.

Section download.
Context {W : Type} `{env : TftpEnv W} (valid : W -> Prop) (buf received : W -> list Z) `{rcp : !Recipient valid buf received}.
Context (file : list Z) (B : Z).

Abbreviation n := (Z.of_nat (length file)).
Hypothesis B_pos : 1 <= B.
Hypothesis file_nonempty : 0 < n.
Hypothesis file_bytes : bytes file.
Hypothesis file_small : n + B + 64 < 2 ^ 32.

(** The DATA packet for block [k], counted from zero: its number on the wire
    counts from one, modulo 2^16. *)
Definition server_block (k : Z) : list Z := take (Z.to_nat B) (drop (Z.to_nat (k * B)) file).
Definition server_packet (k : Z) : list Z := be16 TFTP_DATA ++ be16 (u16 (k + 1)) ++ server_block k.

(** Block [k] of the file has been received. *)
Definition block_end (k : Z) : Z := Z.min ((k + 1) * B) n.
Definition have_block (w : W) (k : Z) : Prop :=
  forall i, k * B <= i < block_end k -> buf w !! Z.to_nat i = file !! Z.to_nat i.

Definition world_ok (w : W) : Prop := valid w /\ Z.of_nat (length (buf w)) <= n.

Definition download_ok (s : state W) : Prop :=
  let r := req s in let b := tbitmap r in
  world_ok (world s) /\
  blksize r = B /\ bitmap_ok b /\ 0 <= filesize r <= n /\
  blength b = (if decide (filesize r = 0) then 0 else filesize r / B + 1) /\
  forall k, 0 <= k -> bitmap_test b k = true -> have_block (world s) k /\ block_end k <= filesize r.

Lemma server_block_length k : 0 <= k -> k * B <= n -> Z.of_nat (length (server_block k)) = block_end k - k * B.
Proof. intros Hk Hn. unfold server_block, block_end. rewrite length_take, length_drop. nia. Qed.

Lemma server_block_lookup k i :
  0 <= k -> k * B <= i < block_end k -> server_block k !! Z.to_nat (i - k * B) = file !! Z.to_nat i.
Proof.
  intros Hk Hi. unfold server_block, block_end in *. rewrite lookup_take_lt by nia. rewrite lookup_drop. f_equal. nia.
Qed.

Lemma server_packet_parse k :
  (4 <= length (server_packet k))%nat /\ get16 (server_packet k) 2 = (k + 1) `mod` 2 ^ 16 /\
  drop 4 (server_packet k) = server_block k.
Proof.
  split_and!; [|apply be16_value; by apply wrap_bound|done].
  unfold server_packet. rewrite !length_app. cbn [be16 length]. lia.
Qed.

(** The receiver recovers the block number, as long as the block lies in the
    same run of 2^16 as the next block wanted. *)
Lemma block_recovered (s : state W) k :
  bitmap_ok (tbitmap (req s)) -> 0 <= k -> (k + 1) / 2 ^ 16 = (first_gap (tbitmap (req s)) + 1) / 2 ^ 16 -> k < 2 ^ 32 ->
  ~ ((k + 1) `mod` 2 ^ 16 = 0 /\ block_base s = 0) /\ u32 (block_base s + ((k + 1) `mod` 2 ^ 16 - 1)) = k.
Proof.
  intros (Hc & _ & Hg & _) Hk He Hk2. destruct Hc as (Hl & _). unfold block_base, bitmap_first_gap.
  rewrite (wrap_small 32 (first_gap _ + 1)) by zlia. rewrite land_high, <- He by zlia.
  pose proof (Z.div_mod (k + 1) (2 ^ 16)). pose proof (Z.mod_pos_bound (k + 1) (2 ^ 16)).
  split; [lia|]. replace (_ + _) with k by lia. by apply wrap_small.
Qed.

(** A world that the recipient cannot tell from [w]. *)
Definition same_data (w w' : W) : Prop := valid w' /\ buf w' = buf w.

(** Allocating a packet and sending it on the socket. *)
Lemma transmit_keeps m (pkt : W -> list Z) (a : W -> option sockaddr) (w : W) (r : tftp_request) :
  valid w ->
  let s' := snd (let '(ok, w) := xfer_alloc_iob m w in
    let s := State r w in
    if negb ok then (Err ENOMEM, s) else
    let '(rc, w) := socket_deliver (pkt w) (a w) (world s) in (rc, State r w)) in
  req s' = r /\ same_data w (world s').
Proof.
  intros Hv. destruct (alloc_keeps m w Hv) as [A1 A2]. destruct (xfer_alloc_iob m w) as [[] w1]; cbn [negb snd] in *; [|done].
  cbv zeta. cbn [world]. destruct (socket_keeps (pkt w1) (a w1) w1 A1) as [S1 S2].
  destruct (socket_deliver _ _ _) as [rc w2]. cbn [snd req world] in *. split; [done|]. split; [done|]. congruence.
Qed.

(** Everything [tftp_send_packet] changes is the timer and the world. *)
Lemma send_packet_timer (s : state W) : exists t, req (snd (tftp_send_packet s)) = set_timer t (req s).
Proof.
  unfold tftp_send_packet. set (s1 := upd _ (upd _ s)). assert (exists t, req s1 = set_timer t (req s)) as Hr by (by eexists).
  clearbody s1. cbv zeta. destruct (decide _); [|destruct (has _ _); [|done]].
  - unfold tftp_send_rrq. destruct (xfer_alloc_iob _ _) as [[] w1]; cbn [negb]; [|done]. cbv zeta. by destruct (socket_deliver _ _ _).
  - unfold tftp_send_ack. destruct (xfer_alloc_iob _ _) as [[] w1]; cbn [negb]; [|done]. cbv zeta. by destruct (socket_deliver _ _ _).
Qed.

Lemma send_packet_keeps (s : state W) :
  valid (world s) ->
  let s' := snd (tftp_send_packet s) in
  (exists t, req s' = set_timer t (req s)) /\ same_data (world s) (world s').
Proof.
  intros Hv. split; [apply send_packet_timer|]. unfold tftp_send_packet. set (s1 := upd _ (upd _ s)).
  assert (world s1 = world s) as Hw by done. clearbody s1. cbv zeta. rewrite <- Hw in *.
  destruct (decide _); [|destruct (has _ _); [|by split]].
  - apply (transmit_keeps _ (fun w => rrq_packet _ _ (if decide (xfer_window w > TFTP_MAX_BLKSIZE) then _ else _)) (fun _ => None)). done.
  - apply (transmit_keeps 4 (fun _ => _) (fun _ => Some (peer (req s1)))). done.
Qed.

Lemma done_keeps rc (s : state W) :
  let s' := tftp_done rc s in
  blksize (req s') = blksize (req s) /\ tbitmap (req s') = tbitmap (req s) /\ filesize (req s') = filesize (req s) /\
  outcome (req s') = (match outcome (req s) with None => Some rc | o => o end) /\
  (valid (world s) -> received (world s') = buf (world s)).
Proof.
  unfold tftp_done. cbv zeta. cbn [upd updw req world set_timer outcome]. destruct (outcome (req s)) eqn:E;
    cbn [upd updw req world set_timer set_outcome outcome blksize tbitmap filesize]; rewrite ?E; split_and!; try done; apply shutdown_reports.
Qed.

(** The bitmap covers the block before it is marked. *)
Lemma presize_ok (s : state W) k :
  download_ok s -> 0 <= k -> k * B <= n -> block_end k <= Z.of_nat (length (buf (world s))) ->
  match tftp_presize (block_end k) s with
  | (Ok _, s') => download_ok s' /\ block_end k <= filesize (req s') /\ k < blength (tbitmap (req s')) /\
      (forall i, 0 <= i -> bitmap_test (tbitmap (req s')) i = bitmap_test (tbitmap (req s)) i) /\
      (exists f b, req s' = set_tbitmap b (set_filesize f (req s))) /\ same_data (world s) (world s')
  | (Err e, s') => outcome (req s') = outcome (req s) /\ exists l m, realloc l m = None
  end.
Proof.
  intros Hs Hk Hn Hlen. pose proof Hs as ([D0 D0'] & D1 & D2 & D3 & D4 & D5). unfold tftp_presize.
  assert (0 < block_end k <= n) as Hbe by (unfold block_end; nia).
  destruct (decide (block_end k <= filesize (req s))) as [Hle|Hgt].
  - refine (conj Hs (conj Hle (conj _ (conj (fun _ _ => eq_refl) (conj _ (conj D0 eq_refl)))))).
    + rewrite D4. rewrite decide_False by lia.
      assert (k <= filesize (req s) / B); [|lia]. apply Z.div_le_lower_bound; [lia|]. unfold block_end in *. nia.
    + exists (filesize (req s)), (tbitmap (req s)). by destruct (req s).
  - cbn [upd updw req world set_filesize blksize tbitmap]. rewrite D1, decide_False by lia.
    assert (0 <= block_end k / B <= n) as Hq.
    { split; [apply Z.div_pos; lia|]. etrans; [apply Z.div_le_mono, Hbe; lia|]. apply Z.div_le_upper_bound; nia. }
    rewrite wrap_small by zlia. set (nb := block_end k / B + 1).
    assert (blength (tbitmap (req s)) <= nb) as Hgrow.
    { rewrite D4. unfold nb. destruct (decide _); [lia|]. assert (filesize (req s) / B <= block_end k / B); [|lia]. apply Z.div_le_mono; lia. }
    pose proof (bitmap_resize_spec realloc (tbitmap (req s)) nb realloc_ok D2 ltac:(unfold nb; lia)) as Hr.
    destruct (bitmap_resize realloc (tbitmap (req s)) nb) as [[[]|e] b]; [|by split; [|apply Hr]]. destruct Hr as (R1 & R2 & R3).
    assert (forall i, 0 <= i -> bitmap_test b i = bitmap_test (tbitmap (req s)) i) as Htest.
    { intros i Hi. rewrite !bitmap_test_spec, R3, R2 by done. destruct (decide (i < blength (tbitmap (req s)))).
      - by rewrite !bool_decide_true by lia.
      - destruct D2 as (_ & Hhi & _). rewrite Hhi by lia. by rewrite !andb_false_r. }
    destruct (seek_keeps (buf := buf) (block_end k) (world s) D0 ltac:(lia)) as [S1 S2].
    destruct (seek_keeps (buf := buf) 0 (xfer_seek (block_end k) (world s)) S1 ltac:(lia)) as [S3 S4]. rewrite S2 in S4.
    unfold download_ok, world_ok, same_data, have_block. cbn [upd updw req world set_tbitmap set_filesize blksize tbitmap filesize]. rewrite S4.
    split_and!; [done|done|done|exact R1|lia|lia| | |lia| |done| |done|done].
    + rewrite decide_False by lia. done.
    + intros j Hj Ht. rewrite Htest in Ht by done. destruct (D5 j Hj Ht) as [G1 G2]. split; [done|lia].
    + rewrite R2. unfold nb. assert (k <= block_end k / B); [|lia]. apply Z.div_le_lower_bound; [lia|]. unfold block_end in *. nia.
    + by eexists _, _.
Qed.

(** The recipient after block [k] was delivered. *)
Lemma block_delivered (s : state W) k w :
  download_ok s -> 0 <= k -> k * B <= n -> xfer_deliver (server_block k) (k * B) (world s) = (Ok tt, w) ->
  download_ok (State (req s) w) /\ have_block w k /\ block_end k <= Z.of_nat (length (buf w)).
Proof.
  intros ([D0 D0'] & D1 & D2 & D3 & D4 & D5) Hk Hn E. pose proof (server_block_length k Hk Hn) as Hlen.
  assert (k * B <= block_end k <= n) as Hbe by (unfold block_end; nia).
  destruct (deliver_writes (server_block k) (k * B) (world s) w) as (V & W1 & W2 & W3);
    [done|by apply Forall_take, Forall_drop|zlia|lia|done|]. rewrite Hlen in W1, W2, W3.
  replace (k * B + (block_end k - k * B)) with (block_end k) in W1, W2, W3 by lia.
  assert (have_block w k) as Hhave by (intros i Hi; rewrite W2 by lia; apply server_block_lookup; lia).
  refine (conj _ (conj Hhave _)); [|lia]. unfold download_ok, world_ok. cbn [req world].
  refine (conj (conj V _) (conj D1 (conj D2 (conj D3 (conj D4 _))))); [lia|].
  intros j Hj Ht. destruct (D5 j Hj Ht) as [G1 G2]. split; [|done]. intros i Hi.
  assert (0 <= i < n) as Hin by (unfold block_end in *; nia).
  assert (i < Z.of_nat (length (buf (world s)))) as Hil.
  { assert (is_Some (buf (world s) !! Z.to_nat i)) as [x Hx] by (rewrite G1 by done; apply lookup_lt_is_Some; lia).
    apply lookup_lt_Some in Hx. lia. }
  destruct (decide (k * B <= i < block_end k)) as [Hik|Hik]; [by apply Hhave|]. rewrite W3 by lia. by apply G1.
Qed.

(** Marking a block that has been received, and answering. *)
Lemma block_marked (s : state W) k b :
  download_ok s -> have_block (world s) k -> block_end k <= filesize (req s) ->
  bitmap_ok b -> blength b = blength (tbitmap (req s)) ->
  (forall i, 0 <= i -> bitmap_test b i = bool_decide (i = k) || bitmap_test (tbitmap (req s)) i) ->
  let s' := snd (tftp_send_packet (upd (set_tbitmap b) s)) in
  download_ok s' /\ tbitmap (req s') = b /\ filesize (req s') = filesize (req s) /\ outcome (req s') = outcome (req s).
Proof.
  intros ([D0 D0'] & D1 & D2 & D3 & D4 & D5) Hhave Hend Hb Hlen Hbits.
  destruct (send_packet_keeps (upd (set_tbitmap b) s) D0) as [[t T1] [T2 T3]]. cbv zeta. revert T1 T2 T3.
  generalize (snd (tftp_send_packet (upd (set_tbitmap b) s))). intros s' T1 T2 T3. rewrite T1.
  cbn [upd req set_tbitmap set_timer tbitmap filesize outcome]. refine (conj _ (conj eq_refl (conj eq_refl eq_refl))).
  unfold download_ok, world_ok, have_block. rewrite T1, T3. cbn [upd req world set_tbitmap set_timer blksize tbitmap filesize]. rewrite Hlen.
  refine (conj (conj T2 D0') (conj D1 (conj Hb (conj D3 (conj D4 _))))). intros j Hj Ht. rewrite Hbits in Ht by done.
  apply orb_true_iff in Ht as [->%bool_decide_eq_true|Ht]; [done|by apply D5].
Qed.

(** One DATA packet of the server: no write outside the bitmap; on success the
    block is recorded, the invariant holds again, and the request is finished
    exactly when the bitmap is full. *)
Lemma rx_block (s : state W) k :
  download_ok s -> 0 <= k -> k * B <= n ->
  (k + 1) / 2 ^ 16 = (first_gap (tbitmap (req s)) + 1) / 2 ^ 16 ->
  exists rc s', tftp_rx_data (server_packet k) s = Some (rc, s') /\
    match rc with
    | Ok _ => exists s1, s' = (if bitmap_full (tbitmap (req s1)) then tftp_done (Ok tt) s1 else s1) /\
        download_ok s1 /\ 0 < filesize (req s1) /\ outcome (req s1) = outcome (req s) /\
        (forall i, 0 <= i -> bitmap_test (tbitmap (req s1)) i = bool_decide (i = k) || bitmap_test (tbitmap (req s)) i)
    | Err e => outcome (req s') = match outcome (req s) with None => Some (Err e) | o => o end /\
        (fst (xfer_deliver (server_block k) (k * B) (world s)) <> Ok tt \/ exists l m, realloc l m = None)
    end.
Proof.
  intros Hs Hk Hn He. pose proof Hs as (_ & D1 & D2 & _). destruct (server_packet_parse k) as (P1 & P2 & P3).
  assert (k <= n) as Hkn by nia. destruct (block_recovered s k D2 Hk He ltac:(lia)) as [Hb0 Hbk].
  pose proof (server_block_length k Hk Hn) as Hlen.
  unfold tftp_rx_data. rewrite decide_False by lia. cbv zeta. rewrite P2, decide_False, Hbk, P3, Hlen, D1 by done.
  rewrite (wrap_small 32 (k * B)) by zlia. rewrite decide_False by (unfold block_end; nia).
  destruct (xfer_deliver (server_block k) (k * B) (world s)) as [[[]|e] w] eqn:Ew.
  2:{ eexists _, _. split; [done|]. split; [apply (done_keeps (Err e) (State (req s) w))|by left]. }
  destruct (block_delivered s k w Hs Hk Hn Ew) as (V1 & V2 & V3).
  replace (k * B + (block_end k - k * B)) with (block_end k) by lia.
  pose proof (presize_ok (State (req s) w) k V1 Hk Hn V3) as Hp.
  destruct (tftp_presize (block_end k) (State (req s) w)) as [[[]|e] s2].
  2:{ eexists _, _. split; [done|]. destruct (done_keeps (Err e) s2) as (_ & _ & _ & -> & _). destruct Hp as [-> Hp]. split; [done|by right]. }
  destruct Hp as (Q1 & Q2 & Q3 & Q4 & (f & b & Q5) & Q6 & Q7). pose proof Q1 as (_ & _ & E2 & _).
  destruct (bitmap_set_spec (tbitmap (req s2)) k E2 ltac:(lia)) as (b' & -> & B1 & B2 & B3).
  assert (have_block (world s2) k) as V2' by (intros i Hi; rewrite Q7; by apply V2).
  destruct (block_marked s2 k b' Q1 V2' Q2 B1 B2 B3) as (M1 & M2 & M3 & M4). revert M1 M2 M3 M4.
  generalize (snd (tftp_send_packet (upd (set_tbitmap b') s2))). intros s3 M1 M2 M3 M4.
  eexists _, _. split; [done|]. exists s3. refine (conj eq_refl (conj M1 (conj _ (conj _ _)))).
  - rewrite M3. unfold block_end in Q2. nia.
  - by rewrite M4, Q5.
  - intros i Hi. by rewrite M2, B3, Q4.
Qed.

(** A full bitmap means the whole file. *)
Lemma full_complete (s : state W) :
  download_ok s -> 0 < filesize (req s) -> bitmap_full (tbitmap (req s)) = true ->
  filesize (req s) = n /\ buf (world s) = file.
Proof.
  intros ([D0 D0'] & D1 & D2 & D3 & D4 & D5) Hf Hfull. rewrite decide_False in D4 by lia.
  pose proof (proj1 (proj1 (bitmap_full_iff _ D2)) Hfull) as Hall. set (m := filesize (req s) / B) in *.
  pose proof (Z.div_mod (filesize (req s)) B ltac:(lia)) as Hdm. pose proof (Z.mod_pos_bound (filesize (req s)) B ltac:(lia)). fold m in Hdm.
  assert (0 <= m) as Hm by (apply Z.div_pos; lia).
  assert (filesize (req s) = n) as En.
  { destruct (D5 m Hm) as [_ Hlast]; [apply Hall; lia|]. unfold block_end in Hlast. nia. }
  split; [done|]. cut (forall i, 0 <= i < n -> buf (world s) !! Z.to_nat i = file !! Z.to_nat i).
  { intros Hi. apply list_eq_same_length with (length file); [done| |].
    - specialize (Hi (n - 1) ltac:(lia)). assert (is_Some (buf (world s) !! Z.to_nat (n - 1))) as [x Hx]
        by (rewrite Hi; apply lookup_lt_is_Some; lia). apply lookup_lt_Some in Hx. lia.
    - intros i x y Hil Hx Hy. specialize (Hi (Z.of_nat i) ltac:(lia)). rewrite Nat2Z.id in Hi. congruence. }
  intros i Hi. assert (i / B <= m) as Hib by (unfold m; apply Z.div_le_mono; lia).
  pose proof (Z.div_mod i B ltac:(lia)). pose proof (Z.mod_pos_bound i B ltac:(lia)). assert (0 <= i / B) by (apply Z.div_pos; lia).
  destruct (D5 (i / B)) as [Hblk _]; [done|apply Hall; lia|]. apply Hblk. unfold block_end. nia.
Qed.

(** ** The entry point *)

Context (server : sockaddr).
Hypothesis server_family : sa_family server <> 0.

Definition from_server (s : state W) : Prop := sa_family (peer (req s)) = 0 \/ peer (req s) = server.

(** The state in which [tftp_rx_data] runs when a packet of the server arrives. *)
Definition accepted (s : state W) : state W :=
  let s := upd (fun r => set_flags (Z.lor (flags r) TFTP_FL_SEND_ACK) r) s in
  if decide (sa_family (peer (req s)) = 0) then upd (set_peer server) s else s.

Lemma deliver_server_packet (s : state W) k :
  from_server s -> tftp_socket_deliver (server_packet k) (Some server) s = tftp_rx_data (server_packet k) (accepted s).
Proof.
  intros Hp. unfold tftp_socket_deliver, tftp_rx, accepted. destruct (server_packet_parse k) as (P1 & _).
  rewrite decide_False by lia. set (s1 := upd _ s).
  assert (from_server s1) as Hp1 by done. clearbody s1. clear Hp.
  rewrite (decide_False (P := _ /\ _)) by (destruct Hp1; tauto).
  change (get16 (server_packet k) 0) with TFTP_DATA. by rewrite (decide_False (P := TFTP_DATA = TFTP_OACK)), decide_True by done.
Qed.

Lemma accepted_keeps (s : state W) :
  let s' := accepted s in
  (download_ok s -> download_ok s') /\ tbitmap (req s') = tbitmap (req s) /\ outcome (req s') = outcome (req s) /\
  world s' = world s /\ filesize (req s') = filesize (req s) /\ (from_server s -> peer (req s') = server).
Proof.
  unfold accepted. cbv zeta. cbn [upd req set_flags peer]. destruct (decide _) as [E|E]; split_and!; try done.
  intros [?|?]; [by destruct E|done].
Qed.

(** The data handlers leave the peer alone. *)
Lemma done_peer rc (s : state W) : peer (req (tftp_done rc s)) = peer (req s).
Proof. unfold tftp_done. cbv zeta. cbn [upd updw req set_timer outcome]. by destruct (outcome (req s)). Qed.

Lemma rx_data_peer packet (s : state W) rc s' : tftp_rx_data packet s = Some (rc, s') -> peer (req s') = peer (req s).
Proof.
  unfold tftp_rx_data. cbv zeta. assert (forall e s1, peer (req (snd (finish (Err e) s1))) = peer (req s1)) as Hf
    by (intros; apply done_peer).
  assert (forall e s1, Some (finish (Err e) s1) = Some (rc, s') -> peer (req s') = peer (req s1)) as Hf'
    by (intros e s1 [= ? <-]; apply done_peer).
  destruct (decide _); [apply Hf'|]. destruct (decide _); [apply Hf'|]. destruct (decide _); [apply Hf'|].
  destruct (xfer_deliver _ _ _) as [[[]|e] w]; [|apply (Hf' e (State (req s) w))].
  match goal with |- context [tftp_presize ?z ?x] => assert (peer (req (snd (tftp_presize z x))) = peer (req s)) as Hp end.
  { unfold tftp_presize. destruct (decide _); [done|]. cbv zeta. destruct (decide _); [done|]. by destruct (bitmap_resize _ _ _). }
  destruct (tftp_presize _ _) as [[[]|e] s2]; cbn [snd] in Hp; [|intros H0; by rewrite (Hf' e s2 H0)].
  destruct (bitmap_set _ _) as [b|]; [|done]. destruct (send_packet_timer (upd (set_tbitmap b) s2)) as [t Ht].
  intros [= _ <-]. destruct (bitmap_full _); rewrite ?done_peer, Ht; done.
Qed.

(** ** Downloads *)

(** The invariant of a request in progress, and what holds once it is over. *)
Definition complete (w : W) : Prop := received w = file.

Definition request_ok (s : state W) : Prop :=
  match outcome (req s) with
  | None => download_ok s /\ from_server s
  | Some (Ok _) => complete (world s)
  | Some (Err _) => True
  end.

(** What can happen to a request that is not over: a block of the server
    arrives, in the run of 2^16 block numbers of the next one wanted; anything
    else arrives from the server, an error or a packet that makes no sense, but
    no acknowledgement of options; somebody who is not the server that answered
    sends a packet; or the timer expires. *)
Inductive download_step : state W -> state W -> Prop :=
| dl_block s k rc s' :
    outcome (req s) = None -> 0 <= k -> k * B <= n ->
    (k + 1) / 2 ^ 16 = (first_gap (tbitmap (req s)) + 1) / 2 ^ 16 ->
    tftp_socket_deliver (server_packet k) (Some server) s = Some (rc, s') -> download_step s s'
| dl_other s packet rc s' :
    outcome (req s) = None -> (length packet < 2)%nat \/ (get16 packet 0 <> TFTP_OACK /\ get16 packet 0 <> TFTP_DATA) ->
    tftp_socket_deliver packet (Some server) s = Some (rc, s') -> download_step s s'
| dl_stray s packet src rc s' :
    outcome (req s) = None -> peer (req s) = server -> src <> Some server ->
    tftp_socket_deliver packet src s = Some (rc, s') -> download_step s s'
| dl_timer s :
    outcome (req s) = None -> has (flags (req s)) TFTP_FL_MTFTP_RECOVERY = false -> running (timer (req s)) = true ->
    download_step s (tftp_timer_expired (snd (backoff (timer (req s)))) (upd (fun r => set_timer (fst (backoff (timer r))) r) s)).

Lemma request_ok_block (s : state W) k :
  outcome (req s) = None -> request_ok s -> 0 <= k -> k * B <= n ->
  (k + 1) / 2 ^ 16 = (first_gap (tbitmap (req s)) + 1) / 2 ^ 16 ->
  exists rc s', tftp_socket_deliver (server_packet k) (Some server) s = Some (rc, s') /\ request_ok s' /\
    match rc with
    | Ok _ => (forall i, 0 <= i -> bitmap_test (tbitmap (req s')) i = bool_decide (i = k) || bitmap_test (tbitmap (req s)) i) /\
        outcome (req s') = (if bitmap_full (tbitmap (req s')) then Some (Ok tt) else None)
    | Err e => outcome (req s') = Some (Err e) /\
        (fst (xfer_deliver (server_block k) (k * B) (world s)) <> Ok tt \/ exists l m, realloc l m = None)
    end.
Proof.
  intros Ho Hs Hk Hn He. unfold request_ok in Hs. rewrite Ho in Hs. destruct Hs as [Hs Hp].
  destruct (accepted_keeps s) as (A1 & A2 & A3 & A4 & A5 & A6). rewrite (deliver_server_packet s k Hp).
  destruct (rx_block (accepted s) k (A1 Hs) Hk Hn ltac:(by rewrite A2)) as (rc & s' & E & R). rewrite E.
  exists rc, s'. split; [done|]. rewrite A3, Ho in R. rewrite A2, A4 in R. apply rx_data_peer in E.
  destruct rc as [[]|e]; unfold request_ok.
  - destruct R as (s1 & -> & R1 & R2 & R3 & R4). destruct (bitmap_full (tbitmap (req s1))) eqn:Ef.
    + destruct (done_keeps (Ok tt) s1) as (_ & -> & _ & -> & J). rewrite R3, Ef. split; [|done].
      unfold complete. rewrite J by apply R1. exact (proj2 (full_complete s1 R1 R2 Ef)).
    + rewrite R3, Ef. split; [|done]. split; [done|]. right. rewrite E. by apply A6.
  - destruct R as [-> R]. done.
Qed.

Lemma request_ok_step s s' : download_step s s' -> request_ok s -> request_ok s'.
Proof.
  intros Hst Hs. destruct Hst as [s k rc s' Ho Hk Hn He E|s packet rc s' Ho Hop E|s packet src rc s' Ho Hp Hsrc E|s Ho Hf Hr].
  - destruct (request_ok_block s k Ho Hs Hk Hn He) as (rc' & s'' & E' & Hs'' & _). rewrite E in E'. by injection E' as _ <-.
  - unfold request_ok in Hs. rewrite Ho in Hs. destruct Hs as [Hs Hp]. unfold tftp_socket_deliver, tftp_rx in E.
    set (s1 := upd _ s) in E. assert (request_ok s1) as H1 by (unfold request_ok; subst s1; cbn [upd req set_flags outcome]; by rewrite Ho).
    assert (outcome (req s1) = None) as Ho1 by exact Ho. clearbody s1. destruct (decide (_ < 2)); [by injection E as _ <-|]. destruct (decide (_ /\ _)); [by injection E as _ <-|].
    set (s2 := if decide _ then _ else s1) in E. assert (request_ok s2 /\ outcome (req s2) = None) as [H2 Ho2].
    { unfold s2. clear E. destruct (decide (sa_family _ = 0)); [|by split]. split; [|exact Ho1]. unfold request_ok in *. cbn [upd req set_peer outcome]. rewrite Ho1 in *. split; [exact (proj1 H1)|by right]. }
    clearbody s2. rewrite !decide_False in E by (destruct Hop; [lia|tauto]). destruct (decide (_ = TFTP_ERROR)); [|by injection E as _ <-].
    unfold tftp_rx_error in E. case_decide; [by injection E as _ <-|]. injection E as _ <-. unfold request_ok.
    destruct (done_keeps (Err (tftp_errcode_to_rc (get16 packet 2))) s2) as (_ & _ & _ & -> & _). by rewrite Ho2.
  - unfold request_ok in Hs. rewrite Ho in Hs. destruct Hs as [Hs _]. unfold tftp_socket_deliver, tftp_rx in E.
    set (s1 := upd _ s) in E. assert (request_ok s1) as H1.
    { unfold request_ok. subst s1. cbn [upd req set_flags outcome]. rewrite Ho. split; [exact Hs|by right]. }
    assert (peer (req s1) = server) as Hp1 by done. clearbody s1.
    destruct (decide _); [by injection E as _ <-|]. destruct src as [src|]; [|by injection E as _ <-].
    rewrite decide_True in E; [by injection E as _ <-|]. rewrite Hp1. split; [done|]. intros ->. done.
  - unfold request_ok in Hs. rewrite Ho in Hs. destruct Hs as [Hs Hp]. unfold tftp_timer_expired. set (s1 := upd _ s).
    assert (download_ok s1 /\ from_server s1 /\ outcome (req s1) = None /\ flags (req s1) = flags (req s)) as (H1 & H2 & H3 & H4)
      by (split; [exact Hs|by split_and!]).
    clearbody s1. rewrite H4, Hf. destruct (snd (backoff _)).
    + unfold request_ok. destruct (done_keeps (Err ETIMEDOUT) s1) as (_ & _ & _ & -> & _). by rewrite H3.
    + pose proof H1 as ([D0 D0'] & _). destruct (send_packet_keeps s1 D0) as [[t T1] [T2 T3]]. revert T1 T2 T3. generalize (snd (tftp_send_packet s1)). intros s2 T1 T2 T3.
      unfold request_ok, from_server, download_ok, world_ok, have_block in *. rewrite T1, T3. cbn [set_timer outcome blksize tbitmap filesize peer].
      rewrite H3. split; [|done]. destruct H1 as (_ & H1). by split.
Qed.

(** Whatever blocks the server sends, in whatever order and however often,
    with packets of strangers and timeouts in between: when the request
    reports success the recipient holds exactly the file, and until then no
    block makes the client write outside its bitmap.  The blocks may belong
    to a file of any length below 2^32 with any block size; their numbers wrap
    modulo 2^16, and a block must lie in the same run of 2^16 as the next one
    wanted. *)
Theorem tftp_download_correct s0 s :
  outcome (req s0) = None -> download_ok s0 -> from_server s0 -> rtc download_step s0 s ->
  (outcome (req s) = Some (Ok tt) -> complete (world s)) /\
  (outcome (req s) = None -> forall k, 0 <= k -> k * B <= n ->
     (k + 1) / 2 ^ 16 = (first_gap (tbitmap (req s)) + 1) / 2 ^ 16 ->
     tftp_socket_deliver (server_packet k) (Some server) s <> None).
Proof.
  intros Ho Hd Hp Hst. assert (request_ok s) as Hs.
  { assert (request_ok s0) as H0 by (unfold request_ok; by rewrite Ho). clear Ho Hd Hp. induction Hst; eauto using request_ok_step. }
  split.
  - intros E. unfold request_ok in Hs. by rewrite E in Hs.
  - intros E k Hk Hn He. destruct (request_ok_block s k E Hs Hk Hn He) as (rc & s' & -> & _). done.
Qed.

(** ** Completion *)

(** The packets of the server in turn; once the request is over its sockets
    are closed. *)
Fixpoint receive (ks : list Z) (s : state W) : option (state W) :=
  match ks with
  | [] => Some s
  | k :: ks =>
    match outcome (req s) with
    | Some _ => Some s
    | None =>
      match tftp_socket_deliver (server_packet k) (Some server) s with
      | Some (_, s) => receive ks s
      | None => None
      end
    end
  end.

(** The request is not over although a block has arrived: one is missing. *)
Definition waiting (s : state W) : Prop :=
  forall k, 0 <= k -> bitmap_test (tbitmap (req s)) k = true -> bitmap_full (tbitmap (req s)) = false.

Hypothesis one_run : n / B + 2 < 2 ^ 16.
Hypothesis deliver_succeeds : forall data off w,
  valid w -> bytes data -> in_width 32 off -> Z.of_nat (length data) < 2 ^ 32 -> fst (xfer_deliver data off w) = Ok tt.
Hypothesis realloc_succeeds : forall l m, realloc l m <> None.

Lemma all_blocks_full (s : state W) :
  download_ok s -> (forall k, 0 <= k <= n / B -> bitmap_test (tbitmap (req s)) k = true) ->
  bitmap_full (tbitmap (req s)) = true.
Proof.
  intros (_ & D1 & D2 & D3 & D4 & D5) Hall. apply (proj1 (bitmap_full_iff _ D2)). intros i Hi. apply Hall. split; [lia|].
  rewrite D4 in Hi. destruct (decide (filesize (req s) = 0)) as [Hz|Hz]; [lia|]. assert (filesize (req s) / B <= n / B); [|lia]. apply Z.div_le_mono; lia.
Qed.

Lemma block_accepted (s : state W) k :
  download_ok s -> 0 <= k -> k * B <= n -> fst (xfer_deliver (server_block k) (k * B) (world s)) = Ok tt.
Proof.
  intros ([D0 _] & _) Hk Hn. pose proof (server_block_length k Hk Hn) as Hlen. unfold block_end in Hlen.
  apply deliver_succeeds; [done|by apply Forall_take, Forall_drop|zlia|lia].
Qed.

Lemma receive_completes ks (s : state W) :
  outcome (req s) = None -> download_ok s -> from_server s -> waiting s ->
  (forall k, k ∈ ks -> 0 <= k <= n / B) ->
  (forall k, 0 <= k <= n / B -> k ∈ ks \/ bitmap_test (tbitmap (req s)) k = true) ->
  exists s', receive ks s = Some s' /\ outcome (req s') = Some (Ok tt) /\ complete (world s').
Proof.
  revert s. induction ks as [|k ks IH]; intros s Ho Hd Hp Hw Hks Hall.
  { exfalso. assert (0 <= n / B) by (apply Z.div_pos; lia).
    assert (forall k, 0 <= k <= n / B -> bitmap_test (tbitmap (req s)) k = true) as Hall'.
    { intros k Hk. by destruct (Hall k Hk) as [?%not_elem_of_nil|?]. }
    pose proof (all_blocks_full s Hd Hall') as Hf. by rewrite (Hw 0) in Hf by auto with lia. }
  cbn [receive]. rewrite Ho. assert (0 <= k <= n / B) as Hk by (apply Hks; left).
  assert (k * B <= n) as Hn by (pose proof (Z.div_mod n B ltac:(lia)); pose proof (Z.mod_pos_bound n B ltac:(lia)); nia).
  assert (0 <= first_gap (tbitmap (req s)) <= n / B + 1) as Hg.
  { destruct Hd as (_ & _ & (_ & _ & Hg & _) & D3 & D4 & _). rewrite D4 in Hg.
    assert (filesize (req s) / B <= n / B) by (apply Z.div_le_mono; lia). destruct (decide _); lia. }
  destruct (request_ok_block s k Ho ltac:(unfold request_ok; by rewrite Ho) ltac:(lia) Hn) as (rc & s' & -> & Hs' & R).
  { by rewrite !Z.div_small by lia. }
  destruct rc as [[]|e].
  2:{ destruct R as [_ [Hx|(l & m & Hx)]]; [|by apply realloc_succeeds in Hx]. rewrite block_accepted in Hx by (done || lia). done. }
  destruct R as [R1 R2]. destruct (bitmap_full (tbitmap (req s'))) eqn:Ef.
  - unfold request_ok in Hs'. rewrite R2 in Hs'. exists s'. split; [|done]. destruct ks; cbn [receive]; [done|]. by rewrite R2.
  - unfold request_ok in Hs'. rewrite R2 in Hs'. destruct Hs' as [Hd' Hp']. apply IH; try done.
    + intros j _ _. done.
    + intros j Hj. apply Hks. by right.
    + intros j Hj. rewrite R1 by lia. destruct (Hall j Hj) as [[->|Hin]%elem_of_cons| ->]; [right|by left|right].
      * by rewrite bool_decide_true.
      * apply orb_true_r.
Qed.

(** A download completes: once every block of the file has arrived at
    least once, in any order and with any repetitions, the request reports
    success and the recipient holds the file, provided that the recipient
    accepts data, that memory suffices and that the block numbers of the file
    do not wrap. *)
Theorem tftp_download_completes ks s0 :
  outcome (req s0) = None -> download_ok s0 -> from_server s0 -> (forall k, bitmap_test (tbitmap (req s0)) k = false) ->
  (forall k, k ∈ ks <-> 0 <= k <= n / B) ->
  exists s, receive ks s0 = Some s /\ outcome (req s) = Some (Ok tt) /\ complete (world s).
Proof.
  intros Ho Hd Hp He Hks. apply receive_completes; try done.
  - intros k _ Hk. by rewrite He in Hk.
  - intros k. apply Hks.
  - intros k Hk. left. by apply Hks.
Qed.
End download.

(** ** Executions *)

(** A recipient in memory, which grows as needed. *)
Definition ram_write (off : Z) (data b : list Z) : list Z :=
  let end_ := (Z.to_nat off + length data)%nat in
  let b := b ++ replicate (end_ - length b) 0 in
  take (Z.to_nat off) b ++ data ++ drop end_ b.

Definition ram_env : TftpEnv (list Z) := {|
  currticks _ := 0;
  socket_window _ := 1;
  xfer_window _ := 1432;
  xfer_alloc_iob _ w := (true, w);
  socket_deliver _ _ w := (Ok tt, w);
  xfer_deliver data off w := (Ok tt, ram_write off data w);
  xfer_seek _ w := w;
  intf_restart _ w := w;
  open_named_socket _ w := (Ok tt, w);
  open_mc_socket _ w := (Ok tt, w);
  intf_shutdown _ w := w;
  realloc := zero_realloc;
|}.

Lemma ram_write_written off data b : 0 <= off -> written off data b (ram_write off data b).
Proof.
  intros Hoff. unfold ram_write. set (b1 := b ++ _).
  assert (length b1 = Nat.max (length b) (Z.to_nat off + length data)) as Hlen by (subst b1; rewrite length_app, length_replicate; lia).
  assert (length (take (Z.to_nat off) b1) = Z.to_nat off) as Ht by (rewrite length_take; lia). split_and!.
  - rewrite !length_app, Ht, length_drop. lia.
  - intros i Hi. rewrite lookup_app_r, Ht, lookup_app_l by lia. f_equal. lia.
  - intros i Hi Hni. assert (b1 !! Z.to_nat i = b !! Z.to_nat i) as <- by (subst b1; rewrite lookup_app_l by lia; done).
    destruct (decide (i < off)); [by rewrite lookup_app_l, lookup_take_lt by lia|].
    rewrite !lookup_app_r, lookup_drop, Ht by lia. f_equal. lia.
Qed.

Abbreviation any := (fun _ => True).
Abbreviation id_data := (fun w => w).

Lemma ram_recipient : @Recipient _ ram_env any id_data id_data.
Proof.
  split; try done.
  - intros data off w w' _ _ Ho _ [= <-]. split; [done|]. apply ram_write_written. zlia.
  - apply zero_realloc_ok. lia.
Qed.

Definition example_file : list Z := [10; 11; 12; 13; 14].
Definition example_server : sockaddr := Sockaddr 1 [10; 0; 0; 1].
Definition started_request (B : Z) : state (list Z) :=
  State (set_blksize B (new_request (lit "/boot") TFTP_FL_RRQ_SIZES TFTP_PORT)) [].

Lemma empty_bitmap_ok : bitmap_ok (Bitmap [] 0 0).
Proof.
  assert (forall i, bit_at (Bitmap [] 0 0) i = false) as Hb.
  { intros i. unfold bit_at. cbn [blocks]. rewrite nth_overflow by (simpl; lia). apply Z.bits_0. }
  split; [split; [simpl; lia|split; [done|constructor]]|]. split; [done|]. split; [simpl; lia|].
  split; [intros i Hi; simpl in Hi; lia|apply Hb].
Qed.

Lemma started_request_ok B : download_ok any id_data example_file B (started_request B).
Proof.
  refine (conj (conj I _) (conj eq_refl (conj empty_bitmap_ok (conj _ (conj eq_refl _))))); [simpl; lia..|].
  intros k Hk Ht. rewrite bitmap_test_spec in Ht by done. simpl in Ht. rewrite bool_decide_false in Ht by lia. done.
Qed.

Lemma tftp_download_completes_witness :
  exists s, @receive _ ram_env example_file 2 example_server [2; 0; 0; 1] (started_request 2) = Some s /\
    outcome (req s) = Some (Ok tt) /\ complete id_data example_file (world s).
Proof.
  apply (@tftp_download_completes _ ram_env any id_data id_data ram_recipient example_file 2).
  - lia.
  - simpl. lia.
  - apply (bool_decide_unpack _). vm_compute. exact I.
  - simpl. lia.
  - vm_compute. reflexivity.
  - reflexivity.
  - discriminate.
  - reflexivity.
  - apply started_request_ok.
  - left. reflexivity.
  - intros k. unfold bitmap_test. cbn [tbitmap req started_request set_blksize new_request blength blocks].
    destruct (decide (k >= 0)); [reflexivity|]. destruct (Z.to_nat (BITMAP_INDEX k)); reflexivity.
  - intros k. change (Z.of_nat (length example_file) / 2) with 2. rewrite !elem_of_cons, elem_of_nil. lia.
Defined.

Lemma tftp_download_correct_witness :
  exists s, rtc (@download_step _ ram_env example_file 2 example_server) (started_request 2) s /\
    (outcome (req s) = Some (Ok tt) -> complete id_data example_file (world s)).
Proof.
  set (packet := server_packet example_file 2 2).
  destruct (@tftp_socket_deliver _ ram_env packet (Some example_server) (started_request 2)) as [[rc s]|] eqn:E.
  2:{ exfalso. assert (is_Some (@tftp_socket_deliver _ ram_env packet (Some example_server) (started_request 2))) as Hx
        by (vm_compute; eauto). rewrite E in Hx. by destruct Hx. }
  assert (rtc (@download_step _ ram_env example_file 2 example_server) (started_request 2) s) as Hst.
  { apply rtc_once. apply (dl_block example_file 2 example_server (started_request 2) 2 rc s); done. }
  exists s. split; [exact Hst|].
  apply (@tftp_download_correct _ ram_env any id_data id_data ram_recipient example_file 2 ltac:(lia) ltac:(simpl; lia)
    ltac:(apply (bool_decide_unpack _); vm_compute; exact I)
    ltac:(simpl; lia) example_server ltac:(discriminate) (started_request 2) s).
  - reflexivity.
  - apply started_request_ok.
  - left. reflexivity.
  - exact Hst.
Defined.

(** ** The bitmap written out of range *)

Definition oack (options : list (list Z)) : list Z := be16 TFTP_OACK ++ concat (map (fun s => s ++ [0]) options).
Definition data_packet (block : Z) (data : list Z) : list Z := be16 TFTP_DATA ++ be16 block ++ data.

(** Packets of the example server in turn; [None]: a write out of range. *)
Fixpoint packets_in (ps : list (list Z)) (s : state (list Z)) : option (state (list Z)) :=
  match ps with
  | [] => Some s
  | p :: ps =>
    match @tftp_socket_deliver _ ram_env p (Some example_server) s with
    | Some (_, s) => packets_in ps s
    | None => None
    end
  end.

(** The bitmap is sized with the block size of the time.  A server that
    announces a file of 8192 bytes in blocks of 1024, and then acknowledges
    options again with a block size of one, makes the client write at a block
    number that the bitmap does not have: 8 blocks were allocated. *)
Example tftp_blksize_change_overflow :
  packets_in [oack [lit "blksize"; lit "1024"; lit "tsize"; lit "8192"]] (started_request 512) <> None /\
  packets_in [oack [lit "blksize"; lit "1024"; lit "tsize"; lit "8192"]; oack [lit "blksize"; lit "1"];
              data_packet 8000 [7]] (started_request 512) = None.
Proof. split; vm_compute; done. Qed.

(** The same happens for an empty file: nothing ever sizes the bitmap. *)
Example tftp_empty_file_overflow : packets_in [data_packet 1 []] (started_request 512) = None.
Proof. vm_compute. done. Qed.

(** A request that has received its first two blocks by MTFTP, and whose three
    attempts to reach the server again have timed out. *)
Definition mtftp_stalled : state (list Z) :=
  State (set_mtftp_timeouts 3 (set_filesize 1024 (set_tbitmap (Bitmap [3] 3 2)
           (new_request (lit "/boot") TFTP_FL_MTFTP_RECOVERY MTFTP_PORT)))) [].

(** Falling back from MTFTP to TFTP discards the bitmap but keeps the known
    file size, so the first block that arrives does not size the bitmap again
    and is marked in an array that has no words. *)
Example tftp_fallback_overflow :
  let s := @tftp_timer_expired _ ram_env false mtftp_stalled in
  port (req s) = TFTP_PORT /\ outcome (req s) = None /\
  packets_in [data_packet 1 (replicate 512 0)] s = None.
Proof. vm_compute. done. Qed.

(** A duplicate of the last block before the block number wraps, once that
    block has been acknowledged. *)
Definition wrapped : state (list Z) :=
  State (set_filesize 65535 (set_tbitmap (Bitmap (replicate 1023 (2 ^ 64 - 1) ++ [2 ^ 63 - 1]) 65536 65535)
           (req (started_request 1)))) (replicate (Z.to_nat 65535) 0).

(** A duplicate of block 65535 that arrives after it was acknowledged is
    taken for block 131071 and delivered 65536 blocks further on. *)
Example tftp_duplicate_before_wrap :
  match packets_in [data_packet 65535 [7]] wrapped with
  | Some s => world s !! Z.to_nat 65534 = Some 0 /\ world s !! Z.to_nat 131070 = Some 7 /\ filesize (req s) = 131071
  | None => False
  end.
Proof. vm_compute. done. Qed.

(** ** Requests *)

Lemma format_blksize v : 0 <= v <= TFTP_MAX_BLKSIZE -> (length (format_decimal (s64 v) 0 0) <= 4)%nat.
Proof.
  intros Hv. assert (forallb (fun k => bool_decide (length (format_decimal (s64 (Z.of_nat k)) 0 0) <= 4)%nat) (seq 0 1433) = true) as Ha
    by (vm_compute; reflexivity).
  rewrite forallb_forall in Ha. specialize (Ha (Z.to_nat v)). rewrite Z2Nat.id, bool_decide_eq_true in Ha by lia. apply Ha.
  apply in_seq. unfold TFTP_MAX_BLKSIZE in Hv. lia.
Qed.

Lemma iob_printf_spec len fmt args s iobuf :
  vcprintf fmt args = Some s -> (length iobuf + length s + 1 <= len)%nat -> Z.of_nat len < 2 ^ 31 ->
  iob_printf len fmt args iobuf = iobuf ++ s ++ [0].
Proof.
  intros Hs Hl Hlen. unfold iob_printf. rewrite (vsnprintf_value _ _ _ _ Hs). rewrite sext_small by lia.
  f_equal. assert (printed (replicate (len - length iobuf) 0) s = take (len - length iobuf - 1) s ++ 0 :: drop (S (length s)) (replicate (len - length iobuf) 0)) as ->.
  { unfold printed. rewrite length_replicate. destruct (len - length iobuf)%nat eqn:E; [lia|done]. }
  rewrite (take_ge s) by lia. rewrite (cons_middle 0 s), app_assoc. apply take_app_length'. rewrite length_app. simpl. lia.
Qed.

(** The read request that is sent: the opcode, the path and the mode, and
    the options that the flags ask for, each string with its terminator; it
    fits the buffer that was allocated for it. *)
Theorem tftp_rrq_correct path flags blksize :
  Z.of_nat (length path) < 2 ^ 31 - 64 -> 0 <= blksize <= TFTP_MAX_BLKSIZE ->
  let packet := rrq_packet path flags blksize in
  packet = be16 TFTP_RRQ ++ path ++ [0] ++ lit "octet" ++ [0] ++
    (if has flags TFTP_FL_RRQ_SIZES
     then lit "blksize" ++ [0] ++ format_decimal (s64 blksize) 0 0 ++ [0] ++ lit "tsize" ++ [0] ++ lit "0" ++ [0] else []) ++
    (if has flags TFTP_FL_RRQ_MULTICAST then lit "multicast" ++ [0] ++ [0] else []) /\
  (length packet <= rrq_len path)%nat.
Proof.
  intros Hp Hb. pose proof (format_blksize blksize Hb) as Hd. set (d := format_decimal (s64 blksize) 0 0) in *.
  assert (vcprintf (lit "%s%coctet") [VStr (Some path); VInt 0] = Some (path ++ [0] ++ lit "octet")) as E1.
  { change (vcprintf_loop 9 (37 :: 115 :: lit "%coctet") [VStr (Some path); VInt 0] = Some (path ++ [0] ++ lit "octet")).
    by rewrite vcprintf_s. }
  assert (vcprintf (lit "blksize%c%zd%ctsize%c0") [VInt 0; VInt blksize; VInt 0; VInt 0]
    = Some (lit "blksize" ++ [0] ++ d ++ [0] ++ lit "tsize" ++ [0] ++ lit "0")) as E2.
  { transitivity (app (lit "blksize" ++ [0]) <$> vcprintf_loop 14 (37 :: 122 :: 100 :: lit "%ctsize%c0") [VInt blksize; VInt 0; VInt 0]).
    - change (lit "blksize%c%zd%ctsize%c0") with ([98; 108; 107; 115; 105; 122; 101] ++ 37 :: 99 :: lit "%zd%ctsize%c0").
      unfold vcprintf. cbn [app length]. rewrite !vcprintf_plain, vcprintf_c by done.
      change (length (lit "%zd%ctsize%c0")) with 13%nat. change (lit "%zd%ctsize%c0") with (37 :: 122 :: 100 :: lit "%ctsize%c0").
      by destruct (vcprintf_loop _ _ _).
    - rewrite (vcprintf_zd _ _ _ _ d) by (done || lia). reflexivity. }
  unfold rrq_packet. cbv zeta. set (len := rrq_len path).
  assert (Z.of_nat len < 2 ^ 31 /\ (len = length path + 42)%nat) as [Hlen Elen] by (unfold len, rrq_len; lia).
  rewrite (iob_printf_spec len _ _ _ (be16 TFTP_RRQ) E1); [|rewrite !length_app; cbn; lia|done].
  set (r1 := be16 TFTP_RRQ ++ (path ++ [0] ++ lit "octet") ++ [0]).
  assert (length r1 = (length path + 9)%nat) as L1 by (unfold r1; rewrite !length_app; cbn; lia).
  destruct (has flags TFTP_FL_RRQ_SIZES).
  - rewrite (iob_printf_spec len _ _ _ r1 E2); [|rewrite L1, !length_app; cbn; lia|done].
    destruct (has flags TFTP_FL_RRQ_MULTICAST).
    + rewrite (iob_printf_spec len _ _ (lit "multicast" ++ [0])); [|done|rewrite !length_app, L1; cbn; lia|done].
      split; [unfold r1; by rewrite <- ?app_assoc|]. rewrite !length_app, L1. cbn. lia.
    + split; [unfold r1; by rewrite <- ?app_assoc, ?app_nil_r|].
      rewrite !length_app, L1. cbn. lia.
  - destruct (has flags TFTP_FL_RRQ_MULTICAST).
    + rewrite (iob_printf_spec len _ _ (lit "multicast" ++ [0])); [|done|rewrite L1; cbn; lia|done].
      split; [unfold r1; by rewrite <- ?app_assoc, ?app_nil_r|]. rewrite !length_app, L1. cbn. lia.
    + split; [unfold r1; by rewrite <- ?app_assoc, ?app_nil_r|]. lia.
Qed.

Lemma tftp_rrq_correct_witness :
  rrq_packet (lit "boot") TFTP_FL_RRQ_SIZES 1432
  = [0; 1] ++ lit "boot" ++ [0] ++ lit "octet" ++ [0] ++ lit "blksize" ++ [0] ++ lit "1432" ++ [0] ++ lit "tsize" ++ [0] ++ lit "0" ++ [0].
Proof.
  destruct (tftp_rrq_correct (lit "boot") TFTP_FL_RRQ_SIZES 1432) as [E _]; [vm_compute; reflexivity|vm_compute; done|].
  rewrite E. vm_compute. reflexivity.
Defined.
