(* ===== verification/Downloader.v ===== *)
(** * The image downloader (core/downloader.c)

    A downloader receives a file on its data transfer interface into the data
    of an image, and finishes its job when that interface is closed.
    [image_env] puts it at the receiving end of a TFTP request: with the
    contract of Recipient discharged by the buffer of XferBuf, the theorems
    of TftpDownload become statements about the image.

    The buffer is initialised on the image's own pointer, so the image's data
    is the array of the buffer.  [dl_plugged] says whether the data transfer
    interface is still connected.  A downloader that finishes of its own accord
    closes the interface towards the sender; the sender of a failed delivery
    learns of it from the status code. *)

From S2P Require Import Prelude CMem Strings Bitmap Retry XferBuf Tftp TftpDownload.

Record downloader := Downloader {
  dl_buffer : xfer_buffer;
  image_len : Z;
  dl_plugged : bool;
  dl_job : option (result unit);
}.

Section downloader.
Context (urealloc : list Z -> Z -> option (list Z)).

Definition downloader_finished (rc : result unit) (d : downloader) : downloader :=
  Downloader (dl_buffer d) (xb_len (dl_buffer d)) false
    (match dl_job d with None => Some rc | outcome => outcome end).

Definition downloader_deliver (iobuf : list Z) (meta : xfer_metadata) (d : downloader) : result unit * downloader :=
  match xferbuf_deliver urealloc (dl_buffer d) iobuf meta with
  | (Ok _, buffer) => (Ok tt, Downloader buffer (image_len d) (dl_plugged d) (dl_job d))
  | (Err rc, buffer) =>
    (Err rc, downloader_finished (Err rc) (Downloader buffer (image_len d) (dl_plugged d) (dl_job d)))
  end.

(** [xfer_progress] is what the sender reports: a status, and the amounts
    completed and in total. *)
Definition downloader_progress (xfer_progress : result (Z * Z)) (d : downloader) : result (Z * Z) :=
  match xfer_progress with
  | Err rc => Err rc
  | Ok (completed, total) =>
    if decide (total = 0) then Ok (xb_pos (dl_buffer d), xb_len (dl_buffer d)) else Ok (completed, total)
  end.

(** A redirection to a URI sets the URI of the image first; [set_uri] and
    [reopened] are the answers of [image_set_uri] and [xfer_vreopen]. *)
Definition downloader_vredirect (to_uri : bool) (set_uri reopened : result unit) (d : downloader) : result unit * downloader :=
  let rc := if to_uri then match set_uri with Err rc => Err rc | Ok _ => reopened end else reopened in
  match rc with
  | Err rc => (Err rc, downloader_finished (Err rc) d)
  | Ok _ => (Ok tt, d)
  end.

(** [opened] is the answer of [xfer_open_uri]; the job's interface is attached
    only after that succeeded. *)
Definition create_downloader (allocated : bool) (opened : result unit) : result unit * option downloader :=
  if negb allocated then (Err ENOMEM, None) else
  let d := Downloader xferbuf_init 0 true None in
  match opened with
  | Err rc => (Err rc, Some (downloader_finished (Err rc) d))
  | Ok _ => (Ok tt, Some d)
  end.

(** [xfer_deliver] on the sender's interface: a destination that has been
    unplugged takes no data. *)
Definition deliver_to_downloader (iobuf : list Z) (meta : xfer_metadata) (d : downloader) : result unit * downloader :=
  if dl_plugged d then downloader_deliver iobuf meta d else (Err EPIPE, d).

Definition image_data (d : downloader) : list Z := take (Z.to_nat (image_len d)) (xb_data (dl_buffer d)).

(** ** A downloader behind a TFTP request *)

Context {V : Type} (base : TftpEnv V).

Definition image_deliver (iobuf : list Z) (meta : xfer_metadata) (w : V * downloader) : result unit * (V * downloader) :=
  let '(rc, d) := deliver_to_downloader iobuf meta (snd w) in (rc, (fst w, d)).

Definition on_base {A} (f : V -> A * V) (w : V * downloader) : A * (V * downloader) :=
  let '(a, v) := f (fst w) in (a, (v, snd w)).

Definition image_env : TftpEnv (V * downloader) := {|
  currticks w := currticks (fst w);
  socket_window w := socket_window (fst w);
  xfer_window _ := 2 ^ 64 - 1;
  xfer_alloc_iob len := on_base (xfer_alloc_iob len);
  socket_deliver packet dest := on_base (socket_deliver packet dest);
  xfer_deliver data off := image_deliver data (Meta XFER_FL_ABS_OFFSET off);
  xfer_seek offset w := snd (XferBuf.xfer_seek (fun len => on_base (xfer_alloc_iob len)) image_deliver offset w);
  intf_restart i w := (intf_restart i (fst w), snd w);
  open_named_socket p := on_base (open_named_socket p);
  open_mc_socket local := on_base (open_mc_socket local);
  intf_shutdown rc w :=
    (intf_shutdown rc (fst w), if dl_plugged (snd w) then downloader_finished rc (snd w) else snd w);
  realloc := realloc;
|}.

(** ** The contract *)

Definition downloading (w : V * downloader) : Prop := dl_plugged (snd w) = true /\ xferbuf_ok (dl_buffer (snd w)).
Definition buffered (w : V * downloader) : list Z := xb_data (dl_buffer (snd w)).
Definition image_of (w : V * downloader) : list Z := image_data (snd w).

Context (urealloc_ok : realloc_contract 8 urealloc) (realloc_ok : realloc_contract 64 (@realloc V base)).

Lemma image_deliver_spec data off w :
  downloading w -> bytes data -> in_width 64 off -> Z.of_nat (length data) < 2 ^ 64 ->
  match image_deliver data (Meta XFER_FL_ABS_OFFSET off) w with
  | (Ok _, w') => downloading w' /\ written off data (buffered w) (buffered w')
  | (Err e, w') => 2 ^ 64 <= off + Z.of_nat (length data) \/
      xb_len (dl_buffer (snd w)) < off + Z.of_nat (length data) /\ exists l m, urealloc l m = None
  end.
Proof.
  intros [Hp Hb] Hd Ho Hl. unfold image_deliver, deliver_to_downloader, downloader_deliver. rewrite Hp.
  pose proof (xferbuf_deliver_spec urealloc urealloc_ok (dl_buffer (snd w)) data (Meta XFER_FL_ABS_OFFSET off) Hb Hd Hl) as Hs.
  cbv zeta in Hs. replace (delivery_pos _ _) with off in Hs by (unfold delivery_pos; simpl; rewrite wrap_small; zlia).
  destruct (xferbuf_deliver _ _ _ _) as [[[]|e] b'].
  - destruct Hs as (S1 & S2 & _). done.
  - destruct Hs as (_ & [[_ ?]|(_ & ? & ?)]); [by left|right]. split; [done|]. by eexists _, _.
Qed.

(** Seeking inside the buffer delivers nothing and moves the position only. *)
Lemma image_seek_keeps m w :
  downloading w -> 0 <= m <= Z.of_nat (length (buffered w)) ->
  downloading (@xfer_seek _ image_env m w) /\ buffered (@xfer_seek _ image_env m w) = buffered w.
Proof.
  intros Hw Hm. cbn [xfer_seek image_env]. unfold XferBuf.xfer_seek, on_base. destruct (xfer_alloc_iob 0 (fst w)) as [[] v]; [|done].
  cbn [negb]. pose proof Hw as (_ & _ & Hlen & Hmax & _). unfold buffered in Hm.
  pose proof (image_deliver_spec [] m (v, snd w) Hw ltac:(constructor) ltac:(zlia) ltac:(simpl; lia)) as Hs.
  destruct (image_deliver _ _ _) as [[[]|e] w'].
  - destruct Hs as (S1 & W1 & _ & W3). split; [done|]. unfold buffered in *. cbn [snd] in *. simpl in W1. cbn [snd].
    apply list_eq. intros i. destruct (decide (i < length (xb_data (dl_buffer (snd w))))%nat) as [Hi|Hi].
    + specialize (W3 (Z.of_nat i)). rewrite Nat2Z.id in W3. apply W3; simpl; lia.
    + rewrite !lookup_ge_None_2 by lia. done.
  - exfalso. simpl in Hs. destruct Hs as [?|[? _]]; lia.
Qed.

#[export] Instance image_recipient : @Recipient _ image_env downloading buffered image_of.
Proof.
  split.
  - intros data off w w' Hw Hd Ho Hl E. pose proof (image_deliver_spec data off w Hw Hd ltac:(zlia) ltac:(lia)) as Hs.
    cbn [xfer_deliver image_env] in E. by rewrite E in Hs.
  - apply image_seek_keeps.
  - intros m w Hw. cbn [xfer_alloc_iob image_env]. unfold on_base. by destruct (xfer_alloc_iob m (fst w)).
  - intros p a w Hw. cbn [socket_deliver image_env]. unfold on_base. by destruct (socket_deliver p a (fst w)).
  - intros rc w [Hp (_ & Hl & _)]. cbn [intf_shutdown image_env]. rewrite Hp. unfold image_of, image_data, buffered. cbn [snd].
    cbn [downloader_finished image_len dl_buffer]. rewrite firstn_all2; [done|]. lia.
  - done.
Qed.
End downloader.

(** ** From opening the request to the image *)

Section image.
Context {V : Type} (base : TftpEnv V) (urealloc : list Z -> Z -> option (list Z)) (file : list Z) (server : sockaddr).
Context (urealloc_ok : realloc_contract 8 urealloc) (realloc_ok : realloc_contract 64 (@realloc V base)).
Context (file_nonempty : 0 < Z.of_nat (length file)) (file_bytes : bytes file).
Context (file_small : Z.of_nat (length file) + TFTP_DEFAULT_BLKSIZE + 64 < 2 ^ 32) (server_family : sa_family server <> 0).

Abbreviation env := (image_env urealloc base).
Abbreviation B := TFTP_DEFAULT_BLKSIZE.

(** A request that has just been opened is ready for the first block. *)
Lemma opened_ok host path port v d0 s0 w0 :
  create_downloader true (Ok tt) = (Ok tt, Some d0) ->
  @tftp_open _ env host path true port (v, d0) = (Ok tt, Some s0, w0) ->
  outcome (req s0) = None /\ download_ok downloading buffered file B s0 /\ from_server server s0 /\
  forall k, bitmap_test (tbitmap (req s0)) k = false.
Proof.
  intros [= <-]. unfold tftp_open, tftp_core_open. destruct host; [|done]. destruct path as [[|c rest]|]; [done| |done].
  destruct (decide (c = 47)) as [->|Hc].
  2:{ repeat case_match; intros; simplify_eq. }
  cbn [negb]. unfold tftp_reopen. cbn [updw upd req world open_named_socket env intf_restart image_env]. unfold on_base.
  destruct (open_named_socket _ _) as [rc v1]. destruct rc as [[]|e]; [|by intros [=]]. intros [= <- _].
  assert (forall k, bitmap_test (Bitmap [] 0 0) k = false) as Hbits.
  { intros k. unfold bitmap_test. cbn [blength blocks]. destruct (decide (k >= 0)); [done|]. by destruct (Z.to_nat (BITMAP_INDEX k)). }
  refine (conj eq_refl (conj _ (conj (or_introl eq_refl) Hbits))).
  unfold download_ok, world_ok. cbn [upd updw req world set_timer set_peer set_flags new_request blksize tbitmap filesize].
  refine (conj (conj (conj eq_refl _) _) (conj eq_refl (conj empty_bitmap_ok (conj _ (conj eq_refl _))))).
  - split_and!; [constructor|done..].
  - simpl. lia.
  - lia.
  - intros k Hk Ht. by rewrite Hbits in Ht.
Qed.

Lemma image_accepts :
  (forall l m, urealloc l m <> None) -> forall data off w,
  downloading w -> bytes data -> in_width 32 off -> Z.of_nat (length data) < 2 ^ 32 ->
  fst (@xfer_deliver _ env data off w) = Ok tt.
Proof.
  intros Hu data off w Hw Hd Ho Hl. pose proof (image_deliver_spec urealloc urealloc_ok data off w Hw Hd ltac:(zlia) ltac:(lia)) as Hs.
  cbn [xfer_deliver image_env]. destruct (image_deliver _ _ _ _) as [[[]|e] w']; [done|]. exfalso.
  destruct Hs as [?|[_ (l & m & ?)]]; [zlia|by apply (Hu l m)].
Qed.

(** C1: an image downloaded by TFTP.  A new downloader opens a TFTP request,
    and a server that ignores the options sends the blocks of its file, which
    is not empty and shorter than 2^32 bytes.  The blocks come in any order and
    any number of times, as long as each lies in the run of 2^16 block numbers
    of the next one that is wanted; errors and packets that make no sense from
    the server, packets of others once the server has answered, and timeouts
    come in between.  If the request then succeeds the image holds exactly the
    file.  If moreover memory suffices and the block numbers do not wrap, the
    request does succeed once every block has arrived.  An acknowledgement of
    options by the server is not covered, nor is an empty file or a duplicate
    from before the wrap of the block numbers: there the client writes outside
    its bitmap or misplaces data ([tftp_blksize_change_overflow],
    [tftp_empty_file_overflow], [tftp_duplicate_before_wrap]). *)
Theorem tftp_image_correct host path port v d0 s0 w0 :
  create_downloader true (Ok tt) = (Ok tt, Some d0) ->
  @tftp_open _ env host path true port (v, d0) = (Ok tt, Some s0, w0) ->
  (forall s, rtc (@download_step _ env file B server) s0 s -> outcome (req s) = Some (Ok tt) -> image_of (world s) = file) /\
  ((forall l m, urealloc l m <> None) -> (forall l m, @realloc _ base l m <> None) ->
   Z.of_nat (length file) / B + 2 < 2 ^ 16 ->
   forall ks, (forall k, k ∈ ks <-> 0 <= k <= Z.of_nat (length file) / B) ->
   exists s, @receive _ env file B server ks s0 = Some s /\ outcome (req s) = Some (Ok tt) /\ image_of (world s) = file).
Proof.
  intros Hd Ho. destruct (opened_ok _ _ _ _ _ _ _ Hd Ho) as (O1 & O2 & O3 & O4).
  pose proof (image_recipient urealloc base urealloc_ok realloc_ok) as Hrec. split.
  - intros s Hst E. assert (request_ok downloading buffered image_of file B server s) as Hs.
    { assert (request_ok downloading buffered image_of file B server s0) as H0 by (unfold request_ok; by rewrite O1).
      clear O1 O2 O3 O4 Ho E. induction Hst; [done|]. eapply IHHst, request_ok_step; try done; eauto. }
    unfold request_ok in Hs. by rewrite E in Hs.
  - intros Hu Hr Hrun ks Hks.
    apply (@receive_completes _ env downloading buffered image_of Hrec file B); try done.
    + by apply image_accepts.
    + intros k _ Hk. by rewrite O4 in Hk.
    + intros k. apply Hks.
    + intros k Hk. left. by apply Hks.
Qed.
End image.

Definition two_blocks : list Z := replicate 512 1 ++ replicate 88 2.
Definition fresh_downloader : downloader := Downloader xferbuf_init 0 true None.
Definition opened_request : state (list Z * downloader) :=
  match snd (fst (@tftp_open _ (image_env zero_realloc ram_env) (Some (lit "host")) (Some (lit "/boot")) true 69 ([], fresh_downloader))) with
  | Some s => s
  | None => State (new_request [] 0 0) ([], fresh_downloader)
  end.

Lemma tftp_image_correct_witness :
  exists s, @receive _ (image_env zero_realloc ram_env) two_blocks 512 example_server [1; 0; 1] opened_request = Some s /\
    image_of (world s) = two_blocks.
Proof.
  destruct (tftp_image_correct ram_env zero_realloc two_blocks example_server
    (zero_realloc_ok 8 ltac:(lia)) (zero_realloc_ok 64 ltac:(lia)) ltac:(vm_compute; reflexivity)
    ltac:(apply (bool_decide_unpack _); vm_compute; exact I) ltac:(vm_compute; reflexivity) ltac:(discriminate)
    (Some (lit "host")) (Some (lit "/boot")) 69 [] fresh_downloader opened_request (world opened_request)) as [_ H].
  - reflexivity.
  - reflexivity.
  - destruct (H ltac:(discriminate) ltac:(discriminate) ltac:(vm_compute; reflexivity) [1; 0; 1]) as (s & H1 & _ & H2).
    + intros k. change (Z.of_nat (length two_blocks) / TFTP_DEFAULT_BLKSIZE) with 1. rewrite !elem_of_cons, elem_of_nil. lia.
    + exists s. split; [exact H1|exact H2].
Defined.
