(* ===== verification/Tcp.v ===== *)
(** * TCP (net/tcp.c, include/ipxe/tcp.h)

    One connection is the record [tcp_connection] with the fields of the
    source; handlers pass a state made of the connection and of the rest of
    the firmware, of type [W].  What TCP calls outside net/tcp.c is the class
    [TcpEnv]: the allocator, the network layer, the clock and the data transfer
    interface of the application.  Callbacks that may call back into the
    connection (delivery of data, allocation, which may discard queued packets,
    and the window notification) act on the whole state.

    An I/O buffer is the list of its data bytes.  The internal header that
    replaces the TCP header of a queued packet is the record [rx_entry].
    Packets are built and parsed as bytes; multi-byte header fields are
    big-endian, and the checksum is stored as the little-endian host stores it.
    Timers are the records of Retry.  Reference counting is left to Retry, the
    global total of pending operations and the previous state kept for debug
    messages are left out, [listed] says whether the connection is on the list
    of registered connections. *)

From S2P Require Import Prelude CMem Tcpip Retry.

(** ** Constants *)

Definition TCP_FIN : Z := 1.
Definition TCP_SYN : Z := 2.
Definition TCP_RST : Z := 4.
Definition TCP_PSH : Z := 8.
Definition TCP_ACK : Z := 16.
Definition TCP_XFER_CLOSED : Z := 1.
Definition TCP_TS_ENABLED : Z := 2.
Definition TCP_ACK_PENDING : Z := 4.
Definition TCP_SACK_ENABLED : Z := 8.
Definition TCP_OPTION_END : Z := 0.
Definition TCP_OPTION_NOP : Z := 1.
Definition TCP_OPTION_MSS : Z := 2.
Definition TCP_OPTION_WS : Z := 3.
Definition TCP_OPTION_SACK_PERMITTED : Z := 4.
Definition TCP_OPTION_SACK : Z := 5.
Definition TCP_OPTION_TS : Z := 8.
Definition TCP_RX_WINDOW_SCALE : Z := 9.
Definition TCP_SACK_MAX : Z := 3.
Definition TCP_MASK_HLEN : Z := 240.
Definition TCP_MAX_WINDOW_SIZE : Z := 256 * 1024.
Definition TCP_PATH_MTU : Z := 1280 - 40 - 20 - 12.
Definition TCP_MSL : Z := 2 * 60 * TICKS_PER_SEC.
Definition TCP_KEEPALIVE_DELAY : Z := 15 * TICKS_PER_SEC.
Definition TCP_FINISH_TIMEOUT : Z := 1 * TICKS_PER_SEC.
Definition TCP_MAX_HEADER_LEN : Z := 64 + 40 + 20 + 4 + 4 + 12.

Definition TCP_STATE_SENT (flags : Z) : Z := flags.
Definition TCP_STATE_ACKED (flags : Z) : Z := Z.shiftl flags 8.
Definition TCP_STATE_RCVD (flags : Z) : Z := Z.shiftl flags 16.
Definition TCP_FLAGS_SENT (state : Z) : Z := Z.land state 255.
Definition TCP_FLAGS_ACKED (state : Z) : Z := Z.land (Z.shiftr state 8) 255.
Definition TCP_FLAGS_RCVD (state : Z) : Z := Z.land (Z.shiftr state 16) 255.
Definition TCP_FLAGS_SENDING (state : Z) : Z := Z.land (TCP_FLAGS_SENT state) (Z.lnot (TCP_FLAGS_ACKED state)).

Definition TCP_CLOSED : Z := TCP_RST.
Definition TCP_SYN_SENT : Z := TCP_STATE_SENT TCP_SYN.
Definition TCP_SYN_RCVD : Z := Z.lor (TCP_STATE_SENT (Z.lor TCP_SYN TCP_ACK)) (TCP_STATE_RCVD TCP_SYN).
Definition TCP_ESTABLISHED : Z := Z.lor TCP_SYN_RCVD (TCP_STATE_ACKED TCP_SYN).
Definition TCP_FIN_WAIT_1 : Z := Z.lor TCP_ESTABLISHED (TCP_STATE_SENT TCP_FIN).
Definition TCP_FIN_WAIT_2 : Z := Z.lor TCP_FIN_WAIT_1 (TCP_STATE_ACKED TCP_FIN).
Definition TCP_CLOSING_OR_LAST_ACK : Z := Z.lor TCP_FIN_WAIT_1 (TCP_STATE_RCVD TCP_FIN).
Definition TCP_TIME_WAIT : Z := Z.lor TCP_FIN_WAIT_2 (TCP_STATE_RCVD TCP_FIN).
Definition TCP_CLOSE_WAIT : Z := Z.lor TCP_ESTABLISHED (TCP_STATE_RCVD TCP_FIN).

(** [if ( x & bits )] *)
Definition has (x bits : Z) : bool := bool_decide (Z.land x bits <> 0).

Definition TCP_CAN_SEND_DATA (state : Z) : bool :=
  bool_decide (Z.land state (Z.lor (TCP_STATE_ACKED TCP_SYN) (TCP_STATE_SENT TCP_FIN)) = TCP_STATE_ACKED TCP_SYN).
Definition TCP_HAS_BEEN_ESTABLISHED (state : Z) : bool :=
  let bits := Z.lor (TCP_STATE_ACKED TCP_SYN) (TCP_STATE_RCVD TCP_SYN) in bool_decide (Z.land state bits = bits).
Definition TCP_CLOSED_GRACEFULLY (state : Z) : bool :=
  let bits := Z.lor (TCP_STATE_ACKED TCP_FIN) (TCP_STATE_RCVD TCP_FIN) in bool_decide (Z.land state bits = bits).

Definition tcp_cmp (seq1 seq2 : Z) : Z := s32 (seq1 - seq2).
Definition tcp_in_window (seq start len : Z) : bool := bool_decide (u32 (seq - start) < len).

(** ** The connection *)

Record rx_entry := RxEntry {
  q_seq : Z;
  q_nxt : Z;
  q_flags : Z;
  q_data : list Z;
}.

Record tcp_connection := Tcp {
  cflags : Z;
  peer : sockaddr_tcpip;
  local_port : Z;
  mss : Z;
  tcp_state : Z;
  snd_seq : Z;
  snd_sent : Z;
  snd_win : Z;
  rcv_ack : Z;
  rcv_win : Z;
  ts_val : Z;
  ts_recent : Z;
  snd_win_scale : Z;
  rcv_win_scale : Z;
  sack : list (Z * Z);
  tx_queue : list (list Z);
  rx_queue : list rx_entry;
  process_running : bool;
  timer : retry_timer;
  keepalive : retry_timer;
  wait : retry_timer;
  pending_flags : Z;
  pending_data : Z;
  listed : bool;
}.

Definition set_cflags (v : Z) (c : tcp_connection) : tcp_connection :=
  Tcp v (peer c) (local_port c) (mss c) (tcp_state c) (snd_seq c) (snd_sent c) (snd_win c) (rcv_ack c) (rcv_win c) (ts_val c) (ts_recent c) (snd_win_scale c) (rcv_win_scale c) (sack c) (tx_queue c) (rx_queue c) (process_running c) (timer c) (keepalive c) (wait c) (pending_flags c) (pending_data c) (listed c).
Definition set_peer (v : sockaddr_tcpip) (c : tcp_connection) : tcp_connection :=
  Tcp (cflags c) v (local_port c) (mss c) (tcp_state c) (snd_seq c) (snd_sent c) (snd_win c) (rcv_ack c) (rcv_win c) (ts_val c) (ts_recent c) (snd_win_scale c) (rcv_win_scale c) (sack c) (tx_queue c) (rx_queue c) (process_running c) (timer c) (keepalive c) (wait c) (pending_flags c) (pending_data c) (listed c).
Definition set_local_port (v : Z) (c : tcp_connection) : tcp_connection :=
  Tcp (cflags c) (peer c) v (mss c) (tcp_state c) (snd_seq c) (snd_sent c) (snd_win c) (rcv_ack c) (rcv_win c) (ts_val c) (ts_recent c) (snd_win_scale c) (rcv_win_scale c) (sack c) (tx_queue c) (rx_queue c) (process_running c) (timer c) (keepalive c) (wait c) (pending_flags c) (pending_data c) (listed c).
Definition set_mss (v : Z) (c : tcp_connection) : tcp_connection :=
  Tcp (cflags c) (peer c) (local_port c) v (tcp_state c) (snd_seq c) (snd_sent c) (snd_win c) (rcv_ack c) (rcv_win c) (ts_val c) (ts_recent c) (snd_win_scale c) (rcv_win_scale c) (sack c) (tx_queue c) (rx_queue c) (process_running c) (timer c) (keepalive c) (wait c) (pending_flags c) (pending_data c) (listed c).
Definition set_tcp_state (v : Z) (c : tcp_connection) : tcp_connection :=
  Tcp (cflags c) (peer c) (local_port c) (mss c) v (snd_seq c) (snd_sent c) (snd_win c) (rcv_ack c) (rcv_win c) (ts_val c) (ts_recent c) (snd_win_scale c) (rcv_win_scale c) (sack c) (tx_queue c) (rx_queue c) (process_running c) (timer c) (keepalive c) (wait c) (pending_flags c) (pending_data c) (listed c).
Definition set_snd_seq (v : Z) (c : tcp_connection) : tcp_connection :=
  Tcp (cflags c) (peer c) (local_port c) (mss c) (tcp_state c) v (snd_sent c) (snd_win c) (rcv_ack c) (rcv_win c) (ts_val c) (ts_recent c) (snd_win_scale c) (rcv_win_scale c) (sack c) (tx_queue c) (rx_queue c) (process_running c) (timer c) (keepalive c) (wait c) (pending_flags c) (pending_data c) (listed c).
Definition set_snd_sent (v : Z) (c : tcp_connection) : tcp_connection :=
  Tcp (cflags c) (peer c) (local_port c) (mss c) (tcp_state c) (snd_seq c) v (snd_win c) (rcv_ack c) (rcv_win c) (ts_val c) (ts_recent c) (snd_win_scale c) (rcv_win_scale c) (sack c) (tx_queue c) (rx_queue c) (process_running c) (timer c) (keepalive c) (wait c) (pending_flags c) (pending_data c) (listed c).
Definition set_snd_win (v : Z) (c : tcp_connection) : tcp_connection :=
  Tcp (cflags c) (peer c) (local_port c) (mss c) (tcp_state c) (snd_seq c) (snd_sent c) v (rcv_ack c) (rcv_win c) (ts_val c) (ts_recent c) (snd_win_scale c) (rcv_win_scale c) (sack c) (tx_queue c) (rx_queue c) (process_running c) (timer c) (keepalive c) (wait c) (pending_flags c) (pending_data c) (listed c).
Definition set_rcv_ack (v : Z) (c : tcp_connection) : tcp_connection :=
  Tcp (cflags c) (peer c) (local_port c) (mss c) (tcp_state c) (snd_seq c) (snd_sent c) (snd_win c) v (rcv_win c) (ts_val c) (ts_recent c) (snd_win_scale c) (rcv_win_scale c) (sack c) (tx_queue c) (rx_queue c) (process_running c) (timer c) (keepalive c) (wait c) (pending_flags c) (pending_data c) (listed c).
Definition set_rcv_win (v : Z) (c : tcp_connection) : tcp_connection :=
  Tcp (cflags c) (peer c) (local_port c) (mss c) (tcp_state c) (snd_seq c) (snd_sent c) (snd_win c) (rcv_ack c) v (ts_val c) (ts_recent c) (snd_win_scale c) (rcv_win_scale c) (sack c) (tx_queue c) (rx_queue c) (process_running c) (timer c) (keepalive c) (wait c) (pending_flags c) (pending_data c) (listed c).
Definition set_ts_val (v : Z) (c : tcp_connection) : tcp_connection :=
  Tcp (cflags c) (peer c) (local_port c) (mss c) (tcp_state c) (snd_seq c) (snd_sent c) (snd_win c) (rcv_ack c) (rcv_win c) v (ts_recent c) (snd_win_scale c) (rcv_win_scale c) (sack c) (tx_queue c) (rx_queue c) (process_running c) (timer c) (keepalive c) (wait c) (pending_flags c) (pending_data c) (listed c).
Definition set_ts_recent (v : Z) (c : tcp_connection) : tcp_connection :=
  Tcp (cflags c) (peer c) (local_port c) (mss c) (tcp_state c) (snd_seq c) (snd_sent c) (snd_win c) (rcv_ack c) (rcv_win c) (ts_val c) v (snd_win_scale c) (rcv_win_scale c) (sack c) (tx_queue c) (rx_queue c) (process_running c) (timer c) (keepalive c) (wait c) (pending_flags c) (pending_data c) (listed c).
Definition set_snd_win_scale (v : Z) (c : tcp_connection) : tcp_connection :=
  Tcp (cflags c) (peer c) (local_port c) (mss c) (tcp_state c) (snd_seq c) (snd_sent c) (snd_win c) (rcv_ack c) (rcv_win c) (ts_val c) (ts_recent c) v (rcv_win_scale c) (sack c) (tx_queue c) (rx_queue c) (process_running c) (timer c) (keepalive c) (wait c) (pending_flags c) (pending_data c) (listed c).
Definition set_rcv_win_scale (v : Z) (c : tcp_connection) : tcp_connection :=
  Tcp (cflags c) (peer c) (local_port c) (mss c) (tcp_state c) (snd_seq c) (snd_sent c) (snd_win c) (rcv_ack c) (rcv_win c) (ts_val c) (ts_recent c) (snd_win_scale c) v (sack c) (tx_queue c) (rx_queue c) (process_running c) (timer c) (keepalive c) (wait c) (pending_flags c) (pending_data c) (listed c).
Definition set_sack (v : list (Z * Z)) (c : tcp_connection) : tcp_connection :=
  Tcp (cflags c) (peer c) (local_port c) (mss c) (tcp_state c) (snd_seq c) (snd_sent c) (snd_win c) (rcv_ack c) (rcv_win c) (ts_val c) (ts_recent c) (snd_win_scale c) (rcv_win_scale c) v (tx_queue c) (rx_queue c) (process_running c) (timer c) (keepalive c) (wait c) (pending_flags c) (pending_data c) (listed c).
Definition set_tx_queue (v : list (list Z)) (c : tcp_connection) : tcp_connection :=
  Tcp (cflags c) (peer c) (local_port c) (mss c) (tcp_state c) (snd_seq c) (snd_sent c) (snd_win c) (rcv_ack c) (rcv_win c) (ts_val c) (ts_recent c) (snd_win_scale c) (rcv_win_scale c) (sack c) v (rx_queue c) (process_running c) (timer c) (keepalive c) (wait c) (pending_flags c) (pending_data c) (listed c).
Definition set_rx_queue (v : list rx_entry) (c : tcp_connection) : tcp_connection :=
  Tcp (cflags c) (peer c) (local_port c) (mss c) (tcp_state c) (snd_seq c) (snd_sent c) (snd_win c) (rcv_ack c) (rcv_win c) (ts_val c) (ts_recent c) (snd_win_scale c) (rcv_win_scale c) (sack c) (tx_queue c) v (process_running c) (timer c) (keepalive c) (wait c) (pending_flags c) (pending_data c) (listed c).
Definition set_process_running (v : bool) (c : tcp_connection) : tcp_connection :=
  Tcp (cflags c) (peer c) (local_port c) (mss c) (tcp_state c) (snd_seq c) (snd_sent c) (snd_win c) (rcv_ack c) (rcv_win c) (ts_val c) (ts_recent c) (snd_win_scale c) (rcv_win_scale c) (sack c) (tx_queue c) (rx_queue c) v (timer c) (keepalive c) (wait c) (pending_flags c) (pending_data c) (listed c).
Definition set_timer (v : retry_timer) (c : tcp_connection) : tcp_connection :=
  Tcp (cflags c) (peer c) (local_port c) (mss c) (tcp_state c) (snd_seq c) (snd_sent c) (snd_win c) (rcv_ack c) (rcv_win c) (ts_val c) (ts_recent c) (snd_win_scale c) (rcv_win_scale c) (sack c) (tx_queue c) (rx_queue c) (process_running c) v (keepalive c) (wait c) (pending_flags c) (pending_data c) (listed c).
Definition set_keepalive (v : retry_timer) (c : tcp_connection) : tcp_connection :=
  Tcp (cflags c) (peer c) (local_port c) (mss c) (tcp_state c) (snd_seq c) (snd_sent c) (snd_win c) (rcv_ack c) (rcv_win c) (ts_val c) (ts_recent c) (snd_win_scale c) (rcv_win_scale c) (sack c) (tx_queue c) (rx_queue c) (process_running c) (timer c) v (wait c) (pending_flags c) (pending_data c) (listed c).
Definition set_wait (v : retry_timer) (c : tcp_connection) : tcp_connection :=
  Tcp (cflags c) (peer c) (local_port c) (mss c) (tcp_state c) (snd_seq c) (snd_sent c) (snd_win c) (rcv_ack c) (rcv_win c) (ts_val c) (ts_recent c) (snd_win_scale c) (rcv_win_scale c) (sack c) (tx_queue c) (rx_queue c) (process_running c) (timer c) (keepalive c) v (pending_flags c) (pending_data c) (listed c).
Definition set_pending_flags (v : Z) (c : tcp_connection) : tcp_connection :=
  Tcp (cflags c) (peer c) (local_port c) (mss c) (tcp_state c) (snd_seq c) (snd_sent c) (snd_win c) (rcv_ack c) (rcv_win c) (ts_val c) (ts_recent c) (snd_win_scale c) (rcv_win_scale c) (sack c) (tx_queue c) (rx_queue c) (process_running c) (timer c) (keepalive c) (wait c) v (pending_data c) (listed c).
Definition set_pending_data (v : Z) (c : tcp_connection) : tcp_connection :=
  Tcp (cflags c) (peer c) (local_port c) (mss c) (tcp_state c) (snd_seq c) (snd_sent c) (snd_win c) (rcv_ack c) (rcv_win c) (ts_val c) (ts_recent c) (snd_win_scale c) (rcv_win_scale c) (sack c) (tx_queue c) (rx_queue c) (process_running c) (timer c) (keepalive c) (wait c) (pending_flags c) v (listed c).
Definition set_listed (v : bool) (c : tcp_connection) : tcp_connection :=
  Tcp (cflags c) (peer c) (local_port c) (mss c) (tcp_state c) (snd_seq c) (snd_sent c) (snd_win c) (rcv_ack c) (rcv_win c) (ts_val c) (ts_recent c) (snd_win_scale c) (rcv_win_scale c) (sack c) (tx_queue c) (rx_queue c) (process_running c) (timer c) (keepalive c) (wait c) (pending_flags c) (pending_data c) v.

(** ** The environment *)

Record state (W : Type) := State {
  conn : tcp_connection;
  world : W;
}.
Arguments State {W}.
Arguments conn {W}.
Arguments world {W}.

Class TcpEnv (W : Type) := {
  currticks : W -> Z;
  alloc_iob : Z -> state W -> bool * state W;
  tcpip_send : list Z -> sockaddr_tcpip -> W -> result unit * W;
  xfer_window : W -> Z;
  xfer_window_changed : state W -> state W;
  xfer_deliver_iob : list Z -> state W -> result unit * state W;
  intf_shutdown : result unit -> W -> W;
}.

Section tcp.
Context {W : Type} `{TcpEnv W}.
Abbreviation st := (state W).

Definition upd (f : tcp_connection -> tcp_connection) (s : st) : st := State (f (conn s)) (world s).
Definition now (s : st) : Z := currticks (world s).

Definition or_flags (bits : Z) (c : tcp_connection) : tcp_connection := set_cflags (Z.lor (cflags c) bits) c.
Definition or_state (bits : Z) (c : tcp_connection) : tcp_connection := set_tcp_state (Z.lor (tcp_state c) bits) c.

Definition pending_get_flags (c : tcp_connection) : tcp_connection := set_pending_flags (pending_flags c + 1) c.
Definition pending_put_flags (c : tcp_connection) : tcp_connection :=
  if decide (pending_flags c <> 0) then set_pending_flags (pending_flags c - 1) c else c.
Definition pending_get_data (c : tcp_connection) : tcp_connection := set_pending_data (pending_data c + 1) c.
Definition pending_put_data (c : tcp_connection) : tcp_connection :=
  if decide (pending_data c <> 0) then set_pending_data (pending_data c - 1) c else c.

(** ** Transmit data path *)

Definition tcp_xmit_win (c : tcp_connection) : Z :=
  if TCP_CAN_SEND_DATA (tcp_state c) then
    if decide (snd_win c > TCP_PATH_MTU) then TCP_PATH_MTU else snd_win c
  else 0.

Definition tcp_xfer_window (c : tcp_connection) : Z :=
  match tx_queue c with
  | [] => tcp_xmit_win c
  | _ :: _ => 0
  end.

(** The search through the receive queue: the block found so far. *)
Fixpoint sack_scan (q : list rx_entry) (seq lft rgt : Z) : Z * Z :=
  match q with
  | [] => (lft, rgt)
  | e :: q =>
    if decide (tcp_cmp (q_seq e) rgt > 0) then
      if decide (tcp_cmp (q_seq e) seq > 0) then (lft, rgt)
      else sack_scan q seq (q_seq e) (if decide (tcp_cmp (q_nxt e) rgt > 0) then q_nxt e else rgt)
    else sack_scan q seq lft (if decide (tcp_cmp (q_nxt e) rgt > 0) then q_nxt e else rgt)
  end.

(** The block and its length; a length of zero is a failure. *)
Definition tcp_sack_block (c : tcp_connection) (seq : Z) : Z * option (Z * Z) :=
  let '(lft, rgt) := sack_scan (rx_queue c) seq (rcv_ack c) (rcv_ack c) in
  if decide (tcp_cmp rgt seq < 0) then (0, None) else (u32 (rgt - lft), Some (lft, rgt)).

(** The loop over the old blocks; [acc] holds the new ones. *)
Fixpoint sack_loop (c : tcp_connection) (old acc : list (Z * Z)) : list (Z * Z) :=
  match old with
  | [] => acc
  | (lft, rgt) :: old =>
    if decide (Z.of_nat (length acc) = TCP_SACK_MAX) then acc
    else if decide (lft = rgt) then sack_loop c old acc
    else
      match tcp_sack_block c lft with
      | (len, Some block) =>
        if decide (len = 0) then sack_loop c old acc
        else if existsb (fun b => bool_decide (fst b = fst block)) acc then sack_loop c old acc
        else sack_loop c old (acc ++ [block])
      | (_, None) => sack_loop c old acc
      end
  end.

(** The new list, and the connection with its block array updated. *)
Definition tcp_sack (c : tcp_connection) (seq : Z) : list (Z * Z) * tcp_connection :=
  let first := match tcp_sack_block c seq with
               | (len, Some block) => if decide (len = 0) then [] else [block]
               | (_, None) => []
               end in
  let new := sack_loop c (sack c) first in
  (new, set_sack (new ++ replicate (Z.to_nat TCP_SACK_MAX - length new) (0, 0)) c).

(** [tcp_process_tx_queue]: the data copied, the queue with the data removed
    and the number of buffers removed from it.  Without [remove] the source
    leaves the queue alone. *)
Fixpoint process_tx_queue (q : list (list Z)) (max_len : nat) : list Z * list (list Z) * nat :=
  match q with
  | [] => ([], [], O)
  | iobuf :: q =>
    let frag_len := if decide (max_len < length iobuf)%nat then max_len else length iobuf in
    let '(data, rest, removed) := process_tx_queue q (max_len - frag_len) in
    match drop frag_len iobuf with
    | [] => (take frag_len iobuf ++ data, rest, S removed)
    | remaining => (take frag_len iobuf ++ data, remaining :: rest, removed)
    end
  end.

Fixpoint repeat_put (n : nat) (c : tcp_connection) : tcp_connection :=
  match n with
  | O => c
  | S n => repeat_put n (pending_put_data c)
  end.

Definition tcp_peek_tx_queue (c : tcp_connection) (max_len : Z) : list Z :=
  fst (fst (process_tx_queue (tx_queue c) (Z.to_nat max_len))).

Definition tcp_remove_tx_queue (max_len : Z) (c : tcp_connection) : tcp_connection :=
  let '(_, q, removed) := process_tx_queue (tx_queue c) (Z.to_nat max_len) in
  repeat_put removed (set_tx_queue q c).

(** The options of an outgoing segment, in the order they lie in the packet. *)
Definition mss_option (mss : Z) : list Z := [TCP_OPTION_MSS; 4] ++ be16 mss.
Definition ws_option : list Z := [TCP_OPTION_NOP; TCP_OPTION_WS; 3; TCP_RX_WINDOW_SCALE].
Definition sp_option : list Z := [TCP_OPTION_NOP; TCP_OPTION_NOP; TCP_OPTION_SACK_PERMITTED; 2].
Definition ts_option (tsval tsecr : Z) : list Z :=
  [TCP_OPTION_NOP; TCP_OPTION_NOP; TCP_OPTION_TS; 10] ++ be32 tsval ++ be32 tsecr.
Definition sack_option (blocks : list (Z * Z)) : list Z :=
  [TCP_OPTION_NOP; TCP_OPTION_NOP; TCP_OPTION_SACK; 2 + 8 * Z.of_nat (length blocks)] ++
  concat (map (fun b => be32 (fst b) ++ be32 (snd b)) blocks).

(** The 20-byte header with a given checksum field, as bytes. *)
Definition tcp_header (src dest seq ack hlen flags win csum : Z) : list Z :=
  be16 src ++ be16 dest ++ be32 seq ++ be32 ack ++ [u8 hlen; u8 flags] ++ be16 win ++
  [u8 csum; u8 (Z.shiftr csum 8)] ++ be16 0.

(** The receive window the connection will advertise. *)
Definition expand_rcv_win (s : st) : st :=
  let max_rcv_win := u32 (xfer_window (world s)) in
  let max_rcv_win := if decide (max_rcv_win > TCP_MAX_WINDOW_SIZE) then TCP_MAX_WINDOW_SIZE else max_rcv_win in
  let max_representable_win := u32 (Z.shiftl 0xffff (rcv_win_scale (conn s))) in
  let max_rcv_win := if decide (max_rcv_win > max_representable_win) then max_representable_win else max_rcv_win in
  let max_rcv_win := Z.land max_rcv_win (Z.lnot 3) in
  if decide (rcv_win (conn s) < max_rcv_win) then upd (set_rcv_win max_rcv_win) s else s.

(** The packet that carries [payload] and the control bits [flags], and the
    connection after the selective acknowledgement list has been updated. *)
Definition tcp_build (s : st) (flags len : Z) (payload : list Z) (sack_seq : Z) : list Z * tcp_connection :=
  let c := conn s in
  let syn_opts := if has flags TCP_SYN then sp_option ++ ws_option ++ mss_option (mss c) else [] in
  let ts_opt := if has flags TCP_SYN || has (cflags c) TCP_TS_ENABLED then ts_option (now s) (ts_recent c) else [] in
  let '(blocks, c) :=
    if has (cflags c) TCP_SACK_ENABLED && bool_decide (length (rx_queue c) <> 0)%nat
    then tcp_sack c sack_seq else ([], c) in
  let sack_opt := match blocks with [] => [] | _ => sack_option blocks end in
  let opts := sack_opt ++ ts_opt ++ syn_opts in
  let flags := if decide (len <> 0) then Z.lor flags TCP_PSH else flags in
  let hlen := Z.shiftl (20 + Z.of_nat (length opts)) 2 in
  let header := tcp_header (local_port c) (st_port (peer c)) (snd_seq c) (rcv_ack c) hlen flags
                  (Z.shiftr (rcv_win c) (rcv_win_scale c)) in
  let csum := tcpip_chksum (header 0 ++ opts ++ payload) in
  (header csum ++ opts ++ payload, c).

Definition tcp_xmit_sack (s : st) (sack_seq : Z) : st :=
  if running (timer (conn s)) then s else
  let state := tcp_state (conn s) in
  let len := if TCP_CAN_SEND_DATA state
             then Z.of_nat (length (tcp_peek_tx_queue (conn s) (tcp_xmit_win (conn s)))) else 0 in
  let flags := TCP_FLAGS_SENDING state in
  let seq_len := u32 (len + if has flags (Z.lor TCP_SYN TCP_FIN) then 1 else 0) in
  let s := upd (set_snd_sent seq_len) s in
  if bool_decide (seq_len = 0) && negb (has (cflags (conn s)) TCP_ACK_PENDING) then s else
  let s := if decide (seq_len <> 0)
           then upd (fun c => set_timer (started (now s) (start_timeout (timer c)) (timer c)) c) s else s in
  let '(ok, s) := alloc_iob (len + TCP_MAX_HEADER_LEN) s in
  if negb ok then s else
  let payload := tcp_peek_tx_queue (conn s) len in
  let s := expand_rcv_win s in
  let '(packet, c) := tcp_build s flags len payload sack_seq in
  match tcpip_send packet (peer c) (world s) with
  | (Err _, w) => State c w
  | (Ok _, w) => State (set_cflags (Z.land (cflags c) (Z.lnot TCP_ACK_PENDING)) c) w
  end.

Definition tcp_xmit (s : st) : st := tcp_xmit_sack s (rcv_ack (conn s)).

(** ** Acknowledgements and closing *)

Definition tcp_rx_ack (s : st) (ack win : Z) : result unit * st :=
  let c := conn s in
  let ack_len := u32 (ack - snd_seq c) in
  if decide (ack_len > snd_sent c) then
    if TCP_HAS_BEEN_ESTABLISHED (tcp_state c) then (Ok tt, s) else (Err EINVAL, s)
  else
    let s := upd (set_snd_win win) s in
    let s := if has (tcp_state c) (TCP_STATE_SENT TCP_FIN) then s
             else upd (fun c => set_keepalive (started (now s) TCP_KEEPALIVE_DELAY (keepalive c)) c) s in
    if decide (ack_len = 0) then (Ok tt, s) else
    let s := upd (fun c => set_timer (stopped (now s) (timer c)) c) s in
    let acked_flags := Z.land (TCP_FLAGS_SENDING (tcp_state (conn s))) (Z.lor TCP_SYN TCP_FIN) in
    let len := if decide (acked_flags <> 0) then ack_len - 1 else ack_len in
    let s := if decide (acked_flags <> 0) then upd pending_put_flags s else s in
    let s := upd (fun c => set_snd_sent 0 (set_snd_seq ack c)) s in
    let s := upd (tcp_remove_tx_queue len) s in
    let s := if decide (acked_flags <> 0) then upd (or_state (TCP_STATE_ACKED acked_flags)) s else s in
    let s := if bool_decide (tx_queue (conn s) = []) && has (cflags (conn s)) TCP_XFER_CLOSED &&
                negb (has (tcp_state (conn s)) (TCP_STATE_SENT TCP_FIN))
             then upd (fun c => pending_get_flags (or_state (TCP_STATE_SENT TCP_FIN) c)) s else s in
    (Ok tt, s).

(** The deletion of a connection that has not received a SYN. *)
Definition tcp_delete (s : st) : st :=
  let s := upd (set_tcp_state TCP_CLOSED) s in
  let s := upd (set_rx_queue []) s in
  let s := upd (fun c => set_tx_queue [] (repeat_put (length (tx_queue c)) c)) s in
  let s := upd (fun c => pending_put_flags (pending_put_flags c)) s in
  let s := upd (set_process_running false) s in
  let s := upd (fun c => set_timer (stopped (now s) (timer c)) c) s in
  let s := upd (fun c => set_keepalive (stopped (now s) (keepalive c)) c) s in
  let s := upd (fun c => set_wait (stopped (now s) (wait c)) c) s in
  upd (set_listed false) s.

Definition tcp_close (s : st) (rc : result unit) : st :=
  let s := State (or_flags TCP_XFER_CLOSED (conn s)) (intf_shutdown rc (world s)) in
  if negb (has (tcp_state (conn s)) (TCP_STATE_RCVD TCP_SYN)) then tcp_delete s
  else
    let s := if has (tcp_state (conn s)) (TCP_STATE_ACKED TCP_SYN) then s
             else snd (tcp_rx_ack s (u32 (snd_seq (conn s) + 1)) 0) in
    let s := upd (fun c => set_keepalive (stopped (now s) (keepalive c)) c) s in
    if bool_decide (tx_queue (conn s) = []) && negb (has (tcp_state (conn s)) (TCP_STATE_SENT TCP_FIN))
    then upd (fun c => pending_get_flags (set_process_running true (or_state (TCP_STATE_SENT TCP_FIN) c))) s
    else s.

(** ** Timers *)

Definition tcp_expired (s : st) (over : bool) : st :=
  if over then tcp_close (upd (set_tcp_state TCP_CLOSED) s) (Err ETIMEDOUT) else tcp_xmit s.

Definition tcp_keepalive_expired (s : st) : st :=
  let s := upd (fun c => set_keepalive (started (now s) TCP_KEEPALIVE_DELAY (keepalive c)) c) s in
  tcp_xmit (upd (or_flags TCP_ACK_PENDING) s).

Definition tcp_wait_expired (s : st) : st := tcp_close (upd (set_tcp_state TCP_CLOSED) s) (Ok tt).

(** ** Receive data path *)

Record tcp_options := TcpOptions {
  wsopt : option Z;
  spopt : bool;
  tsopt : option Z;
}.

(** The switch on the option kind: the minimum length, and what is recorded. *)
Definition rx_option (kind : Z) (data : list Z) (options : tcp_options) : Z * tcp_options :=
  if decide (kind = TCP_OPTION_WS) then (3, TcpOptions (Some (get8 data 2)) (spopt options) (tsopt options))
  else if decide (kind = TCP_OPTION_SACK_PERMITTED) then (2, TcpOptions (wsopt options) true (tsopt options))
  else if decide (kind = TCP_OPTION_TS) then (10, TcpOptions (wsopt options) (spopt options) (Some (get32 data 2)))
  else (2, options).

(** The option loop over the bytes between the header and its end.  Each
    round consumes at least one byte, so their number is enough fuel. *)
Fixpoint rx_opts_loop (fuel : nat) (data : list Z) (options : tcp_options) : result tcp_options :=
  match fuel, data with
  | _, [] => Ok options
  | O, _ => Err EINVAL
  | S fuel, kind :: rest =>
    if decide (kind = TCP_OPTION_END) then Ok options
    else if decide (kind = TCP_OPTION_NOP) then rx_opts_loop fuel rest options
    else
      let remaining := Z.of_nat (length data) in
      let '(min, options) := rx_option kind data options in
      if decide (remaining < min) then Err EINVAL
      else if decide (get8 data 1 < min) then Err EINVAL
      else if decide (get8 data 1 > remaining) then Err EINVAL
      else rx_opts_loop fuel (drop (Z.to_nat (get8 data 1)) data) options
  end.

Definition tcp_rx_opts (data : list Z) : result tcp_options :=
  rx_opts_loop (length data) data (TcpOptions None false None).

Definition sack_advance (ack : Z) (b : Z * Z) : Z * Z :=
  if decide (fst b = snd b) then b
  else (if decide (tcp_cmp (fst b) ack < 0) then ack else fst b,
        if decide (tcp_cmp (snd b) ack < 0) then ack else snd b).

Definition tcp_rx_seq (seq_len : Z) (c : tcp_connection) : tcp_connection :=
  let c := set_rcv_ack (u32 (rcv_ack c + seq_len)) c in
  let c := set_rcv_win (if decide (rcv_win c > seq_len) then rcv_win c - seq_len else 0) c in
  let c := set_ts_recent (ts_val c) c in
  let c := set_sack (map (sack_advance (rcv_ack c)) (sack c)) c in
  or_flags TCP_ACK_PENDING c.

(** What [tcp_rx_syn] records of the first SYN. *)
Definition tcp_rx_first_syn (seq : Z) (options : tcp_options) (c : tcp_connection) : tcp_connection :=
  let c := set_rcv_ack seq c in
  let c := match tsopt options with Some _ => or_flags TCP_TS_ENABLED c | None => c end in
  let c := if spopt options then or_flags TCP_SACK_ENABLED c else c in
  match wsopt options with
  | Some scale => set_rcv_win_scale TCP_RX_WINDOW_SCALE (set_snd_win_scale scale c)
  | None => c
  end.

Definition tcp_rx_syn (seq : Z) (options : tcp_options) (c : tcp_connection) : tcp_connection :=
  let c := if has (tcp_state c) (TCP_STATE_RCVD TCP_SYN) then c else tcp_rx_first_syn seq options c in
  if decide (seq <> rcv_ack c) then c
  else or_state (Z.lor (TCP_STATE_SENT TCP_ACK) (TCP_STATE_RCVD TCP_SYN)) (tcp_rx_seq 1 c).

Definition tcp_rx_data (s : st) (seq : Z) (iobuf : list Z) : result unit * st :=
  let already_rcvd := u32 (rcv_ack (conn s) - seq) in
  let len := u32 (Z.of_nat (length iobuf)) in
  if decide (already_rcvd >= len) then (Ok tt, s)
  else
    let iobuf := drop (Z.to_nat already_rcvd) iobuf in
    let s := upd (tcp_rx_seq (len - already_rcvd)) s in
    xfer_deliver_iob iobuf s.

Definition tcp_rx_fin (s : st) (seq : Z) : st :=
  if decide (seq <> rcv_ack (conn s)) then s
  else
    let s := upd (tcp_rx_seq 1) s in
    let s := upd (or_state (TCP_STATE_RCVD TCP_FIN)) s in
    tcp_close s (Ok tt).

Definition tcp_rx_rst (s : st) (seq : Z) : result unit * st :=
  let c := conn s in
  if (if has (tcp_state c) (TCP_STATE_RCVD TCP_SYN)
      then negb (tcp_in_window seq (rcv_ack c) (rcv_win c))
      else negb (has (tcp_state c) (TCP_STATE_ACKED TCP_SYN)))
  then (Ok tt, s)
  else (Err ECONNRESET, tcp_close (upd (set_tcp_state TCP_CLOSED) s) (Err ECONNRESET)).

(** Insertion before the first packet with a later sequence number. *)
Fixpoint rx_insert (e : rx_entry) (q : list rx_entry) : list rx_entry :=
  match q with
  | [] => [e]
  | queued :: q' => if decide (tcp_cmp (q_seq e) (q_seq queued) < 0) then e :: q else queued :: rx_insert e q'
  end.

Definition tcp_rx_enqueue (seq flags : Z) (iobuf : list Z) (c : tcp_connection) : tcp_connection :=
  let flags := Z.land flags TCP_FIN in
  let len := Z.of_nat (length iobuf) in
  let seq_len := u32 (len + if decide (flags <> 0) then 1 else 0) in
  let nxt := u32 (seq + seq_len) in
  if negb (has (tcp_state c) (TCP_STATE_RCVD TCP_SYN)) ||
     bool_decide (tcp_cmp seq (u32 (rcv_ack c + rcv_win c)) >= 0) ||
     bool_decide (tcp_cmp nxt (rcv_ack c) < 0) || bool_decide (seq_len = 0)
  then c
  else set_rx_queue (rx_insert (RxEntry seq nxt flags iobuf) (rx_queue c)) c.

(** Each round removes a packet from the queue, and nothing it calls adds one:
    the length of the queue is enough fuel. *)
Fixpoint process_rx_loop (fuel : nat) (s : st) : option st :=
  match rx_queue (conn s) with
  | [] => Some s
  | e :: q =>
    if decide (tcp_cmp (q_seq e) (rcv_ack (conn s)) > 0) then Some s
    else match fuel with
    | O => None
    | S fuel =>
      let s := upd (set_rx_queue q) s in
      let s := snd (tcp_rx_data s (q_seq e) (q_data e)) in
      let seq := u32 (q_seq e + Z.of_nat (length (q_data e))) in
      let s := if has (q_flags e) TCP_FIN then tcp_rx_fin s seq else s in
      process_rx_loop fuel s
    end
  end.

Definition tcp_process_rx_queue (s : st) : option st := process_rx_loop (length (rx_queue (conn s))) s.

(** [tcp_xmit_reset]: the reset that answers the packet with header [hdr]. *)
Definition tcp_xmit_reset (s : st) (st_dest : sockaddr_tcpip) (hdr : list Z) : result unit * st :=
  let '(ok, s) := alloc_iob TCP_MAX_HEADER_LEN s in
  if negb ok then (Err ENOMEM, s) else
  let header := tcp_header (get16 hdr 2) (get16 hdr 0) (get32 hdr 8) (get32 hdr 4)
                  (Z.shiftl (20 / 4) 4) (Z.lor TCP_RST TCP_ACK) 0 in
  let csum := tcpip_chksum (header 0) in
  match tcpip_send (header csum) st_dest (world s) with
  | (Err e, w) => (Err e, State (conn s) w)
  | (Ok _, w) => (Ok tt, State (conn s) w)
  end.

(** The checks [tcp_rx] makes before it looks for a connection: the header
    length of an acceptable packet. *)
Definition tcp_rx_check (packet : list Z) (pshdr_csum : Z) : result Z :=
  if decide (Z.of_nat (length packet) < 20) then Err EINVAL else
  let hlen := Z.land (get8 packet 12) TCP_MASK_HLEN / 16 * 4 in
  if decide (hlen < 20) then Err EINVAL
  else if decide (hlen > Z.of_nat (length packet)) then Err EINVAL
  else if decide (generic_tcpip_continue_chksum pshdr_csum packet <> 0) then Err EINVAL
  else Ok hlen.

(** The part of [tcp_rx] after the reset check, given the segment. *)
Definition tcp_rx_segment (s : st) (seq flags : Z) (data : list Z) (old_xfer_window : Z) : option st :=
  let s := upd (tcp_rx_enqueue seq flags data) s in
  match tcp_process_rx_queue s with
  | None => None
  | Some s =>
    let s := match rx_queue (conn s) with
             | [] => upd (set_process_running true) s
             | _ => tcp_xmit_sack s seq
             end in
    let s := if TCP_CLOSED_GRACEFULLY (tcp_state (conn s))
             then upd (fun c => set_wait (started (now s) (2 * TCP_MSL) (stopped (now s) (wait c))) c) s else s in
    Some (if decide (tcp_xfer_window (conn s) <> old_xfer_window) then xfer_window_changed s else s)
  end.

(** [tcp_rx] for a packet that demultiplexes to this connection. *)
Definition tcp_rx_conn (s : st) (packet : list Z) (hlen : Z) (st_src : sockaddr_tcpip) : option (result unit * st) :=
  let seq := get32 packet 4 in
  let ack := get32 packet 8 in
  let raw_win := get16 packet 14 in
  let flags := get8 packet 13 in
  match tcp_rx_opts (take (Z.to_nat (hlen - 20)) (drop 20 packet)) with
  | Err e => Some (Err e, s)
  | Ok options =>
    let s := match tsopt options with Some tsval => upd (set_ts_val tsval) s | None => s end in
    let data := drop (Z.to_nat hlen) packet in
    let old_xfer_window := tcp_xfer_window (conn s) in
    let '(rc, s) := if has flags TCP_ACK
                    then tcp_rx_ack s ack (u32 (Z.shiftl raw_win (snd_win_scale (conn s)))) else (Ok tt, s) in
    match rc with
    | Err e => let '(_, s) := tcp_xmit_reset s st_src packet in Some (Err e, s)
    | Ok _ =>
      let s := if has (tcp_state (conn s)) (TCP_STATE_RCVD TCP_SYN) && bool_decide (seq <> rcv_ack (conn s))
               then upd (or_flags TCP_ACK_PENDING) s else s in
      let '(s, seq) := if has flags TCP_SYN then (upd (tcp_rx_syn seq options) s, u32 (seq + 1)) else (s, seq) in
      let '(rc, s) := if has flags TCP_RST then tcp_rx_rst s seq else (Ok tt, s) in
      match rc with
      | Err e => Some (Err e, s)
      | Ok _ =>
        match tcp_rx_segment s seq flags data old_xfer_window with
        | Some s => Some (Ok tt, s)
        | None => None
        end
      end
    end
  end.

(** ** Data transfer interface *)

Definition tcp_xfer_close (s : st) (rc : result unit) : st := tcp_xmit (tcp_close s rc).

Definition tcp_xfer_deliver (s : st) (iobuf : list Z) : result unit * st :=
  let s := upd (fun c => set_tx_queue (tx_queue c ++ [iobuf]) c) s in
  let s := upd pending_get_data s in
  (Ok tt, tcp_xmit s).
End tcp.

(** ** The list of connections

    The handlers of one connection run with the other connections as part of
    the rest of the firmware: those before it and after it in the list. *)

Record others (W : Type) := Others {
  before : list tcp_connection;
  after : list tcp_connection;
  firmware : W;
}.
Arguments Others {W}.
Arguments before {W}.
Arguments after {W}.
Arguments firmware {W}.

Fixpoint tcp_demux (conns : list tcp_connection) (port : Z) :
    option (list tcp_connection * tcp_connection * list tcp_connection) :=
  match conns with
  | [] => None
  | c :: conns =>
    if decide (local_port c = port) then Some ([], c, conns)
    else match tcp_demux conns port with
         | Some (l, found, r) => Some (c :: l, found, r)
         | None => None
         end
  end.

Definition tcp_port_available (conns : list tcp_connection) (port : Z) : result Z :=
  match tcp_demux conns port with
  | Some _ => Err EADDRINUSE
  | None => Ok port
  end.

(** The connection back in its place, unless it has been deleted. *)
Definition relink {W} (s : state (others W)) : list tcp_connection * W :=
  (before (world s) ++ (if listed (conn s) then [conn s] else []) ++ after (world s), firmware (world s)).

Definition tcp_rx {W} `{TcpEnv (others W)} (conns : list tcp_connection) (w : W) (packet : list Z)
    (st_src : sockaddr_tcpip) (pshdr_csum : Z) : option (result unit * (list tcp_connection * W)) :=
  match tcp_rx_check packet pshdr_csum with
  | Err e => Some (Err e, (conns, w))
  | Ok hlen =>
    match tcp_demux conns (get16 packet 2) with
    | None =>
      match tcp_rx_opts (take (Z.to_nat (hlen - 20)) (drop 20 packet)) with
      | Err e => Some (Err e, (conns, w))
      | Ok _ => Some (Err ENOTCONN, (conns, w))
      end
    | Some (l, c, r) =>
      match tcp_rx_conn (State c (Others l r w)) packet hlen st_src with
      | Some (rc, s) => Some (rc, relink s)
      | None => None
      end
    end
  end.

(** Dropping the last packet of one receive queue. *)
Definition discard_last (c : tcp_connection) : Z * tcp_connection :=
  match rx_queue c with
  | [] => (0, c)
  | q => (1, set_rx_queue (removelast q) c)
  end.

Fixpoint tcp_discard (conns : list tcp_connection) : Z * list tcp_connection :=
  match conns with
  | [] => (0, [])
  | c :: conns =>
    let '(n, c) := discard_last c in
    let '(discarded, conns) := tcp_discard conns in
    (n + discarded, c :: conns)
  end.

Definition tcp_first_unclosed (conns : list tcp_connection) : option tcp_connection :=
  List.find (fun c => negb (has (cflags c) TCP_XFER_CLOSED)) conns.

Definition tcp_first_unfinished (conns : list tcp_connection) : option tcp_connection :=
  List.find (fun c => negb (TCP_CLOSED_GRACEFULLY (tcp_state c)) || process_running c) conns.

(** A connection as [zalloc] and the initialisers leave it. *)
Definition zero_timer : retry_timer := Timer false 0 0 0 0 0 None.

Definition new_connection (peer : sockaddr_tcpip) (iss : Z) : tcp_connection :=
  Tcp 0 peer 0 0 TCP_SYN_SENT iss 0 0 0 0 0 0 0 0 (replicate 3 (0, 0)) [] [] false
    zero_timer zero_timer zero_timer 0 0 true.

(** [tcp_open]: [allocated] says whether [zalloc] succeeded, [mtu] is the
    answer of [tcpip_mtu], [iss] and [port_random] are results of [random()],
    [ticks] is the current time. *)
Definition tcp_open (conns : list tcp_connection) (allocated : bool) (peer : sockaddr_tcpip)
    (local : option sockaddr_tcpip) (mtu iss port_random ticks : Z) : result unit * list tcp_connection :=
  if negb allocated then (Err ENOMEM, conns) else
  let tcp := new_connection peer (u32 iss) in
  if decide (mtu = 0) then (Err ENETUNREACH, conns) else
  let tcp := set_mss (u64 (mtu - 20)) tcp in
  match tcpip_bind local (tcp_port_available conns) port_random with
  | Err e => (Err e, conns)
  | Ok port =>
    let tcp := set_local_port port tcp in
    let tcp := set_timer (started ticks 0 (timer tcp)) tcp in
    let tcp := pending_get_flags tcp in
    (Ok tt, tcp :: conns)
  end.
