(* ===== verification/TcpRx.v ===== *)
(** * TCP reassembly and selective acknowledgement

    The receive side of Tcp against its specification: whatever segments of
    the peer's byte stream arrive, in whatever order, duplicated or
    overlapping, the application is handed the stream from its beginning,
    each byte once.  Sequence numbers wrap around; the proofs relate them to
    true offsets into the stream. *)

From stdpp Require Import sorting.
From S2P Require Import Prelude CMem Tcpip Retry Tcp.

(** ** Sequence numbers *)

Lemma sext_mod z d : (z - d) `mod` 2 ^ 32 = 0 -> - 2 ^ 31 <= d < 2 ^ 31 -> s32 z = d.
Proof.
  intros Hm Hd. unfold sext. change (32 - 1) with 31. apply Z.mod_divide in Hm as [k Hk]; [|lia].
  replace (z + 2 ^ 31) with (d + 2 ^ 31 + k * 2 ^ 32) by lia. rewrite Z.mod_add by lia.
  rewrite Z.mod_small by lia. lia.
Qed.

Lemma tcp_cmp_spec a b : - 2 ^ 31 <= a - b < 2 ^ 31 -> tcp_cmp (u32 a) (u32 b) = a - b.
Proof.
  intros Hd. unfold tcp_cmp. apply sext_mod; [|done]. unfold wrap.
  by rewrite Zminus_mod, <- (Zminus_mod a b), Z.sub_diag.
Qed.

Lemma u32_sub_spec a b : 0 <= a - b < 2 ^ 32 -> u32 (u32 a - u32 b) = a - b.
Proof. intros Hd. unfold wrap. rewrite <- Zminus_mod. by apply Z.mod_small. Qed.

Lemma u32_add_spec a b : u32 (u32 a + b) = u32 (a + b).
Proof. unfold wrap. by rewrite Zplus_mod_idemp_l. Qed.

(** ** The peer's stream

    [stream] is everything the peer sends, [irs] the sequence number of its
    first byte; the peer's FIN occupies the position behind the last byte. *)

Section reassembly.
Context {W : Type} `{TcpEnv W}.
Context (stream : list Z) (irs : Z) (delivered : W -> list Z) (d0 : list Z).

Abbreviation total := (Z.of_nat (length stream)).

(** A segment of the stream at offset [off], with its FIN flag. *)
Definition segment_at (off : Z) (data : list Z) (flags : Z) : Prop :=
  0 <= off /\ data = take (length data) (drop (Z.to_nat off) stream) /\
  off + Z.of_nat (length data) <= total /\
  (has flags TCP_FIN = true -> off + Z.of_nat (length data) = total) /\
  Z.of_nat (length data) < 2 ^ 29.

Definition fin_len (flags : Z) : Z := if has flags TCP_FIN then 1 else 0.

Definition entry_at (off : Z) (e : rx_entry) : Prop :=
  segment_at off (q_data e) (q_flags e) /\ q_seq e = u32 (irs + off) /\
  q_nxt e = u32 (irs + off + Z.of_nat (length (q_data e)) + fin_len (q_flags e)).

(** The queue holds segments of the stream in order of their offsets, all of
    them less than [2 ^ 30] away from position [p]. *)
Definition queue_at (p : Z) (q : list rx_entry) (offs : list Z) : Prop :=
  Forall2 entry_at offs q /\ StronglySorted Z.le offs /\ Forall (fun off => Z.abs (off - p) < 2 ^ 30) offs.

(** The receive side has reached position [p] of the stream. *)
Definition received (p : Z) (s : state W) : Prop :=
  0 <= p <= total + 1 /\ rcv_ack (conn s) = u32 (irs + p) /\
  delivered (world s) = d0 ++ take (Z.to_nat p) stream /\
  has (tcp_state (conn s)) (TCP_STATE_RCVD TCP_SYN) = true.

Definition rx_ok (p : Z) (s : state W) : Prop :=
  received p s /\ exists offs, queue_at p (rx_queue (conn s)) offs /\ Forall (fun off => p < off) offs.

(** What the application may do while data is delivered to it. *)
Definition deliver_contract : Prop := forall data s,
  let s' := snd (xfer_deliver_iob data s) in
  delivered (world s') = delivered (world s) ++ data /\ rcv_ack (conn s') = rcv_ack (conn s) /\
  rx_queue (conn s') `prefix_of` rx_queue (conn s) /\
  (has (tcp_state (conn s)) (TCP_STATE_RCVD TCP_SYN) = true ->
   has (tcp_state (conn s')) (TCP_STATE_RCVD TCP_SYN) = true).

Definition shutdown_contract : Prop := forall rc w, delivered (intf_shutdown rc w) = delivered w.

Lemma segment_suffix off data flags p :
  segment_at off data flags -> off <= p <= off + Z.of_nat (length data) ->
  take (Z.to_nat p) stream ++ drop (Z.to_nat (p - off)) data
  = take (Z.to_nat (off + Z.of_nat (length data))) stream.
Proof.
  intros (Ho & Hd & Ht & _) Hp. set (k := Z.to_nat (p - off)). set (n := length data) in *.
  assert (drop k data = take (n - k) (drop (Z.to_nat p) stream)) as ->.
  { rewrite Hd, skipn_firstn_comm, drop_drop. do 2 f_equal. lia. }
  replace (Z.to_nat (off + Z.of_nat n)) with (Z.to_nat p + (n - k))%nat by lia. by rewrite take_take_drop.
Qed.

Lemma has_or x a b : 0 <= a -> has x b = true -> has (Z.lor x a) b = true.
Proof.
  unfold has. rewrite !bool_decide_eq_true. intros Ha Hx E. apply Hx. apply Z.bits_inj'. intros n Hn.
  apply (f_equal (fun z => Z.testbit z n)) in E. rewrite Z.land_spec, Z.lor_spec, Z.bits_0 in *.
  destruct (Z.testbit x n); [|done]. by rewrite orb_true_l in E.
Qed.

(** ** What the transmit side leaves alone *)

Definition rx_same (c c' : tcp_connection) : Prop :=
  rcv_ack c' = rcv_ack c /\ rx_queue c' = rx_queue c /\
  (has (tcp_state c) (TCP_STATE_RCVD TCP_SYN) = true -> has (tcp_state c') (TCP_STATE_RCVD TCP_SYN) = true).

Lemma rx_same_refl c : rx_same c c.
Proof. by split_and!. Qed.

Lemma rx_same_trans c1 c2 c3 : rx_same c1 c2 -> rx_same c2 c3 -> rx_same c1 c3.
Proof. intros (? & ? & ?) (? & ? & ?). split_and!; [congruence..|tauto]. Qed.

Lemma repeat_put_same n c : rx_same c (repeat_put n c).
Proof.
  revert c. induction n as [|n IH]; intros c; [apply rx_same_refl|]. cbn [repeat_put].
  eapply rx_same_trans; [|apply IH]. unfold pending_put_data. case_decide; by split_and!.
Qed.

Lemma remove_tx_queue_same len c : rx_same c (tcp_remove_tx_queue len c).
Proof.
  unfold tcp_remove_tx_queue. destruct (process_tx_queue _ _) as [[d q] r].
  eapply rx_same_trans; [|apply repeat_put_same]. by split_and!.
Qed.

Lemma or_state_same bits c : 0 <= bits -> rx_same c (or_state bits c).
Proof. intros Hb. split_and!; [done..|]. by apply has_or. Qed.

Lemma put_flags_same c : rx_same c (pending_put_flags c).
Proof. unfold pending_put_flags. case_decide; by split_and!. Qed.

Lemma sending_nonneg state : 0 <= Z.land (TCP_FLAGS_SENDING state) (Z.lor TCP_SYN TCP_FIN).
Proof. apply Z.land_nonneg. by right. Qed.

Lemma tcp_rx_ack_same s ack win :
  let s' := snd (tcp_rx_ack s ack win) in rx_same (conn s) (conn s') /\ world s' = world s.
Proof.
  unfold tcp_rx_ack. case_decide; [by destruct (TCP_HAS_BEEN_ESTABLISHED _)|].
  match goal with |- context [if has ?a ?b then upd _ _ else _] => set (fin := has a b) end.
  set (s1 := if fin then _ else _).
  assert (rx_same (conn s) (conn s1) /\ world s1 = world s) as [H1 W1] by (subst s1; destruct fin; by split_and!).
  clearbody s1. case_decide; [by split|].
  set (s2 := upd _ s1). set (af := Z.land _ _). set (s3 := if decide (af <> 0) then upd pending_put_flags s2 else s2).
  assert (rx_same (conn s) (conn s3) /\ world s3 = world s) as [H3 W3].
  { assert (rx_same (conn s) (conn s2)) by (eapply rx_same_trans; [exact H1|by split_and!]).
    subst s3. case_decide; [|by split]. split; [|done]. eapply rx_same_trans; [done|apply put_flags_same]. }
  clearbody s3. cbv zeta. set (s4 := upd _ s3). set (s5 := upd _ s4).
  assert (rx_same (conn s) (conn s5) /\ world s5 = world s) as [H5 W5].
  { split; [|done]. eapply rx_same_trans; [|apply remove_tx_queue_same].
    eapply rx_same_trans; [exact H3|by split_and!]. }
  clearbody s5. set (s6 := if decide (af <> 0) then _ else s5).
  assert (rx_same (conn s) (conn s6) /\ world s6 = world s) as [H6 W6].
  { subst s6. case_decide; [|by split]. split; [|done]. eapply rx_same_trans; [exact H5|]. apply or_state_same.
    apply Z.shiftl_nonneg, sending_nonneg. }
  clearbody s6. destruct (_ && _ && _); [|by split]. split; [|done].
  eapply rx_same_trans; [exact H6|]. by apply (or_state_same (TCP_STATE_SENT TCP_FIN)).
Qed.

Lemma tcp_close_same s rc :
  shutdown_contract -> has (tcp_state (conn s)) (TCP_STATE_RCVD TCP_SYN) = true ->
  let s' := tcp_close s rc in rx_same (conn s) (conn s') /\ delivered (world s') = delivered (world s).
Proof.
  intros Hsh Hst. unfold tcp_close. set (s1 := State _ _).
  assert (has (tcp_state (conn s1)) (TCP_STATE_RCVD TCP_SYN) = true) as Hst1 by done.
  assert (rx_same (conn s) (conn s1) /\ delivered (world s1) = delivered (world s)) as [H1 D1] by (split; [by split_and!|apply Hsh]).
  clearbody s1. cbv zeta. rewrite Hst1. cbn [negb]. set (s2 := if has _ _ then s1 else _).
  assert (rx_same (conn s) (conn s2) /\ delivered (world s2) = delivered (world s)) as [H2 D2].
  { subst s2. destruct (has (tcp_state (conn s1)) (TCP_STATE_ACKED TCP_SYN)); [by split|]. destruct (tcp_rx_ack_same s1 (u32 (snd_seq (conn s1) + 1)) 0) as [G1 G2].
    rewrite G2. split; [|done]. by eapply rx_same_trans. }
  clearbody s2. set (s3 := upd _ s2).
  assert (rx_same (conn s) (conn s3) /\ delivered (world s3) = delivered (world s)) as [H3 D3]
    by (split; [eapply rx_same_trans; [exact H2|by split_and!]|done]).
  clearbody s3. destruct (_ && _); [|by split]. split; [|done].
  eapply rx_same_trans; [exact H3|]. by apply (or_state_same (TCP_STATE_SENT TCP_FIN)).
Qed.

(** ** One segment *)

Context (Hdeliver : deliver_contract) (Hshutdown : shutdown_contract).

Lemma tcp_rx_data_spec p off data flags s :
  received p s -> segment_at off data flags -> 0 <= p - off < 2 ^ 31 ->
  let s' := snd (tcp_rx_data s (u32 (irs + off)) data) in
  received (Z.max p (off + Z.of_nat (length data))) s' /\ rx_queue (conn s') `prefix_of` rx_queue (conn s).
Proof.
  intros (Hp & Ha & Hd & Hst) Hseg Hoff. pose proof Hseg as (Ho & _ & Ht & _ & Hl). unfold tcp_rx_data.
  rewrite Ha, u32_sub_spec by lia. rewrite (wrap_small 32 (Z.of_nat _)) by zlia.
  replace (irs + p - (irs + off)) with (p - off) by lia. case_decide as Hc.
  - simpl. rewrite Z.max_l by lia. by split.
  - set (n := Z.of_nat (length data) - (p - off)). set (s1 := upd (tcp_rx_seq n) s).
    destruct (Hdeliver (drop (Z.to_nat (p - off)) data) s1) as (D1 & D2 & D3 & D4). rewrite Z.max_r by lia.
    split; [|exact D3]. split; [lia|]. rewrite D1, D2. split; [|split].
    + cbn [s1 upd conn tcp_rx_seq or_flags set_cflags set_sack set_ts_recent set_rcv_win set_rcv_ack rcv_ack].
      rewrite Ha, u32_add_spec. f_equal. lia.
    + cbn [s1 upd world]. rewrite Hd, <- app_assoc. f_equal. eapply segment_suffix; [done|lia].
    + by apply D4.
Qed.

Lemma tcp_rx_fin_spec p s :
  received p s -> total <= p -> let s' := tcp_rx_fin s (u32 (irs + total)) in
  received (total + 1) s' /\ rx_queue (conn s') = rx_queue (conn s).
Proof.
  intros (Hp & Ha & Hd & Hst) Ht. unfold tcp_rx_fin. rewrite Ha. case_decide as Hc.
  - assert (p = total + 1) as -> by (destruct (decide (p = total)) as [->|]; [done|lia]). by split.
  - assert (p = total) as ->.
    { destruct (decide (p = total)) as [E|E]; [done|]. assert (p = total + 1) as -> by lia. exfalso.
      pose proof (u32_sub_spec (irs + (total + 1)) (irs + total) ltac:(lia)) as G. rewrite Hc, Z.sub_diag in G.
      change (u32 0) with 0 in G. lia. }
    set (s1 := upd (or_state _) _).
    destruct (tcp_close_same s1 (Ok tt) Hshutdown) as [(C1 & C2 & C3) C4].
    { cbn [s1 upd conn]. by apply has_or. }
    split; [|by rewrite C2]. split; [lia|]. rewrite C1, C4. split_and!.
    + cbn [s1 upd conn or_state set_tcp_state tcp_rx_seq or_flags set_cflags set_sack set_ts_recent set_rcv_win set_rcv_ack rcv_ack].
      rewrite Ha, u32_add_spec. f_equal. lia.
    + cbn [s1 upd world]. rewrite Hd. f_equal. rewrite !take_ge by lia. done.
    + apply C3. cbn [s1 upd conn]. by apply has_or.
Qed.

(** ** The queue *)

Lemma queue_at_prefix p q q' offs :
  queue_at p q offs -> q' `prefix_of` q -> exists offs', queue_at p q' offs' /\ offs' `prefix_of` offs.
Proof.
  intros (H1 & H2 & H3) [k ->]. apply Forall2_app_inv_r in H1 as (o1 & o2 & E1 & E2 & ->).
  exists o1. split; [|by eexists]. apply Forall_app in H3 as [H3 _]. split_and!; [done| |done].
  by apply StronglySorted_app in H2 as (_ & ? & _).
Qed.

Lemma queue_at_weaken p p' q offs :
  queue_at p q offs -> Forall (fun off => Z.abs (off - p') < 2 ^ 30) offs -> queue_at p' q offs.
Proof. intros (? & ? & _) ?. by split_and!. Qed.

Lemma rx_insert_spec p e off q offs :
  queue_at p q offs -> entry_at off e -> Z.abs (off - p) < 2 ^ 30 ->
  exists offs', queue_at p (rx_insert e q) offs' /\ offs' ≡ₚ off :: offs.
Proof.
  intros (Hq & Hs & Hb) He Ho. revert Hs Hb. induction Hq as [|off1 e1 offs q H1 Hq IH]; intros Hs Hb; cbn [rx_insert].
  { exists [off]. split; [|done]. split_and!; [by constructor|by repeat constructor|by constructor]. }
  apply Forall_cons in Hb as [Hb1 Hb]. apply StronglySorted_cons in Hs as [Hs1 Hs].
  pose proof He as (_ & E & _). pose proof H1 as (_ & E1 & _). rewrite E, E1, tcp_cmp_spec by lia.
  case_decide as Hc.
  - exists (off :: off1 :: offs). split; [|done]. split_and!.
    + constructor; [done|by constructor].
    + constructor; [by constructor|]. constructor; [lia|]. eapply Forall_impl; [exact Hs1|]. simpl. intros; lia.
    + constructor; [done|by constructor].
  - destruct (IH Hs Hb) as (offs' & (I1 & I2 & I3) & Hp). exists (off1 :: offs'). split.
    + split_and!; [by constructor| |by constructor]. constructor; [done|]. rewrite Hp. constructor; [lia|done].
    + rewrite Hp. apply Permutation_swap.
Qed.

Lemma process_rx_loop_spec fuel p s offs :
  received p s -> queue_at p (rx_queue (conn s)) offs -> (length (rx_queue (conn s)) <= fuel)%nat ->
  exists p' s', process_rx_loop fuel s = Some s' /\ rx_ok p' s' /\ p <= p' /\
    match offs, rx_queue (conn s) with
    | off :: _, e :: _ => off <= p -> off + Z.of_nat (length (q_data e)) + fin_len (q_flags e) <= p'
    | _, _ => True
    end.
Proof.
  revert p s offs. induction fuel as [|fuel IH]; intros p s offs Hr Hq Hf.
  { destruct (rx_queue (conn s)) as [|e q] eqn:Eq; [|simpl in Hf; lia]. exists p, s. cbn [process_rx_loop]. rewrite Eq.
    split_and!; [done| |lia|by destruct offs]. split; [done|]. exists []. rewrite Eq.
    split; [by split_and!; constructor|constructor]. }
  cbn [process_rx_loop]. pose proof Hq as (Hq1 & Hq2 & Hq3). destruct (rx_queue (conn s)) as [|e q] eqn:Eq.
  { exists p, s. split_and!; [done| |lia|by destruct offs]. split; [done|]. exists []. rewrite Eq.
    split; [by split_and!; constructor|constructor]. }
  apply Forall2_cons_inv_r in Hq1 as (off & offs' & He & Hq1 & ->).
  apply Forall_cons in Hq3 as [Hq3a Hq3]. apply StronglySorted_cons in Hq2 as [Hq2a Hq2].
  pose proof Hr as (Hp & Ha & _). pose proof He as (Hseg & Eseq & _). rewrite Eseq, Ha, tcp_cmp_spec by lia.
  case_decide as Hc.
  { exists p, s. split_and!; [done| |lia|lia]. split; [done|]. exists (off :: offs'). rewrite Eq.
    split; [done|]. constructor; [lia|]. eapply Forall_impl; [exact Hq2a|]. simpl. intros; lia. }
  set (s1 := upd (set_rx_queue q) s). assert (received p s1) as Hr1 by exact Hr.
  destruct (tcp_rx_data_spec p off (q_data e) (q_flags e) s1 Hr1 Hseg ltac:(lia)) as [Hr2 Hpre].
  set (s2 := snd (tcp_rx_data s1 (u32 (irs + off)) (q_data e))) in *.
  set (p1 := Z.max p (off + Z.of_nat (length (q_data e)))) in *.
  pose proof Hseg as (S1 & _ & S3 & S4 & S5).
  rewrite (u32_add_spec (irs + off)), <- Z.add_assoc.
  set (s3 := if has (q_flags e) TCP_FIN then _ else s2).
  set (p2 := Z.max p (off + Z.of_nat (length (q_data e)) + fin_len (q_flags e))).
  assert (received p2 s3 /\ rx_queue (conn s3) = rx_queue (conn s2)) as [Hr3 E3].
  { unfold s3, p2, fin_len. destruct (has (q_flags e) TCP_FIN) eqn:Ef.
    - rewrite (S4 eq_refl). destruct (tcp_rx_fin_spec p1 s2 Hr2 ltac:(lia)) as [F1 F2]. split; [|done].
      rewrite Z.max_r by lia. exact F1.
    - rewrite Z.add_0_r. by split. }
  clearbody s3. clearbody s2.
  destruct (queue_at_prefix p q (rx_queue (conn s2)) offs') as (offs2 & Hq4 & [ok Epre]); [by split_and!|exact Hpre|].
  assert (0 <= fin_len (q_flags e) <= 1) by (unfold fin_len; destruct (has _ _); lia).
  destruct (IH p2 s3 offs2) as (p' & s' & G1 & G2 & G3 & _).
  - done.
  - rewrite E3. eapply queue_at_weaken; [exact Hq4|]. subst offs'. apply Forall_app in Hq3 as [Hq3 _], Hq2a as [Hq2a _].
    rewrite Forall_forall in Hq3, Hq2a |- *. intros o Ho. specialize (Hq3 o Ho). specialize (Hq2a o Ho). simpl in *. lia.
  - rewrite E3. apply prefix_length in Hpre. simpl in Hpre, Hf. lia.
  - exists p', s'. split_and!; [done..|lia|lia].
Qed.
End reassembly.

(** ** Properties *)

Lemma has_land_fin flags : has (Z.land flags TCP_FIN) TCP_FIN = has flags TCP_FIN.
Proof. unfold has. by rewrite <- Z.land_assoc, Z.land_diag. Qed.

Lemma fin_len_bound flags : 0 <= fin_len flags <= 1.
Proof. unfold fin_len. destruct (has flags TCP_FIN); lia. Qed.

Lemma fin_len_flag flags : (if decide (Z.land flags TCP_FIN <> 0) then 1 else 0) = fin_len flags.
Proof. unfold fin_len, has. case_decide; [by rewrite bool_decide_true|rewrite bool_decide_false; [done|tauto]]. Qed.

Lemma rx_insert_length e q : length (rx_insert e q) = S (length q).
Proof. induction q as [|x q IH]; cbn [rx_insert]; [done|]. case_decide; simpl; [done|by rewrite IH]. Qed.

(** Enqueueing a segment either queues its entry or drops it for a reason. *)
Lemma tcp_rx_enqueue_cases stream irs p off data flags c :
  segment_at stream off data flags -> has (tcp_state c) (TCP_STATE_RCVD TCP_SYN) = true ->
  rcv_ack c = u32 (irs + p) -> Z.abs (off - p) < 2 ^ 30 -> 0 <= rcv_win c < 2 ^ 30 ->
  let c' := tcp_rx_enqueue (u32 (irs + off)) flags data c in
  (c' = c /\ (off + Z.of_nat (length data) + fin_len flags <= p \/ p < off \/ rcv_win c = 0)) \/
  exists e, entry_at stream irs off e /\ q_data e = data /\ fin_len (q_flags e) = fin_len flags /\
    c' = set_rx_queue (rx_insert e (rx_queue c)) c.
Proof.
  intros Hseg Hst Ha Ho Hw. pose proof Hseg as (S1 & S2 & S3 & S4 & S5). pose proof (fin_len_bound flags).
  unfold tcp_rx_enqueue. rewrite fin_len_flag, Hst, Ha. cbn [negb orb].
  rewrite (wrap_small 32 (Z.of_nat _ + _)) by zlia. rewrite !u32_add_spec, !tcp_cmp_spec by lia.
  set (b := _ || _ || _). destruct b eqn:Eb.
  - left. split; [done|]. unfold b in Eb. rewrite !orb_true_iff, !bool_decide_eq_true in Eb. lia.
  - right. eexists. split; [|split; [|split; [|reflexivity]]]; [|done|unfold fin_len; cbn [q_flags]; by rewrite has_land_fin].
    split_and!; cbn [q_data q_seq q_nxt q_flags]; [|done|].
    + split_and!; try done. intros Hf. rewrite has_land_fin in Hf. auto.
    + f_equal. unfold fin_len. rewrite has_land_fin. lia.
Qed.

(** An entry at or before [p] goes to the head of a queue that lies beyond. *)
Lemma rx_insert_head stream irs p e off q offs :
  queue_at stream irs p q offs -> entry_at stream irs off e -> Z.abs (off - p) < 2 ^ 30 ->
  Forall (fun o => p < o) offs -> off <= p -> rx_insert e q = e :: q.
Proof.
  intros (Hq & _ & Hb) (_ & E & _) Ho Hbeyond Hle. destruct Hq as [|off1 e1 offs q He1 Hq]; [done|].
  apply Forall_cons in Hbeyond as [Hb1 _], Hb as [Hb _]. destruct He1 as (_ & E1 & _). cbn [rx_insert].
  by rewrite E, E1, tcp_cmp_spec, decide_True by lia.
Qed.

(** C20: reassembly.  The application has been handed exactly the first [p]
    bytes of the peer's stream, and the receive queue holds segments beyond
    [p].  When any segment of the stream arrives, however it overlaps what was
    received or queued before, enqueueing it and processing the queue
    terminates, hands the application exactly the following bytes of the
    stream up to some [p' >= p], each once and in order, and leaves only
    segments beyond [p'] in the queue.  A segment that starts at or before [p]
    while the window is open is consumed completely, its FIN included. *)
Theorem tcp_reassembly {W} `{TcpEnv W} stream irs delivered d0 p off data flags (s : state W) :
  deliver_contract delivered -> shutdown_contract delivered ->
  rx_ok stream irs delivered d0 p s -> segment_at stream off data flags ->
  Z.abs (off - p) < 2 ^ 30 -> 0 <= rcv_win (conn s) < 2 ^ 30 ->
  exists p' s', tcp_process_rx_queue (upd (tcp_rx_enqueue (u32 (irs + off)) flags data) s) = Some s' /\
    rx_ok stream irs delivered d0 p' s' /\ p <= p' /\
    (off <= p -> 0 < rcv_win (conn s) -> off + Z.of_nat (length data) + fin_len flags <= p').
Proof.
  intros Hdc Hsc [Hr (offs & Hq & Hbeyond)] Hseg Ho Hw. pose proof Hr as (Hp & Ha & Hd & Hst).
  unfold tcp_process_rx_queue. set (s1 := upd _ s).
  assert (received stream irs delivered d0 p s1) as Hr1.
  { unfold s1, upd, tcp_rx_enqueue. destruct (negb _ || _ || _ || _); exact Hr. }
  destruct (tcp_rx_enqueue_cases stream irs p off data flags (conn s) Hseg Hst Ha Ho Hw) as [[E Hdrop]|(e & He & Ed & Ef & E)];
    change (tcp_rx_enqueue _ flags data (conn s)) with (conn s1) in E; clearbody s1.
  - destruct (process_rx_loop_spec stream irs delivered d0 Hdc Hsc (length (rx_queue (conn s1))) p s1 offs)
      as (p' & s' & G1 & G2 & G3 & _); [done|by rewrite E|done|].
    exists p', s'. split_and!; [done..|]. intros. lia.
  - apply (f_equal rx_queue) in E. cbn [rx_queue set_rx_queue] in E. destruct (decide (off <= p)) as [Hle|Hgt].
    + rewrite (rx_insert_head stream irs p e off _ offs) in E by done.
      destruct (process_rx_loop_spec stream irs delivered d0 Hdc Hsc (length (rx_queue (conn s1))) p s1 (off :: offs))
        as (p' & s' & G1 & G2 & G3 & G4); [done| |done|].
      * rewrite E. destruct Hq as (Q1 & Q2 & Q3). split_and!; [by constructor| |by constructor].
        constructor; [done|]. eapply Forall_impl; [exact Hbeyond|]. simpl. intros; lia.
      * rewrite E, Ed, Ef in G4. exists p', s'. split_and!; [done..|]. intros _ _. by apply G4.
    + destruct (rx_insert_spec stream irs p e off (rx_queue (conn s)) offs Hq He Ho) as (offs' & Hq' & _).
      destruct (process_rx_loop_spec stream irs delivered d0 Hdc Hsc (length (rx_queue (conn s1))) p s1 offs')
        as (p' & s' & G1 & G2 & G3 & _); [done|by rewrite E|done|].
      exists p', s'. split_and!; [done..|lia].
Qed.

(** An application that records what it is given. *)
Definition log_env : TcpEnv (list Z) := {|
  currticks _ := 0;
  alloc_iob _ s := (true, s);
  tcpip_send _ _ w := (Ok tt, w);
  xfer_window _ := 65536;
  xfer_window_changed s := s;
  xfer_deliver_iob data s := (Ok tt, State (conn s) (world s ++ data));
  intf_shutdown _ w := w;
|}.

(** An established connection whose sequence numbers are about to wrap, with
    the segment at offset 2 queued. *)
Definition example_conn : tcp_connection :=
  set_rx_queue [RxEntry 1 4 1 [12; 13]]
    (set_rcv_win 1000 (set_rcv_ack (2 ^ 32 - 1)
      (set_tcp_state TCP_ESTABLISHED (new_connection (SockaddrTcpip 2 0 80 0 []) 0)))).

Lemma tcp_reassembly_witness :
  exists s', @tcp_process_rx_queue _ log_env
      (upd (tcp_rx_enqueue (u32 (2 ^ 32 - 1 + 0)) TCP_ACK [10; 11; 12]) (State example_conn [])) = Some s' /\
    world s' = [10; 11; 12; 13].
Proof.
  destruct (@tcp_reassembly _ log_env [10; 11; 12; 13] (2 ^ 32 - 1) (fun w => w) [] 0 0 [10; 11; 12] TCP_ACK
    (State example_conn [])) as (p' & s' & E & _).
  - intros data s. simpl. by split_and!.
  - done.
  - split; [by split_and!|]. exists [2]. split; [|by repeat constructor].
    split_and!; [|by repeat constructor|by repeat constructor]. constructor; [|constructor].
    split_and!; [|done|done]. split_and!; done.
  - split_and!; done.
  - done.
  - done.
  - exists s'. split; [exact E|].
    assert (world <$> @tcp_process_rx_queue _ log_env
      (upd (tcp_rx_enqueue (u32 (2 ^ 32 - 1 + 0)) TCP_ACK [10; 11; 12]) (State example_conn [])) = Some [10; 11; 12; 13]) as F
      by (vm_compute; reflexivity).
    rewrite E in F. by injection F.
Defined.

(** ** Selective acknowledgement *)

Section sack.
Context (stream : list Z) (irs p : Z).

(** Position [x] lies in a queued segment (a FIN counts as one position). *)
Definition covered (q : list rx_entry) (x : Z) : Prop :=
  exists e off, e ∈ q /\ entry_at stream irs off e /\
    off <= x < off + Z.of_nat (length (q_data e)) + fin_len (q_flags e).

(** The block from [lft] to [rgt] is part of the stream and queued. *)
Definition true_block (q : list rx_entry) (b : Z * Z) : Prop :=
  exists l r, fst b = u32 (irs + l) /\ snd b = u32 (irs + r) /\ l <= r <= p + 2 ^ 30 + 2 ^ 29 /\ p <= r /\
    forall x, l <= x < r -> covered q x.

Definition entries_near (q : list rx_entry) : Prop :=
  Forall (fun e => exists off, entry_at stream irs off e /\ p < off < p + 2 ^ 30) q.

Lemma sack_scan_true q0 q seq b :
  entries_near q -> (forall e, e ∈ q -> e ∈ q0) -> true_block q0 b ->
  true_block q0 (sack_scan q seq (fst b) (snd b)).
Proof.
  intros Hq Hin. revert b. induction Hq as [|e q (off & He & Ho) Hq IH]; intros b (l & r & E1 & E2 & [Hlr1 Hlr2] & Hr & Hc);
    cbn [sack_scan].
  { exists l, r. by split_and!. }
  pose proof He as (Hseg & Es & En). pose proof Hseg as (S1 & _ & S3 & _ & S5). pose proof (fin_len_bound (q_flags e)).
  set (n := off + Z.of_nat (length (q_data e)) + fin_len (q_flags e)) in *.
  assert (q_nxt e = u32 (irs + n)) as En' by (rewrite En; f_equal; lia).
  assert (forall x, off <= x < n -> covered q0 x) as Hcov.
  { intros x Hx. exists e, off. split_and!; [apply Hin; left|done|lia|lia]. }
  assert (tcp_cmp (q_seq e) (snd b) = off - r) as C1 by (rewrite Es, E2, tcp_cmp_spec; lia).
  assert (tcp_cmp (q_nxt e) (snd b) = n - r) as C2 by (rewrite En', E2, tcp_cmp_spec; lia).
  assert (forall e', e' ∈ q -> e' ∈ q0) as Hin' by (intros e' ?; apply Hin; by right).
  rewrite C1, C2. case_decide as H1.
  - case_decide; [exists l, r; by split_and!|]. apply (IH Hin' (_, _)). exists off, (Z.max n r). cbn [fst snd].
    split_and!; [done| |lia..|].
    + case_decide; [rewrite En'|rewrite E2]; do 2 f_equal; lia.
    + intros x Hx. apply Hcov. lia.
  - apply (IH Hin' (_, _)). exists l, (Z.max n r). cbn [fst snd]. split_and!; [done| |lia..|].
    + case_decide; [rewrite En'|rewrite E2]; do 2 f_equal; lia.
    + intros x Hx. destruct (decide (x < r)); [apply Hc; lia|apply Hcov; lia].
Qed.

Definition reported_block (q : list rx_entry) (b : Z * Z) : Prop :=
  exists l r, fst b = u32 (irs + l) /\ snd b = u32 (irs + r) /\ l < r /\ forall x, l <= x < r -> covered q x.

Lemma tcp_sack_block_true c seq len b :
  entries_near (rx_queue c) -> rcv_ack c = u32 (irs + p) -> tcp_sack_block c seq = (len, Some b) -> len <> 0 ->
  reported_block (rx_queue c) b.
Proof.
  intros Hq Ha. unfold tcp_sack_block.
  pose proof (sack_scan_true (rx_queue c) (rx_queue c) seq (rcv_ack c, rcv_ack c) Hq ltac:(done)) as Hs. cbn [fst snd] in Hs.
  destruct (sack_scan _ _ _ _) as [lft rgt]. case_decide; [done|]. intros [= <- <-] Hlen.
  destruct Hs as (l & r & E1 & E2 & Hlr & _ & Hc).
  - exists p, p. cbn [fst snd]. split_and!; [done..|lia|lia|lia|lia].
  - cbn [fst snd] in E1, E2. exists l, r. split_and!; [done..| |done]. destruct (decide (l = r)) as [->|]; [|lia].
    exfalso. apply Hlen. rewrite E1, E2, Z.sub_diag. done.
Qed.

Lemma sack_loop_true c old acc :
  entries_near (rx_queue c) -> rcv_ack c = u32 (irs + p) ->
  Forall (reported_block (rx_queue c)) acc -> NoDup (map fst acc) -> Z.of_nat (length acc) <= TCP_SACK_MAX ->
  let new := sack_loop c old acc in
  Forall (reported_block (rx_queue c)) new /\ NoDup (map fst new) /\ Z.of_nat (length new) <= TCP_SACK_MAX.
Proof.
  intros Hq Ha. revert acc. induction old as [|[lft rgt] old IH]; intros acc Hb Hn Hl; cbn [sack_loop]; [by split_and!|].
  case_decide as Hmax; [by split_and!|]. case_decide; [by apply IH|].
  destruct (tcp_sack_block c lft) as [len [b|]] eqn:E; [|by apply IH]. case_decide as Hlen; [by apply IH|].
  destruct (existsb _ acc) eqn:Ex; [by apply IH|]. apply IH.
  - apply Forall_app. split; [done|]. apply Forall_singleton. by eapply tcp_sack_block_true.
  - rewrite map_app. apply NoDup_app. split_and!; [done| |apply NoDup_singleton].
    intros x Hx Hx'%list_elem_of_singleton. subst x. apply list_elem_of_In, in_map_iff in Hx as (b' & E' & Hb').
    assert (existsb (fun b0 => bool_decide (fst b0 = fst b)) acc = true) as F; [|congruence].
    apply existsb_exists. exists b'. split; [done|]. by apply bool_decide_true.
  - rewrite length_app. simpl. unfold TCP_SACK_MAX in *. lia.
Qed.
End sack.

(** Selective acknowledgements are truthful.  Every block [tcp_sack] puts
    into an outgoing segment is a non-empty range of the peer's stream all of
    which lies in queued segments; there are at most three blocks, no two with
    the same left edge. *)
Theorem tcp_sack_truthful stream irs p offs c seq :
  queue_at stream irs p (rx_queue c) offs -> Forall (fun off => p < off) offs -> rcv_ack c = u32 (irs + p) ->
  let '(blocks, c') := tcp_sack c seq in
  Forall (reported_block stream irs (rx_queue c)) blocks /\ NoDup (map fst blocks) /\
  Z.of_nat (length blocks) <= TCP_SACK_MAX /\
  sack c' = blocks ++ replicate (3 - length blocks) (0, 0).
Proof.
  intros Hq Hbeyond Ha. unfold tcp_sack. set (first := match _ with (_, _) => _ end).
  assert (entries_near stream irs p (rx_queue c)) as Hnear.
  { destruct Hq as (H1 & _ & H3). clear -H1 H3 Hbeyond. induction H1 as [|off e offs q He Hq IH]; [constructor|].
    apply Forall_cons in H3 as [? ?], Hbeyond as [? ?]. constructor; [exists off; split; [done|lia]|by apply IH]. }
  assert (Forall (reported_block stream irs (rx_queue c)) first /\ NoDup (map fst first) /\
          Z.of_nat (length first) <= TCP_SACK_MAX) as (F1 & F2 & F3).
  { subst first. destruct (tcp_sack_block c seq) as [len [b|]] eqn:E; [|split_and!; [by apply Forall_nil|apply NoDup_nil_2|done]].
    case_decide; [split_and!; [by apply Forall_nil|apply NoDup_nil_2|done]|]. split_and!; [|apply NoDup_singleton|done].
    apply Forall_singleton. by eapply tcp_sack_block_true. }
  destruct (sack_loop_true stream irs p c (sack c) first Hnear Ha F1 F2 F3) as (G1 & G2 & G3).
  by split_and!.
Qed.

Lemma tcp_sack_truthful_witness :
  fst (tcp_sack example_conn 1) = [(1, 4)] /\
  Forall (reported_block [10; 11; 12; 13] (2 ^ 32 - 1) (rx_queue example_conn)) (fst (tcp_sack example_conn 1)).
Proof.
  split; [vm_compute; reflexivity|].
  pose proof (tcp_sack_truthful [10; 11; 12; 13] (2 ^ 32 - 1) 0 [2] example_conn 1) as G.
  destruct (tcp_sack example_conn 1) as [blocks c']. apply G; [|by repeat constructor|done].
  split_and!; [|by repeat constructor|by repeat constructor]. constructor; [|constructor].
  split_and!; [|done|done]. split_and!; done.
Defined.
