(* ===== verification/TcpTx.v ===== *)
(** * TCP transmission and acknowledgement

    The transmit side of Tcp: the transmit queue is the unacknowledged part
    of the stream the application sends, an acknowledgement removes exactly
    what it acknowledges, and the segments that are built are parsed back by
    the receive side. *)

From S2P Require Import Prelude CMem Tcpip Retry Tcp TcpRx.

(** ** The transmit queue *)

Lemma process_tx_queue_spec q n :
  let '(data, q', removed) := process_tx_queue q n in
  data = take n (concat q) /\ concat q' = drop n (concat q) /\ (removed + length q' = length q)%nat.
Proof.
  revert n. induction q as [|iobuf q IH]; intros n; cbn [process_tx_queue concat].
  { by rewrite take_nil, drop_nil. }
  set (frag := if decide (n < length iobuf)%nat then n else length iobuf).
  assert (frag = Nat.min n (length iobuf)) as Ef by (unfold frag; case_decide; lia). clearbody frag.
  specialize (IH (n - frag)%nat). destruct (process_tx_queue q (n - frag)) as [[data q'] removed].
  destruct IH as (I1 & I2 & I3).
  assert (take n (iobuf ++ concat q) = take frag iobuf ++ data) as Ht.
  { rewrite I1. destruct (decide (n < length iobuf)%nat).
    - replace (n - frag)%nat with 0%nat by lia. rewrite take_0, app_nil_r, take_app_le by lia. f_equal. lia.
    - rewrite take_app_ge by lia. rewrite (take_ge iobuf frag) by lia. do 2 f_equal. lia. }
  assert (drop n (iobuf ++ concat q) = drop frag iobuf ++ concat q') as Hd.
  { rewrite I2. destruct (decide (n < length iobuf)%nat).
    - replace (n - frag)%nat with 0%nat by lia. rewrite drop_0, drop_app_le by lia. do 2 f_equal. lia.
    - rewrite drop_app_ge by lia. rewrite (drop_ge iobuf frag) by lia. simpl. f_equal. lia. }
  rewrite Ht, Hd. destruct (drop frag iobuf) as [|x left_] eqn:El; simpl; split_and!; done || lia.
Qed.

Lemma repeat_put_tx n c :
  tx_queue (repeat_put n c) = tx_queue c /\ snd_seq (repeat_put n c) = snd_seq c /\
  snd_sent (repeat_put n c) = snd_sent c /\ tcp_state (repeat_put n c) = tcp_state c /\
  cflags (repeat_put n c) = cflags c /\ timer (repeat_put n c) = timer c /\ snd_win (repeat_put n c) = snd_win c.
Proof.
  revert c. induction n as [|n IH]; intros c; cbn [repeat_put]; [by split_and!|].
  destruct (IH (pending_put_data c)) as (-> & -> & -> & -> & -> & -> & ->).
  unfold pending_put_data. case_decide; by split_and!.
Qed.

Lemma remove_tx_queue_spec n c :
  0 <= n -> let c' := tcp_remove_tx_queue n c in
  concat (tx_queue c') = drop (Z.to_nat n) (concat (tx_queue c)) /\ snd_seq c' = snd_seq c /\
  snd_sent c' = snd_sent c /\ tcp_state c' = tcp_state c /\ cflags c' = cflags c /\ timer c' = timer c /\
  snd_win c' = snd_win c.
Proof.
  intros Hn. unfold tcp_remove_tx_queue. pose proof (process_tx_queue_spec (tx_queue c) (Z.to_nat n)) as H.
  destruct (process_tx_queue _ _) as [[d q] r]. destruct H as (_ & H2 & _).
  destruct (repeat_put_tx r (set_tx_queue q c)) as (-> & -> & -> & -> & -> & -> & ->). by split_and!.
Qed.

Lemma peek_tx_queue_spec c n : tcp_peek_tx_queue c n = take (Z.to_nat n) (concat (tx_queue c)).
Proof.
  unfold tcp_peek_tx_queue. pose proof (process_tx_queue_spec (tx_queue c) (Z.to_nat n)) as H.
  destruct (process_tx_queue _ _) as [[d q] r]. by destruct H as (-> & _).
Qed.

(** ** Acknowledgements *)

Definition acked_flags (c : tcp_connection) : Z := Z.land (TCP_FLAGS_SENDING (tcp_state c)) (Z.lor TCP_SYN TCP_FIN).
Definition flags_len (c : tcp_connection) : Z := if decide (acked_flags c <> 0) then 1 else 0.

(** An acknowledgement stops the timer; what else is pending does not matter
    for the transmit queue. *)
Lemma acked_timer {W} `{TcpEnv W} (s : state W) (flags : Z) :
  let s2 := upd (fun c => set_timer (stopped (now s) (timer c)) c) s in
  let s3 := if decide (flags <> 0) then upd pending_put_flags s2 else s2 in
  world s3 = world s /\ tx_queue (conn s3) = tx_queue (conn s) /\ running (timer (conn s3)) = false /\
  tcp_state (conn s3) = tcp_state (conn s) /\ snd_win (conn s3) = snd_win (conn s) /\ cflags (conn s3) = cflags (conn s).
Proof.
  intros s2 s3. assert (running (stopped (now s) (timer (conn s))) = false) as Hst.
  { unfold stopped. destruct (running (timer (conn s))) eqn:Er; [apply stop_update_fields|done]. }
  assert (world s2 = world s /\ tx_queue (conn s2) = tx_queue (conn s) /\ running (timer (conn s2)) = false /\
    tcp_state (conn s2) = tcp_state (conn s) /\ snd_win (conn s2) = snd_win (conn s) /\ cflags (conn s2) = cflags (conn s))
    as (J1 & J2 & J3 & J4 & J5 & J6) by (by split_and!).
  clearbody s2. subst s3. destruct (decide (flags <> 0)); [|by split_and!]. cbn [upd conn world].
  unfold pending_put_flags. destruct (decide (pending_flags (conn s2) <> 0)); by split_and!.
Qed.

(** C21: acknowledgement processing, on every branch.  An acknowledgement of
    more than was sent changes nothing, and is an error unless the connection
    was established; one that acknowledges nothing new leaves the transmit
    queue, the sequence number and the retransmission timer alone; any other
    advances the sequence number to it, removes exactly the acknowledged data
    bytes from the transmit queue (a SYN or FIN in flight counts for one), stops
    the retransmission timer and marks the SYN or FIN as acknowledged; and if
    this empties the queue of a connection that the application has closed,
    the FIN is marked to be sent, once. *)
Theorem tcp_rx_ack_correct {W} `{TcpEnv W} (s : state W) ack win :
  let c := conn s in let ack_len := u32 (ack - snd_seq c) in
  let '(rc, s') := tcp_rx_ack s ack win in let c' := conn s' in
  world s' = world s /\
  (ack_len > snd_sent c -> s' = s /\ (rc = Ok tt <-> TCP_HAS_BEEN_ESTABLISHED (tcp_state c) = true)) /\
  (ack_len <= snd_sent c -> rc = Ok tt /\ snd_win c' = win /\
    (ack_len = 0 -> tx_queue c' = tx_queue c /\ snd_seq c' = snd_seq c /\ snd_sent c' = snd_sent c /\
                    timer c' = timer c /\ tcp_state c' = tcp_state c) /\
    (ack_len <> 0 -> snd_seq c' = ack /\ snd_sent c' = 0 /\ running (timer c') = false /\
      concat (tx_queue c') = drop (Z.to_nat (ack_len - flags_len c)) (concat (tx_queue c)) /\
      let state := Z.lor (tcp_state c) (TCP_STATE_ACKED (acked_flags c)) in
      tcp_state c' =
        (if bool_decide (tx_queue c' = []) && has (cflags c) TCP_XFER_CLOSED && negb (has state (TCP_STATE_SENT TCP_FIN))
         then Z.lor state (TCP_STATE_SENT TCP_FIN) else state))).
Proof.
  intros c ack_len. unfold tcp_rx_ack. fold c. fold ack_len.
  destruct (decide (ack_len > snd_sent c)) as [Hgt|Hle].
  { destruct (TCP_HAS_BEEN_ESTABLISHED (tcp_state c)); (split; [done|]; split; [by intros; split|lia]). }
  set (s1 := if has _ _ then _ else _).
  assert (world s1 = world s /\ tx_queue (conn s1) = tx_queue c /\ snd_seq (conn s1) = snd_seq c /\
    snd_sent (conn s1) = snd_sent c /\ timer (conn s1) = timer c /\ tcp_state (conn s1) = tcp_state c /\
    snd_win (conn s1) = win /\ cflags (conn s1) = cflags c) as (E1 & E2 & E3 & E4 & E5 & E6 & E7 & E8)
    by (subst s1; destruct (has _ _); by split_and!).
  clearbody s1. destruct (decide (ack_len = 0)) as [Hz|Hz].
  { split; [done|]. split; [lia|]. intros _. split_and!; [done..|intros _; by split_and!|lia]. }
  set (s2 := upd _ s1). change (tcp_state (conn s2)) with (tcp_state (conn s1)). rewrite E6. fold (acked_flags c).
  set (s3 := if decide _ then upd pending_put_flags s2 else s2).
  destruct (acked_timer s1 (acked_flags c)) as (F1 & F2 & F3 & F4 & F5 & F6). cbv zeta in F1, F2, F3, F4, F5, F6.
  fold s2 s3 in F1, F2, F3, F4, F5, F6.
  rewrite E1 in F1. rewrite E2 in F2. rewrite E6 in F4. rewrite E7 in F5. rewrite E8 in F6.
  clearbody s3. cbv zeta. set (s4 := upd _ s3).
  assert (0 <= ack_len < 2 ^ 32) as Hb by (apply wrap_bound; lia).
  replace (if decide (acked_flags c <> 0) then ack_len - 1 else ack_len) with (ack_len - flags_len c)
    by (unfold flags_len; case_decide; lia).
  assert (0 <= ack_len - flags_len c) as Hlen by (unfold flags_len; case_decide; lia).
  set (s5 := upd _ s4). destruct (remove_tx_queue_spec (ack_len - flags_len c) (conn s4) Hlen) as (G1 & G2 & G3 & G4 & G5 & G6 & G7).
  change (tcp_remove_tx_queue _ (conn s4)) with (conn s5) in *.
  assert (world s5 = world s) as G8 by done. clearbody s5.
  cbn [s4 upd conn set_snd_sent set_snd_seq snd_seq snd_sent tcp_state tx_queue timer snd_win cflags] in G1, G2, G3, G4, G5, G6, G7.
  set (s6 := if decide (acked_flags c <> 0) then _ else s5).
  assert (world s6 = world s /\ tx_queue (conn s6) = tx_queue (conn s5) /\ snd_seq (conn s6) = ack /\ snd_sent (conn s6) = 0 /\
    running (timer (conn s6)) = false /\ snd_win (conn s6) = win /\
    tcp_state (conn s6) = Z.lor (tcp_state c) (TCP_STATE_ACKED (acked_flags c)) /\ cflags (conn s6) = cflags c)
    as (K1 & K2 & K3 & K4 & K5 & K6 & K7 & K8).
  { subst s6. case_decide as Hf; cbn [upd conn world or_state set_tcp_state tx_queue snd_seq snd_sent timer snd_win tcp_state cflags];
      rewrite ?G6, ?G5, ?G4, ?F4, ?F6; split_and!; try done; try congruence.
    replace (acked_flags c) with 0 by (destruct (decide (acked_flags c = 0)); [done|tauto]). by rewrite Z.lor_0_r. }
  clearbody s6. rewrite <- K2 in G1. rewrite F2 in G1. cbv zeta. rewrite K7, K8. destruct (_ && _ && _) eqn:Ec.
  - set (s7 := upd _ s6). assert (tx_queue (conn s7) = tx_queue (conn s6)) as L1 by done.
    assert (tcp_state (conn s7) = Z.lor (tcp_state (conn s6)) (TCP_STATE_SENT TCP_FIN)) as L2 by done.
    split; [done|]. split; [lia|]. intros _. split_and!; [done..|lia|]. intros _. rewrite L1, L2, Ec, K7. by split_and!.
  - split; [done|]. split; [lia|]. intros _. split_and!; [done..|lia|]. intros _. rewrite Ec. by split_and!.
Qed.

(** An established connection with five bytes queued in two buffers. *)
Definition sending_conn : tcp_connection :=
  set_tx_queue [[1; 2; 3]; [4; 5]] (set_snd_sent 5 (set_snd_seq (2 ^ 32 - 2)
    (set_tcp_state TCP_ESTABLISHED (new_connection (SockaddrTcpip 2 0 80 0 []) 0)))).

(** ** Segments *)

Lemma byte_u8 z : is_byte (u8 z).
Proof. by apply wrap_bound. Qed.

(** The checksum field sits between the first 16 bytes and the last two. *)
Lemma tcp_header_chksum src dest seq ack hlen flags win opts payload :
  bytes opts -> bytes payload ->
  let header := tcp_header src dest seq ack hlen flags win in
  generic_tcpip_continue_chksum 0 (header (tcpip_chksum (header 0 ++ opts ++ payload)) ++ opts ++ payload) = 0.
Proof.
  intros Ho Hp header. unfold header, tcp_header.
  set (hdr := be16 src ++ be16 dest ++ be32 seq ++ be32 ack ++ [u8 hlen; u8 flags] ++ be16 win).
  assert (forall c, be16 src ++ be16 dest ++ be32 seq ++ be32 ack ++ [u8 hlen; u8 flags] ++ be16 win ++
    [u8 c; u8 (Z.shiftr c 8)] ++ be16 0 = hdr ++ [u8 c; u8 (Z.shiftr c 8)] ++ be16 0) as E by done.
  rewrite !E, <- !app_assoc. change (u8 0) with 0. change (u8 (Z.shiftr 0 8)) with 0.
  assert (bytes hdr) as Hh.
  { unfold hdr. repeat apply Forall_app_2; try apply be_bytes. repeat constructor; apply byte_u8. }
  assert (bytes (be16 0 ++ opts ++ payload)) as Hr by (repeat apply Forall_app_2; [apply be_bytes|done|done]).
  pose proof (chksum_stored_verifies hdr (be16 0 ++ opts ++ payload) Hh Hr eq_refl) as V. cbv zeta in V.
  assert (in_width 16 (tcpip_chksum (hdr ++ [0; 0] ++ be16 0 ++ opts ++ payload))) as Hc.
  { apply continue_chksum_width; [done|]. apply Forall_app_2; [done|]. apply Forall_app_2; [by repeat constructor|done]. }
  clearbody hdr. remember (tcpip_chksum (hdr ++ [0; 0] ++ be16 0 ++ opts ++ payload)) as c eqn:Ec. clear Ec.
  assert (u8 (Z.shiftr c 8) = c / 256) as Eh; [|rewrite Eh; exact V].
  rewrite Z.shiftr_div_pow2 by lia. apply wrap_small. split; [apply Z.div_pos|apply Z.div_lt_upper_bound]; zlia.
Qed.

Lemma sack_option_bytes blocks :
  (length blocks <= 3)%nat -> bytes (sack_option blocks).
Proof.
  intros Hl. unfold sack_option. repeat constructor; try lia; try done.
  induction blocks as [|b blocks IH]; simpl; [constructor|]. simpl in Hl.
  repeat constructor; try apply byte_u8. apply IH. lia.
Qed.

Lemma sack_option_length blocks : Z.of_nat (length (sack_option blocks)) = 4 + 8 * Z.of_nat (length blocks).
Proof.
  unfold sack_option. rewrite length_app. cbn [length].
  assert (length (concat (map (fun b => be32 (fst b) ++ be32 (snd b)) blocks)) = 8 * length blocks)%nat as ->; [|lia].
  induction blocks as [|b blocks IH]; [done|]. cbn [map concat]. rewrite length_app, IH. simpl. lia.
Qed.

(** The options of a segment and their parse. *)
Definition seg_opts (syn ts : bool) (blocks : list (Z * Z)) (mss tsval tsecr : Z) : list Z :=
  (match blocks with [] => [] | _ => sack_option blocks end) ++
  (if syn || ts then ts_option tsval tsecr else []) ++
  (if syn then sp_option ++ ws_option ++ mss_option mss else []).

Lemma rx_opts_nop fuel rest options : rx_opts_loop (S fuel) (TCP_OPTION_NOP :: rest) options = rx_opts_loop fuel rest options.
Proof. reflexivity. Qed.

Lemma rx_opts_step fuel kind len body rest options :
  kind <> 0 -> kind <> 1 -> len = Z.of_nat (2 + length body) ->
  let data := kind :: len :: body ++ rest in
  fst (rx_option kind data options) <= len ->
  rx_opts_loop (S fuel) data options = rx_opts_loop fuel rest (snd (rx_option kind data options)).
Proof.
  intros Hk0 Hk1 Hlen data Hmin. cbn [rx_opts_loop data]. fold data. rewrite !decide_False by done.
  destruct (rx_option kind data options) as [min options']. cbn [fst snd] in *.
  assert (Z.of_nat (length data) = 2 + Z.of_nat (length body) + Z.of_nat (length rest)) as El
    by (unfold data; cbn [length]; rewrite length_app; lia).
  change (get8 data 1) with len. rewrite !decide_False by lia. rewrite Hlen, Nat2Z.id. f_equal.
  change (2 + length body)%nat with (S (S (length body))). cbn [drop data]. apply drop_app_length.
Qed.

Lemma rx_opts_nil fuel options : rx_opts_loop fuel [] options = Ok options.
Proof. by destruct fuel. Qed.

Lemma rx_opts_sack fuel blocks rest options :
  rx_opts_loop (S (S (S fuel))) (sack_option blocks ++ rest) options = rx_opts_loop fuel rest options.
Proof.
  unfold sack_option. cbn [app]. rewrite !rx_opts_nop, rx_opts_step; [done|done|done| |].
  - pose proof (sack_option_length blocks) as E. unfold sack_option in E. rewrite length_app in E. cbn [length] in E. lia.
  - simpl. lia.
Qed.

Lemma rx_opts_ts fuel tsval tsecr rest options :
  in_width 32 tsval ->
  rx_opts_loop (S (S (S fuel))) (ts_option tsval tsecr ++ rest) options
  = rx_opts_loop fuel rest (TcpOptions (wsopt options) (spopt options) (Some tsval)).
Proof.
  intros Hw. unfold ts_option. rewrite <- app_assoc. cbn [app]. rewrite !rx_opts_nop.
  rewrite (rx_opts_step fuel TCP_OPTION_TS 10 (be32 tsval ++ be32 tsecr)); [|done..].
  f_equal. unfold rx_option. rewrite !decide_False, decide_True by done. cbn [snd]. do 2 f_equal.
  unfold get32, get8. cbn [nth be32 app Nat.add]. by apply be32_value.
Qed.

Lemma rx_opts_syn fuel mss options :
  rx_opts_loop (7 + fuel) (sp_option ++ ws_option ++ mss_option mss) options
  = Ok (TcpOptions (Some TCP_RX_WINDOW_SCALE) true (tsopt options)).
Proof.
  unfold sp_option, ws_option, mss_option. change (7 + fuel)%nat with (S (S (S (S (S (S (S fuel))))))). cbn [app].
  pose proof (fun f r o => rx_opts_step f TCP_OPTION_SACK_PERMITTED 2 [] r o) as E1.
  pose proof (fun f r o => rx_opts_step f TCP_OPTION_WS 3 [TCP_RX_WINDOW_SCALE] r o) as E2.
  pose proof (fun f o => rx_opts_step f TCP_OPTION_MSS 4 (be16 mss) [] o) as E3.
  cbn [app] in E1, E2, E3. rewrite app_nil_r in E3.
  rewrite !rx_opts_nop, E1 by done. rewrite rx_opts_nop, E2 by done. rewrite E3 by done.
  rewrite rx_opts_nil. done.
Qed.

Lemma seg_opts_parse syn ts blocks mss tsval tsecr :
  in_width 32 tsval ->
  tcp_rx_opts (seg_opts syn ts blocks mss tsval tsecr)
  = Ok (TcpOptions (if syn then Some TCP_RX_WINDOW_SCALE else None) syn (if syn || ts then Some tsval else None)).
Proof.
  intros Hw. unfold tcp_rx_opts.
  assert (forall fuel rest, (length rest <= fuel)%nat -> rest = (if syn || ts then ts_option tsval tsecr else []) ++
            (if syn then sp_option ++ ws_option ++ mss_option mss else []) ->
    rx_opts_loop fuel rest (TcpOptions None false None)
    = Ok (TcpOptions (if syn then Some TCP_RX_WINDOW_SCALE else None) syn (if syn || ts then Some tsval else None))) as H.
  { intros fuel rest Hf ->. destruct syn; cbn [orb] in *.
    - replace fuel with (3 + (7 + (fuel - 10)))%nat by (simpl in Hf; lia). cbn [Nat.add]. rewrite rx_opts_ts by done.
      apply (rx_opts_syn (fuel - 10)).
    - destruct ts; [|apply rx_opts_nil]. replace fuel with (3 + (fuel - 3))%nat by (simpl in Hf; lia). cbn [Nat.add].
      rewrite rx_opts_ts by done. apply rx_opts_nil. }
  unfold seg_opts. set (rest := (if syn || ts then _ else _) ++ _) in *. destruct blocks as [|b blocks]; [by apply H|].
  pose proof (sack_option_length (b :: blocks)). rewrite length_app.
  replace (length (sack_option (b :: blocks)) + length rest)%nat
    with (S (S (S (length (sack_option (b :: blocks)) + length rest - 3)))) by (simpl in *; lia).
  rewrite rx_opts_sack. apply H; [simpl in *; lia|done].
Qed.

Lemma sack_loop_length c old acc :
  (length acc <= 3)%nat -> (length (sack_loop c old acc) <= 3)%nat.
Proof.
  revert acc. induction old as [|[lft rgt] old IH]; intros acc Hl; cbn [sack_loop]; [done|].
  destruct (decide (Z.of_nat (length acc) = TCP_SACK_MAX)) as [E|E]; [done|]. case_decide; [by apply IH|].
  destruct (tcp_sack_block c lft) as [len [b|]]; [|by apply IH]. case_decide; [by apply IH|].
  destruct (existsb _ acc); [by apply IH|]. apply IH. rewrite length_app. simpl. unfold TCP_SACK_MAX in E. lia.
Qed.

Lemma tcp_sack_length c seq : (length (fst (tcp_sack c seq)) <= 3)%nat.
Proof.
  unfold tcp_sack. cbn [fst]. apply sack_loop_length. destruct (tcp_sack_block c seq) as [len [b|]]; [|simpl; lia].
  case_decide; simpl; lia.
Qed.

Lemma seg_opts_length syn ts blocks mss tsval tsecr :
  (length blocks <= 3)%nat -> (syn = false \/ blocks = []) ->
  exists k, (length (seg_opts syn ts blocks mss tsval tsecr) = 4 * k)%nat /\ (k <= 10)%nat /\
  bytes (seg_opts syn ts blocks mss tsval tsecr).
Proof.
  intros Hl Hc. assert (bytes (seg_opts syn ts blocks mss tsval tsecr)) as Hb.
  { unfold seg_opts. repeat apply Forall_app_2.
    - destruct blocks; [constructor|by apply sack_option_bytes].
    - destruct (syn || ts); [|constructor]. unfold ts_option. repeat constructor; try apply byte_u8; done.
    - destruct syn; [|constructor]. unfold sp_option, ws_option, mss_option. repeat constructor; try apply byte_u8; done. }
  unfold seg_opts in *. rewrite !length_app in *. destruct Hc as [->| ->]; cbn [orb] in *.
  - destruct blocks as [|b blocks].
    + destruct ts; [exists 3%nat|exists 0%nat]; by split_and!; [|lia|].
    + pose proof (sack_option_length (b :: blocks)) as E. destruct ts;
        [exists (1 + 2 * length (b :: blocks) + 3)%nat|exists (1 + 2 * length (b :: blocks))%nat];
        (split; [cbn [length] in *; rewrite ?length_app; cbn [length ts_option app be32]; lia|split; [lia|done]]).
  - destruct syn; [exists 6%nat|destruct ts; [exists 3%nat|exists 0%nat]]; by split_and!; [|lia|].
Qed.

Lemma hlen_field k : (k <= 10)%nat -> Z.land (u8 (Z.shiftl (20 + Z.of_nat (4 * k)) 2)) TCP_MASK_HLEN / 16 * 4 = 20 + Z.of_nat (4 * k).
Proof. intros Hk. do 11 (destruct k as [|k]; [reflexivity|]). lia. Qed.

(** The blocks of a selective acknowledgement in a segment. *)
Definition sack_blocks (c : tcp_connection) (sack_seq : Z) : list (Z * Z) * tcp_connection :=
  if has (cflags c) TCP_SACK_ENABLED && bool_decide (length (rx_queue c) <> 0)%nat then tcp_sack c sack_seq else ([], c).

Lemma sack_blocks_spec c sack_seq flags :
  has flags TCP_SYN = false \/ has (cflags c) TCP_SACK_ENABLED = false \/ rx_queue c = [] ->
  let bc := sack_blocks c sack_seq in
  (length (fst bc) <= 3)%nat /\ (has flags TCP_SYN = false \/ fst bc = []) /\
  local_port (snd bc) = local_port c /\ peer (snd bc) = peer c /\ snd_seq (snd bc) = snd_seq c /\
  rcv_ack (snd bc) = rcv_ack c /\ rcv_win (snd bc) = rcv_win c /\ rcv_win_scale (snd bc) = rcv_win_scale c.
Proof.
  intros Hsyn. unfold sack_blocks. destruct (has (cflags c) TCP_SACK_ENABLED); cbn [andb].
  - destruct (decide (length (rx_queue c) <> 0)%nat) as [Hq|Hq].
    + rewrite bool_decide_true by done. split_and!; try done; [apply tcp_sack_length|].
      destruct Hsyn as [?|[?|E]]; [by left|done|by rewrite E in Hq].
    + rewrite bool_decide_false by done. split_and!; try done; [simpl; lia|by right].
  - split_and!; try done; [simpl; lia|by right].
Qed.

(** C22: what [tcp_xmit_sack] builds, [tcp_rx] parses.  Unless a SYN is sent
    together with selective acknowledgements, the packet passes every check of
    the receive path (length, header length and checksum), its header fields
    are those of the connection, its options parse to what was put in, and the
    payload is what follows the header. *)
Theorem tcp_segment_roundtrip {W} `{TcpEnv W} (s : state W) flags len payload sack_seq :
  let c := conn s in
  in_width 16 (local_port c) -> in_width 16 (st_port (peer c)) -> in_width 32 (snd_seq c) ->
  in_width 32 (rcv_ack c) -> in_width 32 (now s) -> is_byte flags -> bytes payload ->
  has flags TCP_SYN = false \/ has (cflags c) TCP_SACK_ENABLED = false \/ rx_queue c = [] ->
  let packet := fst (tcp_build s flags len payload sack_seq) in
  exists hlen, tcp_rx_check packet 0 = Ok hlen /\
    get16 packet 0 = local_port c /\ get16 packet 2 = st_port (peer c) /\
    get32 packet 4 = snd_seq c /\ get32 packet 8 = rcv_ack c /\
    get8 packet 13 = (if decide (len <> 0) then Z.lor flags TCP_PSH else flags) /\
    get16 packet 14 = u16 (Z.shiftr (rcv_win c) (rcv_win_scale c)) /\
    drop (Z.to_nat hlen) packet = payload /\
    tcp_rx_opts (take (Z.to_nat (hlen - 20)) (drop 20 packet))
    = Ok (TcpOptions (if has flags TCP_SYN then Some TCP_RX_WINDOW_SCALE else None) (has flags TCP_SYN)
                     (if has flags TCP_SYN || has (cflags c) TCP_TS_ENABLED then Some (now s) else None)).
Proof.
  intros c Hlp Hpp Hss Hra Hnow Hfl Hpay Hsyn. unfold tcp_build. fold c.
  destruct (sack_blocks_spec c sack_seq flags Hsyn) as (B1 & B2 & E1 & E2 & E3 & E4 & E5 & E6).
  unfold sack_blocks in *. destruct (if has (cflags c) TCP_SACK_ENABLED && _ then _ else _) as [blocks c2].
  cbn [fst snd] in *. rewrite E1, E2, E3, E4, E5, E6. clear E1 E2 E3 E4 E5 E6.
  fold (seg_opts (has flags TCP_SYN) (has (cflags c) TCP_TS_ENABLED) blocks (mss c) (now s) (ts_recent c)).
  destruct (seg_opts_length (has flags TCP_SYN) (has (cflags c) TCP_TS_ENABLED) blocks (mss c) (now s) (ts_recent c) B1 B2)
    as (k & Ek & Hk & Hob).
  pose proof (seg_opts_parse (has flags TCP_SYN) (has (cflags c) TCP_TS_ENABLED) blocks (mss c) (now s) (ts_recent c) Hnow) as Hparse.
  set (opts := seg_opts _ _ _ _ _ _) in *. clearbody opts.
  set (flags' := if decide (len <> 0) then _ else flags).
  assert (is_byte flags') as Hf'.
  { unfold flags'. case_decide; [|done]. split; [apply Z.lor_nonneg; split; [zlia|done]|by apply lor_in_width]. }
  pose proof (tcp_header_chksum (local_port c) (st_port (peer c)) (snd_seq c) (rcv_ack c)
    (Z.shiftl (20 + Z.of_nat (length opts)) 2) flags' (Z.shiftr (rcv_win c) (rcv_win_scale c)) opts payload Hob Hpay) as Hcs.
  cbv zeta in Hcs. set (csum := tcpip_chksum _) in *. clearbody csum.
  set (win := Z.shiftr (rcv_win c) (rcv_win_scale c)) in *. clearbody win.
  exists (20 + Z.of_nat (length opts)).
  assert (length (tcp_header (local_port c) (st_port (peer c)) (snd_seq c) (rcv_ack c)
            (Z.shiftl (20 + Z.of_nat (length opts)) 2) flags' win csum) = 20%nat) as Hhl by done.
  split_and!.
  - unfold tcp_rx_check. rewrite length_app, Hhl, length_app. rewrite decide_False by lia.
    change (get8 (tcp_header _ _ _ _ _ _ _ _ ++ opts ++ payload) 12) with (u8 (Z.shiftl (20 + Z.of_nat (length opts)) 2)).
    rewrite Ek, hlen_field by done. rewrite !decide_False; [done|..|lia|lia]. rewrite Ek in Hcs. rewrite Hcs. by intros ?.
  - by apply be16_value.
  - by apply be16_value.
  - by apply be32_value.
  - by apply be32_value.
  - apply wrap_small. done.
  - exact (be16_wrap win).
  - rewrite Z2Nat.inj_add, Nat2Z.id by lia. change (Z.to_nat 20) with 20%nat. rewrite <- drop_drop.
    rewrite <- Hhl at 1. rewrite drop_app_length. apply drop_app_length.
  - rewrite <- Hhl at 1. rewrite drop_app_length. replace (Z.to_nat (20 + Z.of_nat (length opts) - 20)) with (length opts) by lia.
    by rewrite take_app_length.
Qed.

Lemma tcp_rx_ack_correct_witness :
  concat (tx_queue (conn (snd (@tcp_rx_ack _ log_env (State sending_conn []) 2 1000)))) = [5].
Proof.
  pose proof (@tcp_rx_ack_correct _ log_env (State sending_conn []) 2 1000) as H. cbv zeta in H.
  destruct (@tcp_rx_ack _ log_env (State sending_conn []) 2 1000) as [rc s'].
  destruct H as (_ & _ & H). destruct H as (_ & _ & _ & H); [done|]. destruct H as (_ & _ & _ & H & _); [done|]. exact H.
Defined.

Lemma tcp_segment_roundtrip_witness :
  exists hlen, tcp_rx_check (fst (@tcp_build _ log_env (State sending_conn []) TCP_ACK 5 [1; 2; 3; 4; 5] 0)) 0 = Ok hlen.
Proof.
  destruct (@tcp_segment_roundtrip _ log_env (State sending_conn []) TCP_ACK 5 [1; 2; 3; 4; 5] 0) as (hlen & E & _);
    [done..|by repeat constructor|by left|]. by exists hlen.
Defined.
