(* ===== verification/TcpState.v ===== *)
(** * The TCP state machine

    The state of a connection is a set of flags sent, acknowledged and
    received.  This file shows which of the combinations occur, under any
    sequence of packets, timer expiries and calls of the application, and two
    executions that leave the intended behaviour. *)

From S2P Require Import Prelude CMem Tcpip Retry Tcp TcpRx TcpTx.

(** The SYN was acknowledged but the peer's SYN has not arrived: the one
    combination that occurs and has no name in the source. *)
Definition SYN_ACKED : Z := Z.lor TCP_SYN_SENT (TCP_STATE_ACKED TCP_SYN).

(** The states of the diagram of a connection that is registered. *)
Definition diagram_states : list Z :=
  [TCP_SYN_SENT; TCP_SYN_RCVD; TCP_ESTABLISHED; TCP_FIN_WAIT_1; TCP_FIN_WAIT_2;
   TCP_CLOSING_OR_LAST_ACK; TCP_TIME_WAIT; TCP_CLOSE_WAIT].

(** Those and the state that the diagram does not have. *)
Definition live_states : list Z := diagram_states ++ [SYN_ACKED].

(** Between the arrival of a FIN and the close it causes, the state may also be
    [TCP_SYN_RCVD] with the FIN received. *)
Definition transient_states : list Z := Z.lor TCP_SYN_RCVD (TCP_STATE_RCVD TCP_FIN) :: live_states.

Definition sending_syn (c : tcp_connection) : bool := has (TCP_FLAGS_SENDING (tcp_state c)) TCP_SYN.

(** A live connection: its state is one of the above, a SYN that is being sent
    has been sent at least once, and the application has closed only if the
    peer's SYN was received. *)
Definition live_in (states : list Z) (c : tcp_connection) : Prop :=
  listed c = true /\ tcp_state c ∈ states /\ (sending_syn c = true -> snd_sent c = 1) /\
  (has (cflags c) TCP_XFER_CLOSED = true -> has (tcp_state c) (TCP_STATE_RCVD TCP_SYN) = true).

Definition deleted (c : tcp_connection) : Prop :=
  listed c = false /\ tcp_state c = TCP_CLOSED /\ rx_queue c = [].

Definition conn_ok (c : tcp_connection) : Prop := live_in live_states c \/ deleted c.

Lemma live_transient c : live_in live_states c -> live_in transient_states c.
Proof. intros (? & ? & ? & ?). split_and!; [done|by right|done|done]. Qed.

Lemma by_states (P : Z -> bool) l st : forallb P l = true -> st ∈ l -> P st = true.
Proof. intros H Hs. rewrite forallb_forall in H. by apply H, list_elem_of_In. Qed.

(** Decides a boolean fact about a state by evaluating it on every state. *)
Ltac by_state st Hs :=
  match goal with
  | |- ?G = true =>
    let P := eval pattern st in G in
    match P with ?f _ => refine (by_states f _ st _ Hs); vm_compute; reflexivity end
  end.

(** The state after everything in flight has been acknowledged. *)
Definition acked_state (st : Z) : Z :=
  Z.lor st (TCP_STATE_ACKED (Z.land (TCP_FLAGS_SENDING st) (Z.lor TCP_SYN TCP_FIN))).

Lemma acked_state_ok st :
  st ∈ transient_states ->
  acked_state st ∈ live_states /\ has (TCP_FLAGS_SENDING (acked_state st)) TCP_SYN = false /\
  has (acked_state st) (TCP_STATE_ACKED TCP_SYN) = true /\
  has (acked_state st) (TCP_STATE_RCVD TCP_SYN) = has st (TCP_STATE_RCVD TCP_SYN).
Proof.
  intros Hs. assert (bool_decide (acked_state st ∈ live_states) && negb (has (TCP_FLAGS_SENDING (acked_state st)) TCP_SYN) &&
    has (acked_state st) (TCP_STATE_ACKED TCP_SYN) &&
    bool_decide (has (acked_state st) (TCP_STATE_RCVD TCP_SYN) = has st (TCP_STATE_RCVD TCP_SYN)) = true) as Hf
    by by_state st Hs.
  rewrite !andb_true_iff, negb_true_iff, !bool_decide_eq_true in Hf. tauto.
Qed.

Lemma fin_state_ok st :
  st ∈ live_states -> has st (TCP_STATE_RCVD TCP_SYN) = true -> has st (TCP_STATE_ACKED TCP_SYN) = true ->
  let st' := Z.lor st (TCP_STATE_SENT TCP_FIN) in
  st' ∈ live_states /\ has st' (TCP_STATE_RCVD TCP_SYN) = true /\ has (TCP_FLAGS_SENDING st') TCP_SYN = false.
Proof.
  intros Hs H1 H2 st'. assert (negb (has st (TCP_STATE_RCVD TCP_SYN) && has st (TCP_STATE_ACKED TCP_SYN)) ||
    (bool_decide (st' ∈ live_states) && has st' (TCP_STATE_RCVD TCP_SYN) &&
     negb (has (TCP_FLAGS_SENDING st') TCP_SYN)) = true) as Hf
    by (unfold st'; clear H1 H2; by_state st Hs).
  rewrite H1, H2 in Hf. cbn [andb negb orb] in Hf. rewrite !andb_true_iff, negb_true_iff, bool_decide_eq_true in Hf. tauto.
Qed.

Lemma rx_syn_state st :
  st ∈ live_states -> let st' := Z.lor st (Z.lor (TCP_STATE_SENT TCP_ACK) (TCP_STATE_RCVD TCP_SYN)) in
  st' ∈ live_states /\ has (TCP_FLAGS_SENDING st') TCP_SYN = has (TCP_FLAGS_SENDING st) TCP_SYN /\
  has st' (TCP_STATE_RCVD TCP_SYN) = true.
Proof.
  intros Hs st'. assert (bool_decide (st' ∈ live_states) &&
    bool_decide (has (TCP_FLAGS_SENDING st') TCP_SYN = has (TCP_FLAGS_SENDING st) TCP_SYN) &&
    has st' (TCP_STATE_RCVD TCP_SYN) = true) as Hf by (unfold st'; by_state st Hs).
  rewrite !andb_true_iff, !bool_decide_eq_true in Hf. tauto.
Qed.

Lemma rx_fin_state st :
  st ∈ live_states -> has st (TCP_STATE_RCVD TCP_SYN) = true -> let st' := Z.lor st (TCP_STATE_RCVD TCP_FIN) in
  st' ∈ transient_states /\ has (TCP_FLAGS_SENDING st') TCP_SYN = has (TCP_FLAGS_SENDING st) TCP_SYN.
Proof.
  intros Hs Hr st'. assert (negb (has st (TCP_STATE_RCVD TCP_SYN)) || (bool_decide (st' ∈ transient_states) &&
    bool_decide (has (TCP_FLAGS_SENDING st') TCP_SYN = has (TCP_FLAGS_SENDING st) TCP_SYN)) = true) as Hf
    by (unfold st'; clear Hr; by_state st Hs).
  rewrite Hr in Hf. cbn [negb orb] in Hf. rewrite !andb_true_iff, !bool_decide_eq_true in Hf. tauto.
Qed.

(** ** Handlers *)

Section handlers.
Context {W : Type} `{env : TcpEnv W}.

(** The outcomes of [tcp_rx_ack] as far as the state machine sees them. *)
Lemma tcp_rx_ack_state (s : state W) ack win :
  let c := conn s in let c' := conn (snd (tcp_rx_ack s ack win)) in
  listed c' = listed c /\ cflags c' = cflags c /\
  ((tcp_state c' = tcp_state c /\ snd_sent c' = snd_sent c /\
    (u32 (ack - snd_seq c) <> 0 -> u32 (ack - snd_seq c) > snd_sent c)) \/
   (snd_sent c' = 0 /\ u32 (ack - snd_seq c) <> 0 /\
    (tcp_state c' = acked_state (tcp_state c) \/
     (tcp_state c' = Z.lor (acked_state (tcp_state c)) (TCP_STATE_SENT TCP_FIN) /\ has (cflags c) TCP_XFER_CLOSED = true)))).
Proof.
  intros c. unfold tcp_rx_ack. fold c. set (ack_len := u32 (ack - snd_seq c)).
  destruct (decide (ack_len > snd_sent c)) as [Hgt|Hle].
  { destruct (TCP_HAS_BEEN_ESTABLISHED (tcp_state c)); (split; [done|]; split; [done|]; left; by split_and!). }
  set (s1 := if has _ _ then _ else _).
  assert (snd_sent (conn s1) = snd_sent c /\ tcp_state (conn s1) = tcp_state c /\ listed (conn s1) = listed c /\
    cflags (conn s1) = cflags c) as (E1 & E2 & E3 & E4) by (subst s1; destruct (has _ _); by split_and!).
  clearbody s1. destruct (decide (ack_len = 0)) as [Hz|Hz].
  { split; [done|]. split; [done|]. left. by split_and!; [..|lia]. }
  set (s2 := upd _ s1). change (tcp_state (conn s2)) with (tcp_state (conn s1)). rewrite E2.
  set (af := Z.land _ _). set (s3 := if decide _ then upd pending_put_flags s2 else s2).
  assert (tcp_state (conn s3) = tcp_state c /\ listed (conn s3) = listed c /\ cflags (conn s3) = cflags c) as (F1 & F2 & F3).
  { assert (tcp_state (conn s2) = tcp_state c /\ listed (conn s2) = listed c /\ cflags (conn s2) = cflags c) as (J1 & J2 & J3)
      by (by split_and!).
    clearbody s2. subst s3. destruct (decide (af <> 0)); [|by split_and!]. cbn [upd conn].
    unfold pending_put_flags. destruct (decide (pending_flags (conn s2) <> 0)); by split_and!. }
  clearbody s3. cbv zeta. set (s4 := upd _ s3). set (n := if decide (af <> 0) then ack_len - 1 else ack_len).
  assert (0 <= ack_len < 2 ^ 32) as Hb by (apply wrap_bound; lia).
  assert (0 <= n) as Hn by (unfold n; case_decide; lia). clearbody n.
  destruct (remove_tx_queue_spec n (conn s4) Hn) as (_ & _ & G3 & G4 & G5 & _).
  assert (listed (tcp_remove_tx_queue n (conn s4)) = listed c) as G6.
  { unfold tcp_remove_tx_queue. destruct (process_tx_queue _ _) as [[d q] r].
    assert (forall m c0, listed (repeat_put m c0) = listed c0) as L.
    { clear. induction m as [|m IH]; intros c0; [done|]. cbn [repeat_put]. rewrite IH. unfold pending_put_data. by case_decide. }
    by rewrite L. }
  set (s5 := upd (tcp_remove_tx_queue n) s4). change (tcp_remove_tx_queue n (conn s4)) with (conn s5) in *. clearbody s5.
  cbn [s4 upd conn set_snd_sent set_snd_seq snd_sent tcp_state cflags] in G3, G4, G5. rewrite F1 in G4. rewrite F3 in G5.
  set (s6 := if decide (af <> 0) then upd (or_state (TCP_STATE_ACKED af)) s5 else s5).
  assert (listed (conn s6) = listed c /\ cflags (conn s6) = cflags c /\ snd_sent (conn s6) = 0 /\
    tcp_state (conn s6) = acked_state (tcp_state c)) as (K1 & K2 & K3 & K4).
  { subst s6. unfold acked_state. fold af. destruct (decide (af <> 0)) as [Hf|Hf];
      cbn [upd conn or_state set_tcp_state listed cflags snd_sent tcp_state]; split_and!; try done.
    - by rewrite G4.
    - replace af with 0 by (destruct (decide (af = 0)); [done|tauto]). by rewrite Z.lor_0_r. }
  clearbody s6. destruct (_ && _ && _) eqn:Ec; cbn [snd].
  - split; [done|]. split; [done|]. right. split_and!; [done..|]. right.
    rewrite !andb_true_iff in Ec. destruct Ec as [[_ Ec] _]. split; [|by rewrite <- K2].
    cbn [upd conn pending_get_flags set_pending_flags or_state set_tcp_state tcp_state]. by rewrite K4.
  - split; [done|]. split; [done|]. right. split_and!; [done..|]. by left.
Qed.

Lemma tcp_rx_ack_live states s ack win :
  states = live_states \/ states = transient_states -> live_in states (conn s) ->
  live_in states (conn (snd (tcp_rx_ack s ack win))) /\
  (u32 (ack - snd_seq (conn s)) <> 0 -> u32 (ack - snd_seq (conn s)) <= snd_sent (conn s) ->
   live_in live_states (conn (snd (tcp_rx_ack s ack win))) /\
   has (tcp_state (conn (snd (tcp_rx_ack s ack win)))) (TCP_STATE_ACKED TCP_SYN) = true).
Proof.
  intros Hst Hl. destruct (tcp_rx_ack_state s ack win) as (A1 & A2 & A3).
  assert (live_in transient_states (conn s)) as Ht by (destruct Hst as [->| ->]; [by apply live_transient|done]).
  assert (forall c, live_in live_states c -> live_in states c) as Hsub
    by (intros c Hc; destruct Hst as [->| ->]; [done|by apply live_transient]).
  destruct (snd (tcp_rx_ack s ack win)) as [c' w']. cbn [conn] in *. set (c := conn s) in *.
  pose proof Ht as (L1 & L2 & L3 & L4). destruct A3 as [(B1 & B2 & B3)|(B1 & B2 & B3)].
  - split; [|intros Hz Hle; exfalso; specialize (B3 Hz); lia].
    destruct Hl as (M1 & M2 & M3 & M4). unfold live_in, sending_syn in *. rewrite A1, A2, B1, B2. split_and!; assumption.
  - destruct (acked_state_ok _ L2) as (C1 & C2 & C3 & C4).
    assert (live_in live_states c' /\ has (tcp_state c') (TCP_STATE_ACKED TCP_SYN) = true) as [D1 D2]; [|split; [by apply Hsub|done]].
    unfold live_in, sending_syn. rewrite A1, A2, B1. destruct B3 as [E|[E Hx]]; rewrite E.
    + split; [|done]. split_and!; [done|done|by rewrite C2|rewrite C4; exact L4].
    + destruct (fin_state_ok _ C1) as (F1 & F2 & F3); [rewrite C4; by apply L4|done|].
      split; [|by apply has_or]. split_and!; [done|done|by rewrite F3|done].
Qed.

Lemma put_flags_state c : tcp_state (pending_put_flags c) = tcp_state c.
Proof. unfold pending_put_flags. by case_decide. Qed.

Lemma tcp_delete_state s : deleted (conn (tcp_delete s)).
Proof.
  unfold tcp_delete. cbv zeta. split; [done|].
  set (s1 := upd (set_rx_queue []) _).
  assert (tcp_state (conn s1) = TCP_CLOSED /\ rx_queue (conn s1) = []) as [E1 Q1] by done. clearbody s1.
  set (s2 := upd _ s1). assert (tcp_state (conn s2) = TCP_CLOSED /\ rx_queue (conn s2) = []) as [E2 Q2].
  { cbn [s2 upd conn set_tx_queue tcp_state rx_queue].
    destruct (repeat_put_tx (length (tx_queue (conn s1))) (conn s1)) as (_ & _ & _ & -> & _).
    by rewrite (proj1 (proj2 (repeat_put_same (length (tx_queue (conn s1))) (conn s1)))). }
  clearbody s2. set (s3 := upd _ s2). assert (tcp_state (conn s3) = TCP_CLOSED /\ rx_queue (conn s3) = []) as [E3 Q3].
  { cbn [s3 upd conn]. rewrite !put_flags_state. by rewrite !(proj1 (proj2 (put_flags_same _))). }
  by clearbody s3.
Qed.

(** Closing a connection leaves it live or deletes it. *)
Lemma tcp_close_ok s rc :
  live_in transient_states (conn s) \/ has (tcp_state (conn s)) (TCP_STATE_RCVD TCP_SYN) = false ->
  conn_ok (conn (tcp_close s rc)).
Proof.
  intros Hs. unfold tcp_close. set (s1 := State _ _).
  assert (tcp_state (conn s1) = tcp_state (conn s) /\ listed (conn s1) = listed (conn s) /\ snd_sent (conn s1) = snd_sent (conn s))
    as (E1 & E2 & E3) by done.
  clearbody s1. destruct (has (tcp_state (conn s1)) (TCP_STATE_RCVD TCP_SYN)) eqn:Er; cbn [negb].
  2:{ right. apply tcp_delete_state. }
  destruct Hs as [Hs|Hs]; [|congruence].
  assert (live_in transient_states (conn s1)) as Hs1.
  { destruct Hs as (L1 & L2 & L3 & L4). unfold live_in, sending_syn in *. rewrite E1, E2, E3. by split_and!; [..|intros _; rewrite <- E1]. }
  set (s2 := if has _ _ then s1 else _).
  assert (live_in live_states (conn s2) /\ has (tcp_state (conn s2)) (TCP_STATE_ACKED TCP_SYN) = true /\
    has (tcp_state (conn s2)) (TCP_STATE_RCVD TCP_SYN) = true) as (L & La & Lr).
  { subst s2. destruct (has (tcp_state (conn s1)) (TCP_STATE_ACKED TCP_SYN)) eqn:Ea.
    - split_and!; [|done|done]. destruct Hs1 as (L1 & L2 & L3 & L4). split_and!; [done| |done|done].
      apply elem_of_cons in L2 as [L2|L2]; [|done]. rewrite L2 in Ea. by vm_compute in Ea.
    - assert (sending_syn (conn s1) = true) as Hsy.
      { destruct Hs1 as (_ & L2 & _). unfold sending_syn. revert Ea L2. generalize (tcp_state (conn s1)). intros st Ea L2.
        assert (has st (TCP_STATE_ACKED TCP_SYN) || has (TCP_FLAGS_SENDING st) TCP_SYN = true) as G
          by by_state st L2. by rewrite Ea in G. }
      assert (snd_sent (conn s1) = 1) as Hsent by (by apply Hs1).
      set (ack := u32 (snd_seq (conn s1) + 1)).
      assert (u32 (ack - snd_seq (conn s1)) = 1) as Hack.
      { unfold ack, wrap. rewrite Zminus_mod_idemp_l. by replace (snd_seq (conn s1) + 1 - snd_seq (conn s1)) with 1 by lia. }
      destruct (tcp_rx_ack_live transient_states s1 ack 0 ltac:(by right) Hs1) as [_ G].
      destruct G as [G1 G2]; [lia|lia|]. split_and!; [done|done|].
      apply (proj2 (proj2 (proj1 (tcp_rx_ack_same s1 ack 0)))). done. }
  clearbody s2. cbv zeta. set (s3 := upd _ s2).
  assert (live_in live_states (conn s3) /\ tcp_state (conn s3) = tcp_state (conn s2)) as [L3 E4] by (split; [exact L|done]).
  clearbody s3. destruct (_ && _); [|by left]. left. rewrite <- E4 in La, Lr.
  destruct L3 as (M1 & M2 & M3 & M4). destruct (fin_state_ok _ M2 Lr La) as (F1 & F2 & F3).
  unfold live_in, sending_syn. cbn [upd conn pending_get_flags set_pending_flags set_process_running or_state set_tcp_state
    listed tcp_state snd_sent cflags]. split_and!; [done|done|by rewrite F3|done].
Qed.

(** Updates that do not concern the state machine. *)
Definition quiet (f : tcp_connection -> tcp_connection) : Prop := forall c,
  listed (f c) = listed c /\ tcp_state (f c) = tcp_state c /\ snd_sent (f c) = snd_sent c /\
  has (cflags (f c)) TCP_XFER_CLOSED = has (cflags c) TCP_XFER_CLOSED /\ (rx_queue c = [] -> rx_queue (f c) = []).

Lemma quiet_live f c states : quiet f -> live_in states c -> live_in states (f c).
Proof.
  intros Hf (L1 & L2 & L3 & L4). destruct (Hf c) as (Q1 & Q2 & Q3 & Q4 & _). unfold live_in, sending_syn in *.
  rewrite Q1, Q2, Q3, Q4. by split_and!.
Qed.

Lemma quiet_ok f c : quiet f -> conn_ok c -> conn_ok (f c).
Proof.
  intros Hf [Hl|(D1 & D2 & D3)]; [left; by apply quiet_live|]. right. destruct (Hf c) as (Q1 & Q2 & _ & _ & Q5).
  split_and!; [congruence..|auto].
Qed.

Lemma quiet_compose f g : quiet f -> quiet g -> quiet (fun c => g (f c)).
Proof.
  intros Hf Hg c. destruct (Hf c) as (F1 & F2 & F3 & F4 & F5), (Hg (f c)) as (G1 & G2 & G3 & G4 & G5).
  split_and!; [congruence..|auto].
Qed.

Lemma has_lor x a b : has (Z.lor x a) b = has x b || has a b.
Proof.
  unfold has. rewrite Z.land_lor_distr_l.
  destruct (decide (Z.land x b = 0)) as [E|E].
  - rewrite (bool_decide_false (Z.land x b <> 0)) by tauto. by rewrite E, Z.lor_0_l.
  - rewrite (bool_decide_true (Z.land x b <> 0)) by done. cbn [orb]. apply bool_decide_true. intros E'.
    by apply Z.lor_eq_0_iff in E' as [? _].
Qed.

Lemma quiet_or_flags bits : has bits TCP_XFER_CLOSED = false -> quiet (or_flags bits).
Proof. intros Hb c. split_and!; try done. cbn [or_flags set_cflags cflags]. by rewrite has_lor, Hb, orb_false_r. Qed.

Lemma quiet_rx_seq n : quiet (tcp_rx_seq n).
Proof.
  intros c. split_and!; try done. cbn [tcp_rx_seq or_flags set_cflags cflags set_sack set_ts_recent set_rcv_win set_rcv_ack].
  by rewrite has_lor, orb_false_r.
Qed.

Lemma quiet_rx_first_syn seq options : quiet (tcp_rx_first_syn seq options).
Proof.
  unfold tcp_rx_first_syn.
  apply (quiet_compose (set_rcv_ack seq)
    (fun c => let c := match tsopt options with Some _ => or_flags TCP_TS_ENABLED c | None => c end in
              let c := if spopt options then or_flags TCP_SACK_ENABLED c else c in
              match wsopt options with
              | Some scale => set_rcv_win_scale TCP_RX_WINDOW_SCALE (set_snd_win_scale scale c)
              | None => c
              end)); [done|].
  apply (quiet_compose (fun c => match tsopt options with Some _ => or_flags TCP_TS_ENABLED c | None => c end)
    (fun c => let c := if spopt options then or_flags TCP_SACK_ENABLED c else c in
              match wsopt options with
              | Some scale => set_rcv_win_scale TCP_RX_WINDOW_SCALE (set_snd_win_scale scale c)
              | None => c
              end)); [destruct (tsopt options); [by apply quiet_or_flags|done]|].
  apply (quiet_compose (fun c => if spopt options then or_flags TCP_SACK_ENABLED c else c)
    (fun c => match wsopt options with
              | Some scale => set_rcv_win_scale TCP_RX_WINDOW_SCALE (set_snd_win_scale scale c)
              | None => c
              end)); [destruct (spopt options); [by apply quiet_or_flags|done]|].
  by destruct (wsopt options).
Qed.

Lemma live_or_state bits c states states' :
  live_in states c ->
  (tcp_state c ∈ states -> Z.lor (tcp_state c) bits ∈ states' /\
   has (TCP_FLAGS_SENDING (Z.lor (tcp_state c) bits)) TCP_SYN = has (TCP_FLAGS_SENDING (tcp_state c)) TCP_SYN) ->
  live_in states' (or_state bits c).
Proof.
  intros (L1 & L2 & L3 & L4) Hst. destruct (Hst L2) as [S1 S2]. unfold live_in, sending_syn.
  cbn [or_state set_tcp_state listed tcp_state snd_sent cflags]. rewrite S2, has_lor. split_and!; [done|done|done|].
  intros Hx. by rewrite (L4 Hx).
Qed.

Lemma rx_syn_tail_live seq c :
  live_in live_states c ->
  live_in live_states (if decide (seq <> rcv_ack c) then c
    else or_state (Z.lor (TCP_STATE_SENT TCP_ACK) (TCP_STATE_RCVD TCP_SYN)) (tcp_rx_seq 1 c)).
Proof.
  intros Hl. destruct (decide _); [done|]. eapply live_or_state; [by apply quiet_live, Hl; apply quiet_rx_seq|].
  intros Hs. by destruct (rx_syn_state _ Hs) as (? & ? & _).
Qed.

Lemma tcp_rx_syn_live seq options c : live_in live_states c -> live_in live_states (tcp_rx_syn seq options c).
Proof.
  intros Hl. apply rx_syn_tail_live. destruct (has (tcp_state c) _); [done|].
  apply quiet_live; [apply quiet_rx_first_syn|done].
Qed.

(** ** Transmission *)

(** Memory pressure makes the allocator discard queued packets
    ([tcp_discard]); it does nothing else to a connection. *)
Inductive discards : tcp_connection -> tcp_connection -> Prop :=
| discards_none c : discards c c
| discards_last c c' : discards (snd (discard_last c)) c' -> discards c c'.

Class TcpAllocOk : Prop := alloc_discards : forall n s, discards (conn s) (conn (snd (alloc_iob n s))).
Context `{alloc_ok : !TcpAllocOk}.

Lemma discard_last_ok c : conn_ok c -> conn_ok (snd (discard_last c)).
Proof.
  intros Hc. unfold discard_last. destruct (rx_queue c) as [|e q] eqn:Eq; [done|]. cbn [snd].
  destruct Hc as [Hc|(_ & _ & Hq)]; [by left|congruence].
Qed.

Lemma alloc_iob_ok n s : conn_ok (conn s) -> conn_ok (conn (snd (alloc_iob n s))).
Proof. induction (alloc_discards n s); auto using discard_last_ok. Qed.

Lemma expand_rcv_win_ok s : conn_ok (conn s) -> conn_ok (conn (expand_rcv_win s)).
Proof. intros Hs. unfold expand_rcv_win. by case_decide. Qed.

Lemma tcp_build_ok s flags len payload seq : conn_ok (conn s) -> conn_ok (snd (tcp_build s flags len payload seq)).
Proof.
  intros Hs. unfold tcp_build. cbv zeta. destruct (has (cflags (conn s)) TCP_SACK_ENABLED && _); [|exact Hs].
  unfold tcp_sack. cbv zeta. exact Hs.
Qed.

Lemma sent_syn_ok seq_len c :
  conn_ok c -> (sending_syn c = true -> seq_len = 1) -> conn_ok (set_snd_sent seq_len c).
Proof. intros [(L1 & L2 & L3 & L4)|Hd] Hl; [left|by right]. by split_and!. Qed.

Lemma sending_syn_only st :
  st ∈ live_states -> has (TCP_FLAGS_SENDING st) TCP_SYN = true ->
  TCP_CAN_SEND_DATA st = false /\ has (TCP_FLAGS_SENDING st) (Z.lor TCP_SYN TCP_FIN) = true.
Proof.
  intros Hs Hb. assert (negb (has (TCP_FLAGS_SENDING st) TCP_SYN) ||
    (negb (TCP_CAN_SEND_DATA st) && has (TCP_FLAGS_SENDING st) (Z.lor TCP_SYN TCP_FIN)) = true) as Hf
    by (clear Hb; by_state st Hs).
  rewrite Hb in Hf. cbn [negb orb] in Hf. by rewrite andb_true_iff, negb_true_iff in Hf.
Qed.

Lemma tcp_xmit_sack_ok s seq : conn_ok (conn s) -> conn_ok (conn (tcp_xmit_sack s seq)).
Proof.
  intros Hs. unfold tcp_xmit_sack. destruct (running (timer (conn s))); [done|]. cbv zeta.
  set (len := if TCP_CAN_SEND_DATA _ then _ else 0).
  set (seq_len := u32 _). set (s1 := upd (set_snd_sent seq_len) s).
  assert (conn_ok (conn s1)) as H1.
  { apply sent_syn_ok; [done|]. intros Hsy. destruct Hs as [(_ & L2 & _)|(_ & D2 & _)].
    - destruct (sending_syn_only _ L2 Hsy) as [E1 E2]. subst seq_len len. rewrite E1, E2. done.
    - unfold sending_syn in Hsy. by rewrite D2 in Hsy. }
  clearbody s1. destruct (_ && _); [done|]. set (s2 := if decide (seq_len <> 0) then _ else s1).
  assert (conn_ok (conn s2)) as H2 by (subst s2; destruct (decide (seq_len <> 0)); exact H1). clearbody s2.
  pose proof (alloc_iob_ok (len + TCP_MAX_HEADER_LEN) s2 H2) as H3.
  destruct (alloc_iob _ s2) as [[] s3]; cbn [snd negb] in *; [|done].
  apply expand_rcv_win_ok in H3. set (s4 := expand_rcv_win s3) in *.
  pose proof (tcp_build_ok s4 (TCP_FLAGS_SENDING (tcp_state (conn s))) len (tcp_peek_tx_queue (conn s3) len) seq H3) as H4.
  destruct (tcp_build s4 _ _ _ _) as [packet c]. cbn [snd] in H4. destruct (tcpip_send packet (peer c) (world s4)) as [[] w]; [|done].
  cbn [conn]. apply (quiet_ok (fun c => set_cflags (Z.land (cflags c) (Z.lnot TCP_ACK_PENDING)) c)); [|done].
  intros c0. split_and!; try done. cbn [set_cflags cflags]. unfold has. by rewrite <- Z.land_assoc.
Qed.

Lemma tcp_xmit_ok s : conn_ok (conn s) -> conn_ok (conn (tcp_xmit s)).
Proof. apply tcp_xmit_sack_ok. Qed.

(** ** The data transfer interface *)

Lemma conn_ok_close c :
  conn_ok c -> live_in transient_states c \/ has (tcp_state c) (TCP_STATE_RCVD TCP_SYN) = false.
Proof. intros [Hl|(_ & -> & _)]; [left; by apply live_transient|by right]. Qed.

Lemma tcp_xfer_close_ok s rc : conn_ok (conn s) -> conn_ok (conn (tcp_xfer_close s rc)).
Proof. intros Hs. apply tcp_xmit_ok, tcp_close_ok, conn_ok_close, Hs. Qed.

Lemma tcp_xfer_deliver_ok s data : conn_ok (conn s) -> conn_ok (conn (snd (tcp_xfer_deliver s data))).
Proof. intros Hs. apply tcp_xmit_ok. exact Hs. Qed.

(** What the rest of the firmware can do to a connection. *)
Inductive iface_step : state W -> state W -> Prop :=
| iface_close s rc : listed (conn s) = true -> iface_step s (tcp_xfer_close s rc)
| iface_deliver s data : listed (conn s) = true -> iface_step s (snd (tcp_xfer_deliver s data))
| iface_discard s : iface_step s (upd (fun c => snd (discard_last c)) s)
| iface_world s w : iface_step s (State (conn s) w).

(** Callbacks into the application act on the connection only through its
    interface. *)
Class TcpEnvOk : Prop := {
  deliver_iface : forall data s, rtc iface_step s (snd (xfer_deliver_iob data s));
  window_changed_iface : forall s, rtc iface_step s (xfer_window_changed s);
}.
Context `{env_ok : !TcpEnvOk}.

Lemma iface_step_ok s s' : iface_step s s' -> conn_ok (conn s) -> conn_ok (conn s').
Proof. intros [] Hs; auto using tcp_xfer_close_ok, tcp_xfer_deliver_ok. cbn [upd conn]. by apply discard_last_ok. Qed.

Lemma iface_steps_ok s s' : rtc iface_step s s' -> conn_ok (conn s) -> conn_ok (conn s').
Proof. induction 1; eauto using iface_step_ok. Qed.

(** ** Reception *)

Lemma tcp_rx_data_ok s seq data : conn_ok (conn s) -> conn_ok (conn (snd (tcp_rx_data s seq data))).
Proof.
  intros Hs. unfold tcp_rx_data. destruct (decide _); [done|]. eapply iface_steps_ok; [apply deliver_iface|]. cbn [upd conn].
  apply quiet_ok; [apply quiet_rx_seq|done].
Qed.

Lemma rx_fin_state_close c :
  conn_ok c -> live_in transient_states (or_state (TCP_STATE_RCVD TCP_FIN) c) \/
               has (tcp_state (or_state (TCP_STATE_RCVD TCP_FIN) c)) (TCP_STATE_RCVD TCP_SYN) = false.
Proof.
  intros Hs. cbn [or_state set_tcp_state tcp_state]. rewrite has_lor, orb_false_r.
  destruct Hs as [Hs|(_ & -> & _)]; [|by right].
  destruct (has (tcp_state c) (TCP_STATE_RCVD TCP_SYN)) eqn:Er; [left|by right].
  eapply live_or_state; [done|]. intros Hst. by apply rx_fin_state.
Qed.

Lemma tcp_rx_fin_ok s seq : conn_ok (conn s) -> conn_ok (conn (tcp_rx_fin s seq)).
Proof.
  intros Hs. unfold tcp_rx_fin. destruct (decide _); [done|]. apply tcp_close_ok, rx_fin_state_close.
  cbn [upd conn]. apply quiet_ok; [apply quiet_rx_seq|done].
Qed.

Lemma set_rx_queue_ok q c : live_in live_states c -> conn_ok (set_rx_queue q c).
Proof. intros Hs. left. exact Hs. Qed.

Lemma process_rx_loop_ok fuel s s' : conn_ok (conn s) -> process_rx_loop fuel s = Some s' -> conn_ok (conn s').
Proof.
  revert s. induction fuel as [|fuel IH]; intros s Hs; cbn [process_rx_loop];
    destruct (rx_queue (conn s)) as [|e q] eqn:Eq; try (intros [= <-]; done);
    destruct (decide (tcp_cmp (q_seq e) (rcv_ack (conn s)) > 0)); try (intros [= <-]; done); try done.
  destruct Hs as [Hs|(_ & _ & Hq)]; [|congruence]. apply IH.
  pose proof (tcp_rx_data_ok (upd (set_rx_queue q) s) (q_seq e) (q_data e) (set_rx_queue_ok q _ Hs)) as H2.
  destruct (has (q_flags e) TCP_FIN); [by apply tcp_rx_fin_ok|exact H2].
Qed.

Lemma tcp_xmit_reset_ok s dest hdr : conn_ok (conn s) -> conn_ok (conn (snd (tcp_xmit_reset s dest hdr))).
Proof.
  intros Hs. unfold tcp_xmit_reset. apply (alloc_iob_ok TCP_MAX_HEADER_LEN) in Hs.
  destruct (alloc_iob TCP_MAX_HEADER_LEN s) as [[] s1]; cbn [snd negb] in *; [|done].
  cbv zeta. by destruct (tcpip_send _ _ _) as [[] w].
Qed.

Lemma closed_close_ok s rc : conn_ok (conn (tcp_close (upd (set_tcp_state TCP_CLOSED) s) rc)).
Proof. apply tcp_close_ok. by right. Qed.

Lemma tcp_rx_rst_ok s seq : conn_ok (conn s) -> conn_ok (conn (snd (tcp_rx_rst s seq))).
Proof. intros Hs. unfold tcp_rx_rst. cbv zeta. destruct (if has _ _ then _ else _); [done|]. apply closed_close_ok. Qed.

Lemma tcp_rx_enqueue_ok seq flags data c : live_in live_states c -> conn_ok (tcp_rx_enqueue seq flags data c).
Proof. intros Hs. unfold tcp_rx_enqueue. cbv zeta. destruct (_ || _); [by left|by apply set_rx_queue_ok]. Qed.

Lemma tcp_rx_segment_ok s seq flags data win s' :
  live_in live_states (conn s) -> tcp_rx_segment s seq flags data win = Some s' -> conn_ok (conn s').
Proof.
  intros Hs. unfold tcp_rx_segment, tcp_process_rx_queue.
  pose proof (tcp_rx_enqueue_ok seq flags data _ Hs) as H1. destruct (process_rx_loop _ _) as [s1|] eqn:E1; [|done].
  apply process_rx_loop_ok in E1; [|exact H1]. clear H1.
  set (s2 := match rx_queue (conn s1) with [] => _ | _ => _ end).
  assert (conn_ok (conn s2)) as H2 by (subst s2; destruct (rx_queue (conn s1)); [exact E1|by apply tcp_xmit_sack_ok]).
  clearbody s2. cbv zeta. set (s3 := if TCP_CLOSED_GRACEFULLY _ then _ else s2).
  assert (conn_ok (conn s3)) as H3 by (subst s3; destruct (TCP_CLOSED_GRACEFULLY _); exact H2).
  clearbody s3. intros [= <-]. destruct (decide _); [|done]. eapply iface_steps_ok; [apply window_changed_iface|done].
Qed.

Lemma rx_synchronise_live (s : state W) seq flags options :
  live_in live_states (conn s) ->
  live_in live_states (conn (fst (if has flags TCP_SYN then (upd (tcp_rx_syn seq options) s, u32 (seq + 1)) else (s, seq)))).
Proof. intros Hs. destruct (has flags TCP_SYN); [by apply tcp_rx_syn_live|done]. Qed.

Lemma tcp_rx_conn_ok s packet hlen src rc s' :
  live_in live_states (conn s) -> tcp_rx_conn s packet hlen src = Some (rc, s') -> conn_ok (conn s').
Proof.
  intros Hs. unfold tcp_rx_conn. cbv zeta. destruct (tcp_rx_opts _) as [options|e]; [|intros [= _ <-]; by left].
  set (s1 := match tsopt options with Some _ => _ | None => s end).
  assert (live_in live_states (conn s1)) as H1 by (subst s1; destruct (tsopt options); exact Hs). clearbody s1. clear Hs.
  set (ra := if has _ TCP_ACK then _ else _). assert (live_in live_states (conn (snd ra))) as H2.
  { subst ra. destruct (has _ TCP_ACK); [|done]. apply tcp_rx_ack_live; [by left|done]. }
  clearbody ra. destruct ra as [[|e] s2]; cbn [snd] in H2.
  2:{ pose proof (tcp_xmit_reset_ok s2 src packet (or_introl H2)) as H3. destruct (tcp_xmit_reset s2 src packet). by intros [= _ <-]. }
  set (s3 := if _ && _ then _ else s2). assert (live_in live_states (conn s3)) as H3.
  { subst s3. destruct (_ && _); [|done]. apply quiet_live; [by apply quiet_or_flags|done]. }
  clearbody s3. clear H2. pose proof (rx_synchronise_live s3 (get32 packet 4) (get8 packet 13) options H3) as H4.
  destruct (if has (get8 packet 13) TCP_SYN then _ else _) as [s4 seq]. cbn [fst] in H4. clear H3.
  destruct (has (get8 packet 13) TCP_RST).
  - pose proof (tcp_rx_rst_ok s4 seq (or_introl H4)) as H5. unfold tcp_rx_rst in *. cbv zeta in *.
    destruct (if has _ _ then _ else _); [|by intros [= _ <-]].
    destruct (tcp_rx_segment s4 _ _ _ _) as [s5|] eqn:E5; [|done]. intros [= _ <-]. by apply tcp_rx_segment_ok in E5.
  - destruct (tcp_rx_segment s4 _ _ _ _) as [s5|] eqn:E5; [|done]. intros [= _ <-]. by apply tcp_rx_segment_ok in E5.
Qed.

(** ** Termination of reception *)

(** The number of packets waiting in the receive queue. *)
Definition queued (c : tcp_connection) : nat := length (rx_queue c).

Lemma tcp_delete_queued s : queued (conn (tcp_delete s)) = 0%nat.
Proof. unfold queued. by rewrite (proj2 (proj2 (tcp_delete_state s))). Qed.

Lemma tcp_close_queued s rc : (queued (conn (tcp_close s rc)) <= queued (conn s))%nat.
Proof.
  unfold tcp_close. set (s1 := State _ _). assert (queued (conn s1) = queued (conn s)) as E1 by done. clearbody s1.
  destruct (negb _); [rewrite tcp_delete_queued; lia|]. cbv zeta. set (s2 := if has _ _ then s1 else _).
  assert (queued (conn s2) = queued (conn s)) as E2.
  { subst s2. destruct (has _ _); [done|]. unfold queued in *.
    by rewrite (proj1 (proj2 (proj1 (tcp_rx_ack_same s1 (u32 (snd_seq (conn s1) + 1)) 0)))). }
  clearbody s2. rewrite <- E2. destruct (_ && _); reflexivity.
Qed.

Lemma discards_queued c c' : discards c c' -> (queued c' <= queued c)%nat.
Proof.
  induction 1 as [|c c' _ IH]; [done|]. etrans; [exact IH|]. unfold discard_last, queued.
  destruct (rx_queue c) as [|e q] eqn:Eq; cbn [snd]; [by rewrite Eq|]. cbn [set_rx_queue rx_queue].
  rewrite removelast_firstn_len, length_take. lia.
Qed.

Lemma tcp_xmit_sack_queued s seq : (queued (conn (tcp_xmit_sack s seq)) <= queued (conn s))%nat.
Proof.
  unfold tcp_xmit_sack. destruct (running _); [done|]. cbv zeta.
  set (len := if TCP_CAN_SEND_DATA _ then _ else 0). set (seq_len := u32 _). set (s1 := upd _ s).
  assert (queued (conn s1) = queued (conn s)) as E1 by done. clearbody s1. rewrite <- E1.
  destruct (_ && _); [done|]. set (s2 := if decide _ then _ else s1).
  assert (queued (conn s2) = queued (conn s1)) as E2 by (subst s2; by destruct (decide _)). clearbody s2. rewrite <- E2.
  pose proof (discards_queued _ _ (alloc_discards (len + TCP_MAX_HEADER_LEN) s2)) as E3.
  destruct (alloc_iob _ s2) as [[] s3]; cbn [snd negb] in *; [|done]. etrans; [|exact E3].
  set (s4 := expand_rcv_win s3). assert (queued (conn s4) = queued (conn s3)) as E4
    by (subst s4; unfold expand_rcv_win; cbv zeta; by destruct (decide _)).
  clearbody s4. rewrite <- E4. destruct (tcp_build s4 _ _ _ _) as [packet c] eqn:Eb.
  assert (queued c = queued (conn s4)) as E5.
  { unfold tcp_build in Eb. destruct (has (cflags (conn s4)) TCP_SACK_ENABLED && _); cbv zeta in Eb; by injection Eb as _ <-. }
  rewrite <- E5. by destruct (tcpip_send packet (peer c) (world s4)) as [[] w].
Qed.

Lemma iface_steps_queued s s' : rtc iface_step s s' -> (queued (conn s') <= queued (conn s))%nat.
Proof.
  induction 1 as [|s1 s2 s3 Hst _ IH]; [done|]. etrans; [exact IH|]. destruct Hst as [s rc _|s data _|s|s w]; [..|done].
  - etrans; [apply tcp_xmit_sack_queued|]. apply tcp_close_queued.
  - apply (tcp_xmit_sack_queued (upd pending_get_data (upd (fun c => set_tx_queue (tx_queue c ++ [data]) c) s))).
  - apply discards_queued. apply discards_last, discards_none.
Qed.

Lemma process_rx_loop_returns fuel s : (queued (conn s) <= fuel)%nat -> process_rx_loop fuel s <> None.
Proof.
  revert s. induction fuel as [|fuel IH]; intros s Hf; cbn [process_rx_loop]; unfold queued in Hf;
    destruct (rx_queue (conn s)) as [|e q] eqn:Eq; cbn [length] in Hf; [done|lia|done|].
  destruct (decide _); [done|]. apply IH. set (s1 := upd (set_rx_queue q) s).
  assert (queued (conn s1) = length q) as E1 by done. clearbody s1.
  assert (queued (conn (snd (tcp_rx_data s1 (q_seq e) (q_data e)))) <= queued (conn s1))%nat as E2.
  { unfold tcp_rx_data. destruct (decide _); [done|].
    etrans; [apply iface_steps_queued, deliver_iface|]. done. }
  destruct (has (q_flags e) TCP_FIN); [|lia]. revert E2. generalize (snd (tcp_rx_data s1 (q_seq e) (q_data e))).
  intros s2 E2. unfold tcp_rx_fin. destruct (decide _); [lia|].
  etrans; [apply tcp_close_queued|]. etrans; [|apply le_S_n, Hf]. rewrite <- E1. exact E2.
Qed.

Lemma tcp_rx_segment_returns s seq flags data win : tcp_rx_segment s seq flags data win <> None.
Proof.
  unfold tcp_rx_segment, tcp_process_rx_queue.
  pose proof (process_rx_loop_returns (length (rx_queue (conn (upd (tcp_rx_enqueue seq flags data) s))))
    (upd (tcp_rx_enqueue seq flags data) s) ltac:(done)) as Hr.
  by destruct (process_rx_loop _ _).
Qed.

(** Reception of any packet returns, whatever the application does from
    within the delivery callback: it may send data, close the connection or
    lose queued packets to memory pressure, and every round of the loop over
    the receive queue still makes progress. *)
Theorem tcp_rx_returns s packet hlen src : tcp_rx_conn s packet hlen src <> None.
Proof.
  unfold tcp_rx_conn. cbv zeta. destruct (tcp_rx_opts _) as [options|]; [|done].
  destruct (if has _ TCP_ACK then _ else _) as [[|e] s2]; [|by destruct (tcp_xmit_reset s2 src packet)].
  destruct (if has _ TCP_SYN then _ else _) as [s4 seq].
  destruct (if has _ TCP_RST then _ else _) as [[|] s5]; [|done].
  pose proof (tcp_rx_segment_returns s5 seq (get8 packet 13)
    (drop (Z.to_nat hlen) packet)) as Hr.
  match goal with |- context [tcp_rx_segment _ _ _ _ ?w] => specialize (Hr w) end.
  by destruct (tcp_rx_segment _ _ _ _ _).
Qed.

(** ** The state machine *)

(** One event on a registered connection. *)
Inductive tcp_step : state W -> state W -> Prop :=
| step_rx s packet hlen src rc s' :
    listed (conn s) = true -> tcp_rx_conn s packet hlen src = Some (rc, s') -> tcp_step s s'
| step_expired s :
    listed (conn s) = true -> running (timer (conn s)) = true ->
    tcp_step s (tcp_expired (upd (fun c => set_timer (fst (backoff (timer c))) c) s) (snd (backoff (timer (conn s)))))
| step_keepalive s :
    listed (conn s) = true -> running (keepalive (conn s)) = true ->
    tcp_step s (tcp_keepalive_expired (upd (fun c => set_keepalive (fst (backoff (keepalive c))) c) s))
| step_wait s :
    listed (conn s) = true -> running (wait (conn s)) = true ->
    tcp_step s (tcp_wait_expired (upd (fun c => set_wait (fst (backoff (wait c))) c) s))
| step_process s :
    listed (conn s) = true -> process_running (conn s) = true ->
    tcp_step s (tcp_xmit (upd (set_process_running false) s))
| step_iface s s' : iface_step s s' -> tcp_step s s'.

Lemma tcp_step_ok s s' : tcp_step s s' -> conn_ok (conn s) -> conn_ok (conn s').
Proof.
  intros Hst Hs. destruct Hst as [s packet hlen src rc s' Hl Hrx|s Hl _|s Hl _|s Hl _|s Hl _|s s' Hi].
  - destruct Hs as [Hs|[Hd _]]; [|congruence]. by eapply tcp_rx_conn_ok.
  - unfold tcp_expired. destruct (snd (backoff (timer (conn s)))); [apply closed_close_ok|]. apply tcp_xmit_ok. exact Hs.
  - apply tcp_xmit_ok. cbn [upd conn]. apply quiet_ok; [by apply quiet_or_flags|]. exact Hs.
  - apply closed_close_ok.
  - apply tcp_xmit_ok. exact Hs.
  - by eapply iface_step_ok.
Qed.

(** The first transmission, when the timer started by [tcp_open] expires. *)
Definition tcp_first_expiry (c : tcp_connection) (w : W) : state W :=
  tcp_expired (State (set_timer (fst (backoff (timer c))) c) w) (snd (backoff (timer c))).

Lemma xmit_overwrites_sent s seq n : tcp_xmit_sack (upd (set_snd_sent n) s) seq = tcp_xmit_sack s seq \/ running (timer (conn s)) = true.
Proof. destruct (running (timer (conn s))) eqn:E; [by right|left]. unfold tcp_xmit_sack. cbn [upd conn set_snd_sent timer]. by rewrite E. Qed.

Lemma tcp_open_ok conns peer0 local mtu iss pr ticks c conns' w :
  tcp_open conns true peer0 local mtu iss pr ticks = (Ok tt, c :: conns') -> conn_ok (conn (tcp_first_expiry c w)).
Proof.
  unfold tcp_open. cbn [negb]. destruct (decide _); [done|]. destruct (tcpip_bind _ _ _) as [port|]; [|done].
  cbv zeta. intros [= Hc _]. assert (tcp_state c = TCP_SYN_SENT /\ cflags c = 0 /\ listed c = true /\
    timer c = started ticks 0 zero_timer) as (E1 & E2 & E3 & E4) by (by rewrite <- Hc). clear Hc.
  unfold tcp_first_expiry. rewrite E4. change (backoff (started ticks 0 zero_timer)) with (Timer false 0 0 0 ticks 1 None, false).
  cbn [fst snd]. unfold tcp_expired, tcp_xmit.
  destruct (xmit_overwrites_sent (State (set_timer (Timer false 0 0 0 ticks 1 None) c) w)
    (rcv_ack (conn (State (set_timer (Timer false 0 0 0 ticks 1 None) c) w))) 1) as [<-|Hr]; [|done].
  apply tcp_xmit_sack_ok. left. unfold live_in. cbn [upd conn set_snd_sent set_timer listed tcp_state snd_sent cflags].
  rewrite E1, E2. split_and!; [done|by left|done|done].
Qed.

Lemma live_no_syn_fin st :
  st ∈ live_states -> has (TCP_FLAGS_SENDING st) TCP_SYN && has (TCP_FLAGS_SENDING st) TCP_FIN = false.
Proof. intros Hs. apply negb_true_iff. by_state st Hs. Qed.

(** C19: once a new connection has sent its SYN, no sequence of received
    packets, timer expiries, background transmissions and calls of the
    application takes it out of nine states, unless it is deleted, which
    leaves it unlisted, in CLOSED and with nothing queued.  Eight of them are
    the states of the diagram.  The ninth one has no name: our SYN has been
    acknowledged and the SYN of the peer has not been received, the
    application has not closed and no FIN was sent; [tcp_expired] takes it for
    a state in which the timer cannot run.  SYN and FIN are never both waiting
    to be sent, which [tcp_xmit_sack] asserts. *)
Theorem tcp_states_safe conns peer0 local mtu iss pr ticks c conns' w s :
  tcp_open conns true peer0 local mtu iss pr ticks = (Ok tt, c :: conns') ->
  rtc tcp_step (tcp_first_expiry c w) s ->
  (listed (conn s) = true /\
   (tcp_state (conn s) ∈ diagram_states \/
    tcp_state (conn s) = Z.lor TCP_SYN_SENT (TCP_STATE_ACKED TCP_SYN) /\ has (cflags (conn s)) TCP_XFER_CLOSED = false) /\
   has (TCP_FLAGS_SENDING (tcp_state (conn s))) TCP_SYN && has (TCP_FLAGS_SENDING (tcp_state (conn s))) TCP_FIN = false /\
   (has (cflags (conn s)) TCP_XFER_CLOSED = true -> has (tcp_state (conn s)) (TCP_STATE_RCVD TCP_SYN) = true)) \/
  (listed (conn s) = false /\ tcp_state (conn s) = TCP_CLOSED /\ rx_queue (conn s) = []).
Proof.
  intros Ho Hst. apply (tcp_open_ok _ _ _ _ _ _ _ _ _ w) in Ho.
  assert (conn_ok (conn s)) as Hs by (induction Hst; eauto using tcp_step_ok). clear Ho Hst.
  destruct Hs as [(L1 & L2 & _ & L4)|Hd]; [left|by right].
  split_and!; [done| |by apply live_no_syn_fin|done]. apply elem_of_app in L2 as [L2|L2]; [by left|right]. apply list_elem_of_singleton in L2. split; [done|].
  destruct (has (cflags (conn s)) TCP_XFER_CLOSED); [|done]. specialize (L4 eq_refl). rewrite L2 in L4. done.
Qed.
End handlers.

(** ** Executions *)

Lemma log_env_alloc : @TcpAllocOk _ log_env.
Proof. intros n s. apply discards_none. Qed.

Lemma log_env_ok : @TcpEnvOk _ log_env.
Proof.
  split; [|intros s; apply rtc_refl]. intros data s. apply rtc_once. apply iface_world.
Qed.

Definition opened : tcp_connection :=
  set_timer (started 0 0 zero_timer) (pending_get_flags
    (set_local_port 1100 (set_mss 1440 (new_connection (SockaddrTcpip 2 0 80 0 []) 1000)))).

(** The SYN is sent, then the application closes: the connection is deleted. *)
Lemma tcp_states_safe_witness :
  let s := @tcp_xfer_close _ log_env (@tcp_first_expiry _ log_env opened []) (Ok tt) in
  (listed (conn s) = true /\
   (tcp_state (conn s) ∈ diagram_states \/
    tcp_state (conn s) = Z.lor TCP_SYN_SENT (TCP_STATE_ACKED TCP_SYN) /\ has (cflags (conn s)) TCP_XFER_CLOSED = false) /\
   has (TCP_FLAGS_SENDING (tcp_state (conn s))) TCP_SYN && has (TCP_FLAGS_SENDING (tcp_state (conn s))) TCP_FIN = false /\
   (has (cflags (conn s)) TCP_XFER_CLOSED = true -> has (tcp_state (conn s)) (TCP_STATE_RCVD TCP_SYN) = true)) \/
  (listed (conn s) = false /\ tcp_state (conn s) = TCP_CLOSED /\ rx_queue (conn s) = []).
Proof.
  intros s. apply (@tcp_states_safe _ log_env log_env_alloc log_env_ok [] (SockaddrTcpip 2 0 80 0 [])
    (Some (SockaddrTcpip 2 0 1100 0 [])) 1460 1000 0 0 opened [] [] s).
  - vm_compute. reflexivity.
  - apply rtc_once, step_iface, iface_close. vm_compute. reflexivity.
Defined.

Lemma tcp_rx_returns_witness :
  @tcp_rx_conn _ log_env (State example_conn []) (tcp_header 80 0 (2 ^ 32 - 1) 0 80 TCP_ACK 1000 0 ++ [1; 2; 3]) 20
    (SockaddrTcpip 2 0 80 0 []) <> None.
Proof.
  apply (@tcp_rx_returns _ log_env log_env_alloc log_env_ok (State example_conn [])
    (tcp_header 80 0 (2 ^ 32 - 1) 0 80 TCP_ACK 1000 0 ++ [1; 2; 3]) 20 (SockaddrTcpip 2 0 80 0 [])).
Defined.

Definition syn_packet : list Z := tcp_header 80 1100 500 0 80 TCP_SYN 1000 0.

(** A SYN of the peer that arrives before the first SYN has been sent: when
    the application then closes, nothing is in flight, so the acknowledgement
    that [tcp_close] pretends to have received is ignored and SYN and FIN are
    both left to be sent. *)
Example tcp_close_before_syn_sent :
  match @tcp_rx_conn _ log_env (State opened []) syn_packet 20 (SockaddrTcpip 2 0 80 0 []) with
  | Some (Ok _, s) =>
    let st := tcp_state (conn (@tcp_close _ log_env s (Ok tt))) in
    tcp_state (conn s) = TCP_SYN_RCVD /\
    has (TCP_FLAGS_SENDING st) TCP_SYN && has (TCP_FLAGS_SENDING st) TCP_FIN = true
  | _ => False
  end.
Proof. vm_compute. done. Qed.

(** A connection whose SYN is still in flight, with two blocks waiting in its
    receive queue. *)
Definition syn_rcvd_conn : tcp_connection :=
  set_rx_queue [RxEntry 600 610 0 (replicate 10 0); RxEntry 700 710 0 (replicate 10 0)]
    (set_sack [(600, 610); (0, 0); (0, 0)] (set_rcv_win 1000 (set_rcv_ack 501
      (set_cflags (Z.lor TCP_TS_ENABLED TCP_SACK_ENABLED)
        (set_snd_sent 1 (set_tcp_state TCP_SYN_RCVD (set_timer zero_timer opened))))))).

(** A SYN that is retransmitted while two blocks wait in the receive queue:
    the header has 64 bytes, and its length field is zero. *)
Example tcp_syn_sack_header_overflow :
  let packet := fst (@tcp_build _ log_env (State syn_rcvd_conn []) (Z.lor TCP_SYN TCP_ACK) 0 [] 700) in
  length packet = 64%nat /\ get8 packet 12 = 0 /\ tcp_rx_check packet 0 = Err EINVAL.
Proof. vm_compute. done. Qed.

(** Our SYN has been acknowledged, the peer's has not arrived, and the
    application sends data: the retransmission timer runs in a state that the
    assertion of [tcp_expired] excludes. *)
Example tcp_timer_runs_in_syn_acked :
  match @tcp_rx_conn _ log_env (@tcp_first_expiry _ log_env opened []) (tcp_header 80 1100 0 1001 80 TCP_ACK 1000 0) 20
          (SockaddrTcpip 2 0 80 0 []) with
  | Some (Ok _, s) =>
    let c := conn (snd (@tcp_xfer_deliver _ log_env s [1; 2; 3])) in
    running (timer c) = true /\ tcp_state c = SYN_ACKED
  | _ => False
  end.
Proof. vm_compute. done. Qed.
