(* ===== verification/Scsi.v ===== *)
(** * SCSI block devices (drivers/block/scsi.c)

    A SCSI device stands between the block layer, which asks for blocks, and
    a transport (iSCSI), which carries commands to the target.  Calls into the
    transport happen in the middle of a handler, and the transport may call
    back before it returns; a handler is therefore a program [act] over the
    state of the device that is interpreted by the transport.  What the device
    reports to the block layer is recorded in its state.

    The theorems: a READ or WRITE command asks for the requested blocks
    ([scsi_rw_correct]) unless the count does not fit a 10-byte command, where
    it asks for fewer ([scsi_read10_truncates]); reading the capacity ends with
    the number of blocks of the target, also above 2 TB ([scsi_capacity_correct]);
    TEST UNIT READY is issued at most eleven times, and a device that answers
    becomes ready or is closed ([scsi_ready_decides]); a LUN that is printed
    parses back ([scsi_lun_roundtrip]); and a command that the transport
    refuses is released twice ([scsi_refused_put_twice]). *)

From stdpp Require Import gmap.
From S2P Require Import Prelude CMem Strings.

(** ** Commands and responses *)

Definition SCSI_MAX_BLOCK_10 : Z := 4294967295.
Definition SCSI_OPCODE_READ_10 : Z := 40.
Definition SCSI_OPCODE_READ_16 : Z := 136.
Definition SCSI_OPCODE_WRITE_10 : Z := 42.
Definition SCSI_OPCODE_WRITE_16 : Z := 138.
Definition SCSI_OPCODE_READ_CAPACITY_10 : Z := 37.
Definition SCSI_OPCODE_SERVICE_ACTION_IN : Z := 158.
Definition SCSI_SERVICE_ACTION_READ_CAPACITY_16 : Z := 16.
Definition SCSI_OPCODE_TEST_UNIT_READY : Z := 0.
Definition SCSI_SENSE_KEY_MASK : Z := 15.
Definition SCSI_SENSE_FIXED (code : Z) : bool := bool_decide (Z.land code 126 = 112).
Definition SCSI_READY_MAX_RETRIES : Z := 10.

Definition be64 (v : Z) : list Z := be32 (Z.shiftr v 32) ++ be32 v.
Definition get64 (l : list Z) (i : nat) : Z := get32 l i * 2 ^ 32 + get32 l (i + 4).

(** A command for the transport.  Buffers are addresses, 0 is NULL. *)
Record scsi_cmd := ScsiCmd {
  lun : list Z;
  cdb : list Z;
  data_out : Z;
  data_out_len : Z;
  data_in : Z;
  data_in_len : Z;
}.

(** The first four bytes of descriptor-format sense data. *)
Record scsi_sns_descriptor := Sense { sns_code : Z; sns_key : Z; sns_additional : Z }.
Record scsi_rsp := ScsiRsp { status : Z; overrun : Z; sense : scsi_sns_descriptor }.

(** The zeroed structure with its first bytes filled in. *)
Definition make_cdb (l : list Z) : list Z := l ++ replicate (16 - length l) 0.

(** ** Utility functions *)

Fixpoint parse_lun_loop (fuel : nat) (m : mem) (p : Z) (n : nat) (u16s : list Z) : option (result (list Z)) :=
  match n with
  | O => Some (if decide (m p <> 0) then Err EINVAL else Ok u16s)
  | S n =>
    match strtoul fuel m p 16 with
    | None => None
    | Some (value, p) =>
      let u16s := u16s ++ be16 value in
      if decide (m p = 0) then Some (Ok (u16s ++ replicate (2 * n) 0))
      else if decide (m p <> 45) then Some (Err EINVAL)
      else parse_lun_loop fuel m (p + 1) n u16s
    end
  end.

(** The string is the C string at [p], absent when [p] is NULL. *)
Definition scsi_parse_lun (fuel : nat) (m : mem) (lun_string : Z) : option (result (list Z)) :=
  if decide (lun_string = 0) then Some (Ok (replicate 8 0)) else parse_lun_loop fuel m lun_string 4 [].

(** The data are read from memory, as long as their length is. *)
Definition scsi_parse_sense (m : mem) (data len : Z) : scsi_sns_descriptor :=
  if decide (len < 4) then Sense 0 0 0 else
  let s := Sense (m data) (m (data + 1)) (get16 (mload m (data + 2) 2) 0) in
  if decide (len < 14) then s else
  if negb (SCSI_SENSE_FIXED (m data)) then s else
  Sense (sns_code s) (sns_key s) (get16 (mload m (data + 12) 2) 0).

(** ** Devices and commands *)

Inductive scsi_command_type := scsicmd_read | scsicmd_write | scsicmd_read_capacity | scsicmd_test_unit_ready.

(** The other end of the block interface of a command: the interface of the
    device for TEST UNIT READY, or a user of the block device. *)
Inductive block_parent := ParentReady | ParentBlock (p : nat).

(** [sc_scsi] and [sc_block] tell whether the interfaces are plugged;
    [sc_priv] is the address of the capacity buffer of READ CAPACITY. *)
Record scsi_command := ScsiCommand {
  sc_id : nat;
  sc_parent : block_parent;
  sc_type : scsi_command_type;
  sc_lba : Z;
  sc_count : Z;
  sc_buffer : Z;
  sc_len : Z;
  sc_tag : Z;
  sc_use16 : bool;
  sc_priv : Z;
  sc_scsi : bool;
  sc_block : bool;
}.

(** What the device tells the users of the block device. *)
Inductive block_event :=
  | BlockReturned (p : nat) (rc : result unit)
  | BlockClosed (p : nat) (rc : result unit)
  | BlockCapacity (p : nat) (blocks blksize max_count : Z)
  | BlockWindowChanged
  | DeviceClosed (rc : result unit).

Definition SCSIDEV_UNIT_TESTED : Z := 1.
Definition SCSIDEV_UNIT_READY : Z := 2.

(** [sd_refs] holds the reference count of every command that has not been
    freed; [sd_fault] records a use of a freed command. *)
Record scsi_device := ScsiDevice {
  sd_lun : list Z;
  sd_flags : Z;
  sd_process : bool;
  sd_retries : Z;
  sd_cmds : list scsi_command;
  sd_closed : bool;
  sd_next : nat;
  sd_refs : gmap nat Z;
  sd_fault : bool;
  sd_log : list block_event;
}.

(** A handler of the device: it calls the transport and goes on with the
    state as it is when the call returns. *)
Inductive act (U : Type) : Type :=
  | Done (u : U)
  | Issue (i : nat) (c : scsi_cmd) (u : U) (k : result Z -> U -> act U)
  | Window (u : U) (k : Z -> U -> act U)
  | CloseCommand (i : nat) (rc : result unit) (u : U) (k : U -> act U)
  | CloseControl (rc : result unit) (u : U) (k : U -> act U).
Arguments Done {U} u.
Arguments Issue {U} i c u k.
Arguments Window {U} u k.
Arguments CloseCommand {U} i rc u k.
Arguments CloseControl {U} rc u k.

Definition with_cmds cs d := ScsiDevice (sd_lun d) (sd_flags d) (sd_process d) (sd_retries d) cs (sd_closed d) (sd_next d) (sd_refs d) (sd_fault d) (sd_log d).
Definition with_log ev d := ScsiDevice (sd_lun d) (sd_flags d) (sd_process d) (sd_retries d) (sd_cmds d) (sd_closed d) (sd_next d) (sd_refs d) (sd_fault d) (sd_log d ++ [ev]).
Definition with_refs r d := ScsiDevice (sd_lun d) (sd_flags d) (sd_process d) (sd_retries d) (sd_cmds d) (sd_closed d) (sd_next d) r (sd_fault d) (sd_log d).
Definition with_flags f d := ScsiDevice (sd_lun d) f (sd_process d) (sd_retries d) (sd_cmds d) (sd_closed d) (sd_next d) (sd_refs d) (sd_fault d) (sd_log d).
Definition with_process p d := ScsiDevice (sd_lun d) (sd_flags d) p (sd_retries d) (sd_cmds d) (sd_closed d) (sd_next d) (sd_refs d) (sd_fault d) (sd_log d).
Definition with_retries n d := ScsiDevice (sd_lun d) (sd_flags d) (sd_process d) n (sd_cmds d) (sd_closed d) (sd_next d) (sd_refs d) (sd_fault d) (sd_log d).
Definition with_closed d := ScsiDevice (sd_lun d) (sd_flags d) (sd_process d) (sd_retries d) (sd_cmds d) true (sd_next d) (sd_refs d) (sd_fault d) (sd_log d).
Definition with_next n d := ScsiDevice (sd_lun d) (sd_flags d) (sd_process d) (sd_retries d) (sd_cmds d) (sd_closed d) n (sd_refs d) (sd_fault d) (sd_log d).
Definition with_fault d := ScsiDevice (sd_lun d) (sd_flags d) (sd_process d) (sd_retries d) (sd_cmds d) (sd_closed d) (sd_next d) (sd_refs d) true (sd_log d).

Definition with_tag t c := ScsiCommand (sc_id c) (sc_parent c) (sc_type c) (sc_lba c) (sc_count c) (sc_buffer c) (sc_len c) t (sc_use16 c) (sc_priv c) (sc_scsi c) (sc_block c).
Definition with_scsi b c := ScsiCommand (sc_id c) (sc_parent c) (sc_type c) (sc_lba c) (sc_count c) (sc_buffer c) (sc_len c) (sc_tag c) (sc_use16 c) (sc_priv c) b (sc_block c).
Definition with_block b c := ScsiCommand (sc_id c) (sc_parent c) (sc_type c) (sc_lba c) (sc_count c) (sc_buffer c) (sc_len c) (sc_tag c) (sc_use16 c) (sc_priv c) (sc_scsi c) b.
Definition with_use16 c := ScsiCommand (sc_id c) (sc_parent c) (sc_type c) (sc_lba c) (sc_count c) (sc_buffer c) (sc_len c) (sc_tag c) true (sc_priv c) (sc_scsi c) (sc_block c).

Definition find_cmd (i : nat) (d : scsi_device) : option scsi_command :=
  List.find (fun c => bool_decide (sc_id c = i)) (sd_cmds d).

(** A change to the command [i], which the device still holds. *)
Definition on_cmd (i : nat) (f : scsi_command -> scsi_command) (d : scsi_device) : scsi_device :=
  with_cmds (map (fun c => if decide (sc_id c = i) then f c else c) (sd_cmds d)) d.

Definition scsicmd_get (i : nat) (d : scsi_device) : scsi_device :=
  match sd_refs d !! i with
  | Some n => with_refs (<[i := n + 1]> (sd_refs d)) d
  | None => with_fault d
  end.

(** The command is freed when its count drops below zero. *)
Definition scsicmd_put (i : nat) (d : scsi_device) : scsi_device :=
  match sd_refs d !! i with
  | Some n => with_refs (if decide (n - 1 < 0) then delete i (sd_refs d) else <[i := n - 1]> (sd_refs d)) d
  | None => with_fault d
  end.

(** ** Construction of commands *)

Definition scsicmd_read_cmd (c : scsi_command) (lun : list Z) : scsi_cmd :=
  ScsiCmd lun
    (make_cdb (if decide (SCSI_MAX_BLOCK_10 < u64 (sc_lba c + sc_count c))
               then [SCSI_OPCODE_READ_16; 0] ++ be64 (sc_lba c) ++ be32 (sc_count c) ++ [0; 0]
               else [SCSI_OPCODE_READ_10; 0] ++ be32 (sc_lba c) ++ [0] ++ be16 (sc_count c) ++ [0]))
    0 0 (sc_buffer c) (sc_len c).

Definition scsicmd_write_cmd (c : scsi_command) (lun : list Z) : scsi_cmd :=
  ScsiCmd lun
    (make_cdb (if decide (SCSI_MAX_BLOCK_10 < u64 (sc_lba c + sc_count c))
               then [SCSI_OPCODE_WRITE_16; 0] ++ be64 (sc_lba c) ++ be32 (sc_count c) ++ [0; 0]
               else [SCSI_OPCODE_WRITE_10; 0] ++ be32 (sc_lba c) ++ [0] ++ be16 (sc_count c) ++ [0]))
    (sc_buffer c) (sc_len c) 0 0.

Definition scsicmd_read_capacity_cmd (c : scsi_command) (lun : list Z) : scsi_cmd :=
  if sc_use16 c
  then ScsiCmd lun (make_cdb ([SCSI_OPCODE_SERVICE_ACTION_IN; SCSI_SERVICE_ACTION_READ_CAPACITY_16] ++ be64 0 ++ be32 32 ++ [0; 0])) 0 0 (sc_priv c) 32
  else ScsiCmd lun (make_cdb [SCSI_OPCODE_READ_CAPACITY_10]) 0 0 (sc_priv c) 8.

Definition scsicmd_test_unit_ready_cmd (lun : list Z) : scsi_cmd := ScsiCmd lun (make_cdb [SCSI_OPCODE_TEST_UNIT_READY]) 0 0 0 0.

Definition type_cmd (c : scsi_command) (lun : list Z) : scsi_cmd :=
  match sc_type c with
  | scsicmd_read => scsicmd_read_cmd c lun
  | scsicmd_write => scsicmd_write_cmd c lun
  | scsicmd_read_capacity => scsicmd_read_capacity_cmd c lun
  | scsicmd_test_unit_ready => scsicmd_test_unit_ready_cmd lun
  end.

(** ** Operations

    Operations that call the transport take what follows as a continuation. *)

Abbreviation sact := (act scsi_device).

Definition del_cmd (i : nat) (d : scsi_device) : scsi_device :=
  with_cmds (List.filter (fun c => negb (bool_decide (sc_id c = i))) (sd_cmds d)) d.

Definition shut_scsi (c : scsi_command) (rc : result unit) (d : scsi_device) (k : scsi_device -> sact) : sact :=
  if sc_scsi c then CloseCommand (sc_id c) rc d (fun d => k (scsicmd_put (sc_id c) d)) else k d.

(** The close of the block interface of a command, when the interfaces of
    the device are closed or [ready] tells what its close does. *)
Definition shut_block (ready : scsi_device -> (scsi_device -> sact) -> sact) (c : scsi_command) (rc : result unit)
    (d : scsi_device) (k : scsi_device -> sact) : sact :=
  if sc_block c then
    let k d := k (scsicmd_put (sc_id c) d) in
    match sc_parent c with
    | ParentBlock p => k (with_log (BlockClosed p rc) d)
    | ParentReady => if sd_closed d then k d else ready d k
    end
  else k d.

Definition close_with (ready : scsi_device -> (scsi_device -> sact) -> sact) (c : scsi_command) (rc : result unit)
    (d : scsi_device) (k : scsi_device -> sact) : sact :=
  shut_scsi c rc (del_cmd (sc_id c) d) (fun d =>
  shut_block ready c rc d (fun d => k (scsicmd_put (sc_id c) d))).

(** A command of a device whose interfaces are closed. *)
Definition close_cmd (c : scsi_command) (rc : result unit) (d : scsi_device) (k : scsi_device -> sact) : sact :=
  close_with (fun d k => k d) c rc d k.

Fixpoint close_all (ids : list nat) (rc : result unit) (d : scsi_device) (k : scsi_device -> sact) : sact :=
  match ids with
  | [] => k d
  | i :: ids =>
    match find_cmd i d with
    | Some c => close_cmd c rc d (fun d => close_all ids rc d k)
    | None => close_all ids rc d k
    end
  end.

Definition on_ready (c : scsi_command) : bool :=
  match sc_parent c with ParentReady => sc_block c | ParentBlock _ => false end.

Definition scsidev_close (rc : result unit) (d : scsi_device) (k : scsi_device -> sact) : sact :=
  let d := with_process false d in
  let rest d := close_all (map sc_id (List.filter on_ready (sd_cmds d))) rc d (fun d => close_all (map sc_id (sd_cmds d)) rc d k) in
  if sd_closed d then rest d else CloseControl rc (with_log (DeviceClosed rc) (with_closed d)) rest.

Definition scsidev_ready (rc : result unit) (d : scsi_device) (k : scsi_device -> sact) : sact :=
  if is_Ok rc then k (with_log BlockWindowChanged (with_flags (Z.lor (sd_flags d) SCSIDEV_UNIT_READY) d)) else
  let retries := sd_retries d in
  let d := with_retries (u32 (retries + 1)) d in
  if decide (retries < SCSI_READY_MAX_RETRIES) then
    k (with_process true (with_flags (Z.land (sd_flags d) (Z.lnot SCSIDEV_UNIT_TESTED)) d))
  else scsidev_close rc d k.

Definition scsicmd_close (c : scsi_command) (rc : result unit) (d : scsi_device) (k : scsi_device -> sact) : sact :=
  close_with (scsidev_ready rc) c rc d k.

Definition scsicmd_command (i : nat) (d : scsi_device) (k : result unit -> scsi_device -> sact) : sact :=
  match find_cmd i d with
  | None => k (Err EINVAL) (with_fault d)
  | Some c =>
    Issue i (type_cmd c (sd_lun d)) d (fun tag d =>
    match tag with
    | Err rc => k (Err rc) d
    | Ok tag => k (Ok tt) (scsicmd_get i (on_cmd i (fun c => with_scsi true (with_tag (u32 tag) c)) d))
    end)
  end.

(** The buffer is read from the memory [m]. *)
Definition scsicmd_read_capacity_done (m : mem) (c : scsi_command) (rc : result unit) (d : scsi_device) (k : scsi_device -> sact) : sact :=
  let report blocks blksize :=
    let d := match sc_parent c with
             | ParentBlock p => if sc_block c then with_log (BlockCapacity p blocks blksize (2 ^ 32 - 1)) d else d
             | ParentReady => d
             end in
    scsicmd_close c (Ok tt) d k in
  match rc with
  | Err _ => scsicmd_close c rc d k
  | Ok _ =>
    if sc_use16 c then
      let capacity16 := mload m (sc_priv c) 32 in
      report (u64 (get64 capacity16 0 + 1)) (get32 capacity16 8)
    else
      let capacity10 := mload m (sc_priv c) 8 in
      let blocks := u32 (get32 capacity10 0 + 1) in
      if decide (blocks = 0) then
        scsicmd_command (sc_id c) (on_cmd (sc_id c) with_use16 d) (fun r d =>
        match r with
        | Ok _ => k d
        | Err rc => match find_cmd (sc_id c) d with Some c => scsicmd_close c (Err rc) d k | None => k d end
        end)
      else report blocks (get32 capacity10 4)
  end.

Definition type_done (m : mem) (c : scsi_command) (rc : result unit) (d : scsi_device) (k : scsi_device -> sact) : sact :=
  match sc_type c with
  | scsicmd_read_capacity => scsicmd_read_capacity_done m c rc d k
  | _ => scsicmd_close c rc d k
  end.

Definition scsicmd_done (m : mem) (c : scsi_command) (rc : result unit) (d : scsi_device) (k : scsi_device -> sact) : sact :=
  let i := sc_id c in
  let d := on_cmd i (with_scsi false) d in
  let done d := match find_cmd i d with Some c => type_done m c rc d k | None => k d end in
  if sc_scsi c then CloseCommand i rc d (fun d => done (scsicmd_put i d)) else done d.

(** The sense key only selects the text of the error. *)
Definition scsicmd_response (m : mem) (c : scsi_command) (response : scsi_rsp) (d : scsi_device) (k : scsi_device -> sact) : sact :=
  if decide (status response = 0) then scsicmd_done m c (Ok tt) d k else scsicmd_done m c (Err EIO) d k.

(** [priv] is the address of the private data, or the allocation fails. *)
Definition scsidev_command (priv : option Z) (parent : block_parent) (type : scsi_command_type) (lba count buffer len : Z)
    (d : scsi_device) (k : result unit -> scsi_device -> sact) : sact :=
  match priv with
  | None => k (Err ENOMEM) d
  | Some priv =>
    let i := sd_next d in
    let c := ScsiCommand i parent type lba count buffer len 0 false priv false false in
    let d := with_cmds (c :: sd_cmds d) (with_refs (<[i := 0]> (sd_refs d)) (with_next (S i) d)) in
    scsicmd_command i d (fun r d =>
    match r with
    | Ok _ => k (Ok tt) (scsicmd_get i (on_cmd i (with_block true) d))
    | Err rc =>
      match find_cmd i d with
      | Some c => scsicmd_close c (Err rc) d (fun d => k (Err rc) (scsicmd_put i d))
      | None => k (Err rc) d
      end
    end)
  end.

Definition returned (p : nat) (r : result unit) (d : scsi_device) : sact := Done (with_log (BlockReturned p r) d).

Definition scsidev_read priv p lba count buffer len d : sact :=
  scsidev_command priv (ParentBlock p) scsicmd_read lba count buffer len d (returned p).

Definition scsidev_write priv p lba count buffer len d : sact :=
  scsidev_command priv (ParentBlock p) scsicmd_write lba count buffer len d (returned p).

Definition scsidev_read_capacity priv p d : sact :=
  scsidev_command priv (ParentBlock p) scsicmd_read_capacity 0 0 0 0 d (returned p).

Definition scsidev_test_unit_ready priv d k : sact :=
  scsidev_command priv ParentReady scsicmd_test_unit_ready 0 0 0 0 d k.

Definition scsidev_window (d : scsi_device) (k : Z -> scsi_device -> sact) : sact :=
  if decide (Z.land (sd_flags d) SCSIDEV_UNIT_READY = 0) then k 0 d else Window d k.

Definition scsidev_step (priv : option Z) (d : scsi_device) : sact :=
  if decide (Z.land (sd_flags d) SCSIDEV_UNIT_TESTED <> 0) then Done d else
  Window d (fun w d =>
  if decide (w = 0) then Done d else
  scsidev_test_unit_ready priv (with_flags (Z.lor (sd_flags d) SCSIDEV_UNIT_TESTED) d) (fun r d =>
  match r with Ok _ => Done d | Err _ => scsidev_close r d Done end)).

Definition scsi_open (lun : list Z) : scsi_device := ScsiDevice lun 0 true 0 [] false 0 ∅ false [].

(** ** Calls from the transport *)

(** A response or the close of the command interface reaches the command
    that is plugged into it. *)
Definition command_response (m : mem) (i : nat) (response : scsi_rsp) (d : scsi_device) : sact :=
  match find_cmd i d with
  | Some c => if sc_scsi c then scsicmd_response m c response d Done else Done d
  | None => Done d
  end.

Definition command_closed (m : mem) (i : nat) (rc : result unit) (d : scsi_device) : sact :=
  match find_cmd i d with
  | Some c => if sc_scsi c then scsicmd_done m c rc d Done else Done d
  | None => Done d
  end.

Definition control_closed (rc : result unit) (d : scsi_device) : sact :=
  if sd_closed d then Done d else scsidev_close rc d Done.

Definition control_window_changed (priv : option Z) (d : scsi_device) : sact :=
  if sd_closed d then Done d else scsidev_step priv d.

(** The run queue runs the process of the device once. *)
Definition device_process (priv : option Z) (d : scsi_device) : sact :=
  if sd_process d then scsidev_step priv (with_process false d) else Done d.

(** ** What a command asks of the target

    The target's side of the commands above (SCSI block commands). *)

Inductive scsi_request :=
  | ReqRead (lba count : Z)
  | ReqWrite (lba count : Z)
  | ReqCapacity10
  | ReqCapacity16 (len : Z)
  | ReqReady.

Definition decode_cdb (cdb : list Z) : option scsi_request :=
  let op := get8 cdb 0 in
  if decide (op = 40) then Some (ReqRead (get32 cdb 2) (get16 cdb 7))
  else if decide (op = 42) then Some (ReqWrite (get32 cdb 2) (get16 cdb 7))
  else if decide (op = 136) then Some (ReqRead (get64 cdb 2) (get32 cdb 10))
  else if decide (op = 138) then Some (ReqWrite (get64 cdb 2) (get32 cdb 10))
  else if decide (op = 37) then Some ReqCapacity10
  else if decide (op = 158 /\ get8 cdb 1 = 16) then Some (ReqCapacity16 (get32 cdb 10))
  else if decide (op = 0) then Some ReqReady
  else None.

Lemma be32_wrap v : get32 (be32 v) 0 = u32 v.
Proof.
  rewrite <- (be32_value (u32 v)) by (apply wrap_bound; lia). unfold get32, get8, be32. cbn [nth Nat.add].
  assert (forall k, 0 <= k <= 24 -> u8 (Z.shiftr (u32 v) k) = u8 (Z.shiftr v k)) as Hk.
  { intros k Hk. unfold wrap. apply Z.bits_inj'. intros n Hn. destruct (decide (n < 8)).
    - rewrite !Z.mod_pow2_bits_low, !Z.shiftr_spec by lia. by rewrite Z.mod_pow2_bits_low by lia.
    - by rewrite !Z.mod_pow2_bits_high by lia. }
  rewrite !Hk by lia. f_equal. specialize (Hk 0). rewrite !Z.shiftr_0_r in Hk. by rewrite Hk by lia.
Qed.

Lemma be64_value v : in_width 64 v -> get64 (be64 v) 0 = v.
Proof.
  intros Hv. change (get64 (be64 v) 0) with (get32 (be32 (Z.shiftr v 32)) 0 * 2 ^ 32 + get32 (be32 v) 0).
  rewrite !be32_wrap, Z.shiftr_div_pow2 by lia. rewrite (wrap_small 32 (v / _)).
  - unfold wrap. pose proof (Z.div_mod v (2 ^ 32)). lia.
  - unfold in_width in *. split; [apply Z.div_pos; lia|]. apply Z.div_lt_upper_bound; lia.
Qed.

Lemma scsi_rw_request c lun :
  in_width 64 (sc_lba c) -> in_width 32 (sc_count c) -> sc_lba c + sc_count c < 2 ^ 64 ->
  sc_count c < 2 ^ 16 \/ SCSI_MAX_BLOCK_10 < sc_lba c + sc_count c ->
  decode_cdb (cdb (scsicmd_read_cmd c lun)) = Some (ReqRead (sc_lba c) (sc_count c)) /\
  decode_cdb (cdb (scsicmd_write_cmd c lun)) = Some (ReqWrite (sc_lba c) (sc_count c)) /\
  length (cdb (scsicmd_read_cmd c lun)) = 16%nat /\ length (cdb (scsicmd_write_cmd c lun)) = 16%nat.
Proof.
  intros Hl Hc Hs Hfit. unfold scsicmd_read_cmd, scsicmd_write_cmd. cbn [cdb]. rewrite (wrap_small 64) by zlia.
  assert (get64 (be64 (sc_lba c)) 0 = sc_lba c) as El by by apply be64_value.
  assert (get32 (be32 (sc_count c)) 0 = sc_count c) as Ec by by rewrite be32_wrap, wrap_small.
  case_decide as Hd; (split_and!; [..|done|done]); unfold decode_cdb.
  1,2: repeat (rewrite decide_False by done); rewrite decide_True by done; do 2 f_equal; [exact El|exact Ec].
  all: assert (sc_count c < 2 ^ 16) as Hc16 by (destruct Hfit; [done|lia]).
  all: assert (get16 (be16 (sc_count c)) 0 = sc_count c) as Ec16 by (unfold get16, get8, be16; cbn [nth Nat.add]; apply be16_value; zlia).
  all: assert (get32 (be32 (sc_lba c)) 0 = sc_lba c) as El32 by (rewrite be32_wrap, wrap_small; [done|unfold SCSI_MAX_BLOCK_10 in *; zlia]).
  all: repeat (rewrite decide_False by done); rewrite decide_True by done; do 2 f_equal; [exact El32|exact Ec16].
Qed.

Lemma list_8 (l : list Z) : length l = 8%nat -> exists a b c d e f g h, l = [a; b; c; d; e; f; g; h].
Proof. intros Hl. do 8 (destruct l as [|? l]; [done|]). destruct l; [|done]. by eexists _, _, _, _, _, _, _, _. Qed.

(** A READ or WRITE command asks the target for the blocks that the
    block layer asked for, with the buffer for them, whenever their number
    fits the command that is chosen. *)
Theorem scsi_rw_correct c lun :
  in_width 64 (sc_lba c) -> in_width 32 (sc_count c) -> sc_lba c + sc_count c < 2 ^ 64 ->
  sc_count c < 2 ^ 16 \/ SCSI_MAX_BLOCK_10 < sc_lba c + sc_count c ->
  decode_cdb (cdb (scsicmd_read_cmd c lun)) = Some (ReqRead (sc_lba c) (sc_count c)) /\
  decode_cdb (cdb (scsicmd_write_cmd c lun)) = Some (ReqWrite (sc_lba c) (sc_count c)) /\
  length (cdb (scsicmd_read_cmd c lun)) = 16%nat /\ length (cdb (scsicmd_write_cmd c lun)) = 16%nat.
Proof. apply scsi_rw_request. Qed.

Lemma scsi_rw_correct_witness :
  let c := ScsiCommand 0 (ParentBlock 0) scsicmd_read 5000000000 65536 4096 33554432 0 false 0 false false in
  decode_cdb (cdb (scsicmd_read_cmd c (replicate 8 0))) = Some (ReqRead 5000000000 65536).
Proof.
  intros c. destruct (scsi_rw_correct c (replicate 8 0)) as [E _]; [by split|by split|done|by right|]. exact E.
Defined.

(** Without that condition the command may ask for fewer blocks: 65536 blocks
    are none. *)
Theorem scsi_read10_truncates :
  exists c, in_width 64 (sc_lba c) /\ in_width 32 (sc_count c) /\ sc_count c = 65536 /\
    decode_cdb (cdb (scsicmd_read_cmd c (replicate 8 0))) = Some (ReqRead (sc_lba c) 0).
Proof. by exists (ScsiCommand 0 (ParentBlock 0) scsicmd_read 0 65536 4096 33554432 0 false 0 false false). Qed.

(** Fixed-format sense data have their key in the third byte; the key that
    is reported is the second byte, which is reserved. *)
Theorem scsi_fixed_sense_key m data len :
  14 <= len -> SCSI_SENSE_FIXED (m data) = true ->
  sns_key (scsi_parse_sense m data len) = m (data + 1) /\
  sns_additional (scsi_parse_sense m data len) = m (data + 12) * 2 ^ 8 + m (data + 13).
Proof.
  intros Hl Hf. unfold scsi_parse_sense. rewrite decide_False by lia. rewrite decide_False by lia. rewrite Hf. cbn [negb sns_key sns_additional mload get16 get8 nth Nat.add].
  split; [done|]. by replace (data + 12 + 1) with (data + 13) by lia.
Qed.

(** ** A transport that accepts or refuses every command

    [run] gives the commands and the final state of a handler. *)
Fixpoint run (r : result Z) (a : sact) : list scsi_cmd * scsi_device :=
  match a with
  | Done d => ([], d)
  | Issue _ c d k => let (cs, d) := run r (k r d) in (c :: cs, d)
  | Window d k => run r (k 1 d)
  | CloseCommand _ _ d k => run r (k d)
  | CloseControl _ d k => run r (k d)
  end.

(** A target with [blocks] blocks of [blksize] bytes answers a request for
    its capacity. *)
Definition capacity_data (blocks blksize : Z) (r : scsi_request) : list Z :=
  match r with
  | ReqCapacity10 => be32 (Z.min (blocks - 1) (2 ^ 32 - 1)) ++ be32 blksize
  | ReqCapacity16 len => take (Z.to_nat len) (be64 (blocks - 1) ++ be32 blksize ++ replicate 20 0)
  | _ => []
  end.

Definition target_answer (blocks blksize : Z) (m : mem) (c : scsi_cmd) : mem :=
  match decode_cdb (cdb c) with
  | Some r => memcpy m (data_in c) (take (Z.to_nat (data_in_len c)) (capacity_data blocks blksize r))
  | None => m
  end.

(** The exchange: each command is answered, and its command interface is
    closed without an error. *)
Fixpoint exchange (fuel : nat) (blocks blksize tag : Z) (i : nat) (m : mem) (a : sact) : scsi_device :=
  let (cs, d) := run (Ok tag) a in
  match fuel, cs with
  | S fuel, [c] => let m := target_answer blocks blksize m c in exchange fuel blocks blksize tag i m (command_closed m i (Ok tt) d)
  | _, _ => d
  end.

Definition ev_capacity (p : nat) (blocks blksize : Z) : list block_event :=
  [BlockReturned p (Ok tt); BlockCapacity p blocks blksize (2 ^ 32 - 1); BlockClosed p (Ok tt)].

Definition fresh_device (d : scsi_device) : Prop := Forall (fun c => (sc_id c < sd_next d)%nat) (sd_cmds d).

(** ** A device with one new command

    The device [d] with the commands [l], the counts [r] and the log [lg]. *)
Definition dev (d : scsi_device) (l : list scsi_command) (r : gmap nat Z) (lg : list block_event) : scsi_device :=
  ScsiDevice (sd_lun d) (sd_flags d) (sd_process d) (sd_retries d) l (sd_closed d) (S (sd_next d)) r (sd_fault d) lg.

Section new_command.
Context (d : scsi_device) (r : gmap nat Z) (lg : list block_event).
Hypothesis Hfresh : fresh_device d.
Abbreviation i := (sd_next d).

Lemma others : Forall (fun c => sc_id c <> i) (sd_cmds d).
Proof. eapply Forall_impl; [exact Hfresh|]. simpl. lia. Qed.

Lemma dev_find c : sc_id c = i -> find_cmd i (dev d (c :: sd_cmds d) r lg) = Some c.
Proof. intros Hc. unfold find_cmd. cbn. by rewrite bool_decide_true. Qed.

Lemma dev_find_none : find_cmd i (dev d (sd_cmds d) r lg) = None.
Proof.
  unfold find_cmd. cbn. pose proof others as Ho. induction (sd_cmds d) as [|c cs IH]; [done|]. apply Forall_cons in Ho as [Hc Ho].
  cbn. by rewrite bool_decide_false, IH.
Qed.

Lemma dev_on c f : sc_id c = i -> on_cmd i f (dev d (c :: sd_cmds d) r lg) = dev d (f c :: sd_cmds d) r lg.
Proof.
  intros Hc. unfold on_cmd, with_cmds, dev. cbn. rewrite decide_True by done. do 2 f_equal.
  pose proof others as Ho. induction (sd_cmds d) as [|c' cs IH]; [done|]. apply Forall_cons in Ho as [Hc' Ho]. cbn.
  by rewrite decide_False, IH.
Qed.

Lemma dev_del c : sc_id c = i -> del_cmd i (dev d (c :: sd_cmds d) r lg) = dev d (sd_cmds d) r lg.
Proof.
  intros Hc. unfold del_cmd, with_cmds, dev. cbn. rewrite bool_decide_true by done. cbn. f_equal.
  pose proof others as Ho. induction (sd_cmds d) as [|c' cs IH]; [done|]. apply Forall_cons in Ho as [Hc' Ho]. cbn.
  by rewrite bool_decide_false, IH.
Qed.

Lemma dev_get l n : scsicmd_get i (dev d l (<[i := n]> r) lg) = dev d l (<[i := n + 1]> r) lg.
Proof. unfold scsicmd_get. cbn [sd_refs dev]. by rewrite lookup_insert_eq, insert_insert_eq. Qed.

Lemma dev_put l n : 0 < n -> scsicmd_put i (dev d l (<[i := n]> r) lg) = dev d l (<[i := n - 1]> r) lg.
Proof. intros Hn. unfold scsicmd_put. cbn [sd_refs dev]. rewrite lookup_insert_eq, decide_False by lia. by rewrite insert_insert_eq. Qed.

Lemma dev_free l : r !! i = None -> scsicmd_put i (dev d l (<[i := 0]> r) lg) = dev d l r lg.
Proof. intros Hr. unfold scsicmd_put. cbn [sd_refs dev]. rewrite lookup_insert_eq, decide_True by lia. by rewrite delete_insert_id. Qed.

Lemma dev_put_freed l : r !! i = None -> scsicmd_put i (dev d l r lg) = with_fault (dev d l r lg).
Proof. intros Hr. unfold scsicmd_put. cbn [sd_refs dev]. by rewrite Hr. Qed.
End new_command.

(** A command that the transport accepts is in the list, with one reference
    of the list and one of each interface that is plugged into it. *)
Lemma scsidev_command_accepted d priv parent type lba count buffer len tag k :
  fresh_device d ->
  let c := ScsiCommand (sd_next d) parent type lba count buffer len 0 false priv false false in
  run (Ok tag) (scsidev_command (Some priv) parent type lba count buffer len d k)
  = let (cs, d') := run (Ok tag) (k (Ok tt) (dev d (with_block true (with_scsi true (with_tag (u32 tag) c)) :: sd_cmds d) (<[sd_next d := 2]> (sd_refs d)) (sd_log d))) in
    (type_cmd c (sd_lun d) :: cs, d').
Proof.
  intros Hf c. unfold scsidev_command. cbv zeta. fold c.
  change (with_cmds _ (with_refs _ _)) with (dev d (c :: sd_cmds d) (<[sd_next d := 0]> (sd_refs d)) (sd_log d)).
  unfold scsicmd_command. rewrite dev_find by done. cbn [run]. rewrite dev_on, dev_get, dev_on, dev_get by done.
  change (0 + 1 + 1) with 2. cbn [dev sd_lun]. done.
Qed.

(** The end of such a command, reported by the transport. *)
Lemma command_closed_run d c m rc tag lg :
  fresh_device d -> sc_id c = sd_next d -> sc_scsi c = true ->
  run (Ok tag) (command_closed m (sd_next d) rc (dev d (c :: sd_cmds d) (<[sd_next d := 2]> (sd_refs d)) lg))
  = run (Ok tag) (type_done m (with_scsi false c) rc (dev d (with_scsi false c :: sd_cmds d) (<[sd_next d := 1]> (sd_refs d)) lg) Done).
Proof.
  intros Hf Hi Hs. unfold command_closed. rewrite dev_find by done. rewrite Hs. unfold scsicmd_done. rewrite Hs, Hi. cbn [run].
  rewrite dev_on, dev_put by (done || lia). change (2 - 1) with 1. rewrite dev_find by done. done.
Qed.

Lemma scsicmd_close_run d c p tag rc lg :
  fresh_device d -> sc_id c = sd_next d -> sc_scsi c = false -> sc_block c = true -> sc_parent c = ParentBlock p -> sd_refs d !! sd_next d = None ->
  run (Ok tag) (scsicmd_close c rc (dev d (c :: sd_cmds d) (<[sd_next d := 1]> (sd_refs d)) lg) Done)
  = ([], dev d (sd_cmds d) (sd_refs d) (lg ++ [BlockClosed p rc])).
Proof.
  intros Hf Hi Hs Hb Hp Hr. unfold scsicmd_close, close_with, shut_scsi, shut_block. rewrite Hs, Hb, Hp, Hi. rewrite dev_del by done.
  change (with_log ?e (dev ?d ?l ?r ?g)) with (dev d l r (g ++ [e])). rewrite dev_put by lia. change (1 - 1) with 0. by rewrite dev_free.
Qed.

Lemma report_capacity d m c p blocks blksize tag lg :
  fresh_device d -> sc_id c = sd_next d -> sc_type c = scsicmd_read_capacity -> sc_scsi c = true -> sc_block c = true -> sc_parent c = ParentBlock p ->
  sd_refs d !! sd_next d = None -> 1 <= blocks < 2 ^ 64 -> in_width 32 blksize ->
  (if sc_use16 c then mload m (sc_priv c) 32 = be64 (blocks - 1) ++ be32 blksize ++ replicate 20 0
   else blocks < 2 ^ 32 /\ mload m (sc_priv c) 8 = be32 (blocks - 1) ++ be32 blksize) ->
  run (Ok tag) (command_closed m (sd_next d) (Ok tt) (dev d (c :: sd_cmds d) (<[sd_next d := 2]> (sd_refs d)) lg))
  = ([], dev d (sd_cmds d) (sd_refs d) (lg ++ [BlockCapacity p blocks blksize (2 ^ 32 - 1); BlockClosed p (Ok tt)])).
Proof.
  intros Hf Hi Ht Hs Hb Hp Hr Hbl Hsz Hm. rewrite command_closed_run by done.
  unfold type_done. cbn [with_scsi sc_type]. rewrite Ht. unfold scsicmd_read_capacity_done. cbn [with_scsi sc_use16 sc_priv sc_parent sc_block]. rewrite Hp, Hb.
  assert (get32 (be32 blksize) 0 = blksize) as Ez by by rewrite be32_wrap, wrap_small.
  assert (forall n z, n = blocks -> z = blksize ->
    run (Ok tag) (scsicmd_close (with_scsi false c) (Ok tt) (with_log (BlockCapacity p n z (2 ^ 32 - 1)) (dev d (with_scsi false c :: sd_cmds d) (<[sd_next d := 1]> (sd_refs d)) lg)) Done)
    = ([], dev d (sd_cmds d) (sd_refs d) (lg ++ [BlockCapacity p blocks blksize (2 ^ 32 - 1); BlockClosed p (Ok tt)]))) as Hclose.
  { intros ? ? -> ->. change (with_log ?e (dev ?d ?l ?r ?g)) with (dev d l r (g ++ [e])).
    rewrite (scsicmd_close_run _ _ p) by done. by rewrite <- app_assoc. }
  destruct (sc_use16 c); cbn beta iota zeta.
  - rewrite Hm. apply Hclose; [|exact Ez]. change (get64 _ 0) with (get64 (be64 (blocks - 1)) 0).
    rewrite be64_value by zlia. rewrite wrap_small by zlia. lia.
  - destruct Hm as [Hlt Hm]. rewrite Hm. change (get32 (be32 (blocks - 1) ++ _) 0) with (get32 (be32 (blocks - 1)) 0).
    change (get32 (be32 (blocks - 1) ++ be32 blksize) 4) with (get32 (be32 blksize) 0).
    rewrite be32_wrap, (wrap_small _ (blocks - 1)), (wrap_small _ (blocks - 1 + 1)) by zlia. rewrite decide_False by lia. apply Hclose; [lia|exact Ez].
Qed.

Lemma exchange_step fuel blocks blksize tag i m a c d :
  run (Ok tag) a = ([c], d) ->
  exchange (S fuel) blocks blksize tag i m a
  = exchange fuel blocks blksize tag i (target_answer blocks blksize m c) (command_closed (target_answer blocks blksize m c) i (Ok tt) d).
Proof. intros H. cbn [exchange]. by rewrite H. Qed.

Lemma exchange_end fuel blocks blksize tag i m a d : run (Ok tag) a = ([], d) -> exchange fuel blocks blksize tag i m a = d.
Proof. intros H. destruct fuel; cbn [exchange]; by rewrite H. Qed.

(** C32: reading the capacity of a target ends with its number of blocks and
    its block size, with a second command when the first cannot express the
    number; the command and its references are gone then. *)
Theorem scsi_capacity_correct d m priv p blocks blksize tag :
  fresh_device d -> sd_refs d !! sd_next d = None -> 1 <= blocks < 2 ^ 64 -> in_width 32 blksize ->
  exchange 3 blocks blksize tag (sd_next d) m (scsidev_read_capacity (Some priv) p d)
  = dev d (sd_cmds d) (sd_refs d) (sd_log d ++ ev_capacity p blocks blksize).
Proof.
  intros Hf Hr Hb Hz. unfold scsidev_read_capacity. erewrite exchange_step by (rewrite scsidev_command_accepted by done; cbn [returned run]; reflexivity).
  change (with_log ?e (dev ?d ?l ?r ?g)) with (dev d l r (g ++ [e])). set (c1 := with_block true _).
  match goal with |- context [target_answer _ _ m ?cmd] => change (target_answer blocks blksize m cmd) with (memcpy m priv (be32 (Z.min (blocks - 1) (2 ^ 32 - 1)) ++ be32 blksize)) end.
  set (m1 := memcpy _ _ _).
  assert (mload m1 priv 8 = be32 (Z.min (blocks - 1) (2 ^ 32 - 1)) ++ be32 blksize) as Hm1 by apply (mload_memcpy m priv (be32 _ ++ be32 _)).
  destruct (decide (blocks < 2 ^ 32)) as [Hlt|Hge].
  - erewrite exchange_end; [|apply (report_capacity _ _ _ p blocks blksize); try done].
    + cbn. by rewrite <- app_assoc.
    + split; [done|]. change (sc_priv c1) with priv. rewrite Hm1. by rewrite Z.min_l by lia.
  - erewrite exchange_step.
    2:{ rewrite command_closed_run by done. set (c2 := with_scsi false c1). change (type_done m1 c2) with (scsicmd_read_capacity_done m1 c2). unfold scsicmd_read_capacity_done.
        change (sc_use16 c2) with false. change (sc_priv c2) with priv. change (sc_id c2) with (sd_next d). cbv beta iota zeta. rewrite Hm1.
        rewrite Z.min_r by lia. rewrite (decide_True (P := u32 (get32 (be32 (2 ^ 32 - 1) ++ be32 blksize) 0 + 1) = 0)) by done.
        rewrite dev_on by done. unfold scsicmd_command. rewrite dev_find by done. cbn [run]. rewrite dev_on, dev_get by done. reflexivity. }
    change (1 + 1) with 2. set (c3 := with_scsi true _).
    match goal with |- context [target_answer _ _ m1 ?cmd] => change (target_answer blocks blksize m1 cmd) with (memcpy m1 priv (be64 (blocks - 1) ++ be32 blksize ++ replicate 20 0)) end.
    erewrite exchange_end; [|apply (report_capacity _ _ c3 p blocks blksize); try done].
    + cbn. by rewrite <- app_assoc.
    + apply (mload_memcpy m1 priv (be64 _ ++ be32 _ ++ replicate 20 0)).
Qed.

Lemma scsi_capacity_correct_witness :
  exchange 3 5000000000 512 1 0 (fun _ => 0) (scsidev_read_capacity (Some 4096) 7 (scsi_open (replicate 8 0)))
  = dev (scsi_open (replicate 8 0)) [] ∅ (ev_capacity 7 5000000000 512).
Proof. apply (scsi_capacity_correct (scsi_open (replicate 8 0)) (fun _ => 0) 4096 7 5000000000 512 1); [constructor|done|done|done]. Defined.

(** A command that the transport refuses has only the reference of the list,
    which closing it drops; it is dropped a second time. *)
Theorem scsi_refused_put_twice d priv parent type lba count buffer len e :
  fresh_device d -> sd_refs d !! sd_next d = None ->
  sd_fault (run (Err e) (scsidev_command (Some priv) parent type lba count buffer len d (fun _ => Done))).2 = true.
Proof.
  intros Hf Hr. unfold scsidev_command. cbv zeta. set (c := ScsiCommand _ _ _ _ _ _ _ _ _ _ _ _).
  change (with_cmds _ (with_refs _ _)) with (dev d (c :: sd_cmds d) (<[sd_next d := 0]> (sd_refs d)) (sd_log d)).
  unfold scsicmd_command. rewrite dev_find by done. cbn [run]. rewrite dev_find by done.
  unfold scsicmd_close, close_with, shut_scsi, shut_block. change (sc_scsi c) with false. change (sc_block c) with false. change (sc_id c) with (sd_next d). cbv iota.
  rewrite dev_del, dev_free, dev_put_freed by done. done.
Qed.

(** ** The unit becomes ready *)

(** The device while it waits for its [n]-th retry. *)
Definition waiting (lun : list Z) (n : nat) : scsi_device := ScsiDevice lun 0 true (Z.of_nat n) [] false n ∅ false [].

(** As long as its process is scheduled, the device issues TEST UNIT READY,
    which ends with the next one of [rcs]; the number of commands. *)
Fixpoint rounds (tag : Z) (m : mem) (rcs : list (result unit)) (d : scsi_device) : nat * scsi_device :=
  match rcs with
  | [] => (0%nat, d)
  | rc :: rcs =>
    if sd_process d then
      let (cs, d1) := run (Ok tag) (device_process (Some 0) d) in
      let (n, d') := rounds tag m rcs (run (Ok tag) (command_closed m (sd_next d) rc d1)).2 in
      ((length cs + n)%nat, d')
    else (0%nat, d)
  end.

Definition after_round (lun : list Z) (n : nat) (rc : result unit) : scsi_device :=
  match rc with
  | Ok _ => ScsiDevice lun 3 false (Z.of_nat n) [] false (S n) ∅ false [BlockWindowChanged]
  | Err _ => if decide (Z.of_nat n < 10) then waiting lun (S n)
             else ScsiDevice lun 1 false (Z.of_nat (S n)) [] true (S n) ∅ false [DeviceClosed rc]
  end.

Lemma round_waiting tag m rc lun n :
  (n <= 10)%nat ->
  exists d, run (Ok tag) (device_process (Some 0) (waiting lun n)) = ([scsicmd_test_unit_ready_cmd lun], d) /\
  (run (Ok tag) (command_closed m n rc d)).2 = after_round lun n rc.
Proof.
  intros Hn. set (d := with_flags 1 (with_process false (waiting lun n))). assert (fresh_device d) as Hf by constructor.
  eexists. split.
  - transitivity (run (Ok tag) (scsidev_test_unit_ready (Some 0) d (fun r d => match r with Ok _ => Done d | Err _ => scsidev_close r d Done end))); [reflexivity|].
    unfold scsidev_test_unit_ready. rewrite scsidev_command_accepted by done. cbn [run]. reflexivity.
  - change n with (sd_next d) at 1. rewrite command_closed_run by done. set (c := with_scsi false _).
    change (type_done m c) with (scsicmd_close c). unfold scsicmd_close, close_with, shut_scsi, shut_block. change (sc_scsi c) with false. change (sc_block c) with true.
    change (sc_parent c) with ParentReady. change (sc_id c) with (sd_next d). cbv iota. rewrite dev_del by done. change (sd_closed (dev _ _ _ _)) with false. cbv iota zeta.
    assert (forall fl pr rt cl lg, let d2 := ScsiDevice lun fl pr rt [] cl n ∅ false [] in
      (run (Ok tag) (Done (scsicmd_put n (scsicmd_put n (dev d2 [] (<[n := 1]> ∅) lg))))).2 = dev d2 [] ∅ lg) as Hend.
    { intros. change n with (sd_next d2) at 1 2 3. rewrite dev_put by lia. change (1 - 1) with 0. by rewrite dev_free. }
    unfold scsidev_ready. destruct rc as [[]|e]; cbn [is_Ok after_round].
    + apply (Hend 3 false (Z.of_nat n) false).
    + cbv zeta. change (sd_retries (dev _ _ _ _)) with (Z.of_nat n). rewrite (wrap_small _ (_ + 1)) by zlia. unfold SCSI_READY_MAX_RETRIES, waiting.
      replace (Z.of_nat (S n)) with (Z.of_nat n + 1) by lia. case_decide; [apply (Hend 0 true)|apply (Hend 1 false _ true)].
Qed.

(** The first success among the first eleven results, if any. *)
Definition first_ok (rcs : list (result unit)) : option nat := fst <$> list_find (fun rc => rc = Ok tt) (take 11 rcs).

Lemma rounds_stopped tag m rcs d : sd_process d = false -> rounds tag m rcs d = (0%nat, d).
Proof. intros H. destruct rcs; cbn; by rewrite ?H. Qed.

Lemma rounds_errors tag m lun rcs rest n :
  Forall (fun rc => is_Ok rc = false) rcs -> (n + length rcs <= 10)%nat ->
  rounds tag m (rcs ++ rest) (waiting lun n) = let (k, d) := rounds tag m rest (waiting lun (n + length rcs)) in ((length rcs + k)%nat, d).
Proof.
  revert n. induction rcs as [|rc rcs IH]; intros n He Hl; cbn [length app].
  - rewrite Nat.add_0_r. by destruct (rounds _ _ _ _).
  - cbn [length] in Hl. apply Forall_cons in He as [He1 He]. cbn [rounds]. change (sd_process (waiting lun n)) with true. change (sd_next (waiting lun n)) with n. cbv iota.
    destruct (round_waiting tag m rc lun n) as (d & -> & ->); [lia|]. destruct rc as [|e]; [done|]. unfold after_round. rewrite decide_True by lia.
    rewrite IH by (done || lia). replace (S n + length rcs)%nat with (n + S (length rcs))%nat by lia. by destruct (rounds _ _ _ _).
Qed.

(** A device whose target answers TEST UNIT READY becomes ready with the
    first success among the first eleven answers, and is closed with the
    eleventh error otherwise; it does not issue the command again. *)
Theorem scsi_ready_decides tag m lun rcs :
  (11 <= length rcs)%nat ->
  rounds tag m rcs (scsi_open lun)
  = match first_ok rcs with
    | Some n => (S n, ScsiDevice lun 3 false (Z.of_nat n) [] false (S n) ∅ false [BlockWindowChanged])
    | None => (11%nat, ScsiDevice lun 1 false 11 [] true 11 ∅ false [DeviceClosed (nth 10 rcs (Ok tt))])
    end.
Proof.
  intros Hlen. change (scsi_open lun) with (waiting lun 0). unfold first_ok.
  destruct (list_find _ (take 11 rcs)) as [[n rc]|] eqn:Hfind; cbn [fmap option_fmap option_map fst].
  - apply list_find_Some in Hfind as (Hn & -> & Hbefore). apply lookup_take_Some in Hn as [Hn Hlt].
    rewrite <- (take_drop_middle rcs n (Ok tt)) by done. rewrite rounds_errors.
    + rewrite length_take, Nat.add_0_l. replace (n `min` length rcs)%nat with n by (apply lookup_lt_Some in Hn; lia). cbn [rounds].
      change (sd_process (waiting lun n)) with true. change (sd_next (waiting lun n)) with n. cbv iota. destruct (round_waiting tag m (Ok tt) lun n) as (d & -> & ->); [lia|].
      cbn [after_round]. rewrite rounds_stopped by done. f_equal. cbn. lia.
    + apply Forall_lookup. intros j x Hj. apply lookup_take_Some in Hj as [Hj Hjn]. destruct x as [[]|]; [|done].
      destruct (Hbefore j (Ok tt)); [|lia|done]. apply lookup_take_Some. split; [done|lia].
    + rewrite length_take. apply lookup_lt_Some in Hn. lia.
  - apply list_find_None in Hfind.
    assert (exists e, rcs !! 10%nat = Some (Err e)) as [e He].
    { destruct (lookup_lt_is_Some_2 rcs 10) as [rc Hrc]; [lia|]. destruct rc as [[]|e]; [|by exists e].
      rewrite Forall_lookup in Hfind. destruct (Hfind 10%nat (Ok tt)); [|done]. apply lookup_take_Some. split; [done|lia]. }
    rewrite (nth_lookup_Some _ _ _ _ He). rewrite <- (take_drop_middle rcs 10 (Err e)) by done. rewrite rounds_errors.
    + rewrite length_take_le by lia. cbn [rounds Nat.add]. change (sd_process (waiting lun 10)) with true. change (sd_next (waiting lun 10)) with 10%nat. cbv iota.
      destruct (round_waiting tag m (Err e) lun 10) as (d & -> & ->); [lia|]. by rewrite rounds_stopped.
    + apply Forall_lookup. intros j x Hj. apply lookup_take_Some in Hj as [Hj Hjn]. destruct x as [[]|]; [|done].
      rewrite Forall_lookup in Hfind. destruct (Hfind j (Ok tt)); [|done]. apply lookup_take_Some. split; [done|lia].
    + rewrite length_take. lia.
Qed.

Lemma scsi_ready_decides_witness :
  rounds 1 (fun _ => 0) ([Err EIO; Err EIO; Ok tt] ++ replicate 8 (Err EIO)) (scsi_open (replicate 8 0))
  = (3%nat, ScsiDevice (replicate 8 0) 3 false 2 [] false 3 ∅ false [BlockWindowChanged]).
Proof. refine (scsi_ready_decides 1 (fun _ => 0) (replicate 8 0) ([Err EIO; Err EIO; Ok tt] ++ replicate 8 (Err EIO)) _). apply Nat.leb_le. reflexivity. Defined.

(** ** Logical unit numbers *)

(** The four hexadecimal digits of a 16-bit word ([%04x]). *)
Definition word_digits (w : Z) : list Z := [w / 4096; (w / 256) `mod` 16; (w / 16) `mod` 16; w `mod` 16].

(** SCSI_LUN_FORMAT *)
Definition lun_string (w0 w1 w2 w3 : Z) : list Z :=
  map digit_char (word_digits w0) ++ [45] ++ map digit_char (word_digits w1) ++ [45] ++
  map digit_char (word_digits w2) ++ [45] ++ map digit_char (word_digits w3).

Lemma strtoul_word fuel m a w c :
  in_width 16 w -> at_mem m a (map digit_char (word_digits w) ++ [c]) -> digit_value c >= 16 -> (4 < fuel)%nat ->
  strtoul fuel m a 16 = Some (w, a + 4).
Proof.
  intros Hw Hm Hc Hf. unfold in_width in Hw. change (2 ^ 16) with 65536 in Hw.
  pose proof (Z.div_mod w 16). pose proof (Z.div_mod (w / 16) 16). pose proof (Z.div_mod (w / 256) 16).
  rewrite (Z.div_div w 16 16) in * by lia. change (16 * 16) with 256 in *. rewrite (Z.div_div w 256 16) in * by lia. change (256 * 16) with 4096 in *.
  pose proof (Z.mod_pos_bound w 16). pose proof (Z.mod_pos_bound (w / 16) 16). pose proof (Z.mod_pos_bound (w / 256) 16).
  assert (0 <= w / 4096 < 16) by (split; [apply Z.div_pos; lia|apply Z.div_lt_upper_bound; lia]).
  rewrite (strtoul_spec_gen fuel m a 16 [] false (word_digits w) c); [|lia|by apply Forall_nil_2|repeat (apply Forall_cons_2; [lia|]); by apply Forall_nil_2|done|done|done|cbn; lia].
  cbn [length word_digits Nat.add digits_value]. do 2 f_equal. rewrite wrap_small; [lia|]. unfold in_width. change (2 ^ 64) with 18446744073709551616. lia.
Qed.

Lemma at_mem_words m a w c rest :
  at_mem m a (map digit_char (word_digits w) ++ [c] ++ rest) -> at_mem m a (map digit_char (word_digits w) ++ [c]) /\ m (a + 4) = c /\ at_mem m (a + 5) rest.
Proof.
  intros H. rewrite (app_assoc _ [c] rest) in H. apply at_mem_app in H as [H1 H2]. split; [done|].
  apply at_mem_app in H1 as [_ H1]. apply at_mem_cons in H1 as [H1 _]. split; [exact H1|].
  rewrite length_app in H2. exact H2.
Qed.

Lemma scsi_lun_parses fuel m a w0 w1 w2 w3 :
  Forall (in_width 16) [w0; w1; w2; w3] -> at_mem m a (lun_string w0 w1 w2 w3 ++ [0]) -> a <> 0 -> (4 < fuel)%nat ->
  scsi_parse_lun fuel m a = Some (Ok (be16 w0 ++ be16 w1 ++ be16 w2 ++ be16 w3)).
Proof.
  intros Hw Hs Ha Hf. rewrite !Forall_cons in Hw. destruct Hw as (Hw0 & Hw1 & Hw2 & Hw3 & _).
  unfold lun_string in Hs. rewrite <- !app_assoc in Hs.
  apply at_mem_words in Hs as (H0 & E0 & Hs). apply at_mem_words in Hs as (H1 & E1 & Hs). apply at_mem_words in Hs as (H2 & E2 & Hs).
  change [0] with ([0] ++ @nil Z) in Hs. apply at_mem_words in Hs as (H3 & E3 & _).
  unfold scsi_parse_lun. rewrite decide_False by done. cbn [parse_lun_loop].
  rewrite (strtoul_word _ _ _ w0 45) by done. rewrite E0. rewrite decide_False, decide_False by lia.
  replace (a + 4 + 1) with (a + 5) by lia. rewrite (strtoul_word _ _ _ w1 45) by done. rewrite E1. rewrite decide_False, decide_False by lia.
  replace (a + 5 + 4 + 1) with (a + 5 + 5) by lia. rewrite (strtoul_word _ _ _ w2 45) by done. rewrite E2. rewrite decide_False, decide_False by lia.
  replace (a + 5 + 5 + 4 + 1) with (a + 5 + 5 + 5) by lia. rewrite (strtoul_word _ _ _ w3 0) by done. rewrite E3. rewrite decide_True by done.
  cbn [replicate Nat.mul]. by rewrite app_nil_r, <- !app_assoc.
Qed.

(** A logical unit number parses as it is printed. *)
Theorem scsi_lun_roundtrip fuel m a w0 w1 w2 w3 :
  Forall (in_width 16) [w0; w1; w2; w3] -> cstr m a (lun_string w0 w1 w2 w3) -> a <> 0 -> (4 < fuel)%nat ->
  scsi_parse_lun fuel m a = Some (Ok (be16 w0 ++ be16 w1 ++ be16 w2 ++ be16 w3)).
Proof. intros Hw [Hs _] Ha Hf. by apply scsi_lun_parses. Qed.

Lemma scsi_lun_roundtrip_witness :
  scsi_parse_lun 5 (memcpy (fun _ => 0) 4096 (lun_string 1 2 43981 0)) 4096 = Some (Ok [0; 1; 0; 2; 171; 205; 0; 0]).
Proof.
  refine (scsi_lun_roundtrip 5 (memcpy (fun _ => 0) 4096 (lun_string 1 2 43981 0)) 4096 1 2 43981 0 _ _ _ _).
  - by repeat (apply Forall_cons_2; [done|]).
  - split; [reflexivity|]. apply (bool_decide_unpack _). vm_compute. exact I.
  - done.
  - apply Nat.leb_le. reflexivity.
Defined.
