(* ===== verification/Iscsi.v ===== *)
(** * The iSCSI initiator (net/tcp/iscsi.c, crypto/chap.c)

    A session carries the SCSI commands of one device over a TCP connection.
    Received bytes go through a state machine that collects the header of a
    PDU, skips additional headers, hands out the data segment as it arrives
    and skips the padding; PDUs are sent by a process, one at a time.  A PDU
    header is a list of 48 bytes; the buffers of SCSI commands are addresses
    in a memory [umem].  The socket, the allocator, random numbers and the
    digest are a class [IscsiEnv] over a type of worlds; the SCSI device above
    is a class [ScsiUpper] whose operations are programs (Scsi), so that it
    can issue the next command while it is told of a response.  Assertions
    are not compiled in; [s_fault] records a read or write outside an object. *)

From S2P Require Import Prelude CMem Strings Vsprintf Encoding Scsi.

(** ** Constants *)

Definition ISCSI_PORT : Z := 3260.
Definition ISCSI_OPCODE_MASK : Z := 63.
Definition ISCSI_FLAG_IMMEDIATE : Z := 64.
Definition ISCSI_FLAG_FINAL : Z := 128.
Definition ISCSI_TAG_MAGIC : Z := 414056448.
Definition ISCSI_OPCODE_LOGIN_REQUEST : Z := 3.
Definition ISCSI_LOGIN_FLAG_TRANSITION : Z := 128.
Definition ISCSI_LOGIN_NSG_MASK : Z := 3.
Definition ISCSI_LOGIN_NSG_OPERATIONAL_NEGOTIATION : Z := 1.
Definition ISCSI_LOGIN_NSG_FULL_FEATURE_PHASE : Z := 3.
Definition ISCSI_ISID_IANA : Z := 1073741824.
Definition IANA_EN_FEN_SYSTEMS : Z := 10019.
Definition ISCSI_OPCODE_LOGIN_RESPONSE : Z := 35.
Definition ISCSI_STATUS_REDIRECT : Z := 1.
Definition ISCSI_STATUS_INITIATOR_ERROR : Z := 2.
Definition ISCSI_STATUS_TARGET_ERROR : Z := 3.
Definition ISCSI_OPCODE_SCSI_COMMAND : Z := 1.
Definition ISCSI_COMMAND_FLAG_READ : Z := 64.
Definition ISCSI_COMMAND_FLAG_WRITE : Z := 32.
Definition ISCSI_COMMAND_ATTR_SIMPLE : Z := 1.
Definition ISCSI_OPCODE_SCSI_RESPONSE : Z := 33.
Definition ISCSI_RESPONSE_COMMAND_COMPLETE : Z := 0.
Definition ISCSI_OPCODE_DATA_IN : Z := 37.
Definition ISCSI_DATA_FLAG_OVERFLOW : Z := 4.
Definition ISCSI_DATA_FLAG_UNDERFLOW : Z := 2.
Definition ISCSI_DATA_FLAG_STATUS : Z := 1.
Definition ISCSI_OPCODE_DATA_OUT : Z := 5.
Definition ISCSI_OPCODE_R2T : Z := 49.
Definition ISCSI_OPCODE_NOP_IN : Z := 32.
Definition ISCSI_STATUS_SECURITY_NEGOTIATION_PHASE : Z := 1.
Definition ISCSI_STATUS_OPERATIONAL_NEGOTIATION_PHASE : Z := 7.
Definition ISCSI_STATUS_FULL_FEATURE_PHASE : Z := 12.
Definition ISCSI_STATUS_PHASE_MASK : Z := 15.
Definition ISCSI_STATUS_STRINGS_SECURITY : Z := 256.
Definition ISCSI_STATUS_STRINGS_CHAP_ALGORITHM : Z := 512.
Definition ISCSI_STATUS_STRINGS_CHAP_RESPONSE : Z := 1024.
Definition ISCSI_STATUS_STRINGS_CHAP_CHALLENGE : Z := 2048.
Definition ISCSI_STATUS_STRINGS_OPERATIONAL : Z := 4096.
Definition ISCSI_STATUS_STRINGS_MASK : Z := 65280.
Definition ISCSI_STATUS_AUTH_FORWARD_REQUIRED : Z := 65536.
Definition ISCSI_STATUS_AUTH_REVERSE_REQUIRED : Z := 131072.
Definition ISCSI_STATUS_AUTH_REVERSE_OK : Z := 262144.

(** The lengths at offset 4 of a header. *)
Definition ISCSI_AHS_LEN (bhs : list Z) : Z := get8 bhs 4.
Definition ISCSI_DATA_LEN (bhs : list Z) : Z := Z.land (get32 bhs 4) 16777215.
Definition ISCSI_DATA_PAD_LEN (bhs : list Z) : Z := Z.land (0 - get8 bhs 7) 3.

(** ** Sessions *)

Inductive iscsi_tx_state := ISCSI_TX_IDLE | ISCSI_TX_BHS | ISCSI_TX_AHS | ISCSI_TX_DATA.
Inductive iscsi_rx_state := ISCSI_RX_BHS | ISCSI_RX_AHS | ISCSI_RX_DATA | ISCSI_RX_DATA_PADDING.

#[export] Instance iscsi_tx_state_eq_dec : EqDecision iscsi_tx_state.
Proof. solve_decision. Defined.
#[export] Instance iscsi_rx_state_eq_dec : EqDecision iscsi_rx_state.
Proof. solve_decision. Defined.

(** What the root path and the settings say. *)
Record credentials := Credentials {
  initiator_iqn : option (list Z);
  target_iqn : option (list Z);
  initiator_username : option (list Z);
  initiator_password : option (list Z);
  target_username : option (list Z);
  target_password : option (list Z);
  target_lun : list Z;
}.

(** The data given to the digest, and the response buffer. *)
Record chap_response := Chap { ch_data : list Z; ch_response : list Z }.

Record tx_engine := Tx {
  tx_bhs : list Z;
  tx_state : iscsi_tx_state;
  tx_process : bool;
}.

Definition set_tx_bhs (v : list Z) (x : tx_engine) : tx_engine := Tx v (tx_state x) (tx_process x).
Definition set_tx_state (v : iscsi_tx_state) (x : tx_engine) : tx_engine := Tx (tx_bhs x) v (tx_process x).
Definition set_tx_process (v : bool) (x : tx_engine) : tx_engine := Tx (tx_bhs x) (tx_state x) v.

Record rx_engine := Rx {
  rx_bhs : list Z;
  rx_state : iscsi_rx_state;
  rx_offset : Z;
  rx_len : Z;
  rx_buffer : option (list Z);
}.

Definition set_rx_bhs (v : list Z) (x : rx_engine) : rx_engine := Rx v (rx_state x) (rx_offset x) (rx_len x) (rx_buffer x).
Definition set_rx_state (v : iscsi_rx_state) (x : rx_engine) : rx_engine := Rx (rx_bhs x) v (rx_offset x) (rx_len x) (rx_buffer x).
Definition set_rx_offset (v : Z) (x : rx_engine) : rx_engine := Rx (rx_bhs x) (rx_state x) v (rx_len x) (rx_buffer x).
Definition set_rx_len (v : Z) (x : rx_engine) : rx_engine := Rx (rx_bhs x) (rx_state x) (rx_offset x) v (rx_buffer x).
Definition set_rx_buffer (v : option (list Z)) (x : rx_engine) : rx_engine := Rx (rx_bhs x) (rx_state x) (rx_offset x) (rx_len x) v.

(** Tags and sequence numbers; [itt_idx] is the static variable of
    [iscsi_new_itt]. *)
Record numbers := Numbers {
  itt_idx : Z;
  isid_iana_qual : Z;
  itt : Z;
  ttt : Z;
  transfer_offset : Z;
  transfer_len : Z;
  cmdsn : Z;
  statsn : Z;
}.

Definition set_itt_idx (v : Z) (x : numbers) : numbers := Numbers v (isid_iana_qual x) (itt x) (ttt x) (transfer_offset x) (transfer_len x) (cmdsn x) (statsn x).
Definition set_isid_iana_qual (v : Z) (x : numbers) : numbers := Numbers (itt_idx x) v (itt x) (ttt x) (transfer_offset x) (transfer_len x) (cmdsn x) (statsn x).
Definition set_itt (v : Z) (x : numbers) : numbers := Numbers (itt_idx x) (isid_iana_qual x) v (ttt x) (transfer_offset x) (transfer_len x) (cmdsn x) (statsn x).
Definition set_ttt (v : Z) (x : numbers) : numbers := Numbers (itt_idx x) (isid_iana_qual x) (itt x) v (transfer_offset x) (transfer_len x) (cmdsn x) (statsn x).
Definition set_transfer_offset (v : Z) (x : numbers) : numbers := Numbers (itt_idx x) (isid_iana_qual x) (itt x) (ttt x) v (transfer_len x) (cmdsn x) (statsn x).
Definition set_transfer_len (v : Z) (x : numbers) : numbers := Numbers (itt_idx x) (isid_iana_qual x) (itt x) (ttt x) (transfer_offset x) v (cmdsn x) (statsn x).
Definition set_cmdsn (v : Z) (x : numbers) : numbers := Numbers (itt_idx x) (isid_iana_qual x) (itt x) (ttt x) (transfer_offset x) (transfer_len x) v (statsn x).
Definition set_statsn (v : Z) (x : numbers) : numbers := Numbers (itt_idx x) (isid_iana_qual x) (itt x) (ttt x) (transfer_offset x) (transfer_len x) (cmdsn x) v.

(** [s_data] is the SCSI command that is plugged into the data interface;
    [s_closed] is set when the interfaces have been shut down. *)
Record session := Session {
  s_cred : credentials;
  s_address : option (list Z);
  s_port : Z;
  s_status : Z;
  s_challenge : list Z;
  s_chap : option chap_response;
  s_num : numbers;
  s_tx : tx_engine;
  s_rx : rx_engine;
  s_command : option scsi_cmd;
  s_data : option nat;
  s_closed : bool;
  s_fault : bool;
}.

Definition set_s_cred (v : credentials) (x : session) : session := Session v (s_address x) (s_port x) (s_status x) (s_challenge x) (s_chap x) (s_num x) (s_tx x) (s_rx x) (s_command x) (s_data x) (s_closed x) (s_fault x).
Definition set_s_address (v : option (list Z)) (x : session) : session := Session (s_cred x) v (s_port x) (s_status x) (s_challenge x) (s_chap x) (s_num x) (s_tx x) (s_rx x) (s_command x) (s_data x) (s_closed x) (s_fault x).
Definition set_s_port (v : Z) (x : session) : session := Session (s_cred x) (s_address x) v (s_status x) (s_challenge x) (s_chap x) (s_num x) (s_tx x) (s_rx x) (s_command x) (s_data x) (s_closed x) (s_fault x).
Definition set_s_status (v : Z) (x : session) : session := Session (s_cred x) (s_address x) (s_port x) v (s_challenge x) (s_chap x) (s_num x) (s_tx x) (s_rx x) (s_command x) (s_data x) (s_closed x) (s_fault x).
Definition set_s_challenge (v : list Z) (x : session) : session := Session (s_cred x) (s_address x) (s_port x) (s_status x) v (s_chap x) (s_num x) (s_tx x) (s_rx x) (s_command x) (s_data x) (s_closed x) (s_fault x).
Definition set_s_chap (v : option chap_response) (x : session) : session := Session (s_cred x) (s_address x) (s_port x) (s_status x) (s_challenge x) v (s_num x) (s_tx x) (s_rx x) (s_command x) (s_data x) (s_closed x) (s_fault x).
Definition set_s_num (v : numbers) (x : session) : session := Session (s_cred x) (s_address x) (s_port x) (s_status x) (s_challenge x) (s_chap x) v (s_tx x) (s_rx x) (s_command x) (s_data x) (s_closed x) (s_fault x).
Definition set_s_tx (v : tx_engine) (x : session) : session := Session (s_cred x) (s_address x) (s_port x) (s_status x) (s_challenge x) (s_chap x) (s_num x) v (s_rx x) (s_command x) (s_data x) (s_closed x) (s_fault x).
Definition set_s_rx (v : rx_engine) (x : session) : session := Session (s_cred x) (s_address x) (s_port x) (s_status x) (s_challenge x) (s_chap x) (s_num x) (s_tx x) v (s_command x) (s_data x) (s_closed x) (s_fault x).
Definition set_s_command (v : option scsi_cmd) (x : session) : session := Session (s_cred x) (s_address x) (s_port x) (s_status x) (s_challenge x) (s_chap x) (s_num x) (s_tx x) (s_rx x) v (s_data x) (s_closed x) (s_fault x).
Definition set_s_data (v : option nat) (x : session) : session := Session (s_cred x) (s_address x) (s_port x) (s_status x) (s_challenge x) (s_chap x) (s_num x) (s_tx x) (s_rx x) (s_command x) v (s_closed x) (s_fault x).
Definition set_s_closed (v : bool) (x : session) : session := Session (s_cred x) (s_address x) (s_port x) (s_status x) (s_challenge x) (s_chap x) (s_num x) (s_tx x) (s_rx x) (s_command x) (s_data x) v (s_fault x).
Definition set_s_fault (v : bool) (x : session) : session := Session (s_cred x) (s_address x) (s_port x) (s_status x) (s_challenge x) (s_chap x) (s_num x) (s_tx x) (s_rx x) (s_command x) (s_data x) (s_closed x) v.

Definition on_num (f : numbers -> numbers) (s : session) : session := set_s_num (f (s_num s)) s.
Definition on_tx (f : tx_engine -> tx_engine) (s : session) : session := set_s_tx (f (s_tx s)) s.
Definition on_rx (f : rx_engine -> rx_engine) (s : session) : session := set_s_rx (f (s_rx s)) s.

(** ** Environment *)

(** The socket, the heap (a block comes with its contents), and [random]. *)
Class IscsiEnv (W : Type) := {
  so_open : list Z -> Z -> W -> result unit * W;
  so_window : W -> Z;
  so_alloc : Z -> W -> bool;
  so_deliver : list Z -> W -> result unit * W;
  so_close : result unit -> W -> W;
  heap_alloc : Z -> W -> option (list Z) * W;
  random : W -> Z * W;
  md5 : list Z -> list Z;
}.

(** The SCSI device above the session. *)
Class ScsiUpper (U : Type) := {
  up_response : mem -> nat -> scsi_rsp -> U -> act U;
  up_closed : mem -> nat -> result unit -> U -> act U;
  up_window_changed : U -> act U;
  up_control_closed : result unit -> U -> act U;
}.

Section iscsi.
Context {W U : Type} `{IscsiEnv W} `{ScsiUpper U}.

Record sys := Sys { ses : session; umem : mem; world : W; upper : U }.

Definition on_ses (f : session -> session) (x : sys) : sys := Sys (f (ses x)) (umem x) (world x) (upper x).
Definition set_umem (m : mem) (x : sys) : sys := Sys (ses x) m (world x) (upper x).
Definition set_world (w : W) (x : sys) : sys := Sys (ses x) (umem x) w (upper x).
Definition set_upper (u : U) (x : sys) : sys := Sys (ses x) (umem x) (world x) u.

Definition fault (x : sys) : sys := on_ses (set_s_fault true) x.
Definition malloc (n : Z) (x : sys) : option (list Z) * sys :=
  let (b, w) := heap_alloc n (world x) in (b, set_world w x).

(** A program of the device when the control interface is unplugged: the
    defaults of [scsi_command] and [xfer_window]. *)
Fixpoint run_unplugged (a : act U) : U :=
  match a with
  | Done u => u
  | Issue _ _ u k => run_unplugged (k (Err EOPNOTSUPP) u)
  | Window u k => run_unplugged (k (2 ^ 64 - 1) u)
  | CloseCommand _ _ u k => run_unplugged (k u)
  | CloseControl _ u k => run_unplugged (k u)
  end.

(** ** Closing *)

Definition iscsi_close (rc : result unit) (x : sys) : sys :=
  let rc := if is_Ok rc then Err ECONNRESET else rc in
  let x := on_ses (on_tx (set_tx_process false)) x in
  if s_closed (ses x) then x else
  let i := s_data (ses x) in
  let x := on_ses (fun s => set_s_closed true (set_s_data None s)) x in
  let x := set_world (so_close rc (world x)) x in
  let x := set_upper (run_unplugged (up_control_closed rc (upper x))) x in
  match i with
  | Some i => set_upper (run_unplugged (up_closed (umem x) i rc (upper x))) x
  | None => x
  end.

(** The device closes its end of the command interface. *)
Definition iscsi_command_close (rc : result unit) (x : sys) : sys :=
  let x := on_ses (set_s_data None) x in
  if bool_decide (s_command (ses x) = None) then x else iscsi_close (if is_Ok rc then Err ECANCELED else rc) x.

Definition iscsi_new_itt (s : session) : session :=
  on_num (fun n => let idx := u16 (itt_idx n + 1) in set_itt (Z.lor ISCSI_TAG_MAGIC idx) (set_itt_idx idx n)) s.

(** ** Starting transmission *)

Definition field (offset : nat) (l bhs : list Z) : list Z := list_inserts offset l bhs.

Definition iscsi_start_tx (s : session) : session :=
  on_tx (fun _ => Tx (replicate 48 0) ISCSI_TX_BHS true) s.

Definition fill_tx (fields : list (nat * list Z)) (s : session) : session :=
  on_tx (fun t => set_tx_bhs (foldl (fun b '(o, l) => field o l b) (tx_bhs t) fields) t) s.

Definition expstatsn (s : session) : list Z := be32 (statsn (s_num s) + 1).

(** ** SCSI commands *)

Definition iscsi_start_command (c : scsi_cmd) (s : session) : session :=
  let flags := Z.lor ISCSI_FLAG_FINAL ISCSI_COMMAND_ATTR_SIMPLE in
  let flags := if decide (data_in c <> 0) then Z.lor flags ISCSI_COMMAND_FLAG_READ else flags in
  let flags := if decide (data_out c <> 0) then Z.lor flags ISCSI_COMMAND_FLAG_WRITE else flags in
  let s := iscsi_start_tx s in
  fill_tx [(0%nat, [ISCSI_OPCODE_SCSI_COMMAND]); (1%nat, [flags]); (8%nat, lun c); (16%nat, be32 (itt (s_num s)));
           (20%nat, be32 (Z.lor (data_in_len c) (data_out_len c))); (24%nat, be32 (cmdsn (s_num s))); (28%nat, expstatsn s); (32%nat, cdb c)] s.

Definition iscsi_scsi_window (s : session) : Z :=
  if decide (Z.land (s_status s) ISCSI_STATUS_PHASE_MASK = ISCSI_STATUS_FULL_FEATURE_PHASE /\ s_command s = None) then 1
  else 0.

(** [i] is the command of the device that becomes the parent. *)
Definition iscsi_scsi_command (i : nat) (c : scsi_cmd) (x : sys) : result Z * sys :=
  if decide (iscsi_scsi_window (ses x) = 0) then (Err EOPNOTSUPP, x) else
  let (b, x) := malloc 56 x in
  match b with
  | None => (Err ENOMEM, on_ses (set_s_command None) x)
  | Some _ =>
    let x := on_ses (fun s => set_s_data (Some i) (iscsi_start_command c (iscsi_new_itt (set_s_command (Some c) s)))) x in
    (Ok (itt (s_num (ses x))), x)
  end.

(** A program of the device while the session is open; it may be closed on
    the way. *)
Fixpoint run (a : act U) (x : sys) : sys :=
  match a with
  | Done u => set_upper u x
  | Issue i c u k =>
    let x := set_upper u x in
    let (r, x) := if s_closed (ses x) then (Err EOPNOTSUPP, x) else iscsi_scsi_command i c x in
    run (k r (upper x)) x
  | Window u k =>
    let x := set_upper u x in
    run (k (if s_closed (ses x) then 2 ^ 64 - 1 else iscsi_scsi_window (ses x)) (upper x)) x
  | CloseCommand i rc u k =>
    let x := set_upper u x in
    let x := if decide (s_data (ses x) = Some i) then iscsi_command_close rc x else x in
    run (k (upper x)) x
  | CloseControl rc u k =>
    let x := set_upper u x in
    let x := iscsi_close rc x in
    run (k (upper x)) x
  end.

(** [intf_restart] of the data interface. *)
Definition restart_data (rc : result unit) (x : sys) : sys :=
  match s_data (ses x) with
  | Some i => let x := on_ses (set_s_data None) x in run (up_closed (umem x) i rc (upper x)) x
  | None => x
  end.

Definition iscsi_scsi_done (rc : result unit) (rsp : option scsi_rsp) (x : sys) : sys :=
  let tag := itt (s_num (ses x)) in
  let x := on_ses (set_s_command None) x in
  let x := match rsp, s_data (ses x) with
           | Some rsp, Some i => run (up_response (umem x) i rsp (upper x)) x
           | _, _ => x
           end in
  if decide (itt (s_num (ses x)) = tag) then restart_data rc x else x.

(** ** Receiving data segments *)

Definition rx_done (s : session) : session := on_rx (set_rx_buffer None) s.

Definition iscsi_rx_buffered_data (data : list Z) (x : sys) : result unit * sys :=
  let '(b, x) :=
    match rx_buffer (s_rx (ses x)) with
    | Some b => (Some b, x)
    | None => malloc (rx_len (s_rx (ses x))) x
    end in
  match b with
  | None => (Err ENOMEM, x)
  | Some b =>
    let offset := rx_offset (s_rx (ses x)) in
    let x := if decide (Z.of_nat (length b) < offset + Z.of_nat (length data)) then fault x else x in
    (Ok tt, on_ses (on_rx (set_rx_buffer (Some (list_inserts (Z.to_nat offset) data b)))) x)
  end.

(** The response is parsed from the buffer, as far as the buffer goes. *)
Definition response_of (bhs : list Z) (buffer : list Z) : scsi_rsp :=
  let residual_count := get32 bhs 44 in
  let overrun :=
    if decide (Z.land (get8 bhs 1) ISCSI_DATA_FLAG_OVERFLOW <> 0) then residual_count
    else if decide (Z.land (get8 bhs 1) ISCSI_DATA_FLAG_UNDERFLOW <> 0) then u32 (- residual_count)
    else 0 in
  let data_len := ISCSI_DATA_LEN bhs in
  let sense := if decide (data_len <> 0) then scsi_parse_sense (mem_of buffer) 2 (u64 (data_len - 2)) else Sense 0 0 0 in
  ScsiRsp (get8 bhs 3) overrun sense.

Definition iscsi_rx_scsi_response (data : list Z) (remaining : Z) (x : sys) : result unit * sys :=
  match iscsi_rx_buffered_data data x with
  | (Err rc, x) => (Err rc, x)
  | (Ok _, x) =>
    if decide (remaining <> 0) then (Ok tt, x) else
    let bhs := rx_bhs (s_rx (ses x)) in
    let buffer := default [] (rx_buffer (s_rx (ses x))) in
    let rsp := response_of bhs buffer in
    let x := if decide (ISCSI_DATA_LEN bhs = 1) then fault x else x in
    let x := on_ses rx_done x in
    if decide (get8 bhs 2 <> ISCSI_RESPONSE_COMMAND_COMPLETE) then (Err EIO, x)
    else (Ok tt, iscsi_scsi_done (Ok tt) (Some rsp) x)
  end.

Definition iscsi_rx_data_in (data : list Z) (remaining : Z) (x : sys) : result unit * sys :=
  let bhs := rx_bhs (s_rx (ses x)) in
  let offset := get32 bhs 40 + rx_offset (s_rx (ses x)) in
  let x :=
    match s_command (ses x) with
    | None => fault x
    | Some c =>
      let x := set_umem (memcpy (umem x) (data_in c + offset) data) x in
      if decide (data_in_len c < offset + Z.of_nat (length data)) then fault x else x
    end in
  if decide (remaining <> 0) then (Ok tt, x) else
  if decide (Z.land (get8 bhs 1) ISCSI_DATA_FLAG_STATUS <> 0) then (Ok tt, iscsi_scsi_done (Ok tt) None x) else (Ok tt, x).

(** Data-Out PDUs of at most 512 bytes. *)
Definition iscsi_start_data_out (datasn : Z) (s : session) : session :=
  let offset := u32 (datasn * 512) in
  let remaining := u64 (transfer_len (s_num s) - offset) in
  let len := if decide (512 < remaining) then 512 else remaining in
  let flags := if decide (len = remaining) then ISCSI_FLAG_FINAL else 0 in
  let l := match s_command s with Some c => lun c | None => [] end in
  let s := iscsi_start_tx s in
  fill_tx [(0%nat, [ISCSI_OPCODE_DATA_OUT]); (1%nat, [flags]); (4%nat, be32 len); (8%nat, l); (16%nat, be32 (itt (s_num s)));
           (20%nat, be32 (ttt (s_num s))); (28%nat, expstatsn s); (36%nat, be32 datasn); (40%nat, be32 (transfer_offset (s_num s) + offset))] s.

Definition start_data_out (datasn : Z) (x : sys) : sys :=
  let x := if bool_decide (s_command (ses x) = None) then fault x else x in
  on_ses (iscsi_start_data_out datasn) x.

Definition iscsi_rx_r2t (x : sys) : result unit * sys :=
  let bhs := rx_bhs (s_rx (ses x)) in
  let x := on_ses (on_num (fun n => set_transfer_len (get32 bhs 44) (set_transfer_offset (get32 bhs 40) (set_ttt (get32 bhs 20) n)))) x in
  (Ok tt, start_data_out 0 x).

Definition iscsi_data_out_done (x : sys) : sys :=
  let bhs := tx_bhs (s_tx (ses x)) in
  if decide (Z.land (get8 bhs 1) ISCSI_FLAG_FINAL = 0) then start_data_out (u32 (get32 bhs 36 + 1)) x else x.

Definition iscsi_tx_data_out (x : sys) : result unit * sys :=
  let bhs := tx_bhs (s_tx (ses x)) in
  let offset := get32 bhs 40 in
  let len := ISCSI_DATA_LEN bhs in
  let pad_len := ISCSI_DATA_PAD_LEN bhs in
  match s_command (ses x) with
  | None => (Err EINVAL, fault x)
  | Some c =>
    if negb (so_alloc (len + pad_len) (world x)) then (Err ENOMEM, x) else
    let x := if decide (data_out_len c < offset + len) then fault x else x in
    let payload := mload (umem x) (data_out c + offset) (Z.to_nat len) ++ replicate (Z.to_nat pad_len) 0 in
    let (r, w) := so_deliver payload (world x) in (r, set_world w x)
  end.

Definition iscsi_rx_nop_in (x : sys) : result unit * sys := (Ok tt, x).

(** ** Challenge Handshake Authentication Protocol *)

Definition chap_init (x : sys) : result chap_response * sys :=
  let (b, x) := malloc 104 x in
  match b with
  | None => (Err ENOMEM, x)
  | Some b => (Ok (Chap [] (take 16 (drop 88 b))), x)
  end.

(** Nothing happens before [chap_init]. *)
Definition chap_update (data : list Z) (c : option chap_response) : option chap_response :=
  (fun c => Chap (ch_data c ++ data) (ch_response c)) <$> c.

Definition chap_set_identifier (identifier : Z) (c : option chap_response) : option chap_response := chap_update [u8 identifier] c.

Definition chap_respond (c : option chap_response) : option chap_response := (fun c => Chap (ch_data c) (md5 (ch_data c))) <$> c.

(** ** Login requests *)

(** [used += ssnprintf ( data + used, len - used, ... )] *)
Definition add_strings (fmt : list Z) (args : list varg) (b : option (Z * list Z)) : option (Z * list Z) :=
  match b with
  | Some (used, data) =>
    match vssnprintf data (Z.to_nat used) fmt args with
    | Some (n, data) => Some (u32 (used + n), data)
    | None => None
    end
  | None => None
  end.

Definition has (flag status : Z) : bool := bool_decide (Z.land status flag <> 0).

(** The string in a buffer for the hexadecimal digits of [raw]. *)
Definition base16_string (raw : list Z) : option (list Z) :=
  match base16_encode raw (replicate (Z.to_nat (base16_encoded_len (Z.of_nat (length raw)) + 1)) 0) with
  | Some (_, buf) => Some (cstring buf)
  | None => None
  end.

Definition security_format : list Z := lit "InitiatorName=%s%cTargetName=%s%cSessionType=Normal%cAuthMethod=%s%c".
Definition operational_format : list Z :=
  lit "HeaderDigest=None%cDataDigest=None%cMaxConnections=1%cInitialR2T=Yes%cImmediateData=No%cMaxRecvDataSegmentLength=8192%cMaxBurstLength=262144%cFirstBurstLength=65536%cDefaultTime2Wait=0%cDefaultTime2Retain=0%cMaxOutstandingR2T=1%cDataPDUInOrder=Yes%cDataSequenceInOrder=Yes%cErrorRecoveryLevel=0%c".

Definition auth_method (c : credentials) : list Z :=
  match target_username c, initiator_username c with
  | Some _, _ => lit "CHAP"
  | None, Some _ => lit "CHAP,None"
  | None, None => lit "None"
  end.

Definition iscsi_build_login_request_strings (s : session) (data : list Z) : option (Z * list Z) :=
  let c := s_cred s in
  let b := Some (0, data) in
  let b := if has ISCSI_STATUS_STRINGS_SECURITY (s_status s)
           then add_strings security_format [VStr (initiator_iqn c); VInt 0; VStr (target_iqn c); VInt 0; VInt 0; VStr (Some (auth_method c)); VInt 0] b else b in
  let b := if has ISCSI_STATUS_STRINGS_CHAP_ALGORITHM (s_status s) then add_strings (lit "CHAP_A=5%c") [VInt 0] b else b in
  let b := if has ISCSI_STATUS_STRINGS_CHAP_RESPONSE (s_status s)
           then match base16_string (default [] (ch_response <$> s_chap s)) with
                | Some buf => add_strings (lit "CHAP_N=%s%cCHAP_R=0x%s%c") [VStr (initiator_username c); VInt 0; VStr (Some buf); VInt 0] b
                | None => None
                end else b in
  let b := if has ISCSI_STATUS_STRINGS_CHAP_CHALLENGE (s_status s)
           then match base16_string (drop 1 (s_challenge s)) with
                | Some buf => add_strings (lit "CHAP_I=%d%cCHAP_C=0x%s%c") [VInt (get8 (s_challenge s) 0); VInt 0; VStr (Some buf); VInt 0] b
                | None => None
                end else b in
  if has ISCSI_STATUS_STRINGS_OPERATIONAL (s_status s) then add_strings operational_format (replicate 14 (VInt 0)) b else b.

Definition login_len (s : session) : Z :=
  match iscsi_build_login_request_strings s [] with Some (n, _) => s32 n | None => 0 end.

Definition iscsi_start_login (s : session) : session :=
  let s := iscsi_start_tx s in
  fill_tx [(0%nat, [Z.lor ISCSI_OPCODE_LOGIN_REQUEST ISCSI_FLAG_IMMEDIATE]);
           (1%nat, [u8 (Z.lor (Z.land (s_status s) ISCSI_STATUS_PHASE_MASK) ISCSI_LOGIN_FLAG_TRANSITION)]);
           (4%nat, be32 (login_len s)); (8%nat, be32 (Z.lor ISCSI_ISID_IANA IANA_EN_FEN_SYSTEMS)); (12%nat, be16 (isid_iana_qual (s_num s)));
           (16%nat, be32 (itt (s_num s))); (24%nat, be32 (cmdsn (s_num s))); (28%nat, expstatsn s)] s.

Definition iscsi_login_request_done (s : session) : session :=
  set_s_chap None (set_s_status (Z.land (s_status s) (Z.lnot ISCSI_STATUS_STRINGS_MASK)) s).

(** The contents of a new buffer are arbitrary; they are overwritten. *)
Definition iscsi_tx_login_request (x : sys) : result unit * sys :=
  let bhs := tx_bhs (s_tx (ses x)) in
  let len := ISCSI_DATA_LEN bhs in
  let pad_len := ISCSI_DATA_PAD_LEN bhs in
  if negb (so_alloc (len + pad_len) (world x)) then (Err ENOMEM, x) else
  match iscsi_build_login_request_strings (ses x) (replicate (Z.to_nat len) 0) with
  | Some (_, data) => let (r, w) := so_deliver (data ++ replicate (Z.to_nat pad_len) 0) (world x) in (r, set_world w x)
  | None => (Err EINVAL, fault x)
  end.

(** ** Connections *)

Definition iscsi_open_connection (x : sys) : result unit * sys :=
  let (r, w) := so_open (default [] (s_address (ses x))) (u16 (s_port (ses x))) (world x) in
  let x := set_world w x in
  match r with
  | Err rc => (Err rc, x)
  | Ok _ =>
    let st := Z.lor ISCSI_STATUS_SECURITY_NEGOTIATION_PHASE ISCSI_STATUS_STRINGS_SECURITY in
    let st := match target_username (s_cred (ses x)) with Some _ => Z.lor st ISCSI_STATUS_AUTH_REVERSE_REQUIRED | None => st end in
    let (v, w) := random (world x) in
    let x := set_world w x in
    (Ok tt, on_ses (fun s => iscsi_start_login (iscsi_new_itt (on_num (set_isid_iana_qual (Z.land v 65535)) (set_s_status st s)))) x)
  end.

Definition iscsi_close_connection (rc : result unit) (x : sys) : sys :=
  let x := set_world (so_close rc (world x)) x in
  on_ses (fun s => set_s_chap None (on_rx (fun r => Rx (rx_bhs r) ISCSI_RX_BHS 0 (rx_len r) None)
                     (on_tx (set_tx_state ISCSI_TX_IDLE) (set_s_status 0 s)))) x.

(** ** Login responses *)

(** The decoded data, from a buffer as long as the string. *)
Definition iscsi_large_binary_decode (encoded raw : list Z) : result (list Z) :=
  let decoded r :=
    match r with
    | (Ok len, raw) => Ok (take (Z.to_nat len) raw)
    | (Err rc, _) => Err rc
    end in
  match encoded with
  | c :: t :: encoded =>
    if decide (c = 48) then
      if decide (tolower t = 120) then decoded (base16_decode encoded raw)
      else if decide (tolower t = 98) then
        match base64_decode (S (length base64)) (mem_of (base64 ++ [0])) encoded raw with
        | Some r => decoded r
        | None => Err EINVAL
        end
      else Err EPROTO
    else Err EPROTO
  | _ => Err EPROTO
  end.

Fixpoint index_of (c : Z) (l : list Z) : option nat :=
  match l with
  | [] => None
  | d :: l => if decide (d = c) then Some 0%nat else S <$> index_of c l
  end.

Definition htons (v : Z) : Z := u16 (Z.lor (Z.shiftl (u8 v) 8) (u8 (Z.shiftr v 8))).

Definition iscsi_handle_targetaddress_value (value : list Z) (x : sys) : result unit * sys :=
  let (b, x) := malloc (Z.of_nat (length value) + 1) x in
  match b with
  | None => (Err ENOMEM, on_ses (set_s_address None) x)
  | Some _ =>
    let x := on_ses (fun s => set_s_port (htons ISCSI_PORT) (set_s_address (Some value) s)) x in
    match index_of 58 value with
    | Some n => (Ok tt, on_ses (fun s => set_s_port (u32 (strtoul_string (drop (S n) value) 0).1) (set_s_address (Some (take n value)) s)) x)
    | None => (Ok tt, x)
    end
  end.

Definition iscsi_handle_authmethod_value (value : list Z) (x : sys) : result unit * sys :=
  if decide (value = lit "CHAP") then
    (Ok tt, on_ses (fun s => set_s_status (Z.lor (s_status s) (Z.lor ISCSI_STATUS_STRINGS_CHAP_ALGORITHM ISCSI_STATUS_AUTH_FORWARD_REQUIRED)) s) x)
  else (Ok tt, x).

Definition iscsi_handle_chap_a_value (value : list Z) (x : sys) : result unit * sys :=
  if decide (value <> lit "5") then (Err EPROTO, x) else (Ok tt, x).

Definition iscsi_handle_chap_i_value (value : list Z) (x : sys) : result unit * sys :=
  let (identifier, rest) := strtoul_string value 0 in
  if decide (rest <> []) then (Err EPROTO, x) else
  let x := on_ses (set_s_chap None) x in
  match chap_init x with
  | (Err rc, x) => (Err rc, x)
  | (Ok c, x) =>
    let c := chap_set_identifier identifier (Some c) in
    let c := match initiator_password (s_cred (ses x)) with Some p => chap_update p c | None => c end in
    (Ok tt, on_ses (set_s_chap c) x)
  end.

(** The bytes of a new challenge. *)
Fixpoint random_bytes (n : nat) (w : W) : list Z * W :=
  match n with
  | O => ([], w)
  | S n => let (v, w) := random w in let (l, w) := random_bytes n w in (u8 v :: l, w)
  end.

Definition iscsi_handle_chap_c_value (value : list Z) (x : sys) : result unit * sys :=
  let (b, x) := malloc (Z.of_nat (length value)) x in
  match b with
  | None => (Err ENOMEM, x)
  | Some raw =>
    match iscsi_large_binary_decode value raw with
    | Err rc => (Err rc, x)
    | Ok data =>
      let x := on_ses (fun s => set_s_status (Z.lor (s_status s) ISCSI_STATUS_STRINGS_CHAP_RESPONSE) (set_s_chap (chap_respond (chap_update data (s_chap s))) s)) x in
      match target_username (s_cred (ses x)) with
      | None => (Ok tt, x)
      | Some _ =>
        let (l, w) := random_bytes 17 (world x) in
        (Ok tt, on_ses (fun s => set_s_challenge l (set_s_status (Z.lor (s_status s) ISCSI_STATUS_STRINGS_CHAP_CHALLENGE) s)) (set_world w x))
      end
    end
  end.

Definition iscsi_handle_chap_n_value (value : list Z) (x : sys) : result unit * sys :=
  match target_username (s_cred (ses x)) with
  | Some name => if decide (name <> value) then (Err EACCES, x) else (Ok tt, x)
  | None => (Ok tt, x)
  end.

Definition iscsi_handle_chap_r_value (value : list Z) (x : sys) : result unit * sys :=
  let x := on_ses (set_s_chap None) x in
  match chap_init x with
  | (Err rc, x) => (Err rc, x)
  | (Ok c, x) =>
    let challenge := s_challenge (ses x) in
    let c := chap_set_identifier (get8 challenge 0) (Some c) in
    let c := match target_password (s_cred (ses x)) with Some p => chap_update p c | None => c end in
    let c := chap_respond (chap_update (drop 1 challenge) c) in
    let x := on_ses (set_s_chap c) x in
    let (b, x) := malloc (Z.of_nat (length value)) x in
    match b with
    | None => (Err ENOMEM, x)
    | Some raw =>
      match iscsi_large_binary_decode value raw with
      | Err rc => (Err rc, x)
      | Ok data =>
        let response := default [] (ch_response <$> c) in
        if decide (length data <> length response) then (Err EPROTO, x)
        else if decide (data <> response) then (Err EACCES, x)
        else (Ok tt, on_ses (fun s => set_s_status (Z.lor (s_status s) ISCSI_STATUS_AUTH_REVERSE_OK) s) x)
      end
    end
  end.

Definition iscsi_string_types : list (list Z * (list Z -> sys -> result unit * sys)) :=
  [(lit "TargetAddress", iscsi_handle_targetaddress_value); (lit "AuthMethod", iscsi_handle_authmethod_value);
   (lit "CHAP_A", iscsi_handle_chap_a_value); (lit "CHAP_I", iscsi_handle_chap_i_value); (lit "CHAP_C", iscsi_handle_chap_c_value);
   (lit "CHAP_N", iscsi_handle_chap_n_value); (lit "CHAP_R", iscsi_handle_chap_r_value)].

(** The handler of the first type whose key agrees with the string in the
    first [key_len] characters, which the string has. *)
Fixpoint find_type (key : list Z) (types : list (list Z * (list Z -> sys -> result unit * sys))) : option (list Z -> sys -> result unit * sys) :=
  match types with
  | [] => None
  | (k, handle) :: types => if decide (take (length key) k = key) then Some handle else find_type key types
  end.

Definition iscsi_handle_string (string : list Z) (x : sys) : result unit * sys :=
  match index_of 61 string with
  | None => (Err EPROTO, x)
  | Some key_len =>
    let value := drop (S key_len) string in
    if decide (value = lit "Reject") then (Err EPROTO, x) else
    match find_type (take key_len string) iscsi_string_types with
    | Some handle => handle value x
    | None => (Ok tt, x)
    end
  end.

(** The fuel is the length of the buffer. *)
Fixpoint handle_strings (fuel : nat) (strings : list Z) (x : sys) : result unit * sys :=
  match fuel, index_of 0 strings with
  | S fuel, Some n =>
    match iscsi_handle_string (take n strings) x with
    | (Err rc, x) => (Err rc, x)
    | (Ok _, x) => handle_strings fuel (drop (S n) strings) x
    end
  | _, _ => (Ok tt, x)
  end.

Definition iscsi_handle_strings (strings : list Z) (x : sys) : result unit * sys := handle_strings (length strings) strings x.

Definition iscsi_status_to_rc (status_class status_detail : Z) : errno :=
  if decide (status_class = ISCSI_STATUS_INITIATOR_ERROR) then
    if decide (status_detail = 1 \/ status_detail = 2) then EPERM
    else if decide (status_detail = 3 \/ status_detail = 4) then ENODEV
    else ENOTSUP
  else if decide (status_class = ISCSI_STATUS_TARGET_ERROR) then
    if decide (status_detail = 1 \/ status_detail = 2) then EIO else ENOTSUP
  else EINVAL.

(** The next login request, or the start of the full feature phase. *)
Definition login_next (x : sys) : result unit * sys :=
  if decide (Z.land (s_status (ses x)) ISCSI_STATUS_PHASE_MASK <> ISCSI_STATUS_FULL_FEATURE_PHASE) then (Ok tt, on_ses iscsi_start_login x)
  else if has ISCSI_STATUS_AUTH_REVERSE_REQUIRED (s_status (ses x)) && negb (has ISCSI_STATUS_AUTH_REVERSE_OK (s_status (ses x))) then (Err EPROTO, x)
  else (Ok tt, run (up_window_changed (upper x)) x).

(** The end of a login response without redirection. *)
Definition login_transition (bhs : list Z) (x : sys) : result unit * sys :=
  if decide (get8 bhs 36 <> 0) then (Err (iscsi_status_to_rc (get8 bhs 36) (get8 bhs 37)), x) else
  let flags := get8 bhs 1 in
  let cleared s := Z.land (s_status s) (Z.lnot (Z.lor ISCSI_STATUS_PHASE_MASK ISCSI_STATUS_STRINGS_MASK)) in
  if decide (Z.land flags ISCSI_LOGIN_FLAG_TRANSITION <> 0) then
    let x := on_ses (fun s => set_s_status (cleared s) s) x in
    let nsg := Z.land flags ISCSI_LOGIN_NSG_MASK in
    if decide (nsg = ISCSI_LOGIN_NSG_OPERATIONAL_NEGOTIATION) then
      login_next (on_ses (fun s => set_s_status (Z.lor (s_status s) (Z.lor ISCSI_STATUS_OPERATIONAL_NEGOTIATION_PHASE ISCSI_STATUS_STRINGS_OPERATIONAL)) s) x)
    else if decide (nsg = ISCSI_LOGIN_NSG_FULL_FEATURE_PHASE) then
      login_next (on_ses (fun s => set_s_status (Z.lor (s_status s) ISCSI_STATUS_FULL_FEATURE_PHASE) s) x)
    else (Err EIO, x)
  else login_next x.

Definition iscsi_rx_login_response (data : list Z) (remaining : Z) (x : sys) : result unit * sys :=
  match iscsi_rx_buffered_data data x with
  | (Err rc, x) => (Err rc, x)
  | (Ok _, x) =>
    if decide (remaining <> 0) then (Ok tt, x) else
    let bhs := rx_bhs (s_rx (ses x)) in
    match iscsi_handle_strings (default [] (rx_buffer (s_rx (ses x)))) x with
    | (Err rc, x) => (Err rc, x)
    | (Ok _, x) =>
      let x := on_ses rx_done x in
      if decide (get8 bhs 36 = ISCSI_STATUS_REDIRECT) then iscsi_open_connection (iscsi_close_connection (Ok tt) x)
      else login_transition bhs x
    end
  end.

(** ** The socket *)

Definition iscsi_tx_pause (x : sys) : sys := on_ses (on_tx (set_tx_process false)) x.
Definition iscsi_tx_resume (x : sys) : sys := on_ses (on_tx (set_tx_process true)) x.

Definition iscsi_tx_bhs (x : sys) : result unit * sys :=
  let (r, w) := so_deliver (tx_bhs (s_tx (ses x))) (world x) in (r, set_world w x).

Definition iscsi_tx_nothing (x : sys) : result unit * sys := (Ok tt, x).

Definition tx_opcode (x : sys) : Z := Z.land (get8 (tx_bhs (s_tx (ses x))) 0) ISCSI_OPCODE_MASK.

Definition iscsi_tx_data (x : sys) : result unit * sys :=
  if decide (tx_opcode x = ISCSI_OPCODE_DATA_OUT) then iscsi_tx_data_out x
  else if decide (tx_opcode x = ISCSI_OPCODE_LOGIN_REQUEST) then iscsi_tx_login_request x
  else (Ok tt, x).

Definition iscsi_tx_done (x : sys) : sys :=
  let x := iscsi_tx_pause x in
  if decide (tx_opcode x = ISCSI_OPCODE_DATA_OUT) then iscsi_data_out_done x
  else if decide (tx_opcode x = ISCSI_OPCODE_LOGIN_REQUEST) then on_ses iscsi_login_request_done x
  else x.

(** The fragment of the current state: how to send it, its length, and the
    next state. *)
Definition tx_fragment (x : sys) : option ((sys -> result unit * sys) * Z * iscsi_tx_state) :=
  match tx_state (s_tx (ses x)) with
  | ISCSI_TX_BHS => Some (iscsi_tx_bhs, 48, ISCSI_TX_AHS)
  | ISCSI_TX_AHS => Some (iscsi_tx_nothing, 0, ISCSI_TX_DATA)
  | ISCSI_TX_DATA => Some (iscsi_tx_data, ISCSI_DATA_LEN (tx_bhs (s_tx (ses x))), ISCSI_TX_IDLE)
  | ISCSI_TX_IDLE => None
  end.

Fixpoint iscsi_tx_step (fuel : nat) (x : sys) : option sys :=
  match fuel with
  | O => None
  | S fuel =>
    match tx_fragment x with
    | None => Some (iscsi_tx_pause x)
    | Some (tx, tx_len, next_state) =>
      if decide (tx_len <> 0 /\ so_window (world x) = 0) then Some (iscsi_tx_pause x) else
      match tx x with
      | (Err rc, x) => Some (iscsi_close (Err rc) x)
      | (Ok _, x) =>
        let x := on_ses (on_tx (set_tx_state next_state)) x in
        iscsi_tx_step fuel (if decide (next_state = ISCSI_TX_IDLE) then iscsi_tx_done x else x)
      end
    end
  end.

Definition iscsi_rx_bhs (data : list Z) (remaining : Z) (x : sys) : result unit * sys :=
  let r := s_rx (ses x) in
  let x := if decide (48 < rx_offset r + Z.of_nat (length data)) then fault x else x in
  (Ok tt, on_ses (on_rx (set_rx_bhs (list_inserts (Z.to_nat (rx_offset r)) data (rx_bhs r)))) x).

Definition iscsi_rx_discard (data : list Z) (remaining : Z) (x : sys) : result unit * sys := (Ok tt, x).

Definition iscsi_rx_data (data : list Z) (remaining : Z) (x : sys) : result unit * sys :=
  let bhs := rx_bhs (s_rx (ses x)) in
  let x := on_ses (on_num (fun n => set_statsn (get32 bhs 24) (set_cmdsn (get32 bhs 28) n))) x in
  let opcode := Z.land (get8 bhs 0) ISCSI_OPCODE_MASK in
  if decide (opcode = ISCSI_OPCODE_LOGIN_RESPONSE) then iscsi_rx_login_response data remaining x
  else if decide (opcode = ISCSI_OPCODE_SCSI_RESPONSE) then iscsi_rx_scsi_response data remaining x
  else if decide (opcode = ISCSI_OPCODE_DATA_IN) then iscsi_rx_data_in data remaining x
  else if decide (opcode = ISCSI_OPCODE_R2T) then iscsi_rx_r2t x
  else if decide (opcode = ISCSI_OPCODE_NOP_IN) then iscsi_rx_nop_in x
  else if decide (remaining <> 0) then (Ok tt, x) else (Err ENOTSUP, x).

(** What the current state receives, how much of it, and the next state. *)
Definition rx_fragment (r : rx_engine) : (list Z -> Z -> sys -> result unit * sys) * Z * iscsi_rx_state :=
  match rx_state r with
  | ISCSI_RX_BHS => (iscsi_rx_bhs, 48, ISCSI_RX_AHS)
  | ISCSI_RX_AHS => (iscsi_rx_discard, 4 * ISCSI_AHS_LEN (rx_bhs r), ISCSI_RX_DATA)
  | ISCSI_RX_DATA => (iscsi_rx_data, ISCSI_DATA_LEN (rx_bhs r), ISCSI_RX_DATA_PADDING)
  | ISCSI_RX_DATA_PADDING => (iscsi_rx_discard, ISCSI_DATA_PAD_LEN (rx_bhs r), ISCSI_RX_BHS)
  end.

(** One round of the loop: the result so far, and the rest of the buffer if
    the loop goes on. *)
Definition deliver_step (iobuf : list Z) (x : sys) : (result unit * sys) * option (list Z) :=
  let '(rx, len, next_state) := rx_fragment (s_rx (ses x)) in
  let x := on_ses (on_rx (set_rx_len len)) x in
  let offset := rx_offset (s_rx (ses x)) in
  let frag_len := u64 (len - offset) in
  let frag_len := if decide (Z.of_nat (length iobuf) < frag_len) then Z.of_nat (length iobuf) else frag_len in
  let remaining := u64 (len - offset - frag_len) in
  match rx (take (Z.to_nat frag_len) iobuf) remaining x with
  | (Err rc, x) => ((Err rc, x), None)
  | (Ok _, x) =>
    let x := on_ses (on_rx (fun r => set_rx_offset (u64 (rx_offset r + frag_len)) r)) x in
    if decide (rx_offset (s_rx (ses x)) <> rx_len (s_rx (ses x))) then ((Ok tt, x), None)
    else ((Ok tt, on_ses (on_rx (fun r => set_rx_offset 0 (set_rx_state next_state r))) x), Some (drop (Z.to_nat frag_len) iobuf))
  end.

Fixpoint deliver_loop (fuel : nat) (iobuf : list Z) (x : sys) : option (result unit * sys) :=
  match fuel with
  | O => None
  | S fuel =>
    match deliver_step iobuf x with
    | (r, None) => Some r
    | (r, Some iobuf) => deliver_loop fuel iobuf r.2
    end
  end.

Definition iscsi_socket_deliver (fuel : nat) (iobuf : list Z) (x : sys) : option (result unit * sys) :=
  match deliver_loop fuel iobuf x with
  | Some (Err rc, x) => Some (Err rc, iscsi_close (Err rc) x)
  | r => r
  end.

(** The result of reopening the socket at another location. *)
Definition iscsi_vredirect (r : result unit) (x : sys) : result unit * sys :=
  match r with Ok _ => (r, x) | Err rc => (r, iscsi_close (Err rc) x) end.

End iscsi.

(** ** An environment for examples

    A socket that takes everything and a heap of zeroed blocks; the world is
    the list of what was sent, and the digest pads its input. *)
Definition example_env : IscsiEnv (list (list Z)) := {|
  so_open _ _ w := (Ok tt, w);
  so_window _ := 1;
  so_alloc _ _ := true;
  so_deliver l w := (Ok tt, w ++ [l]);
  so_close _ w := w;
  heap_alloc n w := (Some (replicate (Z.to_nat n) 0), w);
  random w := (7, w);
  md5 l := take 16 (l ++ replicate 16 0);
|}.

(** A device that does nothing. *)
Definition example_upper : ScsiUpper unit := {|
  up_response _ _ _ u := Done u;
  up_closed _ _ _ u := Done u;
  up_window_changed u := Done u;
  up_control_closed _ u := Done u;
|}.

(** A session with a connection between two PDUs. *)
Definition example_session (status : Z) (username password : option (list Z)) (command : option scsi_cmd) : session :=
  Session (Credentials None None None None username password (replicate 8 0)) None ISCSI_PORT status (replicate 17 0) None (Numbers 0 0 0 0 0 0 0 0)
          (Tx (replicate 48 0) ISCSI_TX_IDLE false) (Rx (replicate 48 0) ISCSI_RX_BHS 0 0 None) command None false false.
