(* ===== verification/IscsiRx.v ===== *)
(** * Reception of iSCSI PDUs (net/tcp/iscsi.c)

    TCP delivers a stream in segments of its own choice.  However a stream of
    PDUs, without redirections of the login and without data in an R2T, is cut,
    receiving it is handling one PDU after the other ([iscsi_rx_stream]). *)

From Stdlib Require Import FunctionalExtensionality.
From S2P Require Import Prelude CMem Strings Vsprintf Encoding Scsi Iscsi.

Section rx.
Context {W U : Type} `{IscsiEnv W} `{ScsiUpper U}.
Abbreviation sys := (@sys W U).

(** ** What does not depend on the receive engine *)

Definition map_rx (f : rx_engine -> rx_engine) (x : sys) : sys := on_ses (on_rx f) x.

Definition framed (g : sys -> sys) : Prop := forall f x, g (map_rx f x) = map_rx f (g x).
Definition framed2 {A} (g : sys -> A * sys) : Prop := forall f x, g (map_rx f x) = ((g x).1, map_rx f (g x).2).

Lemma framed_rx g x : framed g -> s_rx (ses (g x)) = s_rx (ses x).
Proof.
  intros Hg. pose proof (Hg (fun _ => s_rx (ses x)) x) as E.
  assert (map_rx (fun _ => s_rx (ses x)) x = x) as E1 by (by destruct x as [[] ? ? ?]). rewrite E1 in E. by rewrite E.
Qed.

Lemma framed2_rx {A} (g : sys -> A * sys) x : framed2 g -> s_rx (ses (g x).2) = s_rx (ses x).
Proof. intros Hg. apply (framed_rx (fun x => (g x).2)). intros f y. by rewrite Hg. Qed.

Lemma iscsi_close_framed rc : framed (iscsi_close rc).
Proof.
  intros f x. unfold iscsi_close. destruct x as [s m w u]. cbn. destruct (s_closed s) eqn:Hc; cbn; rewrite ?Hc; [done|].
  by destruct (s_data s).
Qed.

Lemma iscsi_command_close_framed rc : framed (iscsi_command_close rc).
Proof.
  intros f x. unfold iscsi_command_close. change (s_command (ses (on_ses (set_s_data None) (map_rx f x)))) with (s_command (ses (on_ses (set_s_data None) x))).
  case_bool_decide; [done|]. apply (iscsi_close_framed _ f (on_ses (set_s_data None) x)).
Qed.

Lemma malloc_framed n : framed2 (malloc n).
Proof. intros f x. unfold malloc. cbn. by destruct (heap_alloc n (world x)). Qed.

Lemma iscsi_scsi_command_framed i c : framed2 (iscsi_scsi_command i c).
Proof.
  intros f x. unfold iscsi_scsi_command. change (iscsi_scsi_window (ses (map_rx f x))) with (iscsi_scsi_window (ses x)).
  case_decide; [done|]. rewrite malloc_framed. by destruct (malloc 56 x) as [[]].
Qed.

Lemma run_framed a : framed (run a).
Proof.
  intros f. induction a as [u|i c u k IH|u k IH|i rc u k IH|rc u k IH]; intros x; cbn [run].
  - done.
  - change (set_upper u (map_rx f x)) with (map_rx f (set_upper u x)). set (y := set_upper u x).
    change (s_closed (ses (map_rx f y))) with (s_closed (ses y)). destruct (s_closed (ses y)); [apply (IH (Err EOPNOTSUPP) (upper y))|].
    rewrite iscsi_scsi_command_framed. destruct (iscsi_scsi_command i c y) as [r z]. cbn [fst snd]. apply (IH r (upper z)).
  - change (set_upper u (map_rx f x)) with (map_rx f (set_upper u x)). apply (IH _ _ (set_upper u x)).
  - change (set_upper u (map_rx f x)) with (map_rx f (set_upper u x)). set (y := set_upper u x).
    change (s_data (ses (map_rx f y))) with (s_data (ses y)). case_decide; [|apply (IH (upper y))].
    rewrite iscsi_command_close_framed. apply (IH (upper (iscsi_command_close rc y))).
  - change (set_upper u (map_rx f x)) with (map_rx f (set_upper u x)). set (y := set_upper u x).
    rewrite iscsi_close_framed. apply (IH (upper (iscsi_close rc y))).
Qed.

Lemma iscsi_scsi_done_framed rc rsp : framed (iscsi_scsi_done rc rsp).
Proof.
  intros f x. unfold iscsi_scsi_done. set (y := on_ses (set_s_command None) x).
  change (on_ses (set_s_command None) (map_rx f x)) with (map_rx f y). change (s_data (ses (map_rx f y))) with (s_data (ses y)).
  change (itt (s_num (ses (map_rx f x)))) with (itt (s_num (ses x))).
  assert (forall z, (if decide (itt (s_num (ses (map_rx f z))) = itt (s_num (ses x))) then restart_data rc (map_rx f z) else map_rx f z)
                    = map_rx f (if decide (itt (s_num (ses z)) = itt (s_num (ses x))) then restart_data rc z else z)) as Hr.
  { intros z. change (itt (s_num (ses (map_rx f z)))) with (itt (s_num (ses z))). case_decide; [|done].
    unfold restart_data. change (s_data (ses (map_rx f z))) with (s_data (ses z)). destruct (s_data (ses z)) as [i|]; [|done].
    apply (run_framed (up_closed (umem z) i rc (upper z)) f (on_ses (set_s_data None) z)). }
  destruct rsp as [rsp|]; [|apply Hr]. destruct (s_data (ses y)); [|apply Hr].
  cbv zeta. rewrite <- Hr. by rewrite run_framed.
Qed.

(** *** Login strings *)

Ltac frame_malloc := rewrite malloc_framed; match goal with |- context [malloc ?n ?y] => destruct (malloc n y) as [[?|] ?] end; cbn [fst snd].

Lemma chap_init_framed : framed2 chap_init.
Proof. intros f x. unfold chap_init. by frame_malloc. Qed.

Lemma set_chap_framed c f x : on_ses (set_s_chap c) (map_rx f x) = map_rx f (on_ses (set_s_chap c) x).
Proof. done. Qed.

Lemma iscsi_string_types_framed : Forall (fun '(_, handle) => forall value, framed2 (handle value)) iscsi_string_types.
Proof.
  unfold iscsi_string_types. repeat apply Forall_cons_2; [..|apply Forall_nil_2]; intros value f x.
  - unfold iscsi_handle_targetaddress_value. frame_malloc; [|done]. by destruct (index_of 58 value).
  - unfold iscsi_handle_authmethod_value. by case_decide.
  - unfold iscsi_handle_chap_a_value. by case_decide.
  - unfold iscsi_handle_chap_i_value. destruct (strtoul_string value 0). case_decide; [done|].
    rewrite set_chap_framed, chap_init_framed. by destruct (chap_init _) as [[]].
  - unfold iscsi_handle_chap_c_value. frame_malloc; [|done]. destruct (iscsi_large_binary_decode _ _); [|done].
    match goal with |- context [target_username (s_cred (ses (on_ses ?g (map_rx f ?y))))] => change (on_ses g (map_rx f y)) with (map_rx f (on_ses g y)); set (z := on_ses g y) end.
    change (s_cred (ses (map_rx f z))) with (s_cred (ses z)). destruct (target_username (s_cred (ses z))); [|done].
    change (world (map_rx f z)) with (world z). by destruct (random_bytes 17 (world z)).
  - unfold iscsi_handle_chap_n_value. cbn. destruct (target_username _); [|done]. by case_decide.
  - unfold iscsi_handle_chap_r_value. rewrite set_chap_framed, chap_init_framed. destruct (chap_init _) as [[c|] y]; [|done]. cbn [fst snd].
    change (s_challenge (ses (map_rx f y))) with (s_challenge (ses y)). change (s_cred (ses (map_rx f y))) with (s_cred (ses y)).
    rewrite set_chap_framed. frame_malloc; [|done]. destruct (iscsi_large_binary_decode _ _); [|done]. by repeat case_decide.
Qed.

Lemma find_type_framed key handle types :
  Forall (fun '(_, handle) => forall value, framed2 (handle value)) types -> find_type key types = Some handle -> forall value, framed2 (handle value).
Proof.
  intros Hall. induction Hall as [|[k h] types Hh Hall IH]; cbn [find_type]; [done|]. case_decide; [|done]. by intros [= <-].
Qed.

Lemma iscsi_handle_string_framed string : framed2 (iscsi_handle_string string).
Proof.
  intros f x. unfold iscsi_handle_string. destruct (index_of 61 string); [|done]. case_decide; [done|].
  destruct (find_type _ _) eqn:E; [|done]. apply (find_type_framed _ _ _ iscsi_string_types_framed E).
Qed.

Lemma handle_strings_framed fuel strings : framed2 (handle_strings fuel strings).
Proof.
  intros f. revert strings. induction fuel as [|fuel IH]; intros strings x; cbn [handle_strings]; [done|].
  destruct (index_of 0 strings); [|done]. rewrite iscsi_handle_string_framed. destruct (iscsi_handle_string _ x) as [[]]; [|done]. apply IH.
Qed.

Lemma login_next_framed : framed2 login_next.
Proof.
  intros f x. unfold login_next. change (s_status (ses (map_rx f x))) with (s_status (ses x)). case_decide; [done|].
  destruct (_ && _); [done|]. change (upper (map_rx f x)) with (upper x). by rewrite run_framed.
Qed.

Lemma login_transition_framed bhs : framed2 (login_transition bhs).
Proof.
  intros f x. unfold login_transition. case_decide; [done|]. cbv zeta.
  case_decide; [|apply login_next_framed]. case_decide; [|case_decide; [|done]].
  all: match goal with |- login_next (on_ses ?g (on_ses ?h (map_rx ?e ?y))) = _ => apply (login_next_framed e (on_ses g (on_ses h y))) end.
Qed.

(** ** Splitting a fragment *)

Lemma memcpy_app m dest a b : memcpy (memcpy m dest a) (dest + Z.of_nat (length a)) b = memcpy m dest (a ++ b).
Proof.
  apply functional_extensionality. intros y. unfold memcpy. rewrite length_app. repeat case_decide; try lia; try done.
  - rewrite app_nth2 by lia. f_equal. lia.
  - by rewrite app_nth1 by lia.
Qed.

Lemma inserts_app (n : nat) (a b l : list Z) :
  list_inserts (n + length a) b (list_inserts n a l) = list_inserts n (a ++ b) l.
Proof.
  apply list_eq. intros i. destruct (decide (i < length l)%nat) as [Hi|Hi].
  2:{ rewrite !lookup_ge_None_2; [done|rewrite ?length_inserts; lia..]. }
  destruct (decide (n <= i < n + length (a ++ b))%nat) as [Hin|Hout].
  - rewrite (list_lookup_inserts l n (a ++ b) i) by lia. rewrite length_app in Hin. destruct (decide (i < n + length a)%nat).
    + rewrite list_lookup_inserts_lt by lia. rewrite list_lookup_inserts by lia. by rewrite lookup_app_l by lia.
    + rewrite list_lookup_inserts by (rewrite ?length_inserts; lia). rewrite lookup_app_r by lia. f_equal. lia.
  - rewrite length_app in Hout. destruct (decide (i < n)%nat).
    + by rewrite !list_lookup_inserts_lt by lia.
    + by rewrite !list_lookup_inserts_ge by (rewrite ?length_app; lia).
Qed.

Definition advance (n : Z) : sys -> sys := map_rx (fun r => set_rx_offset (u64 (rx_offset r + n)) r).

Abbreviation rxe x := (s_rx (ses x)).

(** The first part of a fragment and then the second part are the fragment. *)
Definition splits (rx : list Z -> Z -> sys -> result unit * sys) (x : sys) : Prop :=
  forall a b rem, 0 <= rem -> 0 < Z.of_nat (length b) + rem -> 0 <= rx_offset (rxe x) ->
  rx_offset (rxe x) + Z.of_nat (length a) + Z.of_nat (length b) + rem = rx_len (rxe x) -> rx_len (rxe x) < 2 ^ 64 ->
  match rx a (Z.of_nat (length b) + rem) x with
  | (Err rc, y) => rx (a ++ b) rem x = (Err rc, y)
  | (Ok _, y) => rx b rem (advance (Z.of_nat (length a)) y) = ((rx (a ++ b) rem x).1, advance (Z.of_nat (length a)) (rx (a ++ b) rem x).2)
  end.

Lemma rx_discard_splits x : splits iscsi_rx_discard x.
Proof. by intros a b rem. Qed.

Lemma rx_bhs_splits x : rx_len (rxe x) = 48 -> splits iscsi_rx_bhs x.
Proof.
  intros Hl a b rem Hr Hpos Ho Hsum Hw. rewrite Hl in *. unfold iscsi_rx_bhs. rewrite decide_False by lia. cbv zeta.
  rewrite length_app. rewrite (decide_False (P := 48 < rx_offset (rxe x) + Z.of_nat (length a + length b))) by lia. cbn [fst snd].
  change (rx_offset (rxe (advance (Z.of_nat (length a)) ?y))) with (u64 (rx_offset (rxe y) + Z.of_nat (length a))).
  change (rx_offset (rxe (on_ses (on_rx (set_rx_bhs ?l)) ?y))) with (rx_offset (rxe y)).
  rewrite wrap_small by zlia. rewrite decide_False by lia. f_equal.
  transitivity (advance (Z.of_nat (length a)) (map_rx (set_rx_bhs (list_inserts (Z.to_nat (rx_offset (rxe x) + Z.of_nat (length a))) b
                  (list_inserts (Z.to_nat (rx_offset (rxe x))) a (rx_bhs (rxe x))))) x)); [done|].
  f_equal. unfold map_rx. do 3 f_equal. rewrite Z2Nat.inj_add, Nat2Z.id by lia. apply inserts_app.
Qed.

(** Buffering the second part of the data after the first part. *)
Lemma buffered_splits a b x :
  0 <= rx_offset (rxe x) -> rx_offset (rxe x) + Z.of_nat (length a) < 2 ^ 64 ->
  match iscsi_rx_buffered_data a x with
  | (Err rc, y) => iscsi_rx_buffered_data (a ++ b) x = (Err rc, y)
  | (Ok _, y) =>
    iscsi_rx_buffered_data b (advance (Z.of_nat (length a)) y)
    = ((iscsi_rx_buffered_data (a ++ b) x).1, advance (Z.of_nat (length a)) (iscsi_rx_buffered_data (a ++ b) x).2)
  end.
Proof.
  intros Ho Hs. unfold iscsi_rx_buffered_data.
  set (alloc := match rx_buffer (rxe x) with Some b0 => (Some b0, x) | None => malloc (rx_len (rxe x)) x end).
  assert (rxe alloc.2 = rxe x) as Hrx by (unfold alloc; destruct (rx_buffer (rxe x)); [done|apply framed2_rx, malloc_framed]).
  clearbody alloc. destruct alloc as [[buf|] z]; [|done]. cbn [snd] in Hrx. rewrite Hrx. rewrite length_app.
  set (o := rx_offset (rxe x)) in *.
  set (z1 := if decide (Z.of_nat (length buf) < o + Z.of_nat (length a)) then fault z else z).
  assert (rxe z1 = rxe x) as Hz1 by (unfold z1; case_decide; done).
  change (rx_buffer (rxe (advance ?n (on_ses (on_rx (set_rx_buffer ?l)) ?y)))) with l. cbv iota beta.
  change (rx_offset (rxe (advance ?n ?y))) with (u64 (rx_offset (rxe y) + n)).
  change (rx_offset (rxe (on_ses (on_rx (set_rx_buffer ?l)) ?y))) with (rx_offset (rxe y)). rewrite Hz1. fold o. rewrite (wrap_small 64 (o + _)) by zlia.
  rewrite length_inserts. f_equal. rewrite Z2Nat.inj_add, Nat2Z.id by lia. rewrite inserts_app.
  assert ((if decide (Z.of_nat (length buf) < o + Z.of_nat (length a) + Z.of_nat (length b))
           then fault (advance (Z.of_nat (length a)) (on_ses (on_rx (set_rx_buffer (Some (list_inserts (Z.to_nat o) a buf)))) z1))
           else advance (Z.of_nat (length a)) (on_ses (on_rx (set_rx_buffer (Some (list_inserts (Z.to_nat o) a buf)))) z1))
          = advance (Z.of_nat (length a)) (on_ses (on_rx (set_rx_buffer (Some (list_inserts (Z.to_nat o) a buf))))
              (if decide (Z.of_nat (length buf) < o + Z.of_nat (length a + length b)) then fault z else z))) as ->.
  { unfold z1. repeat case_decide; try lia; done. }
  done.
Qed.

Lemma buffered_num a (x : sys) : s_num (ses (iscsi_rx_buffered_data a x).2) = s_num (ses x).
Proof.
  unfold iscsi_rx_buffered_data, malloc. destruct (rx_buffer (rxe x)).
  - by case_decide.
  - destruct (heap_alloc _ _) as [[] ?]; [|done]. by case_decide.
Qed.

Lemma buffered_rx a (x : sys) : exists b, rxe (iscsi_rx_buffered_data a x).2 = set_rx_buffer b (rxe x).
Proof.
  unfold iscsi_rx_buffered_data, malloc. destruct (rx_buffer (rxe x)) eqn:E.
  - case_decide; by eexists.
  - destruct (heap_alloc _ _) as [[] ?]; cbn [snd]; [case_decide; by eexists|]. exists None. rewrite <- E. by destruct x as [[? ? ? ? ? ? ? ? [] ? ? ? ?] ? ? ?].
Qed.

(** What follows the last part of buffered data. *)
Definition login_finish (x : sys) : result unit * sys :=
  let bhs := rx_bhs (rxe x) in
  match iscsi_handle_strings (default [] (rx_buffer (rxe x))) x with
  | (Err rc, x) => (Err rc, x)
  | (Ok _, x) => login_transition bhs (on_ses rx_done x)
  end.

Definition response_finish (x : sys) : result unit * sys :=
  let bhs := rx_bhs (rxe x) in
  let buffer := default [] (rx_buffer (rxe x)) in
  let rsp := response_of bhs buffer in
  let x := if decide (ISCSI_DATA_LEN bhs = 1) then fault x else x in
  let x := on_ses rx_done x in
  if decide (get8 bhs 2 <> ISCSI_RESPONSE_COMMAND_COMPLETE) then (Err EIO, x) else (Ok tt, iscsi_scsi_done (Ok tt) (Some rsp) x).

Definition commutes (g : sys -> result unit * sys) : Prop := forall n x, g (advance n x) = ((g x).1, advance n (g x).2).

Lemma login_finish_commutes : commutes login_finish.
Proof.
  intros n x. unfold login_finish. change (rx_bhs (rxe (advance n x))) with (rx_bhs (rxe x)). change (rx_buffer (rxe (advance n x))) with (rx_buffer (rxe x)).
  unfold iscsi_handle_strings, advance. rewrite handle_strings_framed. destruct (handle_strings _ _ x) as [[] y]; [|done]. cbn [fst snd].
  change (on_ses rx_done (map_rx ?f y)) with (map_rx f (on_ses rx_done y)). apply login_transition_framed.
Qed.

Lemma response_finish_commutes : commutes response_finish.
Proof.
  intros n x. unfold response_finish. change (rx_bhs (rxe (advance n x))) with (rx_bhs (rxe x)). change (rx_buffer (rxe (advance n x))) with (rx_buffer (rxe x)).
  set (y := if decide (ISCSI_DATA_LEN (rx_bhs (rxe x)) = 1) then fault x else x).
  assert ((if decide (ISCSI_DATA_LEN (rx_bhs (rxe x)) = 1) then fault (advance n x) else advance n x) = advance n y) as -> by (unfold y; by case_decide).
  case_decide; [done|]. cbn [fst snd]. f_equal.
  change (on_ses rx_done (advance n y)) with (advance n (on_ses rx_done y)). apply iscsi_scsi_done_framed.
Qed.

Definition buffered_then (finish : sys -> result unit * sys) (data : list Z) (remaining : Z) (x : sys) : result unit * sys :=
  match iscsi_rx_buffered_data data x with
  | (Err rc, x) => (Err rc, x)
  | (Ok _, x) => if decide (remaining <> 0) then (Ok tt, x) else finish x
  end.

Lemma buffered_then_splits finish x : commutes finish -> splits (buffered_then finish) x.
Proof.
  intros Hf a b rem Hr Hpos Ho Hsum Hw. pose proof (buffered_splits a b x Ho ltac:(lia)) as Hb. unfold buffered_then.
  destruct (iscsi_rx_buffered_data a x) as [[[]|rc] y] eqn:Ea; [|by rewrite Hb]. rewrite decide_True by lia.
  rewrite Hb. destruct (iscsi_rx_buffered_data (a ++ b) x) as [[[]|rc] z]; cbn [fst snd]; [|done]. case_decide; [done|]. apply Hf.
Qed.

Lemma data_in_splits x : splits iscsi_rx_data_in x.
Proof.
  intros a b rem Hr Hpos Ho Hsum Hw. unfold iscsi_rx_data_in. rewrite (decide_True (P := Z.of_nat (length b) + rem <> 0)) by lia.
  set (o := get32 (rx_bhs (rxe x)) 40 + rx_offset (rxe x)).
  destruct (s_command (ses x)) as [c|] eqn:Hc.
  - set (y := set_umem (memcpy (umem x) (data_in c + o) a) x). set (lim := decide (data_in_len c < o + Z.of_nat (length a))).
    assert (s_command (ses (advance (Z.of_nat (length a)) (if lim then fault y else y))) = Some c) as -> by (destruct lim; exact Hc).
    assert (rxe (if lim then fault y else y) = rxe x) as Hrx by by destruct lim.
    change (rx_bhs (rxe (advance ?n ?z))) with (rx_bhs (rxe z)). change (rx_offset (rxe (advance ?n ?z))) with (u64 (rx_offset (rxe z) + n)).
    rewrite Hrx. rewrite (wrap_small 64) by zlia. rewrite Z.add_assoc. fold o.
    set (z := set_umem (memcpy (umem x) (data_in c + o) (a ++ b)) x).
    assert (set_umem (memcpy (umem (advance (Z.of_nat (length a)) (if lim then fault y else y))) (data_in c + (o + Z.of_nat (length a))) b)
              (advance (Z.of_nat (length a)) (if lim then fault y else y)) = advance (Z.of_nat (length a)) (if lim then fault z else z)) as ->.
    { unfold z. rewrite <- memcpy_app, (Z.add_assoc (data_in c)). by destruct lim. }
    assert ((if decide (data_in_len c < o + Z.of_nat (length a) + Z.of_nat (length b)) then fault (advance (Z.of_nat (length a)) (if lim then fault z else z))
             else advance (Z.of_nat (length a)) (if lim then fault z else z))
            = advance (Z.of_nat (length a)) (if decide (data_in_len c < o + Z.of_nat (length (a ++ b))) then fault z else z)) as ->.
    { rewrite length_app. unfold lim. repeat case_decide; try lia; done. }
    case_decide; [done|]. case_decide; [|done]. cbn [fst snd]. f_equal. apply iscsi_scsi_done_framed.
  - change (s_command (ses (advance (Z.of_nat (length a)) (fault x)))) with (s_command (ses x)). rewrite Hc.
    case_decide; [done|]. change (rx_bhs (rxe (advance ?n (fault x)))) with (rx_bhs (rxe x)). case_decide; [|done]. cbn [fst snd]. f_equal.
    change (fault (advance ?n (fault x))) with (advance n (fault x)). apply iscsi_scsi_done_framed.
Qed.

(** A header whose data segment may be cut: no redirection, and R2T without
    data. *)
Definition opcode_of (bhs : list Z) : Z := Z.land (get8 bhs 0) ISCSI_OPCODE_MASK.
Definition header_ok (bhs : list Z) : Prop :=
  (opcode_of bhs = ISCSI_OPCODE_R2T -> ISCSI_DATA_LEN bhs = 0) /\
  (opcode_of bhs = ISCSI_OPCODE_LOGIN_RESPONSE -> get8 bhs 36 <> ISCSI_STATUS_REDIRECT).

Definition numbered (x : sys) : sys :=
  on_ses (on_num (fun n => set_statsn (get32 (rx_bhs (rxe x)) 24) (set_cmdsn (get32 (rx_bhs (rxe x)) 28) n))) x.

(** The handler of a data segment, after the sequence numbers. *)
Definition segment_handler (bhs : list Z) : list Z -> Z -> sys -> result unit * sys :=
  if decide (opcode_of bhs = ISCSI_OPCODE_LOGIN_RESPONSE) then buffered_then login_finish
  else if decide (opcode_of bhs = ISCSI_OPCODE_SCSI_RESPONSE) then buffered_then response_finish
  else if decide (opcode_of bhs = ISCSI_OPCODE_DATA_IN) then iscsi_rx_data_in
  else if decide (opcode_of bhs = ISCSI_OPCODE_R2T) then fun _ _ => iscsi_rx_r2t
  else if decide (opcode_of bhs = ISCSI_OPCODE_NOP_IN) then iscsi_rx_discard
  else fun _ remaining x => if decide (remaining <> 0) then (Ok tt, x) else (Err ENOTSUP, x).

Lemma rx_data_handler data remaining x :
  header_ok (rx_bhs (rxe x)) -> iscsi_rx_data data remaining x = segment_handler (rx_bhs (rxe x)) data remaining (numbered x).
Proof.
  intros [_ Hredir]. unfold iscsi_rx_data, segment_handler. cbv zeta. fold (opcode_of (rx_bhs (rxe x))) (numbered x).
  case_decide as Hop; [|by repeat case_decide]. specialize (Hredir Hop). unfold iscsi_rx_login_response, buffered_then, login_finish.
  destruct (buffered_rx data (numbered x)) as [b Hb]. destruct (iscsi_rx_buffered_data data (numbered x)) as [[[]|] y]; [|done]. cbn [snd] in Hb.
  case_decide; [done|]. rewrite Hb. cbn [rx_bhs rx_buffer set_rx_buffer]. destruct (iscsi_handle_strings _ y) as [[[]|] z]; [|done]. by rewrite decide_False.
Qed.

(** A part that is not the last changes neither the header nor the numbers. *)
Lemma segment_partial bhs data remaining x y :
  remaining <> 0 -> opcode_of bhs <> ISCSI_OPCODE_R2T -> segment_handler bhs data remaining x = (Ok tt, y) ->
  rx_bhs (rxe y) = rx_bhs (rxe x) /\ s_num (ses y) = s_num (ses x).
Proof.
  intros Hr Hop. unfold segment_handler.
  assert (forall finish, buffered_then finish data remaining x = (Ok tt, y) -> rx_bhs (rxe y) = rx_bhs (rxe x) /\ s_num (ses y) = s_num (ses x)) as Hbuf.
  { intros finish. unfold buffered_then. pose proof (buffered_num data x) as Hn. destruct (buffered_rx data x) as [b Hb].
    destruct (iscsi_rx_buffered_data data x) as [[[]|] z]; [|done]. cbn [snd] in *. rewrite decide_True by done. intros [= <-]. by rewrite Hb. }
  case_decide; [apply Hbuf|]. case_decide; [apply Hbuf|]. case_decide.
  - unfold iscsi_rx_data_in. rewrite decide_True by done. destruct (s_command (ses x)); [case_decide|]; by intros [= <-].
  - rewrite decide_False by done. case_decide; [by intros [= <-]|]. rewrite decide_True by done. by intros [= <-].
Qed.

Lemma segment_splits bhs x : opcode_of bhs <> ISCSI_OPCODE_R2T -> splits (segment_handler bhs) x.
Proof.
  intros Hop. unfold segment_handler. repeat case_decide; try done; auto using rx_discard_splits, data_in_splits, buffered_then_splits, login_finish_commutes, response_finish_commutes.
  intros a b rem Hr Hpos Ho Hsum Hw. rewrite decide_True by lia. by case_decide.
Qed.

Lemma rx_data_splits x : header_ok (rx_bhs (rxe x)) -> rx_len (rxe x) = ISCSI_DATA_LEN (rx_bhs (rxe x)) -> splits iscsi_rx_data x.
Proof.
  intros Hok Hlen a b rem Hr Hpos Ho Hsum Hw. set (bhs := rx_bhs (rxe x)) in *. rewrite !rx_data_handler by done. fold bhs.
  assert (opcode_of bhs <> ISCSI_OPCODE_R2T) as Hop by (intros E; apply (proj1 Hok) in E; lia).
  pose proof (segment_splits bhs (numbered x) Hop a b rem Hr Hpos Ho Hsum Hw) as Hs.
  destruct (segment_handler bhs a _ (numbered x)) as [[[]|rc] y] eqn:Ea; [|done].
  destruct (segment_partial bhs a (Z.of_nat (length b) + rem) (numbered x) y ltac:(lia) Hop Ea) as [Hb Hn]. change (rx_bhs (rxe (numbered x))) with bhs in Hb.
  rewrite rx_data_handler by (change (rx_bhs (rxe (advance _ y))) with (rx_bhs (rxe y)); by rewrite Hb).
  change (rx_bhs (rxe (advance _ y))) with (rx_bhs (rxe y)). rewrite Hb, <- Hs. f_equal.
  change (numbered (advance (Z.of_nat (length a)) y)) with (advance (Z.of_nat (length a)) (numbered y)). f_equal.
  unfold numbered. rewrite Hb. destruct y as [s m w u]. destruct s. cbn in Hn |- *. subst. done.
Qed.

(** ** Rounds of the loop *)

Definition frag_length (iobuf : list Z) (x : sys) : Z :=
  let '(_, len, _) := rx_fragment (rxe x) in
  let frag_len := u64 (len - rx_offset (rxe x)) in
  if decide (Z.of_nat (length iobuf) < frag_len) then Z.of_nat (length iobuf) else frag_len.

Definition rx_rank (st : iscsi_rx_state) : nat :=
  match st with ISCSI_RX_BHS => 1 | ISCSI_RX_AHS => 4 | ISCSI_RX_DATA => 3 | ISCSI_RX_DATA_PADDING => 2 end.

(** When the loop goes on, the next state starts at its beginning, and the
    header has been consumed if the header was received. *)
Lemma deliver_step_next iobuf (x : sys) r rest :
  deliver_step iobuf x = (r, Some rest) ->
  rx_offset (rxe r.2) = 0 /\
  ((rx_rank (rx_state (rxe r.2)) + 4 * length rest < rx_rank (rx_state (rxe x)) + 4 * length iobuf)%nat \/
   rx_state (rxe x) = ISCSI_RX_BHS /\ rx_offset (rxe x) <> 0 /\ rx_state (rxe r.2) = ISCSI_RX_AHS /\ length rest = length iobuf).
Proof.
  unfold deliver_step. destruct (rx_fragment (rxe x)) as [[rx len] next] eqn:Hf. cbv zeta.
  change (rx_offset (rxe (on_ses (on_rx (set_rx_len len)) x))) with (rx_offset (rxe x)).
  set (n := u64 (len - rx_offset (rxe x))). assert (in_width 64 n) as Hw by by apply wrap_bound.
  set (frag := if decide (Z.of_nat (length iobuf) < n) then Z.of_nat (length iobuf) else n).
  destruct (rx _ _ _) as [[[]|] y] eqn:Hy; [|done].
  case_decide as Hd; [done|]. intros [= <- <-]. cbn [snd]. split; [done|]. cbn [rx_state s_rx ses on_ses on_rx set_s_rx set_rx_state set_rx_offset]. rewrite length_drop.
  unfold rx_fragment in Hf. destruct (rx_state (rxe x)) eqn:Hst; injection Hf as <- <- <-; cbn [rx_rank]; [|left; lia..].
  destruct (decide (n = 0)) as [Hn|Hn].
  - right. split_and!; [done|intros E; unfold n in Hn; by rewrite E in Hn|done|]. unfold frag. rewrite decide_False by zlia. lia.
  - left. assert (frag <> 0); [|unfold frag in *; case_decide; zlia]. intros E. assert (Z.of_nat (length iobuf) < n /\ length iobuf = 0%nat) as [Hlt Hz].
    { unfold frag in E. case_decide; lia. } clear Hlt. apply Hn. revert Hd.
    cbn [rx_offset rx_len s_rx ses on_ses on_rx set_s_rx set_rx_offset].
    assert (rx_offset (rxe y) = rx_offset (rxe x) /\ rx_len (rxe y) = 48) as [-> ->].
    { unfold iscsi_rx_bhs in Hy. injection Hy as <-. case_decide; done. }
    rewrite E, Z.add_0_r. intros Ho. unfold n, wrap. rewrite <- Ho. unfold wrap. by rewrite Zminus_mod_idemp_l, Z.sub_diag.
Qed.

Lemma deliver_loop_returns fuel iobuf (x : sys) :
  (rx_state (rxe x) = ISCSI_RX_BHS -> rx_offset (rxe x) = 0) -> (rx_rank (rx_state (rxe x)) + 4 * length iobuf < fuel)%nat ->
  is_Some (deliver_loop fuel iobuf x).
Proof.
  revert iobuf x. induction fuel as [|fuel IH]; intros iobuf x H0' Hf; [lia|]. cbn [deliver_loop].
  destruct (deliver_step iobuf x) as [r [rest|]] eqn:E; [|by eexists]. apply deliver_step_next in E as [Ho [Hlt|(Hst & Hne & _)]]; [|by destruct Hne; apply H0'].
  apply IH; [done|lia].
Qed.

Lemma deliver_loop_total fuel iobuf (x : sys) : (4 * length iobuf + 6 <= fuel)%nat -> is_Some (deliver_loop fuel iobuf x).
Proof.
  intros Hf. destruct fuel as [|fuel]; [lia|]. cbn [deliver_loop].
  destruct (deliver_step iobuf x) as [r [rest|]] eqn:E; [|by eexists]. apply deliver_step_next in E as [Ho Hlt].
  apply deliver_loop_returns; [done|]. destruct Hlt as [Hlt|(_ & _ & Hst & Hlen)]; [|rewrite Hst, Hlen; unfold rx_rank; lia].
  assert (rx_rank (rx_state (rxe x)) <= 4)%nat by (clear; destruct (rx_state (rxe x)); unfold rx_rank; lia). lia.
Qed.

Lemma deliver_loop_mono fuel fuel' iobuf (x : sys) r : deliver_loop fuel iobuf x = Some r -> (fuel <= fuel')%nat -> deliver_loop fuel' iobuf x = Some r.
Proof.
  revert fuel' iobuf x. induction fuel as [|fuel IH]; intros [|fuel'] iobuf x E Hle; try done; [lia|]. cbn [deliver_loop] in *.
  destruct (deliver_step iobuf x) as [s [rest|]]; [|done]. apply IH; [done|lia].
Qed.

(** ** Cutting the stream *)

(** The state of the engine allows the buffer to be cut here. *)
Definition cuttable (x : sys) : Prop :=
  0 <= rx_offset (rxe x) <= (rx_fragment (rxe x)).1.2 /\ (rx_fragment (rxe x)).1.2 < 2 ^ 64 /\
  (rx_state (rxe x) = ISCSI_RX_DATA -> header_ok (rx_bhs (rxe x))).

(** The same but for the receive engine, which is not used after an error. *)
Definition same_but_rx (x y : sys) : Prop := forall r, map_rx (fun _ => r) x = map_rx (fun _ => r) y.

Lemma segment_rx bhs data remaining (x : sys) : exists b, rxe (segment_handler bhs data remaining x).2 = set_rx_buffer b (rxe x).
Proof.
  assert (forall y : sys, rxe y = set_rx_buffer (rx_buffer (rxe y)) (rxe y)) as Heta by (intros [[? ? ? ? ? ? ? ? [] ? ? ? ?] ? ? ?]; done).
  assert (forall finish : sys -> result unit * sys, (forall y, exists b, rxe (finish y).2 = set_rx_buffer b (rxe y)) ->
    exists b, rxe (buffered_then finish data remaining x).2 = set_rx_buffer b (rxe x)) as Hbuf.
  { intros finish Hf. unfold buffered_then. destruct (buffered_rx data x) as [b Hb]. destruct (iscsi_rx_buffered_data data x) as [[[]|] y]; cbn [snd] in Hb; [|by exists b].
    case_decide; [by exists b|]. destruct (Hf y) as [b' ->]. rewrite Hb. by exists b'. }
  unfold segment_handler. case_decide; [|case_decide; [|case_decide; [|case_decide; [|case_decide]]]].
  - apply Hbuf. intros y. unfold login_finish, iscsi_handle_strings. pose proof (framed2_rx _ y (handle_strings_framed (length (default [] (rx_buffer (rxe y)))) (default [] (rx_buffer (rxe y))))) as Hs.
    destruct (handle_strings _ _ y) as [[[]|] z]; cbn [snd] in *; [|rewrite Hs; eauto]. rewrite framed2_rx by apply login_transition_framed. cbn. rewrite Hs. by eexists.
  - apply Hbuf. intros y. unfold response_finish. case_decide; cbn [snd].
    + case_decide; by eexists.
    + rewrite framed_rx by apply iscsi_scsi_done_framed. case_decide; by eexists.
  - assert (forall y, rxe y = rxe x -> exists b, rxe (if decide (remaining <> 0) then (Ok tt, y) else if decide (Z.land (get8 (rx_bhs (rxe x)) 1) ISCSI_DATA_FLAG_STATUS <> 0)
       then (Ok tt, iscsi_scsi_done (Ok tt) None y) else (Ok tt, y)).2 = set_rx_buffer b (rxe x)) as Hd.
    { intros y Hy. repeat case_decide; cbn [snd]; rewrite ?(framed_rx _ _ (iscsi_scsi_done_framed _ _)), Hy; eauto. }
    unfold iscsi_rx_data_in. destruct (s_command (ses x)); cbv zeta; apply Hd; [clear Hd; by case_decide|done].
  - exists (rx_buffer (rxe x)). unfold iscsi_rx_r2t, start_data_out. cbn [snd]. rewrite <- Heta. by case_bool_decide.
  - eauto.
  - case_decide; cbn [snd]; eauto.
Qed.

(** A handler keeps the state, the position and the length. *)
Lemma rx_keeps iobuf remaining (x : sys) :
  cuttable x ->
  let '(rx, len, _) := rx_fragment (rxe x) in
  rx_offset (rxe (rx iobuf remaining (map_rx (set_rx_len len) x)).2) = rx_offset (rxe x) /\
  rx_len (rxe (rx iobuf remaining (map_rx (set_rx_len len) x)).2) = len /\
  rx_state (rxe (rx iobuf remaining (map_rx (set_rx_len len) x)).2) = rx_state (rxe x) /\
  (rx_state (rxe x) <> ISCSI_RX_BHS -> rx_bhs (rxe (rx iobuf remaining (map_rx (set_rx_len len) x)).2) = rx_bhs (rxe x)).
Proof.
  intros (_ & _ & Hok). unfold rx_fragment. destruct (rx_state (rxe x)) eqn:Hst.
  - unfold iscsi_rx_bhs. case_decide; cbn; by rewrite Hst.
  - cbn. by rewrite Hst.
  - rewrite rx_data_handler by by apply Hok. match goal with |- context [segment_handler ?a ?b ?c ?d] => destruct (segment_rx a b c d) as [bf ->] end. cbn. by rewrite Hst.
  - cbn. by rewrite Hst.
Qed.

Definition restart (next : iscsi_rx_state) : sys -> sys := map_rx (fun r => set_rx_offset 0 (set_rx_state next r)).

(** A round of the loop without wrap-around. *)
Lemma deliver_step_eq iobuf (x : sys) rx len next :
  cuttable x -> rx_fragment (rxe x) = (rx, len, next) ->
  deliver_step iobuf x =
  let f := Z.min (Z.of_nat (length iobuf)) (len - rx_offset (rxe x)) in
  match rx (take (Z.to_nat f) iobuf) (len - rx_offset (rxe x) - f) (map_rx (set_rx_len len) x) with
  | (Err rc, y) => ((Err rc, y), None)
  | (Ok _, y) => if decide (rx_offset (rxe x) + f = len) then ((Ok tt, restart next (advance f y)), Some (drop (Z.to_nat f) iobuf)) else ((Ok tt, advance f y), None)
  end.
Proof.
  intros Hc Hf. pose proof (rx_keeps (take (Z.to_nat (Z.min (Z.of_nat (length iobuf)) (len - rx_offset (rxe x)))) iobuf)
    (len - rx_offset (rxe x) - Z.min (Z.of_nat (length iobuf)) (len - rx_offset (rxe x))) x Hc) as Hk.
  destruct Hc as (Ho & Hl & _). rewrite Hf in Hk, Ho, Hl. cbn [fst snd] in Ho, Hl. unfold deliver_step. rewrite Hf. cbv zeta.
  change (rx_offset (rxe (on_ses (on_rx (set_rx_len len)) x))) with (rx_offset (rxe x)). rewrite (wrap_small 64 (len - rx_offset (rxe x))) by zlia.
  assert ((if decide (Z.of_nat (length iobuf) < len - rx_offset (rxe x)) then Z.of_nat (length iobuf) else len - rx_offset (rxe x))
          = Z.min (Z.of_nat (length iobuf)) (len - rx_offset (rxe x))) as -> by (case_decide; lia).
  set (f := Z.min _ _) in *. rewrite (wrap_small 64 (_ - _ - _)) by zlia. fold (map_rx (set_rx_len len) x).
  destruct (rx _ _ _) as [[[]|rc] y]; [|done]. cbn [snd] in Hk. destruct Hk as (Hk1 & Hk2 & _).
  change (on_ses (on_rx (fun r => set_rx_offset (u64 (rx_offset r + f)) r)) y) with (advance f y).
  assert (rx_offset (rxe (advance f y)) = rx_offset (rxe x) + f) as Ha.
  { change (rx_offset (rxe (advance f y))) with (u64 (rx_offset (rxe y) + f)). rewrite Hk1. apply wrap_small. zlia. }
  rewrite Ha. change (rx_len (rxe (advance f y))) with (rx_len (rxe y)). rewrite Hk2. by repeat case_decide.
Qed.

(** *** Splitting a round *)

Lemma fragment_splits (x : sys) rx len next :
  cuttable x -> rx_fragment (rxe x) = (rx, len, next) -> splits rx (map_rx (set_rx_len len) x).
Proof.
  intros (_ & _ & Hok) Hf. unfold rx_fragment in Hf. destruct (rx_state (rxe x)); injection Hf as <- <- <-.
  - by apply rx_bhs_splits.
  - apply rx_discard_splits.
  - apply rx_data_splits; [by apply Hok|done].
  - apply rx_discard_splits.
Qed.

Lemma advance_advance n k (x : sys) :
  0 <= rx_offset (rxe x) -> 0 <= n -> 0 <= k -> rx_offset (rxe x) + n + k < 2 ^ 64 -> advance k (advance n x) = advance (n + k) x.
Proof.
  intros Ho Hn Hk Hw. unfold advance, map_rx, on_ses, on_rx, set_rx_offset. cbn [ses umem world upper s_rx set_s_rx rx_offset rx_bhs rx_state rx_len rx_buffer].
  rewrite (wrap_small 64 (rx_offset (rxe x) + n)) by zlia. by rewrite <- Z.add_assoc.
Qed.

Lemma set_len_same len (x : sys) : rx_len (rxe x) = len -> map_rx (set_rx_len len) x = x.
Proof. intros <-. by destruct x as [[? ? ? ? ? ? ? ? [] ? ? ? ?] ? ? ?]. Qed.

Definition similar (p q : (result unit * sys) * option (list Z)) : Prop :=
  p.1.1 = q.1.1 /\ p.2 = q.2 /\ if is_Ok p.1.1 then p.1.2 = q.1.2 else same_but_rx p.1.2 q.1.2.

Lemma step_whole a b (x : sys) :
  cuttable x -> (rx_fragment (rxe x)).1.2 - rx_offset (rxe x) <= Z.of_nat (length a) ->
  deliver_step (a ++ b) x = ((deliver_step a x).1, (fun rest => rest ++ b) <$> (deliver_step a x).2).
Proof.
  intros Hc Hn. destruct (rx_fragment (rxe x)) as [[rx len] next] eqn:Hf. cbn [fst snd] in Hn. rewrite !(deliver_step_eq _ _ rx len next) by done. cbv zeta.
  destruct Hc as (Ho & _). rewrite Hf in Ho. cbn [fst snd] in Ho. rewrite length_app. rewrite !Z.min_r by lia.
  rewrite take_app_le by lia. destruct (rx _ _ _) as [[[]|] y]; [|done]. case_decide; [|done]. cbn. by rewrite drop_app_le by lia.
Qed.

Lemma step_cut a b (x : sys) :
  cuttable x -> Z.of_nat (length a) < (rx_fragment (rxe x)).1.2 - rx_offset (rxe x) ->
  match deliver_step a x with
  | ((Err rc, y), o) => o = None /\ deliver_step (a ++ b) x = ((Err rc, y), None)
  | ((Ok _, y), o) => o = None /\ similar (deliver_step b y) (deliver_step (a ++ b) x)
  end.
Proof.
  intros Hc Hn. destruct (rx_fragment (rxe x)) as [[rx len] next] eqn:Hf. cbn [fst snd] in Hn. rewrite !(deliver_step_eq _ x rx len next) by done. cbv zeta.
  pose proof (fragment_splits x rx len next Hc Hf) as Hs. pose proof Hc as (Ho & Hl & Hok). rewrite Hf in Ho, Hl. cbn [fst snd] in Ho, Hl. rewrite length_app.
  set (o := rx_offset (rxe x)) in *. rewrite (Z.min_l (Z.of_nat (length a))) by lia.
  set (fb := Z.min (Z.of_nat (length b)) (len - o - Z.of_nat (length a))).
  replace (Z.min (Z.of_nat (length a + length b)) (len - o)) with (Z.of_nat (length a) + fb) by lia.
  set (b' := take (Z.to_nat fb) b). assert (Z.of_nat (length b') = fb) as Hb' by (unfold b'; rewrite length_take; lia).
  assert (take (Z.to_nat (Z.of_nat (length a) + fb)) (a ++ b) = a ++ b') as ->.
  { rewrite Z2Nat.inj_add, Nat2Z.id by lia. by rewrite take_app_add. }
  rewrite Nat2Z.id, take_ge by lia. set (X := map_rx (set_rx_len len) x) in *.
  specialize (Hs a b' (len - o - (Z.of_nat (length a) + fb))). rewrite Hb' in Hs.
  replace (fb + (len - o - (Z.of_nat (length a) + fb))) with (len - o - Z.of_nat (length a)) in Hs by lia.
  specialize (Hs ltac:(lia) ltac:(lia) ltac:(exact (proj1 Ho)) ltac:(change (o + Z.of_nat (length a) + fb + (len - o - (Z.of_nat (length a) + fb)) = len); lia) ltac:(exact Hl)).
  pose proof (rx_keeps a (len - o - Z.of_nat (length a)) x Hc) as Hk. pose proof (rx_keeps (a ++ b') (len - o - (Z.of_nat (length a) + fb)) x Hc) as Hk2. rewrite Hf in Hk, Hk2. fold X o in Hk, Hk2.
  destruct (rx a _ X) as [[[]|rc] y] eqn:Ha; [|split; [done|]; by rewrite Hs].
  rewrite decide_False by lia. split; [done|]. cbn [snd] in Hk. destruct Hk as (Hko & Hkl & Hks & Hkb).
  set (y' := advance (Z.of_nat (length a)) y). assert (rx_offset (rxe y') = o + Z.of_nat (length a)) as Hy'.
  { change (rx_offset (rxe y')) with (u64 (rx_offset (rxe y) + Z.of_nat (length a))). rewrite Hko. apply wrap_small. zlia. }
  assert (rx_fragment (rxe y') = (rx, len, next)) as Hf'.
  { rewrite <- Hf. unfold rx_fragment. change (rx_state (rxe y')) with (rx_state (rxe y)). change (rx_bhs (rxe y')) with (rx_bhs (rxe y)). rewrite Hks.
    destruct (rx_state (rxe x)) eqn:E; rewrite ?Hkb by done; done. }
  assert (cuttable y') as Hc'.
  { split; [rewrite Hf'; cbn [fst snd]; lia|split; [rewrite Hf'; cbn [fst snd]; lia|]]. change (rx_state (rxe y')) with (rx_state (rxe y)). change (rx_bhs (rxe y')) with (rx_bhs (rxe y)). rewrite Hks.
    intros E. rewrite Hkb by by rewrite E. by apply Hok. }
  rewrite (deliver_step_eq b y' rx len next) by done. cbv zeta. rewrite Hy'. replace (len - (o + Z.of_nat (length a))) with (len - o - Z.of_nat (length a)) by lia. fold fb b'.
  replace (len - o - Z.of_nat (length a) - fb) with (len - o - (Z.of_nat (length a) + fb)) by lia.
  assert (map_rx (set_rx_len len) y' = y') as ->.
  { by apply set_len_same. }
  fold y' in Hs. rewrite Hs. destruct (rx (a ++ b') _ X) as [[[]|rc] z]; cbn [fst snd] in *.
  - destruct Hk2 as (Hk2 & _). unfold similar. rewrite Z.add_assoc. rewrite advance_advance by lia. case_decide; cbn [fst snd is_Ok]; [|done].
    split_and!; [done| |done]. f_equal. rewrite Z2Nat.inj_add, Nat2Z.id by lia. rewrite drop_app_add. done.
  - unfold similar. cbn. split_and!; [done..|]. intros r. done.
Qed.

(** ** Protocol data units *)

Record pdu := Pdu { p_bhs : list Z; p_ahs : list Z; p_data : list Z; p_pad : list Z }.

Definition pdu_tail (p : pdu) : list Z := p_data p ++ p_pad p.
Definition pdu_bytes (p : pdu) : list Z := p_bhs p ++ p_ahs p ++ pdu_tail p.
Definition stream (ps : list pdu) : list Z := concat (map pdu_bytes ps).

Record pdu_wf (p : pdu) : Prop := {
  wf_bhs : length (p_bhs p) = 48%nat;
  wf_bytes : bytes (p_bhs p);
  wf_ahs : Z.of_nat (length (p_ahs p)) = 4 * ISCSI_AHS_LEN (p_bhs p);
  wf_data : Z.of_nat (length (p_data p)) = ISCSI_DATA_LEN (p_bhs p);
  wf_pad : Z.of_nat (length (p_pad p)) = ISCSI_DATA_PAD_LEN (p_bhs p);
  wf_header : header_ok (p_bhs p);
}.

(** The engine is at the beginning of a part, and the buffer is a prefix of
    what is to come. *)
Definition at_pdu (iobuf : list Z) (x : sys) : Prop :=
  rx_offset (rxe x) = 0 /\ length (rx_bhs (rxe x)) = 48%nat /\
  exists ps rest, Forall pdu_wf ps /\
  match rx_state (rxe x) with
  | ISCSI_RX_BHS => iobuf ++ rest = stream ps
  | ISCSI_RX_AHS => exists p, pdu_wf p /\ rx_bhs (rxe x) = p_bhs p /\ iobuf ++ rest = p_ahs p ++ pdu_tail p ++ stream ps
  | ISCSI_RX_DATA => exists p, pdu_wf p /\ rx_bhs (rxe x) = p_bhs p /\ iobuf ++ rest = p_data p ++ p_pad p ++ stream ps
  | ISCSI_RX_DATA_PADDING => exists p, pdu_wf p /\ rx_bhs (rxe x) = p_bhs p /\ iobuf ++ rest = p_pad p ++ stream ps
  end.

Lemma fragment_range p : pdu_wf p ->
  0 <= 4 * ISCSI_AHS_LEN (p_bhs p) < 2 ^ 64 /\ 0 <= ISCSI_DATA_LEN (p_bhs p) < 2 ^ 64 /\ 0 <= ISCSI_DATA_PAD_LEN (p_bhs p) < 2 ^ 64.
Proof.
  intros Hp. assert (is_byte (ISCSI_AHS_LEN (p_bhs p))) by apply nth_byte, wf_bytes, Hp.
  unfold ISCSI_DATA_LEN, ISCSI_DATA_PAD_LEN. change 16777215 with (2 ^ 24 - 1). change 3 with (2 ^ 2 - 1). rewrite !land_ones_mod by lia.
  pose proof (Z.mod_pos_bound (get32 (p_bhs p) 4) (2 ^ 24) ltac:(lia)). pose proof (Z.mod_pos_bound (0 - get8 (p_bhs p) 7) (2 ^ 2) ltac:(lia)). unfold in_width in *.
  change (2 ^ 8) with 256 in *. change (2 ^ 24) with 16777216 in *. change (2 ^ 2) with 4 in *. change (2 ^ 64) with 18446744073709551616. lia.
Qed.

Lemma at_pdu_cuttable iobuf x : at_pdu iobuf x -> cuttable x.
Proof.
  intros (Ho & _ & ps & rest & _ & Hst). unfold cuttable, rx_fragment. rewrite Ho. destruct (rx_state (rxe x)) eqn:E; cbn [fst snd].
  - done.
  - destruct Hst as (p & Hp & -> & _). pose proof (fragment_range p Hp). split_and!; try lia. done.
  - destruct Hst as (p & Hp & -> & _). pose proof (fragment_range p Hp). split_and!; try lia. intros _. apply Hp.
  - destruct Hst as (p & Hp & -> & _). pose proof (fragment_range p Hp). split_and!; try lia. done.
Qed.

(** The rest of a prefix, after a part that is complete. *)
Lemma prefix_drop {A} (iobuf rest part tail : list A) (n : nat) :
  iobuf ++ rest = part ++ tail -> length part = n -> (n <= length iobuf)%nat -> take n iobuf = part /\ drop n iobuf ++ rest = tail.
Proof.
  intros E <- Hn. assert (take (length part) (iobuf ++ rest) = part) as Et by (rewrite E; apply take_app_length).
  assert (drop (length part) (iobuf ++ rest) = tail) as Ed by (rewrite E; apply drop_app_length).
  rewrite take_app_le in Et by done. by rewrite drop_app_le in Ed.
Qed.

Lemma at_pdu_prefix iobuf b x : at_pdu (iobuf ++ b) x -> at_pdu iobuf x.
Proof.
  intros (Ho & Hl & ps & rest & Hps & Hst). split_and!; [done..|]. exists ps, (b ++ rest). split; [done|].
  destruct (rx_state (rxe x)); rewrite ?app_assoc; exact Hst.
Qed.

(** A round with a complete part. *)
Lemma step_complete part t (x : sys) rx len next :
  cuttable x -> rx_fragment (rxe x) = (rx, len, next) -> rx_offset (rxe x) = 0 -> Z.of_nat (length part) = len ->
  deliver_step (part ++ t) x =
  match rx part 0 (map_rx (set_rx_len len) x) with
  | (Err rc, y) => ((Err rc, y), None)
  | (Ok _, y) => ((Ok tt, restart next (advance len y)), Some t)
  end.
Proof.
  intros Hc Hf Ho Hl. rewrite (deliver_step_eq _ _ rx len next) by done. cbv zeta. rewrite Ho, Z.sub_0_r, length_app, Z.min_r by lia. rewrite Z.sub_diag, Z.add_0_l.
  replace (Z.to_nat len) with (length part) by lia. rewrite take_app_length, drop_app_length.
  destruct (rx _ _ _) as [[[]|] y]; [|done]. by rewrite decide_True.
Qed.

Lemma restart_advance next n (x : sys) : restart next (advance n x) = restart next x.
Proof. done. Qed.

Lemma step_continues iobuf (x : sys) r rest :
  cuttable x -> rx_offset (rxe x) = 0 -> deliver_step iobuf x = (r, Some rest) ->
  let '(rx, len, next) := rx_fragment (rxe x) in
  len <= Z.of_nat (length iobuf) /\ rest = drop (Z.to_nat len) iobuf /\
  exists y, rx (take (Z.to_nat len) iobuf) 0 (map_rx (set_rx_len len) x) = (Ok tt, y) /\ r = (Ok tt, restart next y).
Proof.
  intros Hc Ho E. destruct (rx_fragment (rxe x)) as [[rx len] next] eqn:Hf. rewrite (deliver_step_eq _ _ rx len next) in E by done. cbv zeta in E. rewrite Ho, Z.sub_0_r in E.
  destruct Hc as (Hr & _). rewrite Hf, Ho in Hr. cbn [fst snd] in Hr.
  destruct (rx _ _ _) as [[[]|] y] eqn:Er; [|done]. case_decide as Hd; [|done]. injection E as <- <-. rewrite Z.add_0_l in Hd. rewrite Hd in *. rewrite Z.sub_diag in Er.
  split_and!; [lia|done|]. exists y. split; [done|]. by rewrite restart_advance.
Qed.

Lemma inserts_full (l l' : list Z) : length l = length l' -> list_inserts 0 l l' = l.
Proof.
  intros Hl. apply list_eq. intros i. destruct (decide (i < length l)%nat) as [Hi|Hi].
  - rewrite list_lookup_inserts by lia. f_equal. lia.
  - rewrite !lookup_ge_None_2; [done|lia|rewrite length_inserts; lia].
Qed.

(** The header is complete. *)
Lemma rx_bhs_complete p (x : sys) :
  rx_offset (rxe x) = 0 -> length (rx_bhs (rxe x)) = 48%nat -> pdu_wf p ->
  iscsi_rx_bhs (p_bhs p) 0 (map_rx (set_rx_len 48) x) = (Ok tt, map_rx (fun r => set_rx_bhs (p_bhs p) (set_rx_len 48 r)) x).
Proof.
  intros Ho Hb Hp. unfold iscsi_rx_bhs. change (rx_offset (rxe (map_rx (set_rx_len 48) x))) with (rx_offset (rxe x)). change (rx_bhs (rxe (map_rx (set_rx_len 48) x))) with (rx_bhs (rxe x)).
  rewrite Ho, (wf_bhs p Hp). cbv zeta. rewrite decide_False by done. change (Z.to_nat 0) with 0%nat. rewrite inserts_full by (by rewrite Hb, (wf_bhs p Hp)). done.
Qed.

Lemma at_pdu_step iobuf (x : sys) r rest : at_pdu iobuf x -> deliver_step iobuf x = (r, Some rest) -> at_pdu rest r.2.
Proof.
  intros Hp E. pose proof (at_pdu_cuttable _ _ Hp) as Hc. destruct Hp as (Ho & Hb & ps & more & Hps & Hst).
  pose proof (step_continues _ _ _ _ Hc Ho E) as Hs. pose proof (rx_keeps (take (Z.to_nat (rx_fragment (rxe x)).1.2) iobuf) 0 x Hc) as Hk.
  unfold rx_fragment in Hs, Hk. destruct (rx_state (rxe x)) eqn:Hst'; cbn [fst snd] in Hk; destruct Hs as (Hlen & -> & y & Hy & ->); rewrite Hy in Hk; cbn [snd] in Hk |- *; destruct Hk as (_ & _ & _ & Hkb).
  - destruct ps as [|p ps].
    { apply (f_equal length) in Hst. rewrite length_app in Hst. cbn in Hst. lia. }
    apply Forall_cons in Hps as [Hp Hps]. change (stream (p :: ps)) with (pdu_bytes p ++ stream ps) in Hst. unfold pdu_bytes in Hst. rewrite <- !app_assoc in Hst.
    destruct (prefix_drop iobuf more (p_bhs p) _ 48 Hst (wf_bhs _ Hp) ltac:(lia)) as [Et Ed].
    change (Z.to_nat 48) with 48%nat in Hy |- *. rewrite Et, rx_bhs_complete in Hy by done. injection Hy as <-.
    split_and!; [done|apply Hp|]. exists ps, more. split; [done|]. exists p. split_and!; [done..|]. exact Ed.
  - destruct Hst as (p & Hp & Hbp & Hst). rewrite Hbp in *.
    destruct (prefix_drop iobuf more (p_ahs p) _ (Z.to_nat (4 * ISCSI_AHS_LEN (p_bhs p))) Hst) as [Et Ed]; [rewrite <- (wf_ahs p Hp); lia|lia|].
    split_and!; [done|change (length (rx_bhs (rxe y)) = 48%nat); rewrite Hkb by done; apply Hp|]. exists ps, more. split; [done|]. exists p. split_and!; [done|by apply Hkb|]. rewrite Ed. unfold pdu_tail. by rewrite <- app_assoc.
  - destruct Hst as (p & Hp & Hbp & Hst). rewrite Hbp in *.
    destruct (prefix_drop iobuf more (p_data p) _ (Z.to_nat (ISCSI_DATA_LEN (p_bhs p))) Hst) as [Et Ed]; [rewrite <- (wf_data p Hp); lia|lia|].
    split_and!; [done|change (length (rx_bhs (rxe y)) = 48%nat); rewrite Hkb by done; apply Hp|]. exists ps, more. split; [done|]. exists p. split_and!; [done|by apply Hkb|]. exact Ed.
  - destruct Hst as (p & Hp & Hbp & Hst). rewrite Hbp in *.
    destruct (prefix_drop iobuf more (p_pad p) _ (Z.to_nat (ISCSI_DATA_PAD_LEN (p_bhs p))) Hst) as [Et Ed]; [rewrite <- (wf_pad p Hp); lia|lia|].
    split_and!; [done|change (length (rx_bhs (rxe y)) = 48%nat); rewrite Hkb by done; apply Hp|]. exists ps, more. split; [done|]. exact Ed.
Qed.

(** *** Cutting the buffer of a call *)

Lemma step_stops a (x y : sys) :
  cuttable x -> deliver_step a x = ((Ok tt, y), None) -> Z.of_nat (length a) < (rx_fragment (rxe x)).1.2 - rx_offset (rxe x).
Proof.
  intros Hc E. destruct (rx_fragment (rxe x)) as [[rx len] next] eqn:Hf. rewrite (deliver_step_eq _ _ rx len next) in E by done. cbv zeta in E. cbn [fst snd].
  destruct (rx _ _ _) as [[[]|] z]; [|done]. case_decide; [done|]. lia.
Qed.

Lemma step_error a (x y : sys) rc o : deliver_step a x = ((Err rc, y), o) -> o = None.
Proof. unfold deliver_step. destruct (rx_fragment _) as [[rx len] next]. cbv zeta. destruct (rx _ _ _) as [[[]|] z]; [|by intros [= _ _ <-]]. by case_decide. Qed.

Lemma deliver_loop_cut fuel a b (x : sys) r y :
  at_pdu (a ++ b) x -> deliver_loop fuel (a ++ b) x = Some (r, y) ->
  (exists rc, r = Err rc /\ deliver_loop fuel a x = Some (Err rc, y)) \/
  (exists x1 y1, deliver_loop fuel a x = Some (Ok tt, x1) /\ deliver_loop fuel b x1 = Some (r, y1) /\ if is_Ok r then y1 = y else same_but_rx y1 y).
Proof.
  revert a x. induction fuel as [|fuel IH]; intros a x Hp E; [done|]. pose proof (at_pdu_cuttable _ _ Hp) as Hc.
  destruct (decide ((rx_fragment (rxe x)).1.2 - rx_offset (rxe x) <= Z.of_nat (length a))) as [Hle|Hgt].
  - pose proof (step_whole a b x Hc Hle) as Hs. cbn [deliver_loop] in E |- *. destruct (deliver_step a x) as [[r1 x1] [rest|]] eqn:Ea; cbn [fst snd fmap option_fmap option_map] in Hs; rewrite Hs in E; cbn [snd] in E.
    + pose proof (at_pdu_step _ _ _ _ Hp Hs) as Hp1. cbn [snd] in Hp1. destruct (IH rest x1 Hp1 E) as [(rc & -> & E1)|(x2 & y1 & E1 & E2 & E3)]; [left; by exists rc|].
      right. exists x2, y1. split_and!; [done| |done]. change (deliver_loop (S fuel) b x2 = Some (r, y1)). apply (deliver_loop_mono fuel); [done|lia].
    + injection E as <- <-. destruct r1 as [[]|rc]; [|left; by exists rc].
      exfalso. pose proof (step_stops a x x1 Hc Ea). lia.
  - pose proof (step_cut a b x Hc ltac:(lia)) as Hs. cbn [deliver_loop] in E |- *. destruct (deliver_step a x) as [[[[]|rc] x1] o].
    + destruct Hs as [-> Hs]. right. exists x1. unfold similar in Hs. destruct (deliver_step (a ++ b) x) as [[r2 y2] o2] eqn:Eab, (deliver_step b x1) as [[r1 y1] o1]. cbn [fst snd] in Hs. destruct Hs as (-> & -> & Hs).
      destruct o2 as [rest|]; [|injection E as <- <-; by exists y1].
      destruct r2 as [[]|]; cbn [is_Ok] in Hs.
      * subst y1. exists y. split_and!; [done|done|]. by destruct (is_Ok r).
      * by apply step_error in Eab.
    + destruct Hs as [-> Hs]. rewrite Hs in E. injection E as <- <-. left. by exists rc.
Qed.

(** ** Receiving a stream *)

(** What a PDU means: its data segment is received as a whole. *)
Definition handle_pdu (p : pdu) (x : sys) : result unit * sys :=
  match iscsi_rx_data (p_data p) 0 (map_rx (fun r => Rx (p_bhs p) ISCSI_RX_DATA 0 (ISCSI_DATA_LEN (p_bhs p)) (rx_buffer r)) x) with
  | (Ok _, y) => (Ok tt, map_rx (fun r => Rx (rx_bhs r) ISCSI_RX_BHS 0 48 (rx_buffer r)) y)
  | (Err rc, y) => (Err rc, y)
  end.

Fixpoint handle_pdus (ps : list pdu) (x : sys) : result unit * sys :=
  match ps with
  | [] => (Ok tt, x)
  | p :: ps =>
    match handle_pdu p x with
    | (Ok _, x) => handle_pdus ps x
    | (Err rc, x) => (Err rc, x)
    end
  end.

(** Between two PDUs. *)
Definition boundary (x : sys) : Prop :=
  rx_state (rxe x) = ISCSI_RX_BHS /\ rx_offset (rxe x) = 0 /\ length (rx_bhs (rxe x)) = 48%nat.

Lemma loop_nil fuel (x : sys) r : boundary x -> deliver_loop fuel [] x = Some r -> r = (Ok tt, map_rx (set_rx_len 48) x).
Proof.
  intros (Hst & Ho & Hb). destruct fuel as [|fuel]; [done|]. cbn [deliver_loop].
  assert (cuttable x) as Hc by (unfold cuttable, rx_fragment; rewrite Hst, Ho; done).
  rewrite (deliver_step_eq _ x iscsi_rx_bhs 48 ISCSI_RX_AHS) by (done || unfold rx_fragment; by rewrite Hst). cbv zeta. rewrite Ho. cbn [length Z.of_nat Z.min take]. unfold iscsi_rx_bhs.
  change (rx_offset (rxe (map_rx (set_rx_len 48) x))) with (rx_offset (rxe x)). rewrite Ho. cbv zeta. rewrite decide_False by done. rewrite decide_False by done. intros [= <-]. f_equal.
  destruct x as [[? ? ? ? ? ? ? ? [] ? ? ? ?] ? ? ?]. cbn in Ho. subst. done.
Qed.

Lemma cuttable_intro (x : sys) rx len next :
  rx_fragment (rxe x) = (rx, len, next) -> rx_offset (rxe x) = 0 -> 0 <= len < 2 ^ 64 -> (rx_state (rxe x) = ISCSI_RX_DATA -> header_ok (rx_bhs (rxe x))) -> cuttable x.
Proof. intros Hf Ho Hl Hh. unfold cuttable. rewrite Hf, Ho. cbn [fst snd]. split_and!; (done || lia). Qed.

Lemma loop_headers fuel p t (x : sys) :
  boundary x -> pdu_wf p ->
  deliver_loop (S (S fuel)) (p_bhs p ++ p_ahs p ++ t) x
  = deliver_loop fuel t (map_rx (fun r => Rx (p_bhs p) ISCSI_RX_DATA 0 (4 * ISCSI_AHS_LEN (p_bhs p)) (rx_buffer r)) x).
Proof.
  intros (Hst & Ho & Hb) Hp. pose proof (fragment_range p Hp) as Hr. cbn [deliver_loop].
  rewrite (step_complete (p_bhs p) _ x iscsi_rx_bhs 48 ISCSI_RX_AHS); [|unfold cuttable, rx_fragment; rewrite Hst, Ho; done|unfold rx_fragment; by rewrite Hst|done|by rewrite (wf_bhs p Hp)].
  rewrite rx_bhs_complete by done. rewrite restart_advance. cbn [snd]. set (x1 := restart ISCSI_RX_AHS _).
  assert (rx_fragment (rxe x1) = (iscsi_rx_discard, 4 * ISCSI_AHS_LEN (p_bhs p), ISCSI_RX_DATA)) as Hf by reflexivity.
  rewrite (step_complete (p_ahs p) t x1 _ _ _ (cuttable_intro x1 _ _ _ Hf eq_refl ltac:(lia) ltac:(done)) Hf eq_refl (wf_ahs p Hp)). reflexivity.
Qed.

Lemma loop_segment fuel p t (x : sys) l b :
  rxe x = Rx (p_bhs p) ISCSI_RX_DATA 0 l b -> pdu_wf p ->
  deliver_loop (S (S fuel)) (p_data p ++ p_pad p ++ t) x
  = match iscsi_rx_data (p_data p) 0 (map_rx (set_rx_len (ISCSI_DATA_LEN (p_bhs p))) x) with
    | (Ok _, y) => deliver_loop fuel t (map_rx (fun r => Rx (rx_bhs r) ISCSI_RX_BHS 0 (ISCSI_DATA_PAD_LEN (p_bhs p)) (rx_buffer r)) y)
    | (Err rc, y) => Some (Err rc, y)
    end.
Proof.
  intros Hx Hp. pose proof (fragment_range p Hp) as Hr. cbn [deliver_loop].
  assert (rx_fragment (rxe x) = (iscsi_rx_data, ISCSI_DATA_LEN (p_bhs p), ISCSI_RX_DATA_PADDING)) as Hf by by rewrite Hx.
  assert (cuttable x) as Hc by (eapply cuttable_intro; [exact Hf|by rewrite Hx|lia|rewrite Hx; intros _; apply Hp]).
  rewrite (step_complete (p_data p) _ x _ _ _ Hc Hf) by (by rewrite Hx || apply Hp).
  pose proof (rx_keeps (p_data p) 0 x Hc) as Hk. rewrite Hf in Hk. destruct (iscsi_rx_data (p_data p) 0 _) as [[[]|rc] y]; [|done]. cbn [snd] in Hk.
  destruct Hk as (_ & _ & _ & Hkb). rewrite Hx in Hkb. specialize (Hkb ltac:(done)). cbn [rx_bhs] in Hkb. rewrite restart_advance. cbn [snd].
  assert (rx_fragment (rxe (restart ISCSI_RX_DATA_PADDING y)) = (iscsi_rx_discard, ISCSI_DATA_PAD_LEN (p_bhs p), ISCSI_RX_BHS)) as Hf3 by (rewrite <- Hkb; reflexivity).
  rewrite (step_complete (p_pad p) t _ _ _ _ (cuttable_intro _ _ _ _ Hf3 eq_refl ltac:(lia) ltac:(done)) Hf3 eq_refl (wf_pad p Hp)). reflexivity.
Qed.

Lemma segment_bhs p (x : sys) l b y r :
  rxe x = Rx (p_bhs p) ISCSI_RX_DATA 0 l b -> pdu_wf p -> iscsi_rx_data (p_data p) 0 x = (r, y) -> rx_bhs (rxe y) = p_bhs p.
Proof.
  intros Hx Hp E. rewrite rx_data_handler in E by (rewrite Hx; apply Hp). rewrite Hx in E. cbn [rx_bhs] in E.
  destruct (segment_rx (p_bhs p) (p_data p) 0 (numbered x)) as [b' Hb]. rewrite E in Hb. cbn [snd] in Hb. rewrite Hb. cbn [rx_bhs set_rx_buffer].
  change (rx_bhs (rxe (numbered x))) with (rx_bhs (rxe x)). by rewrite Hx.
Qed.

Lemma loop_stream fuel ps (x : sys) r :
  boundary x -> Forall pdu_wf ps -> deliver_loop fuel (stream ps) x = Some r -> r = handle_pdus ps (map_rx (set_rx_len 48) x).
Proof.
  intros Hx Hps. revert fuel x Hx. induction Hps as [|p ps Hp Hps IH]; intros fuel x Hx E; [by apply (loop_nil fuel)|].
  change (stream (p :: ps)) with (pdu_bytes p ++ stream ps) in E. unfold pdu_bytes, pdu_tail in E. rewrite <- !app_assoc in E.
  apply (deliver_loop_mono _ (S (S (S (S fuel))))) in E; [|lia]. rewrite loop_headers in E by done.
  erewrite loop_segment in E by (reflexivity || done). cbn [handle_pdus]. unfold handle_pdu.
  set (x2 := map_rx (set_rx_len (ISCSI_DATA_LEN (p_bhs p))) _) in E.
  change (map_rx (fun r => Rx (p_bhs p) ISCSI_RX_DATA 0 (ISCSI_DATA_LEN (p_bhs p)) (rx_buffer r)) (map_rx (set_rx_len 48) x)) with x2.
  destruct (iscsi_rx_data (p_data p) 0 x2) as [[[]|rc] y] eqn:Ed; [|by injection E].
  pose proof (segment_bhs p x2 _ _ _ _ eq_refl Hp Ed) as Hb.
  apply IH in E; [exact E|]. split_and!; [done|done|]. change (length (rx_bhs (rxe y)) = 48%nat). rewrite Hb. apply Hp.
Qed.

(** The calls for the segments of the stream, until one fails; the fuel of a
    call is enough for its buffer ([deliver_loop_total]). *)
Fixpoint receive (chunks : list (list Z)) (x : sys) : option (result unit * sys) :=
  match chunks with
  | [] => Some (Ok tt, x)
  | c :: chunks =>
    match iscsi_socket_deliver (4 * length c + 6) c x with
    | Some (Ok _, x) => receive chunks x
    | r => r
    end
  end.

Definition handle_stream (ps : list pdu) (x : sys) : result unit * sys :=
  match handle_pdus ps x with
  | (Ok _, x) => (Ok tt, x)
  | (Err rc, x) => (Err rc, iscsi_close (Err rc) x)
  end.

Lemma deliver_loop_agree fuel fuel' iobuf (x : sys) r r' :
  deliver_loop fuel iobuf x = Some r -> deliver_loop fuel' iobuf x = Some r' -> r = r'.
Proof.
  intros E E'. apply (deliver_loop_mono _ (fuel + fuel')) in E; [|lia]. apply (deliver_loop_mono _ (fuel + fuel')) in E'; [|lia]. congruence.
Qed.

Lemma same_but_rx_close rc (x y : sys) : same_but_rx x y -> same_but_rx (iscsi_close rc x) (iscsi_close rc y).
Proof. intros Hs r. by rewrite <- !iscsi_close_framed, Hs. Qed.

Lemma receive_app cs c (x : sys) :
  receive (cs ++ [c]) x = match receive cs x with
                          | Some (Ok _, y) => receive [c] y
                          | r => r
                          end.
Proof.
  revert x. induction cs as [|d cs IH]; intros x; [done|]. cbn [app receive].
  destruct (iscsi_socket_deliver _ d x) as [[[[]|] y]|]; [apply IH|done..].
Qed.

(** One call for the whole buffer, or one for each part. *)
Lemma receive_cut cs (x : sys) fuel r y :
  cs <> [] -> at_pdu (concat cs) x -> deliver_loop fuel (concat cs) x = Some (r, y) ->
  exists y', receive cs x = Some (r, y') /\ match r with Ok _ => y' = y | Err rc => same_but_rx y' (iscsi_close (Err rc) y) end.
Proof.
  revert fuel r y. induction cs as [|c cs IH] using rev_ind; intros fuel r y Hne Hp E; [done|]. clear Hne. rewrite concat_app in E, Hp. cbn [concat] in E, Hp. rewrite app_nil_r in E, Hp.
  assert (forall z r y1, deliver_loop fuel c z = Some (r, y1) -> exists y', receive [c] z = Some (r, y') /\ y' = match r with Ok _ => y1 | Err rc => iscsi_close (Err rc) y1 end) as Hone.
  { intros z r1 y1 E1. cbn [receive]. unfold iscsi_socket_deliver. destruct (deliver_loop_total (4 * length c + 6) c z (Nat.le_refl _)) as [s Es]. rewrite Es.
    pose proof (deliver_loop_agree _ _ _ _ _ _ E1 Es) as <-. destruct r1 as [[]|]; by eexists. }
  rewrite receive_app. destruct (decide (cs = [])) as [->|Hne].
  - cbn [concat app receive] in E |- *. destruct (Hone x r y E) as (y' & Ey & ->). cbn [receive] in Ey. exists (match r with Ok _ => y | Err rc => iscsi_close (Err rc) y end). split; [exact Ey|].
    destruct r; [done|]. by intros ?.
  - destruct (deliver_loop_cut fuel _ _ _ _ _ Hp E) as [(rc & -> & E1)|(x1 & y1 & E1 & E2 & E3)].
    + destruct (IH fuel (Err rc) y Hne (at_pdu_prefix _ _ _ Hp) E1) as (y' & -> & Hy'). by exists y'.
    + destruct (IH fuel (Ok tt) x1 Hne (at_pdu_prefix _ _ _ Hp) E1) as (y' & -> & ->). destruct (Hone x1 r y1 E2) as (y2 & -> & ->). eexists. split; [done|].
      destruct r as [[]|rc]; [done|]. by apply same_but_rx_close.
Qed.

Lemma receive_stream chunks ps (x : sys) :
  boundary x -> Forall pdu_wf ps -> chunks <> [] -> concat chunks = stream ps ->
  exists r y, receive chunks x = Some (r, y) /\ r = (handle_stream ps (map_rx (set_rx_len 48) x)).1 /\
    let y' := (handle_stream ps (map_rx (set_rx_len 48) x)).2 in if is_Ok r then y = y' else same_but_rx y y'.
Proof.
  intros Hx Hps Hne Hc. assert (at_pdu (concat chunks) x) as Hp.
  { destruct Hx as (Hst & Ho & Hb). split_and!; [done|done|]. exists ps, []. split; [done|]. rewrite Hst. by rewrite app_nil_r. }
  destruct (deliver_loop_total (4 * length (concat chunks) + 6) (concat chunks) x (Nat.le_refl _)) as [[r y] E].
  destruct (receive_cut chunks x _ r y Hne Hp E) as (y' & Ey & Hy'). exists r, y'. split; [done|].
  rewrite Hc in E. apply loop_stream in E; [|done|done]. unfold handle_stream. rewrite <- E. by destruct r as [[]|rc].
Qed.

(** C5: however a stream of PDUs is cut into segments, receiving the segments,
    from a session that is between two PDUs, is handling the PDUs one after the
    other, up to the first error, which closes the session; every call returns.
    The PDUs are well-formed, an R2T has no data, and a login response is no
    redirection: for these the statement does not hold, since their handlers
    act on each segment ([iscsi_redirect_overrun] in IscsiOpen). *)
Theorem iscsi_rx_stream chunks ps (x : sys) :
  boundary x -> Forall pdu_wf ps -> chunks <> [] -> concat chunks = stream ps ->
  exists r y, receive chunks x = Some (r, y) /\ r = (handle_stream ps (map_rx (set_rx_len 48) x)).1 /\
    let y' := (handle_stream ps (map_rx (set_rx_len 48) x)).2 in if is_Ok r then y = y' else same_but_rx y y'.
Proof. apply receive_stream. Qed.

End rx.

(** A header with the given opcode, flags, length of data (less than 256)
    and other fields. *)
Definition example_bhs (opcode flags len : Z) (fields : list (nat * list Z)) : list Z :=
  foldl (fun b '(o, l) => list_inserts o l b) ([opcode; flags; 0; 0; 0; 0; 0; len] ++ replicate 40 0) fields.

(** A NOP-In with five bytes of data, in two segments. *)
Lemma iscsi_rx_stream_witness :
  let p := Pdu (example_bhs 32 128 5 []) [] [1; 2; 3; 4; 5] [0; 0; 0] in
  exists r y, receive (H := example_env) (H0 := example_upper) [take 50 (stream [p]); drop 50 (stream [p])] (Sys (example_session 12 None None None) (fun _ => 0) [] tt) = Some (r, y) /\ r = Ok tt.
Proof.
  intros p. destruct (iscsi_rx_stream (H := example_env) (H0 := example_upper) [take 50 (stream [p]); drop 50 (stream [p])] [p] (Sys (example_session 12 None None None) (fun _ => 0) [] tt)) as (r & y & E1 & E2 & _).
  - split_and!; reflexivity.
  - apply Forall_singleton. constructor; [reflexivity|apply (bool_decide_unpack _); vm_compute; exact I|reflexivity..|split; intros E; vm_compute in E; discriminate E].
  - discriminate.
  - reflexivity.
  - exists r, y. split; [exact E1|]. rewrite E2. reflexivity.
Defined.
