(* ===== verification/IscsiRead.v ===== *)
(** * Reading blocks over iSCSI (net/tcp/iscsi.c, drivers/block/scsi.c)

    The SCSI device of Scsi above the session of Iscsi: a block read becomes
    a command PDU, and the Data-In PDUs and the response of the target, cut
    into any segments, fill the buffer and complete the read
    ([iscsi_read_correct]). *)

From stdpp Require Import gmap.
From S2P Require Import Prelude CMem Strings Vsprintf Encoding Scsi Iscsi IscsiRx.

(** The device is the upper layer of the session; the private data of TEST
    UNIT READY are not used. *)
#[export] Instance scsi_upper : ScsiUpper scsi_device := {|
  up_response := command_response;
  up_closed := command_closed;
  up_window_changed := control_window_changed (Some 0);
  up_control_closed := control_closed;
|}.

(** The heap gives out blocks of the requested size. *)
Class HeapOk (W : Type) `{IscsiEnv W} := heap_ok : forall n w, exists b w', heap_alloc n w = (Some b, w') /\ Z.of_nat (length b) = Z.max 0 n.

Section read.
Context {W : Type} `{HeapOk W}.
Abbreviation sys := (@sys W scsi_device).
Abbreviation rxe x := (s_rx (ses x)).

(** ** Data-In *)

(** A Data-In PDU with the bytes of [D] at its offset; [st]: it also has the
    (good) status of the command. *)
Record data_in_pdu (st : bool) (D : list Z) (p : pdu) : Prop := {
  di_wf : pdu_wf p;
  di_opcode : opcode_of (p_bhs p) = ISCSI_OPCODE_DATA_IN;
  di_status : bool_decide (Z.land (get8 (p_bhs p) 1) ISCSI_DATA_FLAG_STATUS <> 0) = st;
  di_slice : exists l2, drop (Z.to_nat (get32 (p_bhs p) 40)) D = p_data p ++ l2;
  di_offset : 0 <= get32 (p_bhs p) 40 <= Z.of_nat (length D);
}.

(** The part of the buffer that a PDU fills. *)
Definition covers (p : pdu) (j : Z) : Prop := get32 (p_bhs p) 40 <= j < get32 (p_bhs p) 40 + Z.of_nat (length (p_data p)).

(** Changes of the receive engine, of the sequence numbers and of the memory. *)
Definition received (r : rx_engine) (n : numbers) (m : mem) (x : sys) : sys := set_umem m (on_ses (fun s => set_s_num n (set_s_rx r s)) x).

Definition next_numbers (bhs : list Z) (n : numbers) : numbers := set_statsn (get32 bhs 24) (set_cmdsn (get32 bhs 28) n).

Lemma handle_data_in D p (x : sys) c :
  data_in_pdu false D p -> s_command (ses x) = Some c -> data_in_len c = Z.of_nat (length D) ->
  handle_pdu p x = (Ok tt, received (Rx (p_bhs p) ISCSI_RX_BHS 0 48 (rx_buffer (rxe x))) (next_numbers (p_bhs p) (s_num (ses x)))
                            (memcpy (umem x) (data_in c + get32 (p_bhs p) 40) (p_data p)) x).
Proof.
  intros [Hwf Hop Hst [l2 Hs] Ho] Hc Hl. unfold handle_pdu. rewrite rx_data_handler by apply Hwf. set (x1 := map_rx _ x). change (rx_bhs (rxe x1)) with (p_bhs p).
  unfold segment_handler. rewrite Hop. rewrite decide_False by done. rewrite decide_False by done. rewrite decide_True by done.
  unfold iscsi_rx_data_in. change (s_command (ses (numbered x1))) with (s_command (ses x)). rewrite Hc.
  change (rx_bhs (rxe (numbered x1))) with (p_bhs p). change (rx_offset (rxe (numbered x1))) with 0. rewrite Z.add_0_r. rewrite (decide_False (P := 0 <> 0)) by (intros E; by apply E).
  rewrite (decide_False (P := data_in_len c < _)).
  2:{ apply (f_equal length) in Hs. rewrite length_drop, length_app in Hs. lia. }
  apply bool_decide_eq_false in Hst. rewrite decide_False by exact Hst. reflexivity.
Qed.

(** The engine between two PDUs, with nothing buffered. *)
Definition idle_rx (r : rx_engine) : Prop :=
  rx_state r = ISCSI_RX_BHS /\ rx_offset r = 0 /\ rx_len r = 48 /\ rx_buffer r = None /\ length (rx_bhs r) = 48%nat.

(** The bytes of [D] that are in the buffer at [a]. *)
Definition holds (D : list Z) (a : Z) (m : mem) (j : Z) : Prop := m (a + j) = nth (Z.to_nat j) D 0.

Lemma memcpy_slice st D p a (m : mem) j :
  data_in_pdu st D p -> 0 <= j -> holds D a m j \/ covers p j -> holds D a (memcpy m (a + get32 (p_bhs p) 40) (p_data p)) j.
Proof.
  intros [_ _ _ [l2 Hs] Ho] Hj Hh. unfold holds, memcpy, covers in *. case_decide as Hd; [|destruct Hh; [done|lia]].
  set (o := get32 (p_bhs p) 40) in *. replace (Z.to_nat (a + j - (a + o))) with (Z.to_nat j - Z.to_nat o)%nat by lia.
  replace (Z.to_nat j) with (Z.to_nat o + (Z.to_nat j - Z.to_nat o))%nat at 2 by lia. rewrite <- nth_skipn. change (skipn (Z.to_nat o) D) with (drop (Z.to_nat o) D). rewrite Hs. rewrite app_nth1 by lia. done.
Qed.

Lemma handle_data_ins D ps (x : sys) c :
  Forall (data_in_pdu false D) ps -> s_command (ses x) = Some c -> data_in_len c = Z.of_nat (length D) -> idle_rx (rxe x) ->
  exists r n m, handle_pdus ps x = (Ok tt, received r n m x) /\ idle_rx r /\ itt n = itt (s_num (ses x)) /\
    (forall j, 0 <= j -> holds D (data_in c) (umem x) j \/ Exists (fun p => covers p j) ps -> holds D (data_in c) m j).
Proof.
  intros Hps Hc Hl. revert x Hc. induction Hps as [|p ps Hp Hps IH]; intros x Hc Hr.
  - exists (rxe x), (s_num (ses x)), (umem x). split_and!; [by destruct x as [[] ? ? ?]|done|done|]. intros j _ [Hj|Hj]; [done|by apply Exists_nil in Hj].
  - cbn [handle_pdus]. rewrite (handle_data_in D p x c) by done. set (x1 := received _ _ _ x).
    destruct (IH x1) as (r & n & m & E & Hr' & Hn & Hm); [done|split_and!; [done|done|done|apply Hr|apply Hp]|].
    exists r, n, m. split_and!; [rewrite E; done|done|by rewrite Hn|]. intros j Hj Hh. apply Hm; [done|].
    rewrite Exists_cons in Hh. destruct Hh as [Hh|[Hh|Hh]]; [left; apply (memcpy_slice false D p); auto..|by right].
Qed.

(** ** Completion *)

(** The device with a command in flight for the user [p] of the block device. *)
Record in_flight (d : scsi_device) (c : scsi_command) (p : nat) : Prop := {
  if_fresh : fresh_device d;
  if_refs : sd_refs d !! sd_next d = None;
  if_id : sc_id c = sd_next d;
  if_type : sc_type c = scsicmd_read \/ sc_type c = scsicmd_write;
  if_scsi : sc_scsi c = true;
  if_block : sc_block c = true;
  if_parent : sc_parent c = ParentBlock p;
}.

Definition busy (d : scsi_device) (c : scsi_command) (lg : list block_event) : scsi_device := dev d (c :: sd_cmds d) (<[sd_next d := 2]> (sd_refs d)) lg.
Definition finished (d : scsi_device) (lg : list block_event) : scsi_device := dev d (sd_cmds d) (sd_refs d) lg.

Lemma scsicmd_done_act m d c p lg rc :
  in_flight d c p ->
  exists d1 k, scsicmd_done m c rc (busy d c lg) Done = CloseCommand (sd_next d) rc d1 k /\ k d1 = Done (finished d (lg ++ [BlockClosed p rc])).
Proof.
  intros [Hf Hr Hi Ht Hs Hb Hp]. unfold scsicmd_done, busy. rewrite Hs, Hi. eexists _, _. split; [reflexivity|]. cbv beta.
  rewrite dev_on by done. rewrite dev_put by (done || lia). rewrite dev_find by done. change (2 - 1) with 1.
  assert (type_done m (with_scsi false c) rc = scsicmd_close (with_scsi false c) rc) as -> by (unfold type_done; cbn; destruct Ht as [-> | ->]; done).
  unfold scsicmd_close, close_with, shut_scsi, shut_block. cbn [with_scsi sc_scsi sc_block sc_parent sc_id]. rewrite Hb, Hp, Hi. rewrite dev_del by done.
  change (with_log ?e (dev ?d ?l ?r ?g)) with (dev d l r (g ++ [e])). rewrite dev_put by lia. change (1 - 1) with 0. by rewrite dev_free.
Qed.

(** The session once the command of its device is complete. *)
Definition completed (d : scsi_device) (lg : list block_event) (x : sys) : sys :=
  set_upper (finished d lg) (on_ses (fun s => set_s_data None (set_s_command None s)) x).

Lemma close_command_run d c p lg m rc (x : sys) rc' :
  in_flight d c p -> s_command (ses x) = None -> s_data (ses x) = Some (sd_next d) ->
  run (scsicmd_done m c rc (busy d c lg) Done) (set_upper rc' x)
  = set_upper (finished d (lg ++ [BlockClosed p rc])) (on_ses (set_s_data None) x).
Proof.
  intros Hd Hc Hi. destruct (scsicmd_done_act m d c p lg rc Hd) as (d1 & k & -> & Hk). cbn [run].
  change (s_data (ses (set_upper d1 (set_upper rc' x)))) with (s_data (ses x)). rewrite decide_True by done.
  assert (iscsi_command_close rc (set_upper d1 (set_upper rc' x)) = set_upper d1 (on_ses (set_s_data None) x)) as ->.
  { unfold iscsi_command_close. rewrite bool_decide_true; [done|exact Hc]. }
  change (upper (set_upper d1 (on_ses (set_s_data None) x))) with d1. rewrite Hk. done.
Qed.

(** A response completes the command with the result of its status. *)
Definition status_rc (st : Z) : result unit := if decide (st = 0) then Ok tt else Err EIO.

Lemma scsi_done_response d c p lg rsp (x : sys) :
  in_flight d c p -> s_data (ses x) = Some (sd_next d) -> upper x = busy d c lg ->
  iscsi_scsi_done (Ok tt) (Some rsp) x = completed d (lg ++ [BlockClosed p (status_rc (status rsp))]) x.
Proof.
  intros Hd Hi Hu. unfold iscsi_scsi_done. set (x1 := on_ses (set_s_command None) x). change (s_data (ses x1)) with (s_data (ses x)). rewrite Hi.
  assert (run (up_response (umem x1) (sd_next d) rsp (upper x1)) x1 = completed d (lg ++ [BlockClosed p (status_rc (status rsp))]) x) as ->.
  { change (upper x1) with (upper x). rewrite Hu. cbn [up_response scsi_upper]. unfold command_response, busy. rewrite dev_find by apply Hd. rewrite (if_scsi _ _ _ Hd).
    unfold scsicmd_response. change (dev d (c :: sd_cmds d) (<[sd_next d := 2]> (sd_refs d)) lg) with (busy d c lg).
    assert ((if decide (status rsp = 0) then scsicmd_done (umem x1) c (Ok tt) (busy d c lg) Done else scsicmd_done (umem x1) c (Err EIO) (busy d c lg) Done)
            = scsicmd_done (umem x1) c (status_rc (status rsp)) (busy d c lg) Done) as -> by (unfold status_rc; by case_decide).
    assert (x1 = set_upper (upper x1) x1) as -> by by destruct x1. by rewrite (close_command_run d c p). }
  cbn [completed set_upper on_ses ses s_num set_s_data set_s_command s_data]. rewrite decide_True by done. done.
Qed.

(** So does the end of the data with the status in the last PDU. *)
Lemma scsi_done_status d c p lg (x : sys) :
  in_flight d c p -> s_data (ses x) = Some (sd_next d) -> upper x = busy d c lg ->
  iscsi_scsi_done (Ok tt) None x = completed d (lg ++ [BlockClosed p (Ok tt)]) x.
Proof.
  intros Hd Hi Hu. unfold iscsi_scsi_done. rewrite decide_True by done. unfold restart_data. set (x1 := on_ses (set_s_command None) x).
  change (s_data (ses x1)) with (s_data (ses x)). rewrite Hi. change (upper (on_ses _ x1)) with (upper x). rewrite Hu. cbn [up_closed scsi_upper]. unfold command_closed, busy. rewrite dev_find by apply Hd. rewrite (if_scsi _ _ _ Hd).
  change (dev d (c :: sd_cmds d) (<[sd_next d := 2]> (sd_refs d)) lg) with (busy d c lg).
  destruct (scsicmd_done_act (umem (on_ses (set_s_data None) x1)) d c p lg (Ok tt) Hd) as (d1 & k & -> & Hk). cbn [run].
  rewrite decide_False by done. change (upper (set_upper d1 _)) with d1. rewrite Hk. done.
Qed.

(** ** The response *)

Record response_pdu (st : Z) (q : pdu) : Prop := {
  rp_wf : pdu_wf q;
  rp_opcode : opcode_of (p_bhs q) = ISCSI_OPCODE_SCSI_RESPONSE;
  rp_complete : get8 (p_bhs q) 2 = ISCSI_RESPONSE_COMMAND_COMPLETE;
  rp_status : get8 (p_bhs q) 3 = st;
  rp_sense : ISCSI_DATA_LEN (p_bhs q) <> 1;
}.

Lemma handle_response d c p lg st q (x : sys) :
  response_pdu st q -> in_flight d c p -> s_data (ses x) = Some (sd_next d) -> upper x = busy d c lg -> rx_buffer (rxe x) = None ->
  exists n w, itt n = itt (s_num (ses x)) /\
    handle_pdu q x = (Ok tt, set_world w (completed d (lg ++ [BlockClosed p (status_rc st)]) (received (Rx (p_bhs q) ISCSI_RX_BHS 0 48 None) n (umem x) x))).
Proof.
  intros [Hwf Hop Hco Hst Hse] Hd Hi Hu Hb. unfold handle_pdu. rewrite rx_data_handler by apply Hwf. set (x1 := map_rx _ x). change (rx_bhs (rxe x1)) with (p_bhs q).
  unfold segment_handler. rewrite Hop. rewrite decide_False by done. rewrite decide_True by done. unfold buffered_then, iscsi_rx_buffered_data.
  change (rx_buffer (rxe (numbered x1))) with (rx_buffer (rxe x)). rewrite Hb. unfold malloc. change (rx_len (rxe (numbered x1))) with (ISCSI_DATA_LEN (p_bhs q)).
  change (world (numbered x1)) with (world x). destruct (heap_ok (ISCSI_DATA_LEN (p_bhs q)) (world x)) as (b & w & -> & Hlen).
  pose proof (fragment_range q Hwf) as (_ & Hr & _). change (rx_offset (rxe (set_world w (numbered x1)))) with 0. rewrite Z.add_0_l.
  rewrite (decide_False (P := Z.of_nat (length b) < _)) by (rewrite Hlen, (wf_data q Hwf); lia). rewrite decide_False by (intros E; by apply E).
  unfold response_finish. set (x2 := on_ses _ (set_world w (numbered x1))). change (rx_bhs (rxe x2)) with (p_bhs q). rewrite Hco. rewrite (decide_False (P := ISCSI_DATA_LEN _ = 1)) by done.
  rewrite decide_False by (intros E; by apply E). rewrite (scsi_done_response d c p lg) by done.
  assert (status (response_of (p_bhs q) (default [] (rx_buffer (rxe x2)))) = st) as -> by exact Hst.
  exists (next_numbers (p_bhs q) (s_num (ses x))), w. split; [done|]. reflexivity.
Qed.

(** The last Data-In PDU stores its data and completes the command. *)
Lemma handle_final_data D d c p lg cmd q (x : sys) :
  data_in_pdu true D q -> s_command (ses x) = Some cmd -> data_in_len cmd = Z.of_nat (length D) -> in_flight d c p -> s_data (ses x) = Some (sd_next d) -> upper x = busy d c lg ->
  handle_pdu q x = (Ok tt, completed d (lg ++ [BlockClosed p (Ok tt)]) (received (Rx (p_bhs q) ISCSI_RX_BHS 0 48 (rx_buffer (rxe x))) (next_numbers (p_bhs q) (s_num (ses x)))
                            (memcpy (umem x) (data_in cmd + get32 (p_bhs q) 40) (p_data q)) x)).
Proof.
  intros [Hwf Hop Hst [l2 Hs] Ho] Hc Hl Hd Hi Hu. unfold handle_pdu. rewrite rx_data_handler by apply Hwf. set (x1 := map_rx _ x). change (rx_bhs (rxe x1)) with (p_bhs q).
  unfold segment_handler. rewrite Hop. rewrite decide_False by done. rewrite decide_False by done. rewrite decide_True by done.
  unfold iscsi_rx_data_in. change (s_command (ses (numbered x1))) with (s_command (ses x)). rewrite Hc.
  change (rx_bhs (rxe (numbered x1))) with (p_bhs q). change (rx_offset (rxe (numbered x1))) with 0. rewrite Z.add_0_r. rewrite (decide_False (P := 0 <> 0)) by (intros E; by apply E).
  rewrite (decide_False (P := data_in_len cmd < _)).
  2:{ apply (f_equal length) in Hs. rewrite length_drop, length_app in Hs. lia. }
  apply bool_decide_eq_true in Hst. rewrite decide_True by exact Hst. rewrite (scsi_done_status d c p lg) by done. reflexivity.
Qed.

(** How a read ends: with a response, or with the status in the last Data-In
    PDU. *)
Inductive final_pdu (D : list Z) (q : pdu) : result unit -> Prop :=
| final_response st : response_pdu st q -> final_pdu D q (status_rc st)
| final_data : data_in_pdu true D q -> final_pdu D q (Ok tt).

(** The byte [j] is in a Data-In PDU. *)
Definition arrives (j : Z) (p : pdu) : Prop := opcode_of (p_bhs p) = ISCSI_OPCODE_DATA_IN /\ covers p j.

Lemma handle_final D d c p lg cmd q rc (x : sys) :
  final_pdu D q rc -> s_command (ses x) = Some cmd -> data_in_len cmd = Z.of_nat (length D) -> in_flight d c p -> s_data (ses x) = Some (sd_next d) -> upper x = busy d c lg -> rx_buffer (rxe x) = None ->
  exists n m w, handle_pdu q x = (Ok tt, set_world w (completed d (lg ++ [BlockClosed p rc]) (received (Rx (p_bhs q) ISCSI_RX_BHS 0 48 None) n m x))) /\
    (forall j, 0 <= j -> holds D (data_in cmd) (umem x) j \/ arrives j q -> holds D (data_in cmd) m j).
Proof.
  intros Hf Hc Hl Hd Hi Hu Hb. destruct Hf as [st Hq|Hq].
  - destruct (handle_response d c p lg st q x Hq Hd Hi Hu Hb) as (n & w & _ & ->). exists n, (umem x), w. split; [done|]. intros j Hj [Hh|[Ho _]]; [done|]. rewrite (rp_opcode _ _ Hq) in Ho. done.
  - rewrite (handle_final_data D d c p lg cmd q x Hq Hc Hl Hd Hi Hu), Hb. eexists _, _, (world x). split; [by destruct x|]. intros j Hj Hh. apply (memcpy_slice true D q); [done|done|]. destruct Hh as [Hh|[_ Hh]]; auto.
Qed.

Lemma handle_pdus_app ps qs (x : sys) :
  handle_pdus (ps ++ qs) x = match handle_pdus ps x with (Ok _, y) => handle_pdus qs y | (Err rc, y) => (Err rc, y) end.
Proof. revert x. induction ps as [|p ps IH]; intros x; [done|]. cbn [app handle_pdus]. destruct (handle_pdu p x) as [[]]; [apply IH|done]. Qed.

Lemma stream_chunks chunks ps q : Forall pdu_wf (ps ++ [q]) -> concat chunks = stream (ps ++ [q]) -> chunks <> [].
Proof.
  intros [_ [Hq _]%Forall_cons]%Forall_app Hc ->. apply (f_equal length) in Hc. unfold stream in Hc. rewrite map_app, concat_app, length_app in Hc. cbn [concat map] in Hc.
  unfold pdu_bytes in Hc. rewrite !length_app, (wf_bhs q Hq) in Hc. cbn in Hc. lia.
Qed.

Lemma mload_holds D a m : (forall j, 0 <= j < Z.of_nat (length D) -> holds D a m j) -> mload m a (length D) = D.
Proof.
  intros Hm. apply list_eq. intros i. destruct (decide (i < length D)%nat) as [Hi|Hi].
  - rewrite mload_lookup by done. rewrite Hm by lia. rewrite Nat2Z.id. destruct (nth_lookup_or_length D i 0) as [-> |]; [done|lia].
  - rewrite !lookup_ge_None_2; [done|lia|rewrite mload_length; lia].
Qed.

(** The Data-In PDUs and the last PDU for a read in flight, in any segments,
    complete it. *)
Lemma iscsi_read_completes D ps q chunks rc d c p lg cmd (x : sys) :
  Forall (data_in_pdu false D) ps -> final_pdu D q rc -> (forall j, 0 <= j < Z.of_nat (length D) -> Exists (arrives j) (ps ++ [q])) ->
  concat chunks = stream (ps ++ [q]) ->
  boundary x -> rx_buffer (rxe x) = None -> s_command (ses x) = Some cmd -> data_in_len cmd = Z.of_nat (length D) ->
  in_flight d c p -> s_data (ses x) = Some (sd_next d) -> upper x = busy d c lg ->
  exists y, receive chunks x = Some (Ok tt, y) /\ mload (umem y) (data_in cmd) (length D) = D /\
    upper y = finished d (lg ++ [BlockClosed p rc]) /\ s_fault (ses y) = s_fault (ses x) /\
    s_command (ses y) = None /\ s_status (ses y) = s_status (ses x) /\ s_closed (ses y) = s_closed (ses x) /\ boundary y.
Proof.
  intros Hps Hq Hcov Hch Hx Hb Hc Hl Hd Hi Hu. assert (pdu_wf q) as Hwq by (destruct Hq as [st Hq|Hq]; apply Hq).
  assert (Forall pdu_wf (ps ++ [q])) as Hwf.
  { apply Forall_app. split; [|by apply Forall_cons; split; [|]]. eapply Forall_impl; [exact Hps|]. intros p0 Hp0. apply Hp0. }
  destruct (receive_stream chunks (ps ++ [q]) x Hx Hwf) as (r & y & Hrec & Hr & Hy); [by eapply stream_chunks|done|].
  set (x0 := map_rx (set_rx_len 48) x) in *. destruct Hx as (Hst & Ho & Hbl).
  destruct (handle_data_ins D ps x0 cmd Hps Hc Hl) as (r1 & n & m & E1 & Hr1 & Hn & Hm); [done|].
  destruct (handle_final D d c p lg cmd q rc (received r1 n m x0) Hq Hc Hl Hd Hi Hu) as (n2 & m2 & w & E2 & Hm2); [apply Hr1|].
  assert (handle_stream (ps ++ [q]) x0 = (Ok tt, set_world w (completed d (lg ++ [BlockClosed p rc]) (received (Rx (p_bhs q) ISCSI_RX_BHS 0 48 None) n2 m2 x0)))) as Eh.
  { unfold handle_stream. rewrite handle_pdus_app, E1. cbn [handle_pdus]. rewrite E2. done. }
  rewrite Eh in Hr, Hy. cbn [fst snd] in Hr, Hy. subst r. cbn [is_Ok] in Hy. subst y. eexists. split; [exact Hrec|]. split.
  { apply (mload_holds D (data_in cmd) m2). intros j Hj. apply Hm2; [lia|]. specialize (Hcov j Hj). apply Exists_app in Hcov as [Hcov|Hcov]; [left|right].
    - apply Hm; [lia|]. right. eapply Exists_impl; [exact Hcov|]. by intros ? [].
    - apply Exists_cons in Hcov as [Hcov|Hcov]; [done|by apply Exists_nil in Hcov]. }
  split_and!; try done. split_and!; [done|done|]. apply (wf_bhs q), Hwq.
Qed.

(** ** The command *)

(** The header of a command PDU. *)
Definition command_bhs (flags itt_ len cmdsn_ statsn_ : Z) (l c : list Z) : list Z :=
  [1; flags; 0; 0; 0; 0; 0; 0] ++ l ++ be32 itt_ ++ be32 len ++ be32 cmdsn_ ++ be32 statsn_ ++ c.

Lemma start_command_bhs c s :
  length (lun c) = 8%nat -> length (cdb c) = 16%nat -> data_in c <> 0 -> data_out c = 0 -> data_out_len c = 0 ->
  tx_bhs (s_tx (iscsi_start_command c s)) = command_bhs 193 (itt (s_num s)) (data_in_len c) (cmdsn (s_num s)) (statsn (s_num s) + 1) (lun c) (cdb c).
Proof.
  intros Hl Hc Hi Ho Hol. unfold iscsi_start_command. rewrite (decide_True (P := data_in c <> 0)) by done. rewrite (decide_False (P := data_out c <> 0)) by (rewrite Ho; intros E; by apply E).
  rewrite Hol, Z.lor_0_r. change (Z.lor (Z.lor ISCSI_FLAG_FINAL ISCSI_COMMAND_ATTR_SIMPLE) ISCSI_COMMAND_FLAG_READ) with 193.
  destruct (list_8 _ Hl) as (l0 & l1 & l2 & l3 & l4 & l5 & l6 & l7 & ->).
  assert (exists a b, cdb c = a ++ b /\ length a = 8%nat /\ length b = 8%nat) as (ca & cb & -> & Ha & Hb).
  { exists (take 8 (cdb c)), (drop 8 (cdb c)). rewrite take_drop, length_take, length_drop, Hc. done. }
  destruct (list_8 _ Ha) as (a0 & a1 & a2 & a3 & a4 & a5 & a6 & a7 & ->). destruct (list_8 _ Hb) as (b0 & b1 & b2 & b3 & b4 & b5 & b6 & b7 & ->).
  reflexivity.
Qed.

(** The session after the device issued its command. *)
Lemma issue_run d (x : sys) ty priv p lba count buffer len :
  fresh_device d -> s_closed (ses x) = false -> iscsi_scsi_window (ses x) = 1 -> upper x = d ->
  let c0 := ScsiCommand (sd_next d) (ParentBlock p) ty lba count buffer len 0 false priv false false in
  let cmd := type_cmd c0 (sd_lun d) in
  exists w tag, let c := with_block true (with_scsi true (with_tag tag c0)) in
  run (scsidev_command (Some priv) (ParentBlock p) ty lba count buffer len d (returned p)) x
  = set_upper (busy d c (sd_log d ++ [BlockReturned p (Ok tt)]))
      (on_ses (fun s => set_s_data (Some (sd_next d)) (iscsi_start_command cmd (iscsi_new_itt (set_s_command (Some cmd) s)))) (set_world w x)).
Proof.
  intros Hf Hcl Hw Hu c0 cmd. unfold scsidev_command. cbv zeta. fold c0.
  change (with_cmds _ (with_refs _ _)) with (dev d (c0 :: sd_cmds d) (<[sd_next d := 0]> (sd_refs d)) (sd_log d)).
  unfold scsicmd_command. rewrite dev_find by done. cbn [dev sd_lun]. fold cmd. cbn [run]. set (d0 := dev _ _ _ _).
  change (s_closed (ses (set_upper d0 x))) with (s_closed (ses x)). rewrite Hcl. unfold iscsi_scsi_command. change (iscsi_scsi_window (ses (set_upper d0 x))) with (iscsi_scsi_window (ses x)). rewrite Hw.
  rewrite decide_False by done. unfold malloc. change (world (set_upper d0 x)) with (world x). destruct (heap_ok 56 (world x)) as (b & w & -> & _).
  change (upper (on_ses _ (set_world w (set_upper d0 x)))) with d0. unfold d0. rewrite dev_on by done. rewrite dev_get by done. rewrite dev_on by done. rewrite dev_get by done. change (0 + 1 + 1) with 2.
  cbn [run returned]. eexists w, _. reflexivity.
Qed.

(** A PDU without data is sent at once when there is room. *)
Lemma tx_header_only fuel (x : sys) w :
  tx_state (s_tx (ses x)) = ISCSI_TX_BHS -> ISCSI_DATA_LEN (tx_bhs (s_tx (ses x))) = 0 ->
  tx_opcode x <> ISCSI_OPCODE_DATA_OUT -> tx_opcode x <> ISCSI_OPCODE_LOGIN_REQUEST ->
  so_window (world x) <> 0 -> so_deliver (tx_bhs (s_tx (ses x))) (world x) = (Ok tt, w) ->
  iscsi_tx_step (4 + fuel) x = Some (set_world w (on_ses (on_tx (fun t => Tx (tx_bhs t) ISCSI_TX_IDLE false)) x)).
Proof.
  intros Hst Hl Ho1 Ho2 Hw Hd. destruct x as [s m w0 u]. destruct s as [? ? ? ? ? ? ? [bhs ts pr] ? ? ? ? ?]. cbn in Hst. subst ts.
  cbn [Nat.add iscsi_tx_step tx_fragment s_tx ses tx_state]. rewrite decide_False by (intros [_ E]; by apply Hw in E).
  unfold iscsi_tx_bhs at 1. cbn [s_tx ses tx_bhs world] in Hd |- *. rewrite Hd. cbv beta iota. rewrite decide_False by done.
  cbn [iscsi_tx_step tx_fragment s_tx ses tx_state on_ses on_tx set_s_tx set_tx_state set_world]. rewrite decide_False by (intros [E _]; by apply E).
  unfold iscsi_tx_nothing at 1. cbv beta iota. rewrite decide_False by done.
  cbn [iscsi_tx_step tx_fragment s_tx ses tx_state tx_bhs on_ses on_tx set_s_tx set_tx_state set_world]. cbn [s_tx ses tx_bhs] in Hl. rewrite Hl. rewrite decide_False by (intros [E _]; by apply E).
  unfold iscsi_tx_data at 1. match goal with |- context [decide (tx_opcode ?y = ISCSI_OPCODE_DATA_OUT)] => change (tx_opcode y) with (Z.land (get8 bhs 0) ISCSI_OPCODE_MASK) end.
  change (tx_opcode _) with (Z.land (get8 bhs 0) ISCSI_OPCODE_MASK) in Ho1, Ho2. rewrite decide_False by done. rewrite decide_False by done. cbv beta iota. rewrite decide_True by done.
  unfold iscsi_tx_done. match goal with |- context [decide (tx_opcode ?y = ISCSI_OPCODE_DATA_OUT)] => change (tx_opcode y) with (Z.land (get8 bhs 0) ISCSI_OPCODE_MASK) end.
  rewrite decide_False by done. rewrite decide_False by done. destruct fuel; reflexivity.
Qed.

(** What the target sees of a command: flags, unit, length and request. *)
Definition command_view (bhs : list Z) : Z * Z * list Z * Z * option scsi_request :=
  (get8 bhs 0, get8 bhs 1, take 8 (drop 8 bhs), get32 bhs 20, decode_cdb (drop 32 bhs)).

Lemma command_bhs_view flags itt_ len cmdsn_ statsn_ l c :
  length l = 8%nat -> in_width 32 len ->
  command_view (command_bhs flags itt_ len cmdsn_ statsn_ l c) = (1, flags, l, len, decode_cdb c) /\ ISCSI_DATA_LEN (command_bhs flags itt_ len cmdsn_ statsn_ l c) = 0.
Proof.
  intros Hl Hw. destruct (list_8 l Hl) as (l0 & l1 & l2 & l3 & l4 & l5 & l6 & l7 & ->). split; [|reflexivity].
  unfold command_view. repeat f_equal. transitivity (get32 (be32 len) 0); [reflexivity|]. by rewrite be32_wrap, wrap_small.
Qed.

(** C4: a block read of fewer than 65536 blocks, or one whose last block needs
    the 16-byte command, is sent as a command for the requested blocks (a longer
    read with the 10-byte command is not: [scsi_read10_truncates]).  The Data-In
    PDUs of the target, in any order and number, and its response, or the status
    in the last of them, in whatever segments they arrive, fill the buffer and
    complete the read with the target's status; the session accepts the next
    command then.  The PDUs stay inside the buffer and together fill it. *)
Theorem iscsi_read_correct (x x1 : sys) d w priv p lba count buffer D :
  fresh_device d -> sd_refs d !! sd_next d = None -> length (sd_lun d) = 8%nat ->
  in_width 64 lba -> in_width 32 count -> lba + count < 2 ^ 64 -> count < 2 ^ 16 \/ SCSI_MAX_BLOCK_10 < lba + count ->
  buffer <> 0 -> in_width 32 (Z.of_nat (length D)) ->
  upper x = d -> s_closed (ses x) = false -> iscsi_scsi_window (ses x) = 1 -> boundary x -> rx_buffer (rxe x) = None ->
  x1 = run (scsidev_read (Some priv) p lba count buffer (Z.of_nat (length D)) d) x ->
  so_window (world x1) <> 0 -> so_deliver (tx_bhs (s_tx (ses x1))) (world x1) = (Ok tt, w) ->
  command_view (tx_bhs (s_tx (ses x1))) = (1, 193, sd_lun d, Z.of_nat (length D), Some (ReqRead lba count)) /\
  exists x2, iscsi_tx_step 4 x1 = Some x2 /\ world x2 = w /\
  forall ps q chunks rc,
    Forall (data_in_pdu false D) ps -> final_pdu D q rc -> (forall j, 0 <= j < Z.of_nat (length D) -> Exists (arrives j) (ps ++ [q])) ->
    concat chunks = stream (ps ++ [q]) ->
    exists y, receive chunks x2 = Some (Ok tt, y) /\ mload (umem y) buffer (length D) = D /\
      upper y = finished d (sd_log d ++ [BlockReturned p (Ok tt); BlockClosed p rc]) /\
      s_fault (ses y) = s_fault (ses x) /\ iscsi_scsi_window (ses y) = 1.
Proof.
  intros Hf Hr Hlun Hlba Hcnt Hsum Hfit Hbuf HD Hu Hcl Hwin Hbd Hrb Hx1 Hsw Hsd.
  destruct (issue_run d x scsicmd_read priv p lba count buffer (Z.of_nat (length D)) Hf Hcl Hwin Hu) as (w1 & tag & Erun).
  unfold scsidev_read in Hx1. rewrite Erun in Hx1. clear Erun. set (c0 := ScsiCommand _ _ _ _ _ _ _ _ _ _ _ _) in Hx1. set (c := with_block true _) in Hx1.
  set (cmd := type_cmd c0 (sd_lun d)) in Hx1.
  assert (length (cdb cmd) = 16%nat /\ decode_cdb (cdb cmd) = Some (ReqRead lba count)) as [Hcdb Hdec].
  { destruct (scsi_rw_request c0 (sd_lun d) Hlba Hcnt Hsum Hfit) as (? & _ & ? & _). done. }
  assert (tx_bhs (s_tx (ses x1)) = command_bhs 193 (itt (s_num (ses x1))) (Z.of_nat (length D)) (cmdsn (s_num (ses x1))) (statsn (s_num (ses x1)) + 1) (sd_lun d) (cdb cmd)) as Hbhs.
  { rewrite Hx1. exact (start_command_bhs cmd (iscsi_new_itt (set_s_command (Some cmd) (ses x))) Hlun Hcdb Hbuf eq_refl eq_refl). }
  destruct (command_bhs_view 193 (itt (s_num (ses x1))) (Z.of_nat (length D)) (cmdsn (s_num (ses x1))) (statsn (s_num (ses x1)) + 1) (sd_lun d) (cdb cmd) Hlun HD) as [Hview Hdl].
  rewrite <- Hbhs in Hview, Hdl. rewrite Hdec in Hview. split; [done|].
  assert (tx_opcode x1 = 1) as Hop by (unfold tx_opcode; rewrite Hbhs; reflexivity).
  eexists. split; [apply (tx_header_only 0 x1 w); [by rewrite Hx1|done|by rewrite Hop|by rewrite Hop|done|done]|]. split; [done|].
  intros ps q chunks rc Hps Hq Hcov Hch. set (x2 := set_world w _).
  destruct (iscsi_read_completes D ps q chunks rc d c p (sd_log d ++ [BlockReturned p (Ok tt)]) cmd x2 Hps Hq Hcov Hch) as (y & Ey & Hm & Huy & Hfy & Hcy & Hsy & _).
  - unfold boundary, x2. rewrite Hx1. exact Hbd.
  - unfold x2. rewrite Hx1. exact Hrb.
  - unfold x2. by rewrite Hx1.
  - done.
  - constructor; try done. by left.
  - unfold x2. by rewrite Hx1.
  - unfold x2. by rewrite Hx1.
  - exists y. split_and!; [done|done| | |].
    + rewrite Huy. by rewrite <- app_assoc.
    + rewrite Hfy. unfold x2. by rewrite Hx1.
    + unfold iscsi_scsi_window in Hwin |- *. rewrite Hcy, Hsy. unfold x2. rewrite Hx1. change (s_status _) with (s_status (ses x)). case_decide; [|done]. rewrite decide_True; [done|]. split; [tauto|done].
Qed.

End read.

#[local] Existing Instance example_env.

Lemma example_heap_ok : HeapOk (list (list Z)).
Proof. intros n w. exists (replicate (Z.to_nat n) 0), w. split; [reflexivity|]. rewrite length_replicate. lia. Qed.

(** Six bytes that arrive in two PDUs, and the response. *)
Definition example_data : list Z := [11; 12; 13; 14; 15; 16].
Definition example_data_ins : list pdu :=
  [Pdu (example_bhs 37 0 4 []) [] [11; 12; 13; 14] []; Pdu (example_bhs 37 128 2 [(40%nat, be32 4)]) [] [15; 16] [0; 0]].
Definition example_response : pdu := Pdu (example_bhs 33 128 0 []) [] [] [].
Definition example_reading : @sys (list (list Z)) scsi_device :=
  Sys (example_session 12 None None None) (fun _ => 0) [] (scsi_open (replicate 8 0)).

Ltac example_pdu := constructor; [reflexivity|apply (bool_decide_unpack _); vm_compute; exact I|reflexivity..|split; let E0 := fresh in intros E0; vm_compute in E0; discriminate E0].

Lemma iscsi_read_correct_witness :
  let x1 := run (scsidev_read (Some 0) 7 100 1 4096 6 (scsi_open (replicate 8 0))) example_reading in
  let bytes := stream (example_data_ins ++ [example_response]) in
  exists x2 y, iscsi_tx_step 4 x1 = Some x2 /\ receive [take 70 bytes; drop 70 bytes] x2 = Some (Ok tt, y) /\ mload (umem y) 4096 6 = example_data.
Proof.
  intros x1 bytes.
  destruct (iscsi_read_correct (H0 := example_heap_ok) example_reading x1 (scsi_open (replicate 8 0)) [tx_bhs (s_tx (ses x1))] 0 7 100 1 4096 example_data) as (_ & x2 & E & _ & Hall);
    [constructor|reflexivity|reflexivity|by split|by split|done|by left|done|by split|reflexivity|reflexivity|reflexivity|split_and!; reflexivity|reflexivity|reflexivity|done|reflexivity|].
  destruct (Hall example_data_ins example_response [take 70 bytes; drop 70 bytes] (Ok tt)) as (y & E1 & E2 & _).
  - repeat apply Forall_cons_2; [..|apply Forall_nil_2]; (constructor; [example_pdu|reflexivity|reflexivity|by eexists|by split]).
  - apply (final_response _ _ 0). constructor; [example_pdu|reflexivity|reflexivity|reflexivity|done].
  - intros j Hj. change (Z.of_nat (length example_data)) with 6 in Hj. destruct (decide (j < 4)); [apply Exists_cons_hd|apply Exists_cons_tl, Exists_cons_hd];
      (split; [reflexivity|]); split; (match goal with |- context [get32 ?b 40] => let v := eval vm_compute in (get32 b 40) in change (get32 b 40) with v end); cbn; lia.
  - unfold bytes. cbn [concat]. by rewrite app_nil_r, take_drop.
  - exists x2, y. split_and!; [exact E|exact E1|exact E2].
Defined.
