(* ===== verification/IscsiWrite.v ===== *)
(** * Writing blocks over iSCSI (net/tcp/iscsi.c)

    A target that is ready for data asks for a range of the buffer (R2T).
    The session answers with Data-Out PDUs of at most 512 bytes, each started
    when the one before it was sent: together they are the range, in order,
    and the last one is marked ([iscsi_write_correct]). *)

From S2P Require Import Prelude CMem Encoding Scsi Iscsi IscsiRx.

(** A socket that takes everything and records it. *)
Class SocketOk (W : Type) `{IscsiEnv W} := {
  sent : W -> list Z;
  window_open : forall w, so_window w <> 0;
  alloc_ok : forall n w, so_alloc n w = true;
  deliver_ok : forall l w, exists w', so_deliver l w = (Ok tt, w') /\ sent w' = sent w ++ l;
}.

Section write.
Context {W U : Type} `{SocketOk W} `{ScsiUpper U}.
Abbreviation sys := (@sys W U).

(** The header of a Data-Out PDU. *)
Definition data_out_bhs (final : bool) (len : Z) (l : list Z) (itt_ ttt_ statsn_ datasn offset : Z) : list Z :=
  [5; if final then 128 else 0; 0; 0] ++ be32 len ++ l ++ be32 itt_ ++ be32 ttt_ ++ [0; 0; 0; 0] ++ be32 statsn_ ++ [0; 0; 0; 0] ++
  be32 datasn ++ be32 offset ++ [0; 0; 0; 0].

(** The number of the PDUs that follow a PDU, and their lengths. *)
Definition data_out_len_at (L k : Z) : Z := Z.min 512 (L - 512 * k).
Definition data_out_final (L k : Z) : bool := bool_decide (L - 512 * k <= 512).

(** The [k]-th PDU for a range of [L] bytes at [o] of the buffer. *)
Definition data_out_pdu (n : numbers) (l : list Z) (m : mem) (a o L k : Z) : pdu :=
  let len := data_out_len_at L k in
  let bhs := data_out_bhs (data_out_final L k) len l (itt n) (ttt n) (statsn n + 1) k (o + 512 * k) in
  Pdu bhs [] (mload m (a + (o + 512 * k)) (Z.to_nat len)) (replicate (Z.to_nat (ISCSI_DATA_PAD_LEN bhs)) 0).

Lemma start_data_out_bhs k (s : session) c :
  s_command s = Some c -> length (lun c) = 8%nat -> 0 <= k -> 512 * k <= transfer_len (s_num s) < 2 ^ 32 ->
  tx_bhs (s_tx (iscsi_start_data_out k s))
  = data_out_bhs (data_out_final (transfer_len (s_num s)) k) (data_out_len_at (transfer_len (s_num s)) k) (lun c) (itt (s_num s)) (ttt (s_num s))
      (statsn (s_num s) + 1) k (transfer_offset (s_num s) + 512 * k).
Proof.
  intros Hc Hl Hk HL. unfold iscsi_start_data_out. rewrite Hc. set (L := transfer_len (s_num s)) in *. rewrite (Z.mul_comm k). rewrite (wrap_small 32) by zlia. rewrite (wrap_small 64) by zlia.
  assert ((if decide (512 < L - 512 * k) then 512 else L - 512 * k) = data_out_len_at L k) as -> by (unfold data_out_len_at; case_decide; lia).
  assert ((if decide (data_out_len_at L k = L - 512 * k) then ISCSI_FLAG_FINAL else 0) = if data_out_final L k then 128 else 0) as ->.
  { unfold data_out_final, data_out_len_at. case_decide; case_bool_decide; (done || lia). }
  destruct (list_8 _ Hl) as (l0 & l1 & l2 & l3 & l4 & l5 & l6 & l7 & ->). destruct (data_out_final L k); reflexivity.
Qed.

Lemma data_out_fields final len l i t st k o :
  length l = 8%nat -> 0 <= len < 2 ^ 24 -> in_width 32 o -> in_width 32 k ->
  let bhs := data_out_bhs final len l i t st k o in
  length bhs = 48%nat /\ ISCSI_DATA_LEN bhs = len /\ get32 bhs 40 = o /\ get32 bhs 36 = k /\ Z.land (get8 bhs 1) ISCSI_FLAG_FINAL = (if final then 128 else 0) /\
  Z.land (get8 bhs 0) ISCSI_OPCODE_MASK = 5 /\ ISCSI_AHS_LEN bhs = 0.
Proof.
  intros Hl Hlen Ho Hk. destruct (list_8 l Hl) as (l0 & l1 & l2 & l3 & l4 & l5 & l6 & l7 & ->). cbv zeta. split_and!.
  - done.
  - unfold ISCSI_DATA_LEN. transitivity (Z.land (get32 (be32 len) 0) 16777215); [reflexivity|]. rewrite be32_wrap, wrap_small by (unfold in_width; lia).
    change 16777215 with (2 ^ 24 - 1). rewrite land_ones_mod by lia. by apply Z.mod_small.
  - transitivity (get32 (be32 o) 0); [reflexivity|]. by rewrite be32_wrap, wrap_small.
  - transitivity (get32 (be32 k) 0); [reflexivity|]. by rewrite be32_wrap, wrap_small.
  - by destruct final.
  - done.
  - transitivity (u8 (Z.shiftr len 24)); [reflexivity|]. rewrite Z.shiftr_div_pow2, Z.div_small by lia. done.
Qed.

Lemma data_out_tags final len l i t st k o :
  length l = 8%nat -> let bhs := data_out_bhs final len l i t st k o in take 8 (drop 8 bhs) = l /\ get32 bhs 16 = u32 i /\ get32 bhs 20 = u32 t.
Proof.
  intros Hl. destruct (list_8 l Hl) as (l0 & l1 & l2 & l3 & l4 & l5 & l6 & l7 & ->). cbv zeta. split_and!; [done|exact (be32_wrap i)|exact (be32_wrap t)].
Qed.

(** ** Sending one PDU *)

(** The session with a Data-Out PDU to be sent. *)
Definition sending (bhs : list Z) (x : sys) : sys := on_ses (on_tx (fun _ => Tx bhs ISCSI_TX_BHS true)) x.

Lemma tx_data_out fuel bhs c (x : sys) :
  s_command (ses x) = Some c -> Z.land (get8 bhs 0) ISCSI_OPCODE_MASK = 5 -> get32 bhs 40 + ISCSI_DATA_LEN bhs <= data_out_len c ->
  let payload := mload (umem x) (data_out c + get32 bhs 40) (Z.to_nat (ISCSI_DATA_LEN bhs)) ++ replicate (Z.to_nat (ISCSI_DATA_PAD_LEN bhs)) 0 in
  exists w, sent w = sent (world x) ++ bhs ++ payload /\
  iscsi_tx_step (3 + fuel) (sending bhs x) = iscsi_tx_step fuel (iscsi_data_out_done (set_world w (on_ses (on_tx (fun _ => Tx bhs ISCSI_TX_IDLE false)) x))).
Proof.
  intros Hc Hop Hb payload. destruct (deliver_ok bhs (world x)) as (w1 & E1 & S1). destruct (deliver_ok payload w1) as (w2 & E2 & S2).
  exists w2. split; [by rewrite S2, S1, <- app_assoc|]. destruct x as [s m w0 u]. destruct s as [a1 a2 a3 a4 a5 a6 a7 t a9 cm a11 a12 a13]. cbn [s_command ses] in Hc.
  change (sending bhs _) with (Sys (Session a1 a2 a3 a4 a5 a6 a7 (Tx bhs ISCSI_TX_BHS true) a9 cm a11 a12 a13) m w0 u).
  cbn [Nat.add iscsi_tx_step tx_fragment s_tx ses tx_state sending on_ses on_tx set_s_tx]. rewrite decide_False by (intros [_ E]; by apply window_open in E).
  unfold iscsi_tx_bhs at 1. cbn [s_tx ses tx_bhs world] in E1 |- *. rewrite E1. cbv beta iota. rewrite decide_False by done.
  cbn [iscsi_tx_step tx_fragment s_tx ses tx_state on_ses on_tx set_s_tx set_tx_state set_world]. rewrite decide_False by (intros [E _]; by apply E).
  unfold iscsi_tx_nothing at 1. cbv beta iota. rewrite decide_False by done.
  match goal with |- context [on_ses (on_tx (set_tx_state ISCSI_TX_DATA)) ?y] =>
    change (on_ses (on_tx (set_tx_state ISCSI_TX_DATA)) y) with (Sys (Session a1 a2 a3 a4 a5 a6 a7 (Tx bhs ISCSI_TX_DATA true) a9 cm a11 a12 a13) m w1 u) end.
  cbn [iscsi_tx_step tx_fragment s_tx ses tx_state tx_bhs world]. rewrite decide_False by (intros [_ E]; by apply window_open in E).
  unfold iscsi_tx_data at 1. match goal with |- context [decide (tx_opcode ?y = ISCSI_OPCODE_DATA_OUT)] => change (tx_opcode y) with (Z.land (get8 bhs 0) ISCSI_OPCODE_MASK) end.
  rewrite (decide_True (P := Z.land (get8 bhs 0) ISCSI_OPCODE_MASK = ISCSI_OPCODE_DATA_OUT)) by done. unfold iscsi_tx_data_out at 1. cbn [s_tx s_command ses tx_bhs world umem].
  rewrite Hc. rewrite alloc_ok. cbn [negb]. rewrite decide_False by lia. cbn [umem world] in payload |- *. fold payload. rewrite E2. cbv beta iota. rewrite decide_True by done.
  unfold iscsi_tx_done. match goal with |- context [decide (tx_opcode ?y = ISCSI_OPCODE_DATA_OUT)] => change (tx_opcode y) with (Z.land (get8 bhs 0) ISCSI_OPCODE_MASK) end.
  rewrite decide_True by done. reflexivity.
Qed.

(** ** The sequence of PDUs *)

Definition data_outs (n : numbers) (l : list Z) (m : mem) (a o L k : Z) (j : nat) : list pdu :=
  map (fun i => data_out_pdu n l m a o L (k + Z.of_nat i)) (seq 0 j).

Lemma data_outs_cons n l m a o L k j : data_outs n l m a o L k (S j) = data_out_pdu n l m a o L k :: data_outs n l m a o L (k + 1) j.
Proof.
  unfold data_outs. cbn [seq map]. rewrite Z.add_0_r. f_equal. rewrite <- seq_shift, map_map. apply map_ext. intros i. f_equal. lia.
Qed.

Definition bhs_at (x : sys) (c : scsi_cmd) (k : Z) : list Z :=
  p_bhs (data_out_pdu (s_num (ses x)) (lun c) (umem x) (data_out c) (transfer_offset (s_num (ses x))) (transfer_len (s_num (ses x))) k).

Lemma start_data_out_sending k (x : sys) c :
  s_command (ses x) = Some c -> length (lun c) = 8%nat -> 0 <= k -> 512 * k <= transfer_len (s_num (ses x)) < 2 ^ 32 -> start_data_out k x = sending (bhs_at x c k) x.
Proof.
  intros Hc Hl Hk HL. unfold start_data_out. rewrite bool_decide_false by (by rewrite Hc).
  transitivity (sending (tx_bhs (s_tx (iscsi_start_data_out k (ses x)))) x); [reflexivity|]. by rewrite (start_data_out_bhs k _ c).
Qed.

Lemma tx_sequence j k (x : sys) c :
  let L := transfer_len (s_num (ses x)) in
  let o := transfer_offset (s_num (ses x)) in
  s_command (ses x) = Some c -> length (lun c) = 8%nat -> 0 <= k -> 0 <= o -> 512 * k <= L -> o + L <= data_out_len c -> data_out_len c < 2 ^ 32 ->
  (forall i, 0 <= i < Z.of_nat j -> data_out_final L (k + i) = false) -> data_out_final L (k + Z.of_nat j) = true ->
  exists w, sent w = sent (world x) ++ stream (data_outs (s_num (ses x)) (lun c) (umem x) (data_out c) o L k (S j)) /\
    iscsi_tx_step (3 * S j + 1) (sending (bhs_at x c k) x)
    = Some (set_world w (on_ses (on_tx (fun _ => Tx (bhs_at x c (k + Z.of_nat j)) ISCSI_TX_IDLE false)) x)).
Proof.
  intros L o. revert k x L o. induction j as [|j IH]; intros k x L o Hc Hl Hk Ho HkL HoL Hlen Hnot Hfin.
  all: assert (0 <= data_out_len_at L k < 2 ^ 24) as Hdl by (unfold data_out_len_at; lia).
  all: destruct (data_out_fields (data_out_final L k) (data_out_len_at L k) (lun c) (itt (s_num (ses x))) (ttt (s_num (ses x))) (statsn (s_num (ses x)) + 1) k (o + 512 * k) Hl Hdl
      ltac:(zlia) ltac:(zlia)) as (F1 & F2 & F3 & F4 & F5 & F6 & F7).
  all: fold (bhs_at x c k) in F1, F2, F3, F4, F5, F6, F7.
  all: set (bhs := data_out_bhs _ _ _ _ _ _ _ _) in F1, F2, F3, F4, F5, F6, F7; change (bhs_at x c k) with bhs.
  - rewrite Z.add_0_r in Hfin |- *. destruct (tx_data_out 1 bhs c x Hc F6 ltac:(rewrite F2, F3; unfold data_out_len_at; lia)) as (w & Hw & Et).
    exists w. split; [rewrite Hw, F2, F3; unfold data_outs, stream; cbn [seq map concat]; rewrite Z.add_0_r, app_nil_r; reflexivity|].
    change (3 * 1 + 1)%nat with (3 + 1)%nat. rewrite Et. unfold iscsi_data_out_done. change (tx_bhs _) with bhs. rewrite F5, Hfin. rewrite decide_False by done. reflexivity.
  - replace (3 * S (S j) + 1)%nat with (3 + (3 * S j + 1))%nat by lia.
    destruct (tx_data_out (3 * S j + 1) bhs c x Hc F6 ltac:(rewrite F2, F3; unfold data_out_len_at; lia)) as (w & Hw & Et).
    assert (data_out_final L k = false) as Hnf by (rewrite <- (Hnot 0) by lia; f_equal; lia). assert (512 * (k + 1) <= L) by (revert Hnf; unfold data_out_final; case_bool_decide; [done|lia]).
    set (x1 := set_world w x). destruct (IH (k + 1) x1) as (w2 & Hw2 & Et2); try done; [lia| | |].
    { intros i Hi. replace (k + 1 + i) with (k + (i + 1)) by lia. apply Hnot. lia. }
    { replace (k + 1 + Z.of_nat j) with (k + Z.of_nat (S j)) by lia. done. }
    exists w2. split.
    { rewrite Hw2. change (world x1) with w. rewrite Hw, F2, F3. rewrite (data_outs_cons _ _ _ _ _ _ k). unfold stream. cbn [map concat]. rewrite <- app_assoc. f_equal. }
    rewrite Et. unfold iscsi_data_out_done. change (tx_bhs _) with bhs. rewrite F5, Hnf, F4. rewrite decide_True by done. rewrite wrap_small by zlia.
    replace (k + Z.of_nat (S j)) with (k + 1 + Z.of_nat j) by lia.
    transitivity (iscsi_tx_step (3 * S j + 1) (sending (bhs_at x1 c (k + 1)) x1)); [|rewrite Et2; reflexivity].
    f_equal. by apply (start_data_out_sending (k + 1) (set_world w (on_ses (on_tx (fun _ => Tx bhs ISCSI_TX_IDLE false)) x)) c); [done|done|lia|change (512 * (k + 1) <= L < 2 ^ 32); lia].
Qed.

(** ** The answer to R2T *)

Lemma get32_width l i : bytes l -> in_width 32 (get32 l i).
Proof.
  intros Hl. pose proof (nth_byte l i Hl). pose proof (nth_byte l (i + 1) Hl). pose proof (nth_byte l (i + 2) Hl). pose proof (nth_byte l (i + 3) Hl).
  unfold get32, get8, in_width in *. change (2 ^ 8) with 256 in *. change (2 ^ 24) with 16777216. change (2 ^ 16) with 65536. change (2 ^ 32) with 4294967296. lia.
Qed.

Record r2t_pdu (q : pdu) : Prop := { rt_wf : pdu_wf q; rt_opcode : opcode_of (p_bhs q) = ISCSI_OPCODE_R2T }.

(** The index of the last PDU. *)
Definition last_index (L : Z) : nat := Z.to_nat ((Z.max 1 L - 1) / 512).

Lemma last_index_final L i : 0 <= L -> 0 <= i -> data_out_final L i = bool_decide (Z.of_nat (last_index L) <= i).
Proof.
  intros HL Hi. unfold data_out_final, last_index. pose proof (Z.div_mod (Z.max 1 L - 1) 512). pose proof (Z.mod_pos_bound (Z.max 1 L - 1) 512).
  assert (0 <= (Z.max 1 L - 1) / 512) by (apply Z.div_pos; lia). apply bool_decide_ext. rewrite Z2Nat.id by lia. lia.
Qed.

Lemma data_outs_data n l m a o L k j :
  0 <= k -> (forall i, 0 <= i < Z.of_nat j -> data_out_final L (k + i) = false) -> data_out_final L (k + Z.of_nat j) = true -> 512 * k <= L ->
  concat (map p_data (data_outs n l m a o L k (S j))) = mload m (a + (o + 512 * k)) (Z.to_nat (L - 512 * k)).
Proof.
  revert k. induction j as [|j IH]; intros k Hk Hnot Hfin HkL; rewrite data_outs_cons; cbn [map concat data_out_pdu p_data].
  - rewrite Z.add_0_r in Hfin. unfold data_out_final in Hfin. apply bool_decide_eq_true in Hfin. unfold data_out_len_at. rewrite Z.min_r by lia. by rewrite app_nil_r.
  - assert (data_out_final L k = false) as Hnf by (rewrite <- (Hnot 0) by lia; f_equal; lia). unfold data_out_final in Hnf. apply bool_decide_eq_false in Hnf.
    rewrite IH; [|lia| | |lia].
    + unfold data_out_len_at. rewrite Z.min_l by lia. replace (Z.to_nat (L - 512 * k)) with (Z.to_nat 512 + Z.to_nat (L - 512 * (k + 1)))%nat by lia. rewrite mload_app. do 2 f_equal. lia.
    + intros i Hi. replace (k + 1 + i) with (k + (i + 1)) by lia. apply Hnot. lia.
    + replace (k + 1 + Z.of_nat j) with (k + Z.of_nat (S j)) by lia. done.
Qed.

(** What the target sees of a Data-Out PDU: the last flag, the unit, the
    tags, the number, the offset and the length. *)
Definition data_out_view (bhs : list Z) : bool * list Z * Z * Z * Z * Z * Z :=
  (negb (bool_decide (Z.land (get8 bhs 1) 128 = 0)), take 8 (drop 8 bhs), get32 bhs 16, get32 bhs 20, get32 bhs 36, get32 bhs 40, ISCSI_DATA_LEN bhs).

Lemma r2t_chunks chunks q : pdu_wf q -> concat chunks = stream [q] -> chunks <> [].
Proof.
  intros Hq Hc ->. apply (f_equal length) in Hc. unfold stream, pdu_bytes in Hc. cbn [concat map] in Hc. rewrite !length_app, (wf_bhs q Hq) in Hc. cbn in Hc. lia.
Qed.

(** C6: when the target asks for a range of the data to be written, the
    session sends it in PDUs of at most 512 bytes: the data of the PDUs are
    the range, those of each PDU are what the buffer has at the PDU's offset,
    each PDU has the tags of the request and its own number, only the last is
    marked as such, and the session is idle then.  The range lies in the buffer
    of the command. *)
Theorem iscsi_write_correct q chunks (x : sys) c :
  let L := get32 (p_bhs q) 44 in
  let o := get32 (p_bhs q) 40 in
  r2t_pdu q -> concat chunks = stream [q] -> boundary x -> s_command (ses x) = Some c -> length (lun c) = 8%nat ->
  o + L <= data_out_len c -> data_out_len c < 2 ^ 32 ->
  exists x1 ps x2, receive chunks x = Some (Ok tt, x1) /\ iscsi_tx_step (3 * length ps + 1) x1 = Some x2 /\
    sent (world x2) = sent (world x) ++ stream ps /\
    concat (map p_data ps) = mload (umem x) (data_out c + o) (Z.to_nat L) /\
    (forall i p, ps !! i = Some p -> p_ahs p = [] /\ (length (p_data p) <= 512)%nat /\ p_data p = mload (umem x) (data_out c + (o + 512 * Z.of_nat i)) (length (p_data p)) /\
      data_out_view (p_bhs p) = (bool_decide (S i = length ps), lun c, u32 (itt (s_num (ses x))), get32 (p_bhs q) 20, Z.of_nat i, o + 512 * Z.of_nat i, Z.of_nat (length (p_data p)))) /\
    tx_state (s_tx (ses x2)) = ISCSI_TX_IDLE /\ s_fault (ses x2) = s_fault (ses x) /\ s_command (ses x2) = Some c.
Proof.
  intros L o [Hwf Hop] Hch Hx Hc Hl Hlen Hw. assert (in_width 32 L /\ in_width 32 o) as [HL Ho] by (split; apply get32_width, Hwf). unfold in_width in HL, Ho.
  destruct (receive_stream chunks [q] x Hx) as (r & x1 & Hrec & Hr & Hy); [by apply Forall_singleton|by apply (r2t_chunks _ q)|done|].
  set (x0 := map_rx (fun r => Rx (p_bhs q) ISCSI_RX_BHS 0 48 (rx_buffer r)) (on_ses (on_num (fun n => set_transfer_len L (set_transfer_offset o (set_ttt (get32 (p_bhs q) 20)
             (set_statsn (get32 (p_bhs q) 24) (set_cmdsn (get32 (p_bhs q) 28) n)))))) x)).
  assert (handle_stream [q] (map_rx (set_rx_len 48) x) = (Ok tt, sending (bhs_at x0 c 0) x0)) as Eh.
  { unfold handle_stream, handle_pdus, handle_pdu. rewrite rx_data_handler by apply Hwf. set (z := map_rx _ (map_rx _ x)). change (rx_bhs (s_rx (ses z))) with (p_bhs q).
    unfold segment_handler. rewrite Hop. do 3 rewrite decide_False by done. rewrite decide_True by done. unfold iscsi_rx_r2t. change (rx_bhs (s_rx (ses (numbered z)))) with (p_bhs q).
    cbn [fst snd]. rewrite (start_data_out_sending 0 _ c) by (done || exact HL || lia). reflexivity. }
  rewrite Eh in Hr, Hy. cbn [fst snd] in Hr, Hy. subst r. cbn [is_Ok] in Hy. subst x1.
  destruct (tx_sequence (last_index L) 0 x0 c) as (w & Hs & Et); [done|done|lia|exact (proj1 Ho)|exact (proj1 HL)|exact Hlen|done| | |].
  { intros i Hi. change (transfer_len (s_num (ses x0))) with L. rewrite last_index_final by lia. apply bool_decide_eq_false. lia. }
  { change (transfer_len (s_num (ses x0))) with L. rewrite last_index_final by lia. apply bool_decide_eq_true. lia. }
  change (transfer_len (s_num (ses x0))) with L in *. change (transfer_offset (s_num (ses x0))) with o in *. set (ps := data_outs _ _ _ _ _ _ _ _) in Hs.
  assert (length ps = S (last_index L)) as Hps by (unfold ps, data_outs; by rewrite length_map, length_seq).
  eexists _, ps, _. split; [exact Hrec|]. split; [rewrite Hps; exact Et|]. split; [exact Hs|]. split.
  { unfold ps. rewrite data_outs_data; [by rewrite Z.mul_0_r, Z.sub_0_r, Z.add_0_r|lia| | |lia].
    - intros i Hi. rewrite last_index_final by lia. apply bool_decide_eq_false. lia.
    - rewrite last_index_final by lia. apply bool_decide_eq_true. lia. }
  split; [|done]. intros i p Hi. unfold ps, data_outs in Hi. apply list_lookup_fmap_Some in Hi as (k & -> & Hk). apply lookup_seq in Hk as [-> Hlt].
  rewrite Nat.add_0_l, Z.add_0_l. split; [done|]. split; [cbn [data_out_pdu p_data]; rewrite mload_length; unfold data_out_len_at; lia|]. split; [cbn [data_out_pdu p_data]; by rewrite mload_length|]. rewrite Hps. set (k := Z.of_nat i). change (p_bhs (data_out_pdu ?n ?l ?m ?a o L k))
    with (data_out_bhs (data_out_final L k) (data_out_len_at L k) l (itt n) (ttt n) (statsn n + 1) k (o + 512 * k)).
  assert (512 * k <= L) as HkL.
  { destruct (decide (i = 0%nat)); [lia|]. assert (data_out_final L (k - 1) = false) as Hf by (rewrite last_index_final by lia; apply bool_decide_eq_false; lia).
    unfold data_out_final in Hf. apply bool_decide_eq_false in Hf. lia. }
  assert (0 <= data_out_len_at L k < 2 ^ 24) as Hdl by (unfold data_out_len_at; lia).
  destruct (data_out_fields (data_out_final L k) (data_out_len_at L k) (lun c) (itt (s_num (ses x0))) (ttt (s_num (ses x0))) (statsn (s_num (ses x0)) + 1) k (o + 512 * k) Hl Hdl
    ltac:(zlia) ltac:(zlia)) as (_ & F2 & F3 & F4 & F5 & _). destruct (data_out_tags (data_out_final L k) (data_out_len_at L k) (lun c) (itt (s_num (ses x0))) (ttt (s_num (ses x0))) (statsn (s_num (ses x0)) + 1) k (o + 512 * k) Hl) as (G1 & G2 & G3).
  unfold data_out_view. change 128 with ISCSI_FLAG_FINAL. rewrite F5, F2, F3, F4, G1, G2, G3. cbn [data_out_pdu p_data]. rewrite mload_length. repeat f_equal.
  - rewrite last_index_final by lia. repeat case_bool_decide; (done || lia).
  - apply wrap_small, get32_width, Hwf.
  - lia.
Qed.

End write.

#[local] Existing Instance example_env.
#[local] Existing Instance example_upper.

Definition example_socket_ok : SocketOk (list (list Z)).
Proof.
  refine {| sent w := concat w |}; [done|done|]. intros l w. exists (w ++ [l]). split; [reflexivity|]. rewrite concat_app. cbn [concat]. by rewrite app_nil_r.
Defined.

(** A request for 600 bytes at 512 of a buffer of 2048 bytes. *)
Definition example_r2t : pdu := Pdu (example_bhs 49 128 0 [(40%nat, be32 512); (44%nat, be32 600)]) [] [] [].
Definition example_write : scsi_cmd := ScsiCmd (replicate 8 0) (replicate 16 0) 8192 2048 0 0.
Definition example_writing : @sys (list (list Z)) unit := Sys (example_session 12 None None (Some example_write)) (fun a => u8 a) [] tt.

Lemma iscsi_write_correct_witness :
  exists x1 ps x2, receive [take 10 (stream [example_r2t]); drop 10 (stream [example_r2t])] example_writing = Some (Ok tt, x1) /\
    iscsi_tx_step (3 * length ps + 1) x1 = Some x2 /\ concat (map p_data ps) = mload (umem example_writing) (8192 + 512) 600.
Proof.
  destruct (iscsi_write_correct (H0 := example_socket_ok) example_r2t [take 10 (stream [example_r2t]); drop 10 (stream [example_r2t])] example_writing example_write)
    as (x1 & ps & x2 & E1 & E2 & _ & E3 & _).
  - constructor; [|reflexivity]. constructor; [reflexivity|apply (bool_decide_unpack _); vm_compute; exact I|reflexivity..|split; intros E; [reflexivity|vm_compute in E; discriminate E]].
  - reflexivity.
  - split_and!; reflexivity.
  - reflexivity.
  - reflexivity.
  - vm_compute. discriminate.
  - reflexivity.
  - exists x1, ps, x2. split_and!; [exact E1|exact E2|exact E3].
Defined.
