(* ===== verification/IscsiLogin.v ===== *)
(** * Login to an iSCSI target (net/tcp/iscsi.c)

    The executions of a session, as sequences of the PDUs that it receives and
    of everything else that can happen to it, and the invariant [guarded]: a
    session that requires the target to authenticate itself is open in the full
    feature phase only after the target has answered a challenge with the
    digest of the secret.  PDUs arrive whole (IscsiRx relates this to segments),
    and a write outside an object only sets [s_fault], so that an execution in
    which it is set says nothing about the code.  The theorem on sessions from
    their opening is in IscsiOpen. *)

From S2P Require Import Prelude CMem Strings Vsprintf Encoding Scsi Iscsi IscsiRx.

Section login.
Context {W U : Type} `{IscsiEnv W} `{ScsiUpper U}.
Abbreviation sys := (@sys W U).

(** ** Events *)

(** A PDU is received, the process runs, the window opens, the socket is
    closed or redirected, or the device does something. *)
Inductive event :=
  | EvPdu (p : pdu)
  | EvTx (fuel : nat)
  | EvResume
  | EvClose (rc : result unit)
  | EvRedirect (r : result unit)
  | EvDevice (f : U -> act U).

Definition step (e : event) (x : sys) : sys :=
  match e with
  | EvDevice f => run (f (upper x)) x
  | _ =>
    if s_closed (ses x) then x else
    match e with
    | EvPdu p => match handle_pdu p x with (Ok _, y) => y | (Err rc, y) => iscsi_close (Err rc) y end
    | EvTx fuel => if tx_process (s_tx (ses x)) then default x (iscsi_tx_step fuel x) else x
    | EvResume => iscsi_tx_resume x
    | EvClose rc => iscsi_close rc x
    | EvRedirect r => (iscsi_vredirect r x).2
    | EvDevice _ => x
    end
  end.

Definition steps (evs : list event) (x : sys) : sys := foldl (fun x e => step e x) x evs.

(** ** The status of a session *)

Abbreviation st x := (s_status (ses x)).
Abbreviation cr x := (s_cred (ses x)).
Abbreviation rxb x := (rx_buffer (s_rx (ses x))).

Definition phase (x : sys) : Z := Z.land (st x) ISCSI_STATUS_PHASE_MASK.
Definition ok_bit (x : sys) : Z := Z.land (st x) ISCSI_STATUS_AUTH_REVERSE_OK.
Definition required_bit (x : sys) : Z := Z.land (st x) ISCSI_STATUS_AUTH_REVERSE_REQUIRED.

(** What a call may do to a session whose status it does not set: it may
    close it. *)
Definition quiet (x y : sys) : Prop :=
  cr y = cr x /\ (s_closed (ses x) = true -> s_closed (ses y) = true) /\ st y = st x /\ s_challenge (ses y) = s_challenge (ses x) /\ s_rx (ses y) = s_rx (ses x).

Lemma quiet_refl x : quiet x x.
Proof. done. Qed.

Lemma quiet_trans x y z : quiet x y -> quiet y z -> quiet x z.
Proof. intros (H1 & H2 & H3 & H4 & H5) (G1 & G2 & G3 & G4 & G5). split_and!; [congruence|auto|congruence..]. Qed.

Lemma iscsi_close_quiet rc x : quiet x (iscsi_close rc x).
Proof. unfold iscsi_close. cbv zeta. destruct (s_closed (ses x)) eqn:E; cbn; rewrite ?E; [done|]. destruct (s_data (ses x)); done. Qed.

Lemma iscsi_close_closed rc (x : sys) : s_closed (ses (iscsi_close rc x)) = true.
Proof. unfold iscsi_close. cbv zeta. destruct (s_closed (ses x)) eqn:E; cbn; rewrite ?E; [done|]. by destruct (s_data (ses x)). Qed.

Lemma iscsi_scsi_command_quiet i c x : quiet x (iscsi_scsi_command i c x).2.
Proof. unfold iscsi_scsi_command, malloc. case_decide; [done|]. by destruct (heap_alloc _ _) as [[] ?]. Qed.

Lemma run_quiet a (x : sys) : quiet x (run a x).
Proof.
  revert x. induction a as [u|i c u k IH|u k IH|i rc u k IH|rc u k IH]; intros x; cbn [run].
  - done.
  - destruct (s_closed (ses (set_upper u x))) eqn:E; [apply (IH _ _ (set_upper u x))|].
    pose proof (iscsi_scsi_command_quiet i c (set_upper u x)) as Hq. destruct (iscsi_scsi_command i c (set_upper u x)) as [r y]. cbn [snd] in Hq. eapply quiet_trans; [exact Hq|apply IH].
  - apply (IH _ _ (set_upper u x)).
  - case_decide; [|apply (IH _ (set_upper u x))]. eapply quiet_trans; [|apply IH]. unfold iscsi_command_close.
    case_bool_decide; [done|]. apply (iscsi_close_quiet _ (on_ses (set_s_data None) (set_upper u x))).
  - eapply quiet_trans; [|apply IH]. apply (iscsi_close_quiet rc (set_upper u x)).
Qed.

Lemma iscsi_scsi_done_quiet rc rsp (x : sys) : quiet x (iscsi_scsi_done rc rsp x).
Proof.
  unfold iscsi_scsi_done. cbv zeta. set (x1 := on_ses (set_s_command None) x).
  assert (forall y, quiet x y -> quiet x (if decide (itt (s_num (ses y)) = itt (s_num (ses x))) then restart_data rc y else y)) as Hr.
  { intros y Hy. case_decide; [|done]. unfold restart_data. destruct (s_data (ses y)) as [i|]; [|done]. eapply quiet_trans; [exact Hy|].
    apply (run_quiet _ (on_ses (set_s_data None) y)). }
  destruct rsp as [rsp|]; [|by apply Hr]. destruct (s_data (ses x1)); [|by apply Hr]. apply Hr. apply (run_quiet _ x1).
Qed.

(** The same phase and the same authentication bits. *)
Definition mild (x y : sys) : Prop :=
  cr y = cr x /\ (s_closed (ses x) = true -> s_closed (ses y) = true) /\ length (s_challenge (ses y)) = length (s_challenge (ses x)) /\
  phase y = phase x /\ ok_bit y = ok_bit x /\ required_bit y = required_bit x /\ rxb y = rxb x.

Lemma mild_trans x y z : mild x y -> mild y z -> mild x z.
Proof. intros (H1 & H2 & H3 & H4 & H5 & H6 & H7) (G1 & G2 & G3 & G4 & G5 & G6 & G7). split_and!; (congruence || auto). Qed.

Lemma mild_or x y f : st y = Z.lor (st x) f -> Z.land f (Z.lor 15 393216) = 0 -> cr y = cr x -> s_closed (ses y) = s_closed (ses x) ->
  length (s_challenge (ses y)) = length (s_challenge (ses x)) -> rxb y = rxb x -> mild x y.
Proof.
  intros Hs Hf Hc Hd Hl Hb. rewrite Z.land_lor_distr_r in Hf. apply Z.lor_eq_0_iff in Hf as [Hf1 Hf2].
  assert (Z.land f 262144 = 0 /\ Z.land f 131072 = 0) as [Hf3 Hf4].
  { change 393216 with (Z.lor 262144 131072) in Hf2. rewrite Z.land_lor_distr_r in Hf2. by apply Z.lor_eq_0_iff in Hf2. }
  unfold mild, phase, ok_bit, required_bit. rewrite Hs, !Z.land_lor_distr_l. change ISCSI_STATUS_PHASE_MASK with 15. change ISCSI_STATUS_AUTH_REVERSE_OK with 262144. change ISCSI_STATUS_AUTH_REVERSE_REQUIRED with 131072.
  rewrite Hf1, Hf3, Hf4, !Z.lor_0_r. split_and!; try done. by rewrite Hd.
Qed.

Lemma quiet_mild x y : quiet x y -> mild x y.
Proof. intros (H1 & H2 & H3 & H4 & H5). unfold mild, phase, ok_bit, required_bit. by rewrite H3, H4, H5. Qed.

(** ** Transmission *)

Lemma tx_fragment_quiet (x y : sys) tx len next r : tx_fragment x = Some (tx, len, next) -> tx x = (r, y) -> quiet x y.
Proof.
  unfold tx_fragment. destruct (tx_state (s_tx (ses x))); [done|intros [= <- <- <-]..].
  - unfold iscsi_tx_bhs. destruct (so_deliver _ _). by intros [= _ <-].
  - by intros [= _ <-].
  - unfold iscsi_tx_data. case_decide; [|case_decide; [|by intros [= _ <-]]].
    + unfold iscsi_tx_data_out. destruct (s_command (ses x)); [|by intros [= _ <-]]. destruct (negb _); [by intros [= _ <-]|]. cbv zeta.
      destruct (so_deliver _ _). intros [= _ <-]. by case_decide.
    + unfold iscsi_tx_login_request. destruct (negb _); [by intros [= _ <-]|]. destruct (iscsi_build_login_request_strings _ _) as [[]|]; [|by intros [= _ <-]].
      destruct (so_deliver _ _). by intros [= _ <-].
Qed.

Lemma start_data_out_quiet k (x : sys) : quiet x (start_data_out k x).
Proof. unfold start_data_out. by case_bool_decide. Qed.

Lemma tx_done_mild (x : sys) : mild x (iscsi_tx_done x).
Proof.
  unfold iscsi_tx_done. cbv zeta. set (x1 := iscsi_tx_pause x). case_decide; [|case_decide; [|by apply quiet_mild]].
  - apply quiet_mild. unfold iscsi_data_out_done. case_decide; [|done]. apply (quiet_trans _ x1); [done|apply start_data_out_quiet].
  - unfold mild, phase, ok_bit, required_bit. cbn -[Z.land Z.lor]. rewrite <- !Z.land_assoc. done.
Qed.

Lemma tx_step_mild fuel (x y : sys) : iscsi_tx_step fuel x = Some y -> mild x y.
Proof.
  revert x. induction fuel as [|fuel IH]; intros x; [done|]. cbn [iscsi_tx_step].
  destruct (tx_fragment x) as [[[tx len] next]|] eqn:Hf; [|intros [= <-]; by apply quiet_mild]. case_decide; [intros [= <-]; by apply quiet_mild|].
  destruct (tx x) as [[[]|rc] x1] eqn:Et; pose proof (tx_fragment_quiet _ _ _ _ _ _ Hf Et) as Hq.
  - intros E. eapply mild_trans; [apply quiet_mild, Hq|]. eapply mild_trans; [|apply IH, E]. case_decide; [|by apply quiet_mild].
    eapply mild_trans; [|apply tx_done_mild]. by apply quiet_mild.
  - intros [= <-]. apply quiet_mild. eapply quiet_trans; [exact Hq|apply iscsi_close_quiet].
Qed.

(** ** Strings of a login response *)

(** [v] is the answer to a challenge, as the digest of the target's secret. *)
Definition answers (c : credentials) (ch v : list Z) : Prop :=
  exists raw, iscsi_large_binary_decode v raw = Ok (md5 ([u8 (get8 ch 0)] ++ default [] (target_password c) ++ drop 1 ch)).

(** A string of a list of strings that end in zeros. *)
Definition string_at (pre string post strings : list Z) : Prop :=
  strings = pre ++ string ++ [0] ++ post /\ (0 ∉ string) /\ (pre = [] \/ exists l, pre = l ++ [0]).

(** The target sent a challenge of its own, upon which the session chooses a new one. *)
Definition challenges (strings : list Z) : Prop := exists pre v post, string_at pre (lit "CHAP_C=" ++ v) post strings.

(** The strings contain an answer to the challenge of the session, which is
    [ch] unless they made it choose another one before. *)
Definition presents (c : credentials) (ch strings : list Z) : Prop :=
  exists pre v post ch', string_at pre (lit "CHAP_R=" ++ v) post strings /\ length ch' = 17%nat /\ answers c ch' v /\ (ch' = ch \/ challenges pre).

(** The effect of strings: a new challenge, an answer, or nothing that matters. *)
Definition string_effect (chosen answered : Prop) (x y : sys) : Prop :=
  cr y = cr x /\ s_closed (ses y) = s_closed (ses x) /\ (length (s_challenge (ses x)) = 17%nat -> length (s_challenge (ses y)) = 17%nat) /\
  phase y = phase x /\ required_bit y = required_bit x /\ rxb y = rxb x /\ (ok_bit y = ok_bit x \/ answered) /\
  (s_challenge (ses y) = s_challenge (ses x) \/ chosen).

Lemma random_bytes_length n (w : W) : length (random_bytes n w).1 = n.
Proof. revert w. induction n as [|n IH]; intros w; [done|]. cbn. destruct (random w) as [v w1]. specialize (IH w1). destruct (random_bytes n w1). cbn in *. by rewrite IH. Qed.

Lemma or_effect (x : sys) f (C P : Prop) :
  Z.land f (Z.lor 15 393216) = 0 -> string_effect C P x (on_ses (fun s => set_s_status (Z.lor (s_status s) f) s) x).
Proof. intros Hf. destruct (mild_or x (on_ses (fun s => set_s_status (Z.lor (s_status s) f) s) x) f) as (H1 & _ & H3 & H4 & H5 & H6 & H7); try done. split_and!; try done; by left. Qed.

Lemma string_effect_trans C P x y z : string_effect C P x y -> string_effect C P y z -> string_effect C P x z.
Proof.
  intros (H1 & H2 & H3 & H4 & H5 & H7 & H6 & H8) (G1 & G2 & G3 & G4 & G5 & G7 & G6 & G8). split_and!; try congruence; [auto| |].
  - destruct G6; [|by right]. destruct H6; [left; congruence|by right].
  - destruct G8; [|by right]. destruct H8; [left; congruence|by right].
Qed.

Lemma string_effect_impl (C P C' P' : Prop) x y : (C -> C') -> (P -> P') -> string_effect C P x y -> string_effect C' P' x y.
Proof. intros HC HP (H1 & H2 & H3 & H4 & H5 & H7 & H6 & H8). split_and!; try done; [destruct H6; auto|destruct H8; auto]. Qed.

Lemma malloc_effect C P n (x : sys) : string_effect C P x (malloc n x).2.
Proof. unfold malloc. destruct (heap_alloc n (world x)). split_and!; try done; by left. Qed.

Definition answered (x : sys) (v : list Z) : Prop := answers (cr x) (s_challenge (ses x)) v.

Ltac same_effect := split_and!; (done || by left).

Lemma chap_r_effect C v (x : sys) : string_effect C (answered x v) x (iscsi_handle_chap_r_value v x).2.
Proof.
  unfold iscsi_handle_chap_r_value, chap_init. set (x0 := on_ses (set_s_chap None) x).
  pose proof (malloc_effect C (answered x v) 104 x0) as M1. destruct (malloc 104 x0) as [[b|] x1] eqn:E1; cbn [snd] in M1; [|exact M1].
  assert (s_challenge (ses x1) = s_challenge (ses x) /\ cr x1 = cr x) as [Hch Hcr] by (unfold malloc in E1; destruct (heap_alloc _ _); injection E1 as _ <-; done).
  rewrite Hch, Hcr. set (c := chap_respond _). set (x2 := on_ses (set_s_chap c) x1).
  pose proof (malloc_effect C (answered x v) (Z.of_nat (length v)) x2) as M2. destruct (malloc _ x2) as [[raw|] x3]; cbn [snd] in M2; [|by eapply string_effect_trans; [exact M1|exact M2]].
  destruct (iscsi_large_binary_decode v raw) as [data|] eqn:Ed; cbn [snd]; [|by eapply string_effect_trans; [exact M1|exact M2]].
  destruct (decide (length data <> _)); cbn [snd]; [by eapply string_effect_trans; [exact M1|exact M2]|].
  destruct (decide (data <> default [] (ch_response <$> c))) as [Hne|Heq%dec_stable]; cbn [snd]; [by eapply string_effect_trans; [exact M1|exact M2]|].
  eapply string_effect_trans; [exact M1|]. eapply string_effect_trans; [exact M2|].
  unfold string_effect, phase, required_bit. cbn -[Z.land Z.lor]. rewrite !Z.land_lor_distr_l. split_and!; try done; [by rewrite Z.lor_0_r..| |by left]. right.
  exists raw. rewrite Ed, Heq. f_equal. unfold c. destruct (target_password (cr x)); cbn; by rewrite ?app_nil_r.
Qed.

Definition type_effect (key v : list Z) (x y : sys) : Prop := string_effect (key = lit "CHAP_C") (key = lit "CHAP_R" /\ answered x v) x y.

Lemma iscsi_string_types_effect : Forall (fun '(key, handle) => forall v (x : sys), type_effect key v x (handle v x).2) iscsi_string_types.
Proof.
  unfold iscsi_string_types, type_effect. repeat apply Forall_cons_2; [..|apply Forall_nil_2]; intros v x; set (C := _ = lit "CHAP_C"); set (P := _ /\ answered x v).
  - unfold iscsi_handle_targetaddress_value. pose proof (malloc_effect C P (Z.of_nat (length v) + 1) x) as M1. destruct (malloc _ x) as [[b|] x1]; [|exact M1].
    destruct (index_of 58 v); exact M1.
  - unfold iscsi_handle_authmethod_value. case_decide; [by apply or_effect|same_effect].
  - unfold iscsi_handle_chap_a_value. case_decide; same_effect.
  - unfold iscsi_handle_chap_i_value. destruct (strtoul_string v 0). case_decide; [same_effect|]. unfold chap_init.
    pose proof (malloc_effect C P 104 (on_ses (set_s_chap None) x)) as M1. destruct (malloc 104 _) as [[b|] x1]; exact M1.
  - unfold iscsi_handle_chap_c_value. pose proof (malloc_effect C P (Z.of_nat (length v)) x) as M1. destruct (malloc _ x) as [[b|] x1]; [|exact M1].
    destruct (iscsi_large_binary_decode v b) as [data|]; [|exact M1]. cbv zeta. set (x2 := on_ses _ x1).
    assert (string_effect C P x x2) as M2.
    { eapply string_effect_trans; [exact M1|]. apply (or_effect (on_ses (fun s => set_s_chap (chap_respond (chap_update data (s_chap s))) s) x1) ISCSI_STATUS_STRINGS_CHAP_RESPONSE). done. }
    destruct (target_username (cr x2)); [|exact M2]. pose proof (random_bytes_length 17 (world x2)) as Hr. destruct (random_bytes 17 (world x2)) as [rb w]. cbn [fst] in Hr. cbn [snd].
    eapply string_effect_trans; [exact M2|]. destruct (or_effect x2 ISCSI_STATUS_STRINGS_CHAP_CHALLENGE C P ltac:(done)) as (G1 & G2 & _ & G4 & G5 & G7 & G6 & _). split_and!; try done. by right.
  - unfold iscsi_handle_chap_n_value. destruct (target_username (cr x)); [case_decide|]; same_effect.
  - eapply string_effect_impl; [..|exact (chap_r_effect C v x)]; [done|]. by split.
Qed.

(** A key that is not taken for CHAP_A but for another of these types is complete. *)
Lemma key_whole key a b :
  take (length key) (lit "CHAP_" ++ [a]) <> key -> take (length key) (lit "CHAP_" ++ [b]) = key -> key = lit "CHAP_" ++ [b].
Proof.
  intros Ha Hb. destruct (decide (6 <= length key)%nat) as [Hl|Hl]; [by rewrite take_ge in Hb by done|].
  destruct Ha. rewrite take_app_le in Hb |- * by (change (length (lit "CHAP_")) with 5%nat; lia). done.
Qed.

Lemma find_type_effect key handle v (x : sys) : find_type key iscsi_string_types = Some handle -> type_effect key v x (handle v x).2.
Proof.
  pose proof iscsi_string_types_effect as Hall. unfold iscsi_string_types in *. rewrite !Forall_cons in Hall. destruct Hall as (H1 & H2 & H3 & H4 & H5 & H6 & H7 & _).
  assert (forall k h, type_effect k v x (h v x).2 -> (k = lit "CHAP_C" \/ k = lit "CHAP_R" -> key = k) -> Some h = Some handle -> type_effect key v x (handle v x).2) as Hk.
  { intros k h He Hkey [= ->]. eapply string_effect_impl; [..|exact He].
    - intros E. rewrite Hkey by auto. done.
    - intros [E Ha]. rewrite Hkey by auto. done. }
  cbn [find_type]. case_decide; [apply (Hk _ _ (H1 v x)); by intros []|]. case_decide; [apply (Hk _ _ (H2 v x)); by intros []|].
  case_decide as Hc; [apply (Hk _ _ (H3 v x)); by intros []|]. case_decide; [apply (Hk _ _ (H4 v x)); by intros []|].
  case_decide; [apply (Hk _ _ (H5 v x)); intros _; by apply (key_whole key 65 67)|]. case_decide; [apply (Hk _ _ (H6 v x)); by intros []|].
  case_decide; [|done]. apply (Hk _ _ (H7 v x)). intros _. by apply (key_whole key 65 82).
Qed.

Lemma index_of_split c l n : index_of c l = Some n -> l = take n l ++ [c] ++ drop (S n) l /\ c ∉ take n l.
Proof.
  revert n. induction l as [|d l IH]; intros n; cbn [index_of]; [done|]. case_decide as Hd; [intros [= <-]; subst; split; [done|apply not_elem_of_nil]|].
  destruct (index_of c l) as [k|]; [|done]. intros [= <-]. destruct (IH k eq_refl) as [E Hn]. cbn. split; [by f_equal|]. by apply not_elem_of_cons.
Qed.

Lemma handle_string_effect string (x : sys) :
  string_effect (exists v, string = lit "CHAP_C=" ++ v) (exists v, string = lit "CHAP_R=" ++ v /\ answered x v) x (iscsi_handle_string string x).2.
Proof.
  unfold iscsi_handle_string. destruct (index_of 61 string) as [n|] eqn:E; [|same_effect]. case_decide; [same_effect|].
  destruct (find_type _ _) as [handle|] eqn:Et; [|same_effect]. apply index_of_split in E as [E _].
  eapply string_effect_impl; [..|exact (find_type_effect _ _ (drop (S n) string) x Et)].
  - intros Hk. exists (drop (S n) string). rewrite E at 1. by rewrite Hk.
  - intros [Hk Ha]. exists (drop (S n) string). split; [|done]. rewrite E at 1. by rewrite Hk.
Qed.

Lemma string_at_later string' pre string post strings :
  0 ∉ string' -> string_at pre string post strings -> string_at (string' ++ [0] ++ pre) string post (string' ++ [0] ++ strings).
Proof.
  intros Hn (-> & Hs & Hp). split_and!; [by rewrite <- !app_assoc|done|]. right. destruct Hp as [-> |[l ->]].
  - by exists string'.
  - exists (string' ++ [0] ++ l). by rewrite <- !app_assoc.
Qed.

Lemma handle_strings_effect fuel strings (x : sys) :
  length (s_challenge (ses x)) = 17%nat -> string_effect (challenges strings) (presents (cr x) (s_challenge (ses x)) strings) x (handle_strings fuel strings x).2.
Proof.
  revert strings x. induction fuel as [|fuel IH]; intros strings x Hl; cbn [handle_strings]; [same_effect|].
  destruct (index_of 0 strings) as [n|] eqn:E; [|same_effect]. apply index_of_split in E as [E Hn]. set (s := take n strings) in *. set (rest := drop (S n) strings) in *. clearbody s rest. subst strings.
  pose proof (handle_string_effect s x) as M1. destruct (iscsi_handle_string s x) as [r y]; cbn [snd] in M1.
  assert (string_effect (challenges (s ++ [0])) (presents (cr x) (s_challenge (ses x)) (s ++ [0] ++ rest)) x y) as Hy.
  { eapply string_effect_impl; [..|exact M1].
    - intros (v & ->). exists [], v, []. split_and!; [done|done|by left].
    - intros (v & -> & Ha). exists [], v, rest, (s_challenge (ses x)). split_and!; [split_and!; [done|done|by left]|done|done|by left]. }
  assert (forall tail, challenges (s ++ [0]) -> challenges (s ++ [0] ++ tail)) as Happ.
  { intros tail (pre & v & post & Hs & Hv & Hp). exists pre, v, (post ++ tail). split_and!; [|done|done]. rewrite app_assoc, Hs. by rewrite <- !app_assoc. }
  destruct r as [[]|]; cbn [snd]; [|eapply string_effect_impl; [..|exact Hy]; [apply Happ|done]].
  pose proof Hy as (M2 & _ & M3 & _ & _ & _ & _ & M8). specialize (M3 Hl). eapply string_effect_trans; [eapply string_effect_impl; [..|exact Hy]; [apply Happ|done]|].
  eapply string_effect_impl; [..|exact (IH rest y M3)].
  - intros (pre & v & post & Hs). exists (s ++ [0] ++ pre), v, post. by apply string_at_later.
  - intros (pre & v & post & ch & Hs & Hch & Ha & Hc). exists (s ++ [0] ++ pre), v, post, ch. rewrite M2 in Ha. split_and!; [by apply string_at_later|done|done|].
    destruct Hc as [-> |(pre' & v' & post' & Hc)]; [|right; exists (s ++ [0] ++ pre'), v', post'; by apply string_at_later].
    destruct M8 as [-> |M8]; [by left|right]. by apply Happ.
Qed.

(** ** The invariant *)

(** The blocks of the heap have the size that was asked for. *)
Context (heap_sized : forall n w b w', heap_alloc n w = (Some b, w') -> Z.of_nat (length b) = Z.max 0 n).

(** The data segment has the length in the header. *)
Definition pdu_sized (p : pdu) : Prop := Z.of_nat (length (p_data p)) = ISCSI_DATA_LEN (p_bhs p).

(** A login response that presents an answer; with a PDU comes the challenge of the session when it arrived. *)
Definition authenticates (c : credentials) (arrival : list Z * pdu) : Prop :=
  opcode_of (p_bhs arrival.2) = ISCSI_OPCODE_LOGIN_RESPONSE /\ presents c arrival.1 (p_data arrival.2).

(** What holds of a session, also after an error. *)
Record traced (hist : list (list Z * pdu)) (c : credentials) (x : sys) : Prop := {
  tr_cred : cr x = c;
  tr_challenge : length (s_challenge (ses x)) = 17%nat;
  tr_ok : ok_bit x <> 0 -> Exists (authenticates c) hist;
}.

(** What holds before the end of the login is checked. *)
Record pending (hist : list (list Z * pdu)) (c : credentials) (x : sys) : Prop := {
  pe_traced : traced hist c x;
  pe_required : s_closed (ses x) = false -> target_username c <> None -> required_bit x <> 0;
  pe_buffer : s_closed (ses x) = false -> rxb x = None;
}.

Record guarded (hist : list (list Z * pdu)) (c : credentials) (x : sys) : Prop := {
  gu_pending : pending hist c x;
  gu_full : s_closed (ses x) = false -> phase x = ISCSI_STATUS_FULL_FEATURE_PHASE -> target_username c <> None -> ok_bit x <> 0;
}.

Lemma traced_mild hist c x y : mild x y -> traced hist c x -> traced hist c y.
Proof. intros (M1 & M2 & M3 & M4 & M5 & M6 & M7) [T1 T2 T3]. constructor; [congruence|congruence|by rewrite M5]. Qed.

Lemma guarded_mild hist c x y : mild x y -> guarded hist c x -> guarded hist c y.
Proof.
  intros M [[T P1 P2] G]. pose proof (traced_mild hist c x y M T) as T'. destruct M as (_ & M2 & _ & M4 & M5 & M6 & M7).
  assert (s_closed (ses y) = false -> s_closed (ses x) = false) as Hcl by (intros Hy; destruct (s_closed (ses x)); [by rewrite M2 in Hy|done]).
  constructor; [constructor; [done|rewrite M6; auto|rewrite M7; auto]|rewrite M4, M5; auto].
Qed.

Lemma traced_more hist a c x : traced hist c x -> traced (hist ++ [a]) c x.
Proof. intros [T1 T2 T3]. constructor; [done..|]. intros Hok. apply Exists_app. auto. Qed.

Lemma guarded_more hist a c x : guarded hist c x -> guarded (hist ++ [a]) c x.
Proof. intros [[T P1 P2] G]. constructor; [constructor; [by apply traced_more|done|done]|done]. Qed.

(** A session that is closed after an error. *)
Lemma closed_guarded hist c rc x : traced hist c x -> guarded hist c (iscsi_close rc x).
Proof.
  intros T. pose proof (iscsi_close_closed rc x) as Hcl. apply (traced_mild _ _ _ _ (quiet_mild _ _ (iscsi_close_quiet rc x))) in T.
  constructor; [constructor; [done|congruence|congruence]|congruence].
Qed.

(** ** Login responses *)

Lemma login_next_guarded hist c x :
  pending hist c x -> match login_next x with (Ok _, y) => guarded hist c y | (Err _, y) => traced hist c y end.
Proof.
  intros [T P1 P2]. unfold login_next. case_decide as Hph.
  - constructor; [constructor; [by destruct T|exact P1|exact P2]|]. intros _ E. by destruct Hph.
  - destruct (has ISCSI_STATUS_AUTH_REVERSE_REQUIRED _ && negb _) eqn:E; [done|].
    apply (guarded_mild _ _ x); [apply quiet_mild, run_quiet|]. constructor; [by constructor|]. intros Hcl _ Hu Hok. specialize (P1 Hcl Hu).
    unfold has in E. rewrite bool_decide_eq_true_2 in E by exact P1. rewrite bool_decide_eq_false_2 in E; [done|]. intros Hne. by apply Hne.
Qed.

Lemma status_cleared x f :
  Z.land f (Z.lor ISCSI_STATUS_AUTH_REVERSE_REQUIRED ISCSI_STATUS_AUTH_REVERSE_OK) = 0 ->
  let y := on_ses (fun s => set_s_status (Z.lor (s_status s) f) s) (on_ses (fun s => set_s_status (Z.land (s_status s) (Z.lnot (Z.lor ISCSI_STATUS_PHASE_MASK ISCSI_STATUS_STRINGS_MASK))) s) x) in
  required_bit y = required_bit x /\ ok_bit y = ok_bit x.
Proof.
  intros Hf. cbv zeta. rewrite Z.land_lor_distr_r in Hf. apply Z.lor_eq_0_iff in Hf as [Hf1 Hf2]. unfold required_bit, ok_bit. cbn -[Z.land Z.lor Z.lnot ISCSI_STATUS_AUTH_REVERSE_REQUIRED ISCSI_STATUS_AUTH_REVERSE_OK ISCSI_STATUS_PHASE_MASK ISCSI_STATUS_STRINGS_MASK].
  rewrite !Z.land_lor_distr_l, Hf1, Hf2, !Z.lor_0_r, <- !Z.land_assoc. done.
Qed.

Lemma pending_status hist c x y :
  cr y = cr x -> s_challenge (ses y) = s_challenge (ses x) -> s_closed (ses y) = s_closed (ses x) -> rxb y = rxb x ->
  required_bit y = required_bit x /\ ok_bit y = ok_bit x -> pending hist c x -> pending hist c y.
Proof.
  intros E1 E2 E3 E4 [E5 E6] [[T1 T2 T3] P1 P2].
  constructor; [constructor; [congruence|congruence|by rewrite E6]|by rewrite E3, E5|by rewrite E3, E4].
Qed.

Lemma login_transition_guarded bhs hist c x :
  pending hist c x -> match login_transition bhs x with (Ok _, y) => guarded hist c y | (Err _, y) => traced hist c y end.
Proof.
  intros P. unfold login_transition. case_decide; [by destruct P|]. case_decide; [|by apply login_next_guarded]. cbv zeta.
  case_decide; [|case_decide].
  - apply login_next_guarded. eapply pending_status; [..|exact P]; try reflexivity. by apply status_cleared.
  - apply login_next_guarded. eapply pending_status; [..|exact P]; try reflexivity. by apply status_cleared.
  - destruct P as [[T1 T2 T3] _ _]. constructor; [done..|]. intros Hok. apply T3. intros E. apply Hok. revert E. unfold ok_bit. cbn -[Z.land Z.lor Z.lnot].
    intros E. rewrite <- Z.land_assoc. exact E.
Qed.

(** The session logs in to another target. *)
Lemma open_connection_guarded hist c x :
  cr x = c -> length (s_challenge (ses x)) = 17%nat -> rxb x = None -> Z.land (st x) ISCSI_STATUS_AUTH_REVERSE_OK = 0 ->
  match iscsi_open_connection x with (Ok _, y) => guarded hist c y | (Err _, y) => traced hist c y end.
Proof.
  intros Hc Hl Hb Hok. unfold iscsi_open_connection. destruct (so_open _ _ _) as [[[]|] w].
  - cbv zeta. rewrite <- Hc. change (s_cred (ses (set_world w x))) with (cr x). destruct (random _) as [v w1].
    match goal with |- guarded _ _ ?z => set (y := z) end. assert (st y = Z.lor 257 (match target_username (cr x) with Some _ => 131072 | None => 0 end)) as Hst by (unfold y; by destruct (target_username (cr x))).
    assert (ok_bit y = 0 /\ phase y = 1 /\ (target_username (cr x) <> None -> required_bit y = 131072)) as (Hy1 & Hy2 & Hy3) by (unfold ok_bit, phase, required_bit; rewrite Hst; by destruct (target_username (cr x))).
    constructor; [constructor; [constructor; [done|exact Hl|by rewrite Hy1]| |intros _; exact Hb]|by rewrite Hy2]. intros _ Hu. by rewrite Hy3.
  - constructor; [done|exact Hl|]. intros E. by apply E in Hok.
Qed.

Lemma buffered_quiet data (x : sys) : let y := (iscsi_rx_buffered_data data x).2 in
  cr y = cr x /\ s_closed (ses y) = s_closed (ses x) /\ st y = st x /\ s_challenge (ses y) = s_challenge (ses x).
Proof.
  unfold iscsi_rx_buffered_data, malloc. destruct (rx_buffer _); [|destruct (heap_alloc _ _) as [[] ?]; [|done]]; cbv zeta; by case_decide.
Qed.

Lemma buffered_whole data (x y : sys) :
  rxb x = None -> rx_offset (s_rx (ses x)) = 0 -> rx_len (s_rx (ses x)) = Z.of_nat (length data) -> iscsi_rx_buffered_data data x = (Ok tt, y) -> rxb y = Some data.
Proof.
  intros Hb Ho Hl. unfold iscsi_rx_buffered_data. rewrite Hb. unfold malloc. destruct (heap_alloc _ _) as [[b|] w] eqn:E; [|done].
  apply heap_sized in E. rewrite Hl in E. intros [= <-]. case_decide; cbn; rewrite Ho; f_equal; apply inserts_full; lia.
Qed.

(** The data segment is complete. *)
Ltac complete := rewrite (decide_False (P := 0 <> 0)) by (intros ?; lia).

Definition same_login (x y : sys) : Prop :=
  cr y = cr x /\ s_closed (ses y) = s_closed (ses x) /\ st y = st x /\ s_challenge (ses y) = s_challenge (ses x).

Lemma guarded_same hist c x y : same_login x y -> rxb y = None -> guarded hist c x -> guarded hist c y.
Proof.
  intros (E1 & E2 & E3 & E4) Hb [[[T1 T2 T3] P1 P2] G].
  constructor; [constructor; [constructor; [congruence|congruence|unfold ok_bit; by rewrite E3]|unfold required_bit; by rewrite E2, E3|done]|unfold phase, ok_bit; by rewrite E2, E3].
Qed.

Lemma traced_same hist c x y : same_login x y -> traced hist c x -> traced hist c y.
Proof. intros (E1 & E2 & E3 & E4) [T1 T2 T3]. constructor; [congruence|congruence|unfold ok_bit; by rewrite E3]. Qed.

Lemma scsi_response_guarded data hist c x :
  guarded hist c x -> match iscsi_rx_scsi_response data 0 x with (Ok _, y) => guarded hist c y | (Err _, y) => traced hist c y end.
Proof.
  intros G. unfold iscsi_rx_scsi_response. pose proof (buffered_quiet data x) as Hq. destruct (iscsi_rx_buffered_data data x) as [[[]|rc] y]; cbn [snd] in Hq; [|by eapply traced_same; [exact Hq|apply G]].
  complete. cbv zeta. set (z := on_ses rx_done _). assert (same_login x z /\ rxb z = None) as [Hz Hb] by (unfold z; case_decide; done).
  case_decide; [by eapply traced_same; [exact Hz|apply G]|]. eapply guarded_mild; [apply quiet_mild, iscsi_scsi_done_quiet|]. by apply (guarded_same _ _ x).
Qed.

Lemma data_in_guarded data hist c x :
  guarded hist c x -> match iscsi_rx_data_in data 0 x with (Ok _, y) => guarded hist c y | (Err _, y) => traced hist c y end.
Proof.
  intros G. unfold iscsi_rx_data_in. cbv zeta. match goal with |- context [iscsi_scsi_done _ _ ?z] => set (y := z) end.
  assert (quiet x y) as Hq by (unfold y; destruct (s_command (ses x)); [case_decide|]; done). apply quiet_mild in Hq.
  complete. case_decide; [|by apply (guarded_mild _ _ x)]. eapply guarded_mild; [apply quiet_mild, iscsi_scsi_done_quiet|]. by apply (guarded_mild _ _ x).
Qed.

Lemma login_response_guarded p hist c x :
  rx_bhs (s_rx (ses x)) = p_bhs p -> rx_offset (s_rx (ses x)) = 0 -> rx_len (s_rx (ses x)) = ISCSI_DATA_LEN (p_bhs p) -> pdu_sized p ->
  opcode_of (p_bhs p) = ISCSI_OPCODE_LOGIN_RESPONSE -> s_closed (ses x) = false -> guarded hist c x ->
  match iscsi_rx_login_response (p_data p) 0 x with (Ok _, y) => guarded (hist ++ [(s_challenge (ses x), p)]) c y | (Err _, y) => traced (hist ++ [(s_challenge (ses x), p)]) c y end.
Proof.
  intros Hbhs Ho Hlen Hp Hop Hcl G. unfold iscsi_rx_login_response. pose proof (buffered_quiet (p_data p) x) as Hq.
  destruct (iscsi_rx_buffered_data (p_data p) x) as [[[]|rc] y] eqn:E; cbn [snd] in Hq; [|apply traced_more; by eapply traced_same; [exact Hq|apply G]].
  complete. apply buffered_whole in E; [|by apply G|done|by rewrite Hlen, Hp]. cbv zeta. rewrite E. cbn [default from_option].
  destruct Hq as (Q1 & Q2 & Q3 & Q4). destruct G as [[[T1 T2 T3] P1 P2] G]. unfold iscsi_handle_strings.
  pose proof (handle_strings_effect (length (p_data p)) (p_data p) y ltac:(congruence)) as (S1 & S2 & S3 & S4 & S5 & S7 & S6 & _).
  destruct (handle_strings _ _ _) as [[[]|rc] z]; cbn [snd] in *.
  all: assert (traced (hist ++ [(s_challenge (ses x), p)]) c z) as T; [constructor; [congruence|apply S3; congruence|]; intros Hok; apply Exists_app; destruct S6 as [S6|S6];
    [left; apply T3; revert Hok; rewrite S6; unfold ok_bit; by rewrite Q3|right; apply Exists_cons_hd; split; [done|]; by rewrite <- T1, <- Q1, <- Q4]|].
  2: exact T.
  case_decide.
  - destruct T as [T1' T2' _]. apply open_connection_guarded; done.
  - apply login_transition_guarded. constructor; [by destruct T| |done]. change (required_bit (on_ses rx_done z)) with (required_bit z). intros _ Hu. rewrite S5. unfold required_bit. rewrite Q3. by apply P1.
Qed.

Lemma handle_pdu_guarded p hist c x :
  pdu_sized p -> s_closed (ses x) = false -> guarded hist c x ->
  match handle_pdu p x with (Ok _, y) => guarded (hist ++ [(s_challenge (ses x), p)]) c y | (Err _, y) => traced (hist ++ [(s_challenge (ses x), p)]) c y end.
Proof.
  intros Hp Hcl G. unfold handle_pdu, iscsi_rx_data. set (x0 := map_rx _ x). cbv zeta. change (rx_bhs (s_rx (ses x0))) with (p_bhs p). set (x1 := on_ses _ x0).
  assert (guarded hist c x1) as G1 by (apply (guarded_same _ _ x); [done|by apply G|done]).
  assert (forall r : result unit * sys, match r with (Ok _, y) => guarded (hist ++ [(s_challenge (ses x), p)]) c y | (Err _, y) => traced (hist ++ [(s_challenge (ses x), p)]) c y end ->
    match (match r with (Ok _, y) => (Ok tt, map_rx (fun r => Rx (rx_bhs r) ISCSI_RX_BHS 0 48 (rx_buffer r)) y) | (Err rc, y) => (Err rc, y) end)
    with (Ok _, y) => guarded (hist ++ [(s_challenge (ses x), p)]) c y | (Err _, y) => traced (hist ++ [(s_challenge (ses x), p)]) c y end) as Hdone.
  { intros [[[]|] y] Gy; [|done]. eapply guarded_mild; [|exact Gy]. done. }
  apply Hdone. clear Hdone. fold (opcode_of (p_bhs p)).
  assert (forall r : result unit * sys, match r with (Ok _, y) => guarded hist c y | (Err _, y) => traced hist c y end ->
    match r with (Ok _, y) => guarded (hist ++ [(s_challenge (ses x), p)]) c y | (Err _, y) => traced (hist ++ [(s_challenge (ses x), p)]) c y end) as Hmore.
  { intros [[[]|] y] Gy; [by apply guarded_more|by apply traced_more]. }
  case_decide as Hop; [change (s_challenge (ses x)) with (s_challenge (ses x1)); by apply login_response_guarded|]. apply Hmore.
  case_decide; [by apply scsi_response_guarded|]. case_decide; [by apply data_in_guarded|]. case_decide.
  { unfold iscsi_rx_r2t. eapply guarded_mild; [|exact G1]. apply quiet_mild. eapply quiet_trans; [|apply start_data_out_quiet]. done. }
  case_decide; [done|]. case_decide; [done|]. apply G1.
Qed.

(** ** Executions *)

Definition pdus (evs : list event) : list pdu := omap (fun e => match e with EvPdu p => Some p | _ => None end) evs.

(** The PDUs of an execution with the challenges at their arrival. *)
Definition arrival (e : event) (x : sys) : list (list Z * pdu) := match e with EvPdu p => [(s_challenge (ses x), p)] | _ => [] end.
Fixpoint arrivals (evs : list event) (x : sys) : list (list Z * pdu) :=
  match evs with
  | [] => []
  | e :: evs => arrival e x ++ arrivals evs (step e x)
  end.

Lemma arrivals_elem evs (x : sys) ch p :
  (ch, p) ∈ arrivals evs x -> exists evs1 evs2, evs = evs1 ++ EvPdu p :: evs2 /\ ch = s_challenge (ses (steps evs1 x)).
Proof.
  revert x. induction evs as [|e evs IH]; intros x; cbn [arrivals]; [by intros ?%not_elem_of_nil|]. intros [Hin|Hin]%elem_of_app.
  - destruct e; cbn [arrival] in Hin; try by apply not_elem_of_nil in Hin. apply list_elem_of_singleton in Hin. injection Hin as -> ->. by exists [], evs.
  - destruct (IH _ Hin) as (evs1 & evs2 & -> & ->). by exists (e :: evs1), evs2.
Qed.

Lemma step_guarded e hist c x : Forall pdu_sized (pdus [e]) -> guarded hist c x -> guarded (hist ++ arrival e x) c (step e x).
Proof.
  intros Hs G. destruct e as [p|fuel| |rc|r|f]; cbn [pdus omap list_omap arrival] in Hs |- *; rewrite ?app_nil_r; unfold step.
  - destruct (s_closed (ses x)) eqn:Hcl; [by apply guarded_more|]. apply Forall_cons in Hs as [Hs _].
    pose proof (handle_pdu_guarded p hist c x Hs Hcl G) as Gp. destruct (handle_pdu p x) as [[[]|rc] y]; [done|by apply closed_guarded].
  - destruct (s_closed (ses x)); [done|]. destruct (tx_process _); [|done]. destruct (iscsi_tx_step fuel x) as [y|] eqn:E; [|done]. by apply (guarded_mild _ _ x); [apply tx_step_mild in E|].
  - destruct (s_closed (ses x)); [done|]. by apply (guarded_mild _ _ x).
  - destruct (s_closed (ses x)); [done|]. apply closed_guarded, G.
  - destruct (s_closed (ses x)); [done|]. destruct r; [done|]. apply closed_guarded, G.
  - apply (guarded_mild _ _ x); [apply quiet_mild, run_quiet|done].
Qed.

Lemma steps_guarded evs hist c x : Forall pdu_sized (pdus evs) -> guarded hist c x -> guarded (hist ++ arrivals evs x) c (steps evs x).
Proof.
  revert hist x. induction evs as [|e evs IH]; intros hist x Hs G; [by rewrite app_nil_r|].
  assert (pdus (e :: evs) = pdus [e] ++ pdus evs) as E by (by destruct e). rewrite E in Hs. apply Forall_app in Hs as [Hs1 Hs2].
  cbn [arrivals]. rewrite app_assoc. apply (IH _ (step e x) Hs2). by apply step_guarded.
Qed.

Lemma guarded_ses hist c x y : ses y = ses x -> guarded hist c x -> guarded hist c y.
Proof.
  intros E [[[T1 T2 T3] P1 P2] G]. unfold phase, ok_bit, required_bit in *.
  constructor; [constructor; [constructor|..]|]; unfold phase, ok_bit, required_bit; rewrite ?E; done.
Qed.

(** A session that is to check the identity of the target, once it is
    connected. *)
Lemma steps_authenticated evs (x0 x1 x : sys) :
  length (s_challenge (ses x0)) = 17%nat -> rxb x0 = None -> Z.land (st x0) ISCSI_STATUS_AUTH_REVERSE_OK = 0 ->
  iscsi_open_connection x0 = (Ok tt, x1) -> ses x = ses x1 -> target_username (cr x0) <> None -> Forall pdu_sized (pdus evs) ->
  s_closed (ses (steps evs x)) = false -> phase (steps evs x) = ISCSI_STATUS_FULL_FEATURE_PHASE ->
  exists evs1 p evs2, evs = evs1 ++ EvPdu p :: evs2 /\ authenticates (cr x0) (s_challenge (ses (steps evs1 x)), p).
Proof.
  intros Hl Hb Hok Ho Hx Hu Hs Hcl Hw. pose proof (open_connection_guarded [] (cr x0) x0 eq_refl Hl Hb Hok) as G. rewrite Ho in G.
  apply (guarded_ses _ _ _ _ Hx) in G. apply (steps_guarded evs) in G as [[[T1 T2 T3] P1 P2] G]; [|done].
  assert (Exists (authenticates (cr x0)) (arrivals evs x)) as ([ch p] & Hin & Ha)%Exists_exists by (by apply T3, G).
  destruct (arrivals_elem _ _ _ _ Hin) as (evs1 & evs2 & -> & ->). by exists evs1, p, evs2.
Qed.

End login.
