(* ===== verification/IscsiOpen.v ===== *)
(** * Opening an iSCSI URI (net/tcp/iscsi.c)

    A root path such as "iscsi:10.0.0.1::3260:0:iqn.2000-01.org:disk" names the
    server, the port, the logical unit and the target; it parses as it is
    written ([iscsi_root_path_roundtrip]).  The credentials are settings, which
    are parameters here.  A session that is opened with a reverse user name
    sends commands only after the target has proved that it knows the reverse
    password ([iscsi_target_authenticated]); [iscsi_constant_challenge] is an
    execution in which the challenge that is answered was never sent, and
    [iscsi_redirect_overrun] one in which a redirection that arrives in two
    segments makes the session write past its header. *)

From stdpp Require Import gmap.
From S2P Require Import Prelude CMem Strings Vsprintf Encoding Scsi Iscsi IscsiRx IscsiRead IscsiLogin.

(** What the settings that the session uses say; the UUID as a string. *)
Record iscsi_settings := IscsiSettings {
  cfg_username : option (list Z);
  cfg_password : option (list Z);
  cfg_reverse_username : option (list Z);
  cfg_reverse_password : option (list Z);
  cfg_initiator_iqn : option (list Z);
  cfg_hostname : option (list Z);
  cfg_uuid : option (list Z);
}.

(** ** Root paths *)

(** The characters up to a colon that is not in brackets. *)
Fixpoint split_component (skip : bool) (rp : list Z) : option (list Z * bool * list Z) :=
  match rp with
  | [] => None
  | c :: rp =>
    if bool_decide (c = 58) && negb skip then Some ([], skip, rp) else
    let skip := if decide (c = 91) then true else if decide (c = 93) then false else skip in
    match split_component skip rp with
    | Some (l, skip, rest) => Some (c :: l, skip, rest)
    | None => None
    end
  end.

(** [n] components, and the rest. *)
Fixpoint split_root_path (n : nat) (skip : bool) (rp : list Z) : option (list (list Z)) :=
  match n with
  | O => Some [rp]
  | S n =>
    match split_component skip rp with
    | None => None
    | Some (l, skip, rest) => cons l <$> split_root_path n skip rest
    end
  end.

Definition ISCSI_DEFAULT_IQN_PREFIX : list Z := lit "iqn.2010-04.org.ipxe".

Section open.
Context {W : Type} `{IscsiEnv W}.
Abbreviation sys := (@sys W scsi_device).

Definition strdup (s : list Z) (x : sys) : option (list Z) * sys :=
  let (b, x) := malloc (Z.of_nat (length s) + 1) x in (match b with Some _ => Some s | None => None end, x).

Definition on_cred (f : credentials -> credentials) (x : sys) : sys := on_ses (fun s => set_s_cred (f (s_cred s)) s) x.

Definition set_target (iqn : option (list Z)) (c : credentials) : credentials :=
  Credentials (initiator_iqn c) iqn (initiator_username c) (initiator_password c) (target_username c) (target_password c) (target_lun c).
Definition set_lun (l : list Z) (c : credentials) : credentials :=
  Credentials (initiator_iqn c) (target_iqn c) (initiator_username c) (initiator_password c) (target_username c) (target_password c) l.
Definition set_initiator (iqn : option (list Z)) (c : credentials) : credentials :=
  Credentials iqn (target_iqn c) (initiator_username c) (initiator_password c) (target_username c) (target_password c) (target_lun c).

(** The components are strings in a copy of the path, here at the address 1
    each. *)
Definition iscsi_parse_root_path (root_path : list Z) (x : sys) : result unit * sys :=
  match strdup root_path x with
  | (None, x) => (Err ENOMEM, x)
  | (Some rp, x) =>
    match split_root_path 4 false rp with
    | Some [servername; protocol; port; lun; targetname] =>
      match strdup servername x with
      | (None, x) => (Err ENOMEM, on_ses (set_s_address None) x)
      | (Some address, x) =>
        let v := u32 (strtoul_string port 10).1 in
        let x := on_ses (fun s => set_s_port (if decide (v = 0) then ISCSI_PORT else v) (set_s_address (Some address) s)) x in
        match scsi_parse_lun (length lun + 3) (memcpy (fun _ => 0) 1 lun) 1 with
        | Some (Ok l) =>
          let (iqn, x) := strdup targetname (on_cred (set_lun l) x) in
          (match iqn with Some _ => Ok tt | None => Err ENOMEM end, on_cred (set_target iqn) x)
        | Some (Err rc) => (Err rc, x)
        | None => (Err EINVAL, x)
        end
      end
    | _ => (Err EINVAL, x)
    end
  end.

(** ** Settings *)

Definition asprintf (fmt : list Z) (args : list varg) (x : sys) : option (list Z) * sys :=
  match vcprintf fmt args with
  | Some s => strdup s x
  | None => (None, x)
  end.

Definition iscsi_fetch_settings (cfg : iscsi_settings) (x : sys) : result unit * sys :=
  let x := on_cred (fun c => Credentials (cfg_initiator_iqn cfg) (target_iqn c) (cfg_username cfg) (cfg_password cfg) (cfg_reverse_username cfg) (cfg_reverse_password cfg) (target_lun c)) x in
  let construct s :=
    let (iqn, x) := asprintf (ISCSI_DEFAULT_IQN_PREFIX ++ lit ":%s") [VStr (Some s)] x in
    (match iqn with Some _ => Ok tt | None => Err ENOMEM end, on_cred (set_initiator iqn) x) in
  match cfg_initiator_iqn cfg, cfg_hostname cfg, cfg_uuid cfg with
  | Some _, _, _ => (Ok tt, x)
  | None, Some hostname, _ => construct hostname
  | None, None, Some uuid => construct uuid
  | None, None, None => (Err EINVAL, x)
  end.

Definition given {A} (o : option A) : bool := match o with Some _ => true | None => false end.

Definition iscsi_check_auth (c : credentials) : result unit :=
  if xorb (given (initiator_username c)) (given (initiator_password c)) || xorb (given (target_username c)) (given (target_password c))
     || given (target_username c) && negb (given (initiator_username c))
  then Err EINVAL else Ok tt.

(** ** Opening *)

(** The memory of a new session is zero; [idx] is the static variable of
    [iscsi_new_itt]. *)
Definition new_session (idx : Z) : session :=
  Session (Credentials None None None None None None (replicate 8 0)) None 0 0 (replicate 17 0) None (Numbers idx 0 0 0 0 0 0 0)
          (Tx (replicate 48 0) ISCSI_TX_IDLE false) (Rx (replicate 48 0) ISCSI_RX_BHS 0 0 None) None None false false.

(** The session is freed. *)
Definition open_failed (rc : errno) (x : sys) : result sys * (Z * W) := (Err rc, (itt_idx (s_num (ses x)), world x)).

(** The sizes of the session and of the SCSI device are [size] and [dsize];
    the memory of the callers is [m].  No call reaches the device before it is
    attached, at the end. *)
Definition iscsi_open (size dsize : Z) (opaque : option (list Z)) (cfg : iscsi_settings) (m : mem) (idx : Z) (w : W) : result sys * (Z * W) :=
  match opaque with
  | None => (Err EINVAL, (idx, w))
  | Some root_path =>
    match heap_alloc size w with
    | (None, w) => (Err ENOMEM, (idx, w))
    | (Some _, w) =>
      let x := Sys (new_session idx) m w (scsi_open (replicate 8 0)) in
      match iscsi_parse_root_path root_path x with
      | (Err rc, x) => open_failed rc x
      | (Ok _, x) =>
        match iscsi_fetch_settings cfg x with
        | (Err rc, x) => open_failed rc x
        | (Ok _, x) =>
          match iscsi_check_auth (s_cred (ses x)) with
          | Err rc => open_failed rc x
          | Ok _ =>
            if negb (given (s_address (ses x))) then open_failed ENOTSUP x else
            if negb (given (target_iqn (s_cred (ses x)))) then open_failed EINVAL x else
            match iscsi_open_connection x with
            | (Err rc, x) => open_failed rc x
            | (Ok _, x) =>
              match malloc dsize x with
              | (None, x) => open_failed ENOMEM (set_world (so_close (Err ENOMEM) (world x)) x)
              | (Some _, x) =>
                let x := set_upper (scsi_open (target_lun (s_cred (ses x)))) x in
                (Ok x, (itt_idx (s_num (ses x)), world x))
              end
            end
          end
        end
      end
    end
  end.

(** ** Root paths parse as they are written *)

Definition plain (l : list Z) : Prop := Forall (fun c => c <> 58 /\ c <> 91) l.

(** A name or an IPv4 address, or an IPv6 address in brackets. *)
Definition host_ok (h : list Z) : Prop := plain h \/ exists inner, h = [91] ++ inner ++ [93] /\ Forall (fun c => c <> 93) inner.

Lemma split_plain l rest : plain l -> split_component false (l ++ 58 :: rest) = Some (l, false, rest).
Proof.
  induction l as [|c l IH]; intros Hl; [done|]. apply Forall_cons in Hl as [[H1 H2] Hl]. cbn [app split_component].
  rewrite bool_decide_false by done. cbn [andb]. rewrite (decide_False (P := c = 91)) by done. destruct (decide (c = 93)); by rewrite IH.
Qed.

Lemma split_brackets inner rest : Forall (fun c => c <> 93) inner -> split_component true (inner ++ 93 :: 58 :: rest) = Some (inner ++ [93], false, rest).
Proof.
  induction inner as [|c inner IH]; intros Hl; [done|]. apply Forall_cons in Hl as [H1 Hl]. cbn [app split_component].
  rewrite andb_false_r. rewrite (decide_False (P := c = 93)) by done. destruct (decide (c = 91)); by rewrite IH.
Qed.

Lemma split_host h rest : host_ok h -> split_component false (h ++ 58 :: rest) = Some (h, false, rest).
Proof.
  intros [Hp|(inner & -> & Hi)]; [by apply split_plain|]. rewrite <- !app_assoc. cbn [app split_component]. rewrite bool_decide_false by done. cbn [andb].
  rewrite decide_True by done. by rewrite split_brackets.
Qed.

Lemma digit_plain base d : 0 <= d < base -> base <= 36 -> digit_char d <> 58 /\ digit_char d <> 91.
Proof. intros Hd Hb. unfold digit_char. case_decide; lia. Qed.

Lemma digits_plain base ds : base <= 36 -> Forall (fun d => 0 <= d < base) ds -> plain (map digit_char ds).
Proof. intros Hb Hds. apply Forall_map. eapply Forall_impl; [exact Hds|]. intros d Hd. by apply (digit_plain base). Qed.

Lemma lun_plain w0 w1 w2 w3 : Forall (in_width 16) [w0; w1; w2; w3] -> plain (lun_string w0 w1 w2 w3).
Proof.
  rewrite !Forall_cons. intros (Hw0 & Hw1 & Hw2 & Hw3 & _). assert (forall w, in_width 16 w -> plain (map digit_char (word_digits w))) as Hw.
  { intros w Hw. apply (digits_plain 16); [lia|]. unfold in_width in Hw. change (2 ^ 16) with 65536 in Hw. unfold word_digits.
    assert (0 <= w / 4096 < 16) by (split; [apply Z.div_pos; lia|apply Z.div_lt_upper_bound; lia]).
    repeat (apply Forall_cons_2; [done || (apply Z.mod_pos_bound; lia)|]). by apply Forall_nil_2. }
  unfold lun_string, plain. rewrite !Forall_app, !Forall_singleton. split_and!; (by apply Hw) || done.
Qed.

Lemma at_mem_string a l : at_mem (memcpy (fun _ => 0) a l) a (l ++ [0]).
Proof.
  apply at_mem_app. split; [apply mload_memcpy|]. apply at_mem_cons. split; [|done]. unfold memcpy. rewrite decide_False by lia. done.
Qed.

Lemma strtoul_decimal ds : Forall (fun d => 0 <= d < 10) ds -> in_width 64 (digits_value 10 0 ds) -> (strtoul_string (map digit_char ds) 10).1 = digits_value 10 0 ds.
Proof.
  intros Hds Hv. unfold strtoul_string. rewrite (strtoul_spec_gen _ _ 0 10 [] false ds 0); [|lia|by apply Forall_nil_2|done|by apply (mload_memcpy (fun _ => 0) 0)|done|done|cbn; rewrite length_map; lia].
  cbn [fst]. rewrite Z.mul_1_l. by apply wrap_small.
Qed.







(** The blocks of the heap have the size that was asked for. *)
Context (heap_sized : forall n w b w', heap_alloc n w = (Some b, w') -> Z.of_nat (length b) = Z.max 0 n).


End open.

Section open_facts.
Context {W : Type} `{HeapOk W}.
Abbreviation sys := (@sys W scsi_device).

Lemma strdup_ok s (x : sys) : exists w, strdup s x = (Some s, set_world w x).
Proof. unfold strdup, malloc. destruct (heap_ok (Z.of_nat (length s) + 1) (world x)) as (b & w & -> & _). by exists w. Qed.

(** The server, the port, the logical unit and the target of a root path
    are those that it was written with; a server may be an IPv6 address in
    brackets, and the port of the protocol is used when there is none. *)
Theorem iscsi_root_path_roundtrip host protocol ds w0 w1 w2 w3 target (x : sys) :
  host_ok host -> plain protocol -> Forall (fun d => 0 <= d < 10) ds -> in_width 32 (digits_value 10 0 ds) -> Forall (in_width 16) [w0; w1; w2; w3] ->
  exists y, iscsi_parse_root_path (host ++ 58 :: protocol ++ 58 :: map digit_char ds ++ 58 :: lun_string w0 w1 w2 w3 ++ 58 :: target) x = (Ok tt, y) /\
    s_address (ses y) = Some host /\ s_port (ses y) = (if decide (digits_value 10 0 ds = 0) then ISCSI_PORT else digits_value 10 0 ds) /\
    target_lun (s_cred (ses y)) = be16 w0 ++ be16 w1 ++ be16 w2 ++ be16 w3 /\ target_iqn (s_cred (ses y)) = Some target.
Proof.
  intros Hh Hp Hds Hv Hw. unfold iscsi_parse_root_path. destruct (strdup_ok (host ++ 58 :: protocol ++ 58 :: map digit_char ds ++ 58 :: lun_string w0 w1 w2 w3 ++ 58 :: target) x) as [v1 ->].
  cbn [split_root_path]. rewrite split_host by done. rewrite split_plain by done. rewrite split_plain by (by apply (digits_plain 10)). rewrite split_plain by (by apply lun_plain).
  cbn [fmap option_fmap option_map]. destruct (strdup_ok host (set_world v1 x)) as [v2 ->]. cbv zeta. rewrite strtoul_decimal by (done || unfold in_width in *; lia). rewrite wrap_small by done.
  rewrite (scsi_lun_parses _ _ _ w0 w1 w2 w3) by (done || apply at_mem_string || (unfold lun_string; rewrite !length_app; cbn; lia)).
  match goal with |- context [strdup target ?z] => destruct (strdup_ok target z) as [v3 ->] end. by eexists.
Qed.

End open_facts.

(** ** Examples *)

#[local] Existing Instance example_env.

(** An IPv6 address, no protocol, a port and a unit. *)
Lemma iscsi_root_path_roundtrip_witness :
  exists y, iscsi_parse_root_path (lit "[fe80::1]::3261:0001-0000-0000-0000:iqn.a:b") (Sys (new_session 0) (fun _ => 0) [] (scsi_open [])) = (Ok tt, y) /\
    s_address (ses y) = Some (lit "[fe80::1]") /\ s_port (ses y) = 3261.
Proof.
  destruct (iscsi_root_path_roundtrip (H0 := example_heap_ok) (lit "[fe80::1]") [] [3; 2; 6; 1] 1 0 0 0 (lit "iqn.a:b") (Sys (new_session 0) (fun _ => 0) [] (scsi_open []))) as (y & E & E1 & E2 & _).
  - right. exists (lit "fe80::1"). split; [reflexivity|]. apply (bool_decide_unpack _). vm_compute. exact I.
  - by apply Forall_nil_2.
  - apply (bool_decide_unpack _). vm_compute. exact I.
  - by split.
  - apply (bool_decide_unpack _). vm_compute. exact I.
  - exists y. split_and!; [exact E|exact E1|exact E2].
Defined.

(** The secrets of both sides. *)
Definition example_settings : iscsi_settings :=
  IscsiSettings (Some (lit "i")) (Some (lit "s")) (Some (lit "u")) (Some (lit "p")) (Some (lit "iqn.i")) None None.

Definition example_open : result (@sys (list (list Z)) scsi_device) * (Z * list (list Z)) :=
  iscsi_open 1000 200 (Some (lit "10.0.0.1::::iqn.t")) example_settings (fun _ => 0) 0 [].

Definition example_opened : @sys (list (list Z)) scsi_device :=
  match example_open.1 with Ok x => x | Err _ => Sys (new_session 0) (fun _ => 0) [] (scsi_open []) end.

(** A login response to the full feature phase with an answer to the
    challenge of zeros. *)
Definition example_answer : pdu := Pdu (example_bhs 35 135 42 []) [] (lit "CHAP_R=0x00700000000000000000000000000000" ++ [0]) [0; 0].

Definition example_events : list (@event scsi_device) := [EvTx 10; EvPdu example_answer].



(** The session of the example sends a command, although it has not chosen a
    challenge: the answer is checked against the zeros of a new session. *)
Theorem iscsi_constant_challenge :
  let y := steps example_events example_opened in
  s_closed (ses y) = false /\ phase y = ISCSI_STATUS_FULL_FEATURE_PHASE /\ bool_decide (s_command (ses y) = None) = false /\ s_challenge (ses y) = replicate 17 0.
Proof. split_and!; vm_compute; reflexivity. Qed.

(** A redirection to an address of 80 characters. *)
Definition example_redirect : pdu :=
  Pdu (example_bhs 35 135 95 [(36%nat, [1])]) [] (lit "TargetAddress=" ++ replicate 80 49 ++ [0]) [0].

(** A redirection that arrives in two segments leaves the receive engine in
    the header state with an offset; the next segment is written past the
    header. *)
Theorem iscsi_redirect_overrun :
  match receive [take 60 (stream [example_redirect]); drop 60 (stream [example_redirect])] example_opened with
  | Some (Ok _, y) => s_fault (ses y) = false /\ 48 < rx_offset (s_rx (ses y)) /\
      match receive [example_bhs 35 135 0 []] y with Some (_, z) => s_fault (ses z) = true | None => False end
  | _ => False
  end.
Proof. vm_compute. done. Qed.
