(* ===== verification/BigInt.v ===== *)
(** * Big integers (crypto/bigint.c, arch/x86/core/x86_bigint.c)

    A big integer is an array of 32-bit elements, the least significant one
    first.  The elementary operations are the loops of the x86 code in
    arch/x86/include/bits/bigint.h, an element at a time with the carry flag;
    [bval] is the number that an array represents.  Modular exponentiation
    computes the power ([bigint_mod_exp_correct]). *)

From S2P Require Import Prelude CMem.

(** ** Elementary operations *)

(** The bytes of elements, and the elements of bytes, in memory order. *)
Definition element_bytes (w : Z) : list Z := [u8 w; u8 (Z.shiftr w 8); u8 (Z.shiftr w 16); u8 (Z.shiftr w 24)].
Definition to_bytes (l : list Z) : list Z := concat (map element_bytes l).

Fixpoint of_bytes (n : nat) (b : list Z) : list Z :=
  match n with
  | O => []
  | S n => Z.lor (nth 0 b 0) (Z.lor (Z.shiftl (nth 1 b 0) 8) (Z.lor (Z.shiftl (nth 2 b 0) 16) (Z.shiftl (nth 3 b 0) 24))) :: of_bytes n (drop 4 b)
  end.

Definition bigint_required_size (len : Z) : Z := (len + 4 - 1) / 4.

(** The copy loop runs at least once, and the number of padding bytes is not
    negative: other arguments write outside the array. *)
Definition bigint_init (size : nat) (data : list Z) : option (list Z) :=
  if decide (data = [] \/ (4 * size < length data)%nat) then None
  else Some (of_bytes size (rev data ++ replicate (4 * size - length data) 0)).

Definition bigint_done (value : list Z) (len : nat) : list Z := rev (take len (to_bytes value)).

(** [adcl], with the carry flag. *)
Fixpoint add_loop (cf : Z) (addend value : list Z) : list Z :=
  match addend, value with
  | a :: addend, v :: value => u32 (v + a + cf) :: add_loop (Z.shiftr (v + a + cf) 32) addend value
  | _, _ => value
  end.

Definition bigint_add (addend value : list Z) : list Z := add_loop 0 addend value.

(** [sbbl], with the carry flag as the borrow. *)
Fixpoint subtract_loop (cf : Z) (subtrahend value : list Z) : list Z :=
  match subtrahend, value with
  | a :: subtrahend, v :: value => u32 (v - a - cf) :: subtract_loop (if decide (v - a - cf < 0) then 1 else 0) subtrahend value
  | _, _ => value
  end.

Definition bigint_subtract (subtrahend value : list Z) : list Z := subtract_loop 0 subtrahend value.

(** [rcll $1] from the first element to the last. *)
Fixpoint rol_loop (cf : Z) (value : list Z) : list Z :=
  match value with
  | [] => []
  | v :: value => u32 (Z.lor (Z.shiftl v 1) cf) :: rol_loop (Z.shiftr v 31) value
  end.

Definition bigint_rol (value : list Z) : list Z := rol_loop 0 value.

(** [rcrl $1] from the last element to the first: the elements and the carry
    flag that the next lower element gets. *)
Fixpoint ror_loop (value : list Z) (cf : Z) : list Z * Z :=
  match value with
  | [] => ([], cf)
  | v :: value => let (l, cf) := ror_loop value cf in (Z.lor (Z.shiftr v 1) (Z.shiftl cf 31) :: l, Z.land v 1)
  end.

Definition bigint_ror (value : list Z) : list Z := (ror_loop value 0).1.

Definition bigint_is_zero (value : list Z) : bool := forallb (fun v => bool_decide (v = 0)) value.

(** From the last element to the first, while they are equal. *)
Fixpoint geq_loop (value reference : list Z) : bool :=
  match value, reference with
  | v :: value, r :: reference => if decide (v = r) then geq_loop value reference else bool_decide (r <= v)
  | _, _ => true
  end.

Definition bigint_is_geq (value reference : list Z) : bool := geq_loop (rev value) (rev reference).

Definition bigint_bit_is_set (value : list Z) (bit : Z) : bool :=
  bool_decide (Z.land (nth (Z.to_nat (bit / 32)) value 0) (Z.shiftl 1 (bit `mod` 32)) <> 0).

(** [bsrl] from the last element to the first, while they are zero. *)
Fixpoint max_loop (rvalue : list Z) : Z :=
  match rvalue with
  | [] => 0
  | v :: rvalue => if decide (v = 0) then max_loop rvalue else 1 + Z.log2 v + 32 * Z.of_nat (length rvalue)
  end.

Definition bigint_max_set_bit (value : list Z) : Z := max_loop (rev value).

Definition bigint_grow (source : list Z) (dest_size : nat) : list Z := source ++ replicate (dest_size - length source) 0.
Definition bigint_shrink (source : list Z) (dest_size : nat) : list Z := take dest_size source.

(** ** Multiplication *)

(** [adcl $0] to the elements from [k] on, until there is no carry.  The first
    one is done without a carry as well, also behind the last element, which
    it leaves as it is; a carry out of the last element would be written to
    other memory. *)
Fixpoint carry_loop (fuel : nat) (cf : Z) (k : nat) (result : list Z) : option (list Z) :=
  match fuel with
  | O => None
  | S fuel =>
    match result !! k with
    | None => if decide (cf = 0) then Some result else None
    | Some v =>
      let result := <[k := u32 (v + cf)]> result in
      let cf := Z.shiftr (v + cf) 32 in
      if decide (cf = 0) then Some result else carry_loop fuel cf (S k) result
    end
  end.

(** [mull], [addl] and [adcl]. *)
Definition multiply_step (a b : Z) (k : nat) (result : list Z) : option (list Z) :=
  let eax := u32 (a * b) in
  let edx := Z.shiftr (a * b) 32 in
  match result !! k, result !! S k with
  | Some v0, Some v1 =>
    let result := <[k := u32 (v0 + eax)]> result in
    let cf := Z.shiftr (v0 + eax) 32 in
    let result := <[S k := u32 (v1 + edx + cf)]> result in
    let cf := Z.shiftr (v1 + edx + cf) 32 in
    carry_loop (length result + 1) cf (S (S k)) result
  | _, _ => None
  end.

Fixpoint multiply_row (a : Z) (multiplier : list Z) (k : nat) (result : list Z) : option (list Z) :=
  match multiplier with
  | [] => Some result
  | b :: multiplier =>
    match multiply_step a b k result with
    | Some result => multiply_row a multiplier (S k) result
    | None => None
    end
  end.

Fixpoint multiply_rows (multiplicand multiplier : list Z) (i : nat) (result : list Z) : option (list Z) :=
  match multiplicand with
  | [] => Some result
  | a :: multiplicand =>
    match multiply_row a multiplier i result with
    | Some result => multiply_rows multiplicand multiplier (S i) result
    | None => None
    end
  end.

Definition bigint_multiply (multiplicand multiplier : list Z) : option (list Z) :=
  multiply_rows multiplicand multiplier 0 (replicate (2 * length multiplicand) 0).

(** ** Modular arithmetic *)

(** Subtract multiples of the modulus. *)
Fixpoint reduce_loop (n : nat) (result modulus : list Z) : list Z :=
  match n with
  | O => result
  | S n => reduce_loop n (if bigint_is_geq result modulus then bigint_subtract modulus result else result) (bigint_ror modulus)
  end.

Definition bigint_mod_multiply (multiplicand multiplier modulus : list Z) : option (list Z) :=
  let size := length multiplicand in
  match bigint_multiply multiplicand multiplier with
  | None => None
  | Some result =>
    let temp := bigint_grow modulus (2 * size) in
    let rotation := bigint_max_set_bit result - bigint_max_set_bit temp in
    let temp := Nat.iter (Z.to_nat rotation) bigint_rol temp in
    Some (bigint_shrink (reduce_loop (Z.to_nat (rotation + 1)) result temp) size)
  end.

Fixpoint mod_exp_loop (fuel : nat) (base modulus exponent result : list Z) : option (list Z) :=
  if bigint_is_zero exponent then Some result else
  match fuel with
  | O => None
  | S fuel =>
    match (if bigint_bit_is_set exponent 0 then bigint_mod_multiply result base modulus else Some result), bigint_mod_multiply base base modulus with
    | Some result, Some base => mod_exp_loop fuel base modulus (bigint_ror exponent) result
    | _, _ => None
    end
  end.

Definition bigint_mod_exp (fuel : nat) (base modulus exponent : list Z) : option (list Z) :=
  match bigint_init (length base) [1] with
  | None => None
  | Some result => mod_exp_loop fuel base modulus exponent result
  end.

(** ** The value of a big integer *)

Definition words (l : list Z) : Prop := Forall (in_width 32) l.
Definition bval (l : list Z) : Z := foldr (fun w v => w + 2 ^ 32 * v) 0 l.

(** 2^(32 n) *)
Definition radix (n : nat) : Z := 2 ^ (32 * Z.of_nat n).

Lemma radix_0 : radix 0 = 1.
Proof. done. Qed.

Lemma radix_S n : radix (S n) = 2 ^ 32 * radix n.
Proof. unfold radix. rewrite <- Z.pow_add_r by lia. f_equal. lia. Qed.

Lemma radix_pos n : 0 < radix n.
Proof. apply Z.pow_pos_nonneg; lia. Qed.

Lemma radix_add n m : radix (n + m) = radix n * radix m.
Proof. unfold radix. rewrite <- Z.pow_add_r by lia. f_equal. lia. Qed.

Lemma bval_cons w l : bval (w :: l) = w + 2 ^ 32 * bval l.
Proof. done. Qed.

Lemma words_cons w l : words (w :: l) <-> 0 <= w < 2 ^ 32 /\ words l.
Proof. unfold words. by rewrite Forall_cons. Qed.

Lemma words_snoc l w : words (l ++ [w]) <-> words l /\ 0 <= w < 2 ^ 32.
Proof. unfold words. by rewrite Forall_app, Forall_singleton. Qed.

Lemma bval_bound l : words l -> 0 <= bval l < radix (length l).
Proof.
  induction l as [|w l IH]; intros Hl; [done|]. apply words_cons in Hl as [Hw Hl]. specialize (IH Hl). rewrite bval_cons. cbn [length]. rewrite radix_S. nia.
Qed.

Lemma bval_app l1 l2 : bval (l1 ++ l2) = bval l1 + radix (length l1) * bval l2.
Proof.
  induction l1 as [|w l1 IH]; [cbn [app length]; rewrite radix_0; cbn; lia|]. cbn [app length]. rewrite !bval_cons, IH, radix_S. lia.
Qed.

Lemma bval_snoc l w : bval (l ++ [w]) = bval l + radix (length l) * w.
Proof. rewrite bval_app. cbn [bval foldr]. lia. Qed.

Lemma bval_zero n : bval (replicate n 0) = 0.
Proof. induction n as [|n IH]; [done|]. cbn [replicate]. rewrite bval_cons, IH. lia. Qed.

Lemma words_zero n : words (replicate n 0).
Proof. by apply Forall_replicate. Qed.

Lemma u32_split v : v = u32 v + 2 ^ 32 * Z.shiftr v 32.
Proof. unfold wrap. rewrite Z.shiftr_div_pow2 by lia. pose proof (Z.div_mod v (2 ^ 32)). lia. Qed.

Lemma u32_word v : 0 <= u32 v < 2 ^ 32.
Proof. apply Z.mod_pos_bound. lia. Qed.

Lemma same_length_induction (P : list Z -> list Z -> Prop) :
  P [] [] -> (forall a b l1 l2, length l1 = length l2 -> P l1 l2 -> P (a :: l1) (b :: l2)) -> forall l1 l2, length l1 = length l2 -> P l1 l2.
Proof. intros H0 HS l1. induction l1 as [|a l1 IH]; intros [|b l2] Hl; try done. injection Hl as Hl. auto. Qed.

Lemma same_length_rev_induction (P : list Z -> list Z -> Prop) :
  P [] [] -> (forall a b l1 l2, length l1 = length l2 -> P l1 l2 -> P (l1 ++ [a]) (l2 ++ [b])) -> forall l1 l2, length l1 = length l2 -> P l1 l2.
Proof.
  intros H0 HS l1. induction l1 as [|a l1 IH] using rev_ind; intros l2 Hl; [by destruct l2|].
  destruct l2 as [|b l2 _] using rev_ind; rewrite !length_app in Hl; cbn in Hl; [lia|]. apply HS; [lia|]. apply IH. lia.
Qed.

(** ** The elementary operations on values *)

Lemma add_loop_value cf addend value :
  length addend = length value -> words addend -> words value -> 0 <= cf ->
  words (add_loop cf addend value) /\ length (add_loop cf addend value) = length value /\
  exists c, 0 <= c /\ bval (add_loop cf addend value) + radix (length value) * c = bval value + bval addend + cf.
Proof.
  intros Hl. revert cf. pattern addend, value. apply same_length_induction; [| |done]; clear.
  - intros cf _ _ Hc. split_and!; [by apply Forall_nil_2|done|]. exists cf. cbn [length]. rewrite radix_0. cbn. lia.
  - intros a v l1 l2 Hl IH cf [Ha H1]%words_cons [Hv H2]%words_cons Hc. cbn [add_loop]. set (s := v + a + cf).
    assert (0 <= Z.shiftr s 32) as Hs by (apply Z.shiftr_nonneg; lia). destruct (IH (Z.shiftr s 32) H1 H2 Hs) as (Hw & Hlen & c & Hc' & E).
    split_and!; [apply words_cons; split; [apply u32_word|done]|cbn; by rewrite Hlen|]. exists c. split; [done|]. rewrite !bval_cons. cbn [length]. rewrite radix_S. pose proof (u32_split s). lia.
Qed.

Lemma subtract_loop_value cf subtrahend value :
  length subtrahend = length value -> words subtrahend -> words value -> 0 <= cf <= 1 ->
  words (subtract_loop cf subtrahend value) /\ length (subtract_loop cf subtrahend value) = length value /\
  exists c, 0 <= c <= 1 /\ bval (subtract_loop cf subtrahend value) = bval value - bval subtrahend - cf + radix (length value) * c.
Proof.
  intros Hl. revert cf. pattern subtrahend, value. apply same_length_induction; [| |done]; clear.
  - intros cf _ _ Hc. split_and!; [by apply Forall_nil_2|done|]. exists cf. cbn [length]. rewrite radix_0. cbn. lia.
  - intros a v l1 l2 Hl IH cf [Ha H1]%words_cons [Hv H2]%words_cons Hc. cbn [subtract_loop]. set (s := v - a - cf). set (c1 := if decide (s < 0) then 1 else 0).
    assert (0 <= c1 <= 1 /\ u32 s = s + 2 ^ 32 * c1) as [Hc1 Es].
    { unfold c1. case_decide; (split; [lia|]); unfold wrap; [symmetry; apply (Z.mod_unique _ _ (-1)); lia|rewrite Z.mod_small; lia]. }
    destruct (IH c1 H1 H2 Hc1) as (Hw & Hlen & c & Hc' & E).
    split_and!; [apply words_cons; split; [apply u32_word|done]|cbn; by rewrite Hlen|]. exists c. split; [done|]. rewrite !bval_cons. cbn [length]. rewrite radix_S. lia.
Qed.

Lemma bigint_subtract_value subtrahend value :
  length subtrahend = length value -> words subtrahend -> words value -> bval subtrahend <= bval value ->
  words (bigint_subtract subtrahend value) /\ length (bigint_subtract subtrahend value) = length value /\ bval (bigint_subtract subtrahend value) = bval value - bval subtrahend.
Proof.
  intros Hl H1 H2 Hle. destruct (subtract_loop_value 0 subtrahend value Hl H1 H2 ltac:(lia)) as (Hw & Hlen & c & Hc & E). unfold bigint_subtract.
  split_and!; [done|done|]. pose proof (bval_bound _ Hw) as Hb. rewrite Hlen, E in Hb. pose proof (bval_bound _ H1). assert (c = 0 \/ c = 1) as [-> | ->] by lia; [lia|].
  pose proof (bval_bound _ H2). lia.
Qed.

Lemma rol_loop_value cf value :
  words value -> 0 <= cf <= 1 -> words (rol_loop cf value) /\ length (rol_loop cf value) = length value /\
  exists c, 0 <= c /\ bval (rol_loop cf value) + radix (length value) * c = 2 * bval value + cf.
Proof.
  revert cf. induction value as [|v value IH]; intros cf Hv Hc; [split_and!; [by apply Forall_nil_2|done|]; exists cf; cbn [length]; rewrite radix_0; cbn; lia|].
  apply words_cons in Hv as [Hv Hl]. cbn [rol_loop]. assert (Z.lor (Z.shiftl v 1) cf = 2 * v + cf) as ->.
  { rewrite lor_shiftl_add by lia. lia. }
  assert (0 <= Z.shiftr v 31 <= 1) as Hs.
  { rewrite Z.shiftr_div_pow2 by lia. split; [apply Z.div_pos; lia|]. apply Z.lt_succ_r. apply Z.div_lt_upper_bound; lia. }
  destruct (IH (Z.shiftr v 31) Hl Hs) as (Hw & Hlen & c & Hc' & E).
  split_and!; [apply words_cons; split; [apply u32_word|done]|cbn; by rewrite Hlen|]. exists c. split; [done|]. rewrite !bval_cons. cbn [length]. rewrite radix_S.
  pose proof (u32_split (2 * v + cf)) as Hsp. assert (Z.shiftr (2 * v + cf) 32 = Z.shiftr v 31) as Hsh.
  { rewrite !Z.shiftr_div_pow2 by lia. change (2 ^ 32) with (2 * 2 ^ 31). rewrite <- Z.div_div by lia. f_equal. symmetry. apply (Z.div_unique _ _ _ cf); lia. }
  rewrite Hsh in Hsp. lia.
Qed.

Lemma bigint_rol_value value :
  words value -> 2 * bval value < radix (length value) ->
  words (bigint_rol value) /\ length (bigint_rol value) = length value /\ bval (bigint_rol value) = 2 * bval value.
Proof.
  intros Hv Hb. destruct (rol_loop_value 0 value Hv ltac:(lia)) as (Hw & Hlen & c & Hc & E). unfold bigint_rol. split_and!; [done|done|].
  pose proof (bval_bound _ Hw). pose proof (bval_bound _ Hv). assert (c = 0) as -> by nia. lia.
Qed.

Lemma ror_loop_value value cf :
  words value -> 0 <= cf <= 1 ->
  let '(l, c) := ror_loop value cf in words l /\ length l = length value /\ 0 <= c <= 1 /\ 2 * bval l + c = bval value + radix (length value) * cf.
Proof.
  induction value as [|v value IH]; intros Hv Hc; cbn [ror_loop]; [split_and!; [by apply Forall_nil_2|done|lia|lia|]; cbn [length]; rewrite radix_0; cbn; lia|].
  apply words_cons in Hv as [Hv Hl]. specialize (IH Hl Hc). destruct (ror_loop value cf) as [l c]. destruct IH as (Hw & Hlen & Hc' & E).
  assert (Z.land v 1 = v `mod` 2) as -> by (change 1 with (2 ^ 1 - 1); by rewrite land_ones_mod by lia).
  assert (Z.lor (Z.shiftr v 1) (Z.shiftl c 31) = v / 2 + 2 ^ 31 * c) as ->.
  { rewrite Z.lor_comm, lor_shiftl_add; rewrite ?Z.shiftr_div_pow2 by lia; change (2 ^ 1) with 2; [lia|lia|]. split; [apply Z.div_pos; lia|apply Z.div_lt_upper_bound; lia]. }
  pose proof (Z.div_mod v 2 ltac:(lia)) as Hd. pose proof (Z.mod_pos_bound v 2 ltac:(lia)) as Hm.
  split_and!; [apply words_cons; split; [split; nia|done]|cbn; by rewrite Hlen|lia|lia|]. rewrite !bval_cons. cbn [length]. rewrite radix_S. lia.
Qed.

Lemma bigint_ror_value value : words value -> words (bigint_ror value) /\ length (bigint_ror value) = length value /\ bval (bigint_ror value) = bval value / 2.
Proof.
  intros Hv. unfold bigint_ror. pose proof (ror_loop_value value 0 Hv ltac:(lia)) as Hr. destruct (ror_loop value 0) as [l c]. cbn [fst]. destruct Hr as (Hw & Hlen & Hc & E).
  split_and!; [done|done|]. apply (Z.div_unique _ _ _ (bval value - 2 * bval l)); lia.
Qed.

Lemma bigint_is_zero_value value : words value -> bigint_is_zero value = bool_decide (bval value = 0).
Proof.
  induction value as [|v value IH]; intros Hv; [done|]. apply words_cons in Hv as [Hv Hl]. unfold bigint_is_zero in *. cbn [forallb]. rewrite IH by done. rewrite bval_cons.
  pose proof (bval_bound _ Hl). repeat case_bool_decide; cbn; (done || lia).
Qed.

Lemma bigint_is_geq_value value reference :
  length value = length reference -> words value -> words reference -> bigint_is_geq value reference = bool_decide (bval reference <= bval value).
Proof.
  intros Hl. pattern value, reference. apply same_length_rev_induction; [done| |done]; clear. intros a b l1 l2 Hl IH [H1 Ha]%words_snoc [H2 Hb]%words_snoc.
  unfold bigint_is_geq in *. rewrite !rev_app_distr. cbn [rev app geq_loop]. rewrite !bval_snoc, Hl.
  pose proof (bval_bound _ H1) as B1. pose proof (bval_bound _ H2) as B2. rewrite Hl in B1. destruct (decide (a = b)) as [E|E].
  - rewrite IH by done. subst. apply bool_decide_ext. lia.
  - apply bool_decide_ext. nia.
Qed.

Lemma bigint_max_set_bit_value value :
  words value -> bigint_max_set_bit value = if decide (bval value = 0) then 0 else Z.log2 (bval value) + 1.
Proof.
  induction value as [|v value IH] using rev_ind; intros Hv; [done|]. apply words_snoc in Hv as [Hl Hv]. specialize (IH Hl).
  unfold bigint_max_set_bit in *. rewrite rev_app_distr. cbn [rev app max_loop]. rewrite length_rev, bval_snoc. pose proof (bval_bound _ Hl) as Hb. pose proof (radix_pos (length value)).
  destruct (decide (v = 0)) as [->|Hne]; [by rewrite Z.mul_0_r, Z.add_0_r|]. rewrite decide_False by nia.
  rewrite (Z.add_comm (bval value)). assert (Z.log2 (radix (length value) * v + bval value) = Z.log2 v + 32 * Z.of_nat (length value)) as ->; [|lia].
  apply Z.log2_unique; [pose proof (Z.log2_nonneg v); lia|]. destruct (Z.log2_spec v ltac:(lia)) as [L1 L2]. unfold radix in *.
  rewrite <- Z.add_succ_l, !Z.pow_add_r by (pose proof (Z.log2_nonneg v); lia). nia.
Qed.

Lemma bigint_bit_0_value value : words value -> bigint_bit_is_set value 0 = Z.odd (bval value).
Proof.
  intros Hv. unfold bigint_bit_is_set. change (0 / 32) with 0. change (0 `mod` 32) with 0. change (Z.shiftl 1 0) with (2 ^ 0). destruct value as [|v value]; [done|].
  change (nth (Z.to_nat 0) (v :: value) 0) with v. apply words_cons in Hv as [Hv _]. rewrite bval_cons. rewrite Z.odd_add_even by (exists (2 ^ 31 * bval value); lia).
  change (2 ^ 0) with (2 ^ 1 - 1). rewrite land_ones_mod by lia. change (2 ^ 1) with 2. rewrite Zmod_odd. destruct (Z.odd v); reflexivity.
Qed.

(** ** Multiplication *)

Lemma bval_insert k x v l : l !! k = Some v -> bval (<[k := x]> l) = bval l + (x - v) * radix k.
Proof.
  revert k. induction l as [|w l IH]; intros [|k] Hk; [done..| |].
  - injection Hk as ->. change (<[0%nat := x]> (v :: l)) with (x :: l). rewrite !bval_cons, radix_0. lia.
  - change (<[S k := x]> (w :: l)) with (w :: <[k := x]> l). rewrite !bval_cons, (IH k Hk), radix_S. lia.
Qed.

Lemma words_insert k x l : words l -> 0 <= x < 2 ^ 32 -> words (<[k := x]> l).
Proof. intros Hl Hx. by apply Forall_insert. Qed.

Lemma words_lookup l k v : words l -> l !! k = Some v -> 0 <= v < 2 ^ 32.
Proof. intros Hl Hk. exact (Forall_lookup_1 _ _ _ _ Hl Hk). Qed.

Lemma carry_loop_value fuel cf k result :
  words result -> 0 <= cf -> (length result - k < fuel)%nat -> bval result + cf * radix k < radix (length result) ->
  exists r, carry_loop fuel cf k result = Some r /\ words r /\ length r = length result /\ bval r = bval result + cf * radix k.
Proof.
  revert cf k result. induction fuel as [|fuel IH]; intros cf k result Hw Hc Hf Hb; [lia|]. cbn [carry_loop]. pose proof (bval_bound _ Hw) as Hbw.
  destruct (result !! k) as [v|] eqn:Ek.
  - pose proof (words_lookup _ _ _ Hw Ek) as Hv. set (s := v + cf). pose proof (u32_split s) as Hs. set (r := <[k := u32 s]> result).
    assert (0 <= Z.shiftr s 32) as Hsn by (apply Z.shiftr_nonneg; lia).
    assert (words r) as Hr by (apply words_insert; [done|apply u32_word]). assert (length r = length result) as Hlr by apply length_insert.
    assert (bval r + Z.shiftr s 32 * radix (S k) = bval result + cf * radix k) as E by (unfold r; rewrite (bval_insert _ _ v), radix_S by done; unfold s in *; nia).
    case_decide as Hd.
    + exists r. split_and!; [done..|]. rewrite Hd in E. lia.
    + apply lookup_lt_Some in Ek. destruct (IH (Z.shiftr s 32) (S k) r) as (r' & E1 & E2 & E3 & E4); [done|done|lia|rewrite E, Hlr; done|]. exists r'. split_and!; [done|done|congruence|]. lia.
  - apply lookup_ge_None in Ek. assert (cf = 0) as ->.
    { destruct (decide (cf = 0)); [done|]. exfalso. assert (radix (length result) <= radix k) by (unfold radix; apply Z.pow_le_mono_r; lia). pose proof (radix_pos k). nia. }
    rewrite decide_True by done. exists result. split_and!; [done..|lia].
Qed.

Lemma multiply_step_value a b k result :
  words result -> 0 <= a < 2 ^ 32 -> 0 <= b < 2 ^ 32 -> (S k < length result)%nat -> bval result + a * b * radix k < radix (length result) ->
  exists r, multiply_step a b k result = Some r /\ words r /\ length r = length result /\ bval r = bval result + a * b * radix k.
Proof.
  intros Hw Ha Hb Hk Hbd. unfold multiply_step.
  destruct (lookup_lt_is_Some_2 result k ltac:(lia)) as [v0 E0]. destruct (lookup_lt_is_Some_2 result (S k) Hk) as [v1 E1]. rewrite E0, E1. cbv zeta.
  pose proof (words_lookup _ _ _ Hw E0). pose proof (words_lookup _ _ _ Hw E1). pose proof (u32_split (a * b)) as Hab. pose proof (u32_word (a * b)) as Heax.
  set (eax := u32 (a * b)) in *. set (edx := Z.shiftr (a * b) 32) in *. assert (0 <= edx) by (apply Z.shiftr_nonneg; nia).
  pose proof (u32_split (v0 + eax)) as S0. set (c0 := Z.shiftr (v0 + eax) 32) in *. assert (0 <= c0) by (apply Z.shiftr_nonneg; lia).
  pose proof (u32_split (v1 + edx + c0)) as S1. set (c1 := Z.shiftr (v1 + edx + c0) 32) in *. assert (0 <= c1) by (apply Z.shiftr_nonneg; lia).
  set (r0 := <[k := u32 (v0 + eax)]> result). set (r1 := <[S k := u32 (v1 + edx + c0)]> r0).
  assert (r0 !! S k = Some v1) as E1' by (unfold r0; rewrite list_lookup_insert_ne by lia; done).
  assert (bval r1 + c1 * radix (S (S k)) = bval result + a * b * radix k) as E.
  { unfold r1. rewrite (bval_insert _ _ v1) by done. unfold r0. rewrite (bval_insert _ _ v0) by done. rewrite !radix_S. rewrite Hab. nia. }
  assert (words r1) as Hr by (apply words_insert; [apply words_insert; [done|apply u32_word]|apply u32_word]).
  assert (length r1 = length result) as Hl by (unfold r1, r0; by rewrite !length_insert).
  destruct (carry_loop_value (length r1 + 1) c1 (S (S k)) r1) as (r & Er & Hr1 & Hr2 & Hr3); [done|done|lia|by rewrite E, Hl|]. exists r. split_and!; [done|done|congruence|lia].
Qed.

Lemma multiply_row_value a multiplier k result :
  words result -> 0 <= a < 2 ^ 32 -> words multiplier -> (k + length multiplier < length result)%nat -> bval result + a * bval multiplier * radix k < radix (length result) ->
  exists r, multiply_row a multiplier k result = Some r /\ words r /\ length r = length result /\ bval r = bval result + a * bval multiplier * radix k.
Proof.
  intros Hw Ha Hm. revert k result Hw. induction Hm as [|b multiplier Hb Hm IH]; intros k result Hw Hk Hbd; cbn [multiply_row]; [exists result; split_and!; [done..|cbn; lia]|].
  rewrite bval_cons in *. cbn [length] in Hk. pose proof (bval_bound multiplier Hm). pose proof (radix_pos k).
  destruct (multiply_step_value a b k result) as (r & -> & Hr1 & Hr2 & Hr3); [done|done|done|lia|nia|].
  destruct (IH (S k) r) as (r' & -> & Hr1' & Hr2' & Hr3'); [done|lia|rewrite Hr2, Hr3, radix_S; nia|]. exists r'. split_and!; [done|done|congruence|]. rewrite Hr3', Hr3, radix_S. lia.
Qed.

Lemma multiply_rows_value multiplicand multiplier i result :
  words result -> words multiplicand -> words multiplier -> (i + length multiplicand + length multiplier <= length result)%nat ->
  bval result + bval multiplicand * bval multiplier * radix i < radix (length result) ->
  exists r, multiply_rows multiplicand multiplier i result = Some r /\ words r /\ length r = length result /\ bval r = bval result + bval multiplicand * bval multiplier * radix i.
Proof.
  intros Hw Hd Hm. revert i result Hw. induction Hd as [|a multiplicand Ha Hd IH]; intros i result Hw Hi Hbd; cbn [multiply_rows]; [exists result; split_and!; [done..|cbn; lia]|].
  rewrite bval_cons in *. cbn [length] in Hi. pose proof (bval_bound multiplicand Hd). pose proof (bval_bound multiplier Hm). pose proof (radix_pos i). unfold in_width in Ha.
  assert (0 <= bval multiplicand * bval multiplier * radix i) by (apply Z.mul_nonneg_nonneg; nia). assert (0 <= a * bval multiplier * radix i) by (apply Z.mul_nonneg_nonneg; nia).
  destruct (multiply_row_value a multiplier i result) as (r & -> & Hr1 & Hr2 & Hr3); [done|done|done|lia|lia|].
  destruct (IH (S i) r) as (r' & -> & Hr1' & Hr2' & Hr3'); [done|lia|rewrite Hr2, Hr3, radix_S; lia|]. exists r'. split_and!; [done|done|congruence|]. rewrite Hr3', Hr3, radix_S. lia.
Qed.

Lemma bigint_multiply_value multiplicand multiplier :
  length multiplicand = length multiplier -> words multiplicand -> words multiplier ->
  exists r, bigint_multiply multiplicand multiplier = Some r /\ words r /\ length r = (2 * length multiplicand)%nat /\ bval r = bval multiplicand * bval multiplier.
Proof.
  intros Hl Hd Hm. pose proof (bval_bound _ Hd). pose proof (bval_bound _ Hm) as Hb. rewrite <- Hl in Hb.
  destruct (multiply_rows_value multiplicand multiplier 0 (replicate (2 * length multiplicand) 0)) as (r & Er & Hr1 & Hr2 & Hr3); [apply words_zero|done|done|rewrite length_replicate; lia| |].
  { rewrite bval_zero, length_replicate, radix_0. replace (2 * length multiplicand)%nat with (length multiplicand + length multiplicand)%nat by lia. rewrite radix_add. nia. }
  rewrite length_replicate in Hr2. rewrite bval_zero, radix_0 in Hr3. exists r. split_and!; [done|done|done|lia].
Qed.

(** ** Modular multiplication *)

Lemma reduce_loop_value n result modulus m :
  words result -> words modulus -> length result = length modulus -> 0 < m -> bval result < m * 2 ^ Z.of_nat n ->
  ((0 < n)%nat -> 2 * bval modulus = m * 2 ^ Z.of_nat n) ->
  words (reduce_loop n result modulus) /\ length (reduce_loop n result modulus) = length result /\ bval (reduce_loop n result modulus) = bval result `mod` m.
Proof.
  revert result modulus. induction n as [|n IH]; intros result modulus Hr Hm Hl Hpos Hlt Hmod; cbn [reduce_loop].
  - split_and!; [done|done|]. rewrite Z.mod_small; [done|]. pose proof (bval_bound _ Hr). lia.
  - specialize (Hmod ltac:(lia)). rewrite Nat2Z.inj_succ, Z.pow_succ_r in * by lia. rewrite bigint_is_geq_value by done. destruct (bigint_ror_value modulus Hm) as (M1 & M2 & M3).
    assert ((0 < n)%nat -> 2 * bval (bigint_ror modulus) = m * 2 ^ Z.of_nat n) as Hmod'.
    { intros Hn. rewrite M3. replace (bval modulus) with (m * 2 ^ Z.of_nat n) by lia. replace (Z.of_nat n) with (Z.succ (Z.of_nat n - 1)) by lia. rewrite Z.pow_succ_r by lia.
      replace (m * (2 * 2 ^ (Z.of_nat n - 1))) with (m * 2 ^ (Z.of_nat n - 1) * 2) by lia. rewrite Z.div_mul by lia. lia. }
    case_bool_decide as Hge.
    + destruct (bigint_subtract_value modulus result) as (S1 & S2 & S3); [done..|]. destruct (IH (bigint_subtract modulus result) (bigint_ror modulus)) as (R1 & R2 & R3); [done|done|congruence|done|lia|done|].
      split_and!; [done|congruence|]. rewrite R3, S3. replace (bval result - bval modulus) with (bval result + (- 2 ^ Z.of_nat n) * m) by lia. apply Z.mod_add. lia.
    + apply IH; (done || congruence || lia).
Qed.

Lemma iter_rol_value k value :
  words value -> bval value * 2 ^ Z.of_nat k < radix (length value) ->
  words (Nat.iter k bigint_rol value) /\ length (Nat.iter k bigint_rol value) = length value /\ bval (Nat.iter k bigint_rol value) = bval value * 2 ^ Z.of_nat k.
Proof.
  induction k as [|k IH]; intros Hv Hb; [split_and!; [done|done|change (2 ^ Z.of_nat 0) with 1; rewrite Z.mul_1_r; done]|]. rewrite Nat2Z.inj_succ, Z.pow_succ_r in * by lia.
  pose proof (bval_bound _ Hv). assert (0 < 2 ^ Z.of_nat k) by (apply Z.pow_pos_nonneg; lia). destruct IH as (H1 & H2 & H3); [done|nia|]. cbn [Nat.iter nat_rect]. fold (Nat.iter k bigint_rol value).
  destruct (bigint_rol_value (Nat.iter k bigint_rol value)) as (R1 & R2 & R3); [done|rewrite H2, H3; lia|]. split_and!; [done|congruence|]. rewrite R3, H3. lia.
Qed.

Lemma bval_take n l : bval l = bval (take n l) + radix (length (take n l)) * bval (drop n l).
Proof. rewrite <- (take_drop n l) at 1. apply bval_app. Qed.

Lemma bigint_shrink_value n l : words l -> (n <= length l)%nat -> bval l < radix n -> words (bigint_shrink l n) /\ length (bigint_shrink l n) = n /\ bval (bigint_shrink l n) = bval l.
Proof.
  intros Hl Hn Hb. unfold bigint_shrink. assert (length (take n l) = n) as Ht by (rewrite length_take; lia). split_and!; [by apply Forall_take|done|].
  pose proof (bval_take n l) as E. rewrite Ht in E. pose proof (bval_bound _ Hl). assert (words (drop n l)) as Hd by by apply Forall_drop. pose proof (bval_bound _ Hd).
  assert (words (take n l)) as Hw by by apply Forall_take. pose proof (bval_bound _ Hw). assert (bval (drop n l) = 0) as E0 by nia. rewrite E0 in E. lia.
Qed.

Lemma bigint_grow_value l n : words l -> (length l <= n)%nat -> words (bigint_grow l n) /\ length (bigint_grow l n) = n /\ bval (bigint_grow l n) = bval l.
Proof.
  intros Hl Hn. unfold bigint_grow. split_and!; [apply Forall_app; split; [done|apply words_zero]|rewrite length_app, length_replicate; lia|]. rewrite bval_app, bval_zero. lia.
Qed.

Lemma log2_lt_radix v n : 0 < v < radix n -> 2 ^ (Z.log2 v + 1) <= radix n.
Proof. intros [Hv Hb]. unfold radix in *. apply Z.pow_le_mono_r; [lia|]. apply Z.log2_lt_pow2 in Hb; lia. Qed.

Lemma bigint_mod_multiply_value multiplicand multiplier modulus :
  length multiplicand = length multiplier -> length modulus = length multiplicand -> words multiplicand -> words multiplier -> words modulus -> 0 < bval modulus ->
  exists r, bigint_mod_multiply multiplicand multiplier modulus = Some r /\ words r /\ length r = length multiplicand /\ bval r = (bval multiplicand * bval multiplier) `mod` bval modulus.
Proof.
  intros Hl Hlm Hd Hm Hmod Hpos. unfold bigint_mod_multiply. destruct (bigint_multiply_value multiplicand multiplier Hl Hd Hm) as (r & -> & Hr & Hlr & Er).
  destruct (bigint_grow_value modulus (2 * length multiplicand) Hmod ltac:(lia)) as (G1 & G2 & G3). set (t := bigint_grow modulus (2 * length multiplicand)) in *. cbv zeta.
  set (m := bval modulus) in *. rewrite !bigint_max_set_bit_value by done. rewrite G3, (decide_False (P := m = 0)) by lia. pose proof (bval_bound _ Hr) as Hbr. rewrite Hlr in Hbr.
  set (rotation := _ - (Z.log2 m + 1)). assert (bval r < m * 2 ^ Z.of_nat (Z.to_nat (rotation + 1)) /\ (0 <= rotation -> m * 2 ^ rotation < radix (2 * length multiplicand))) as [Hlt Hfit].
  { pose proof (Z.log2_spec m Hpos) as [L1 L2]. unfold rotation. case_decide as E0; [split; [|pose proof (Z.log2_nonneg m); lia]; rewrite E0; apply Z.mul_pos_pos; [done|apply Z.pow_pos_nonneg; lia]|].
    pose proof (Z.log2_spec (bval r) ltac:(lia)) as [R1 R2]. pose proof (Z.log2_nonneg m). pose proof (Z.log2_nonneg (bval r)). split.
    - destruct (decide (Z.log2 (bval r) < Z.log2 m)) as [Hlt|Hge].
      + rewrite (Z2Nat.nonpos (_ + 1)) by lia. cbn [Z.of_nat Z.pow Z.pow_pos Pos.iter]. assert (2 ^ Z.succ (Z.log2 (bval r)) <= 2 ^ Z.log2 m) by (apply Z.pow_le_mono_r; lia). lia.
      + rewrite Z2Nat.id by lia. eapply Z.lt_le_trans; [exact R2|]. replace (Z.succ (Z.log2 (bval r))) with (Z.log2 m + (Z.log2 (bval r) + 1 - (Z.log2 m + 1) + 1)) by lia.
        rewrite (Z.pow_add_r 2 (Z.log2 m)) by lia. apply Z.mul_le_mono_nonneg_r; [apply Z.pow_nonneg; lia|done].
    - intros Hrot. pose proof (log2_lt_radix (bval r) (2 * length multiplicand) ltac:(lia)) as Hrad. eapply Z.lt_le_trans; [|exact Hrad].
      remember (Z.log2 (bval r) + 1 - (Z.log2 m + 1)) as k eqn:Ek. replace (Z.log2 (bval r) + 1) with (Z.succ (Z.log2 m) + k) by lia. rewrite (Z.pow_add_r 2 (Z.succ _)) by lia. apply Z.mul_lt_mono_pos_r; [apply Z.pow_pos_nonneg; lia|done]. }
  assert (exists t', t' = Nat.iter (Z.to_nat rotation) bigint_rol t /\ words t' /\ length t' = (2 * length multiplicand)%nat /\ ((0 < Z.to_nat (rotation + 1))%nat -> 2 * bval t' = m * 2 ^ Z.of_nat (Z.to_nat (rotation + 1)))) as (t' & <- & T1 & T2 & T3).
  { eexists. split; [done|]. destruct (decide (0 <= rotation)) as [H0|H0].
    - destruct (iter_rol_value (Z.to_nat rotation) t G1) as (I1 & I2 & I3); [rewrite Z2Nat.id, G2, G3 by lia; auto|]. split_and!; [done|congruence|]. intros _. rewrite I3, G3, !Z2Nat.id by lia. rewrite Z.pow_add_r by lia. lia.
    - rewrite (Z2Nat.nonpos rotation) by lia. split_and!; [done|done|]. lia. }
  destruct (reduce_loop_value (Z.to_nat (rotation + 1)) r t' m) as (R1 & R2 & R3); [done|done|congruence|done|done|done|].
  pose proof (Z.mod_pos_bound (bval r) m Hpos) as Hmb. pose proof (bval_bound _ Hmod) as Hbm. rewrite Hlm in Hbm.
  destruct (bigint_shrink_value (length multiplicand) (reduce_loop (Z.to_nat (rotation + 1)) r t')) as (S1 & S2 & S3); [done|lia|rewrite R3; fold m in Hbm; lia|].
  eexists. split; [done|]. split_and!; [done|done|]. by rewrite S3, R3, Er.
Qed.

(** ** Modular exponentiation *)

Lemma mod_exp_loop_value fuel base modulus exponent result :
  words base -> words modulus -> words exponent -> words result -> length base = length modulus -> length result = length modulus -> 0 < bval modulus ->
  bval result < bval modulus -> bval exponent < 2 ^ Z.of_nat fuel ->
  exists r, mod_exp_loop fuel base modulus exponent result = Some r /\ words r /\ length r = length modulus /\ bval r = (bval result * bval base ^ bval exponent) `mod` bval modulus.
Proof.
  revert base exponent result. induction fuel as [|fuel IH]; intros base exponent result Hb Hm He Hr Hlb Hlr Hpos Hlt Hf; pose proof (bval_bound _ He) as Hbe; pose proof (bval_bound _ Hr) as Hbr;
    cbn [mod_exp_loop]; rewrite bigint_is_zero_value by done; case_bool_decide as E0.
  1,3: exists result; split_and!; [done..|]; rewrite E0, Z.pow_0_r, Z.mul_1_r, Z.mod_small by lia; done.
  { cbn in Hf. lia. }
  rewrite bigint_bit_0_value by done. destruct (bigint_ror_value exponent He) as (X1 & X2 & X3).
  destruct (bigint_mod_multiply_value base base modulus) as (b' & -> & B1 & B2 & B3); [done..|].
  rewrite Nat2Z.inj_succ, Z.pow_succ_r in Hf by lia. pose proof (Z.div_mod (bval exponent) 2 ltac:(lia)) as Hdm. rewrite Zmod_odd in Hdm. set (h := bval exponent / 2) in *. assert (0 <= h) by (apply Z.div_pos; lia).
  assert (bval base ^ bval exponent = (bval base * bval base) ^ h * (if Z.odd (bval exponent) then bval base else 1)) as Epow.
  { rewrite Hdm at 1. rewrite Z.pow_add_r by (destruct (Z.odd _); lia). rewrite Z.pow_mul_r by lia. rewrite Z.pow_2_r. f_equal. destruct (Z.odd _); [by rewrite Z.pow_1_r|done]. }
  assert (exists r1, (if Z.odd (bval exponent) then bigint_mod_multiply result base modulus else Some result) = Some r1 /\ words r1 /\ length r1 = length modulus /\
    bval r1 < bval modulus /\ bval r1 = (bval result * (if Z.odd (bval exponent) then bval base else 1)) `mod` bval modulus) as (r1 & -> & R1 & R2 & R3 & R4).
  { destruct (Z.odd (bval exponent)).
    - destruct (bigint_mod_multiply_value result base modulus) as (r1 & -> & R1 & R2 & R3); [congruence|done..|]. exists r1. split_and!; [done|done|congruence| |done]. rewrite R3. apply Z.mod_pos_bound. done.
    - exists result. split_and!; [done..|]. rewrite Z.mul_1_r, Z.mod_small by lia. done. }
  destruct (IH b' (bigint_ror exponent) r1) as (r & -> & W1 & W2 & W3); [done|done|done|done|congruence|done|done|done|rewrite X3; fold h; destruct (Z.odd _); lia|].
  exists r. split_and!; [done|done|done|]. rewrite W3, R4, B3, X3, Epow. fold h.
  rewrite Z.mul_mod_idemp_l by lia. rewrite <- Z.mul_mod_idemp_r by lia. rewrite Z.mod_pow_l, Z.mul_mod_idemp_r by lia. f_equal. lia.
Qed.

(** ** Raw data *)

(** The number that raw data represent, the most significant byte first. *)
Definition be_value (data : list Z) : Z := le_value (rev data).

Lemma le_value_app l1 l2 : le_value (l1 ++ l2) = le_value l1 + 256 ^ Z.of_nat (length l1) * le_value l2.
Proof.
  induction l1 as [|b l1 IH]; [cbn [app length le_value]; change (256 ^ Z.of_nat 0) with 1; lia|]. cbn [app length le_value]. rewrite IH, Nat2Z.inj_succ, Z.pow_succ_r by lia. lia.
Qed.

Lemma le_value_bound l : bytes l -> 0 <= le_value l < 256 ^ Z.of_nat (length l).
Proof.
  induction l as [|b l IH]; intros Hl; [done|]. apply Forall_cons in Hl as [Hb Hl]. specialize (IH Hl). unfold in_width in Hb. change (2 ^ 8) with 256 in Hb.
  cbn [le_value length]. rewrite Nat2Z.inj_succ, Z.pow_succ_r by lia. lia.
Qed.

Lemma le_value_zero n : le_value (replicate n 0) = 0.
Proof. induction n as [|n IH]; [done|]. cbn [replicate le_value]. lia. Qed.

Lemma element_value b0 b1 b2 b3 :
  is_byte b0 -> is_byte b1 -> is_byte b2 -> is_byte b3 ->
  Z.lor b0 (Z.lor (Z.shiftl b1 8) (Z.lor (Z.shiftl b2 16) (Z.shiftl b3 24))) = le_value [b0; b1; b2; b3].
Proof.
  unfold in_width. intros H0 H1 H2 H3. rewrite (Z.lor_comm (Z.shiftl b2 16)), (lor_shiftl_add b3); [|lia|].
  2: { rewrite Z.shiftl_mul_pow2 by lia. lia. }
  rewrite (Z.shiftl_mul_pow2 b2), (Z.lor_comm (Z.shiftl b1 8)) by lia. replace (b3 * 2 ^ 24 + b2 * 2 ^ 16) with (Z.shiftl (b3 * 2 ^ 8 + b2) 16) by (rewrite Z.shiftl_mul_pow2; lia).
  rewrite lor_shiftl_add; [|lia|rewrite Z.shiftl_mul_pow2; lia]. rewrite (Z.shiftl_mul_pow2 b1), Z.lor_comm by lia.
  replace ((b3 * 2 ^ 8 + b2) * 2 ^ 16 + b1 * 2 ^ 8) with (Z.shiftl ((b3 * 2 ^ 8 + b2) * 2 ^ 8 + b1) 8) by (rewrite Z.shiftl_mul_pow2; lia). rewrite lor_shiftl_add by lia. cbn [le_value]. lia.
Qed.

Lemma nth_is_byte n b : bytes b -> is_byte (nth n b 0).
Proof. intros Hb. destruct (nth_in_or_default n b 0) as [Hin| ->]; [|done]. by apply (Forall_forall (fun z => is_byte z) b), list_elem_of_In. Qed.

Lemma of_bytes_value n b :
  bytes b -> length b = (4 * n)%nat -> words (of_bytes n b) /\ length (of_bytes n b) = n /\ bval (of_bytes n b) = le_value b.
Proof.
  revert b. induction n as [|n IH]; intros b Hb Hl; [destruct b; [|done]; split_and!; [by apply Forall_nil_2|done|done]|].
  do 4 (destruct b as [|? b]; [cbn in Hl; lia|]). cbn [of_bytes drop]. rewrite drop_0. change (nth 0 (?a :: _) 0) with a. change (nth 1 (_ :: ?a :: _) 0) with a. change (nth 2 (_ :: _ :: ?a :: _) 0) with a. change (nth 3 (_ :: _ :: _ :: ?a :: _) 0) with a.
  rewrite !Forall_cons in Hb. destruct Hb as (H0 & H1 & H2 & H3 & Hb). destruct (IH b Hb) as (W & L & E); [cbn in Hl; lia|].
  rewrite element_value by done. split_and!.
  - apply words_cons. split; [|done]. assert (bytes [z; z0; z1; z2]) as Hw by (by repeat apply Forall_cons_2). apply le_value_bound in Hw. exact Hw.
  - cbn [length]. by rewrite L.
  - rewrite bval_cons, E. cbn [le_value]. lia.
Qed.

Lemma bytes_rev l : bytes l -> bytes (rev l).
Proof. apply List.Forall_rev. Qed.

Lemma bigint_init_value size data :
  bytes data -> data <> [] -> (length data <= 4 * size)%nat ->
  exists l, bigint_init size data = Some l /\ words l /\ length l = size /\ bval l = be_value data.
Proof.
  intros Hb Hne Hl. unfold bigint_init. rewrite decide_False by (intros [?|?]; [done|lia]). eexists. split; [done|].
  destruct (of_bytes_value size (rev data ++ replicate (4 * size - length data) 0)) as (W & L & E).
  - apply Forall_app. split; [by apply bytes_rev|by apply Forall_replicate].
  - rewrite length_app, length_rev, length_replicate. lia.
  - split_and!; [done|done|]. rewrite E, le_value_app, le_value_zero. unfold be_value. lia.
Qed.

Lemma element_bytes_value w : 0 <= w < 2 ^ 32 -> bytes (element_bytes w) /\ le_value (element_bytes w) = w.
Proof.
  intros Hw. split; [by repeat apply Forall_cons_2; [apply Z.mod_pos_bound; lia..|]|]. unfold element_bytes, wrap. cbn [le_value]. rewrite !Z.shiftr_div_pow2 by lia.
  change (2 ^ 24) with (2 ^ 8 * 2 ^ 16). change (2 ^ 16) with (2 ^ 8 * 2 ^ 8). rewrite <- !Z.div_div by lia. change (2 ^ 8) with 256 in *. change (2 ^ 32) with 4294967296 in Hw.
  pose proof (Z.div_mod w 256 ltac:(lia)). pose proof (Z.div_mod (w / 256) 256 ltac:(lia)). pose proof (Z.div_mod (w / 256 / 256) 256 ltac:(lia)).
  assert (0 <= w / 256 / 256 / 256 < 256) by (rewrite !Z.div_div by lia; split; [apply Z.div_pos; lia|apply Z.div_lt_upper_bound; lia]).
  rewrite (Z.mod_small (w / 256 / 256 / 256)) by done. lia.
Qed.

Lemma to_bytes_value l : words l -> bytes (to_bytes l) /\ length (to_bytes l) = (4 * length l)%nat /\ le_value (to_bytes l) = bval l.
Proof.
  induction l as [|w l IH]; intros Hl; [split_and!; [by apply Forall_nil_2|done|done]|]. apply words_cons in Hl as [Hw Hl]. destruct (IH Hl) as (B & L & E). destruct (element_bytes_value w Hw) as [B1 E1].
  unfold to_bytes in *. cbn [map concat]. split_and!; [by apply Forall_app|rewrite length_app, L; cbn; lia|]. rewrite le_value_app, E, E1, bval_cons. cbn [length element_bytes]. change (256 ^ Z.of_nat 4) with (2 ^ 32). lia.
Qed.

Lemma bigint_done_value value len :
  words value -> (len <= 4 * length value)%nat -> bval value < 256 ^ Z.of_nat len ->
  bytes (bigint_done value len) /\ length (bigint_done value len) = len /\ be_value (bigint_done value len) = bval value.
Proof.
  intros Hw Hl Hb. destruct (to_bytes_value value Hw) as (B & L & E). unfold bigint_done, be_value. assert (length (take len (to_bytes value)) = len) as Ht by (rewrite length_take; lia).
  split_and!; [by apply bytes_rev, Forall_take|by rewrite length_rev|]. rewrite rev_involutive.
  pose proof (le_value_app (take len (to_bytes value)) (drop len (to_bytes value))) as A. rewrite take_drop, Ht, E in A.
  assert (bytes (take len (to_bytes value))) as B1 by by apply Forall_take. assert (bytes (drop len (to_bytes value))) as B2 by by apply Forall_drop. apply le_value_bound in B1, B2. rewrite Ht in B1.
  assert (le_value (drop len (to_bytes value)) = 0) as E0 by nia. rewrite E0 in A. lia.
Qed.

Lemma bigint_mod_exp_value fuel base modulus exponent :
  words base -> words modulus -> words exponent -> length base = length modulus -> 1 < bval modulus -> (32 * length exponent <= fuel)%nat ->
  exists r, bigint_mod_exp fuel base modulus exponent = Some r /\ words r /\ length r = length modulus /\ bval r = (bval base ^ bval exponent) `mod` bval modulus.
Proof.
  intros Hb Hm He Hl Hpos Hf. unfold bigint_mod_exp. assert (1 <= length base)%nat as Hne by (destruct modulus; [done|]; rewrite Hl; cbn; lia).
  destruct (bigint_init_value (length base) [1]) as (r0 & -> & R1 & R2 & R3); [by apply Forall_singleton|done|cbn [length]; lia|]. change (be_value [1]) with 1 in R3.
  destruct (mod_exp_loop_value fuel base modulus exponent r0) as (r & -> & W1 & W2 & W3); [done..|congruence|lia|lia| |].
  { pose proof (bval_bound _ He) as B. unfold radix in B. assert (2 ^ (32 * Z.of_nat (length exponent)) <= 2 ^ Z.of_nat fuel) by (apply Z.pow_le_mono_r; lia). lia. }
  exists r. split_and!; [done..|]. by rewrite W3, R3, Z.mul_1_l.
Qed.

(** C10: modular exponentiation of big integers returns, within a number of
    rounds that is the number of bits of the exponent, the power of the base
    modulo the modulus, and the carries of all multiplications stay inside
    their arrays. *)
Theorem bigint_mod_exp_correct fuel base modulus exponent :
  words base -> words modulus -> words exponent -> length base = length modulus -> 1 < bval modulus -> (32 * length exponent <= fuel)%nat ->
  exists r, bigint_mod_exp fuel base modulus exponent = Some r /\ words r /\ length r = length modulus /\ bval r = (bval base ^ bval exponent) `mod` bval modulus.
Proof. apply bigint_mod_exp_value. Qed.

Lemma bigint_mod_exp_correct_witness :
  exists r, bigint_mod_exp 32 [5; 7] [4294967291; 1] [65537] = Some r /\ bval r = (bval [5; 7] ^ 65537) `mod` bval [4294967291; 1].
Proof.
  destruct (bigint_mod_exp_correct 32 [5; 7] [4294967291; 1] [65537]) as (r & E & _ & _ & V).
  - apply (bool_decide_unpack _). vm_compute. exact I.
  - apply (bool_decide_unpack _). vm_compute. exact I.
  - apply (bool_decide_unpack _). vm_compute. exact I.
  - reflexivity.
  - reflexivity.
  - apply Nat.leb_le. reflexivity.
  - exists r. split; [exact E|exact V].
Defined.
