(* ===== verification/Time.v ===== *)
(** * Date and time (core/time.c)

    [mktime] counts the days since 1970 with the formula of POSIX.  It agrees
    with the calendar, in which every year has its months and a leap year an
    additional day ([mktime_calendar]). *)

From S2P Require Import Prelude.

(** Years since 1900, months from 0, days of the month from 1. *)
Record tm := Tm {
  tm_sec : Z;
  tm_min : Z;
  tm_hour : Z;
  tm_mday : Z;
  tm_mon : Z;
  tm_year : Z;
}.

(** Divisions of signed integers round towards zero. *)
Definition is_leap_year (tm_year : Z) : bool :=
  let leap_year := bool_decide (Z.rem tm_year 4 = 0) in
  let leap_year := if decide (Z.rem tm_year 100 = 0) then false else leap_year in
  if decide (Z.rem tm_year 400 = 100) then true else leap_year.

Definition leap_years_to_end (tm_year : Z) : Z := Z.quot tm_year 4 - Z.quot tm_year 100 + Z.quot (tm_year + 300) 400.

Definition day_of_week_offset : list Z := [1; 4; 3; 6; 1; 4; 6; 2; 5; 0; 3; 5].

(** [None] when the month is outside the array. *)
Definition day_of_week (tm_year tm_mon tm_mday : Z) : option Z :=
  if decide (tm_mon < 0) then None else
  match day_of_week_offset !! Z.to_nat tm_mon with
  | None => None
  | Some offset =>
    let pseudo_year := if decide (tm_mon < 2) then tm_year - 1 else tm_year in
    Some (Z.rem (s32 (pseudo_year + leap_years_to_end pseudo_year + offset + tm_mday)) 7)
  end.

Definition days_to_month_start : list Z := [0; 31; 59; 90; 120; 151; 181; 212; 243; 273; 304; 334].

(** The day of the year, the day of the week and the seconds, which are a
    64-bit number. *)
Definition mktime (t : tm) : option (Z * Z * Z) :=
  if decide (tm_mon t < 0) then None else
  match days_to_month_start !! Z.to_nat (tm_mon t), day_of_week (tm_year t) (tm_mon t) (tm_mday t) with
  | Some start, Some wday =>
    let yday := s32 (tm_mday t - 1 + start) in
    let yday := if bool_decide (2 <= tm_mon t) && is_leap_year (tm_year t) then s32 (yday + 1) else yday in
    let days_since_epoch := s32 (yday + 365 * tm_year t - 25567 + leap_years_to_end (tm_year t - 1)) in
    let seconds_since_day := s32 ((tm_hour t * 60 + tm_min t) * 60 + tm_sec t) in
    Some (yday, wday, days_since_epoch * 86400 + seconds_since_day)
  | _, _ => None
  end.

(** ** The calendar *)

(** The Gregorian rule for years since 1900. *)
Definition leap (y : Z) : Prop := (1900 + y) `mod` 4 = 0 /\ ((1900 + y) `mod` 100 <> 0 \/ (1900 + y) `mod` 400 = 0).
#[export] Instance leap_dec y : Decision (leap y).
Proof. unfold leap. apply _. Defined.

Definition year_days (y : Z) : Z := if decide (leap y) then 366 else 365.
Definition month_days (y : Z) : list Z := [31; if decide (leap y) then 29 else 28; 31; 30; 31; 30; 31; 31; 30; 31; 30; 31].

Definition sum (l : list Z) : Z := foldr Z.add 0 l.

(** The days before the [n]-th year after 1900. *)
Fixpoint days_before_year (n : nat) : Z :=
  match n with
  | O => 0
  | S n => days_before_year n + year_days (Z.of_nat n)
  end.

(** The days from the beginning of 1900 to a date. *)
Definition day_number (y m d : nat) : Z := days_before_year y + sum (take m (month_days (Z.of_nat y))) + Z.of_nat d - 1.

Ltac div_lia := Z.to_euclidean_division_equations; lia.

Lemma is_leap_year_leap n : is_leap_year (Z.of_nat n) = bool_decide (leap (Z.of_nat n)).
Proof.
  unfold is_leap_year, leap. rewrite !Z.rem_mod_nonneg by lia. set (y := Z.of_nat n). assert (0 <= y) by lia. clearbody y.
  repeat case_decide; repeat case_bool_decide; try done; exfalso; div_lia.
Qed.

Lemma leap_years_step n : leap_years_to_end (Z.of_nat n) = leap_years_to_end (Z.of_nat n - 1) + (if decide (leap (Z.of_nat n)) then 1 else 0).
Proof.
  destruct n as [|n]; [reflexivity|]. unfold leap_years_to_end, leap. replace (Z.of_nat (S n) - 1) with (Z.of_nat n) by lia. rewrite Nat2Z.inj_succ.
  set (y := Z.of_nat n). assert (0 <= y) by lia. clearbody y. rewrite !Z.quot_div_nonneg by lia. case_decide; div_lia.
Qed.

Lemma days_before_year_formula n : days_before_year n = 365 * Z.of_nat n + leap_years_to_end (Z.of_nat n - 1).
Proof.
  induction n as [|n IH]; [reflexivity|]. cbn [days_before_year]. rewrite IH. replace (Z.of_nat (S n) - 1) with (Z.of_nat n) by lia. rewrite leap_years_step. unfold year_days. case_decide; lia.
Qed.

Lemma month_start_leap y m start :
  days_to_month_start !! m = Some start -> sum (take m (month_days y)) = start + (if bool_decide (2 <= Z.of_nat m) then (if decide (leap y) then 1 else 0) else 0).
Proof.
  intros Hm. unfold month_days. do 12 (destruct m as [|m]; [injection Hm as <-; destruct (decide (leap y)); reflexivity|]). done.
Qed.

Lemma leap_years_bound x : -1 <= x < 1000000 -> 0 <= leap_years_to_end x <= 1000000.
Proof. intros Hx. destruct (decide (x = -1)) as [->|]; [done|]. unfold leap_years_to_end. rewrite !Z.quot_div_nonneg by lia. div_lia. Qed.

Lemma month_tables_bound m start offset : days_to_month_start !! m = Some start -> day_of_week_offset !! m = Some offset -> 0 <= start <= 334 /\ 0 <= offset <= 6.
Proof. do 12 (destruct m as [|m]; [by intros [= <-] [= <-]|]). done. Qed.

(** The day of the week, from Monday, the first of January 1900. *)
Lemma day_of_week_calendar y m d :
  (m < 12)%nat -> (1 <= d)%nat -> Z.of_nat y < 1000000 -> Z.of_nat d < 1000000 -> day_of_week (Z.of_nat y) (Z.of_nat m) (Z.of_nat d) = Some ((day_number y m d + 1) `mod` 7).
Proof.
  intros Hm Hd Hy Hdb. unfold day_of_week, day_number. rewrite decide_False by lia. rewrite Nat2Z.id. rewrite days_before_year_formula.
  assert (exists start, days_to_month_start !! m = Some start) as [start Hs] by (apply lookup_lt_is_Some_2; cbn; lia). rewrite (month_start_leap _ _ _ Hs). pose proof (leap_years_step y) as Hl.
  destruct (day_of_week_offset !! m) as [offset|] eqn:Ho; [|apply lookup_ge_None in Ho; cbn in Ho; lia]. destruct (month_tables_bound _ _ _ Hs Ho) as [_ Hob]. f_equal.
  cbv zeta. rewrite sext_small; [|lia|change (2 ^ (32 - 1)) with 2147483648; destruct (decide (Z.of_nat m < 2)); match goal with |- context [leap_years_to_end ?x] => pose proof (leap_years_bound x ltac:(lia)) end; lia].
  assert (0 <= leap_years_to_end (Z.of_nat y - 1)) as Hpos by (unfold leap_years_to_end; destruct y; [done|]; rewrite !Z.quot_div_nonneg by lia; div_lia).
  assert (exists k, start = offset + (if bool_decide (2 <= Z.of_nat m) then 0 else -1) + 7 * k /\ 0 <= offset /\ (Z.of_nat m < 2 -> 1 <= offset)) as (k & Ek & Hoff & Hoff1).
  { exists ((start - (offset + (if bool_decide (2 <= Z.of_nat m) then 0 else -1))) / 7).
    do 12 (destruct m as [|m]; [injection Ho as <-; injection Hs as <-; by vm_compute|]). done. }
  set (l := leap_years_to_end (Z.of_nat y - 1)) in *. set (b := if decide (leap (Z.of_nat y)) then 1 else 0) in *. assert (0 <= b) by (unfold b; by destruct (decide (leap (Z.of_nat y)))).
  case_bool_decide as H2.
  - rewrite decide_False by lia. rewrite Hl. rewrite Z.rem_mod_nonneg by lia. rewrite Ek. replace (365 * Z.of_nat y + l + (offset + 0 + 7 * k + b) + Z.of_nat d - 1 + 1) with (Z.of_nat y + (l + b) + offset + Z.of_nat d + (52 * Z.of_nat y + k) * 7) by lia.
    by rewrite Z.mod_add by lia.
  - rewrite decide_True by lia. fold l. rewrite Z.rem_mod_nonneg by lia. rewrite Ek. replace (365 * Z.of_nat y + l + (offset + -1 + 7 * k + 0) + Z.of_nat d - 1 + 1) with (Z.of_nat y - 1 + l + offset + Z.of_nat d + (52 * Z.of_nat y + k) * 7) by lia.
    by rewrite Z.mod_add by lia.
Qed.

(** For every date from 1900 on, for a million years, [mktime] returns the seconds since the
    beginning of 1970 by the calendar, the day of the year and the day of the
    week. *)
Theorem mktime_calendar y m d hour minute second :
  (m < 12)%nat -> (1 <= d)%nat -> Z.of_nat y < 1000000 -> Z.of_nat d < 1000000 -> 0 <= hour < 100 -> 0 <= minute < 100 -> 0 <= second < 100 ->
  mktime (Tm second minute hour (Z.of_nat d) (Z.of_nat m) (Z.of_nat y)) =
  Some (day_number y m d - day_number y 0 1, (day_number y m d + 1) `mod` 7,
        (day_number y m d - day_number 70 0 1) * 86400 + hour * 3600 + minute * 60 + second).
Proof.
  intros Hm Hd Hy Hdb Hh Hmin Hs. unfold mktime. cbn [tm_mon tm_year tm_mday tm_hour tm_min tm_sec]. rewrite decide_False by lia. rewrite Nat2Z.id, day_of_week_calendar by done.
  assert (exists start, days_to_month_start !! m = Some start) as [start Hst] by (apply lookup_lt_is_Some_2; cbn; lia). rewrite Hst. cbv zeta. rewrite is_leap_year_leap.
  change (day_number 70 0 1) with 25567. assert (day_number y m d = 365 * Z.of_nat y + leap_years_to_end (Z.of_nat y - 1) + start + (if bool_decide (2 <= Z.of_nat m) then (if decide (leap (Z.of_nat y)) then 1 else 0) else 0) + Z.of_nat d - 1) as ->
    by (unfold day_number; rewrite days_before_year_formula, (month_start_leap _ _ _ Hst); lia).
  assert (day_number y 0 1 = 365 * Z.of_nat y + leap_years_to_end (Z.of_nat y - 1)) as -> by (unfold day_number; rewrite days_before_year_formula; change (sum (take 0 _)) with 0; lia).
  assert (exists offset, day_of_week_offset !! m = Some offset) as [offset Ho] by (apply lookup_lt_is_Some_2; cbn; lia). destruct (month_tables_bound _ _ _ Hst Ho) as [Hsb _].
  pose proof (leap_years_bound (Z.of_nat y - 1) ltac:(lia)) as Hlb. rewrite (sext_small 32 (Z.of_nat d - 1 + start)), (sext_small 32 (Z.of_nat d - 1 + start + 1)), (sext_small 32 ((hour * 60 + minute) * 60 + second)) by (change (2 ^ (32 - 1)) with 2147483648; lia).
  rewrite (sext_small 32) by (lia || (change (2 ^ (32 - 1)) with 2147483648; repeat case_match; lia)).
  destruct (bool_decide (2 <= Z.of_nat m)); cbn [andb]; [|f_equal; f_equal; [f_equal; lia|lia]].
  destruct (decide (leap (Z.of_nat y))) as [L|L]; [rewrite bool_decide_true by done|rewrite bool_decide_false by done]; (f_equal; f_equal; [f_equal; lia|lia]).
Qed.

Lemma mktime_calendar_witness : mktime (Tm 5 4 3 29 1 124) = Some (59, 4, 1709175845).
Proof. refine (mktime_calendar 124 1 29 3 4 5 _ _ _ _ _ _ _); [apply Nat.ltb_lt; reflexivity|apply Nat.leb_le; reflexivity|lia..]. Defined.

(** The month is an index of arrays, which is not checked. *)
Theorem mktime_month_overrun : mktime (Tm 0 0 0 1 (-1) 70) = None /\ mktime (Tm 0 0 0 1 12 70) = None.
Proof. done. Qed.
