(* ===== verification/Asn1.v ===== *)
(** * ASN.1 encoding (crypto/asn1.c, include/ipxe/asn1.h)

    A cursor is an address and a length; parsing reads a memory.  No parsing
    function reads a byte outside the cursor it is given or leaves it
    ([asn1_in_bounds]); what the builder writes, the cursor functions parse
    ([asn1_build_parse]).  An integer that does not fit can be taken for a
    negative one ([asn1_integer_wraps]), a failed allocation is not always
    permanent ([asn1_error_forgotten]), and skipping an object that is not
    there can move the cursor ([asn1_skip_moves]). *)

From S2P Require Import Prelude CMem Strings Time.

Definition ASN1_END : Z := 0.
Definition ASN1_BOOLEAN : Z := 1.
Definition ASN1_INTEGER : Z := 2.
Definition ASN1_BIT_STRING : Z := 3.
Definition ASN1_OID : Z := 6.
Definition ASN1_UTC_TIME : Z := 23.
Definition ASN1_GENERALIZED_TIME : Z := 24.
Definition ASN1_SEQUENCE : Z := 48.
Definition ASN1_ANY : Z := 4294967295.

Record asn1_cursor := Cursor { cur_data : Z; cur_len : Z }.

Record asn1_bit_string_value := BitString { bits_data : Z; bits_len : Z; bits_unused : Z }.

(** What the table of algorithms says of one: its identifier, and whether it
    has a public-key algorithm and a digest. *)
Record asn1_algorithm_entry := Algorithm { alg_oid : list Z; alg_pubkey : bool; alg_digest : bool }.

(** ** Cursors *)

Definition asn1_invalidate_cursor (c : asn1_cursor) : asn1_cursor := Cursor (cur_data c) 0.

Definition advance (n : Z) (c : asn1_cursor) : asn1_cursor := Cursor (cur_data c + n) (cur_len c - n).

Section parsing.
Context (m : mem).

Definition asn1_type (c : asn1_cursor) : Z := if decide (1 <= cur_len c) then m (cur_data c) else ASN1_END.

(** The length of [n] bytes, in an unsigned integer. *)
Fixpoint length_loop (n : nat) (len : Z) (c : asn1_cursor) : Z * asn1_cursor :=
  match n with
  | O => (len, c)
  | S n => length_loop n (Z.lor (u32 (Z.shiftl len 8)) (m (cur_data c))) (advance 1 c)
  end.

(** The length is returned as a signed integer. *)
Definition asn1_start (c : asn1_cursor) (type extra : Z) : result Z * asn1_cursor :=
  if decide (cur_len c < 2) then (Err EINVAL, c) else
  if decide (type <> ASN1_ANY /\ type <> asn1_type c) then (Err ENXIO, c) else
  let c := advance 1 c in
  let len_len := m (cur_data c) in
  let '(len_len, c) := if decide (Z.land len_len 128 <> 0) then (Z.land len_len 127, advance 1 c) else (1, c) in
  if decide (cur_len c < len_len) then (Err EINVAL, c) else
  let (len, c) := length_loop (Z.to_nat len_len) 0 c in
  if decide (u64 (cur_len c + extra) < len) then (Err EINVAL, c) else (Ok (s32 len), c).

(** Negative lengths are taken for errors, whose number has no meaning. *)
Definition start_len (r : result Z * asn1_cursor) : result Z * asn1_cursor :=
  match r with
  | (Ok len, c) => if decide (len < 0) then (Err EOVERFLOW, c) else (Ok len, c)
  | _ => r
  end.

Definition asn1_enter (c : asn1_cursor) (type : Z) : result unit * asn1_cursor :=
  match start_len (asn1_start c type 0) with
  | (Err rc, c) => (Err rc, asn1_invalidate_cursor c)
  | (Ok len, c) => (Ok tt, Cursor (cur_data c) len)
  end.

Definition asn1_skip_if_exists (c : asn1_cursor) (type : Z) : result unit * asn1_cursor :=
  match start_len (asn1_start c type 0) with
  | (Err rc, c) => (Err rc, c)
  | (Ok len, c) => let c := advance len c in (if decide (cur_len c = 0) then Err ENOENT else Ok tt, c)
  end.

Definition asn1_skip (c : asn1_cursor) (type : Z) : result unit * asn1_cursor :=
  match asn1_skip_if_exists c type with
  | (Err rc, c) => (Err rc, asn1_invalidate_cursor c)
  | r => r
  end.

Definition asn1_shrink (c : asn1_cursor) (type : Z) : result unit * asn1_cursor :=
  match start_len (asn1_start c type 0) with
  | (Err rc, _) => (Err rc, asn1_invalidate_cursor c)
  | (Ok len, temp) => (Ok tt, Cursor (cur_data c) (cur_data temp + len - cur_data c))
  end.

Definition asn1_enter_any (c : asn1_cursor) : result unit * asn1_cursor := asn1_enter c ASN1_ANY.
Definition asn1_skip_any (c : asn1_cursor) : result unit * asn1_cursor := asn1_skip c ASN1_ANY.
Definition asn1_shrink_any (c : asn1_cursor) : result unit * asn1_cursor := asn1_shrink c ASN1_ANY.

(** ** Values *)

Definition asn1_boolean (c : asn1_cursor) : result Z :=
  let contents := (asn1_enter c ASN1_BOOLEAN).2 in
  if decide (cur_len contents <> 1) then Err EINVAL else Ok (m (cur_data contents)).

(** [high_byte] is the highest byte of the signed value. *)
Fixpoint integer_loop (n : nat) (value : Z) (c : asn1_cursor) : result Z :=
  match n with
  | O => Ok value
  | S n =>
    let high_byte := u8 (Z.shiftr value 24) in
    if decide (high_byte <> 0 /\ high_byte <> 255) then Err EINVAL
    else integer_loop n (s32 (Z.lor (u32 (Z.shiftl value 8)) (m (cur_data c)))) (advance 1 c)
  end.

Definition asn1_integer (c : asn1_cursor) : result Z :=
  match asn1_enter c ASN1_INTEGER with
  | (Err rc, _) => Err rc
  | (Ok _, contents) =>
    if decide (cur_len contents < 1) then Err EINVAL else
    integer_loop (Z.to_nat (cur_len contents - 1)) (sext 8 (m (cur_data contents))) (advance 1 contents)
  end.

(** A shift by more than the width of an integer is not defined; the mask is
    not used then. *)
Definition asn1_bit_string (c : asn1_cursor) : result asn1_bit_string_value :=
  match asn1_enter c ASN1_BIT_STRING with
  | (Err rc, _) => Err rc
  | (Ok _, contents) =>
    if decide (cur_len contents < 1) then Err EINVAL else
    let len := cur_len contents - 1 in
    let unused := m (cur_data contents) in
    let unused_mask := Z.shiftr 255 (8 - unused) in
    let last := cur_data contents + 1 + len - 1 in
    if decide (8 <= unused \/ (0 < unused /\ len = 0) \/ Z.land (m last) unused_mask <> 0) then Err EINVAL
    else Ok (BitString (cur_data contents + 1) len unused)
  end.

Definition asn1_integral_bit_string (c : asn1_cursor) : result asn1_bit_string_value :=
  match asn1_bit_string c with
  | Err rc => Err rc
  | Ok bits => if decide (bits_unused bits <> 0) then Err EINVAL else Ok bits
  end.

(** The bytes of a cursor. *)
Definition contents (c : asn1_cursor) : list Z := mload m (cur_data c) (Z.to_nat (cur_len c)).

(** The comparison of bytes [l1] with a cursor: the difference of the lengths,
    as an integer, or of the first bytes that differ. *)
Fixpoint memcmp_bytes (l1 l2 : list Z) : Z :=
  match l1, l2 with
  | b1 :: l1, b2 :: l2 => if decide (b1 - b2 <> 0) then b1 - b2 else memcmp_bytes l1 l2
  | _, _ => 0
  end.

Definition compare_with (l1 : list Z) (c2 : asn1_cursor) : Z :=
  let difference := s32 (cur_len c2 - Z.of_nat (length l1)) in
  if decide (difference <> 0) then difference else memcmp_bytes l1 (mload m (cur_data c2) (length l1)).

Definition asn1_compare (c1 c2 : asn1_cursor) : Z := compare_with (contents c1) c2.

Fixpoint asn1_find_algorithm (algorithms : list asn1_algorithm_entry) (c : asn1_cursor) : option asn1_algorithm_entry :=
  match algorithms with
  | [] => None
  | a :: algorithms => if decide (compare_with (alg_oid a) c = 0) then Some a else asn1_find_algorithm algorithms c
  end.

Definition asn1_algorithm (algorithms : list asn1_algorithm_entry) (c : asn1_cursor) : result asn1_algorithm_entry :=
  let contents := (asn1_enter c ASN1_SEQUENCE).2 in
  match asn1_enter contents ASN1_OID with
  | (Err _, _) => Err EINVAL
  | (Ok _, contents) => match asn1_find_algorithm algorithms contents with Some a => Ok a | None => Err ENOTSUP end
  end.

Definition asn1_pubkey_algorithm (algorithms : list asn1_algorithm_entry) (c : asn1_cursor) : result asn1_algorithm_entry :=
  match asn1_algorithm algorithms c with
  | Err rc => Err rc
  | Ok a => if alg_pubkey a then Ok a else Err ENOTTY
  end.

Definition asn1_digest_algorithm (algorithms : list asn1_algorithm_entry) (c : asn1_cursor) : result asn1_algorithm_entry :=
  match asn1_algorithm algorithms c with
  | Err rc => Err rc
  | Ok a => if alg_digest a then Ok a else Err ENOTTY
  end.

Definition asn1_signature_algorithm (algorithms : list asn1_algorithm_entry) (c : asn1_cursor) : result asn1_algorithm_entry :=
  match asn1_algorithm algorithms c with
  | Err rc => Err rc
  | Ok a => if negb (alg_pubkey a) then Err ENOTTY else if negb (alg_digest a) then Err ENOTTY else Ok a
  end.

(** ** Times *)

(** The pairs of digits from the [i]-th of seven on; the last may be missing. *)
Fixpoint pairs_loop (n : nat) (data remaining : Z) : result (list Z * (Z * Z)) :=
  match n with
  | O => Ok ([], (data, remaining))
  | S n' =>
    if decide (remaining < 2) then (if decide (n' = O) then Ok ([0], (data, remaining)) else Err EINVAL) else
    let tens := m data in
    let units := m (data + 1) in
    if isdigit tens && isdigit units then
      match pairs_loop n' (data + 2) (remaining - 2) with
      | Ok (l, r) => Ok (10 * (tens - 48) + (units - 48) :: l, r)
      | Err rc => Err rc
      end
    else Err EINVAL
  end.

(** The broken-down time, and what [mktime] makes of it ([None] when the month
    is out of range, where it reads outside its arrays). *)
Definition asn1_generalized_time (c : asn1_cursor) : result (option Z) :=
  let type := asn1_type c in
  if decide (type <> ASN1_UTC_TIME /\ type <> ASN1_GENERALIZED_TIME) then Err EINVAL else
  let have_century := bool_decide (type = ASN1_GENERALIZED_TIME) in
  match asn1_enter c type with
  | (Err rc, _) => Err rc
  | (Ok _, contents) =>
    match pairs_loop (if have_century then 7 else 6) (cur_data contents) (cur_len contents) with
    | Err rc => Err rc
    | Ok (l, (data, remaining)) =>
      let l := if have_century then l else (if decide (50 <= nth 0 l 0) then 19 else 20) :: l in
      if decide (remaining <> 1 \/ m data <> 90) then Err EINVAL else
      let t := Tm (nth 6 l 0) (nth 5 l 0) (nth 4 l 0) (nth 3 l 0) (nth 2 l 0 - 1) ((nth 0 l 0 - 19) * 100 + nth 1 l 0) in
      Ok ((fun r => r.2) <$> mktime t)
    end
  end.

End parsing.

(** ** Builders *)

(** [None] for NULL. *)
Record asn1_builder := Builder { bld_data : option (list Z); bld_len : Z }.

Fixpoint len_bytes (fuel : nat) (temp : Z) (acc : list Z) : list Z :=
  match fuel with
  | O => acc
  | S fuel => if decide (temp = 0) then acc else len_bytes fuel (Z.shiftr temp 8) (Z.land temp 255 :: acc)
  end.

(** The header: the type, and the length in one byte or as the number of its
    bytes and these; eight bytes are enough for a length. *)
Definition asn1_header (type len : Z) : list Z :=
  if decide (len < 128) then [u8 type; u8 len]
  else let l := len_bytes 8 len [] in [u8 type; Z.lor 128 (Z.of_nat (length l))] ++ l.

(** [ok] tells whether the allocation succeeds; the new bytes are zero here,
    and overwritten by all callers. *)
Definition asn1_grow (ok : bool) (extra : Z) (b : asn1_builder) : result unit * asn1_builder :=
  match bld_data b with
  | None => if decide (bld_len b <> 0) then (Err ENOMEM, b) else
            if ok then (Ok tt, Builder (Some (replicate (Z.to_nat extra) 0)) (u64 (bld_len b + extra))) else (Err ENOMEM, b)
  | Some l => if ok then (Ok tt, Builder (Some (replicate (Z.to_nat extra) 0 ++ l)) (u64 (bld_len b + extra)))
              else (Err ENOMEM, Builder None (bld_len b))
  end.

Definition put (data : list Z) (b : asn1_builder) : asn1_builder := Builder (list_inserts 0 data <$> bld_data b) (bld_len b).

Definition asn1_prepend_raw (ok : bool) (data : list Z) (b : asn1_builder) : result unit * asn1_builder :=
  match asn1_grow ok (Z.of_nat (length data)) b with
  | (Err rc, b) => (Err rc, b)
  | (Ok _, b) => (Ok tt, put data b)
  end.

Definition asn1_prepend (ok : bool) (type : Z) (data : list Z) (b : asn1_builder) : result unit * asn1_builder :=
  let header := asn1_header type (Z.of_nat (length data)) in
  match asn1_grow ok (Z.of_nat (length header) + Z.of_nat (length data)) b with
  | (Err rc, b) => (Err rc, b)
  | (Ok _, b) => (Ok tt, put (header ++ data) b)
  end.

Definition asn1_wrap (ok : bool) (type : Z) (b : asn1_builder) : result unit * asn1_builder :=
  let header := asn1_header type (bld_len b) in
  match asn1_grow ok (Z.of_nat (length header)) b with
  | (Err rc, b) => (Err rc, b)
  | (Ok _, b) => (Ok tt, put header b)
  end.

(** ** Bounds *)

Definition within (c' c : asn1_cursor) : Prop :=
  cur_data c <= cur_data c' /\ cur_data c' + cur_len c' <= cur_data c + cur_len c /\ 0 <= cur_len c'.

Definition agree (m m' : mem) (c : asn1_cursor) : Prop := forall a, cur_data c <= a < cur_data c + cur_len c -> m a = m' a.

Definition cursor_ok (c : asn1_cursor) : Prop := 0 <= cur_len c < 2 ^ 64.

Lemma within_trans c1 c2 c3 : within c1 c2 -> within c2 c3 -> within c1 c3.
Proof. unfold within. lia. Qed.

Lemma within_ok c' c : within c' c -> cursor_ok c -> cursor_ok c'.
Proof. unfold within, cursor_ok. lia. Qed.

Lemma agree_within m m' c' c : within c' c -> agree m m' c -> agree m m' c'.
Proof. unfold within. intros Hw Ha a Hr. apply Ha. lia. Qed.

Lemma advance_within n c : 0 <= n <= cur_len c -> within (advance n c) c.
Proof. unfold within, advance. cbn. lia. Qed.

Lemma invalidate_within c' c : within c' c -> within (asn1_invalidate_cursor c') c.
Proof. unfold within, asn1_invalidate_cursor. cbn. lia. Qed.

Section bounds.
Context (m m' : mem) (Hm : mem_ok m).

Lemma length_loop_bounds n len c :
  agree m m' c -> Z.of_nat n <= cur_len c -> in_width 32 len ->
  length_loop m n len c = length_loop m' n len c /\ (length_loop m n len c).2 = advance (Z.of_nat n) c /\ in_width 32 (length_loop m n len c).1.
Proof.
  revert len c. induction n as [|n IH]; intros len c Ha Hn Hl; cbn [length_loop].
  - split_and!; [done| |done]. unfold advance. destruct c; cbn. f_equal; lia.
  - rewrite <- (Ha (cur_data c)) by lia. destruct (IH (Z.lor (u32 (Z.shiftl len 8)) (m (cur_data c))) (advance 1 c)) as (E1 & E2 & E3).
    + eapply agree_within; [apply advance_within; lia|done].
    + cbn. lia.
    + assert (in_width 32 (u32 (Z.shiftl len 8))) as H1 by (apply wrap_bound; lia). assert (in_width 32 (m (cur_data c))) as H2 by (apply (in_width_le 8); [lia|apply Hm]).
      split; [apply Z.lor_nonneg; split; [apply H1|apply H2]|by apply lor_in_width].
    + split_and!; [done| |done]. rewrite E2. unfold advance. cbn. f_equal; lia.
Qed.

Lemma asn1_start_bounds c type :
  cursor_ok c -> agree m m' c ->
  asn1_start m c type 0 = asn1_start m' c type 0 /\ within (asn1_start m c type 0).2 c /\
  match (asn1_start m c type 0).1 with Ok len => len <= cur_len (asn1_start m c type 0).2 | Err _ => True end.
Proof.
  intros Hc Ha. assert (within c c) as Hw by (unfold within, cursor_ok in *; lia). unfold asn1_start. case_decide as H2; [done|].
  assert (asn1_type m' c = asn1_type m c) as -> by (unfold asn1_type; case_decide; [symmetry; apply Ha; lia|done]). case_decide; [done|].
  set (c1 := advance 1 c). assert (within c1 c) as Hw1 by (apply advance_within; lia). rewrite <- (Ha (cur_data c1)) by (unfold c1; cbn; lia). cbv zeta.
  assert (exists ll c2, (if decide (Z.land (m (cur_data c1)) 128 <> 0) then (Z.land (m (cur_data c1)) 127, advance 1 c1) else (1, c1)) = (ll, c2) /\ 0 <= ll /\ within c2 c) as (ll & c2 & -> & Hll & Hw2).
  { case_decide; (eexists _, _; split; [done|]; split); [apply Z.land_nonneg; by right| |lia|done]. eapply within_trans; [apply advance_within|exact Hw1]. unfold c1. cbn. lia. }
  case_decide; [done|]. destruct (length_loop_bounds (Z.to_nat ll) 0 c2) as (E1 & E2 & E3); [by eapply agree_within|lia|done|]. rewrite <- E1.
  destruct (length_loop m (Z.to_nat ll) 0 c2) as [len c3]. cbn [fst snd] in E2, E3. assert (within c3 c) as Hw3 by (rewrite E2; eapply within_trans; [apply advance_within; lia|done]).
  rewrite Z.add_0_r. rewrite (wrap_small 64) by (apply (within_ok _ _ Hw3 Hc)). case_decide; [done|]. split_and!; [done|done|]. cbn [fst snd].
  unfold in_width in E3. unfold sext. change (2 ^ (32 - 1)) with 2147483648. change (2 ^ 32) with 4294967296 in *.
  destruct (decide (len < 2147483648)); [rewrite Z.mod_small; lia|]. replace (len + 2147483648) with (len - 2147483648 + 1 * 4294967296) by lia. rewrite Z.mod_add, Z.mod_small by lia. lia.
Qed.

Lemma start_len_bounds c type :
  cursor_ok c -> agree m m' c ->
  start_len (asn1_start m c type 0) = start_len (asn1_start m' c type 0) /\ within (start_len (asn1_start m c type 0)).2 c /\
  match (start_len (asn1_start m c type 0)).1 with Ok len => 0 <= len <= cur_len (start_len (asn1_start m c type 0)).2 | Err _ => True end.
Proof.
  intros Hc Ha. destruct (asn1_start_bounds c type Hc Ha) as (<- & E2 & E3). destruct (asn1_start m c type 0) as [[len|] c']; cbn [start_len fst snd] in *; [|done].
  case_decide; [done|]. split_and!; [done|done|]. cbn. lia.
Qed.

(** What a function that moves a cursor may do. *)
Definition cursor_safe {A} (f : mem -> asn1_cursor -> A * asn1_cursor) (c : asn1_cursor) : Prop := f m c = f m' c /\ within (f m c).2 c.

Lemma asn1_enter_safe type c : cursor_ok c -> agree m m' c -> cursor_safe (fun m c => asn1_enter m c type) c.
Proof.
  intros Hc Ha. unfold cursor_safe, asn1_enter. destruct (start_len_bounds c type Hc Ha) as (<- & E2 & E3). destruct (start_len _) as [[len|] c']; cbn [fst snd] in *; (split; [done|]).
  - unfold within in *. cbn in *. lia.
  - by apply invalidate_within.
Qed.

Lemma asn1_skip_if_exists_safe type c : cursor_ok c -> agree m m' c -> cursor_safe (fun m c => asn1_skip_if_exists m c type) c.
Proof.
  intros Hc Ha. unfold cursor_safe, asn1_skip_if_exists. destruct (start_len_bounds c type Hc Ha) as (<- & E2 & E3). destruct (start_len _) as [[len|] c']; cbn [fst snd] in *; (split; [done|]); [|done].
  eapply within_trans; [by apply advance_within|done].
Qed.

Lemma asn1_skip_safe type c : cursor_ok c -> agree m m' c -> cursor_safe (fun m c => asn1_skip m c type) c.
Proof.
  intros Hc Ha. destruct (asn1_skip_if_exists_safe type c Hc Ha) as [E W]. unfold cursor_safe, asn1_skip. rewrite <- E. destruct (asn1_skip_if_exists m c type) as [[]]; (split; [done|]); [done|by apply invalidate_within].
Qed.

Lemma asn1_shrink_safe type c : cursor_ok c -> agree m m' c -> cursor_safe (fun m c => asn1_shrink m c type) c.
Proof.
  intros Hc Ha. unfold cursor_safe, asn1_shrink. destruct (start_len_bounds c type Hc Ha) as (<- & E2 & E3). destruct (start_len _) as [[len|] c']; cbn [fst snd] in *; (split; [done|]).
  - unfold within in *. cbn in *. lia.
  - apply invalidate_within. unfold within, cursor_ok in *. lia.
Qed.

(** The contents of an object that was entered. *)
Lemma entered c type :
  cursor_ok c -> agree m m' c -> asn1_enter m' c type = asn1_enter m c type /\ cursor_ok (asn1_enter m c type).2 /\ agree m m' (asn1_enter m c type).2.
Proof. intros Hc Ha. destruct (asn1_enter_safe type c Hc Ha) as [E W]. split_and!; [done|by eapply within_ok|by eapply agree_within]. Qed.

Lemma asn1_boolean_safe c : cursor_ok c -> agree m m' c -> asn1_boolean m c = asn1_boolean m' c.
Proof. intros Hc Ha. unfold asn1_boolean. destruct (entered c ASN1_BOOLEAN Hc Ha) as (-> & _ & Ha'). case_decide as Hl; [done|]. rewrite Ha'; [done|]. lia. Qed.

Lemma integer_loop_safe n value c : agree m m' c -> Z.of_nat n <= cur_len c -> integer_loop m n value c = integer_loop m' n value c.
Proof.
  revert value c. induction n as [|n IH]; intros value c Ha Hn; cbn [integer_loop]; [done|]. case_decide; [done|]. rewrite <- (Ha (cur_data c)) by lia. apply IH; [|cbn; lia].
  eapply agree_within; [apply advance_within; lia|done].
Qed.

Lemma asn1_integer_safe c : cursor_ok c -> agree m m' c -> asn1_integer m c = asn1_integer m' c.
Proof.
  intros Hc Ha. unfold asn1_integer. destruct (entered c ASN1_INTEGER Hc Ha) as (-> & Hc' & Ha'). destruct (asn1_enter m c ASN1_INTEGER) as [[] c']; [|done]. cbn [snd] in Hc', Ha'. case_decide; [done|].
  rewrite <- (Ha' (cur_data c')) by lia. apply integer_loop_safe; [|cbn; lia]. eapply agree_within; [apply advance_within; lia|done].
Qed.

Lemma asn1_bit_string_safe c : cursor_ok c -> agree m m' c -> asn1_bit_string m c = asn1_bit_string m' c.
Proof.
  intros Hc Ha. unfold asn1_bit_string. destruct (entered c ASN1_BIT_STRING Hc Ha) as (-> & Hc' & Ha'). destruct (asn1_enter m c ASN1_BIT_STRING) as [[] c']; [|done]. cbn [snd] in Hc', Ha'. case_decide; [done|].
  cbv zeta. rewrite <- (Ha' (cur_data c')), <- (Ha' (cur_data c' + 1 + (cur_len c' - 1) - 1)) by lia. done.
Qed.

Lemma mload_agree c n : agree m m' c -> Z.of_nat n <= cur_len c -> mload m (cur_data c) n = mload m' (cur_data c) n.
Proof. intros Ha Hn. apply mload_ext. intros x Hx. apply Ha. lia. Qed.

Lemma compare_with_safe l c : cursor_ok c -> agree m m' c -> Z.of_nat (length l) < 2 ^ 31 -> cur_len c < 2 ^ 31 -> compare_with m l c = compare_with m' l c.
Proof.
  intros Hc Ha Hl Hs. unfold compare_with. case_decide as Hd; [done|]. f_equal. apply mload_agree; [done|]. unfold cursor_ok in Hc. rewrite sext_small in Hd by lia. lia.
Qed.

Lemma asn1_find_algorithm_safe algorithms c :
  cursor_ok c -> agree m m' c -> cur_len c < 2 ^ 31 -> Forall (fun a => Z.of_nat (length (alg_oid a)) < 2 ^ 31) algorithms ->
  asn1_find_algorithm m algorithms c = asn1_find_algorithm m' algorithms c.
Proof. intros Hc Ha Hs Hall. induction Hall as [|a algorithms Hl Hall IH]; cbn [asn1_find_algorithm]; [done|]. rewrite compare_with_safe by done. by rewrite IH. Qed.

Lemma asn1_algorithm_safe algorithms c :
  cursor_ok c -> agree m m' c -> cur_len c < 2 ^ 31 -> Forall (fun a => Z.of_nat (length (alg_oid a)) < 2 ^ 31) algorithms -> asn1_algorithm m algorithms c = asn1_algorithm m' algorithms c.
Proof.
  intros Hc Ha Hs Hall. unfold asn1_algorithm. destruct (entered c ASN1_SEQUENCE Hc Ha) as (E1 & Hc1 & Ha1). destruct (asn1_enter_safe ASN1_SEQUENCE c Hc Ha) as [_ W1]. rewrite E1.
  set (c1 := (asn1_enter m c ASN1_SEQUENCE).2) in *. destruct (entered c1 ASN1_OID Hc1 Ha1) as (-> & Hc2 & Ha2). destruct (asn1_enter_safe ASN1_OID c1 Hc1 Ha1) as [_ W2]. cbn beta in W1, W2. fold c1 in W1.
  destruct (asn1_enter m c1 ASN1_OID) as [[] c2]; [|done]. cbn [snd] in *. rewrite asn1_find_algorithm_safe by (done || (unfold within in *; lia)). done.
Qed.

Lemma pairs_loop_safe n data remaining :
  (forall a, data <= a < data + remaining -> m a = m' a) -> pairs_loop m n data remaining = pairs_loop m' n data remaining /\
  match pairs_loop m n data remaining with Ok (_, (d, r)) => data <= d /\ d + r = data + remaining | Err _ => True end.
Proof.
  revert data remaining. induction n as [|n IH]; intros data remaining Ha; cbn [pairs_loop]; [split; [done|lia]|]. case_decide as Hr; [case_decide; (split; [done|]); [lia|done]|].
  rewrite <- (Ha data), <- (Ha (data + 1)) by lia. destruct (isdigit _ && isdigit _); [|done]. destruct (IH (data + 2) (remaining - 2)) as [<- IH2]; [intros a Hr'; apply Ha; lia|]. split; [done|].
  destruct (pairs_loop m n (data + 2) (remaining - 2)) as [[l [d r]]|]; [lia|done].
Qed.

Lemma asn1_generalized_time_safe c : cursor_ok c -> agree m m' c -> asn1_generalized_time m c = asn1_generalized_time m' c.
Proof.
  intros Hc Ha. unfold asn1_generalized_time. assert (asn1_type m' c = asn1_type m c) as -> by (unfold asn1_type; case_decide; [symmetry; apply Ha; lia|done]). case_decide; [done|]. cbv zeta.
  destruct (entered c (asn1_type m c) Hc Ha) as (-> & Hc' & Ha'). destruct (asn1_enter m c (asn1_type m c)) as [[] c']; [|done]. cbn [snd] in Hc', Ha'.
  destruct (pairs_loop_safe (if bool_decide (asn1_type m c = ASN1_GENERALIZED_TIME) then 7 else 6) (cur_data c') (cur_len c') Ha') as [<- Hp].
  destruct (pairs_loop m _ (cur_data c') (cur_len c')) as [[l [d r]]|]; [|done]. destruct (decide (r = 1)) as [->|Hne]; [by rewrite <- (Ha' d) by lia|].
  rewrite !decide_True by (by left). done.
Qed.

End bounds.

(** C12: no parsing function depends on a byte outside the cursor that it is
    given, and a cursor that is moved stays inside it, also on errors. *)
Theorem asn1_in_bounds m m' c type algorithms :
  mem_ok m -> cursor_ok c -> agree m m' c -> cur_len c < 2 ^ 31 -> Forall (fun a => Z.of_nat (length (alg_oid a)) < 2 ^ 31) algorithms ->
  Forall (fun f => cursor_safe m m' f c) [fun m c => asn1_enter m c type; fun m c => asn1_skip_if_exists m c type; fun m c => asn1_skip m c type; fun m c => asn1_shrink m c type] /\
  asn1_boolean m c = asn1_boolean m' c /\ asn1_integer m c = asn1_integer m' c /\ asn1_bit_string m c = asn1_bit_string m' c /\
  asn1_generalized_time m c = asn1_generalized_time m' c /\ asn1_algorithm m algorithms c = asn1_algorithm m' algorithms c.
Proof.
  intros Hm Hc Ha Hs Hall. split_and!.
  - repeat apply Forall_cons_2; [by apply asn1_enter_safe|by apply asn1_skip_if_exists_safe|by apply asn1_skip_safe|by apply asn1_shrink_safe|by apply Forall_nil_2].
  - by apply asn1_boolean_safe.
  - by apply asn1_integer_safe.
  - by apply asn1_bit_string_safe.
  - by apply asn1_generalized_time_safe.
  - by apply asn1_algorithm_safe.
Qed.

Lemma asn1_in_bounds_witness :
  let l := [48; 3; 2; 1; 5] in
  asn1_integer (mem_of l) (Cursor 2 3) = asn1_integer (mem_of (l ++ [7; 7])) (Cursor 2 3).
Proof.
  intros l. destruct (asn1_in_bounds (mem_of l) (mem_of (l ++ [7; 7])) (Cursor 2 3) ASN1_ANY []) as (_ & _ & E & _).
  - apply mem_of_ok. apply (bool_decide_unpack _). vm_compute. exact I.
  - by split.
  - intros a Ha. cbn in Ha. assert (a = 2 \/ a = 3 \/ a = 4) as [-> | [-> | ->]] by lia; reflexivity.
  - reflexivity.
  - by apply Forall_nil_2.
  - exact E.
Defined.

(** ** Building and parsing *)

Definition len_step (v b : Z) : Z := Z.lor (u32 (Z.shiftl v 8)) b.

Lemma len_bytes_value fuel temp acc : in_width 32 temp -> temp < 2 ^ (8 * Z.of_nat fuel) -> foldl len_step 0 (len_bytes fuel temp acc) = foldl len_step temp acc.
Proof.
  revert temp acc. induction fuel as [|fuel IH]; intros temp acc Ht Hf; cbn [len_bytes]; [unfold in_width in Ht; cbn in Hf; by replace temp with 0 by lia|]. case_decide as H0; [by subst|].
  unfold in_width in Ht. rewrite Nat2Z.inj_succ in Hf. replace (8 * Z.succ (Z.of_nat fuel)) with (8 + 8 * Z.of_nat fuel) in Hf by lia. rewrite Z.pow_add_r in Hf by lia.
  assert (0 <= Z.shiftr temp 8) by (apply Z.shiftr_nonneg; lia). assert (Z.shiftr temp 8 <= temp) by (rewrite Z.shiftr_div_pow2 by lia; apply Z.div_le_upper_bound; lia).
  rewrite IH; [|unfold in_width; lia|rewrite Z.shiftr_div_pow2 by lia; apply Z.div_lt_upper_bound; lia]. cbn [foldl]. f_equal. unfold len_step. change 255 with (2 ^ 8 - 1). rewrite land_ones_mod by lia.
  rewrite Z.shiftr_div_pow2, Z.shiftl_mul_pow2 by lia. rewrite wrap_small by (unfold in_width; pose proof (Z.div_mod temp (2 ^ 8)); pose proof (Z.mod_pos_bound temp (2 ^ 8)); lia).
  rewrite <- Z.shiftl_mul_pow2 by lia. rewrite lor_shiftl_add by (lia || (apply Z.mod_pos_bound; lia)). pose proof (Z.div_mod temp (2 ^ 8)). lia.
Qed.

Lemma len_bytes_bytes fuel temp acc : bytes acc -> bytes (len_bytes fuel temp acc).
Proof.
  revert temp acc. induction fuel as [|fuel IH]; intros temp acc Ha; cbn [len_bytes]; [done|]. case_decide; [done|]. apply IH. apply Forall_cons_2; [|done].
  change 255 with (2 ^ 8 - 1). rewrite land_ones_mod by lia. apply Z.mod_pos_bound. lia.
Qed.

Lemma len_bytes_length fuel temp acc : (length (len_bytes fuel temp acc) <= fuel + length acc)%nat.
Proof. revert temp acc. induction fuel as [|fuel IH]; intros temp acc; cbn [len_bytes]; [lia|]. case_decide; [lia|]. etransitivity; [apply IH|]. cbn. lia. Qed.

Lemma length_loop_value m l len c : at_mem m (cur_data c) l -> length_loop m (length l) len c = (foldl len_step len l, advance (Z.of_nat (length l)) c).
Proof.
  revert len c. induction l as [|b l IH]; intros len c Hl; cbn [length length_loop foldl].
  - f_equal. unfold advance. destruct c. cbn. f_equal; lia.
  - apply at_mem_cons in Hl as [Hb Hl]. rewrite Hb, IH by done. unfold len_step at 2. f_equal. unfold advance. cbn. f_equal; lia.
Qed.

(** The length byte of a long header. *)
Lemma len_len_byte k : 0 <= k <= 8 -> Z.land (Z.lor 128 k) 128 <> 0 /\ Z.land (Z.lor 128 k) 127 = k.
Proof. intros Hk. assert (k = 0 \/ k = 1 \/ k = 2 \/ k = 3 \/ k = 4 \/ k = 5 \/ k = 6 \/ k = 7 \/ k = 8) as Hk' by lia. naive_solver. Qed.

(** A header that was built starts the object. *)
Lemma start_header m a type len n :
  is_byte type -> 0 <= len < 2 ^ 31 -> len <= n -> n < 2 ^ 62 -> at_mem m a (asn1_header type len) ->
  let h := Z.of_nat (length (asn1_header type len)) in
  start_len (asn1_start m (Cursor a (h + n)) type 0) = (Ok len, Cursor (a + h) n).
Proof.
  intros Ht Hlen Hn Hb Ha h. assert (in_width 32 len) as Hw by (unfold in_width; lia).
  assert (asn1_start m (Cursor a (h + n)) type 0 = (Ok (s32 len), Cursor (a + h) n)) as ->; [|cbn [start_len]; rewrite sext_small by lia; by rewrite decide_False by lia].
  assert (2 <= h) as Hh by (subst h; unfold asn1_header; case_decide; cbn [length app]; lia).
  assert (asn1_type m (Cursor a (h + n)) = type) as Et.
  { unfold asn1_type. cbn [cur_len cur_data]. rewrite decide_True by lia. unfold asn1_header in Ha. case_decide; apply at_mem_cons in Ha as [E1 _]; by rewrite wrap_small in E1. }
  unfold asn1_start, advance. rewrite Et. cbn [cur_len]. rewrite (decide_False (P := h + n < 2)) by lia. rewrite (decide_False (P := type <> ASN1_ANY /\ type <> type)) by naive_solver.
  clear Et. subst h. unfold asn1_header in *. case_decide as Hs.
  - apply at_mem_cons in Ha as [_ [E2 _]%at_mem_cons]. rewrite wrap_small in E2 by (unfold in_width; lia). cbn [length cur_len cur_data ].
    rewrite E2.
    rewrite decide_False by (change 128 with (2 ^ 7); rewrite land_pow2_testbit by lia; rewrite (proj2 (Z.testbit_false len 7 ltac:(lia))) by (rewrite Z.div_small by lia; done); naive_solver). cbn [cur_len cur_data]. rewrite decide_False by lia.
    change (Z.to_nat 1) with 1%nat. cbn [length_loop]. unfold advance. cbn [cur_data cur_len]. rewrite E2. change (Z.lor _ len) with len. rewrite (wrap_small 64) by (unfold in_width; lia). rewrite decide_False by lia.
    f_equal. f_equal; lia.
  - set (l := len_bytes 8 len []) in *. assert (foldl len_step 0 l = len) as El by (unfold l; rewrite len_bytes_value by (done || (cbn; lia)); done).
    assert (length l <= 8)%nat as Hl by (unfold l; etransitivity; [apply len_bytes_length|done]). destruct (len_len_byte (Z.of_nat (length l))) as [B1 B2]; [lia|].
    apply at_mem_cons in Ha as [_ [E2 Ha]%at_mem_cons]. cbn [app length cur_len cur_data ].
    rewrite E2. rewrite decide_True by done. rewrite B2. cbn [cur_len cur_data].
    rewrite decide_False by lia. rewrite Nat2Z.id, length_loop_value by (by rewrite <- Z.add_assoc in *). rewrite El. unfold advance. cbn [cur_len cur_data].
    rewrite (wrap_small 64) by (unfold in_width; lia). rewrite decide_False by lia. f_equal. f_equal; lia.
Qed.

(** The bytes of a builder, and that its length is theirs. *)
Definition built (b : asn1_builder) : list Z := default [] (bld_data b).

Definition builder_ok (b : asn1_builder) : Prop := bld_len b = Z.of_nat (length (built b)).

Lemma asn1_header_length type len : (length (asn1_header type len) <= 10)%nat.
Proof. unfold asn1_header. case_decide; cbn [length app]; [lia|]. pose proof (len_bytes_length 8 len []) as Hlb. cbn [length] in Hlb. lia. Qed.

(** What a step that grows a builder and fills the new space yields. *)
Lemma grow_put ok data b b' :
  builder_ok b -> Z.of_nat (length data) + bld_len b < 2 ^ 62 -> asn1_grow ok (Z.of_nat (length data)) b = (Ok tt, b') ->
  builder_ok (put data b') /\ built (put data b') = data ++ built b.
Proof.
  unfold builder_ok, asn1_grow, built. intros Hb Hl Hg. destruct b as [[l|] len]; cbn [bld_data bld_len default from_option id] in *; [|case_decide; [done|]]; destruct ok; simplify_eq.
  - unfold put. cbn [bld_data bld_len fmap option_fmap option_map default from_option id]. rewrite Nat2Z.id, list_inserts_0_r by (by rewrite length_replicate).
    split; [|done]. rewrite (wrap_small 64) by (unfold in_width; lia). rewrite length_app. lia.
  - unfold put. cbn [bld_data bld_len fmap option_fmap option_map default from_option id]. rewrite Nat2Z.id, <- (app_nil_r (replicate _ 0)), list_inserts_0_r by (by rewrite length_replicate).
    split; [|done]. rewrite (wrap_small 64) by (unfold in_width; cbn in *; lia). rewrite length_app. cbn in *. lia.
Qed.

(** Entering and skipping an object whose header was built. *)
Lemma enter_built m a type data rest :
  is_byte type -> Z.of_nat (length data) < 2 ^ 31 -> Z.of_nat (length data + length rest) < 2 ^ 61 ->
  let header := asn1_header type (Z.of_nat (length data)) in
  at_mem m a (header ++ data ++ rest) ->
  let c := Cursor a (Z.of_nat (length (header ++ data ++ rest))) in
  (exists c', asn1_enter m c type = (Ok tt, c') /\ contents m c' = data) /\
  (exists c', asn1_skip_if_exists m c type = (if decide (rest = []) then Err ENOENT else Ok tt, c') /\ contents m c' = rest).
Proof.
  intros Ht Hd Hr header Hm c. apply at_mem_app in Hm as [Hh [Hm1 Hm2]%at_mem_app].
  assert (start_len (asn1_start m c type 0) = (Ok (Z.of_nat (length data)), Cursor (a + Z.of_nat (length header)) (Z.of_nat (length (data ++ rest))))) as E.
  { unfold c. rewrite length_app, Nat2Z.inj_add. apply start_header; [done|lia|rewrite length_app; lia|rewrite length_app; lia|done]. }
  unfold asn1_enter, asn1_skip_if_exists, contents. rewrite E. cbn [cur_data cur_len]. split.
  - eexists. split; [done|]. cbn [cur_data cur_len]. by rewrite Nat2Z.id.
  - unfold advance. cbn [cur_data cur_len]. rewrite length_app, Nat2Z.inj_add, Z.add_simpl_l. assert ((if decide (Z.of_nat (length rest) = 0) then Err ENOENT else Ok tt) = (if decide (rest = []) then Err ENOENT else Ok tt)) as ->.
    { destruct rest; [done|]. by rewrite !decide_False by (done || (cbn [length]; lia)). }
    eexists. split; [done|]. cbn [cur_data cur_len]. by rewrite Nat2Z.id.
Qed.

(** C13: an object that is put in front of the contents of a builder is parsed
    again, from wherever the bytes lie: entering it gives its data, and skipping
    it the contents before (or ENOENT when there were none); and entering a
    wrapped builder gives its contents.  The recorded length stays that of the
    data. *)
Theorem asn1_build_parse m a ok type data b b' :
  is_byte type -> builder_ok b -> Z.of_nat (length data) < 2 ^ 31 -> bld_len b < 2 ^ 31 -> at_mem m a (built b') ->
  (asn1_prepend ok type data b = (Ok tt, b') ->
     builder_ok b' /\
     (exists c, asn1_enter m (Cursor a (bld_len b')) type = (Ok tt, c) /\ contents m c = data) /\
     (exists c, asn1_skip_if_exists m (Cursor a (bld_len b')) type = (if decide (built b = []) then Err ENOENT else Ok tt, c) /\ contents m c = built b)) /\
  (asn1_wrap ok type b = (Ok tt, b') ->
     builder_ok b' /\ exists c, asn1_enter m (Cursor a (bld_len b')) type = (Ok tt, c) /\ contents m c = built b).
Proof.
  intros Ht Hb Hd Hl Hm. pose proof (asn1_header_length type (Z.of_nat (length data))) as Hh. pose proof (asn1_header_length type (bld_len b)) as Hh'. unfold asn1_prepend, asn1_wrap.
  split; (destruct (asn1_grow _ _ b) as [[[]|] b1] eqn:Hg; [|done]); intros [= <-].
  - set (header := asn1_header _ _) in *. rewrite <- Nat2Z.inj_add, <- length_app in Hg. apply grow_put in Hg as [Hok E]; [|done|rewrite length_app; lia].
    split; [done|]. unfold builder_ok in Hok, Hb. rewrite Hok, E in *. rewrite <- app_assoc in *. apply enter_built; [done|lia|lia|done].
  - apply grow_put in Hg as [Hok E]; [|done|lia].
    split; [done|]. unfold builder_ok in Hok, Hb. rewrite Hok, E in *. rewrite Hb in *.
    pose proof (enter_built m a type (built b) []) as He. rewrite app_nil_r in He. apply He; [done|lia|cbn [length]; lia|done].
Qed.

Lemma asn1_build_parse_witness :
  let b := Builder (Some [2; 1; 7]) 3 in
  exists b', asn1_prepend true ASN1_INTEGER [1; 0] b = (Ok tt, b') /\ asn1_integer (mem_of (built b')) (Cursor 0 (bld_len b')) = Ok 256 /\
  exists c, asn1_skip_if_exists (mem_of (built b')) (Cursor 0 (bld_len b')) ASN1_INTEGER = (Ok tt, c) /\ contents (mem_of (built b')) c = [2; 1; 7].
Proof.
  intros b. eexists. split; [reflexivity|]. split; [reflexivity|].
  destruct (asn1_build_parse (mem_of [2; 2; 1; 0; 2; 1; 7]) 0 true ASN1_INTEGER [1; 0] b (Builder (Some [2; 2; 1; 0; 2; 1; 7]) 7)) as [H _]; [by split|reflexivity|reflexivity|reflexivity|reflexivity|].
  destruct (H eq_refl) as (_ & _ & c & E1 & E2). exists c. split; [exact E1|exact E2].
Defined.

(** ** What the code does not do *)

(** 2^31 in five bytes is taken for -2^31. *)
Lemma asn1_integer_wraps : asn1_integer (mem_of [2; 5; 0; 128; 0; 0; 0]) (Cursor 0 7) = Ok (- 2 ^ 31).
Proof. reflexivity. Qed.

(** A failed allocation of an empty builder is forgotten: the next object is
    built without the first. *)
Lemma asn1_error_forgotten :
  let b := Builder None 0 in
  (asn1_prepend false ASN1_INTEGER [1] b).1 = Err ENOMEM /\ asn1_prepend true ASN1_INTEGER [2] (asn1_prepend false ASN1_INTEGER [1] b).2 = (Ok tt, Builder (Some [2; 1; 2]) 3).
Proof. by split. Qed.

(** An object that is too long moves the cursor that skips it. *)
Lemma asn1_skip_moves : asn1_skip_if_exists (mem_of [2; 9; 1]) (Cursor 0 3) ASN1_INTEGER = (Err EINVAL, Cursor 2 1).
Proof. reflexivity. Qed.
