(* ===== verification/Primes.v ===== *)
(** * Powers modulo a product of distinct primes

    The number theory of RSA: exponents whose product is 1 modulo every [p - 1]
    undo each other modulo the product of the primes [p] ([key_pair_primes]). *)

From Stdlib Require Import Zdivisibility Zmod.ZmodInv.
From S2P Require Import Prelude.

(** The product of a list. *)
Definition product (l : list Z) : Z := foldr Z.mul 1 l.

Lemma pow_minus_1_divide a n k : (n | a - 1) -> 0 <= k -> (n | a ^ k - 1).
Proof.
  intros Hn. revert k. apply natlike_ind; [exists 0; lia|]. intros k Hk IH. rewrite Z.pow_succ_r by done. replace (a * a ^ k - 1) with (a * (a ^ k - 1) + (a - 1)) by lia.
  apply Z.divide_add_r; [by apply Z.divide_mul_r|done].
Qed.

Lemma pow_prime p x n : Z.prime p -> 0 < n -> (p - 1 | n - 1) -> (p | x ^ n - x).
Proof.
  intros Hp Hn [k Hk]. pose proof (Z.prime_ge_2 _ Hp) as H2. assert (0 <= k) by nia. replace n with (1 + (p - 1) * k) by lia. rewrite Z.pow_add_r, Z.pow_mul_r, Z.pow_1_r by nia.
  replace (x * (x ^ (p - 1)) ^ k - x) with (x * ((x ^ (p - 1)) ^ k - 1)) by lia. destruct (decide (x `mod` p = 0)) as [Hx|Hx]; [apply Z.divide_mul_l, Z.mod_divide; [lia|done]|].
  apply Z.divide_mul_r, pow_minus_1_divide; [|done]. apply Z.mod_divide; [lia|]. rewrite Zminus_mod, ZmodInv.Z.fermat_nz by done. rewrite (Z.mod_small 1) by lia. done.
Qed.

Lemma product_divide primes n : Forall Z.prime primes -> NoDup primes -> Forall (fun p => (p | n)) primes -> (product primes | n).
Proof.
  revert n. induction primes as [|p primes IH]; intros n Hp Hd Hn; [exists n; change (product []) with 1; lia|].
  apply Forall_cons in Hp as [Hp1 Hp]. apply NoDup_cons in Hd as [Hd1 Hd]. apply Forall_cons in Hn as [[k ->] Hn]. change (product (?a :: ?l)) with (a * product l). rewrite (Z.mul_comm k) in *.
  apply Z.mul_divide_mono_l, IH; [done|done|]. apply Forall_forall. intros q Hq. rewrite Forall_forall in Hp, Hn. destruct (proj1 (Z.divide_prime_mul p k q (Hp q Hq)) (Hn q Hq)) as [H|]; [|done].
  apply Z.divide_prime_prime in H; [by subst|by apply Hp|done].
Qed.

(** [d] undoes [e] modulo [n]. *)
Definition key_pair (n e d : Z) : Prop := forall x, 0 <= x < n -> ((x ^ e) `mod` n) ^ d `mod` n = x.

Lemma key_pair_primes primes e d :
  Forall Z.prime primes -> NoDup primes -> 0 < e -> 0 < d -> Forall (fun p => (p - 1 | e * d - 1)) primes -> key_pair (product primes) e d.
Proof.
  intros Hp Hd He Hd' Hed x Hx. rewrite Z.mod_pow_l, <- Z.pow_mul_r by lia.
  assert (product primes | x ^ (e * d) - x) as [k Hk].
  { apply product_divide; [done|done|]. apply Forall_forall. intros p Hin. rewrite Forall_forall in Hp, Hed. apply pow_prime; [by apply Hp|nia|by apply Hed]. }
  replace (x ^ (e * d)) with (x + k * product primes) by lia. rewrite Z.mod_add by lia. by apply Z.mod_small.
Qed.

(** Primality of small numbers, by computation. *)
Definition is_prime (p : Z) : bool := bool_decide (1 < p) && forallb (fun k => bool_decide (p `mod` k <> 0)) (seqZ 2 (p - 2)).

Lemma is_prime_correct p : is_prime p = true -> Z.prime p.
Proof.
  unfold is_prime. intros [H1%bool_decide_eq_true H2]%andb_prop. split; [done|]. intros k Hk Hd. rewrite forallb_forall in H2.
  assert (k ∈ seqZ 2 (p - 2)) as Hin by (apply elem_of_seqZ; lia). apply list_elem_of_In, H2, bool_decide_eq_true in Hin. apply Hin, Z.mod_divide; [lia|done].
Qed.
