(* ===== verification/Rsa.v ===== *)
(** * RSA (crypto/rsa.c, crypto/random_nz.c)

    The padding, the cipher on big integers, and the keys.  A context is the
    record of the source with its arrays: the modulus and the exponent as
    elements, the input and output buffers, which double as temporary storage
    for encoded messages, as bytes.  [None] stands for a write outside a buffer.
    Decryption undoes encryption and signatures verify ([rsa_roundtrip]);
    verification succeeds for exactly one encoded message ([rsa_verify_correct]).
    A modulus shorter than eleven bytes makes the length of the padding wrap
    ([rsa_short_modulus]). *)

From S2P Require Import Prelude CMem Strings Time Asn1 BigInt Primes.

(** ** Data *)

Record digest_algorithm := Digest { digest_name : Z; digestsize : nat }.

Record rsa_digestinfo_prefix := Prefix { prefix_digest : Z; prefix_data : list Z }.

Record rsa_context := Context_ {
  rsa_dynamic : bool;
  rsa_modulus : list Z;
  rsa_size : nat;
  rsa_max_len : Z;
  rsa_exponent : list Z;
  rsa_input : list Z;
  rsa_output : list Z
}.

Definition rsa_empty : rsa_context := Context_ false [] 0 0 [] [] [].

(** The bytes of RSA_DIGESTINFO_PREFIX, for the size of a digest and the bytes
    of its identifier. *)
Definition RSA_DIGESTALGORITHM (oid : list Z) : list Z :=
  let contents := [ASN1_OID; Z.of_nat (length oid)] ++ oid ++ [5; 0] in [ASN1_SEQUENCE; Z.of_nat (length contents)] ++ contents.

Definition RSA_DIGESTINFO_PREFIX (digest_size : Z) (oid : list Z) : list Z :=
  [ASN1_SEQUENCE; Z.of_nat (length (RSA_DIGESTALGORITHM oid)) + 2 + digest_size] ++ RSA_DIGESTALGORITHM oid ++ [4; digest_size].

(** ** Storage *)

Definition rsa_free (c : rsa_context) : rsa_context :=
  Context_ false (rsa_modulus c) (rsa_size c) (rsa_max_len c) (rsa_exponent c) (rsa_input c) (rsa_output c).

(** The new arrays hold what the allocator left there; zero here, and not read
    before they are written. *)
Definition rsa_alloc (ok : bool) (modulus_len exponent_len : Z) (c : rsa_context) : result unit * rsa_context :=
  let size := Z.to_nat (bigint_required_size modulus_len) in
  let exponent_size := Z.to_nat (bigint_required_size exponent_len) in
  let c := rsa_free c in
  if ok then (Ok tt, Context_ true (replicate size 0) size modulus_len (replicate exponent_size 0) (replicate (4 * size) 0) (replicate (4 * size) 0))
  else (Err ENOMEM, c).

(** ** Keys *)

Section keys.
Context (m : mem).

Definition rsa_parse_integer (raw : asn1_cursor) : result asn1_cursor :=
  let integer := (asn1_enter m raw ASN1_INTEGER).2 in
  let integer := if decide (1 < cur_len integer /\ m (cur_data integer) = 0) then advance 1 integer else integer in
  if decide (cur_len integer = 0) then Err EINVAL else Ok integer.

Definition rsa_parse_mod_exp (raw : asn1_cursor) : result (asn1_cursor * asn1_cursor) :=
  let cursor := (asn1_enter m raw ASN1_SEQUENCE).2 in
  let is_private := bool_decide (asn1_type m cursor = ASN1_INTEGER) in
  let start :=
    if is_private then Ok (asn1_skip_any m cursor).2
    else
      let cursor := (asn1_skip m cursor ASN1_SEQUENCE).2 in
      match asn1_integral_bit_string m cursor with
      | Err rc => Err rc
      | Ok bits => Ok (asn1_enter m (Cursor (bits_data bits) (bits_len bits)) ASN1_SEQUENCE).2
      end in
  match start with
  | Err rc => Err rc
  | Ok cursor =>
    match rsa_parse_integer cursor with
    | Err rc => Err rc
    | Ok modulus =>
      let cursor := (asn1_skip_any m cursor).2 in
      let cursor := if is_private then (asn1_skip m cursor ASN1_INTEGER).2 else cursor in
      match rsa_parse_integer cursor with
      | Err rc => Err rc
      | Ok exponent => Ok (modulus, exponent)
      end
    end
  end.

Definition rsa_init (ok : bool) (key key_len : Z) : option (result unit * rsa_context) :=
  match rsa_parse_mod_exp (Cursor key key_len) with
  | Err rc => Some (Err rc, rsa_empty)
  | Ok (modulus, exponent) =>
    match rsa_alloc ok (cur_len modulus) (cur_len exponent) rsa_empty with
    | (Err rc, c) => Some (Err rc, c)
    | (Ok _, c) =>
      match bigint_init (rsa_size c) (contents m modulus), bigint_init (length (rsa_exponent c)) (contents m exponent) with
      | Some n, Some e => Some (Ok tt, Context_ (rsa_dynamic c) n (rsa_size c) (rsa_max_len c) e (rsa_input c) (rsa_output c))
      | _, _ => None
      end
    end
  end.

Definition rsa_match (private_key private_key_len public_key public_key_len : Z) : result unit :=
  match rsa_parse_mod_exp (Cursor private_key private_key_len) with
  | Err rc => Err rc
  | Ok (private_modulus, _) =>
    match rsa_parse_mod_exp (Cursor public_key public_key_len) with
    | Err rc => Err rc
    | Ok (public_modulus, _) => if decide (asn1_compare m private_modulus public_modulus <> 0) then Err ENOTTY else Ok tt
    end
  end.

End keys.

Definition rsa_final (c : rsa_context) : rsa_context := rsa_free c.

(** ** The cipher *)

(** [inp] holds at least [max_len] bytes; the result is what is written to the
    output.  The rounds are the bits of the exponent. *)
Definition rsa_cipher (c : rsa_context) (inp : list Z) : option (list Z * rsa_context) :=
  let max_len := Z.to_nat (rsa_max_len c) in
  match bigint_init (rsa_size c) (take max_len inp) with
  | None => None
  | Some input =>
    match bigint_mod_exp (32 * length (rsa_exponent c)) input (rsa_modulus c) (rsa_exponent c) with
    | None => None
    | Some output =>
      Some (bigint_done output max_len,
            Context_ (rsa_dynamic c) (rsa_modulus c) (rsa_size c) (rsa_max_len c) (rsa_exponent c) (to_bytes input) (to_bytes output))
    end
  end.

(** A write of [data] at [offset] of a buffer, whose bounds are those of the
    array. *)
Definition write (offset : Z) (data : list Z) (buffer : list Z) : option (list Z) :=
  if decide (0 <= offset /\ offset + Z.of_nat (length data) <= Z.of_nat (length buffer)) then Some (list_inserts (Z.to_nat offset) data buffer) else None.

Definition set_input (b : list Z) (c : rsa_context) : rsa_context :=
  Context_ (rsa_dynamic c) (rsa_modulus c) (rsa_size c) (rsa_max_len c) (rsa_exponent c) b (rsa_output c).
Definition set_output (b : list Z) (c : rsa_context) : rsa_context :=
  Context_ (rsa_dynamic c) (rsa_modulus c) (rsa_size c) (rsa_max_len c) (rsa_exponent c) (rsa_input c) b.

(** ** Encryption *)

(** [rbg] is what the random bit generator yields, byte by byte, until it fails
    with [rc]; the bytes that are stored are returned also on an error, with a
    zero that was not replaced. *)
Fixpoint get_random_nz (rbg : list Z) (rc : errno) (len : Z) : result unit * list Z :=
  if decide (len = 0) then (Ok tt, []) else
  match rbg with
  | [] => (Err rc, [])
  | b :: rbg =>
    if decide (b <> 0) then let '(r, l) := get_random_nz rbg rc (len - 1) in (r, b :: l)
    else let '(r, l) := get_random_nz rbg rc len in (r, if decide (l = []) then [0] else l)
  end.

Definition rsa_encrypt (rbg : list Z) (rc : errno) (c : rsa_context) (plaintext : list Z) : option (result (list Z) * rsa_context) :=
  let plaintext_len := Z.of_nat (length plaintext) in
  let max_len := u64 (rsa_max_len c - 11) in
  let random_nz_len := u64 (max_len - plaintext_len + 8) in
  if decide (max_len < plaintext_len) then Some (Err ERANGE, c) else
  encoded ← write 0 [0; 2] (rsa_output c);
  let '(r, random) := get_random_nz rbg rc random_nz_len in
  encoded ← write 2 random encoded;
  match r with
  | Err rc => Some (Err rc, set_output encoded c)
  | Ok _ =>
    encoded ← write (2 + random_nz_len) [0] encoded;
    encoded ← write (rsa_max_len c - plaintext_len) plaintext encoded;
    '(ciphertext, c) ← rsa_cipher (set_output encoded c) encoded;
    Some (Ok ciphertext, c)
  end.

(** The bytes behind the first zero. *)
Fixpoint after_zero (l : list Z) : option (list Z) :=
  match l with
  | [] => None
  | b :: l => if decide (b = 0) then Some l else after_zero l
  end.

Definition rsa_decrypt (c : rsa_context) (ciphertext : list Z) : option (result (list Z) * rsa_context) :=
  if decide (Z.of_nat (length ciphertext) <> rsa_max_len c) then Some (Err ERANGE, c) else
  '(out, c) ← rsa_cipher c ciphertext;
  encoded ← write 0 out (rsa_input c);
  let c := set_input encoded c in
  if decide (nth 0 encoded 0 <> 0 \/ nth 1 encoded 0 <> 2) then Some (Err EINVAL, c) else
  match after_zero (drop 2 (take (Z.to_nat (rsa_max_len c)) encoded)) with
  | None => Some (Err EINVAL, c)
  | Some plaintext => Some (Ok plaintext, c)
  end.

(** ** Signatures *)

Section signatures.
Context (prefixes : list rsa_digestinfo_prefix).

Definition rsa_find_prefix (digest : digest_algorithm) : option rsa_digestinfo_prefix :=
  List.find (fun p => bool_decide (prefix_digest p = digest_name digest)) prefixes.

(** [encoded] is the buffer that is written to; padding that is longer than the
    buffer leaves it. *)
Definition rsa_encode_digest (c : rsa_context) (digest : digest_algorithm) (value encoded : list Z) : option (result unit * list Z) :=
  match rsa_find_prefix digest with
  | None => Some (Err ENOTSUP, encoded)
  | Some prefix =>
    let prefix_len := Z.of_nat (length (prefix_data prefix)) in
    let digestinfo_len := prefix_len + Z.of_nat (digestsize digest) in
    let max_len := u64 (rsa_max_len c - 11) in
    if decide (max_len < digestinfo_len) then Some (Err ERANGE, encoded) else
    let pad_len := u64 (max_len - digestinfo_len + 8) in
    if decide (Z.of_nat (length encoded) < pad_len) then None else
    encoded ← write 0 [0; 1] encoded;
    encoded ← write 2 (replicate (Z.to_nat pad_len) 255) encoded;
    encoded ← write (2 + pad_len) [0] encoded;
    encoded ← write (3 + pad_len) (prefix_data prefix) encoded;
    encoded ← write (3 + pad_len + prefix_len) (take (digestsize digest) value) encoded;
    Some (Ok tt, encoded)
  end.

Definition rsa_sign (c : rsa_context) (digest : digest_algorithm) (value : list Z) : option (result (list Z) * rsa_context) :=
  '(r, temp) ← rsa_encode_digest c digest value (rsa_output c);
  let c := set_output temp c in
  match r with
  | Err rc => Some (Err rc, c)
  | Ok _ => '(signature, c) ← rsa_cipher c temp; Some (Ok signature, c)
  end.

Definition rsa_verify (c : rsa_context) (digest : digest_algorithm) (value signature : list Z) : option (result unit * rsa_context) :=
  if decide (Z.of_nat (length signature) <> rsa_max_len c) then Some (Err ERANGE, c) else
  '(out, c) ← rsa_cipher c signature;
  expected ← write 0 out (rsa_input c);
  let c := set_input expected c in
  '(r, actual) ← rsa_encode_digest c digest value (rsa_output c);
  let c := set_output actual c in
  match r with
  | Err rc => Some (Err rc, c)
  | Ok _ =>
    let max_len := Z.to_nat (rsa_max_len c) in
    Some (if decide (memcmp_bytes (take max_len actual) (take max_len expected) <> 0) then Err EACCES else Ok tt, c)
  end.

End signatures.

(** ** Buffers *)

Lemma write_next offset data buffer :
  0 <= offset -> offset + Z.of_nat (length data) <= Z.of_nat (length buffer) ->
  exists buffer', write offset data buffer = Some buffer' /\ length buffer' = length buffer /\
    take (Z.to_nat offset + length data) buffer' = take (Z.to_nat offset) buffer ++ data /\ (bytes buffer -> bytes data -> bytes buffer').
Proof.
  intros H0 Hl. unfold write. rewrite decide_True by done. set (k := Z.to_nat offset). assert (k + length data <= length buffer)%nat as Hk by lia.
  assert (list_inserts k data buffer = take k buffer ++ data ++ drop (k + length data) buffer) as ->.
  { rewrite <- (take_drop k buffer) at 1. rewrite <- (take_drop (length data) (drop k buffer)), drop_drop. replace k with (length (take k buffer) + 0)%nat at 1 by (rewrite length_take; lia).
    rewrite list_inserts_app_r, list_inserts_0_r; [done|]. rewrite length_take, length_drop. lia. }
  eexists. split; [done|]. split_and!.
  - rewrite !length_app, length_take, length_drop. lia.
  - rewrite app_assoc. apply take_app_length'. rewrite length_app, length_take. lia.
  - intros Hb Hd. rewrite !Forall_app. split_and!; [by apply Forall_take|done|by apply Forall_drop].
Qed.

(** A further write behind [k] bytes that are known. *)
Lemma write_append offset data buffer l :
  0 <= offset -> take (Z.to_nat offset) buffer = l -> length l = Z.to_nat offset -> offset + Z.of_nat (length data) <= Z.of_nat (length buffer) ->
  exists buffer', write offset data buffer = Some buffer' /\ length buffer' = length buffer /\ take (length (l ++ data)) buffer' = l ++ data /\ (bytes buffer -> bytes data -> bytes buffer').
Proof.
  intros H0 Ht Hl Hf. destruct (write_next offset data buffer H0 Hf) as (b' & E1 & E2 & E3 & E4). exists b'. split_and!; [done|done| |done]. by rewrite length_app, Hl, E3, Ht.
Qed.

Lemma le_value_inj l1 l2 : bytes l1 -> bytes l2 -> length l1 = length l2 -> le_value l1 = le_value l2 -> l1 = l2.
Proof.
  revert l2. induction l1 as [|b1 l1 IH]; intros [|b2 l2] H1 H2 Hl Hv; [done|done|done|]. apply Forall_cons in H1 as [B1 H1]. apply Forall_cons in H2 as [B2 H2]. unfold in_width in B1, B2. cbn [le_value length] in *.
  change (2 ^ 8) with 256 in *. assert (b1 = b2) as -> by lia. f_equal. apply IH; [done|done|lia|lia].
Qed.

Lemma be_value_inj l1 l2 : bytes l1 -> bytes l2 -> length l1 = length l2 -> be_value l1 = be_value l2 -> l1 = l2.
Proof.
  intros H1 H2 Hl Hv. rewrite <- (rev_involutive l1), <- (rev_involutive l2). f_equal. apply le_value_inj; [by apply bytes_rev|by apply bytes_rev|by rewrite !length_rev|done].
Qed.

Lemma be_value_bound l : bytes l -> 0 <= be_value l < 256 ^ Z.of_nat (length l).
Proof. intros Hl. rewrite <- length_rev. by apply le_value_bound, bytes_rev. Qed.

(** A leading zero. *)
Lemma be_value_zero l : bytes l -> be_value (0 :: l) < 256 ^ Z.of_nat (length l).
Proof. intros Hl. unfold be_value. cbn [rev]. rewrite le_value_app. cbn [le_value]. pose proof (be_value_bound l Hl). unfold be_value in *. lia. Qed.

Lemma memcmp_bytes_eq l1 l2 : length l1 = length l2 -> memcmp_bytes l1 l2 = 0 <-> l1 = l2.
Proof.
  revert l2. induction l1 as [|b1 l1 IH]; intros [|b2 l2] Hl; [done|done|done|]. cbn [memcmp_bytes length] in *. case_decide as Hd.
  - split; [done|]. intros [= -> ->]. lia.
  - rewrite IH by lia. split; [intros ->; f_equal; lia|by intros [= -> ->]].
Qed.

(** ** Contexts *)

Record ctx_ok (c : rsa_context) : Prop := {
  ctx_modulus : words (rsa_modulus c) /\ length (rsa_modulus c) = rsa_size c;
  ctx_exponent : words (rsa_exponent c);
  ctx_len : 1 <= rsa_max_len c <= 4 * Z.of_nat (rsa_size c) /\ rsa_max_len c < 2 ^ 62;
  ctx_fits : bval (rsa_modulus c) < 256 ^ rsa_max_len c;
  ctx_input : bytes (rsa_input c) /\ length (rsa_input c) = (4 * rsa_size c)%nat;
  ctx_output : bytes (rsa_output c) /\ length (rsa_output c) = (4 * rsa_size c)%nat
}.

Definition same_key (c c' : rsa_context) : Prop :=
  rsa_modulus c' = rsa_modulus c /\ rsa_size c' = rsa_size c /\ rsa_max_len c' = rsa_max_len c /\ rsa_exponent c' = rsa_exponent c.

Lemma set_output_ok b c : ctx_ok c -> bytes b -> length b = (4 * rsa_size c)%nat -> ctx_ok (set_output b c).
Proof. intros [] Hb Hl. by constructor. Qed.

Lemma set_input_ok b c : ctx_ok c -> bytes b -> length b = (4 * rsa_size c)%nat -> ctx_ok (set_input b c).
Proof. intros [] Hb Hl. by constructor. Qed.

(** The value of the cipher. *)
Definition rsa_power (c : rsa_context) (x : Z) : Z := (x ^ bval (rsa_exponent c)) `mod` bval (rsa_modulus c).

Lemma rsa_cipher_value c inp :
  ctx_ok c -> 1 < bval (rsa_modulus c) -> bytes inp -> rsa_max_len c <= Z.of_nat (length inp) ->
  exists out c', rsa_cipher c inp = Some (out, c') /\ bytes out /\ Z.of_nat (length out) = rsa_max_len c /\
    be_value out = rsa_power c (be_value (take (Z.to_nat (rsa_max_len c)) inp)) /\ same_key c c' /\ ctx_ok c'.
Proof.
  intros [[Wm Lm] We Hlen Hfit _ _] Hn Hb Hl. unfold rsa_cipher. set (k := Z.to_nat (rsa_max_len c)). assert (length (take k inp) = k) as Hk by (rewrite length_take; lia).
  destruct (bigint_init_value (rsa_size c) (take k inp)) as (i & -> & W1 & L1 & V1); [by apply Forall_take|intros E; rewrite E in Hk; cbn in Hk; lia|lia|].
  destruct (bigint_mod_exp_value (32 * length (rsa_exponent c)) i (rsa_modulus c) (rsa_exponent c)) as (r & -> & W2 & L2 & V2); [done|done|done|congruence|done|lia|].
  pose proof (Z.mod_pos_bound (bval i ^ bval (rsa_exponent c)) (bval (rsa_modulus c)) ltac:(lia)) as Hmod. rewrite <- V2 in Hmod.
  destruct (bigint_done_value r k) as (B3 & L3 & V3); [done|lia|unfold k; rewrite Z2Nat.id by lia; lia|].
  destruct (to_bytes_value i W1) as (B4 & L4 & _). destruct (to_bytes_value r W2) as (B5 & L5 & _). eexists _, _. split; [done|].
  split_and!; [done|lia|by rewrite V3, V2, V1|done|]. constructor; [done|done|done|done|split; [done|exact (eq_trans L4 (f_equal _ L1))]|split; [done|]]. exact (eq_trans L5 (f_equal _ (eq_trans L2 Lm))).
Qed.

(** ** Encoded messages *)

Lemma get_random_nz_value rbg rc len r l :
  0 <= len -> bytes rbg -> get_random_nz rbg rc len = (r, l) ->
  bytes l /\ Z.of_nat (length l) <= len /\ (r = Ok tt -> Z.of_nat (length l) = len /\ Forall (fun b => b <> 0) l).
Proof.
  revert len r l. induction rbg as [|b rbg IH]; intros len r l Hlen Hb; cbn [get_random_nz]; case_decide as H0; intros E; simplify_eq.
  1-3: split_and!; [by apply Forall_nil_2|cbn; lia|]; intros ?; (done || (split; [done|by apply Forall_nil_2])).
  apply Forall_cons in Hb as [Hb1 Hb]. case_decide.
  - destruct (get_random_nz rbg rc (len - 1)) as [r' l'] eqn:E'. destruct (IH (len - 1) r' l' ltac:(lia) Hb E') as (I1 & I2 & I3). simplify_eq. cbn [length].
    split_and!; [by apply Forall_cons_2|lia|]. intros Hr. destruct (I3 Hr). split; [lia|by apply Forall_cons_2].
  - destruct (get_random_nz rbg rc len) as [r' l'] eqn:E'. destruct (IH _ _ _ Hlen Hb E') as (I1 & I2 & I3). simplify_eq. case_decide; [|done]. subst l'. cbn [length] in *.
    split_and!; [by apply Forall_cons_2|lia|]. intros Hr. destruct (I3 Hr). lia.
Qed.

(** The generator yields enough bytes that are not zero. *)
Lemma get_random_nz_ok rbg rc len : 0 <= len <= Z.of_nat (length (filter (fun b => b <> 0) rbg)) -> (get_random_nz rbg rc len).1 = Ok tt.
Proof.
  revert len. induction rbg as [|b rbg IH]; intros len Hl; cbn [get_random_nz]; (case_decide; [done|]).
  - cbn in Hl. lia.
  - rewrite filter_cons in Hl. case_decide as Hb.
    + specialize (IH (len - 1)). destruct (get_random_nz rbg rc (len - 1)). apply IH. cbn [length] in Hl. lia.
    + specialize (IH len). destruct (get_random_nz rbg rc len). by apply IH.
Qed.

Lemma after_zero_app l r : Forall (fun b => b <> 0) l -> after_zero (l ++ 0 :: r) = Some r.
Proof. induction 1 as [|b l Hb Hl IH]; cbn [app after_zero]; [done|]. by rewrite decide_False. Qed.

Lemma rsa_max_small c : ctx_ok c -> 11 <= rsa_max_len c -> u64 (rsa_max_len c - 11) = rsa_max_len c - 11.
Proof. intros [_ _ Hlen _ _ _] H11. apply wrap_small. unfold in_width. lia. Qed.

(** A whole encoded message. *)
Lemma take_encoded c (buffer l : list Z) : Z.of_nat (length l) = rsa_max_len c -> take (length l) buffer = l -> take (Z.to_nat (rsa_max_len c)) buffer = l.
Proof. intros <- H. by rewrite Nat2Z.id. Qed.

Lemma rsa_encrypt_value rbg rc c plaintext :
  ctx_ok c -> 1 < bval (rsa_modulus c) -> bytes rbg -> bytes plaintext -> Z.of_nat (length plaintext) + 11 <= rsa_max_len c ->
  rsa_max_len c - Z.of_nat (length plaintext) - 3 <= Z.of_nat (length (filter (fun b => b <> 0) rbg)) ->
  exists random ciphertext c', rsa_encrypt rbg rc c plaintext = Some (Ok ciphertext, c') /\ Forall (fun b => b <> 0) random /\ bytes random /\
    Z.of_nat (length ([0; 2] ++ random ++ [0] ++ plaintext)) = rsa_max_len c /\ bytes ciphertext /\ Z.of_nat (length ciphertext) = rsa_max_len c /\
    be_value ciphertext = rsa_power c (be_value ([0; 2] ++ random ++ [0] ++ plaintext)) /\ same_key c c' /\ ctx_ok c'.
Proof.
  intros Hc Hn Hr Hp Hl Hf. pose proof (ctx_len c Hc) as Hlen. destruct (ctx_output c Hc) as [Bo Lo]. unfold rsa_encrypt. rewrite rsa_max_small by (done || lia). rewrite (wrap_small 64) by (unfold in_width; lia).
  rewrite decide_False by lia. set (k := rsa_max_len c - 11 - Z.of_nat (length plaintext) + 8).
  destruct (write_append 0 [0; 2] (rsa_output c) []) as (b1 & -> & L1 & T1 & B1); [lia|done|done|cbn [length]; lia|]. cbn [mbind option_bind].
  pose proof (get_random_nz_ok rbg rc k ltac:(lia)) as Hok. destruct (get_random_nz rbg rc k) as [r random] eqn:E. cbn [fst] in Hok. subst r.
  destruct (get_random_nz_value rbg rc k (Ok tt) random ltac:(lia) Hr E) as (R1 & _ & R3). destruct (R3 eq_refl) as [R4 R5]. clear R3.
  destruct (write_append 2 random b1 ([] ++ [0; 2])) as (b2 & -> & L2 & T2 & B2); [lia|done|done|lia|]. cbn [mbind option_bind].
  destruct (write_append (2 + k) [0] b2 (([] ++ [0; 2]) ++ random)) as (b3 & -> & L3 & T3 & B3); [lia| |rewrite length_app; cbn [app length]; lia|cbn [length]; lia|].
  { rewrite <- T2. f_equal. rewrite length_app. cbn [app length]. lia. }
  cbn [mbind option_bind]. destruct (write_append (rsa_max_len c - Z.of_nat (length plaintext)) plaintext b3 ((([] ++ [0; 2]) ++ random) ++ [0])) as (b4 & -> & L4 & T4 & B4).
  { lia. } { rewrite <- T3. f_equal. rewrite !length_app. cbn [app length]. lia. } { rewrite !length_app. cbn [app length]. lia. } { lia. }
  cbn [mbind option_bind]. rewrite <- !app_assoc in T4. change ([] ++ ?l) with l in T4. set (em := [0; 2] ++ random ++ [0] ++ plaintext) in *.
  assert (Z.of_nat (length em) = rsa_max_len c) as Lem by (unfold em; rewrite !length_app; cbn [length]; lia).
  assert (bytes b4) as Bb4 by (apply B4; [apply B3; [apply B2; [apply B1; [done|by repeat apply Forall_cons_2]|done]|by repeat apply Forall_cons_2]|done]).
  assert (ctx_ok (set_output b4 c)) as Hc4 by (apply set_output_ok; [done|done|congruence]).
  destruct (rsa_cipher_value (set_output b4 c) b4 Hc4 Hn Bb4) as (out & c' & -> & O1 & O2 & O3 & O4 & O5); [cbn; lia|]. cbn [mbind option_bind].
  exists random, out, c'. split_and!; [done|done|done|done|done|done| |done|done]. rewrite O3. rewrite (take_encoded (set_output b4 c) b4 em) by done. done.
Qed.

(** What a cipher operation leaves in front of the input buffer. *)
Lemma rsa_decipher c inp :
  ctx_ok c -> 1 < bval (rsa_modulus c) -> bytes inp -> Z.of_nat (length inp) = rsa_max_len c ->
  exists out c' b, rsa_cipher c inp = Some (out, c') /\ write 0 out (rsa_input c') = Some b /\ bytes out /\ Z.of_nat (length out) = rsa_max_len c /\
    take (Z.to_nat (rsa_max_len c)) b = out /\ be_value out = rsa_power c (be_value inp) /\ same_key c c' /\ ctx_ok (set_input b c').
Proof.
  intros Hc Hn Hb Hl. destruct (rsa_cipher_value c inp Hc Hn Hb) as (out & c' & E & O1 & O2 & O3 & O4 & O5); [lia|]. destruct O4 as (K1 & K2 & K3 & K4). destruct (ctx_input c' O5) as [Bi Li]. pose proof (ctx_len c' O5) as Hlen.
  destruct (write_append 0 out (rsa_input c') []) as (b & W & L & T & B); [lia|done|done|lia|]. rewrite (take_ge inp) in O3 by lia.
  exists out, c', b. split_and!; [done|done|done|done|by apply take_encoded|done|done|apply set_input_ok; [done|by apply B|congruence]].
Qed.

Section theorems.
Context (prefixes : list rsa_digestinfo_prefix).

(** The message that is signed for a digest. *)
Definition digest_info (prefix : rsa_digestinfo_prefix) (digest : digest_algorithm) (value : list Z) : list Z := prefix_data prefix ++ take (digestsize digest) value.

Definition encoded_digest (max_len : Z) (info : list Z) : list Z := [0; 1] ++ replicate (Z.to_nat (max_len - 3 - Z.of_nat (length info))) 255 ++ [0] ++ info.

Lemma encoded_digest_length max_len info : Z.of_nat (length info) + 11 <= max_len -> Z.of_nat (length (encoded_digest max_len info)) = max_len.
Proof. intros Hl. unfold encoded_digest. rewrite !length_app, length_replicate. cbn [length]. lia. Qed.

Lemma encoded_digest_bytes max_len info : bytes info -> bytes (encoded_digest max_len info).
Proof. intros Hi. unfold encoded_digest. rewrite !Forall_app. split_and!; [by repeat apply Forall_cons_2|by apply Forall_replicate|by repeat apply Forall_cons_2|done]. Qed.

(** What encoding a digest yields: the error, or the message in front of the
    buffer. *)
Lemma rsa_encode_digest_value c digest value buffer :
  ctx_ok c -> 11 <= rsa_max_len c -> length buffer = (4 * rsa_size c)%nat -> bytes buffer -> bytes value -> (digestsize digest <= length value)%nat -> Forall (fun p => bytes (prefix_data p)) prefixes ->
  exists r buffer', rsa_encode_digest prefixes c digest value buffer = Some (r, buffer') /\ length buffer' = length buffer /\ bytes buffer' /\
    match rsa_find_prefix prefixes digest with
    | None => r = Err ENOTSUP
    | Some prefix =>
      let info := digest_info prefix digest value in
      bytes info /\ if decide (rsa_max_len c - 11 < Z.of_nat (length info)) then r = Err ERANGE
      else r = Ok tt /\ take (Z.to_nat (rsa_max_len c)) buffer' = encoded_digest (rsa_max_len c) info
    end.
Proof.
  intros Hc H11 Lb Bb Bv Hv Hpre. pose proof (ctx_len c Hc) as Hlen. unfold rsa_encode_digest. destruct (rsa_find_prefix prefixes digest) as [prefix|] eqn:Hfind; [|by eexists _, _].
  assert (bytes (prefix_data prefix)) as Bp by (apply find_some in Hfind as [Hin _]; rewrite Forall_forall in Hpre; by apply Hpre, list_elem_of_In).
  assert (length (take (digestsize digest) value) = digestsize digest) as Lt by (rewrite length_take; lia). assert (bytes (take (digestsize digest) value)) as Bt by by apply Forall_take.
  assert (bytes (digest_info prefix digest value)) as Bi by (by apply Forall_app). rewrite rsa_max_small by done. cbv zeta.
  assert (Z.of_nat (length (prefix_data prefix)) + Z.of_nat (digestsize digest) = Z.of_nat (length (digest_info prefix digest value))) as -> by (unfold digest_info; rewrite length_app; lia).
  case_decide as Hr; [by eexists _, _|]. set (info := digest_info prefix digest value) in *. rewrite (wrap_small 64) by (unfold in_width; lia).
  set (k := rsa_max_len c - 11 - Z.of_nat (length info) + 8). rewrite decide_False by lia. assert (length (prefix_data prefix) <= length info)%nat as Lp by (unfold info, digest_info; rewrite length_app; lia).
  assert (length info = length (prefix_data prefix) + digestsize digest)%nat as Li by (unfold info, digest_info; rewrite length_app; lia).
  destruct (write_append 0 [0; 1] buffer []) as (b1 & -> & L1 & T1 & B1); [lia|done|done|cbn [length]; lia|]. cbn [mbind option_bind].
  destruct (write_append 2 (replicate (Z.to_nat k) 255) b1 ([] ++ [0; 1])) as (b2 & -> & L2 & T2 & B2); [lia|done|done|rewrite length_replicate; lia|]. cbn [mbind option_bind].
  destruct (write_append (2 + k) [0] b2 (([] ++ [0; 1]) ++ replicate (Z.to_nat k) 255)) as (b3 & -> & L3 & T3 & B3); [lia| |rewrite length_app, length_replicate; cbn [app length]; lia|cbn [length]; lia|].
  { rewrite <- T2. f_equal. rewrite length_app, length_replicate. cbn [app length]. lia. }
  cbn [mbind option_bind]. destruct (write_append (3 + k) (prefix_data prefix) b3 ((([] ++ [0; 1]) ++ replicate (Z.to_nat k) 255) ++ [0])) as (b4 & -> & L4 & T4 & B4).
  { lia. } { rewrite <- T3. f_equal. rewrite !length_app, length_replicate. cbn [app length]. lia. } { rewrite !length_app, length_replicate. cbn [app length]. lia. } { lia. }
  cbn [mbind option_bind]. destruct (write_append (3 + k + Z.of_nat (length (prefix_data prefix))) (take (digestsize digest) value) b4 (((([] ++ [0; 1]) ++ replicate (Z.to_nat k) 255) ++ [0]) ++ prefix_data prefix)) as (b5 & -> & L5 & T5 & B5).
  { lia. } { rewrite <- T4. f_equal. rewrite !length_app, length_replicate. cbn [app length]. lia. } { rewrite !length_app, length_replicate. cbn [app length]. lia. } { lia. }
  eexists _, b5. split; [done|]. split_and!; [congruence| |done|done|].
  - apply B5; [|done]. apply B4; [|done]. apply B3; [|by repeat apply Forall_cons_2]. apply B2; [|by apply Forall_replicate]. apply B1; [done|by repeat apply Forall_cons_2].
  - rewrite <- !app_assoc in T5. change ([] ++ ?l) with l in T5. fold (digest_info prefix digest value) in T5. fold info in T5.
    replace k with (rsa_max_len c - 3 - Z.of_nat (length info)) in T5 by lia. fold (encoded_digest (rsa_max_len c) info) in T5. apply take_encoded; [apply encoded_digest_length; lia|done].
Qed.

(** What verification answers. *)
Definition verify_answer (c : rsa_context) (digest : digest_algorithm) (value signature : list Z) : result unit :=
  if decide (Z.of_nat (length signature) <> rsa_max_len c) then Err ERANGE else
  match rsa_find_prefix prefixes digest with
  | None => Err ENOTSUP
  | Some prefix =>
    let info := digest_info prefix digest value in
    if decide (rsa_max_len c - 11 < Z.of_nat (length info)) then Err ERANGE else
    if decide (rsa_power c (be_value signature) = be_value (encoded_digest (rsa_max_len c) info)) then Ok tt else Err EACCES
  end.

Lemma rsa_verify_value c digest value signature :
  ctx_ok c -> 1 < bval (rsa_modulus c) -> 11 <= rsa_max_len c -> bytes signature -> bytes value -> (digestsize digest <= length value)%nat -> Forall (fun p => bytes (prefix_data p)) prefixes ->
  exists c', rsa_verify prefixes c digest value signature = Some (verify_answer c digest value signature, c') /\ same_key c c' /\ ctx_ok c'.
Proof.
  intros Hc Hn H11 Bs Bv Hv Hpre. unfold rsa_verify, verify_answer. case_decide as Hs; [by eexists|].
  destruct (rsa_decipher c signature Hc Hn Bs) as (out & c1 & b & -> & Hw & O1 & O2 & O3 & O4 & K & Hc1); [lia|]. cbn [mbind option_bind]. rewrite Hw. cbn [mbind option_bind].
  destruct K as (K1 & K2 & K3 & K4). destruct (ctx_output _ Hc1) as [Bo Lo]. pose proof (ctx_len c Hc) as Hlen.
  destruct (rsa_encode_digest_value (set_input b c1) digest value (rsa_output (set_input b c1))) as (r & b2 & -> & L2 & B2 & Hr); [done|cbn; lia|done|done|done|done|done|]. cbn [mbind option_bind].
  assert (ctx_ok (set_output b2 (set_input b c1))) as Hc2 by (apply set_output_ok; [done|done|congruence]). change (rsa_max_len (set_input b c1)) with (rsa_max_len c1) in *. rewrite K3 in Hr.
  destruct (rsa_find_prefix prefixes digest) as [prefix|]; [|subst r; by eexists]. destruct Hr as [Bi Hr]. set (info := digest_info prefix digest value) in *.
  case_decide as Hlong; [subst r; by eexists|]. destruct Hr as [-> T2]. change (rsa_max_len (set_output _ _)) with (rsa_max_len c1). rewrite K3, T2, O3, <- O4.
  exists (set_output b2 (set_input b c1)). split; [|done]. f_equal. f_equal. pose proof (encoded_digest_length (rsa_max_len c) info ltac:(lia)) as Le.
  destruct (decide (be_value out = _)) as [Ev|Ev].
  - rewrite decide_False; [done|]. intros Hne. apply Hne, memcmp_bytes_eq; [lia|]. symmetry. apply be_value_inj; [done|by apply encoded_digest_bytes|lia|done].
  - rewrite decide_True; [done|]. intros Heq. apply memcmp_bytes_eq in Heq; [|lia]. by rewrite <- Heq in Ev.
Qed.

Lemma rsa_sign_value c digest value prefix :
  ctx_ok c -> 1 < bval (rsa_modulus c) -> bytes value -> (digestsize digest <= length value)%nat -> Forall (fun p => bytes (prefix_data p)) prefixes ->
  rsa_find_prefix prefixes digest = Some prefix -> let info := digest_info prefix digest value in Z.of_nat (length info) + 11 <= rsa_max_len c ->
  exists signature c', rsa_sign prefixes c digest value = Some (Ok signature, c') /\ bytes signature /\ bytes info /\ Z.of_nat (length signature) = rsa_max_len c /\
    be_value signature = rsa_power c (be_value (encoded_digest (rsa_max_len c) info)).
Proof.
  intros Hc Hn Bv Hv Hpre Hfind info Hl. unfold rsa_sign. destruct (ctx_output c Hc) as [Bo Lo]. pose proof (ctx_len c Hc) as Hlen.
  destruct (rsa_encode_digest_value c digest value (rsa_output c)) as (r & b & -> & L & B & Hr); [done|lia|done|done|done|done|done|]. rewrite Hfind in Hr. fold info in Hr. destruct Hr as [Bi Hr].
  rewrite decide_False in Hr by lia. destruct Hr as [-> T]. cbn [mbind option_bind]. assert (ctx_ok (set_output b c)) as Hc2 by (apply set_output_ok; [done|done|congruence]).
  destruct (rsa_cipher_value (set_output b c) b Hc2 Hn B) as (out & c' & -> & O1 & O2 & O3 & _); [cbn; lia|]. cbn [mbind option_bind].
  eexists _, _. split; [done|]. split_and!; [done|done|done|]. rewrite O3. change (rsa_max_len (set_output b c)) with (rsa_max_len c). by rewrite T.
Qed.

Lemma key_pair_sym n e d : 0 <= e -> 0 <= d -> key_pair n e d -> key_pair n d e.
Proof. intros He Hd Hk x Hx. rewrite <- (Hk x Hx) at 2. by rewrite !Z.mod_pow_l, <- !Z.pow_mul_r, Z.mul_comm by done. Qed.

Lemma words_nonneg l : words l -> 0 <= bval l.
Proof. intros Hl. apply (bval_bound l Hl). Qed.

(** Two contexts for the keys of a pair. *)
Record key_contexts (public private : rsa_context) : Prop := {
  pair_public : ctx_ok public;
  pair_private : ctx_ok private;
  pair_modulus : bval (rsa_modulus private) = bval (rsa_modulus public);
  pair_len : rsa_max_len private = rsa_max_len public;
  pair_full : 256 ^ (rsa_max_len public - 1) <= bval (rsa_modulus public);
  pair_keys : key_pair (bval (rsa_modulus public)) (bval (rsa_exponent public)) (bval (rsa_exponent private))
}.

(** Messages start with a zero, so they are below the modulus. *)
Lemma message_below public private l :
  key_contexts public private -> bytes l -> Z.of_nat (length (0 :: l)) = rsa_max_len public -> 0 <= be_value (0 :: l) < bval (rsa_modulus public).
Proof.
  intros K Hl Hlen. split; [apply be_value_bound; by apply Forall_cons_2|]. eapply Z.lt_le_trans; [by apply be_value_zero|]. etransitivity; [|exact (pair_full _ _ K)]. rewrite <- Hlen. cbn [length].
  apply Z.pow_le_mono_r; lia.
Qed.

Lemma modulus_above public private : key_contexts public private -> 11 <= rsa_max_len public -> 1 < bval (rsa_modulus public).
Proof. intros K H11. eapply Z.lt_le_trans; [|exact (pair_full _ _ K)]. apply Z.pow_gt_1; lia. Qed.

(** C8: with the two keys of a pair, a message that leaves eleven bytes of
    padding is encrypted to as many bytes as the modulus has, and decryption
    recovers it; and a digest that is signed with one key is accepted with the
    other. *)
Theorem rsa_roundtrip public private rbg rc plaintext digest value prefix :
  key_contexts public private -> bytes rbg -> bytes plaintext -> Z.of_nat (length plaintext) + 11 <= rsa_max_len public ->
  rsa_max_len public - Z.of_nat (length plaintext) - 3 <= Z.of_nat (length (filter (fun b => b <> 0) rbg)) ->
  bytes value -> (digestsize digest <= length value)%nat -> Forall (fun p => bytes (prefix_data p)) prefixes ->
  rsa_find_prefix prefixes digest = Some prefix -> Z.of_nat (length (digest_info prefix digest value)) + 11 <= rsa_max_len public ->
  (exists ciphertext c c', rsa_encrypt rbg rc public plaintext = Some (Ok ciphertext, c) /\ Z.of_nat (length ciphertext) = rsa_max_len public /\
     rsa_decrypt private ciphertext = Some (Ok plaintext, c')) /\
  (exists signature c c', rsa_sign prefixes private digest value = Some (Ok signature, c) /\ Z.of_nat (length signature) = rsa_max_len public /\
     rsa_verify prefixes public digest value signature = Some (Ok tt, c')).
Proof.
  intros K Br Bp Hp Hrnd Bv Hv Hpre Hfind Hinfo. pose proof (modulus_above _ _ K ltac:(lia)) as Hn. destruct K as [Kpub Kpriv Km Kl Kf Kk] eqn:EK. clear EK. split.
  - destruct (rsa_encrypt_value rbg rc public plaintext Kpub Hn Br Bp Hp Hrnd) as (random & ct & c & E & R1 & R2 & R3 & C1 & C2 & C3 & _). exists ct, c. set (em := [0; 2] ++ random ++ [0] ++ plaintext) in *.
    assert (bytes em) as Bem by (unfold em; rewrite !Forall_app; split_and!; [by repeat apply Forall_cons_2|done|by repeat apply Forall_cons_2|done]).
    destruct (rsa_decipher private ct Kpriv ltac:(lia) C1 ltac:(lia)) as (out & c1 & b & E1 & E2 & O1 & O2 & O3 & O4 & S & _). destruct S as (_ & _ & S3 & _).
    assert (out = em) as Eout.
    { apply be_value_inj; [done|done|lia|]. rewrite O4, C3. unfold rsa_power. rewrite Km. apply Kk. apply (message_below public private); [by constructor| |done]. by apply Forall_cons in Bem as [_ ?]. }
    rewrite Eout in O3, E2, E1.
    assert (exists b', b = em ++ b') as [b' ->] by (exists (drop (Z.to_nat (rsa_max_len private)) b); rewrite <- O3 at 1; by rewrite take_drop).
    eexists. split_and!; [done|done|]. unfold rsa_decrypt. rewrite decide_False by lia. rewrite E1. cbn [mbind option_bind]. rewrite E2. cbn [mbind option_bind].
    rewrite decide_False by (unfold em; cbn; lia). change (rsa_max_len (set_input _ _)) with (rsa_max_len c1). rewrite S3, O3. change (drop 2 em) with (random ++ 0 :: plaintext). rewrite after_zero_app by done. done.
  - destruct (rsa_sign_value private digest value prefix Kpriv ltac:(lia) Bv Hv Hpre Hfind ltac:(lia)) as (sg & c & E & B1 & Bi & L1 & V1). exists sg, c.
    destruct (rsa_verify_value public digest value sg Kpub Hn ltac:(lia) B1 Bv Hv Hpre) as (c' & E' & _). exists c'. split_and!; [done|lia|]. rewrite E'. f_equal. f_equal. unfold verify_answer.
    rewrite decide_False by lia. rewrite Hfind. rewrite decide_False by lia. apply decide_True. rewrite V1, Kl. unfold rsa_power. rewrite Km.
    apply (key_pair_sym _ _ _ (words_nonneg _ (ctx_exponent _ Kpub)) (words_nonneg _ (ctx_exponent _ Kpriv)) Kk). pose proof (encoded_digest_bytes (rsa_max_len public) _ Bi) as Be. unfold encoded_digest in *. cbn [app] in *.
    apply (message_below public private); [by constructor|by apply Forall_cons in Be as [_ ?]|]. by apply encoded_digest_length.
Qed.

(** C9: with a modulus of at least eleven bytes that is greater than one,
    verification always answers, and accepts exactly the signatures of the
    length of the modulus whose power is the encoding of the digest; the other
    answers tell an unknown digest, a modulus that is too short for it, and a
    wrong length or signature. *)
Theorem rsa_verify_correct c digest value signature :
  ctx_ok c -> 1 < bval (rsa_modulus c) -> 11 <= rsa_max_len c -> bytes signature -> bytes value -> (digestsize digest <= length value)%nat -> Forall (fun p => bytes (prefix_data p)) prefixes ->
  exists c', rsa_verify prefixes c digest value signature = Some (verify_answer c digest value signature, c') /\ same_key c c' /\ ctx_ok c'.
Proof. apply rsa_verify_value. Qed.

End theorems.

(** ** Keys *)

Section key_parsing.
Context (m : mem) (Hm : mem_ok m).

(** A cursor that no step of the parser leaves. *)
Definition key_cursor (c : asn1_cursor) : Prop := 0 <= cur_len c < 2 ^ 31.

Lemma key_cursor_within c' c : within c' c -> key_cursor c -> key_cursor c'.
Proof. unfold within, key_cursor. lia. Qed.

Lemma key_cursor_ok c : key_cursor c -> cursor_ok c.
Proof. unfold key_cursor, cursor_ok. lia. Qed.

Lemma asn1_enter_within c type : key_cursor c -> within (asn1_enter m c type).2 c.
Proof. intros Hc. by apply (asn1_enter_safe m m Hm type c (key_cursor_ok _ Hc)). Qed.

Lemma asn1_skip_within c type : key_cursor c -> within (asn1_skip m c type).2 c.
Proof. intros Hc. by apply (asn1_skip_safe m m Hm type c (key_cursor_ok _ Hc)). Qed.

Lemma rsa_parse_integer_within c i : key_cursor c -> rsa_parse_integer m c = Ok i -> within i c /\ 0 < cur_len i.
Proof.
  intros Hc. unfold rsa_parse_integer. pose proof (asn1_enter_within c ASN1_INTEGER Hc) as W. set (e := (asn1_enter m c ASN1_INTEGER).2) in *. pose proof (key_cursor_within _ _ W Hc) as He. unfold key_cursor in He.
  destruct (decide (1 < cur_len e /\ m (cur_data e) = 0)) as [Hz|Hz]; (case_decide as H0; [done|]); intros [= <-]; unfold within, advance in *; cbn in *; lia.
Qed.

Lemma rsa_parse_mod_exp_within c modulus exponent :
  key_cursor c -> rsa_parse_mod_exp m c = Ok (modulus, exponent) -> within modulus c /\ 0 < cur_len modulus /\ within exponent c /\ 0 < cur_len exponent.
Proof.
  intros Hc. unfold rsa_parse_mod_exp. pose proof (asn1_enter_within c ASN1_SEQUENCE Hc) as W1. set (c1 := (asn1_enter m c ASN1_SEQUENCE).2) in *. pose proof (key_cursor_within _ _ W1 Hc) as H1. cbv zeta.
  destruct (if bool_decide _ then _ else _) as [c2|] eqn:Hstart; [|done].
  assert (within c2 c) as W2.
  { eapply within_trans; [|exact W1]. case_bool_decide; [injection Hstart as <-; by apply asn1_skip_within|]. pose proof (asn1_skip_within c1 ASN1_SEQUENCE H1) as Ws. set (c3 := (asn1_skip m c1 ASN1_SEQUENCE).2) in *.
    pose proof (key_cursor_within _ _ Ws H1) as H3. unfold asn1_integral_bit_string, asn1_bit_string in Hstart. pose proof (asn1_enter_within c3 ASN1_BIT_STRING H3) as W4.
    destruct (asn1_enter m c3 ASN1_BIT_STRING) as [[] c4]; [|done]. cbn [snd] in W4. case_decide; [done|]. cbv zeta in Hstart. case_decide; [done|]. cbn [bits_unused bits_data bits_len] in Hstart. case_decide; [done|]. injection Hstart as <-.
    assert (within (Cursor (cur_data c4 + 1) (cur_len c4 - 1)) c4) as W5 by (unfold within; cbn; lia). pose proof (key_cursor_within _ _ W4 H3) as Hk4.
    eapply within_trans; [apply asn1_enter_within; exact (key_cursor_within _ _ W5 Hk4)|]. exact (within_trans _ _ _ W5 (within_trans _ _ _ W4 Ws)). }
  pose proof (key_cursor_within _ _ W2 Hc) as H2. destruct (rsa_parse_integer m c2) as [i|] eqn:Ei; [|done]. apply rsa_parse_integer_within in Ei as [Wi Li]; [|done].
  pose proof (asn1_skip_within c2 ASN1_ANY H2) as W3. change (asn1_skip m c2 ASN1_ANY) with (asn1_skip_any m c2) in W3. set (c3 := (asn1_skip_any m c2).2) in *. pose proof (key_cursor_within _ _ W3 H2) as H3.
  set (c4 := if bool_decide _ then (asn1_skip m c3 ASN1_INTEGER).2 else c3).
  assert (within c4 c3) as W4 by (unfold c4; case_bool_decide; [by apply asn1_skip_within|unfold within, key_cursor in *; lia]).
  destruct (rsa_parse_integer m c4) as [e|] eqn:Ee; [|done]. apply rsa_parse_integer_within in Ee as [We Le]; [|exact (key_cursor_within _ _ W4 H3)]. intros [= <- <-].
  split_and!; [exact (within_trans _ _ _ Wi W2)|done|exact (within_trans _ _ _ We (within_trans _ _ _ W4 (within_trans _ _ _ W3 W2)))|done].
Qed.

Lemma mload_bytes a n : bytes (mload m a n).
Proof. revert a. induction n as [|n IH]; intros a; cbn [mload]; [by apply Forall_nil_2|]. apply Forall_cons_2; [apply Hm|apply IH]. Qed.

Lemma required_size len : 0 <= len -> len <= 4 * Z.of_nat (Z.to_nat (bigint_required_size len)).
Proof. intros Hl. unfold bigint_required_size. pose proof (Z.div_mod (len + 4 - 1) 4). pose proof (Z.mod_pos_bound (len + 4 - 1) 4). lia. Qed.

(** The array that is allocated for an integer takes it. *)
Lemma bigint_init_key c : 0 < cur_len c -> exists l, bigint_init (Z.to_nat (bigint_required_size (cur_len c))) (contents m c) = Some l /\ words l /\
  length l = Z.to_nat (bigint_required_size (cur_len c)) /\ bval l = be_value (contents m c).
Proof.
  intros Hl. pose proof (required_size (cur_len c) ltac:(lia)). apply bigint_init_value; unfold contents.
  - by apply mload_bytes.
  - intros E. apply (f_equal length) in E. rewrite mload_length in E. cbn in E. lia.
  - rewrite mload_length. lia.
Qed.

End key_parsing.

Lemma rsa_init_value m ok key key_len :
  mem_ok m -> 0 <= key_len < 2 ^ 31 ->
  exists r c, rsa_init m ok key key_len = Some (r, c) /\
  (r = Ok tt -> ctx_ok c /\ exists modulus exponent, rsa_parse_mod_exp m (Cursor key key_len) = Ok (modulus, exponent) /\ within modulus (Cursor key key_len) /\ within exponent (Cursor key key_len) /\
     rsa_max_len c = cur_len modulus /\ bval (rsa_modulus c) = be_value (contents m modulus) /\ bval (rsa_exponent c) = be_value (contents m exponent)).
Proof.
  intros Hm Hk. unfold rsa_init. destruct (rsa_parse_mod_exp m (Cursor key key_len)) as [[modulus exponent]|] eqn:Ep; [|by eexists _, _].
  destruct (rsa_parse_mod_exp_within m Hm (Cursor key key_len) modulus exponent Hk Ep) as (W1 & L1 & W2 & L2). unfold rsa_alloc. destruct ok; [|by eexists _, _]. cbn [rsa_size rsa_exponent rsa_max_len rsa_dynamic rsa_input rsa_output]. rewrite length_replicate.
  destruct (bigint_init_key m Hm modulus L1) as (n & -> & Wn & Ln & Vn). destruct (bigint_init_key m Hm exponent L2) as (e & -> & We & Le & Ve). eexists _, _. split; [done|]. intros _. split.
  - pose proof (required_size (cur_len modulus) ltac:(lia)). constructor; cbn [rsa_modulus rsa_size rsa_max_len rsa_exponent rsa_input rsa_output].
    + done.
    + done.
    + unfold within in W1. cbn in W1. lia.
    + rewrite Vn. eapply Z.lt_le_trans; [apply be_value_bound; by apply mload_bytes|]. unfold contents. rewrite mload_length, Z2Nat.id by lia. done.
    + split; [by apply Forall_replicate|by rewrite length_replicate].
    + split; [by apply Forall_replicate|by rewrite length_replicate].
  - by exists modulus, exponent.
Qed.

(** *** Objects

    [der type contents object]: the bytes of an object.  Its length is one
    byte below 128, or 128 and the number of bytes of the length that follow. *)
Definition der (type : Z) (contents object : list Z) : Prop :=
  (Z.of_nat (length contents) < 128 /\ object = type :: Z.of_nat (length contents) :: contents) \/
  exists len, bytes len /\ (length len <= 8)%nat /\ be_value len = Z.of_nat (length contents) /\
    object = type :: (128 + Z.of_nat (length len)) :: len ++ contents.

Lemma be_value_cons b l : be_value (b :: l) = b * 256 ^ Z.of_nat (length l) + be_value l.
Proof. unfold be_value. cbn [rev]. rewrite le_value_app, length_rev. cbn [le_value]. lia. Qed.

Lemma len_step_value l v :
  bytes l -> 0 <= v -> v * 256 ^ Z.of_nat (length l) + be_value l < 2 ^ 31 -> foldl len_step v l = v * 256 ^ Z.of_nat (length l) + be_value l.
Proof.
  intros Hl. revert v. induction Hl as [|b l Hb Hl IH]; intros v Hv Hs; [cbn; lia|]. cbn [foldl]. rewrite be_value_cons in *. cbn [length] in *.
  rewrite Nat2Z.inj_succ, Z.pow_succ_r in * by lia. pose proof (be_value_bound l Hl). pose proof (Z.pow_pos_nonneg 256 (Z.of_nat (length l))). unfold is_byte, in_width in Hb.
  assert (v < 2 ^ 23) as Hv' by nia. assert (len_step v b = v * 256 + b) as ->.
  { unfold len_step. rewrite Z.shiftl_mul_pow2, wrap_small by (unfold in_width; lia). rewrite <- Z.shiftl_mul_pow2 by lia. rewrite lor_shiftl_add by lia. lia. }
  rewrite IH by nia. lia.
Qed.

(** The header of an object, and where its contents are. *)
Lemma start_der m a t type contents object n :
  der type contents object -> at_mem m a object -> is_byte type -> t = type \/ t = ASN1_ANY ->
  Z.of_nat (length contents) < 2 ^ 31 -> Z.of_nat (length contents) <= n -> n < 2 ^ 32 ->
  exists h, Z.of_nat (length object) = h + Z.of_nat (length contents) /\ 0 <= h /\ at_mem m (a + h) contents /\
    start_len (asn1_start m (Cursor a (h + n)) t 0) = (Ok (Z.of_nat (length contents)), Cursor (a + h) n).
Proof.
  intros Hd Ha Ht Htt Hc Hn Hb. set (k := Z.of_nat (length contents)) in *.
  assert (exists h, Z.of_nat (length object) = h + k /\ 2 <= h /\ at_mem m (a + h) contents /\
    asn1_start m (Cursor a (h + n)) t 0 = (Ok (s32 k), Cursor (a + h) n)) as (h & E1 & E2 & E3 & E4).
  2:{ exists h. rewrite E4. split_and!; [done|lia|done|]. cbn [start_len]. rewrite sext_small by lia. by rewrite decide_False by lia. }
  assert (forall h, 2 <= h -> m a = type -> asn1_start m (Cursor a (h + n)) t 0 =
    (let c := Cursor (a + 1) (h + n - 1) in
     let '(len_len, c) := if decide (Z.land (m (a + 1)) 128 <> 0) then (Z.land (m (a + 1)) 127, advance 1 c) else (1, c) in
     if decide (cur_len c < len_len) then (Err EINVAL, c) else
     let (len, c) := length_loop m (Z.to_nat len_len) 0 c in
     if decide (u64 (cur_len c + 0) < len) then (Err EINVAL, c) else (Ok (s32 len), c))) as Hstart.
  { intros h Hh Hm. unfold asn1_start, asn1_type, advance. cbn [cur_len cur_data]. rewrite (decide_False (P := h + n < 2)) by lia. rewrite (decide_True (P := 1 <= h + n)) by lia.
    rewrite (decide_False (P := t <> ASN1_ANY /\ _)) by (destruct Htt as [->| ->]; naive_solver). done. }
  destruct Hd as [[Hs ->]|(len & Hl & Hll & Hv & ->)].
  - apply at_mem_cons in Ha as [Ea [E2 Ha]%at_mem_cons]. exists 2. split_and!; [cbn [length]; lia|done|by rewrite <- Z.add_assoc in Ha|].
    rewrite Hstart by done. cbv zeta. rewrite E2. fold k.
    rewrite decide_False by (change 128 with (2 ^ 7); rewrite land_pow2_testbit by lia; rewrite (proj2 (Z.testbit_false k 7 ltac:(lia))) by (rewrite Z.div_small by lia; done); naive_solver).
    cbn [cur_len cur_data]. rewrite decide_False by lia. change (Z.to_nat 1) with 1%nat. cbn [length_loop]. unfold advance. cbn [cur_data cur_len]. rewrite E2.
    change (Z.lor _ _) with k. rewrite (wrap_small 64) by (unfold in_width; lia). rewrite decide_False by lia. f_equal. f_equal; lia.
  - apply at_mem_cons in Ha as [Ea [E2 Ha]%at_mem_cons]. apply at_mem_app in Ha as [Ha1 Ha2]. exists (2 + Z.of_nat (length len)).
    split_and!; [cbn [length]; rewrite length_app; lia|lia|by replace (a + (2 + Z.of_nat (length len))) with (a + 1 + 1 + Z.of_nat (length len)) by lia|].
    rewrite Hstart by (done || lia). cbv zeta. rewrite E2. destruct (len_len_byte (Z.of_nat (length len))) as [B1 B2]; [lia|].
    assert (128 + Z.of_nat (length len) = Z.lor 128 (Z.of_nat (length len))) as ->.
    { change (Z.lor 128) with (Z.lor (Z.shiftl 1 7)). rewrite (lor_shiftl_add 1 (Z.of_nat (length len)) 7) by (change (2 ^ 7) with 128; lia). lia. }
    rewrite decide_True by done. rewrite B2. unfold advance. cbn [cur_len cur_data]. rewrite decide_False by lia.
    rewrite Nat2Z.id, length_loop_value by done. pose proof (len_step_value len 0 Hl ltac:(lia)) as Hlv. rewrite Z.mul_0_l, Z.add_0_l in Hlv. rewrite Hlv by lia. rewrite Hv.
    unfold advance. cbn [cur_len cur_data]. rewrite (wrap_small 64) by (unfold in_width; lia). fold k. rewrite decide_False by lia. f_equal. f_equal; lia.
Qed.

Lemma enter_der m a t type contents object k :
  der type contents object -> at_mem m a object -> is_byte type -> t = type \/ t = ASN1_ANY ->
  Z.of_nat (length object) + k < 2 ^ 31 -> 0 <= k ->
  exists b, asn1_enter m (Cursor a (Z.of_nat (length object) + k)) t = (Ok tt, Cursor b (Z.of_nat (length contents))) /\ at_mem m b contents.
Proof.
  intros Hd Ha Ht Htt Hl Hk. assert (length contents <= length object)%nat as Hle.
  { destruct Hd as [[_ ->]|(len & _ & _ & _ & ->)]; cbn [length]; rewrite ?length_app; lia. }
  destruct (start_der m a t type contents object (Z.of_nat (length contents) + k) Hd Ha Ht Htt) as (h & E & Hh & Hm & Es); [lia..|].
  exists (a + h). split; [|done]. unfold asn1_enter. rewrite E, <- Z.add_assoc, Es. done.
Qed.

Lemma skip_der m a t type contents object k :
  der type contents object -> at_mem m a object -> is_byte type -> t = type \/ t = ASN1_ANY ->
  Z.of_nat (length object) + k < 2 ^ 31 -> 0 <= k ->
  (asn1_skip m (Cursor a (Z.of_nat (length object) + k)) t).2 = Cursor (a + Z.of_nat (length object)) k.
Proof.
  intros Hd Ha Ht Htt Hl Hk. assert (length contents <= length object)%nat as Hle.
  { destruct Hd as [[_ ->]|(len & _ & _ & _ & ->)]; cbn [length]; rewrite ?length_app; lia. }
  destruct (start_der m a t type contents object (Z.of_nat (length contents) + k) Hd Ha Ht Htt) as (h & E & Hh & Hm & Es); [lia..|].
  unfold asn1_skip, asn1_skip_if_exists. rewrite E at 1. rewrite <- Z.add_assoc, Es. unfold advance. cbn [cur_data cur_len].
  replace (Z.of_nat (length contents) + k - Z.of_nat (length contents)) with k by lia.
  replace (a + h + Z.of_nat (length contents)) with (a + Z.of_nat (length object)) by lia. case_decide as H0; [|done]. by subst k.
Qed.

(** The bytes of a number without the zero that keeps it from being negative. *)
Definition unsigned (l : list Z) : list Z := match l with 0 :: b :: l => b :: l | _ => l end.

(** [is_key key modulus exponent]: the bytes of a key, a SubjectPublicKeyInfo
    or an RSAPrivateKey, with these bytes of the two integers. *)
Inductive is_key (key modulus exponent : list Z) : Prop :=
  | public_key algorithm alg inner modulus_obj exponent_obj seq bits rest1 rest2 :
      der ASN1_SEQUENCE algorithm alg -> der ASN1_INTEGER modulus modulus_obj -> der ASN1_INTEGER exponent exponent_obj ->
      der ASN1_SEQUENCE (modulus_obj ++ exponent_obj ++ rest1) seq ->
      inner = 0 :: seq -> der ASN1_BIT_STRING inner bits ->
      der ASN1_SEQUENCE (alg ++ bits ++ rest2) key -> is_key key modulus exponent
  | private_key version public_exponent version_obj modulus_obj public_obj exponent_obj rest :
      der ASN1_INTEGER version version_obj -> der ASN1_INTEGER modulus modulus_obj ->
      der ASN1_INTEGER public_exponent public_obj -> der ASN1_INTEGER exponent exponent_obj ->
      der ASN1_SEQUENCE (version_obj ++ modulus_obj ++ public_obj ++ exponent_obj ++ rest) key -> is_key key modulus exponent.

Lemma parse_integer_der m a contents object k :
  der ASN1_INTEGER contents object -> at_mem m a object -> contents <> [] -> Z.of_nat (length object) + k < 2 ^ 31 -> 0 <= k ->
  exists i, rsa_parse_integer m (Cursor a (Z.of_nat (length object) + k)) = Ok i /\ Asn1.contents m i = unsigned contents /\ cur_len i = Z.of_nat (length (unsigned contents)).
Proof.
  intros Hd Ha Hne Hl Hk. destruct (enter_der m a ASN1_INTEGER ASN1_INTEGER contents object k Hd Ha) as (b & E & Hb); [by split|by left|lia|lia|].
  unfold rsa_parse_integer. rewrite E. cbn [snd cur_len cur_data]. unfold Asn1.contents. destruct contents as [|c [|c' l]]; [done| |].
  - rewrite (decide_False (P := 1 < _ /\ _)) by (cbn [length]; lia). cbn [cur_len]. rewrite decide_False by (cbn; lia). eexists. split; [done|]. cbn [cur_len cur_data]. rewrite Nat2Z.id.
    assert (unsigned [c] = [c]) as -> by (by destruct c). done.
  - pose proof Hb as [Hc Hl']%at_mem_cons. rewrite Hc. destruct (decide (1 < _ /\ c = 0)) as [[_ ->]|Hz].
    + change (unsigned (0 :: c' :: l)) with (c' :: l). unfold advance. cbn [cur_len cur_data]. rewrite decide_False by (cbn [length]; lia). eexists. split; [done|]. cbn [cur_len cur_data].
      assert (Z.of_nat (length (0 :: c' :: l)) - 1 = Z.of_nat (length (c' :: l))) as Hn by (cbn [length]; lia). rewrite Hn, Nat2Z.id. done.
    + cbn [cur_len]. rewrite decide_False by (cbn [length]; lia). eexists. split; [done|]. cbn [cur_len cur_data]. rewrite Nat2Z.id.
      assert (unsigned (c :: c' :: l) = c :: c' :: l) as ->; [|done]. destruct c; [|done..]. destruct Hz. cbn [length]. lia.
Qed.

Lemma der_first m a type contents object : der type contents object -> at_mem m a object -> m a = type /\ (0 < length object)%nat.
Proof. intros [[_ ->]|(len & _ & _ & _ & ->)] [Ha _]%at_mem_cons; (split; [done|cbn [length]; lia]). Qed.

Lemma der_length type contents object : der type contents object -> (length contents < length object)%nat.
Proof. intros [[_ ->]|(len & _ & _ & _ & ->)]; cbn [length]; rewrite ?length_app; lia. Qed.

Lemma type_der m a type contents object k :
  der type contents object -> at_mem m a object -> 0 <= k -> asn1_type m (Cursor a (Z.of_nat (length object) + k)) = type.
Proof. intros Hd Ha Hk. destruct (der_first _ _ _ _ _ Hd Ha) as [<- Hl]. unfold asn1_type. cbn [cur_len]. by rewrite decide_True by lia. Qed.

Lemma bit_string_der m a seq bits k :
  der ASN1_BIT_STRING (0 :: seq) bits -> at_mem m a bits -> Z.of_nat (length bits) + k < 2 ^ 31 -> 0 <= k ->
  exists b, asn1_integral_bit_string m (Cursor a (Z.of_nat (length bits) + k)) = Ok (BitString b (Z.of_nat (length seq)) 0) /\ at_mem m b seq.
Proof.
  intros Hd Ha Hl Hk. destruct (enter_der m a ASN1_BIT_STRING ASN1_BIT_STRING _ _ k Hd Ha) as (b & E & Hb); [by split|by left|lia|lia|].
  apply at_mem_cons in Hb as [H0 Hb]. exists (b + 1). split; [|done]. unfold asn1_integral_bit_string, asn1_bit_string. rewrite E. cbn [cur_len cur_data].
  rewrite decide_False by (cbn [length]; lia). cbv zeta. rewrite H0. change (Z.shiftr 255 (8 - 0)) with 0. rewrite Z.land_0_r.
  rewrite decide_False by lia. cbn [bits_unused]. rewrite decide_False by (by intros []). do 2 f_equal. cbn [length]. lia.
Qed.

Ltac at_parts := repeat match goal with H : at_mem _ _ (_ ++ _) |- _ => apply at_mem_app in H as [? ?] end.

Lemma parse_mod_exp_key m a key modulus exponent :
  is_key key modulus exponent -> modulus <> [] -> exponent <> [] -> at_mem m a key -> Z.of_nat (length key) < 2 ^ 31 ->
  exists n e, rsa_parse_mod_exp m (Cursor a (Z.of_nat (length key))) = Ok (n, e) /\
    contents m n = unsigned modulus /\ contents m e = unsigned exponent /\
    cur_len n = Z.of_nat (length (unsigned modulus)) /\ cur_len e = Z.of_nat (length (unsigned exponent)).
Proof.
  intros Hkey Hn0 He0 Ha Hlen. unfold rsa_parse_mod_exp. rewrite <- (Z.add_0_r (Z.of_nat (length key))) in *.
  destruct Hkey as [algorithm alg inner mo eo seq bits rest1 rest2 Dalg Dm De Dseq -> Dbits Dkey|version pe vo mo po eo rest Dv Dm Dp De Dkey];
    destruct (enter_der m a ASN1_SEQUENCE _ _ _ 0 Dkey Ha) as (b & -> & Hb); [by split|by left|lia|lia| |by split|by left|lia|lia|];
    pose proof (der_length _ _ _ Dkey) as Lk; cbn [snd]; at_parts; rewrite !length_app, !Nat2Z.inj_add; rewrite !length_app in Lk; cbv zeta.
  - rewrite (type_der m b ASN1_SEQUENCE _ _ _ Dalg) by (done || lia). rewrite bool_decide_eq_false_2 by done.
    rewrite (skip_der m b ASN1_SEQUENCE _ _ _ _ Dalg) by (done || (by left) || lia).
    destruct (bit_string_der m (b + Z.of_nat (length alg)) seq bits (Z.of_nat (length rest2)) Dbits) as (b2 & -> & Hb2); [done|lia|lia|]. cbn [bits_data bits_len].
    pose proof (der_length _ _ _ Dbits) as Lb. pose proof (der_length _ _ _ Dseq) as Ls. cbn [length] in Lb. rewrite !length_app in Ls.
    rewrite <- (Z.add_0_r (Z.of_nat (length seq))). destruct (enter_der m b2 ASN1_SEQUENCE _ _ _ 0 Dseq Hb2) as (b3 & -> & Hb3); [by split|by left|lia|lia|].
    at_parts. cbn [snd]. rewrite !length_app, !Nat2Z.inj_add. edestruct (parse_integer_der m b3 modulus mo) as (n & -> & En & Ln); [done|done|done| | |]; [lia|lia|].
    unfold asn1_skip_any. rewrite (skip_der m b3 ASN1_ANY _ _ _ _ Dm) by (done || (by right) || lia).
    edestruct (parse_integer_der m (b3 + Z.of_nat (length mo)) exponent eo) as (e & -> & Ee & Le); [done|done|done| | |]; [lia|lia|]. by exists n, e.
  - rewrite (type_der m b ASN1_INTEGER _ _ _ Dv) by (done || lia). rewrite bool_decide_eq_true_2 by done.
    unfold asn1_skip_any. rewrite (skip_der m b ASN1_ANY _ _ _ _ Dv) by (done || (by right) || lia).
    edestruct (parse_integer_der m (b + Z.of_nat (length vo)) modulus mo) as (n & -> & En & Ln); [done|done|done| | |]; [lia|lia|].
    rewrite (skip_der m _ ASN1_ANY _ _ _ _ Dm) by (done || (by right) || lia). rewrite (skip_der m _ ASN1_INTEGER _ _ _ _ Dp) by (done || (by left) || lia).
    edestruct (parse_integer_der m (b + Z.of_nat (length vo) + Z.of_nat (length mo) + Z.of_nat (length po)) exponent eo) as (e & -> & Ee & Le); [done|done|done| | |]; [lia|lia|]. by exists n, e.
Qed.

Lemma unsigned_value l : be_value (unsigned l) = be_value l.
Proof. destruct l as [|c [|c' l]]; [done|by destruct c|]. destruct c; [|done..]. change (unsigned (0 :: c' :: l)) with (c' :: l). rewrite (be_value_cons 0). lia. Qed.

(** C11: for every key, also one that is not well formed, initialisation stays
    inside the arrays that it allocates, and what it takes for the modulus and
    the exponent are bytes of the key.  For the bytes of a public or private
    key it succeeds, unless the allocation fails, and the modulus and the
    exponent are the integers of the key, the length that of the modulus
    without a leading zero. *)
Theorem rsa_init_safe m ok key key_len :
  mem_ok m -> 0 <= key_len < 2 ^ 31 ->
  (exists r c, rsa_init m ok key key_len = Some (r, c) /\
    (r = Ok tt -> ctx_ok c /\ exists modulus exponent, within modulus (Cursor key key_len) /\ within exponent (Cursor key key_len) /\
       rsa_max_len c = cur_len modulus /\ bval (rsa_modulus c) = be_value (contents m modulus) /\ bval (rsa_exponent c) = be_value (contents m exponent))) /\
  (forall l modulus exponent, is_key l modulus exponent -> modulus <> [] -> exponent <> [] -> at_mem m key l -> key_len = Z.of_nat (length l) ->
    exists c, rsa_init m ok key key_len = Some (if ok then Ok tt else Err ENOMEM, c) /\
      (ok = true -> bval (rsa_modulus c) = be_value modulus /\ bval (rsa_exponent c) = be_value exponent /\
         rsa_max_len c = Z.of_nat (length (unsigned modulus)))).
Proof.
  intros Hm Hk. destruct (rsa_init_value m ok key key_len Hm Hk) as (r & c & E & H). split.
  - exists r, c. split; [done|]. intros Hr. destruct (H Hr) as (Hc & n & e & _ & H'). split; [done|]. by exists n, e.
  - intros l modulus exponent Hl Hn0 He0 Ha ->. destruct (parse_mod_exp_key m key l modulus exponent Hl Hn0 He0 Ha) as (n & e & Ep & En & Ee & Ln & Le); [lia|].
    assert (r = if ok then Ok tt else Err ENOMEM) as Er.
    { unfold rsa_init in E. rewrite Ep in E. unfold rsa_alloc in E. destruct ok; [|by injection E as <- _].
      destruct (bigint_init _ _); [|done]. destruct (bigint_init _ _); [|done]. by injection E as <- _. }
    exists c. rewrite E, Er. split; [done|]. intros Hok. rewrite Hok in Er. destruct (H Er) as (_ & n' & e' & Ep' & _ & _ & H1 & H2 & H3).
    rewrite Ep in Ep'. injection Ep' as <- <-. rewrite H1, H2, H3, En, Ee, !unsigned_value. by split_and!.
Qed.

(** ** Examples *)

(** A pair of keys: the modulus is the product of the primes below 270, whose
    primality can be computed, and the exponents are 65537 and its inverse. *)
Definition test_public_key : list Z :=
  [48; 72; 48; 13; 6; 9; 42; 134; 72; 134; 247; 13; 1; 1; 1; 5; 0; 3; 55; 0; 48; 52; 2; 45; 127; 94; 165; 198; 236; 73; 225; 81; 37; 118; 2; 237; 218; 5; 151; 18; 205; 23; 169; 96; 88; 152; 219; 188; 96; 145; 193; 124; 237; 199; 229; 147; 13; 10; 18; 30; 190; 115; 231; 35; 190; 37; 46; 166; 34; 2; 3; 1; 0; 1].

Definition test_private_key : list Z :=
  [48; 71; 2; 1; 0; 2; 45; 127; 94; 165; 198; 236; 73; 225; 81; 37; 118; 2; 237; 218; 5; 151; 18; 205; 23; 169; 96; 88; 152; 219; 188; 96; 145; 193; 124; 237; 199; 229; 147; 13; 10; 18; 30; 190; 115; 231; 35; 190; 37; 46; 166; 34; 2; 3; 1; 0; 1; 2; 14; 3; 93; 186; 217; 165; 35; 54; 52; 121; 8; 215; 143; 110; 1].

Definition test_primes : list Z := base.filter (fun p => is_prime p = true) (seqZ 0 270).

Definition test_context (key : list Z) : rsa_context := match rsa_init (mem_of key) true 0 (Z.of_nat (length key)) with Some (_, c) => c | None => rsa_empty end.

(** MD5, with its digestInfo prefix. *)
Definition test_digest : digest_algorithm := Digest 1 16.
Definition test_prefixes : list rsa_digestinfo_prefix := [Prefix 1 (RSA_DIGESTINFO_PREFIX 16 [42; 134; 72; 134; 247; 13; 2; 5])].

Ltac by_computation := apply (bool_decide_unpack _); vm_compute; exact I.

(** What the keys are, and that they are a pair. *)
Lemma test_context_ok key :
  bytes key -> Z.of_nat (length key) < 2 ^ 31 -> fst <$> rsa_init (mem_of key) true 0 (Z.of_nat (length key)) = Some (Ok tt) -> ctx_ok (test_context key).
Proof.
  intros Hb Hl Hok. destruct (rsa_init_value (mem_of key) true 0 (Z.of_nat (length key)) (mem_of_ok _ Hb)) as (r & c & E & Hr); [lia|]. unfold test_context. rewrite E in *. injection Hok as ->. by apply Hr.
Qed.

Lemma test_primes_ok : Forall Z.prime test_primes /\ NoDup test_primes.
Proof.
  split; [|apply NoDup_filter, NoDup_seqZ]. apply Forall_forall. intros p [Hp _]%list_elem_of_filter. by apply is_prime_correct.
Qed.

Lemma test_key_pair :
  key_pair (bval (rsa_modulus (test_context test_public_key))) (bval (rsa_exponent (test_context test_public_key))) (bval (rsa_exponent (test_context test_private_key))).
Proof.
  replace (bval (rsa_modulus (test_context test_public_key))) with (product test_primes) by (vm_compute; reflexivity). apply key_pair_primes; [apply test_primes_ok|apply test_primes_ok|by_computation|by_computation|].
  assert (Forall (fun p => (bval (rsa_exponent (test_context test_public_key)) * bval (rsa_exponent (test_context test_private_key)) - 1) `mod` (p - 1) = 0) test_primes) as Hmod by by_computation.
  rewrite Forall_forall in *. intros p Hp. apply Z.mod_divide; [|by apply Hmod]. pose proof (proj1 (Forall_forall _ _) (proj1 test_primes_ok) p Hp) as Hprime. pose proof (Z.prime_ge_2 p Hprime). lia.
Qed.

Lemma test_key_contexts : key_contexts (test_context test_public_key) (test_context test_private_key).
Proof.
  constructor; [apply test_context_ok; by_computation|apply test_context_ok; by_computation|vm_compute; reflexivity|vm_compute; reflexivity|by_computation|apply test_key_pair].
Qed.

Lemma rsa_roundtrip_witness :
  let public := test_context test_public_key in
  let private := test_context test_private_key in
  let value := replicate 16 7 in
  (exists ciphertext c c', rsa_encrypt (replicate 50 3) EIO public [104; 105] = Some (Ok ciphertext, c) /\ rsa_decrypt private ciphertext = Some (Ok [104; 105], c')) /\
  (exists signature c c', rsa_sign test_prefixes private test_digest value = Some (Ok signature, c) /\ rsa_verify test_prefixes public test_digest value signature = Some (Ok tt, c')).
Proof.
  intros public private value. edestruct (rsa_roundtrip test_prefixes public private (replicate 50 3) EIO [104; 105] test_digest value) as [(ct & c & c' & E1 & _ & E2) (sg & c2 & c2' & E3 & _ & E4)].
  - apply test_key_contexts.
  - by_computation.
  - by_computation.
  - by_computation.
  - by_computation.
  - by_computation.
  - apply Nat.leb_le. reflexivity.
  - apply Forall_cons_2; [by_computation|by apply Forall_nil_2].
  - reflexivity.
  - by_computation.
  - split; [exists ct, c, c'; split; [exact E1|exact E2]|exists sg, c2, c2'; split; [exact E3|exact E4]].
Defined.

Lemma rsa_verify_correct_witness :
  let c := test_context test_public_key in
  let signature := replicate 45 0 in
  exists c', rsa_verify test_prefixes c test_digest (replicate 16 7) signature = Some (verify_answer test_prefixes c test_digest (replicate 16 7) signature, c') /\
    verify_answer test_prefixes c test_digest (replicate 16 7) signature = Err EACCES.
Proof.
  intros c signature. destruct (rsa_verify_correct test_prefixes c test_digest (replicate 16 7) signature) as (c' & E & _).
  - apply test_key_contexts.
  - by_computation.
  - by_computation.
  - by_computation.
  - by_computation.
  - apply Nat.leb_le. reflexivity.
  - apply Forall_cons_2; [by_computation|by apply Forall_nil_2].
  - exists c'. split; [exact E|]. unfold verify_answer. rewrite decide_False by (intros H; apply H; vm_compute; reflexivity). change (rsa_find_prefix test_prefixes test_digest) with (Some (Prefix 1 (RSA_DIGESTINFO_PREFIX 16 [42; 134; 72; 134; 247; 13; 2; 5]))).
    cbv beta iota zeta. rewrite decide_False by by_computation. rewrite decide_False; [reflexivity|].
    replace (be_value signature) with 0 by reflexivity. unfold rsa_power. rewrite Z.pow_0_l by by_computation. by_computation.
Defined.

Lemma rsa_init_safe_witness :
  exists c, rsa_init (mem_of test_public_key) true 0 74 = Some (Ok tt, c) /\ rsa_max_len c = 45 /\ bval (rsa_exponent c) = 65537 /\
    bval (rsa_modulus c) = product test_primes.
Proof.
  destruct (rsa_init_safe (mem_of test_public_key) true 0 74) as [_ H]; [apply mem_of_ok; by_computation|by split|].
  destruct (H test_public_key (take 45 (drop 24 test_public_key)) [1; 0; 1]) as (c & E & Hc).
  - eapply (public_key _ _ _ (take 13 (drop 4 test_public_key)) (take 15 (drop 2 test_public_key)) (drop 19 test_public_key)
      (take 47 (drop 22 test_public_key)) (drop 69 test_public_key) (drop 20 test_public_key) (drop 17 test_public_key) [] []);
      first [left; split; reflexivity | reflexivity].
  - discriminate.
  - discriminate.
  - vm_compute. reflexivity.
  - reflexivity.
  - exists c. split; [exact E|]. destruct (Hc eq_refl) as (-> & -> & ->). split; [reflexivity|]. split; [reflexivity|]. vm_compute. reflexivity.
Defined.

(** The subtraction of the padding wraps for a modulus of less than eleven
    bytes, and every digest leaves the buffer. *)
Lemma rsa_short_modulus prefixes c digest value buffer prefix :
  0 <= rsa_max_len c < 11 -> rsa_find_prefix prefixes digest = Some prefix -> Z.of_nat (length (prefix_data prefix)) + Z.of_nat (digestsize digest) < 2 ^ 32 -> 8 <= Z.of_nat (length (prefix_data prefix)) ->
  Z.of_nat (length buffer) < 2 ^ 32 -> rsa_encode_digest prefixes c digest value buffer = None.
Proof.
  intros Hl Hf Hd H8 Hb. unfold rsa_encode_digest. rewrite Hf. cbv zeta.
  assert (u64 (rsa_max_len c - 11) = rsa_max_len c - 11 + 2 ^ 64) as -> by (unfold wrap; rewrite <- (Z.mod_add _ 1) by lia; rewrite Z.mod_small; lia).
  rewrite decide_False by lia. rewrite wrap_small by (unfold in_width; lia). by rewrite decide_True by lia.
Qed.
