(* ===== verification/Linebuf.v ===== *)
(** * Line buffers (core/linebuf.c)

    Received data is collected line by line: every complete line ends with a
    NUL in place of its newline.  Lines that arrive in any pieces are stored as
    they were sent ([line_buffer_line], [line_buffer_part]). *)

From S2P Require Import Prelude CMem Strings.

(** The length is that of the data; the terminator behind the data is left
    out. *)
Record line_buffer_state := LineBuffer { lb_data : list Z; lb_consumed : Z }.

Definition empty_line_buffer : line_buffer_state := LineBuffer [] 0.

(** The position of the first byte [c]. *)
Fixpoint find_byte (c : Z) (l : list Z) : option nat :=
  match l with
  | [] => None
  | b :: l => if decide (b = c) then Some 0%nat else S <$> find_byte c l
  end.

(** The newline, which is the last byte, becomes a NUL; so does a carriage
    return before it, which ends the data then. *)
Definition terminate_line (l : list Z) : list Z :=
  let l := removelast l in
  if decide (last l = Some 13) then removelast l ++ [0] else l ++ [0].

(** [ok]: the memory for the data can be allocated. *)
Definition line_buffer (ok : bool) (data : list Z) (lb : line_buffer_state) : result Z * line_buffer_state :=
  let eol := find_byte 10 data in
  let consume := match eol with Some i => S i | None => length data end in
  match find_byte 0 (take consume data) with
  | Some _ => (Err EINVAL, lb)
  | None =>
    if negb ok then (Err ENOMEM, lb) else
    let new_data := lb_data lb ++ take consume data in
    let new_data := match eol with Some _ => terminate_line new_data | None => new_data end in
    (Ok (Z.of_nat consume), LineBuffer new_data (Z.of_nat consume))
  end.

(** The bytes before the first NUL. *)
Fixpoint until_nul (l : list Z) : list Z :=
  match l with
  | [] => []
  | b :: l => if decide (b = 0) then [] else b :: until_nul l
  end.

(** The last line, found from its end. *)
Definition buffered_line (lb : line_buffer_state) : option (list Z) :=
  if decide (lb_data lb = [] \/ lb_consumed lb = 0 \/ last (lb_data lb) <> Some 0) then None
  else Some (rev (until_nul (rev (removelast (lb_data lb))))).

(** ** Lines *)

(** What lines look like on the wire, and in the buffer. *)
Definition line_ok (l : list Z) : Prop := Forall (fun c => c <> 0 /\ c <> 10) l.
Definition wire (l : list Z) : list Z := l ++ [13; 10].
Definition stored (ls : list (list Z)) : list Z := concat (map (fun l => l ++ [0]) ls).

Lemma find_byte_none c l : Forall (fun b => b <> c) l -> find_byte c l = None.
Proof. induction 1 as [|b l Hb Hl IH]; cbn [find_byte]; [done|]. by rewrite decide_False, IH by done. Qed.

Lemma find_byte_first c l rest : Forall (fun b => b <> c) l -> find_byte c (l ++ c :: rest) = Some (length l).
Proof. induction 1 as [|b l Hb Hl IH]; cbn [app find_byte length]; [by rewrite decide_True|]. by rewrite decide_False, IH by done. Qed.

Lemma until_nul_app l rest : Forall (fun b => b <> 0) l -> until_nul (l ++ 0 :: rest) = l.
Proof. induction 1 as [|b l Hb Hl IH]; cbn [app until_nul]; [done|]. by rewrite decide_False, IH by done. Qed.

Lemma until_nul_all l : Forall (fun b => b <> 0) l -> until_nul l = l.
Proof. induction 1 as [|b l Hb Hl IH]; cbn [until_nul]; [done|]. by rewrite decide_False, IH by done. Qed.

Lemma stored_snoc ls l : stored (ls ++ [l]) = stored ls ++ l ++ [0].
Proof. unfold stored. rewrite map_app, concat_app. cbn [map concat]. by rewrite app_nil_r. Qed.

Lemma line_ok_nul l : line_ok l -> Forall (fun c => c <> 0) l.
Proof. intros H. eapply Forall_impl; [exact H|]. by intros ? []. Qed.

Lemma line_ok_eol l : line_ok l -> Forall (fun c => c <> 10) l.
Proof. intros H. eapply Forall_impl; [exact H|]. by intros ? []. Qed.

(** The last line of a buffer of lines. *)
Lemma buffered_line_stored ls l consumed : Forall (fun c => c <> 0) l -> consumed <> 0 -> buffered_line (LineBuffer (stored (ls ++ [l])) consumed) = Some l.
Proof.
  intros Hl Hc. unfold buffered_line. cbn [lb_data lb_consumed]. rewrite stored_snoc, app_assoc. rewrite decide_False by (rewrite last_snoc; intros [E|[E|E]]; [by destruct (stored ls ++ l)|done|done]).
  rewrite removelast_last, rev_app_distr. f_equal. induction ls as [|l' ls' _] using rev_ind.
  - change (rev (stored [])) with (@nil Z). rewrite app_nil_r, until_nul_all by (by apply List.Forall_rev). apply rev_involutive.
  - rewrite stored_snoc, app_assoc, (rev_app_distr _ [0]). cbn [rev app]. rewrite until_nul_app by (by apply List.Forall_rev). apply rev_involutive.
Qed.

(** A piece without a newline is stored; there is no new line. *)
Lemma line_buffer_part data part consumed :
  line_ok part -> line_buffer true part (LineBuffer data consumed) = (Ok (Z.of_nat (length part)), LineBuffer (data ++ part) (Z.of_nat (length part))) /\
  (part <> [] -> buffered_line (LineBuffer (data ++ part) (Z.of_nat (length part))) = None).
Proof.
  intros Hp. unfold line_buffer. cbv zeta. rewrite (find_byte_none 10 part) by (by apply line_ok_eol). rewrite take_ge by lia. rewrite find_byte_none by (by apply line_ok_nul). split; [done|].
  intros Hne. unfold buffered_line. cbn [lb_data lb_consumed]. apply decide_True. right. right. destruct part as [|c part _] using rev_ind; [done|]. rewrite app_assoc, last_snoc.
  apply Forall_app in Hp as [_ [[Hc _] _]%Forall_cons]. naive_solver.
Qed.

(** The piece that ends a line, whatever is behind it: the line is stored
    without its terminator, and it is the new line. *)
Lemma line_buffer_line ls start part rest consumed l :
  line_ok part -> start ++ part = l ++ [13] -> Forall (fun c => c <> 0) l ->
  let lb := LineBuffer (stored (ls ++ [l])) (Z.of_nat (S (length part))) in
  line_buffer true (part ++ 10 :: rest) (LineBuffer (stored ls ++ start) consumed) = (Ok (Z.of_nat (S (length part))), lb) /\ buffered_line lb = Some l.
Proof.
  intros Hp Hl Hn lb. split; [|apply buffered_line_stored; [done|lia]]. unfold line_buffer. cbv zeta. rewrite (find_byte_first 10 part) by (by apply line_ok_eol).
  assert (take (S (length part)) (part ++ 10 :: rest) = part ++ [10]) as ->.
  { change (10 :: rest) with ([10] ++ rest). rewrite app_assoc. apply take_app_length'. rewrite length_app. cbn. lia. }
  rewrite find_byte_none by (apply Forall_app; split; [by apply line_ok_nul|by apply Forall_cons_2]). cbn [negb lb_data]. unfold lb. f_equal. f_equal.
  unfold terminate_line. rewrite !app_assoc, removelast_last, <- (app_assoc _ start), Hl, app_assoc, last_snoc, decide_True by done. by rewrite removelast_last, stored_snoc, app_assoc.
Qed.
