(* ===== verification/Http.v ===== *)
(** * HTTP (net/tcp/httpcore.c, httpauth.c, httpbasic.c, httpdigest.c)

    A transaction sends a request over a connection, collects the lines of the
    response headers, and hands the content on as its transfer encoding says:
    up to the content length, to the end of the connection, or in chunks.  The
    states are those of the source; their handlers are the functions that the
    source puts in the structures.  The connection, the recipient of the data,
    memory allocation, random numbers and MD5 are the class [HttpEnv]. *)

From S2P Require Import Prelude CMem Strings Vsprintf Encoding Uri Linebuf.

(** ** Data *)

Inductive http_method := http_head | http_get | http_post.

Inductive http_authentication := http_basic_auth | http_digest_auth.

(** Only the chunked encoding is in the table of encodings; the other is the
    default. *)
Inductive http_transfer_encoding := http_transfer_identity | http_transfer_chunked.

(** [HTTP_CLOSED] is a null pointer: no more data is expected. *)
Inductive http_state := HTTP_REQUEST | HTTP_HEADERS | HTTP_IDENTITY | HTTP_CHUNKED | HTTP_TRAILERS | HTTP_CLOSED.

#[export] Instance http_method_eq_dec : EqDecision http_method.
Proof. solve_decision. Defined.

Definition HTTP_RETRY_SECONDS : Z := 5.
Definition HTTP_RESPONSE_KEEPALIVE : Z := 1.
Definition HTTP_RESPONSE_CONTENT_LEN : Z := 2.
Definition HTTP_RESPONSE_RETRY : Z := 4.
Definition HTTP_DIGEST_NC : list Z := lit "00000001".

Definition method_name (m : http_method) : list Z :=
  match m with http_head => lit "HEAD" | http_get => lit "GET" | http_post => lit "POST" end.

(** What the schemes record of a request; a transaction uses one of them. *)
Record http_request_auth := RequestAuth {
  ra_auth : option http_authentication;
  ra_username : option (list Z);
  ra_password : list Z;
  ra_qop : option (list Z);
  ra_algorithm : option (list Z);
  ra_cnonce : list Z;
  ra_response : list Z
}.

Record http_request := Request {
  req_method : http_method;
  req_uri : list Z;
  req_host : list Z;
  req_range_start : Z;
  req_range_len : Z;
  req_content_type : option (list Z);
  req_content : list Z;
  req_auth : http_request_auth
}.

(** The return status is that of the status line; the headers and the fields of
    the digest scheme are the strings that the pointers of the source point
    to. *)
Record http_response := Response {
  rs_headers : line_buffer_state;
  rs_status : Z;
  rs_rc : result unit;
  rs_location : option (list Z);
  rs_transfer : option http_transfer_encoding;
  rs_content_len : Z;
  rs_auth : option http_authentication;
  rs_realm : option (list Z);
  rs_qop : option (list Z);
  rs_algorithm : option (list Z);
  rs_nonce : option (list Z);
  rs_opaque : option (list Z);
  rs_retry_after : Z;
  rs_flags : Z
}.

(** [ht_process] tells whether the transmission process is scheduled,
    [ht_timer] the timeout of a running timer, [ht_closed] the reason of the
    close. *)
Record http_transaction := Http {
  ht_uri : uri;
  ht_request : http_request;
  ht_response : http_response;
  ht_state : http_state;
  ht_len : Z;
  ht_remaining : Z;
  ht_linebuf : line_buffer_state;
  ht_process : bool;
  ht_timer : option Z;
  ht_closed : option (result unit)
}.

Definition set_ra_auth (v : option http_authentication) (r : http_request_auth) : http_request_auth := RequestAuth v (ra_username r) (ra_password r) (ra_qop r) (ra_algorithm r) (ra_cnonce r) (ra_response r).

Definition set_req_auth (v : http_request_auth) (r : http_request) : http_request := Request (req_method r) (req_uri r) (req_host r) (req_range_start r) (req_range_len r) (req_content_type r) (req_content r) v.

Definition set_rs_headers (v : line_buffer_state) (r : http_response) : http_response := Response v (rs_status r) (rs_rc r) (rs_location r) (rs_transfer r) (rs_content_len r) (rs_auth r) (rs_realm r) (rs_qop r) (rs_algorithm r) (rs_nonce r) (rs_opaque r) (rs_retry_after r) (rs_flags r).
Definition set_rs_status (v : Z) (r : http_response) : http_response := Response (rs_headers r) v (rs_rc r) (rs_location r) (rs_transfer r) (rs_content_len r) (rs_auth r) (rs_realm r) (rs_qop r) (rs_algorithm r) (rs_nonce r) (rs_opaque r) (rs_retry_after r) (rs_flags r).
Definition set_rs_rc (v : result unit) (r : http_response) : http_response := Response (rs_headers r) (rs_status r) v (rs_location r) (rs_transfer r) (rs_content_len r) (rs_auth r) (rs_realm r) (rs_qop r) (rs_algorithm r) (rs_nonce r) (rs_opaque r) (rs_retry_after r) (rs_flags r).
Definition set_rs_location (v : option (list Z)) (r : http_response) : http_response := Response (rs_headers r) (rs_status r) (rs_rc r) v (rs_transfer r) (rs_content_len r) (rs_auth r) (rs_realm r) (rs_qop r) (rs_algorithm r) (rs_nonce r) (rs_opaque r) (rs_retry_after r) (rs_flags r).
Definition set_rs_transfer (v : option http_transfer_encoding) (r : http_response) : http_response := Response (rs_headers r) (rs_status r) (rs_rc r) (rs_location r) v (rs_content_len r) (rs_auth r) (rs_realm r) (rs_qop r) (rs_algorithm r) (rs_nonce r) (rs_opaque r) (rs_retry_after r) (rs_flags r).
Definition set_rs_content_len (v : Z) (r : http_response) : http_response := Response (rs_headers r) (rs_status r) (rs_rc r) (rs_location r) (rs_transfer r) v (rs_auth r) (rs_realm r) (rs_qop r) (rs_algorithm r) (rs_nonce r) (rs_opaque r) (rs_retry_after r) (rs_flags r).
Definition set_rs_auth (v : option http_authentication) (r : http_response) : http_response := Response (rs_headers r) (rs_status r) (rs_rc r) (rs_location r) (rs_transfer r) (rs_content_len r) v (rs_realm r) (rs_qop r) (rs_algorithm r) (rs_nonce r) (rs_opaque r) (rs_retry_after r) (rs_flags r).
Definition set_rs_realm (v : option (list Z)) (r : http_response) : http_response := Response (rs_headers r) (rs_status r) (rs_rc r) (rs_location r) (rs_transfer r) (rs_content_len r) (rs_auth r) v (rs_qop r) (rs_algorithm r) (rs_nonce r) (rs_opaque r) (rs_retry_after r) (rs_flags r).
Definition set_rs_qop (v : option (list Z)) (r : http_response) : http_response := Response (rs_headers r) (rs_status r) (rs_rc r) (rs_location r) (rs_transfer r) (rs_content_len r) (rs_auth r) (rs_realm r) v (rs_algorithm r) (rs_nonce r) (rs_opaque r) (rs_retry_after r) (rs_flags r).
Definition set_rs_algorithm (v : option (list Z)) (r : http_response) : http_response := Response (rs_headers r) (rs_status r) (rs_rc r) (rs_location r) (rs_transfer r) (rs_content_len r) (rs_auth r) (rs_realm r) (rs_qop r) v (rs_nonce r) (rs_opaque r) (rs_retry_after r) (rs_flags r).
Definition set_rs_nonce (v : option (list Z)) (r : http_response) : http_response := Response (rs_headers r) (rs_status r) (rs_rc r) (rs_location r) (rs_transfer r) (rs_content_len r) (rs_auth r) (rs_realm r) (rs_qop r) (rs_algorithm r) v (rs_opaque r) (rs_retry_after r) (rs_flags r).
Definition set_rs_opaque (v : option (list Z)) (r : http_response) : http_response := Response (rs_headers r) (rs_status r) (rs_rc r) (rs_location r) (rs_transfer r) (rs_content_len r) (rs_auth r) (rs_realm r) (rs_qop r) (rs_algorithm r) (rs_nonce r) v (rs_retry_after r) (rs_flags r).
Definition set_rs_retry_after (v : Z) (r : http_response) : http_response := Response (rs_headers r) (rs_status r) (rs_rc r) (rs_location r) (rs_transfer r) (rs_content_len r) (rs_auth r) (rs_realm r) (rs_qop r) (rs_algorithm r) (rs_nonce r) (rs_opaque r) v (rs_flags r).
Definition set_rs_flags (v : Z) (r : http_response) : http_response := Response (rs_headers r) (rs_status r) (rs_rc r) (rs_location r) (rs_transfer r) (rs_content_len r) (rs_auth r) (rs_realm r) (rs_qop r) (rs_algorithm r) (rs_nonce r) (rs_opaque r) (rs_retry_after r) v.

Definition set_ht_request (v : http_request) (r : http_transaction) : http_transaction := Http (ht_uri r) v (ht_response r) (ht_state r) (ht_len r) (ht_remaining r) (ht_linebuf r) (ht_process r) (ht_timer r) (ht_closed r).
Definition set_ht_response (v : http_response) (r : http_transaction) : http_transaction := Http (ht_uri r) (ht_request r) v (ht_state r) (ht_len r) (ht_remaining r) (ht_linebuf r) (ht_process r) (ht_timer r) (ht_closed r).
Definition set_ht_state (v : http_state) (r : http_transaction) : http_transaction := Http (ht_uri r) (ht_request r) (ht_response r) v (ht_len r) (ht_remaining r) (ht_linebuf r) (ht_process r) (ht_timer r) (ht_closed r).
Definition set_ht_len (v : Z) (r : http_transaction) : http_transaction := Http (ht_uri r) (ht_request r) (ht_response r) (ht_state r) v (ht_remaining r) (ht_linebuf r) (ht_process r) (ht_timer r) (ht_closed r).
Definition set_ht_remaining (v : Z) (r : http_transaction) : http_transaction := Http (ht_uri r) (ht_request r) (ht_response r) (ht_state r) (ht_len r) v (ht_linebuf r) (ht_process r) (ht_timer r) (ht_closed r).
Definition set_ht_linebuf (v : line_buffer_state) (r : http_transaction) : http_transaction := Http (ht_uri r) (ht_request r) (ht_response r) (ht_state r) (ht_len r) (ht_remaining r) v (ht_process r) (ht_timer r) (ht_closed r).
Definition set_ht_process (v : bool) (r : http_transaction) : http_transaction := Http (ht_uri r) (ht_request r) (ht_response r) (ht_state r) (ht_len r) (ht_remaining r) (ht_linebuf r) v (ht_timer r) (ht_closed r).
Definition set_ht_timer (v : option Z) (r : http_transaction) : http_transaction := Http (ht_uri r) (ht_request r) (ht_response r) (ht_state r) (ht_len r) (ht_remaining r) (ht_linebuf r) (ht_process r) v (ht_closed r).
Definition set_ht_closed (v : option (result unit)) (r : http_transaction) : http_transaction := Http (ht_uri r) (ht_request r) (ht_response r) (ht_state r) (ht_len r) (ht_remaining r) (ht_linebuf r) (ht_process r) (ht_timer r) v.

Definition no_response : http_response := Response empty_line_buffer 0 (Ok tt) None None 0 None None None None None None 0 0.
Definition no_auth : http_request_auth := RequestAuth None None [] None None [] [].

Definition has_flag (flag : Z) (r : http_response) : bool := bool_decide (Z.land (rs_flags r) flag <> 0).
Definition add_flag (flag : Z) (r : http_response) : http_response := set_rs_flags (Z.lor (rs_flags r) flag) r.
Definition clear_flag (flag : Z) (r : http_response) : http_response := set_rs_flags (Z.land (rs_flags r) (Z.lnot flag)) r.

(** The text of a format whose arguments match. *)
Definition text (fmt : list Z) (args : list varg) : list Z := default [] (vcprintf fmt args).

(** [strcasecmp] finds no difference. *)
Definition same_name (s1 s2 : list Z) : bool := bool_decide (map toupper s1 = map toupper s2).

(** ** Tokens *)

Fixpoint skip_separators (line : list Z) : list Z :=
  match line with
  | [] => []
  | c :: rest => if isspace c || bool_decide (c = 44) then skip_separators rest else line
  end.

(** The characters of the token, its value and the rest of the line; [want]
    tells whether a value is wanted and has not been found. *)
Fixpoint scan_token (want : bool) (quote : Z) (line : list Z) : list Z * option (list Z) * list Z :=
  match line with
  | [] => ([], None, [])
  | c :: line =>
    if (isspace c || bool_decide (c = 44)) && bool_decide (quote = 0) then ([], None, line)
    else if decide (c = quote) then ([], None, line)
    else if want && bool_decide (c = 61) then
      match line with
      | q :: value =>
        if bool_decide (q = 34) || bool_decide (q = 39)
        then let '(v, _, rest) := scan_token false q value in ([], Some v, rest)
        else let '(v, _, rest) := scan_token false quote line in ([], Some v, rest)
      | [] => ([], Some [], [])
      end
    else let '(t, v, rest) := scan_token want quote line in (c :: t, v, rest)
  end.

Definition http_token (want : bool) (line : list Z) : option (list Z * option (list Z)) * list Z :=
  match skip_separators line with
  | [] => (None, [])
  | line => let '(t, v, rest) := scan_token want 0 line in (Some (t, v), rest)
  end.

(** All tokens of a line; each is at least one character long. *)
Fixpoint http_tokens (fuel : nat) (want : bool) (line : list Z) : list (list Z * option (list Z)) :=
  match fuel with
  | O => []
  | S fuel => match http_token want line with (Some t, line) => t :: http_tokens fuel want line | (None, _) => [] end
  end.

(** ** Response headers *)

Definition http_parse_status (line : list Z) (r : http_response) : result unit * http_response :=
  match http_token false line with
  | (None, _) => (Err EINVAL, r)
  | (Some (version, _), line) =>
    if decide (take 5 version <> lit "HTTP/") then (Err EINVAL, r) else
    let vernum := drop 5 version in
    let r :=
      if decide (head vernum = Some 48) then r
      else if decide (take 3 vernum = lit "1.0") then r
      else add_flag HTTP_RESPONSE_KEEPALIVE r in
    let (status, endp) := strtoul_string line 10 in
    let r := set_rs_status (u32 status) r in
    if decide (head endp <> Some 32) then (Err EINVAL, r) else
    let response_rc :=
      if decide (head line = Some 50) then Ok tt
      else if decide (head line = Some 51) then Err EXDEV
      else if decide (rs_status r = 401) then Err EACCES
      else if decide (rs_status r = 403) then Err EPERM
      else if decide (rs_status r = 404) then Err ENOENT
      else Err EIO in
    (Ok tt, set_rs_rc response_rc r)
  end.

Definition http_parse_location (line : list Z) (r : http_response) : result unit * http_response := (Ok tt, set_rs_location (Some line) r).

Definition http_parse_transfer_encoding (line : list Z) (r : http_response) : result unit * http_response :=
  if same_name line (lit "chunked") then (Ok tt, set_rs_transfer (Some http_transfer_chunked) r) else (Err ENOTSUP, r).

Definition connection_token (r : http_response) (t : list Z * option (list Z)) : http_response :=
  let r := if same_name t.1 (lit "keep-alive") then add_flag HTTP_RESPONSE_KEEPALIVE r else r in
  if same_name t.1 (lit "close") then clear_flag HTTP_RESPONSE_KEEPALIVE r else r.

Definition http_parse_connection (line : list Z) (r : http_response) : result unit * http_response :=
  (Ok tt, foldl connection_token r (http_tokens (length line) false line)).

Definition http_parse_content_length (line : list Z) (r : http_response) : result unit * http_response :=
  let (len, endp) := strtoul_string line 10 in
  let r := set_rs_content_len len r in
  if decide (endp <> []) then (Err EINVAL, r) else (Ok tt, add_flag HTTP_RESPONSE_CONTENT_LEN r).

(** No content encoding is configured, and others are ignored. *)
Definition http_parse_content_encoding (line : list Z) (r : http_response) : result unit * http_response := (Ok tt, r).

Definition http_parse_retry_after (line : list Z) (r : http_response) : result unit * http_response :=
  let (retry_after, endp) := strtoul_string line 10 in
  let r := set_rs_retry_after (if decide (endp <> []) then HTTP_RETRY_SECONDS else u32 retry_after) r in
  (Ok tt, add_flag HTTP_RESPONSE_RETRY r).

(** ** Authentication *)

Definition auth_name (auth : http_authentication) : list Z :=
  match auth with http_basic_auth => lit "Basic" | http_digest_auth => lit "Digest" end.

Definition find_authentication (name : list Z) : option http_authentication :=
  if same_name name (auth_name http_basic_auth) then Some http_basic_auth
  else if same_name name (auth_name http_digest_auth) then Some http_digest_auth else None.

(** Both schemes allow a request that was sent without authentication to be
    sent again. *)
Definition allow_retry (req : http_request) (r : http_response) : http_response :=
  match ra_auth (req_auth req) with None => add_flag HTTP_RESPONSE_RETRY r | Some _ => r end.

Definition http_parse_basic_auth (req : http_request) (line : list Z) (r : http_response) : result unit * http_response := (Ok tt, allow_retry req r).

Definition digest_field (r : http_response) (t : list Z * option (list Z)) : http_response :=
  let (key, value) := t in
  let r := if same_name key (lit "realm") then set_rs_realm value r else r in
  let r := if same_name key (lit "qop") then set_rs_qop value r else r in
  let r := if same_name key (lit "algorithm") then set_rs_algorithm value r else r in
  let r := if same_name key (lit "nonce") then set_rs_nonce value r else r in
  if same_name key (lit "opaque") then set_rs_opaque value r else r.

Definition http_parse_digest_auth (req : http_request) (line : list Z) (r : http_response) : result unit * http_response :=
  (Ok tt, allow_retry req (foldl digest_field r (http_tokens (length line) true line))).

Definition http_parse_www_authenticate (req : http_request) (line : list Z) (r : http_response) : result unit * http_response :=
  match http_token false line with
  | (None, _) => (Err EPROTO, r)
  | (Some (name, _), line) =>
    match find_authentication name, rs_auth r with
    | None, _ => (Ok tt, r)
    | Some _, Some _ => (Ok tt, r)
    | Some http_basic_auth, None => http_parse_basic_auth req line (set_rs_auth (Some http_basic_auth) r)
    | Some http_digest_auth, None => http_parse_digest_auth req line (set_rs_auth (Some http_digest_auth) r)
    end
  end.

Fixpoint skip_spaces (line : list Z) : list Z :=
  match line with
  | [] => []
  | c :: rest => if isspace c then skip_spaces rest else line
  end.

Definition http_parse_header (req : http_request) (line : list Z) (r : http_response) : result unit * http_response :=
  match find_byte 58 line with
  | None => (Err EINVAL, r)
  | Some sep =>
    let name := take sep line in
    let line := skip_spaces (drop (S sep) line) in
    if same_name name (lit "Location") then http_parse_location line r
    else if same_name name (lit "Transfer-Encoding") then http_parse_transfer_encoding line r
    else if same_name name (lit "Connection") then http_parse_connection line r
    else if same_name name (lit "Content-Length") then http_parse_content_length line r
    else if same_name name (lit "Content-Encoding") then http_parse_content_encoding line r
    else if same_name name (lit "Retry-After") then http_parse_retry_after line r
    else if same_name name (lit "WWW-Authenticate") then http_parse_www_authenticate req line r
    else (Ok tt, r)
  end.

(** [data] is the buffer from the next line on; the fuel is its length. *)
Fixpoint headers_loop (fuel : nat) (req : http_request) (data : list Z) (r : http_response) : result unit * http_response :=
  match fuel with
  | O => (Ok tt, r)
  | S fuel =>
    let line := until_nul data in
    let next := drop (S (length line)) data in
    if decide (line = []) then (Ok tt, r) else
    match http_parse_header req line r with
    | (Err rc, r) => (Err rc, r)
    | (Ok _, r) => headers_loop fuel req next r
    end
  end.

Definition http_parse_headers (req : http_request) (r : http_response) : result unit * http_response :=
  let data := lb_data (rs_headers r) in
  let line := until_nul data in
  let next := drop (S (length line)) data in
  match http_parse_status line r with
  | (Err rc, r) => (Err rc, r)
  | (Ok _, r) => headers_loop (length data) req next r
  end.

(** ** The environment *)

(** The connection ([hc_]), the recipient of the content ([hx_]), and what the
    firmware provides. *)
Class HttpEnv (W : Type) := {
  hc_connect : uri -> W -> result unit * W;
  hc_window : W -> Z;
  hc_deliver : list Z -> W -> result unit * W;
  hc_recycle : W -> W;
  hc_close : result unit -> W -> W;
  hx_window : W -> Z;
  hx_window_changed : W -> W;
  hx_seek : Z -> W -> W;
  hx_deliver : list Z -> W -> result unit * W;
  hx_redirect : uri -> W -> result unit * W;
  hx_close : result unit -> W -> W;
  http_alloc : W -> bool * W;
  http_random : W -> Z * W;
  http_md5 : list Z -> list Z;
  product_version : list Z;
  find_parameters : option (list Z) -> option nat;
  parameter_list : nat -> list (list Z * list Z);
}.

Section http.
Context {W : Type} `{HttpEnv W}.

Record http_sys := HttpSys { hs_tx : http_transaction; hs_world : W }.

Definition on_tx (f : http_transaction -> http_transaction) (x : http_sys) : http_sys := HttpSys (f (hs_tx x)) (hs_world x).
Definition on_world (f : W -> W) (x : http_sys) : http_sys := HttpSys (hs_tx x) (f (hs_world x)).
Definition on_response (f : http_response -> http_response) (x : http_sys) : http_sys := on_tx (fun h => set_ht_response (f (ht_response h)) h) x.
Definition call {A} (f : W -> A * W) (x : http_sys) : A * http_sys := let (a, w) := f (hs_world x) in (a, HttpSys (hs_tx x) w).

(** ** Closing and reopening *)

(** Interfaces that are closed already are not told again. *)
Definition http_close (rc : result unit) (x : http_sys) : http_sys :=
  let x := on_tx (fun h => set_ht_timer None (set_ht_process false h)) x in
  match ht_closed (hs_tx x) with
  | Some _ => x
  | None => on_world (fun w => hx_close rc (hc_close rc w)) (on_tx (set_ht_closed (Some rc)) x)
  end.

Definition http_close_error (rc : result unit) (x : http_sys) : http_sys := http_close (match rc with Ok _ => Err EPIPE | _ => rc end) x.

Definition http_reopen (x : http_sys) : http_sys :=
  let x := on_world (hc_close (Err ECANCELED)) x in
  match call (hc_connect (ht_uri (hs_tx x))) x with
  | (Err rc, x) => http_close (Err rc) x
  | (Ok _, x) => on_tx (fun h => set_ht_process true (set_ht_state HTTP_REQUEST h)) x
  end.

Definition http_expired (x : http_sys) : http_sys := http_reopen (on_tx (set_ht_timer None) x).

(** ** Content *)

Definition http_content_deliver (data : list Z) (x : http_sys) : result unit * http_sys :=
  match rs_rc (ht_response (hs_tx x)) with
  | Err _ => (Ok tt, x)
  | Ok _ => call (hx_deliver data) x
  end.

(** A seek is a delivery without data. *)
Definition http_content_seek (offset : Z) (x : http_sys) : http_sys :=
  match rs_rc (ht_response (hs_tx x)) with
  | Err _ => x
  | Ok _ => on_world (hx_seek offset) x
  end.

(** ** Completion *)

Definition http_redirect (location : list Z) (x : http_sys) : result unit * http_sys :=
  let location_uri := parse_uri find_parameters location in
  let resolved_uri := resolve_uri (Some (ht_uri (hs_tx x))) location_uri in
  call (hx_redirect resolved_uri) x.

Definition http_basic_authenticate (x : http_sys) : result unit * http_sys :=
  match user (ht_uri (hs_tx x)) with
  | None => (Err EACCES, x)
  | Some u =>
    let password := default [] (password (ht_uri (hs_tx x))) in
    let auth a := RequestAuth (ra_auth a) (Some u) password (ra_qop a) (ra_algorithm a) (ra_cnonce a) (ra_response a) in
    (Ok tt, on_tx (fun h => set_ht_request (set_req_auth (auth (req_auth (ht_request h))) (ht_request h)) h) x)
  end.

(** The message so far and a string, with a colon between them unless there is
    no message. *)
Definition http_digest_update (ctx s : list Z) : list Z := if decide (ctx = []) then ctx ++ s else ctx ++ [58] ++ s.

Definition http_digest_final (ctx : list Z) : list Z :=
  let digest := http_md5 ctx in
  match base16_encode digest (replicate (2 * length digest + 1) 0) with
  | Some (n, encoded) => take (Z.to_nat n) encoded
  | None => []
  end.

Definition http_digest_strings (l : list (list Z)) : list Z := http_digest_final (foldl http_digest_update [] l).

Definition http_digest_authenticate (x : http_sys) : result unit * http_sys :=
  let rsp := ht_response (hs_tx x) in
  let req := ht_request (hs_tx x) in
  match rs_realm rsp, rs_nonce rsp, user (ht_uri (hs_tx x)) with
  | None, _, _ => (Err EINVAL, x)
  | _, None, _ => (Err EINVAL, x)
  | _, _, None => (Err EACCES, x)
  | Some realm, Some nonce, Some username =>
    let password := default [] (password (ht_uri (hs_tx x))) in
    let '(qop, cnonce, algorithm, x) :=
      match rs_qop rsp with
      | None => (ra_qop (req_auth req), ra_cnonce (req_auth req), ra_algorithm (req_auth req), x)
      | Some _ =>
        let (r, x) := call http_random x in
        let md5sess := match rs_algorithm rsp with Some a => same_name a (lit "MD5-sess") | None => false end in
        (Some (lit "auth"), take 8 (text (lit "%08lx") [VInt r]), Some (if md5sess then lit "MD5-sess" else lit "MD5"), x)
      end in
    let ha1 := http_digest_strings [username; realm; password] in
    let ha1 := if decide (algorithm = Some (lit "MD5-sess")) then http_digest_strings [ha1; nonce; cnonce] else ha1 in
    let ha2 := http_digest_strings [method_name (req_method req); req_uri req] in
    let fields := match qop with Some qop => [HTTP_DIGEST_NC; cnonce; qop] | None => [] end in
    let response := http_digest_strings ([ha1; nonce] ++ fields ++ [ha2]) in
    (Ok tt, on_tx (set_ht_request (set_req_auth (RequestAuth (ra_auth (req_auth req)) (Some username) (ra_password (req_auth req)) qop algorithm cnonce response) req)) x)
  end.

Definition http_authenticate (auth : http_authentication) (x : http_sys) : result unit * http_sys :=
  match auth with
  | http_basic_auth => http_basic_authenticate x
  | http_digest_auth => http_digest_authenticate x
  end.

Definition TICKS_PER_SEC : Z := 1024.

(** Closing the transfer-decoded interface closes the content-decoded one, and
    with it the transaction. *)
Definition http_transfer_complete (x : http_sys) : result unit * http_sys :=
  let rsp := ht_response (hs_tx x) in
  let x := if has_flag HTTP_RESPONSE_KEEPALIVE rsp then on_world hc_recycle x else x in
  let x := on_world (hc_close (Ok tt)) x in
  let x := on_tx (set_ht_state HTTP_CLOSED) x in
  match rs_rc rsp with
  | Ok _ => (Ok tt, http_close (Ok tt) x)
  | Err rc =>
    match rs_location rsp with
    | Some location =>
      match http_redirect location x with
      | (Err rc, x) => (Err rc, x)
      | (Ok _, x) => (Ok tt, http_close (Ok tt) x)
      end
    | None =>
      if negb (has_flag HTTP_RESPONSE_RETRY rsp) then (Err rc, x) else
      match match rs_auth rsp with
            | None => (Ok tt, x)
            | Some auth => http_authenticate auth (on_tx (fun h => set_ht_request (set_req_auth (set_ra_auth (Some auth) (req_auth (ht_request h))) (ht_request h)) h) x)
            end with
      | (Err rc, x) => (Err rc, x)
      | (Ok _, x) =>
        let x := on_tx (set_ht_len 0) x in
        if decide (rs_retry_after rsp = 0) then (Ok tt, http_reopen x)
        else (Ok tt, on_tx (set_ht_timer (Some (u32 (rs_retry_after rsp * TICKS_PER_SEC)))) x)
      end
    end
  end.

(** ** Requests *)

Definition crlf : list Z := [13; 10].

Definition http_format_host (h : http_transaction) : list Z := text (lit "%s") [VStr (Some (req_host (ht_request h)))].
Definition http_format_user_agent (h : http_transaction) : list Z := text (lit "iPXE/%s") [VStr (Some product_version)].
Definition http_format_connection (h : http_transaction) : list Z := lit "keep-alive".

Definition http_format_range (h : http_transaction) : list Z :=
  let r := ht_request h in
  if decide (req_range_len r <> 0) then text (lit "bytes=%zd-%zd") [VInt (req_range_start r); VInt (u64 (req_range_start r + req_range_len r - 1))] else [].

Definition http_format_content_type (h : http_transaction) : list Z :=
  match req_content_type (ht_request h) with Some t => text (lit "%s") [VStr (Some t)] | None => [] end.

Definition http_format_content_length (h : http_transaction) : list Z :=
  let len := Z.of_nat (length (req_content (ht_request h))) in if decide (len <> 0) then text (lit "%zd") [VInt len] else [].

(** No content encoding is configured. *)
Definition http_format_accept_encoding (h : http_transaction) : list Z := [].

Definition http_format_basic_auth (h : http_transaction) : list Z :=
  let a := req_auth (ht_request h) in
  let user_pw := text (lit "%s:%s") [VStr (ra_username a); VStr (Some (ra_password a))] in
  let (used, encoded) := base64_encode user_pw (replicate (Z.to_nat (base64_encoded_len (Z.of_nat (length user_pw)) + 1)) 0) in take used encoded.

Definition http_format_digest_auth (h : http_transaction) : list Z :=
  let req := ht_request h in
  let a := req_auth req in
  let rsp := ht_response h in
  let q s := [34] ++ s ++ [34] in
  text (lit "realm=" ++ q (lit "%s") ++ lit ", nonce=" ++ q (lit "%s") ++ lit ", uri=" ++ q (lit "%s") ++ lit ", username=" ++ q (lit "%s"))
       [VStr (rs_realm rsp); VStr (rs_nonce rsp); VStr (Some (req_uri req)); VStr (ra_username a)]
  ++ (match rs_opaque rsp with Some o => text (lit ", opaque=" ++ q (lit "%s")) [VStr (Some o)] | None => [] end)
  ++ (match ra_qop a with
      | Some qop => text (lit ", qop=%s, algorithm=%s, cnonce=" ++ q (lit "%s") ++ lit ", nc=" ++ HTTP_DIGEST_NC) [VStr (Some qop); VStr (ra_algorithm a); VStr (Some (ra_cnonce a))]
      | None => []
      end)
  ++ text (lit ", response=" ++ q (lit "%s")) [VStr (Some (ra_response a))].

Definition http_format_authorization (h : http_transaction) : list Z :=
  match ra_auth (req_auth (ht_request h)) with
  | None => []
  | Some auth =>
    text (lit "%s ") [VStr (Some (auth_name auth))] ++ match auth with http_basic_auth => http_format_basic_auth h | http_digest_auth => http_format_digest_auth h end
  end.

(** The table of request headers, in the order of the sources. *)
Definition http_request_headers (h : http_transaction) : list (list Z * list Z) :=
  [(lit "Host", http_format_host h); (lit "User-Agent", http_format_user_agent h); (lit "Connection", http_format_connection h);
   (lit "Range", http_format_range h); (lit "Content-Type", http_format_content_type h); (lit "Content-Length", http_format_content_length h);
   (lit "Accept-Encoding", http_format_accept_encoding h); (lit "Authorization", http_format_authorization h)].

Definition format_header (header : list Z * list Z) : list Z :=
  if decide (header.2 = []) then [] else text (lit "%s: ") [VStr (Some header.1)] ++ header.2 ++ crlf.

(** The text that the two passes put in a buffer of its length. *)
Definition http_format_headers (h : http_transaction) : list Z :=
  text (lit "%s %s HTTP/1.1") [VStr (Some (method_name (req_method (ht_request h)))); VStr (Some (req_uri (ht_request h)))] ++ crlf
  ++ concat (map format_header (http_request_headers h)) ++ crlf.

Definition http_tx_request (x : http_sys) : result unit * http_sys :=
  let h := hs_tx x in
  match call http_alloc x with
  | (false, x) => (Err ENOMEM, x)
  | (true, x) =>
    match call (hc_deliver (http_format_headers h ++ req_content (ht_request h))) x with
    | (Err rc, x) => (Err rc, x)
    | (Ok _, x) => (Ok tt, on_tx (fun h => set_ht_state HTTP_HEADERS (set_ht_response no_response h)) x)
    end
  end.

Definition http_step (x : http_sys) : http_sys :=
  match ht_state (hs_tx x) with
  | HTTP_REQUEST =>
    if decide (hc_window (hs_world x) = 0) then x else
    let x := on_world hx_window_changed x in
    if decide (hx_window (hs_world x) = 0) then x else
    match http_tx_request x with
    | (Err rc, x) => http_close (Err rc) x
    | (Ok _, x) => x
    end
  | _ => x
  end.

(** The process runs once each time it is scheduled. *)
Definition http_process (x : http_sys) : http_sys := http_step (on_tx (set_ht_process false) x).

(** ** Reception

    A handler returns the data that is left, none when it took the buffer. *)

Definition http_rx_linebuf (iobuf : list Z) (lb : line_buffer_state) (x : http_sys) : result (list Z * line_buffer_state) * http_sys :=
  let (ok, x) := call http_alloc x in
  match line_buffer ok iobuf lb with
  | (Err rc, _) => (Err rc, x)
  | (Ok consumed, lb) => (Ok (drop (Z.to_nat consumed) iobuf, lb), x)
  end.

Definition http_init_transfer_identity (x : http_sys) : result unit * http_sys :=
  let rsp := ht_response (hs_tx x) in
  if has_flag HTTP_RESPONSE_CONTENT_LEN rsp && bool_decide (rs_content_len rsp = 0) then http_transfer_complete x else (Ok tt, x).

Definition http_init_transfer_chunked (x : http_sys) : result unit * http_sys := (Ok tt, x).

Definition http_rx_headers (iobuf : list Z) (x : http_sys) : result (list Z) * http_sys :=
  match http_rx_linebuf iobuf (rs_headers (ht_response (hs_tx x))) x with
  | (Err rc, x) => (Err rc, x)
  | (Ok (iobuf, lb), x) =>
    let x := on_response (set_rs_headers lb) x in
    match buffered_line lb with
    | Some [] =>
      let (r, rsp) := http_parse_headers (ht_request (hs_tx x)) (ht_response (hs_tx x)) in
      let x := on_tx (set_ht_response rsp) x in
      match r with
      | Err rc => (Err rc, x)
      | Ok _ =>
        let x := if decide (rs_content_len rsp <> 0) then http_content_seek 0 (http_content_seek (rs_content_len rsp) x) else x in
        let left (r : result unit * http_sys) := match r with (Ok _, x) => (Ok iobuf, x) | (Err rc, x) => (Err rc, x) end in
        if decide (req_method (ht_request (hs_tx x)) = http_head) then left (http_transfer_complete x) else
        match default http_transfer_identity (rs_transfer rsp) with
        | http_transfer_identity =>
          left (http_init_transfer_identity (on_tx (set_ht_state HTTP_IDENTITY) (on_response (set_rs_transfer (Some http_transfer_identity)) x)))
        | http_transfer_chunked =>
          left (http_init_transfer_chunked (on_tx (set_ht_state HTTP_CHUNKED) (on_response (set_rs_transfer (Some http_transfer_chunked)) x)))
        end
      end
    | _ => (Ok iobuf, x)
    end
  end.

Definition http_rx_transfer_identity (iobuf : list Z) (x : http_sys) : result (list Z) * http_sys :=
  let x := on_tx (fun h => set_ht_len (u64 (ht_len h + Z.of_nat (length iobuf))) h) x in
  let rsp := ht_response (hs_tx x) in
  if has_flag HTTP_RESPONSE_CONTENT_LEN rsp && bool_decide (rs_content_len rsp < ht_len (hs_tx x)) then (Err EIO, x) else
  match http_content_deliver iobuf x with
  | (Err rc, x) => (Err rc, x)
  | (Ok _, x) =>
    if has_flag HTTP_RESPONSE_CONTENT_LEN rsp && bool_decide (ht_len (hs_tx x) = rs_content_len rsp)
    then match http_transfer_complete x with (Err rc, x) => (Err rc, x) | (Ok _, x) => (Ok [], x) end
    else (Ok [], x)
  end.

(** The number of a content length mismatch is positive in the source, an error
    all the same. *)
Definition http_close_transfer_identity (rc : result unit) (x : http_sys) : http_sys :=
  match rc with
  | Err rc => http_close (Err rc) x
  | Ok _ =>
    if has_flag HTTP_RESPONSE_CONTENT_LEN (ht_response (hs_tx x)) then http_close (Err EIO) x else
    match http_transfer_complete x with
    | (Err rc, x) => http_close (Err rc) x
    | (Ok _, x) => x
    end
  end.

Definition http_rx_chunk_len (iobuf : list Z) (x : http_sys) : result (list Z) * http_sys :=
  match http_rx_linebuf iobuf (ht_linebuf (hs_tx x)) x with
  | (Err rc, x) => (Err rc, x)
  | (Ok (iobuf, lb), x) =>
    let x := on_tx (set_ht_linebuf lb) x in
    match buffered_line lb with
    | None | Some [] => (Ok iobuf, x)
    | Some line =>
      let (remaining, endp) := strtoul_string line 16 in
      let x := on_tx (set_ht_remaining remaining) x in
      if decide (endp <> []) then (Err EINVAL, x) else
      let x := on_tx (set_ht_linebuf empty_line_buffer) x in
      let len := u64 (ht_len (hs_tx x) + remaining) in
      let x := http_content_seek (ht_len (hs_tx x)) (http_content_seek len x) in
      (Ok iobuf, if decide (remaining = 0) then on_tx (set_ht_state HTTP_TRAILERS) x else x)
    end
  end.

Definition http_rx_chunk_data (iobuf : list Z) (x : http_sys) : result (list Z) * http_sys :=
  let remaining := ht_remaining (hs_tx x) in
  let iobuf :=
    if decide (Z.of_nat (length iobuf) = u64 (remaining + 2) /\ drop (Z.to_nat remaining) iobuf = crlf)
    then take (Z.to_nat remaining) iobuf else iobuf in
  let len := Z.of_nat (length iobuf) in
  let deliver payload left x := match http_content_deliver payload x with (Err rc, x) => (Err rc, x) | (Ok _, x) => (Ok left, x) end in
  if decide (len <= remaining) then
    deliver iobuf [] (on_tx (fun h => set_ht_remaining (remaining - len) (set_ht_len (u64 (ht_len h + len)) h)) x)
  else
    match call http_alloc x with
    | (false, x) => (Err ENOMEM, x)
    | (true, x) =>
      deliver (take (Z.to_nat remaining) iobuf) (drop (Z.to_nat remaining) iobuf) (on_tx (fun h => set_ht_remaining 0 (set_ht_len (u64 (ht_len h + remaining)) h)) x)
    end.

Definition http_rx_transfer_chunked (iobuf : list Z) (x : http_sys) : result (list Z) * http_sys :=
  if decide (ht_remaining (hs_tx x) <> 0) then http_rx_chunk_data iobuf x else http_rx_chunk_len iobuf x.

Definition http_rx_trailers (iobuf : list Z) (x : http_sys) : result (list Z) * http_sys :=
  match http_rx_linebuf iobuf (ht_linebuf (hs_tx x)) x with
  | (Err rc, x) => (Err rc, x)
  | (Ok (iobuf, lb), x) =>
    let x := on_tx (set_ht_linebuf lb) x in
    match buffered_line lb with
    | Some [] =>
      match http_transfer_complete (on_tx (set_ht_linebuf empty_line_buffer) x) with
      | (Err rc, x) => (Err rc, x)
      | (Ok _, x) => (Ok iobuf, x)
      end
    | _ => (Ok iobuf, x)
    end
  end.

(** The receive method of the state. *)
Definition http_rx (iobuf : list Z) (x : http_sys) : result (list Z) * http_sys :=
  match ht_state (hs_tx x) with
  | HTTP_REQUEST | HTTP_CLOSED => (Err EPROTO, x)
  | HTTP_HEADERS => http_rx_headers iobuf x
  | HTTP_IDENTITY => http_rx_transfer_identity iobuf x
  | HTTP_CHUNKED => http_rx_transfer_chunked iobuf x
  | HTTP_TRAILERS => http_rx_trailers iobuf x
  end.

(** Every round takes at least one byte, so that fuel for the length of the
    data is enough. *)
Fixpoint deliver_loop (fuel : nat) (iobuf : list Z) (x : http_sys) : option (result unit * http_sys) :=
  match iobuf with
  | [] => Some (Ok tt, x)
  | _ =>
    match fuel with
    | O => None
    | S fuel =>
      match http_rx iobuf x with
      | (Err rc, x) => Some (Err rc, http_close (Err rc) x)
      | (Ok iobuf, x) => deliver_loop fuel iobuf x
      end
    end
  end.

Definition http_conn_deliver (iobuf : list Z) (x : http_sys) : option (result unit * http_sys) := deliver_loop (length iobuf) iobuf x.

(** A closed transaction has no close method; the interface is not plugged in
    any more. *)
Definition http_conn_close (rc : result unit) (x : http_sys) : http_sys :=
  let x := on_world (hc_close rc) x in
  match ht_state (hs_tx x) with
  | HTTP_IDENTITY => http_close_transfer_identity rc x
  | HTTP_REQUEST | HTTP_HEADERS | HTTP_CHUNKED | HTTP_TRAILERS => http_close_error rc x
  | HTTP_CLOSED => x
  end.

(** ** Opening *)

Definition plain_uri (path : option (list Z)) (query host port : option (list Z)) : uri := Uri None None None None host port path query None None.

Definition http_open (method : http_method) (u : uri) (range : option (Z * Z)) (content : option (list Z * list Z)) (w : W) : result http_sys * W :=
  let request_uri := format_uri_alloc (Some (plain_uri (Some (default (lit "/") (path u))) (query u) None None)) in
  let request_host := format_uri_alloc (Some (plain_uri None None (host u) (port u))) in
  let (ok, w) := http_alloc w in
  if negb ok then (Err ENOMEM, w) else
  let (start, len) := default (0, 0) range in
  let request := Request method request_uri request_host start len (fst <$> content) (default [] (snd <$> content)) no_auth in
  let h := Http u request no_response HTTP_REQUEST 0 0 empty_line_buffer true None None in
  match hc_connect u w with
  | (Err rc, w) => (Err rc, w)
  | (Ok _, w) => (Ok (HttpSys h w), w)
  end.

Definition http_open_get_uri (u : uri) (w : W) : result http_sys * W := http_open http_get u None None w.

(** A character at the current position, if there is room. *)
Definition put_char (c : Z) (o : nat * list Z) : nat * list Z :=
  let '(used, buf) := o in (S used, if decide (used < length buf)%nat then <[used := c]> buf else buf).

Fixpoint params_loop (parameters : list (list Z * list Z)) (o : nat * list Z) : nat * list Z :=
  match parameters with
  | [] => o
  | (key, value) :: parameters =>
    let o := if decide (o.1 <> 0%nat) then put_char 38 o else o in
    let o := uri_encode URI_SCHEME key o in
    let o := put_char 61 o in
    let o := uri_encode URI_SCHEME value o in
    params_loop parameters o
  end.

(** The length, and the string in a buffer. *)
Definition http_params (parameters : list (list Z * list Z)) (buf : list Z) : nat * list Z := terminate (params_loop parameters (O, buf)).

Definition http_open_post_uri (parameters : list (list Z * list Z)) (u : uri) (w : W) : result http_sys * W :=
  let len := (http_params parameters []).1 in
  let (ok, w) := http_alloc w in
  if negb ok then (Err ENOMEM, w) else
  let data := take len (http_params parameters (replicate (len + 1) 0)).2 in
  http_open http_post u None (Some (lit "application/x-www-form-urlencoded", data)) w.

Definition http_open_uri (u : uri) (w : W) : result http_sys * W :=
  match params u with
  | Some n => http_open_post_uri (parameter_list n) u w
  | None => http_open_get_uri u w
  end.

End http.
