(* ===== verification/HttpRx.v ===== *)
(** * Reception of HTTP responses (theorems on Http)

    A response that is cut into any segments is received: its header lines are
    those that were sent, and the content, of a given length, in chunks with
    trailers or up to the end of the connection, reaches the recipient exactly
    and in order ([deliver_segments_ok], [expects_end]); the end of the
    connection is an error while more is expected ([http_conn_close_early]). *)

From S2P Require Import Prelude CMem Strings Vsprintf Encoding Uri Linebuf Http.

(** ** What the environment does *)

(** What the recipient has, as far as it is complete, where the next data goes,
    and what was sent over the connection.  Data at the end of what the
    recipient has is accepted, as is everything that is sent; nothing else
    changes the two.  There is memory, and room for a request. *)
Class HttpRecipient (W : Type) `{HttpEnv W} := {
  received : W -> list Z;
  position : W -> Z;
  sent : W -> list Z;
  hx_deliver_ok w d : position w = Z.of_nat (length (received w)) ->
    exists w', hx_deliver d w = (Ok tt, w') /\ received w' = received w ++ d /\ position w' = Z.of_nat (length (received w ++ d));
  hx_seek_ok w offset : received (hx_seek offset w) = received w /\ position (hx_seek offset w) = offset;
  http_alloc_ok w : exists w', http_alloc w = (true, w') /\ received w' = received w /\ position w' = position w /\ sent w' = sent w;
  hc_connect_ok u w : exists w', hc_connect u w = (Ok tt, w') /\ received w' = received w /\ position w' = position w /\ sent w' = sent w;
  hc_deliver_ok w d : exists w', hc_deliver d w = (Ok tt, w') /\ received w' = received w /\ position w' = position w /\ sent w' = sent w ++ d;
  hc_window_ok w : hc_window w <> 0;
  hx_window_ok w : hx_window w <> 0;
  hx_window_changed_ok w : received (hx_window_changed w) = received w /\ position (hx_window_changed w) = position w /\ sent (hx_window_changed w) = sent w;
  hc_recycle_ok w : received (hc_recycle w) = received w;
  hc_close_ok w rc : received (hc_close rc w) = received w;
  hx_close_ok w rc : received (hx_close rc w) = received w;
}.

(** ** Lines *)

Lemma first_newline (a b c d : list Z) :
  Forall (fun x => x <> 10) a -> Forall (fun x => x <> 10) c -> a ++ 10 :: b = c ++ 10 :: d -> a = c /\ b = d.
Proof.
  intros Ha. revert c. induction Ha as [|x a Hx Ha IH]; intros [|y c] Hc E; cbn [app] in E.
  - by simplify_eq.
  - apply Forall_cons in Hc as [Hy _]. by simplify_eq.
  - by simplify_eq.
  - apply Forall_cons in Hc as [_ Hc]. injection E as -> E. destruct (IH c Hc E) as [-> ->]. done.
Qed.

Lemma split_newline (l : list Z) : Forall (fun x => x <> 10) l \/ exists p rest, l = p ++ 10 :: rest /\ Forall (fun x => x <> 10) p.
Proof.
  induction l as [|x l IH]; [left; by apply Forall_nil_2|]. destruct (decide (x = 10)) as [->|Hx]; [right; exists [], l; split; [done|by apply Forall_nil_2]|].
  destruct IH as [Hl|(p & rest & -> & Hp)]; [left; by apply Forall_cons_2|right]. exists (x :: p), rest. split; [done|by apply Forall_cons_2].
Qed.

Lemma prefix_newline (a b c d : list Z) : Forall (fun x => x <> 10) a -> a ++ b = c ++ 10 :: d -> exists k, c = a ++ k.
Proof.
  intros Ha. revert c. induction Ha as [|x a Hx Ha IH]; intros c E; [by exists c|]. destruct c as [|y c]; [by simplify_eq|]. injection E as -> E. destruct (IH c E) as [k ->]. by exists k.
Qed.

(** A segment of lines: it continues the first line, or completes it. *)
Lemma lines_segment part iobuf rest l tail :
  line_ok part -> line_ok l -> part ++ iobuf ++ rest = wire l ++ tail ->
  (line_ok iobuf /\ line_ok (part ++ iobuf)) \/ exists p iobuf', iobuf = p ++ 10 :: iobuf' /\ line_ok p /\ part ++ p = l ++ [13] /\ iobuf' ++ rest = tail.
Proof.
  intros Hp Hl E. assert (line_ok (l ++ [13])) as Hl' by (apply Forall_app; split; [done|by apply Forall_cons_2]).
  assert (wire l ++ tail = (l ++ [13]) ++ 10 :: tail) as Ew by (unfold wire; by rewrite <- !app_assoc). rewrite Ew in E. destruct (split_newline iobuf) as [Hn|(p & iobuf' & -> & Hn)].
  - left. rewrite app_assoc in E. destruct (prefix_newline (part ++ iobuf) rest (l ++ [13]) tail) as [k Hk]; [apply Forall_app; split; [by apply line_ok_eol|done]|done|].
    rewrite Hk in Hl'. apply Forall_app in Hl' as [Hok _]. split; [by apply Forall_app in Hok as [_ ?]|done].
  - right. exists p, iobuf'. rewrite <- app_assoc in E. cbn [app] in E. rewrite app_assoc in E. apply first_newline in E as [E1 E2]; [|apply Forall_app; split; [by apply line_ok_eol|done]|by apply line_ok_eol].
    split_and!; [done| |done|done]. rewrite <- E1 in Hl'. by apply Forall_app in Hl' as [_ ?].
Qed.

(** ** Responses *)

Definition lines_bytes (ls : list (list Z)) : list Z := concat (map wire ls).

(** A chunk: the digits of its length, and its data. *)
Record chunk := Chunk { chunk_digits : list Z; chunk_data : list Z }.

Definition chunk_ok (c : chunk) : Prop :=
  Forall (fun d => 0 <= d < 16) (chunk_digits c) /\ chunk_digits c <> [] /\ digits_value 16 0 (chunk_digits c) = Z.of_nat (length (chunk_data c)) /\ chunk_data c <> [].

Definition chunk_bytes (c : chunk) : list Z := wire (map digit_char (chunk_digits c)) ++ chunk_data c ++ crlf.

Definition trailer_ok (l : list Z) : Prop := line_ok l /\ l <> [].

(** The chunks, the last one, of length zero, and the trailers. *)
Definition chunked_bytes (chunks : list chunk) (zeros : list Z) (trailers : list (list Z)) : list Z :=
  concat (map chunk_bytes chunks) ++ wire (map digit_char zeros) ++ lines_bytes (trailers ++ [[]]).

Definition zeros_ok (zeros : list Z) : Prop := zeros <> [] /\ Forall (fun d => d = 0) zeros.

(** How the bytes behind the headers represent the content: with a content
    length or in chunks ([delimited]), or up to the end of the connection. *)
Inductive framed (delimited : bool) (rsp : http_response) : list Z -> list Z -> Prop :=
| framed_length data :
    rs_transfer rsp = None -> has_flag HTTP_RESPONSE_CONTENT_LEN rsp = delimited -> (delimited = true -> rs_content_len rsp = Z.of_nat (length data)) -> framed delimited rsp data data
| framed_chunked chunks zeros trailers :
    delimited = true ->
    rs_transfer rsp = Some http_transfer_chunked -> Forall chunk_ok chunks -> zeros_ok zeros -> Forall trailer_ok trailers ->
    framed delimited rsp (chunked_bytes chunks zeros trailers) (concat (map chunk_data chunks)).

(** What header lines mean for a request: the status line, then every header in
    turn. *)
Fixpoint header_lines (req : http_request) (lines : list (list Z)) (r : http_response) : result unit * http_response :=
  match lines with
  | [] => (Ok tt, r)
  | l :: lines => match http_parse_header req l r with (Err rc, r) => (Err rc, r) | (Ok _, r) => header_lines req lines r end
  end.

Definition response_lines (req : http_request) (lines : list (list Z)) (r : http_response) : result unit * http_response :=
  match lines with
  | [] => (Err EINVAL, r)
  | status :: lines => match http_parse_status status r with (Err rc, r) => (Err rc, r) | (Ok _, r) => header_lines req lines r end
  end.

(** A successful response whose headers agree with [P]. *)
Definition head_ok (req : http_request) (lines : list (list Z)) (P : http_response -> Prop) : Prop :=
  exists rsp, response_lines req lines no_response = (Ok tt, rsp) /\ rs_rc rsp = Ok tt /\ P rsp.

(** The headers are not looked at by what records their fields. *)
Definition with_headers (lb : line_buffer_state) (x : result unit * http_response) : result unit * http_response := (x.1, set_rs_headers lb x.2).

Lemma parse_status_headers line lb r : http_parse_status line (set_rs_headers lb r) = with_headers lb (http_parse_status line r).
Proof.
  unfold http_parse_status. destruct (http_token false line) as [[[version v]|] rest]; [|done]. destruct (decide (take 5 version <> lit "HTTP/")); [done|]. destruct (strtoul_string rest 10) as [status endp].
  destruct (decide (head (drop 5 version) = Some 48)), (decide (take 3 (drop 5 version) = lit "1.0")), (decide (head endp <> Some 32)); done.
Qed.

Lemma connection_token_headers lb r t : connection_token (set_rs_headers lb r) t = set_rs_headers lb (connection_token r t).
Proof. unfold connection_token. by destruct (same_name t.1 (lit "keep-alive")), (same_name t.1 (lit "close")). Qed.

Lemma digest_field_headers lb r t : digest_field (set_rs_headers lb r) t = set_rs_headers lb (digest_field r t).
Proof.
  destruct t as [key value]. unfold digest_field.
  by destruct (same_name key (lit "realm")), (same_name key (lit "qop")), (same_name key (lit "algorithm")), (same_name key (lit "nonce")), (same_name key (lit "opaque")).
Qed.

Lemma foldl_headers {A} (f : http_response -> A -> http_response) lb ts r :
  (forall r t, f (set_rs_headers lb r) t = set_rs_headers lb (f r t)) -> foldl f (set_rs_headers lb r) ts = set_rs_headers lb (foldl f r ts).
Proof. intros Hf. revert r. induction ts as [|t ts IH]; intros r; cbn [foldl]; [done|]. by rewrite Hf, IH. Qed.

Lemma allow_retry_headers req lb r : allow_retry req (set_rs_headers lb r) = set_rs_headers lb (allow_retry req r).
Proof. unfold allow_retry. by destruct (ra_auth (req_auth req)). Qed.

Lemma www_authenticate_headers req line lb r : http_parse_www_authenticate req line (set_rs_headers lb r) = with_headers lb (http_parse_www_authenticate req line r).
Proof.
  unfold http_parse_www_authenticate. destruct (http_token false line) as [[[name v]|] rest]; [|done]. change (rs_auth (set_rs_headers lb r)) with (rs_auth r).
  destruct (find_authentication name) as [[]|], (rs_auth r); try done; unfold http_parse_basic_auth, http_parse_digest_auth, with_headers; cbn [fst snd]; f_equal.
  - apply (allow_retry_headers req lb (set_rs_auth (Some http_basic_auth) r)).
  - change (set_rs_auth ?v (set_rs_headers lb r)) with (set_rs_headers lb (set_rs_auth v r)). by rewrite (foldl_headers _ _ _ _ (digest_field_headers lb)), allow_retry_headers.
Qed.

Lemma parse_header_headers req line lb r : http_parse_header req line (set_rs_headers lb r) = with_headers lb (http_parse_header req line r).
Proof.
  unfold http_parse_header. destruct (find_byte 58 line) as [sep|]; [|done]. set (v := skip_spaces _). repeat case_match; try done.
  - unfold http_parse_transfer_encoding. by case_match.
  - unfold http_parse_connection, with_headers. cbn [fst snd]. by rewrite (foldl_headers _ _ _ _ (connection_token_headers lb)).
  - unfold http_parse_content_length. destruct (strtoul_string v 10). by case_decide.
  - unfold http_parse_retry_after. by destruct (strtoul_string v 10).
  - apply www_authenticate_headers.
Qed.

(** The parser of the headers sees the lines. *)
Lemma headers_loop_lines fuel req lb r lines :
  Forall trailer_ok lines -> (length lines < fuel)%nat -> headers_loop fuel req (stored (lines ++ [[]])) (set_rs_headers lb r) = with_headers lb (header_lines req lines r).
Proof.
  intros Hok. revert fuel r. induction Hok as [|l lines [Hl Hne] Hok IH]; intros [|fuel] r Hf; cbn [length] in Hf; try lia; [done|].
  change (stored ((l :: lines) ++ [[]])) with ((l ++ [0]) ++ stored (lines ++ [[]])). cbn [headers_loop header_lines]. rewrite <- app_assoc. cbn [app]. rewrite until_nul_app by (by apply line_ok_nul). rewrite decide_False by done.
  rewrite parse_header_headers. destruct (http_parse_header req l r) as [[[]|rc] r']; cbn [with_headers fst snd]; [|done].
  replace (drop (S (length l)) (l ++ 0 :: stored (lines ++ [[]]))) with (stored (lines ++ [[]])); [apply IH; lia|]. rewrite drop_app_ge by lia. by replace (S (length l) - length l)%nat with 1%nat by lia.
Qed.

Lemma length_stored lines : (length lines <= length (stored lines))%nat.
Proof. induction lines as [|l lines IH]; [done|]. change (stored (l :: lines)) with ((l ++ [0]) ++ stored lines). rewrite !length_app. cbn [length]. lia. Qed.

Lemma parse_headers_lines req lines n :
  Forall trailer_ok lines -> lines <> [] ->
  let lb := LineBuffer (stored (lines ++ [[]])) n in http_parse_headers req (set_rs_headers lb no_response) = with_headers lb (response_lines req lines no_response).
Proof.
  intros Hok Hne lb. destruct lines as [|l lines]; [done|]. apply Forall_cons in Hok as [[Hl Hnl] Hok]. unfold http_parse_headers. change (lb_data (rs_headers (set_rs_headers lb no_response))) with ((l ++ [0]) ++ stored (lines ++ [[]])).
  rewrite <- app_assoc. cbn [app]. rewrite until_nul_app by (by apply line_ok_nul). rewrite parse_status_headers. cbn [response_lines]. destruct (http_parse_status l no_response) as [[[]|rc] r']; cbn [with_headers fst snd]; [|done].
  replace (drop (S (length l)) (l ++ 0 :: stored (lines ++ [[]]))) with (stored (lines ++ [[]])); [|rewrite drop_app_ge by lia; by replace (S (length l) - length l)%nat with 1%nat by lia].
  apply headers_loop_lines; [done|]. pose proof (length_stored (lines ++ [[]])) as Hs. rewrite length_app in *. cbn [length] in *. lia.
Qed.

Lemma framed_headers delimited rsp lb stream content : framed delimited rsp stream content -> framed delimited (set_rs_headers lb rsp) stream content.
Proof. intros []; [by apply framed_length|by apply framed_chunked]. Qed.

Section reception.
Context {W : Type} `{HttpRecipient W}.
Context (delimited : bool) (total : list Z) (Htotal : Z.of_nat (length total) < 2 ^ 62).

(** The recipient has everything but the content to come. *)
Definition progress (content : list Z) (h : http_transaction) (w : W) : Prop :=
  received w ++ content = total /\ position w = Z.of_nat (length (received w)) /\ ht_len h = Z.of_nat (length (received w)) /\
  ht_closed h = None /\ rs_rc (ht_response h) = Ok tt.

(** The transaction expects a stream of bytes. *)
Inductive expects (h : http_transaction) (w : W) : list Z -> Prop :=
| expect_headers before part lines todo tail stream consumed :
    ht_state h = HTTP_HEADERS -> ht_response h = set_rs_headers (LineBuffer (stored before ++ part) consumed) no_response -> ht_remaining h = 0 -> ht_linebuf h = empty_line_buffer ->
    req_method (ht_request h) <> http_head -> progress total h w -> line_ok part -> Forall line_ok todo -> before ++ todo ++ [[]] = lines ++ [[]] -> Forall (fun l => l <> []) todo ->
    part ++ stream = lines_bytes (todo ++ [[]]) ++ tail -> Forall trailer_ok lines -> head_ok (ht_request h) lines (fun rsp => framed delimited rsp tail total) -> expects h w stream
| expect_length data :
    ht_state h = HTTP_IDENTITY -> has_flag HTTP_RESPONSE_CONTENT_LEN (ht_response h) = true -> rs_content_len (ht_response h) = Z.of_nat (length total) -> data <> [] ->
    progress data h w -> expects h w data
| expect_close data :
    ht_state h = HTTP_IDENTITY -> has_flag HTTP_RESPONSE_CONTENT_LEN (ht_response h) = false -> delimited = false -> progress data h w -> expects h w data
| expect_chunk_len empties part eol chunks zeros trailers stream consumed :
    ht_state h = HTTP_CHUNKED -> ht_remaining h = 0 -> ht_linebuf h = LineBuffer (stored empties ++ part) consumed ->
    progress (concat (map chunk_data chunks)) h w -> Forall chunk_ok chunks -> zeros_ok zeros -> Forall trailer_ok trailers ->
    eol = [] \/ eol = crlf -> line_ok part -> part ++ stream = eol ++ chunked_bytes chunks zeros trailers -> expects h w stream
| expect_chunk_data data chunks zeros trailers :
    ht_state h = HTTP_CHUNKED -> ht_remaining h = Z.of_nat (length data) -> ht_linebuf h = empty_line_buffer -> data <> [] ->
    progress (data ++ concat (map chunk_data chunks)) h w -> Forall chunk_ok chunks -> zeros_ok zeros -> Forall trailer_ok trailers ->
    expects h w (data ++ crlf ++ chunked_bytes chunks zeros trailers)
| expect_trailers before part todo stream consumed :
    ht_state h = HTTP_TRAILERS -> ht_linebuf h = LineBuffer (stored before ++ part) consumed -> progress [] h w -> line_ok part -> Forall trailer_ok todo ->
    part ++ stream = lines_bytes (todo ++ [[]]) -> expects h w stream
| expect_nothing :
    ht_state h = HTTP_CLOSED -> ht_closed h = Some (Ok tt) -> received w = total -> expects h w [].

(** One round of the receive loop. *)
Definition round_ok (iobuf rest : list Z) (r : result (list Z) * http_sys) : Prop :=
  exists iobuf' h w, r = (Ok iobuf', HttpSys h w) /\ (length iobuf' < length iobuf)%nat /\ expects h w (iobuf' ++ rest).

Lemma progress_world content h w w' : progress content h w -> received w' = received w -> position w' = position w -> progress content h w'.
Proof. unfold progress. by intros Hp -> ->. Qed.

Lemma http_rx_linebuf_ok iobuf lb n lb' h w :
  line_buffer true iobuf lb = (Ok n, lb') ->
  exists w', http_rx_linebuf iobuf lb (HttpSys h w) = (Ok (drop (Z.to_nat n) iobuf, lb'), HttpSys h w') /\ received w' = received w /\ position w' = position w.
Proof.
  intros E. unfold http_rx_linebuf, call. cbn [hs_world hs_tx]. destruct (http_alloc_ok w) as (w' & -> & R & P & _). rewrite E. by exists w'.
Qed.

Lemma http_transfer_complete_closed h w :
  received w = total -> ht_closed h = None -> rs_rc (ht_response h) = Ok tt ->
  exists h' w', http_transfer_complete (HttpSys h w) = (Ok tt, HttpSys h' w') /\ ht_state h' = HTTP_CLOSED /\ ht_closed h' = Some (Ok tt) /\ received w' = total.
Proof.
  intros Hr Hc Hrc. unfold http_transfer_complete. cbn [hs_tx hs_world]. rewrite Hrc.
  set (x := if has_flag _ _ then _ else _). assert (exists w1, x = HttpSys h w1 /\ received w1 = total) as (w1 & -> & R1).
  { unfold x. destruct (has_flag _ _); [exists (hc_recycle w)|exists w]; (split; [done|]); [by rewrite hc_recycle_ok|done]. }
  unfold http_close, on_tx, on_world. cbn [hs_tx hs_world ht_closed set_ht_timer set_ht_process set_ht_state]. rewrite Hc. eexists _, _. split; [done|].
  split_and!; [done|done|]. cbn [hs_world]. by rewrite hx_close_ok, !hc_close_ok.
Qed.

Lemma http_transfer_complete_ok h w :
  progress [] h w -> exists h' w', http_transfer_complete (HttpSys h w) = (Ok tt, HttpSys h' w') /\ expects h' w' [].
Proof.
  intros (Hr & _ & _ & Hc & Hrc). rewrite app_nil_r in Hr. destruct (http_transfer_complete_closed h w Hr Hc Hrc) as (h' & w' & -> & Hs & Hcl & Hr'). exists h', w'. split; [done|]. by apply expect_nothing.
Qed.

Lemma http_content_deliver_ok h w d content :
  rs_rc (ht_response h) = Ok tt -> ht_closed h = None -> received w ++ d ++ content = total -> position w = Z.of_nat (length (received w)) -> ht_len h = Z.of_nat (length (received w)) + Z.of_nat (length d) ->
  exists w', http_content_deliver d (HttpSys h w) = (Ok tt, HttpSys h w') /\ progress content h w'.
Proof.
  intros Hrc Hc Hr Hp Hl. unfold http_content_deliver, call. cbn [hs_tx hs_world]. rewrite Hrc. destruct (hx_deliver_ok w d Hp) as (w' & -> & R & P). exists w'. split; [done|].
  unfold progress. rewrite R, P, <- app_assoc. split_and!; [done|done|rewrite Hl, length_app; lia|done|done].
Qed.

(** Seeks that end where the data is. *)
Lemma http_content_seek_ok content h w offset :
  progress content h w -> exists w', http_content_seek (ht_len h) (http_content_seek offset (HttpSys h w)) = HttpSys h w' /\ progress content h w'.
Proof.
  intros (Hr & Hp & Hl & Hc & Hrc). unfold http_content_seek. cbn [hs_tx]. rewrite Hrc. unfold on_world. cbn [hs_tx hs_world]. rewrite Hrc. eexists. split; [done|].
  destruct (hx_seek_ok w offset) as [R1 P1]. destruct (hx_seek_ok (hx_seek offset w) (ht_len h)) as [R2 P2]. unfold progress. rewrite R2, R1, P2. done.
Qed.

Lemma lines_bytes_cons l ls : lines_bytes (l :: ls) = wire l ++ lines_bytes ls.
Proof. done. Qed.

Lemma lines_bytes_head todo tail : exists l ls, todo ++ [[]] = l :: ls /\ lines_bytes (todo ++ [[]]) ++ tail = wire l ++ lines_bytes ls ++ tail.
Proof. destruct todo as [|l todo]; eexists _, _; (split; [done|]); cbn [app]; by rewrite lines_bytes_cons, <- app_assoc. Qed.

(** A segment goes to a line buffer: it continues the line, or completes it. *)
Lemma linebuf_segment before part consumed iobuf rest l tail h w :
  line_ok part -> line_ok l -> part ++ iobuf ++ rest = wire l ++ tail -> iobuf <> [] ->
  exists w' iobuf' data n, http_rx_linebuf iobuf (LineBuffer (stored before ++ part) consumed) (HttpSys h w) = (Ok (iobuf', LineBuffer data n), HttpSys h w') /\
    received w' = received w /\ position w' = position w /\ (length iobuf' < length iobuf)%nat /\
    ((iobuf' = [] /\ buffered_line (LineBuffer data n) = None /\ data = stored before ++ part ++ iobuf /\ line_ok (part ++ iobuf)) \/
     (buffered_line (LineBuffer data n) = Some l /\ data = stored (before ++ [l]) /\ iobuf' ++ rest = tail)).
Proof.
  intros Hpart Hl E Hne. destruct (lines_segment _ _ _ _ _ Hpart Hl E) as [[Hi Hpi]|(p & iobuf' & -> & Hpl & Ep & Erest)].
  - destruct (line_buffer_part (stored before ++ part) iobuf consumed Hi) as [Elb Enone]. destruct (http_rx_linebuf_ok _ _ _ _ h w Elb) as (w' & -> & R & P).
    eexists w', [], _, _. rewrite drop_ge by lia. split; [done|]. split_and!; [done|done|destruct iobuf; [done|cbn; lia]|]. left. rewrite <- app_assoc in *. by split_and!; [|apply Enone| |].
  - destruct (line_buffer_line before part p iobuf' consumed l Hpl Ep) as [Elb Eline]; [by apply line_ok_nul|]. destruct (http_rx_linebuf_ok _ _ _ _ h w Elb) as (w' & -> & R & P).
    assert (drop (Z.to_nat (Z.of_nat (S (length p)))) (p ++ 10 :: iobuf') = iobuf') as -> by (rewrite Nat2Z.id, drop_app_ge by lia; by replace (S (length p) - length p)%nat with 1%nat by lia).
    eexists w', iobuf', _, _. split; [done|]. split_and!; [done|done|rewrite length_app; cbn; lia|]. by right.
Qed.

(** Trailers, up to the empty line. *)
Lemma http_rx_trailers_ok h w before part todo iobuf rest consumed :
  ht_state h = HTTP_TRAILERS -> ht_linebuf h = LineBuffer (stored before ++ part) consumed -> progress [] h w -> line_ok part -> Forall trailer_ok todo ->
  part ++ iobuf ++ rest = lines_bytes (todo ++ [[]]) -> iobuf <> [] -> round_ok iobuf rest (http_rx_trailers iobuf (HttpSys h w)).
Proof.
  intros Hs Hlb Hp Hpart Htodo E Hne. unfold http_rx_trailers, round_ok. cbn [hs_tx]. rewrite Hlb. destruct (lines_bytes_head todo []) as (l & ls & El & Eb). rewrite !app_nil_r in Eb. rewrite Eb in E.
  assert (line_ok l) as Hl by (destruct todo as [|l0 todo]; injection El as <- <-; [by apply Forall_nil_2|by apply Forall_cons in Htodo as [[] _]]).
  destruct (linebuf_segment before part consumed iobuf rest l _ h w Hpart Hl E Hne) as (w' & iobuf' & data & n & -> & R & P & Hlen & Hcase). pose proof (progress_world _ _ _ _ Hp R P) as Hp'.
  destruct Hcase as [(-> & -> & -> & Hpi)|(-> & -> & Erest)].
  - exists [], (set_ht_linebuf (LineBuffer (stored before ++ part ++ iobuf) n) h), w'. split_and!; [done|done|].
    apply (expect_trailers _ _ before (part ++ iobuf) todo _ n); [done|done|exact Hp'|done|done|]. cbn [app]. rewrite <- app_assoc, E. by rewrite <- Eb.
  - destruct todo as [|l0 todo]; injection El as <- <-.
    + destruct (http_transfer_complete_ok (set_ht_linebuf empty_line_buffer (set_ht_linebuf (LineBuffer (stored (before ++ [[]])) n) h)) w') as (h' & w2 & Ec & Hexp); [exact Hp'|].
      unfold on_tx. cbn [hs_tx hs_world]. rewrite Ec. exists iobuf', h', w2. split_and!; [done|done|]. cbn [lines_bytes map concat] in Erest. by rewrite Erest.
    + apply Forall_cons in Htodo as [[_ Hne0] Htodo]. destruct l0 as [|c l0]; [done|]. eexists iobuf', _, w'. split_and!; [done|done|].
      apply (expect_trailers _ _ (before ++ [c :: l0]) [] todo _ n); [done|cbn; by rewrite app_nil_r|exact Hp'|by apply Forall_nil_2|done|done].
Qed.

Lemma http_rx_identity_ok h w iobuf rest :
  ht_state h = HTTP_IDENTITY -> has_flag HTTP_RESPONSE_CONTENT_LEN (ht_response h) = true -> rs_content_len (ht_response h) = Z.of_nat (length total) -> iobuf <> [] ->
  progress (iobuf ++ rest) h w -> round_ok iobuf rest (http_rx_transfer_identity iobuf (HttpSys h w)).
Proof.
  intros Hs Hf Hlen Hne (Hr & Hpos & Hl & Hc & Hrc). unfold http_rx_transfer_identity, round_ok, on_tx. cbn [hs_tx hs_world ht_len set_ht_len ht_response].
  assert (Z.of_nat (length (received w)) + Z.of_nat (length iobuf) + Z.of_nat (length rest) = Z.of_nat (length total)) as Hsum by (rewrite <- Hr, !length_app; lia).
  rewrite Hl, (wrap_small 64) by (unfold in_width; lia). set (h1 := set_ht_len _ h). rewrite Hf, Hlen. rewrite bool_decide_false by lia. cbn [andb].
  destruct (http_content_deliver_ok h1 w iobuf rest Hrc Hc Hr Hpos eq_refl) as (w' & -> & Hp). cbn [hs_tx]. change (ht_len h1) with (Z.of_nat (length (received w)) + Z.of_nat (length iobuf)).
  assert (length (@nil Z) < length iobuf)%nat as Hlt by (destruct iobuf; [done|cbn; lia]). case_bool_decide as He.
  - destruct rest as [|c rest]; [|cbn [length] in Hsum; lia]. destruct (http_transfer_complete_ok h1 w' Hp) as (h2 & w2 & -> & Hexp). by exists [], h2, w2.
  - exists [], h1, w'. split_and!; [done|done|]. apply expect_length; [done|done|done|intros Er; cbn [app] in Er; subst rest; cbn [length] in *; lia|done].
Qed.

(** Data up to the end of the connection. *)
Lemma http_rx_open_end_ok h w iobuf rest :
  ht_state h = HTTP_IDENTITY -> has_flag HTTP_RESPONSE_CONTENT_LEN (ht_response h) = false -> delimited = false -> iobuf <> [] ->
  progress (iobuf ++ rest) h w -> round_ok iobuf rest (http_rx_transfer_identity iobuf (HttpSys h w)).
Proof.
  intros Hs Hf Hdel Hne (Hr & Hpos & Hl & Hc & Hrc). unfold http_rx_transfer_identity, round_ok, on_tx. cbn [hs_tx hs_world ht_len set_ht_len ht_response].
  assert (Z.of_nat (length (received w)) + Z.of_nat (length iobuf) <= Z.of_nat (length total)) as Hsum by (rewrite <- Hr, !length_app; lia).
  rewrite Hl, (wrap_small 64) by (unfold in_width; lia). set (h1 := set_ht_len _ h). rewrite Hf. cbn [andb].
  destruct (http_content_deliver_ok h1 w iobuf rest Hrc Hc Hr Hpos eq_refl) as (w' & -> & Hp). exists [], h1, w'. split_and!; [done|destruct iobuf; [done|cbn; lia]|]. by apply expect_close.
Qed.

Lemma digits_line ds : Forall (fun d => 0 <= d < 16) ds -> line_ok (map digit_char ds).
Proof. intros Hds. apply Forall_map. eapply Forall_impl; [exact Hds|]. intros d Hd. cbv beta in Hd. unfold digit_char. case_decide; lia. Qed.

Lemma zeros_value zeros : Forall (fun d => d = 0) zeros -> digits_value 16 0 zeros = 0.
Proof. induction 1 as [|d zeros -> Hz IH]; [done|exact IH]. Qed.

(** What comes next before a chunk: the end of the last chunk, the length of the
    next one, or of the last one. *)
Lemma chunk_len_line eol chunks zeros trailers :
  eol = [] \/ eol = crlf -> Forall chunk_ok chunks -> zeros_ok zeros ->
  exists l tail, eol ++ chunked_bytes chunks zeros trailers = wire l ++ tail /\ line_ok l /\
    ((l = [] /\ tail = chunked_bytes chunks zeros trailers) \/
     (chunks = [] /\ l = map digit_char zeros /\ tail = lines_bytes (trailers ++ [[]])) \/
     (exists c chunks', chunks = c :: chunks' /\ l = map digit_char (chunk_digits c) /\ tail = chunk_data c ++ crlf ++ chunked_bytes chunks' zeros trailers)).
Proof.
  intros [-> | ->] Hch [_ Hz].
  - destruct chunks as [|c chunks].
    + exists (map digit_char zeros), (lines_bytes (trailers ++ [[]])). split_and!; [done|apply digits_line; eapply Forall_impl; [exact Hz|]; intros ? ->; lia|]. right. by left.
    + apply Forall_cons in Hch as [(Hd & _) Hch]. exists (map digit_char (chunk_digits c)), (chunk_data c ++ crlf ++ chunked_bytes chunks zeros trailers). split_and!; [|by apply digits_line|].
      * unfold chunked_bytes. cbn [map concat app]. unfold chunk_bytes at 1. by rewrite <- !app_assoc.
      * right. right. by exists c, chunks.
  - exists [], (chunked_bytes chunks zeros trailers). split_and!; [done|by apply Forall_nil_2|by left].
Qed.

Lemma http_rx_chunk_len_ok h w empties part eol chunks zeros trailers iobuf rest consumed :
  ht_state h = HTTP_CHUNKED -> ht_remaining h = 0 -> ht_linebuf h = LineBuffer (stored empties ++ part) consumed -> progress (concat (map chunk_data chunks)) h w ->
  Forall chunk_ok chunks -> zeros_ok zeros -> Forall trailer_ok trailers -> eol = [] \/ eol = crlf -> line_ok part ->
  part ++ iobuf ++ rest = eol ++ chunked_bytes chunks zeros trailers -> iobuf <> [] -> round_ok iobuf rest (http_rx_chunk_len iobuf (HttpSys h w)).
Proof.
  intros Hs Hrem Hlb Hp Hch Hz Htr Heol Hpart E Hne. unfold http_rx_chunk_len, round_ok. cbn [hs_tx]. rewrite Hlb. destruct (chunk_len_line eol chunks zeros trailers Heol Hch Hz) as (l & tail & El & Hl & Hcases).
  rewrite El in E. destruct (linebuf_segment empties part consumed iobuf rest l tail h w Hpart Hl E Hne) as (w' & iobuf' & data & n & -> & R & P & Hlen & Hcase). pose proof (progress_world _ _ _ _ Hp R P) as Hp'.
  destruct Hcase as [(-> & -> & -> & Hpi)|(-> & -> & Erest)].
  { eexists [], _, w'. split_and!; [done|done|]. apply (expect_chunk_len _ _ empties (part ++ iobuf) eol chunks zeros trailers _ n); [done|done|done|exact Hp'|done|done|done|done|done|]. cbn [app]. by rewrite <- app_assoc, E, El. }
  unfold on_tx. cbn [hs_tx hs_world]. destruct Hcases as [(-> & ->)|[(-> & -> & ->)|(c & chunks' & -> & -> & ->)]].
  - eexists iobuf', _, w'. split_and!; [done|done|].
    apply (expect_chunk_len _ _ (empties ++ [[]]) [] [] chunks zeros trailers _ n); [done|done|cbn; by rewrite app_nil_r|exact Hp'|done|done|done|by left|by apply Forall_nil_2|done].
  - destruct Hz as [Hz1 Hz2]. destruct zeros as [|z zeros]; [done|]. rewrite strtoul_string_digits by (lia || (eapply Forall_impl; [exact Hz2|]; intros ? ->; lia)). rewrite zeros_value by done. cbn [map]. rewrite decide_False by naive_solver.
    set (h2 := set_ht_linebuf _ _). destruct (http_content_seek_ok [] h2 w' (u64 (ht_len h2 + u64 0)) Hp') as (w2 & -> & Hp2). rewrite decide_True by done. eexists iobuf', _, w2. split_and!; [done|done|].
    apply (expect_trailers _ _ [] [] trailers _ 0); [done|done|exact Hp2|by apply Forall_nil_2|done|done].
  - apply Forall_cons in Hch as [(Hd & Hd0 & Hv & Hne0) Hch]. destruct c as [ds cdata]. cbn [chunk_digits chunk_data map concat] in *. destruct ds as [|d ds]; [done|]. rewrite strtoul_string_digits by (done || lia). rewrite Hv.
    assert (Z.of_nat (length cdata) < 2 ^ 62) as Hc by (destruct Hp as [Hr _]; apply (f_equal length) in Hr; rewrite !length_app in Hr; lia). rewrite (wrap_small 64 (Z.of_nat (length cdata))) by (unfold in_width; lia). cbn [map]. rewrite decide_False by naive_solver.
    set (h2 := set_ht_linebuf _ _). destruct (http_content_seek_ok (cdata ++ concat (map chunk_data chunks')) h2 w' (u64 (ht_len h2 + Z.of_nat (length cdata))) Hp') as (w2 & -> & Hp2).
    rewrite decide_False by (destruct cdata; [done|cbn; lia]). eexists iobuf', _, w2. split_and!; [done|done|]. rewrite Erest. by apply expect_chunk_data.
Qed.

(** A segment of a stream that starts with the data of a chunk. *)
Lemma data_segment (iobuf rest data tail : list Z) :
  iobuf ++ rest = data ++ tail -> (exists data', data = iobuf ++ data' /\ rest = data' ++ tail) \/ exists iobuf', iobuf = data ++ iobuf' /\ iobuf' <> [] /\ iobuf' ++ rest = tail.
Proof.
  intros E. apply app_eq_inv in E as [(k & -> & ->)|(k & -> & ->)]; [|left; by exists k].
  destruct k as [|c k]; [left; exists []; by rewrite !app_nil_r|right; by exists (c :: k)].
Qed.

Lemma http_rx_chunk_data_ok h w data chunks zeros trailers iobuf rest :
  ht_state h = HTTP_CHUNKED -> ht_remaining h = Z.of_nat (length data) -> ht_linebuf h = empty_line_buffer -> data <> [] ->
  progress (data ++ concat (map chunk_data chunks)) h w -> Forall chunk_ok chunks -> zeros_ok zeros -> Forall trailer_ok trailers ->
  iobuf ++ rest = data ++ crlf ++ chunked_bytes chunks zeros trailers -> iobuf <> [] -> round_ok iobuf rest (http_rx_chunk_data iobuf (HttpSys h w)).
Proof.
  intros Hs Hrem Hlb Hne (Hr & Hpos & Hl & Hc & Hrc) Hch Hz Htr E Hi. unfold http_rx_chunk_data, round_ok. cbn [hs_tx hs_world]. rewrite Hrem, Nat2Z.id.
  assert (Z.of_nat (length (received w)) + Z.of_nat (length data) < 2 ^ 62) as Hb by (apply (f_equal length) in Hr; rewrite !length_app in Hr; lia). rewrite (wrap_small 64) by (unfold in_width; lia).
  assert (0 < length data)%nat as Hd0 by (destruct data; [done|cbn; lia]).
  (* What a delivery of [d] leaves to expect. *)
  assert (forall d remaining left content', d ++ content' = data ++ concat (map chunk_data chunks) -> (length d <= length data)%nat ->
    let h1 := set_ht_remaining remaining (set_ht_len (u64 (ht_len h + Z.of_nat (length d))) h) in
    exists w', match http_content_deliver d (HttpSys h1 w) with (Err rc, x) => (Err rc, x) | (Ok _, x) => (Ok left, x) end = (Ok (left : list Z), HttpSys h1 w') /\ progress content' h1 w') as Hdel.
  { intros d remaining left content' Ed Hdl h1. destruct (http_content_deliver_ok h1 w d content') as (w' & -> & Hp); [done|done|by rewrite Ed|done| |by exists w']. cbn. rewrite Hl. apply wrap_small. unfold in_width. lia. }
  destruct (data_segment iobuf rest data _ E) as [(data' & -> & Erest)|(iobuf' & -> & Hne' & Erest)].
  - rewrite length_app in *. rewrite (decide_False (P := _ /\ _)) by (intros [? _]; lia). rewrite decide_True by lia.
    destruct (Hdel iobuf (Z.of_nat (length iobuf + length data') - Z.of_nat (length iobuf)) [] (data' ++ concat (map chunk_data chunks))) as (w' & Ed & Hp); [by rewrite app_assoc|lia|]. unfold on_tx. cbn [hs_tx hs_world]. rewrite Ed.
    eexists [], _, w'. split_and!; [done|destruct iobuf; [done|cbn; lia]|]. cbn [app]. rewrite Erest. destruct data' as [|c data'].
    + apply (expect_chunk_len _ _ [] [] crlf chunks zeros trailers _ 0); [done|cbn [ht_remaining set_ht_remaining length]; lia|done|exact Hp|done|done|done|by right|by apply Forall_nil_2|done].
    + apply expect_chunk_data; [done|cbn [ht_remaining set_ht_remaining]; lia|done|done|exact Hp|done|done|done].
  - rewrite drop_app_length, take_app_length. destruct (decide (Z.of_nat (length (data ++ iobuf')) = Z.of_nat (length data) + 2 /\ iobuf' = crlf)) as [Hstrip|Hstrip].
    + destruct Hstrip as [_ ->]. rewrite decide_True by lia. destruct (Hdel data (Z.of_nat (length data) - Z.of_nat (length data)) [] (concat (map chunk_data chunks))) as (w' & Ed & Hp); [done|lia|]. unfold on_tx. cbn [hs_tx hs_world]. rewrite Ed.
      eexists [], _, w'. split_and!; [done|rewrite length_app; cbn [length]; lia|]. apply app_inv_head in Erest. cbn [app]. rewrite Erest.
      apply (expect_chunk_len _ _ [] [] [] chunks zeros trailers _ 0); [done|cbn [ht_remaining set_ht_remaining]; lia|done|exact Hp|done|done|done|by left|by apply Forall_nil_2|done].
    + assert (0 < length iobuf')%nat by (destruct iobuf'; [done|cbn; lia]). rewrite decide_False by (rewrite length_app; lia). unfold call. cbn [hs_tx hs_world]. destruct (http_alloc_ok w) as (w1 & -> & R1 & P1 & _).
      rewrite take_app_length, drop_app_length. unfold on_tx. cbn [hs_tx hs_world].
      set (h1 := set_ht_remaining 0 _). destruct (http_content_deliver_ok h1 w1 data (concat (map chunk_data chunks))) as (w' & -> & Hp); [done|done|by rewrite R1|by rewrite P1, R1| |].
      { cbn. rewrite R1, Hl. apply wrap_small. unfold in_width. lia. }
      eexists iobuf', _, w'. split_and!; [done|rewrite length_app; lia|]. rewrite Erest.
      apply (expect_chunk_len _ _ [] [] crlf chunks zeros trailers _ 0); [done|done|done|exact Hp|done|done|done|by right|by apply Forall_nil_2|done].
Qed.

(** The empty line ends the headers, and the transfer encoding takes over. *)
Lemma http_rx_content_ok h w rsp iobuf' rest tail :
  received w = [] -> progress total h w -> rs_rc rsp = Ok tt -> framed delimited rsp tail total -> ht_remaining h = 0 -> ht_linebuf h = empty_line_buffer -> iobuf' ++ rest = tail ->
  req_method (ht_request h) <> http_head ->
  let x := HttpSys (set_ht_response rsp h) w in
  let x := if decide (rs_content_len rsp <> 0) then http_content_seek 0 (http_content_seek (rs_content_len rsp) x) else x in
  let left (r : result unit * http_sys) := match r with (Ok _, x) => (Ok iobuf', x) | (Err rc, x) => (Err rc, x) end in
  exists h' w', (if decide (req_method (ht_request (hs_tx x)) = http_head) then left (http_transfer_complete x) else
     match default http_transfer_identity (rs_transfer rsp) with
     | http_transfer_identity => left (http_init_transfer_identity (on_tx (set_ht_state HTTP_IDENTITY) (on_response (set_rs_transfer (Some http_transfer_identity)) x)))
     | http_transfer_chunked => left (http_init_transfer_chunked (on_tx (set_ht_state HTTP_CHUNKED) (on_response (set_rs_transfer (Some http_transfer_chunked)) x)))
     end) = (Ok iobuf', HttpSys h' w') /\ expects h' w' tail.
Proof.
  intros Hr0 (Hr & Hpos & Hl & Hc & _) Hrc Hfr Hrem Hlb Erest Hm x0 x left. assert (progress total (set_ht_response rsp h) w) as Hp by done.
  assert (exists w1, x = HttpSys (set_ht_response rsp h) w1 /\ progress total (set_ht_response rsp h) w1) as (w1 & -> & Hp1).
  { unfold x. case_decide; [|by exists w]. destruct (http_content_seek_ok total (set_ht_response rsp h) w (rs_content_len rsp) Hp) as (w1 & E1 & Hp1). exists w1. split; [|done]. rewrite <- E1. cbn. by rewrite Hl, Hr0. }
  cbn [hs_tx]. rewrite decide_False by done. unfold on_tx, on_response, on_tx. cbn [hs_tx hs_world].
  remember total as content eqn:Etot in Hfr. destruct Hfr as [data Ht Hf Hlen|chunks zeros trailers Hdel Ht Hch Hz Htr]; rewrite Ht; cbn [default from_option id].
  - unfold http_init_transfer_identity. cbn [hs_tx]. set (h2 := set_ht_state HTTP_IDENTITY _). change (has_flag HTTP_RESPONSE_CONTENT_LEN (ht_response h2)) with (has_flag HTTP_RESPONSE_CONTENT_LEN rsp).
    change (rs_content_len (ht_response h2)) with (rs_content_len rsp). assert (delimited = true \/ delimited = false) as [Hdel|Hdel] by (destruct delimited; auto); rewrite Hdel in Hf; rewrite Hf; cbn [andb]; [|exists h2, w1; split; [done|]; subst data; by apply expect_close].
    rewrite Hlen by done. case_bool_decide as Hz0.
    + destruct data; [|cbn [length] in Hz0; lia]. rewrite <- Etot in Hp1. destruct (http_transfer_complete_ok h2 w1 Hp1) as (h3 & w3 & -> & Hexp). by exists h3, w3.
    + exists h2, w1. split; [done|]. subst data. apply expect_length; [done|done|by apply Hlen|intros E0; by rewrite E0 in Hz0|exact Hp1].
  - unfold http_init_transfer_chunked. eexists _, w1. split; [done|].
    apply (expect_chunk_len _ _ [] [] [] chunks zeros trailers _ 0); [done|done|exact Hlb|rewrite Etot; exact Hp1|done|done|done|by left|by apply Forall_nil_2|done].
Qed.

Lemma http_rx_headers_ok h w before part lines todo tail iobuf rest consumed :
  ht_state h = HTTP_HEADERS -> ht_response h = set_rs_headers (LineBuffer (stored before ++ part) consumed) no_response -> ht_remaining h = 0 -> ht_linebuf h = empty_line_buffer ->
  req_method (ht_request h) <> http_head -> progress total h w -> line_ok part -> Forall line_ok todo -> before ++ todo ++ [[]] = lines ++ [[]] -> Forall (fun l => l <> []) todo ->
  part ++ iobuf ++ rest = lines_bytes (todo ++ [[]]) ++ tail -> Forall trailer_ok lines -> head_ok (ht_request h) lines (fun rsp => framed delimited rsp tail total) -> iobuf <> [] ->
  round_ok iobuf rest (http_rx_headers iobuf (HttpSys h w)).
Proof.
  intros Hs Hrsp Hrem Hlb Hm Hp Hpart Htodo Elines Hnone E Hlines Hhead Hne. assert (received w = []) as Hr0.
  { destruct Hp as (Hr & _). apply (f_equal length) in Hr. rewrite length_app in Hr. destruct (received w); [done|cbn in Hr; lia]. }
  unfold http_rx_headers, round_ok. cbn [hs_tx]. rewrite Hrsp. cbn [rs_headers set_rs_headers]. destruct (lines_bytes_head todo tail) as (l & ls & El & Eb). rewrite Eb in E.
  assert (line_ok l) as Hl by (destruct todo as [|l0 todo]; injection El as <- <-; [by apply Forall_nil_2|by apply Forall_cons in Htodo as [? _]]).
  destruct (linebuf_segment before part consumed iobuf rest l _ h w Hpart Hl E Hne) as (w' & iobuf' & data & n & -> & R & P & Hlen & Hcase). pose proof (progress_world _ _ _ _ Hp R P) as Hp'.
  unfold on_response, on_tx. cbn [hs_tx hs_world]. rewrite Hrsp. change (set_rs_headers ?v (set_rs_headers _ no_response)) with (set_rs_headers v no_response). destruct Hcase as [(-> & -> & -> & Hpi)|(-> & -> & Erest)].
  - eexists [], _, w'. split_and!; [done|done|]. apply (expect_headers _ _ before (part ++ iobuf) lines todo tail _ n); [done|done|done|done|done| |done|done|done|done| |done|done].
    + destruct Hp' as (Hr & Hpos & Hl' & Hc & _). done.
    + cbn [app]. by rewrite <- app_assoc, E.
  - destruct todo as [|l0 todo]; injection El as <- <-.
    + apply app_inj_2 in Elines as [-> _]; [|done]. destruct Hhead as (rsp & Eparse & Hrc & Hfr). cbn [ht_request set_ht_response ht_response hs_tx]. rewrite parse_headers_lines by (done || by destruct lines). rewrite Eparse. cbn [with_headers fst snd]. cbn [lines_bytes map concat app] in Erest.
      destruct (http_rx_content_ok (set_ht_response (set_rs_headers (LineBuffer (stored (lines ++ [[]])) n) no_response) h) w' (set_rs_headers (LineBuffer (stored (lines ++ [[]])) n) rsp) iobuf' rest tail) as (h' & w2 & Ec & Hexp); [by rewrite R| |done|by apply framed_headers|done|done|done|done|].
      { destruct Hp' as (Hr & Hpos & Hl' & Hc & _). done. }
      exists iobuf', h', w2. split_and!; [exact Ec|done|by rewrite Erest].
    + apply Forall_cons in Hnone as [Hn0 Hnone]. apply Forall_cons in Htodo as [_ Htodo]. destruct l0 as [|c l0]; [done|]. eexists iobuf', _, w'. split_and!; [done|done|].
      apply (expect_headers _ _ (before ++ [c :: l0]) [] lines todo tail _ n); [done|cbn; by rewrite app_nil_r|done|done|done| |by apply Forall_nil_2|done|by rewrite <- app_assoc|done|done|done|done].
      destruct Hp' as (Hr & Hpos & Hl' & Hc & _). done.
Qed.

Lemma http_rx_ok h w iobuf rest : expects h w (iobuf ++ rest) -> iobuf <> [] -> round_ok iobuf rest (http_rx iobuf (HttpSys h w)).
Proof.
  intros Hexp Hne. unfold http_rx. cbn [hs_tx]. remember (iobuf ++ rest) as stream eqn:Es. destruct Hexp as [before part lines todo tail stream consumed Hs|data Hs|data Hs|empties part eol chunks zeros trailers stream consumed Hs Hrem|data chunks zeros trailers Hs Hrem|before part todo stream consumed Hs|]; try rewrite Hs; subst.
  - by eapply http_rx_headers_ok.
  - by apply http_rx_identity_ok.
  - by apply http_rx_open_end_ok.
  - unfold http_rx_transfer_chunked. cbn [hs_tx]. rewrite decide_False by (rewrite Hrem; lia). by eapply http_rx_chunk_len_ok.
  - unfold http_rx_transfer_chunked. cbn [hs_tx]. rewrite decide_True by (rewrite Hrem; destruct data; [done|cbn; lia]). by eapply http_rx_chunk_data_ok.
  - by eapply http_rx_trailers_ok.
  - by destruct iobuf.
Qed.

Lemma deliver_loop_ok fuel h w iobuf rest :
  (length iobuf <= fuel)%nat -> expects h w (iobuf ++ rest) -> exists h' w', deliver_loop fuel iobuf (HttpSys h w) = Some (Ok tt, HttpSys h' w') /\ expects h' w' rest.
Proof.
  revert h w iobuf. induction fuel as [|fuel IH]; intros h w iobuf Hf Hexp; (destruct iobuf as [|c iobuf]; [by exists h, w|]); [cbn in Hf; lia|].
  destruct (http_rx_ok h w (c :: iobuf) rest Hexp) as (iobuf' & h1 & w1 & E & Hlen & Hexp1); [done|]. cbn [deliver_loop]. rewrite E. apply IH; [cbn [length] in *; lia|done].
Qed.

(** Delivery of segments, one after the other. *)
Fixpoint deliver_segments (segments : list (list Z)) (x : http_sys) : option http_sys :=
  match segments with
  | [] => Some x
  | s :: segments => match http_conn_deliver s x with Some (Ok _, x) => deliver_segments segments x | _ => None end
  end.

Lemma deliver_segments_ok segments rest h w :
  expects h w (concat segments ++ rest) -> exists h' w', deliver_segments segments (HttpSys h w) = Some (HttpSys h' w') /\ expects h' w' rest.
Proof.
  revert h w. induction segments as [|s segments IH]; intros h w Hexp; [by exists h, w|]. cbn [deliver_segments concat] in *. unfold http_conn_deliver. rewrite <- app_assoc in Hexp.
  destruct (deliver_loop_ok (length s) h w s (concat segments ++ rest)) as (h1 & w1 & -> & Hexp1); [done|done|]. by apply IH.
Qed.

Lemma part_not_line l tail part : line_ok part -> part <> wire l ++ tail.
Proof.
  intros Hp ->. apply Forall_app in Hp as [Hp _]. apply Forall_app in Hp as [_ Hp]. apply Forall_cons in Hp as [_ Hp]. by apply Forall_cons in Hp as [[_ ?] _].
Qed.

(** When nothing more comes, the transfer is complete, or ends with the
    connection. *)
Lemma expects_end h w :
  expects h w [] ->
  (ht_state h = HTTP_CLOSED /\ ht_closed h = Some (Ok tt) /\ received w = total) \/
  (ht_state h = HTTP_IDENTITY /\ has_flag HTTP_RESPONSE_CONTENT_LEN (ht_response h) = false /\ delimited = false /\ progress [] h w).
Proof.
  intros Hexp. remember [] as stream eqn:Es. destruct Hexp as [before part lines todo tail stream consumed Hs Hrsp Hrem Hlb Hm Hp Hpart Htodo El Hn E|data Hs Hf Hl Hne|data Hs Hf Hdel Hp|empties part eol chunks zeros trailers stream consumed Hs Hrem Hlb Hp Hch Hz Htr Heol Hpart E|data chunks zeros trailers Hs Hrem Hlb Hne|before part todo stream consumed Hs Hlb Hp Hpart Htodo E|Hs Hc Hr]; subst.
  - destruct (lines_bytes_head todo tail) as (l & ls & _ & Eb). rewrite Eb, app_nil_r in E. by apply part_not_line in E.
  - done.
  - by right.
  - destruct (chunk_len_line eol chunks zeros trailers Heol Hch Hz) as (l & tail & El & _). rewrite El, app_nil_r in E. by apply part_not_line in E.
  - by destruct data.
  - destruct (lines_bytes_head todo []) as (l & ls & _ & Eb). rewrite !app_nil_r in Eb. rewrite Eb, app_nil_r in E. by apply part_not_line in E.
  - by left.
Qed.

(** The end of the connection. *)
Lemma http_conn_close_ok h w : expects h w [] -> exists h' w', http_conn_close (Ok tt) (HttpSys h w) = HttpSys h' w' /\ ht_closed h' = Some (Ok tt) /\ received w' = total.
Proof.
  intros Hexp. unfold http_conn_close, on_world. cbn [hs_tx hs_world]. destruct (expects_end h w Hexp) as [(Hs & Hc & Hr)|(Hs & Hf & Hdel & Hp)]; rewrite Hs.
  - exists h, (hc_close (Ok tt) w). by rewrite hc_close_ok.
  - unfold http_close_transfer_identity. cbn [hs_tx]. rewrite Hf.
    destruct Hp as (Hr & _ & _ & Hc & Hrc). rewrite app_nil_r in Hr. destruct (http_transfer_complete_closed h (hc_close (Ok tt) w)) as (h' & w' & -> & _ & Hcl & Hr'); [by rewrite hc_close_ok|done|done|]. by exists h', w'.
Qed.

Lemma progress_prefix content h w : progress content h w -> received w `prefix_of` total.
Proof. intros [Hr _]. by exists content. Qed.

Lemma http_close_err e h w : ht_closed h = None -> ht_closed (hs_tx (http_close (Err e) (HttpSys h w))) = Some (Err e) /\ received (hs_world (http_close (Err e) (HttpSys h w))) = received w.
Proof. intros Hc. unfold http_close, on_tx, on_world. cbn [hs_tx hs_world ht_closed set_ht_timer set_ht_process]. rewrite Hc. cbn. by rewrite hx_close_ok, hc_close_ok. Qed.

(** The connection ends while more is expected of a response that tells its
    end. *)
Lemma http_conn_close_early h w rest :
  delimited = true -> expects h w rest -> rest <> [] ->
  exists e, ht_closed (hs_tx (http_conn_close (Ok tt) (HttpSys h w))) = Some (Err e) /\ received (hs_world (http_conn_close (Ok tt) (HttpSys h w))) `prefix_of` total.
Proof.
  intros Hdel Hexp Hne. assert (exists content, progress content h w) as [content Hp] by (destruct Hexp; try done; eauto).
  pose proof (progress_prefix _ _ _ Hp) as Hpre. destruct Hp as (_ & _ & _ & Hc & _). unfold http_conn_close, on_world. cbn [hs_tx hs_world].
  assert (forall e, ht_closed (hs_tx (http_close (Err e) (HttpSys h (hc_close (Ok tt) w)))) = Some (Err e) /\ received (hs_world (http_close (Err e) (HttpSys h (hc_close (Ok tt) w)))) `prefix_of` total) as Herr.
  { intros e. destruct (http_close_err e h (hc_close (Ok tt) w) Hc) as [-> ->]. by rewrite hc_close_ok. }
  destruct Hexp as [before part lines todo tail stream consumed Hs|data Hs Hf|data Hs Hf Hd|empties part eol chunks zeros trailers stream consumed Hs|data chunks zeros trailers Hs|before part todo stream consumed Hs|]; try congruence; rewrite Hs.
  - exists EPIPE. apply Herr.
  - unfold http_close_transfer_identity. cbn [hs_tx]. rewrite Hf. exists EIO. apply Herr.
  - exists EPIPE. apply Herr.
  - exists EPIPE. apply Herr.
  - exists EPIPE. apply Herr.
Qed.

End reception.

(** ** Requests *)

Section request.
Context {W : Type} `{HttpRecipient W}.

(** An opened transaction sends its request, and awaits the response. *)
Lemma http_request_ok u w :
  exists x w', http_open_get_uri u w = (Ok x, w') /\ req_method (ht_request (hs_tx x)) = http_get /\
    exists w1, http_process x = HttpSys (set_ht_state HTTP_HEADERS (set_ht_process false (hs_tx x))) w1 /\
      ht_response (hs_tx x) = no_response /\ ht_len (hs_tx x) = 0 /\ ht_remaining (hs_tx x) = 0 /\ ht_linebuf (hs_tx x) = empty_line_buffer /\ ht_closed (hs_tx x) = None /\
      received w1 = received w /\ position w1 = position w /\ sent w1 = sent w ++ http_format_headers (hs_tx x).
Proof.
  unfold http_open_get_uri, http_open. cbv zeta. destruct (http_alloc_ok w) as (wa & -> & Ra & Pa & Sa). cbn [negb default from_option id fmap option_fmap option_map].
  destruct (hc_connect_ok u wa) as (wb & -> & Rb & Pb & Sb). eexists _, wb. split; [done|]. split; [done|]. unfold http_process, http_step, on_tx, on_world. cbn [hs_tx hs_world ht_state set_ht_process].
  rewrite (decide_False (P := hc_window wb = 0)) by apply hc_window_ok. rewrite (decide_False (P := hx_window _ = 0)) by apply hx_window_ok. unfold http_tx_request, call. cbn [hs_tx hs_world].
  destruct (hx_window_changed_ok wb) as (Rc & Pc & Sc). destruct (http_alloc_ok (hx_window_changed wb)) as (wd & -> & Rd & Pd & Sd). cbn [hs_tx hs_world].
  match goal with |- context [hc_deliver ?d wd] => destruct (hc_deliver_ok wd d) as (we & -> & Re & Pe & Se) end. eexists. split; [done|]. cbn [hs_tx hs_world].
  split_and!; try done; [congruence|congruence|]. rewrite Se, Sd, Sc, Sb, Sa. f_equal. apply app_nil_r.
Qed.

(** What the sent request awaits. *)
Lemma http_response_awaited u w :
  received w = [] -> position w = 0 -> sent w = [] ->
  exists x w', http_open_get_uri u w = (Ok x, w') /\ sent (hs_world (http_process x)) = http_format_headers (hs_tx x) /\
    forall delimited lines stream content, Forall trailer_ok lines -> head_ok (ht_request (hs_tx x)) lines (fun rsp => framed delimited rsp stream content) ->
      expects delimited content (hs_tx (http_process x)) (hs_world (http_process x)) (lines_bytes (lines ++ [[]]) ++ stream).
Proof.
  intros Hr Hp Hs. destruct (http_request_ok u w) as (x & w' & Eo & Hm & w1 & Ep & Hrsp & Hlen & Hrem & Hlb & Hc & R & P & S). exists x, w'. split; [done|]. rewrite Ep. cbn [hs_world hs_tx]. split; [by rewrite S, Hs|].
  intros delimited lines stream content Hl Hhead. rewrite Hr in R. rewrite Hp in P.
  apply (expect_headers _ _ _ _ [] [] lines lines stream _ 0); [done|cbn; by rewrite Hrsp|done|done|cbn; by rewrite Hm| |by apply Forall_nil_2| |done| |done|done|done].
  - unfold progress. rewrite R, P. cbn. by rewrite Hlen, Hc, Hrsp.
  - eapply Forall_impl; [exact Hl|]. by intros ? [].
  - eapply Forall_impl; [exact Hl|]. by intros ? [].
Qed.

End request.
