(* ===== verification/HttpGet.v ===== *)
(** * GET requests and their responses (theorems on Http)

    What the request says and what the lines of a response head mean is stated
    here without the formatter and the parser of the source: [request_text] is
    the text of the request, [head_means] reads the status line and the headers.
    The two properties are the delivery of the content of a response
    ([http_response_correct]) and the error for one that is cut off
    ([http_truncated_error]). *)

From S2P Require Import Prelude CMem Strings Vsprintf Encoding Uri Linebuf Http HttpRx.

(** ** The head of a response *)

(** Names of headers are compared without regard to case. *)
Definition lower (c : Z) : Z := if decide (65 <= c <= 90) then c + 32 else c.
Definition same_text (s1 s2 : list Z) : Prop := map lower s1 = map lower s2.

Inductive framing := Length (n : Z) | Chunked | UntilClose.

(** A status line that reports success. *)
Inductive success_line : list Z -> Prop :=
| success_intro minor d2 d3 reason :
    0 <= minor < 10 -> 0 <= d2 < 10 -> 0 <= d3 < 10 -> success_line (lit "HTTP/1." ++ [48 + minor] ++ lit " 2" ++ [48 + d2; 48 + d3; 32] ++ reason).

(** What a header says about the length of the content. *)
Inductive header_says : list Z -> option framing -> Prop :=
| says_length name blanks ds :
    same_text name (lit "Content-Length") -> Forall (fun c => c = 32 \/ c = 9) blanks -> Forall (fun d => 0 <= d < 10) ds -> ds <> [] -> digits_value 10 0 ds < 2 ^ 64 ->
    header_says (name ++ [58] ++ blanks ++ map (fun d => 48 + d) ds) (Some (Length (digits_value 10 0 ds)))
| says_chunked name blanks value :
    same_text name (lit "Transfer-Encoding") -> Forall (fun c => c = 32 \/ c = 9) blanks -> same_text value (lit "chunked") -> header_says (name ++ [58] ++ blanks ++ value) (Some Chunked)
| says_nothing name value :
    Forall (fun c => c <> 58) name -> ~ same_text name (lit "Content-Length") -> ~ same_text name (lit "Transfer-Encoding") -> ~ same_text name (lit "WWW-Authenticate") ->
    header_says (name ++ [58] ++ value) None.

(** The headers together: chunks go before a length, and lengths agree. *)
Definition frames (says : list (option framing)) (f : framing) : Prop :=
  match f with
  | Chunked => (Some Chunked ∈ says)
  | Length n => (Some Chunked ∉ says) /\ (Some (Length n) ∈ says) /\ forall m, Some (Length m) ∈ says -> m = n
  | UntilClose => Forall (fun s => s = None) says
  end.

Definition head_means (lines : list (list Z)) (f : framing) : Prop :=
  exists status headers says, lines = status :: headers /\ success_line status /\ Forall2 header_says headers says /\ frames says f.

(** How the bytes behind the head carry the content. *)
Inductive body : framing -> list Z -> list Z -> Prop :=
| body_length data : body (Length (Z.of_nat (length data))) data data
| body_chunked chunks zeros trailers :
    Forall chunk_ok chunks -> zeros_ok zeros -> Forall trailer_ok trailers -> body Chunked (chunked_bytes chunks zeros trailers) (concat (map chunk_data chunks))
| body_until_close data : body UntilClose data data.

(** ** The parser reads it *)

Lemma toupper_lower a b : toupper a = toupper b <-> lower a = lower b.
Proof. unfold toupper, islower, lower. repeat case_decide; repeat case_bool_decide; cbn [andb]; lia. Qed.

Lemma same_text_name s1 s2 : same_name s1 s2 = true <-> same_text s1 s2.
Proof.
  unfold same_name, same_text. rewrite bool_decide_eq_true. revert s2. induction s1 as [|a s1 IH]; intros [|b s2]; cbn [map]; [done|done|done|].
  split; intros E; injection E as E1 E2; f_equal; (by apply toupper_lower) || (by apply IH).
Qed.

(** A name that is one of the known ones is no other one. *)
Lemma same_name_of name s s' : same_text name s -> same_name name s' = same_name s s'.
Proof. intros E. apply same_text_name in E. unfold same_name in *. apply bool_decide_eq_true in E. by rewrite E. Qed.

Lemma scan_word word rest :
  Forall (fun c => isspace c = false /\ c <> 44 /\ c <> 0) word -> scan_token false 0 (word ++ 32 :: rest) = (word, None, rest).
Proof.
  induction 1 as [|c word (H1 & H2 & H3) Hw IH]; [done|]. cbn [app scan_token]. rewrite H1. rewrite (bool_decide_false (c = 44)) by done. cbn [orb andb]. rewrite decide_False by done. by rewrite IH.
Qed.

(** Digits and what follows them. *)
Lemma strtoul_string_prefix ds c rest :
  Forall (fun d => 0 <= d < 10) ds -> ds <> [] -> digit_value c >= 10 -> strtoul_string (map digit_char ds ++ c :: rest) 10 = (u64 (digits_value 10 0 ds), c :: rest).
Proof.
  intros Hds Hne Hc. unfold strtoul_string. set (l := map digit_char ds ++ c :: rest). assert (at_mem (mem_of (l ++ [0])) 0 (l ++ [0])) as Hm by apply (mload_memcpy (fun _ => 0) 0).
  assert (l ++ [0] = (map digit_char ds ++ [c]) ++ rest ++ [0]) as El by (unfold l; by rewrite <- !app_assoc). rewrite El in Hm. apply at_mem_app in Hm as [Hm _]. rewrite <- El in Hm.
  rewrite (strtoul_spec_gen _ _ 0 10 [] false ds c); [|lia|by apply Forall_nil_2|done|exact Hm|done|done|unfold l; cbn [length]; rewrite length_app, length_map; lia].
  rewrite Z.mul_1_l. f_equal. unfold l. apply drop_app_length'. rewrite length_map. cbn [length]. lia.
Qed.

Lemma decimal_chars ds : Forall (fun d => 0 <= d < 10) ds -> map (fun d => 48 + d) ds = map digit_char ds.
Proof. induction 1 as [|d ds Hd Hds IH]; [done|]. cbn [map]. rewrite IH. f_equal. unfold digit_char. rewrite decide_True by lia. lia. Qed.

(** The fields of the response that the headers so far have set. *)
Definition noted (says : list (option framing)) (r : http_response) : Prop :=
  rs_rc r = Ok tt /\ (rs_transfer r = Some http_transfer_chunked /\ Some Chunked ∈ says \/ rs_transfer r = None /\ Some Chunked ∉ says) /\
  (has_flag HTTP_RESPONSE_CONTENT_LEN r = true /\ Some (Length (rs_content_len r)) ∈ says \/ has_flag HTTP_RESPONSE_CONTENT_LEN r = false /\ forall n, Some (Length n) ∉ says).

(** Other flags are other bits. *)
Lemma has_flag_add f r : Z.land f HTTP_RESPONSE_CONTENT_LEN = 0 -> has_flag HTTP_RESPONSE_CONTENT_LEN (add_flag f r) = has_flag HTTP_RESPONSE_CONTENT_LEN r.
Proof. intros Hf. unfold has_flag, add_flag. cbn [rs_flags set_rs_flags]. by rewrite Z.land_lor_distr_l, Hf, Z.lor_0_r. Qed.

Lemma has_flag_clear f r : Z.land (Z.lnot f) HTTP_RESPONSE_CONTENT_LEN = HTTP_RESPONSE_CONTENT_LEN -> has_flag HTTP_RESPONSE_CONTENT_LEN (clear_flag f r) = has_flag HTTP_RESPONSE_CONTENT_LEN r.
Proof. intros Hf. unfold has_flag, clear_flag. cbn [rs_flags set_rs_flags]. by rewrite <- Z.land_assoc, Hf. Qed.

Lemma has_flag_added r : has_flag HTTP_RESPONSE_CONTENT_LEN (add_flag HTTP_RESPONSE_CONTENT_LEN r) = true.
Proof. unfold has_flag, add_flag. cbn [rs_flags set_rs_flags]. apply bool_decide_eq_true. rewrite Z.land_lor_distr_l. intros E. apply Z.lor_eq_0_iff in E as [_ E]. done. Qed.

(** What the parsers of other headers leave as it is. *)
Definition same_content (r r' : http_response) : Prop :=
  rs_rc r' = rs_rc r /\ rs_transfer r' = rs_transfer r /\ rs_content_len r' = rs_content_len r /\ has_flag HTTP_RESPONSE_CONTENT_LEN r' = has_flag HTTP_RESPONSE_CONTENT_LEN r.

Lemma noted_same says r r' : noted says r -> same_content r r' -> noted (says ++ [None]) r'.
Proof.
  unfold noted. intros (H1 & H2 & H3) (-> & -> & -> & ->). split_and!; [done| |].
  - destruct H2 as [[E Hi]|[E Hn]]; [left|right]; (split; [done|]); set_solver.
  - destruct H3 as [[E Hi]|[E Hn]]; [left|right]; (split; [done|]); [set_solver|]. intros n. specialize (Hn n). set_solver.
Qed.

Lemma connection_same line r : same_content r (http_parse_connection line r).2.
Proof.
  cbn [http_parse_connection snd]. generalize (http_tokens (length line) false line). intros ts. revert r. induction ts as [|t ts IH]; intros r; cbn [foldl]; [done|]. unfold same_content in *. destruct (IH (connection_token r t)) as (-> & -> & -> & ->).
  unfold connection_token. destruct (same_name t.1 (lit "keep-alive")), (same_name t.1 (lit "close")); rewrite ?has_flag_clear, ?has_flag_add by done; done.
Qed.

Lemma find_colon name rest : Forall (fun c => c <> 58) name -> find_byte 58 (name ++ [58] ++ rest) = Some (length name) /\ take (length name) (name ++ [58] ++ rest) = name /\ drop (S (length name)) (name ++ [58] ++ rest) = rest.
Proof.
  intros Hn. split; [by apply find_byte_first|]. split; [apply take_app_length|]. rewrite drop_app_ge by lia. by replace (S (length name) - length name)%nat with 1%nat by lia.
Qed.

Lemma no_colon name s : same_text name s -> Forall (fun c => c <> 58) s -> Forall (fun c => c <> 58) name.
Proof.
  unfold same_text. revert s. induction name as [|c name IH]; intros [|d s] E Hs; try done. cbn [map] in E. injection E as E1 E2. apply Forall_cons in Hs as [Hd Hs]. apply Forall_cons_2; [|by eapply IH].
  intros ->. apply Hd. unfold lower in E1. repeat case_decide; lia.
Qed.

Lemma skip_blanks blanks rest : Forall (fun c => c = 32 \/ c = 9) blanks -> (forall c, head rest = Some c -> isspace c = false) -> skip_spaces (blanks ++ rest) = rest.
Proof.
  intros Hb Hr. induction Hb as [|c blanks Hc Hb IH]; cbn [app skip_spaces].
  - destruct rest as [|c rest]; [done|]. cbn [skip_spaces]. by rewrite Hr.
  - assert (isspace c = true) as -> by (by destruct Hc as [-> | ->]). exact IH.
Qed.

Lemma decimal_nonneg ds acc : Forall (fun d => 0 <= d < 10) ds -> 0 <= acc -> 0 <= digits_value 10 acc ds.
Proof. intros Hds. revert acc. induction Hds as [|d ds Hd Hds IH]; intros acc Ha; [done|]. apply IH. lia. Qed.

Lemma header_noted req says r l m :
  noted says r -> header_says l m -> exists r', http_parse_header req l r = (Ok tt, r') /\ noted (says ++ [m]) r'.
Proof.
  intros Hn Hs. unfold http_parse_header. destruct Hs as [name blanks ds Hname Hb Hds Hne Hv|name blanks value Hname Hb Hvalue|name value Hcolon Hn1 Hn2 Hn3].
  - assert (Forall (fun c => c <> 58) name) as Hc by (eapply no_colon; [exact Hname|]; apply (bool_decide_unpack _); vm_compute; exact I). destruct (find_colon name (blanks ++ map (fun d => 48 + d) ds) Hc) as (-> & -> & ->).
    rewrite !(same_name_of name _ _ Hname). rewrite decimal_chars by done. rewrite skip_blanks; [|done|].
    2: { intros c E. destruct ds as [|d ds]; [done|]. cbn in E. injection E as <-. apply Forall_cons in Hds as [Hd _]. unfold digit_char. rewrite decide_True by lia. unfold isspace. by rewrite !bool_decide_false by lia. }
    cbn. unfold http_parse_content_length. rewrite strtoul_string_digits by (done || lia). rewrite decide_False by naive_solver. eexists. split; [done|]. destruct Hn as (H1 & H2 & H3). unfold noted. rewrite has_flag_added. cbn [rs_rc rs_transfer rs_content_len add_flag set_rs_flags set_rs_content_len].
    pose proof (decimal_nonneg ds 0 Hds ltac:(lia)) as Hpos. rewrite wrap_small by (unfold in_width; lia). split_and!; [done| |left; set_solver]. destruct H2 as [[E Hi]|[E Hi]]; [left|right]; (split; [done|]); set_solver.
  - assert (Forall (fun c => c <> 58) name) as Hc by (eapply no_colon; [exact Hname|]; apply (bool_decide_unpack _); vm_compute; exact I). destruct (find_colon name (blanks ++ value) Hc) as (-> & -> & ->).
    rewrite !(same_name_of name _ _ Hname). rewrite skip_blanks; [|done|].
    2: { intros c E. destruct value as [|c0 value]; [done|]. injection E as ->. unfold same_text in Hvalue. change (map lower (lit "chunked")) with (99 :: map lower (lit "hunked")) in Hvalue. injection Hvalue as E _.
         unfold lower in E. unfold isspace. case_decide; rewrite !bool_decide_false by lia; done. }
    cbn. unfold http_parse_transfer_encoding. apply same_text_name in Hvalue. rewrite Hvalue. eexists. split; [done|]. destruct Hn as (H1 & H2 & H3). split_and!; [done|left; set_solver|].
    destruct H3 as [[E Hi]|[E Hi]]; [left|right]; (split; [done|]); [set_solver|]. intros n. specialize (Hi n). set_solver.
  - destruct (find_colon name value Hcolon) as (-> & -> & ->). set (v := skip_spaces value). rewrite <- !same_text_name, !not_true_iff_false in Hn1, Hn2, Hn3. rewrite Hn1, Hn2, Hn3.
    destruct (same_name name (lit "Location")); [eexists; split; [done|]; by eapply noted_same|]. destruct (same_name name (lit "Connection")); [eexists; split; [done|]; eapply noted_same; [exact Hn|apply (connection_same v r)]|].
    destruct (same_name name (lit "Content-Encoding")); [eexists; split; [done|]; by eapply noted_same|]. destruct (same_name name (lit "Retry-After")); [|eexists; split; [done|]; by eapply noted_same].
    unfold http_parse_retry_after. destruct (strtoul_string v 10) as [n e]. eexists. split; [done|]. eapply noted_same; [exact Hn|]. unfold same_content. rewrite has_flag_add by done. done.
Qed.

Lemma headers_noted req headers says' says r :
  Forall2 header_says headers says -> noted says' r -> exists r', header_lines req headers r = (Ok tt, r') /\ noted (says' ++ says) r'.
Proof.
  intros Hh. revert says' r. induction Hh as [|l m headers says Hl Hh IH]; intros says' r Hn; [exists r; by rewrite app_nil_r|]. cbn [header_lines]. destruct (header_noted req says' r l m Hn Hl) as (r' & -> & Hn'). destruct (IH (says' ++ [m]) r' Hn') as (r2 & E & Hn2).
  exists r2. split; [done|]. by rewrite <- app_assoc in Hn2.
Qed.

Lemma status_noted line : success_line line -> exists r, http_parse_status line no_response = (Ok tt, r) /\ noted [] r.
Proof.
  intros [minor d2 d3 reason Hm H2 H3]. unfold http_parse_status, http_token.
  assert (lit "HTTP/1." ++ [48 + minor] ++ lit " 2" ++ [48 + d2; 48 + d3; 32] ++ reason = (lit "HTTP/1." ++ [48 + minor]) ++ 32 :: map digit_char [2; d2; d3] ++ 32 :: reason) as ->.
  { unfold digit_char. cbn [map]. rewrite !decide_True by lia. done. }
  set (word := lit "HTTP/1." ++ [48 + minor]). assert (Forall (fun c => isspace c = false /\ c <> 44 /\ c <> 0) word) as Hw.
  { apply Forall_app. split; [apply (bool_decide_unpack _); vm_compute; exact I|]. apply Forall_cons_2; [|by apply Forall_nil_2]. unfold isspace. rewrite !bool_decide_false by lia. split_and!; [done|lia|lia]. }
  change (skip_separators (word ++ ?x)) with (word ++ x). change (word ++ ?x) with (72 :: (drop 1 word ++ x)) at 1. cbv iota beta.
  change (72 :: drop 1 word ++ ?x) with (word ++ x). rewrite (scan_word word _ Hw). rewrite decide_False by (intros Hx; apply Hx; done).
  rewrite (strtoul_string_prefix [2; d2; d3] 32 reason); [|repeat (apply Forall_cons_2; [lia|]); by apply Forall_nil_2|done|done]. rewrite decide_False by (intros Hx; apply Hx; done). rewrite decide_True by done.
  eexists. split; [done|]. split_and!; [done|right; split; [by repeat case_decide|set_solver]|right; split; [|set_solver]].
  repeat case_decide; done.
Qed.

(** The response that is parsed from the head, and how it frames the body. *)
Lemma head_parsed req lines f stream content :
  head_means lines f -> body f stream content -> head_ok req lines (fun rsp => framed (match f with UntilClose => false | _ => true end) rsp stream content).
Proof.
  intros (status & headers & says & -> & Hst & Hh & Hf) Hb. destruct (status_noted status Hst) as (r & Es & Hn). destruct (headers_noted req headers [] says r Hh Hn) as (r' & Eh & (Hrc & Ht & Hc)). unfold head_ok. cbn [response_lines]. rewrite Es. cbn [app] in *.
  exists r'. split; [done|]. split; [done|]. destruct Hb as [data|chunks zeros trailers Hch Hz Htr|data]; cbn [frames] in Hf.
  - destruct Hf as (Hf1 & Hf2 & Hf3). destruct Ht as [[_ ?]|[Ht _]]; [done|]. destruct Hc as [[Hc Hi]|[_ Hi]]; [|by destruct (Hi (Z.of_nat (length data)))]. apply framed_length; [done|done|]. intros _. by apply Hf3.
  - destruct Ht as [[Ht _]|[_ ?]]; [|done]. by apply framed_chunked.
  - assert (forall x, Some x ∉ says) as Hnone by (intros x Hx; rewrite Forall_forall in Hf; by specialize (Hf _ Hx)). destruct Ht as [[_ ?]|[Ht _]]; [by destruct (Hnone Chunked)|]. destruct Hc as [[_ Hi]|[Hc _]]; [by apply Hnone in Hi|]. apply framed_length; [done|done|done].
Qed.

(** ** Requests *)

(** The path and query, and the host and port, of a URI. *)
Definition uri_target (u : uri) : list Z := format_uri_alloc (Some (plain_uri (Some (default (lit "/") (path u))) (query u) None None)).
Definition uri_authority (u : uri) : list Z := format_uri_alloc (Some (plain_uri None None (host u) (port u))).

(** The text of a request: the request line, the headers, and the empty line. *)
Definition request_text (version : list Z) (u : uri) : list Z :=
  lit "GET " ++ uri_target u ++ lit " HTTP/1.1" ++ [13; 10] ++
  lit "Host: " ++ uri_authority u ++ [13; 10] ++
  lit "User-Agent: iPXE/" ++ version ++ [13; 10] ++
  lit "Connection: keep-alive" ++ [13; 10] ++
  [13; 10].

#[local] Opaque format_uri_alloc.

Section requests.
Context {W : Type} `{HttpRecipient W}.

Lemma open_request u (w : W) x w' : http_open_get_uri u w = (Ok x, w') -> ht_request (hs_tx x) = Request http_get (uri_target u) (uri_authority u) 0 0 None [] no_auth.
Proof.
  unfold http_open_get_uri, http_open. cbv zeta. fold (uri_target u) (uri_authority u). generalize (uri_target u) (uri_authority u). intros target authority. destruct (http_alloc w) as [[] w1]; [|done].
  cbn [negb default from_option id fmap option_fmap option_map]. destruct (hc_connect u w1) as [[[]|rc] w2]; [|done]. intros E. injection E as <- _. reflexivity.
Qed.

Lemma header_text name value : value <> [] -> format_header (name, value) = name ++ lit ": " ++ value ++ crlf.
Proof. intros Hv. unfold format_header. cbn [fst snd]. rewrite decide_False by done. change (text (lit "%s: ") [VStr (Some name)]) with (name ++ lit ": " ++ []). by rewrite <- !app_assoc. Qed.

Lemma request_formatted h u : ht_request h = Request http_get (uri_target u) (uri_authority u) 0 0 None [] no_auth -> uri_authority u <> [] -> http_format_headers h = request_text product_version u.
Proof.
  intros E Hne. unfold http_format_headers, http_request_headers, http_format_host, http_format_user_agent, http_format_connection, http_format_range, http_format_content_type, http_format_content_length, http_format_accept_encoding, http_format_authorization.
  rewrite E. cbn [req_method req_uri req_host req_range_len req_content_type req_content req_auth no_auth ra_auth map concat]. change (text (lit "%s") [VStr (Some ?s)]) with (s ++ []). change (text (lit "iPXE/%s") [VStr (Some ?s)]) with (lit "iPXE/" ++ s ++ []). rewrite !app_nil_r.
  rewrite !header_text by (done || by rewrite ?app_nil_r). change (text (lit "%s %s HTTP/1.1") [VStr (Some ?a); VStr (Some ?b)]) with (a ++ 32 :: b ++ lit " HTTP/1.1" ++ []).
  unfold request_text, crlf. cbn [method_name]. generalize (uri_target u) (uri_authority u) product_version. intros target authority version. rewrite app_nil_r, <- !app_assoc. cbn [app]. rewrite <- !app_assoc. reflexivity.
Qed.

End requests.

#[local] Transparent format_uri_alloc.

(** ** The properties *)

(** C2: a GET request is sent, its text being the request line, the host, the
    user agent, the wish to keep the connection and an empty line; and its
    response, cut into segments in any way, is received: when the status line
    reports success, the content that the head announces, by a length, in chunks
    with trailers or up to the end of the connection, is what the recipient has,
    and the transaction is closed without an error, at once when the head tells
    the end and with the connection otherwise.  The content is below 2^62 bytes,
    and the head has no WWW-Authenticate header. *)
Theorem http_response_correct {W : Type} `{HttpRecipient W} u w :
  received w = [] -> position w = 0 -> sent w = [] -> uri_authority u <> [] ->
  exists x w', http_open_get_uri u w = (Ok x, w') /\ sent (hs_world (http_process x)) = request_text product_version u /\
    forall f lines stream content segments,
      Z.of_nat (length content) < 2 ^ 62 -> Forall trailer_ok lines -> head_means lines f -> body f stream content ->
      concat segments = lines_bytes (lines ++ [[]]) ++ stream ->
      exists y, deliver_segments segments (http_process x) = Some y /\
        (f <> UntilClose -> ht_closed (hs_tx y) = Some (Ok tt) /\ received (hs_world y) = content) /\
        ht_closed (hs_tx (http_conn_close (Ok tt) y)) = Some (Ok tt) /\ received (hs_world (http_conn_close (Ok tt) y)) = content.
Proof.
  intros Hr Hp Hs Hne. destruct (http_response_awaited u w Hr Hp Hs) as (x & w' & Eo & Es & Hx). exists x, w'. split; [done|]. split; [by rewrite Es, (request_formatted _ u (open_request _ _ _ _ Eo) Hne)|]. intros f lines stream content segments Hb Hl Hhead Hbody Hseg.
  specialize (Hx _ lines stream content Hl (head_parsed _ _ _ _ _ Hhead Hbody)). rewrite <- Hseg, <- (app_nil_r (concat segments)) in Hx. destruct (http_process x) as [h w1]. destruct (deliver_segments_ok _ content Hb segments [] h w1 Hx) as (h' & w2 & -> & Hexp).
  exists (HttpSys h' w2). split; [done|]. split.
  - intros Hdel. destruct (expects_end _ _ _ _ Hexp) as [(_ & ? & ?)|(_ & _ & ? & _)]; [done|]. by destruct f.
  - destruct (http_conn_close_ok _ _ _ _ Hexp) as (h3 & w3 & -> & ? & ?). done.
Qed.

(** C3: a successful response whose head announces a content length or chunks,
    cut off at any byte before its end, is not taken for a complete one: when the
    connection ends the transaction is closed with an error, and what the
    recipient has is a prefix of the content. *)
Theorem http_truncated_error {W : Type} `{HttpRecipient W} u w :
  received w = [] -> position w = 0 -> sent w = [] ->
  exists x w', http_open_get_uri u w = (Ok x, w') /\
    forall f lines stream content segments rest,
      Z.of_nat (length content) < 2 ^ 62 -> Forall trailer_ok lines -> head_means lines f -> f <> UntilClose -> body f stream content ->
      concat segments ++ rest = lines_bytes (lines ++ [[]]) ++ stream -> rest <> [] ->
      exists y e, deliver_segments segments (http_process x) = Some y /\
        ht_closed (hs_tx (http_conn_close (Ok tt) y)) = Some (Err e) /\ received (hs_world (http_conn_close (Ok tt) y)) `prefix_of` content.
Proof.
  intros Hr Hp Hs. destruct (http_response_awaited u w Hr Hp Hs) as (x & w' & Eo & _ & Hx). exists x, w'. split; [done|]. intros f lines stream content segments rest Hb Hl Hhead Hf Hbody Hseg Hne.
  specialize (Hx _ lines stream content Hl (head_parsed _ _ _ _ _ Hhead Hbody)). assert (match f with UntilClose => false | _ => true end = true) as Ef by (by destruct f). rewrite Ef in Hx. rewrite <- Hseg in Hx. destruct (http_process x) as [h w1].
  destruct (deliver_segments_ok true content Hb segments rest h w1 Hx) as (h' & w2 & -> & Hexp). destruct (http_conn_close_early true content h' w2 rest eq_refl Hexp Hne) as (e & ? & ?). by exists (HttpSys h' w2), e.
Qed.

(** ** An instance *)

(** A recipient that takes data in order. *)
Record memory_world := MemoryWorld { mw_received : list Z; mw_position : Z; mw_sent : list Z }.

#[export] Instance memory_env : HttpEnv memory_world := {
  hc_connect _ w := (Ok tt, w);
  hc_window _ := 1;
  hc_deliver d w := (Ok tt, MemoryWorld (mw_received w) (mw_position w) (mw_sent w ++ d));
  hc_recycle w := w;
  hc_close _ w := w;
  hx_window _ := 1;
  hx_window_changed w := w;
  hx_seek offset w := MemoryWorld (mw_received w) offset (mw_sent w);
  hx_deliver d w :=
    if decide (mw_position w = Z.of_nat (length (mw_received w)))
    then (Ok tt, MemoryWorld (mw_received w ++ d) (Z.of_nat (length (mw_received w ++ d))) (mw_sent w)) else (Err EINVAL, w);
  hx_redirect _ w := (Ok tt, w);
  hx_close _ w := w;
  http_alloc w := (true, w);
  http_random w := (4, w);
  http_md5 d := take 16 (d ++ replicate 16 0);
  product_version := lit "1.21.1";
  find_parameters _ := None;
  parameter_list _ := [];
}.

#[export] Instance memory_recipient : HttpRecipient memory_world.
Proof.
  refine {| received := mw_received; position := mw_position; sent := mw_sent |}; cbn [hc_connect hc_deliver hc_recycle hc_close hx_window_changed hx_seek hx_deliver hx_close http_alloc hc_window hx_window memory_env]; try done.
  - intros w d E. rewrite decide_True by done. eauto.
  - eauto.
  - eauto.
  - eauto.
Defined.

Definition example_uri : uri := Uri (Some (lit "http")) None None None (Some (lit "boot.example")) None (Some (lit "/menu.ipxe")) None None None.

(** Two chunks and a trailer, in segments that cut lines, chunks and line ends. *)
Definition example_lines : list (list Z) := [lit "HTTP/1.1 200 OK"; lit "Server: httpd"; lit "Transfer-Encoding: chunked"].
Definition example_chunks : list chunk := [Chunk [5] (lit "hello"); Chunk [0; 7] (lit ", world")].
Definition example_bytes : list Z := lines_bytes (example_lines ++ [[]]) ++ chunked_bytes example_chunks [0] [lit "X-Sum: 1"].
Definition example_segments : list (list Z) :=
  [take 10 example_bytes; take 52 (drop 10 example_bytes); take 12 (drop 62 example_bytes); take 1 (drop 74 example_bytes); drop 75 example_bytes].

Lemma example_head : head_means example_lines Chunked.
Proof.
  exists (lit "HTTP/1.1 200 OK"), [lit "Server: httpd"; lit "Transfer-Encoding: chunked"], [None; Some Chunked]. split; [reflexivity|]. split; [apply (success_intro 1 0 0 (lit "OK")); lia|]. split; [|by apply list_elem_of_further, list_elem_of_here].
  apply Forall2_cons. split; [apply (says_nothing (lit "Server") (lit " httpd")); [apply (bool_decide_unpack _); vm_compute; exact I|vm_compute; discriminate..]|].
  apply Forall2_cons. split; [apply (says_chunked (lit "Transfer-Encoding") [32] (lit "chunked")); [reflexivity|by apply Forall_cons_2; [left|apply Forall_nil_2]|reflexivity]|]. apply Forall2_nil_2.
Qed.

Lemma example_body : body Chunked (chunked_bytes example_chunks [0] [lit "X-Sum: 1"]) (lit "hello, world").
Proof. apply (body_chunked example_chunks [0] [lit "X-Sum: 1"]); apply (bool_decide_unpack _); vm_compute; exact I. Qed.

(** The property holds of a chunked response to a request for a menu. *)
Lemma http_response_correct_witness :
  exists x w' y, http_open_get_uri example_uri (MemoryWorld [] 0 []) = (Ok x, w') /\
    sent (hs_world (http_process x)) = lit "GET /menu.ipxe HTTP/1.1" ++ crlf ++ lit "Host: boot.example" ++ crlf ++ lit "User-Agent: iPXE/1.21.1" ++ crlf ++ lit "Connection: keep-alive" ++ crlf ++ crlf /\
    deliver_segments example_segments (http_process x) = Some y /\
    ht_closed (hs_tx y) = Some (Ok tt) /\ received (hs_world y) = lit "hello, world".
Proof.
  destruct (@http_response_correct memory_world memory_env memory_recipient example_uri (MemoryWorld [] 0 []) eq_refl eq_refl eq_refl) as (x & w' & Eo & Es & Hx); [vm_compute; discriminate|].
  destruct (Hx Chunked example_lines (chunked_bytes example_chunks [0] [lit "X-Sum: 1"]) (lit "hello, world") example_segments) as (y & Ed & Hdel & _).
  - vm_compute. reflexivity.
  - apply (bool_decide_unpack _). vm_compute. exact I.
  - apply example_head.
  - apply example_body.
  - vm_compute. reflexivity.
  - exists x, w', y. destruct Hdel; [discriminate|]. done.
Defined.

(** The same response without its last two segments. *)
Lemma http_truncated_error_witness :
  exists x w' y e, http_open_get_uri example_uri (MemoryWorld [] 0 []) = (Ok x, w') /\ deliver_segments (take 3 example_segments) (http_process x) = Some y /\
    ht_closed (hs_tx (http_conn_close (Ok tt) y)) = Some (Err e).
Proof.
  destruct (@http_truncated_error memory_world memory_env memory_recipient example_uri (MemoryWorld [] 0 []) eq_refl eq_refl eq_refl) as (x & w' & Eo & Hx).
  destruct (Hx Chunked example_lines (chunked_bytes example_chunks [0] [lit "X-Sum: 1"]) (lit "hello, world") (take 3 example_segments) (drop 74 example_bytes)) as (y & e & Ed & Hc & _).
  - vm_compute. reflexivity.
  - apply (bool_decide_unpack _). vm_compute. exact I.
  - apply example_head.
  - discriminate.
  - apply example_body.
  - vm_compute. reflexivity.
  - vm_compute. congruence.
  - exists x, w', y, e. done.
Defined.

(** ** Requests that are sent again *)

(** A connection of the pool that turns out to be closed makes the transaction
    send its request again.  The response that asked for authentication was
    cleared when the request was sent the first time, so that the second one
    does not answer it. *)
Example http_digest_resent :
  let rsp := set_rs_nonce (Some (lit "n1")) (set_rs_realm (Some (lit "boot")) (set_rs_auth (Some http_digest_auth) (set_rs_flags (Z.lor HTTP_RESPONSE_RETRY HTTP_RESPONSE_CONTENT_LEN) (set_rs_rc (Err EACCES) no_response)))) in
  let u := Uri (Some (lit "http")) None (Some (lit "u")) (Some (lit "p")) (Some (lit "boot.example")) None (Some (lit "/menu.ipxe")) None None None in
  let h := Http u (Request http_get (lit "/menu.ipxe") (lit "boot.example") 0 0 None [] no_auth) rsp HTTP_IDENTITY 0 0 empty_line_buffer false None None in
  let first := (http_transfer_complete (HttpSys h (MemoryWorld [] 0 []))).2 in
  let again := http_reopen (http_process first) in
  let starts realm (x : http_sys) := take (8 + length realm) (http_format_digest_auth (hs_tx x)) = lit "realm=" ++ [34] ++ realm ++ [34] in
  ht_state (hs_tx first) = HTTP_REQUEST /\ starts (lit "boot") first /\ ht_state (hs_tx again) = HTTP_REQUEST /\ starts (lit "<NULL>") again.
Proof. vm_compute. auto. Qed.
