(* ===== verification/Arp.v ===== *)
(** * Neighbour discovery and ARP (net/neighbour.c, net/arp.c)

    The neighbour cache maps network-layer addresses to link-layer addresses.
    Packets for a neighbour whose address is not known wait in its entry, which
    asks for the address until it is told or the timer gives up.  Memory is
    allocated at the expense of the cache: an allocation may discard entries.
    The device transmits and reports failed packets; it does not call back.
    When a timer expires is the subject of Retry; here any running timer may. *)

From S2P Require Import Prelude CMem.

(** ** Data *)

(** Network-layer protocols, which the source identifies by their address. *)
Record net_protocol := NetProtocol { net_proto : Z; net_addr_len : nat }.

Definition ETH_P_ARP : Z := 0x0806.
Definition ARPOP_REQUEST : Z := 1.
Definition ARPOP_REPLY : Z := 2.
Definition MAX_LL_ADDR_LEN : nat := 20.

Definition arp_protocol : net_protocol := NetProtocol ETH_P_ARP 0.

(** The other discovery protocol, NDP, belongs to IPv6. *)
Inductive neighbour_discovery := arp_discovery.

(** An entry; [nb_timer] tells whether its timer is running. *)
Record neighbour := Neighbour {
  nb_netdev : nat;
  nb_protocol : net_protocol;
  nb_net_dest : list Z;
  nb_ll_dest : list Z;
  nb_discovery : option neighbour_discovery;
  nb_net_source : list Z;
  nb_timer : bool;
  nb_tx_queue : list (list Z)
}.

#[export] Instance net_protocol_eq_dec : EqDecision net_protocol.
Proof. solve_decision. Defined.

(** [nd_alloc]: how many entries of the cache are discarded for an allocation,
    and whether it succeeds.  [arp_check] tells whether an address is one of the
    device's. *)
Class NeighbourEnv (W : Type) := {
  nd_ll_addr : nat -> list Z;
  nd_ll_broadcast : nat -> list Z;
  nd_ll_proto : nat -> Z;
  nd_ll_addr_len : nat -> nat;
  nd_is_open : nat -> W -> bool;
  nd_net_tx : list Z -> nat -> net_protocol -> list Z -> list Z -> W -> result unit * W;
  nd_tx_err : nat -> list Z -> errno -> W -> W;
  nd_alloc : W -> nat * bool * W;
  arp_net_protocols : list net_protocol;
  arp_check : nat -> net_protocol -> list Z -> W -> bool;
}.

Section arp.
Context {W : Type} `{NeighbourEnv W}.

(** The cache, the most recently used entry first. *)
Record ncache := NCache { nc_neighbours : list neighbour; nc_world : W }.

(** ** The cache *)

Definition neighbour_destroy (nb : neighbour) (rc : errno) (w : W) : W := foldl (fun w iobuf => nd_tx_err (nb_netdev nb) iobuf rc w) w (nb_tx_queue nb).

Definition neighbour_discard (s : ncache) : nat * ncache :=
  match last (nc_neighbours s) with
  | Some nb => (1%nat, NCache (removelast (nc_neighbours s)) (neighbour_destroy nb ENOBUFS (nc_world s)))
  | None => (0%nat, s)
  end.

(** An allocation. *)
Definition alloc (s : ncache) : bool * ncache :=
  let '(discards, ok, w) := nd_alloc (nc_world s) in (ok, Nat.iter discards (fun s => (neighbour_discard s).2) (NCache (nc_neighbours s) w)).

(** A new entry; the cache is changed by the allocation only if that fails. *)
Definition neighbour_create (nd : nat) (proto : net_protocol) (net_dest : list Z) (s : ncache) : option neighbour * ncache :=
  match alloc s with
  | (false, s) => (None, s)
  | (true, s) => (Some (Neighbour nd proto (take (net_addr_len proto) net_dest) (replicate MAX_LL_ADDR_LEN 0) None [] false []), s)
  end.

Definition is_neighbour (nd : nat) (proto : net_protocol) (net_dest : list Z) (nb : neighbour) : bool :=
  bool_decide (nb_netdev nb = nd) && bool_decide (nb_protocol nb = proto) && bool_decide (nb_net_dest nb = take (net_addr_len proto) net_dest).

(** The entry, and the others in their order: it moves to the start. *)
Fixpoint neighbour_find (nd : nat) (proto : net_protocol) (net_dest : list Z) (l : list neighbour) : option (neighbour * list neighbour) :=
  match l with
  | [] => None
  | nb :: l =>
    if is_neighbour nd proto net_dest nb then Some (nb, l)
    else match neighbour_find nd proto net_dest l with Some (found, l) => Some (found, nb :: l) | None => None end
  end.

Definition neighbour_discover (discovery : neighbour_discovery) (net_source : list Z) (nb : neighbour) : neighbour :=
  Neighbour (nb_netdev nb) (nb_protocol nb) (nb_net_dest nb) (nb_ll_dest nb) (Some discovery) (take (net_addr_len (nb_protocol nb)) net_source) true (nb_tx_queue nb).

Definition set_tx_queue (q : list (list Z)) (nb : neighbour) : neighbour :=
  Neighbour (nb_netdev nb) (nb_protocol nb) (nb_net_dest nb) (nb_ll_dest nb) (nb_discovery nb) (nb_net_source nb) (nb_timer nb) q.

(** Errors of the deferred packets are ignored. *)
Definition neighbour_discovered (ll_dest : list Z) (nb : neighbour) (w : W) : neighbour * W :=
  let nd := nb_netdev nb in
  let ll_dest := take (nd_ll_addr_len nd) ll_dest in
  let nb' := Neighbour nd (nb_protocol nb) (nb_net_dest nb) (ll_dest ++ drop (nd_ll_addr_len nd) (nb_ll_dest nb)) (nb_discovery nb) (nb_net_source nb) false [] in
  (nb', foldl (fun w iobuf => (nd_net_tx iobuf nd (nb_protocol nb) ll_dest (nd_ll_addr nd) w).2) w (nb_tx_queue nb)).

Definition neighbour_has_ll_dest (nb : neighbour) : bool := negb (nb_timer nb).

(** The link-layer address in an entry, without the bytes that the device does
    not use. *)
Definition ll_dest_of (nb : neighbour) : list Z := take (nd_ll_addr_len (nb_netdev nb)) (nb_ll_dest nb).

Definition neighbour_tx (iobuf : list Z) (nd : nat) (proto : net_protocol) (net_dest : list Z) (discovery : neighbour_discovery) (net_source ll_source : list Z) (s : ncache) : result unit * ncache :=
  let (found, s) :=
    match neighbour_find nd proto net_dest (nc_neighbours s) with
    | Some (nb, l) => (Some nb, NCache l (nc_world s))
    | None => let (nb, s) := neighbour_create nd proto net_dest s in (neighbour_discover discovery net_source <$> nb, s)
    end in
  match found with
  | None => (Err ENOMEM, s)
  | Some nb =>
    if neighbour_has_ll_dest nb
    then let (rc, w) := nd_net_tx iobuf nd proto (ll_dest_of nb) ll_source (nc_world s) in (rc, NCache (nb :: nc_neighbours s) w)
    else (Ok tt, NCache (set_tx_queue (nb_tx_queue nb ++ [iobuf]) nb :: nc_neighbours s) (nc_world s))
  end.

Definition neighbour_update (nd : nat) (proto : net_protocol) (net_dest ll_dest : list Z) (s : ncache) : result unit * ncache :=
  match neighbour_find nd proto net_dest (nc_neighbours s) with
  | None => (Err ENOENT, s)
  | Some (nb, l) => let (nb, w) := neighbour_discovered ll_dest nb (nc_world s) in (Ok tt, NCache (nb :: l) w)
  end.

Definition neighbour_define (nd : nat) (proto : net_protocol) (net_dest ll_dest : list Z) (s : ncache) : result unit * ncache :=
  let (found, s) :=
    match neighbour_find nd proto net_dest (nc_neighbours s) with
    | Some (nb, l) => (Some nb, NCache l (nc_world s))
    | None => neighbour_create nd proto net_dest s
    end in
  match found with
  | None => (Err ENOMEM, s)
  | Some nb => let (nb, w) := neighbour_discovered ll_dest nb (nc_world s) in (Ok tt, NCache (nb :: nc_neighbours s) w)
  end.

Definition neighbour_flush (nd : nat) (s : ncache) : ncache :=
  if nd_is_open nd (nc_world s) then s
  else NCache [] (foldl (fun w nb => neighbour_destroy nb ENODEV w) (nc_world s) (nc_neighbours s)).

(** ** ARP packets *)

Definition ar_hrd (arphdr : list Z) : Z := get16 arphdr 0.
Definition ar_pro (arphdr : list Z) : Z := get16 arphdr 2.
Definition ar_hln (arphdr : list Z) : nat := Z.to_nat (get8 arphdr 4).
Definition ar_pln (arphdr : list Z) : nat := Z.to_nat (get8 arphdr 5).
Definition ar_op (arphdr : list Z) : Z := get16 arphdr 6.

(** The offsets of the addresses. *)
Definition arp_sender_ha (arphdr : list Z) : nat := 8.
Definition arp_sender_pa (arphdr : list Z) : nat := arp_sender_ha arphdr + ar_hln arphdr.
Definition arp_target_ha (arphdr : list Z) : nat := arp_sender_pa arphdr + ar_pln arphdr.
Definition arp_target_pa (arphdr : list Z) : nat := arp_target_ha arphdr + ar_hln arphdr.
Definition arp_len (arphdr : list Z) : nat := 8 + 2 * (ar_hln arphdr + ar_pln arphdr).

Definition field (at_ len : nat) (packet : list Z) : list Z := take len (drop at_ packet).

Definition arphdr (hrd pro : Z) (hln pln : nat) (op : Z) : list Z := be16 hrd ++ be16 pro ++ [u8 (Z.of_nat hln); u8 (Z.of_nat pln)] ++ be16 op.

Definition arp_tx_request (nd : nat) (proto : net_protocol) (net_dest net_source : list Z) (s : ncache) : result unit * ncache :=
  match alloc s with
  | (false, s) => (Err ENOMEM, s)
  | (true, s) =>
    let hln := nd_ll_addr_len nd in
    let pln := net_addr_len proto in
    let iobuf := arphdr (nd_ll_proto nd) (net_proto proto) hln pln ARPOP_REQUEST ++ take hln (nd_ll_addr nd) ++ take pln net_source ++ replicate hln 0 ++ take pln net_dest in
    let (rc, w) := nd_net_tx iobuf nd arp_protocol (nd_ll_broadcast nd) (nd_ll_addr nd) (nc_world s) in
    (rc, NCache (nc_neighbours s) w)
  end.

(** The entry [i] whose timer expired; an error of the request is ignored. *)
Definition neighbour_expired (i : nat) (fail : bool) (s : ncache) : ncache :=
  match nc_neighbours s !! i with
  | None => s
  | Some nb =>
    if fail then NCache (delete i (nc_neighbours s)) (neighbour_destroy nb ETIMEDOUT (nc_world s)) else
    let s := NCache (<[i := Neighbour (nb_netdev nb) (nb_protocol nb) (nb_net_dest nb) (nb_ll_dest nb) (nb_discovery nb) (nb_net_source nb) true (nb_tx_queue nb)]> (nc_neighbours s)) (nc_world s) in
    match nb_discovery nb with
    | Some arp_discovery => (arp_tx_request (nb_netdev nb) (nb_protocol nb) (nb_net_dest nb) (nb_net_source nb) s).2
    | None => s
    end
  end.

Definition arp_tx (iobuf : list Z) (nd : nat) (proto : net_protocol) (net_dest net_source ll_source : list Z) (s : ncache) : result unit * ncache :=
  neighbour_tx iobuf nd proto net_dest arp_discovery net_source ll_source s.

Definition arp_find_protocol (pro : Z) : option net_protocol := List.find (fun p => bool_decide (net_proto p = pro)) arp_net_protocols.

(** The request becomes a reply in place. *)
Definition arp_reply (nd : nat) (iobuf : list Z) : list Z :=
  let len := (ar_hln iobuf + ar_pln iobuf)%nat in
  let iobuf := list_inserts 6 (be16 ARPOP_REPLY) iobuf in
  let sender := field (arp_sender_ha iobuf) len iobuf in
  let target := field (arp_target_ha iobuf) len iobuf in
  let iobuf := list_inserts (arp_target_ha iobuf) sender (list_inserts (arp_sender_ha iobuf) target iobuf) in
  list_inserts (arp_sender_ha iobuf) (take (ar_hln iobuf) (nd_ll_addr nd)) iobuf.

Definition arp_rx (iobuf : list Z) (nd : nat) (s : ncache) : result unit * ncache :=
  if decide ((length iobuf < 8)%nat \/ (length iobuf < arp_len iobuf)%nat) then (Err EINVAL, s) else
  match arp_find_protocol (ar_pro iobuf) with
  | None => (Err EPROTONOSUPPORT, s)
  | Some proto =>
    if decide (ar_hrd iobuf <> nd_ll_proto nd \/ ar_hln iobuf <> nd_ll_addr_len nd \/ ar_pln iobuf <> net_addr_len proto) then (Err EINVAL, s) else
    let s := (neighbour_update nd proto (drop (arp_sender_pa iobuf) iobuf) (drop (arp_sender_ha iobuf) iobuf) s).2 in
    if decide (ar_op iobuf <> ARPOP_REQUEST) then (Ok tt, s) else
    if negb (arp_check nd proto (field (arp_target_pa iobuf) (net_addr_len proto) iobuf) (nc_world s)) then (Ok tt, s) else
    let reply := arp_reply nd iobuf in
    let (rc, w) := nd_net_tx reply nd arp_protocol (field (arp_target_ha reply) (ar_hln reply) reply) (nd_ll_addr nd) (nc_world s) in
    (rc, NCache (nc_neighbours s) w)
  end.

End arp.
