(* ===== verification/ArpCache.v ===== *)
(** * Packets that wait for a neighbour (theorems on Arp)

    Whatever is sent, received, discarded and timed out, the packets for a
    neighbour leave the cache once and in the order in which they were sent, and
    only to an address that was announced for the neighbour
    ([neighbour_packets_in_order]).  A request for the address of another host
    is answered by it, and the answer releases the packets ([arp_resolves]). *)

From S2P Require Import Prelude CMem Arp.

(** ** What the device is given *)

Inductive output_event := out_sent (iobuf : list Z) (nd : nat) (proto : net_protocol) (ll_dest : list Z) | out_failed (nd : nat) (iobuf : list Z).

Class NeighbourTrace (W : Type) `{NeighbourEnv W} := {
  output : W -> list output_event;
  nd_net_tx_output iobuf nd proto ll_dest ll_source w : output (nd_net_tx iobuf nd proto ll_dest ll_source w).2 = output w ++ [out_sent iobuf nd proto ll_dest];
  nd_tx_err_output nd iobuf rc w : output (nd_tx_err nd iobuf rc w) = output w ++ [out_failed nd iobuf];
  nd_alloc_output w : output (nd_alloc w).2 = output w;
}.

(** A neighbour: the device, the protocol and the address. *)
Definition nkey : Type := nat * net_protocol * list Z.
Definition key_of (nb : neighbour) : nkey := (nb_netdev nb, nb_protocol nb, nb_net_dest nb).
Definition the_key (nd : nat) (proto : net_protocol) (net_dest : list Z) : nkey := (nd, proto, take (net_addr_len proto) net_dest).

(** ** Executions *)

Inductive neighbour_event :=
| ev_tx (iobuf : list Z) (nd : nat) (proto : net_protocol) (net_dest net_source ll_source : list Z)
| ev_arp (iobuf : list Z) (nd : nat)
| ev_define (nd : nat) (proto : net_protocol) (net_dest ll_dest : list Z)
| ev_expired (i : nat) (fail : bool)
| ev_flush (nd : nat)
| ev_discard.

Section executions.
Context {W : Type} `{NeighbourTrace W}.

Definition apply_event (e : neighbour_event) (s : ncache) : ncache :=
  match e with
  | ev_tx iobuf nd proto net_dest net_source ll_source => (arp_tx iobuf nd proto net_dest net_source ll_source s).2
  | ev_arp iobuf nd => (arp_rx iobuf nd s).2
  | ev_define nd proto net_dest ll_dest => (neighbour_define nd proto net_dest ll_dest s).2
  | ev_expired i fail => match nc_neighbours s !! i with Some nb => if nb_timer nb then neighbour_expired i fail s else s | None => s end
  | ev_flush nd => neighbour_flush nd s
  | ev_discard => (neighbour_discard s).2
  end.

Definition run (es : list neighbour_event) (s : ncache) : ncache := foldl (fun s e => apply_event e s) s es.

(** The packets for a neighbour that an event hands to the cache: those for
    which there is an entry, or memory for one. *)
Definition accepts (k : nkey) (e : neighbour_event) (s : ncache) : list (list Z) :=
  match e with
  | ev_tx iobuf nd proto net_dest _ _ =>
    if decide (the_key nd proto net_dest = k) then
      match neighbour_find nd proto net_dest (nc_neighbours s) with Some _ => [iobuf] | None => if (alloc s).1 then [iobuf] else [] end
    else []
  | _ => []
  end.

Fixpoint accepted (k : nkey) (es : list neighbour_event) (s : ncache) : list (list Z) :=
  match es with [] => [] | e :: es => accepts k e s ++ accepted k es (apply_event e s) end.

(** The link-layer addresses that an event announces for a neighbour. *)
Definition announces (k : nkey) (e : neighbour_event) : list (list Z) :=
  match e with
  | ev_arp iobuf nd =>
    match arp_find_protocol (ar_pro iobuf) with
    | Some proto => if decide (the_key nd proto (drop (arp_sender_pa iobuf) iobuf) = k) then [field (arp_sender_ha iobuf) (nd_ll_addr_len nd) iobuf] else []
    | None => []
    end
  | ev_define nd proto net_dest ll_dest => if decide (the_key nd proto net_dest = k) then [take (nd_ll_addr_len nd) ll_dest] else []
  | _ => []
  end.

Definition announced (k : nkey) (es : list neighbour_event) : list (list Z) := concat (map (announces k) es).

(** The packets of a neighbour are told apart from others by [tag]. *)
Context (tag : list Z -> nkey).

Definition event_ok (e : neighbour_event) : Prop :=
  match e with
  | ev_tx iobuf nd proto net_dest _ _ => tag iobuf = the_key nd proto net_dest
  | ev_define nd _ _ ll_dest => (nd_ll_addr_len nd <= length ll_dest)%nat
  | _ => True
  end.

(** What has left the cache of the packets for a neighbour. *)
Definition leaves (k : nkey) (o : output_event) : list (list Z) :=
  match o with
  | out_sent iobuf _ proto _ => if decide (proto <> arp_protocol /\ tag iobuf = k) then [iobuf] else []
  | out_failed _ iobuf => if decide (tag iobuf = k) then [iobuf] else []
  end.

Definition gone (k : nkey) (out : list output_event) : list (list Z) := concat (map (leaves k) out).

(** What waits. *)
Definition waits (k : nkey) (nb : neighbour) : list (list Z) := if decide (key_of nb = k) then nb_tx_queue nb else [].
Definition waiting (k : nkey) (l : list neighbour) : list (list Z) := concat (map (waits k) l).

(** ** The invariant *)

Definition entry_ok (nb : neighbour) : Prop := Forall (fun p => tag p = key_of nb) (nb_tx_queue nb) /\ (nb_timer nb = false -> nb_tx_queue nb = []).

Definition cache_ok (l : list neighbour) : Prop := NoDup (map key_of l) /\ Forall entry_ok l.

Definition sent_ok (k : nkey) (announced : list (list Z)) (o : output_event) : Prop :=
  match o with out_sent iobuf _ proto ll_dest => proto <> arp_protocol -> tag iobuf = k -> ll_dest ∈ announced | out_failed _ _ => True end.

Definition known_ok (k : nkey) (announced : list (list Z)) (nb : neighbour) : Prop := key_of nb = k -> nb_timer nb = false -> ll_dest_of nb ∈ announced.

Context (k : nkey) (Hk : k.1.2 <> arp_protocol).

(** [known]: the entries whose addresses have been announced. *)
Definition inv (known l : list neighbour) (acc ann : list (list Z)) (w : W) : Prop :=
  cache_ok l /\ gone k (output w) ++ waiting k l = acc /\ Forall (known_ok k ann) known /\ Forall (sent_ok k ann) (output w).

Definition inv_of (acc ann : list (list Z)) (s : ncache) : Prop := inv (nc_neighbours s) (nc_neighbours s) acc ann (nc_world s).

Lemma gone_app out1 out2 : gone k (out1 ++ out2) = gone k out1 ++ gone k out2.
Proof. unfold gone. by rewrite map_app, concat_app. Qed.

Lemma waiting_app l1 l2 : waiting k (l1 ++ l2) = waiting k l1 ++ waiting k l2.
Proof. unfold waiting. by rewrite map_app, concat_app. Qed.

Lemma waiting_none l : k ∉ map key_of l -> waiting k l = [].
Proof.
  unfold waiting. induction l as [|nb l IH]; [done|]. cbn [map concat]. intros Hn. apply not_elem_of_cons in Hn as [H1 H2]. unfold waits at 1. rewrite decide_False by congruence. by apply IH.
Qed.

Lemma inv_ann known l acc ann ann' w : ann ⊆ ann' -> inv known l acc ann w -> inv known l acc ann' w.
Proof.
  intros Hs (Hc & Hl & Hkn & Hse). split_and!; [done|done| |]; (eapply Forall_impl; [eassumption|]); cbv beta.
  - intros nb Hnb E T. by apply Hs, Hnb.
  - intros [p nd proto d|] Ho; [|done]. intros E T. by apply Hs, Ho.
Qed.

Lemma inv_output known l acc ann w w' : output w' = output w -> inv known l acc ann w -> inv known l acc ann w'.
Proof. unfold inv. by intros ->. Qed.

(** ** Entries that go *)

(** What a loop over a queue gives to the device. *)
Lemma queue_output (f : W -> list Z -> W) (ev : list Z -> output_event) q kn ann w :
  (forall w p, output (f w p) = output w ++ [ev p]) -> Forall (fun p => leaves k (ev p) = (if decide (kn = k) then [p] else []) /\ sent_ok k ann (ev p)) q ->
  exists out, output (foldl f w q) = output w ++ out /\ gone k out = (if decide (kn = k) then q else []) /\ Forall (sent_ok k ann) out.
Proof.
  intros Hf Hq. revert w. induction Hq as [|p q [Hp Hs] Hq IH]; intros w; cbn [foldl].
  - exists []. rewrite app_nil_r. split_and!; [done|by case_decide|by apply Forall_nil_2].
  - destruct (IH (f w p)) as (out & -> & Hl & Ho). exists (ev p :: out). rewrite Hf, <- app_assoc. split_and!; [done| |by apply Forall_cons_2].
    change (gone k (ev p :: out)) with (leaves k (ev p) ++ gone k out). rewrite Hp, Hl. by case_decide.
Qed.

Lemma cache_ok_middle l1 nb l2 : cache_ok (l1 ++ nb :: l2) -> cache_ok (l1 ++ l2) /\ entry_ok nb /\ (key_of nb = k -> k ∉ map key_of (l1 ++ l2)).
Proof.
  intros [Hn Hf]. rewrite map_app in Hn. cbn [map] in Hn. apply Forall_app in Hf as [Hf1 Hf2]. apply Forall_cons in Hf2 as [Hnb Hf2]. rewrite <- Permutation_middle in Hn. apply NoDup_cons in Hn as [Hni Hn].
  split; [|split; [done|]].
  - split; [by rewrite map_app|by apply Forall_app].
  - intros <-. by rewrite map_app.
Qed.

Lemma waiting_middle l1 nb l2 : cache_ok (l1 ++ nb :: l2) -> waiting k (l1 ++ nb :: l2) = waits k nb ++ waiting k (l1 ++ l2).
Proof.
  intros Hc. destruct (cache_ok_middle _ _ _ Hc) as (_ & _ & Hn). change (nb :: l2) with ([nb] ++ l2). rewrite !waiting_app. change (waiting k [nb]) with (waits k nb ++ []). rewrite app_nil_r. unfold waits.
  case_decide as E; [|done]. specialize (Hn E). rewrite map_app in Hn. apply not_elem_of_app in Hn as [H1 H2]. by rewrite (waiting_none l1), (waiting_none l2) by done.
Qed.

Lemma destroy_inv l1 nb l2 acc ann rc w : inv (l1 ++ nb :: l2) (l1 ++ nb :: l2) acc ann w -> inv (l1 ++ l2) (l1 ++ l2) acc ann (neighbour_destroy nb rc w).
Proof.
  intros (Hc & Hl & Hkn & Hs). destruct (cache_ok_middle _ _ _ Hc) as (Hc' & [Hq _] & _). rewrite waiting_middle in Hl by done.
  destruct (queue_output (fun w iobuf => nd_tx_err (nb_netdev nb) iobuf rc w) (out_failed (nb_netdev nb)) (nb_tx_queue nb) (key_of nb) ann w) as (out & E & El & Es).
  { intros w' p. apply nd_tx_err_output. }
  { eapply Forall_impl; [exact Hq|]. cbv beta. intros p Hp. cbn [leaves sent_ok]. by rewrite Hp. }
  unfold inv, neighbour_destroy. rewrite E, gone_app, El. split_and!; [done| | |by apply Forall_app].
  - by rewrite <- app_assoc.
  - apply Forall_app in Hkn as [H1 H2]. apply Forall_cons in H2 as [_ H2]. by apply Forall_app.
Qed.

Lemma discard_inv acc ann s : inv_of acc ann s -> inv_of acc ann (neighbour_discard s).2.
Proof.
  destruct s as [l w]. unfold inv_of, neighbour_discard. cbn [nc_neighbours nc_world]. destruct l as [|nb l _] using rev_ind; [done|]. rewrite last_snoc, removelast_last. cbn [snd nc_neighbours nc_world].
  intros Hi. rewrite <- (app_nil_r l). by apply destroy_inv.
Qed.

Lemma alloc_inv acc ann s : inv_of acc ann s -> inv_of acc ann (alloc s).2.
Proof.
  intros Hi. unfold alloc. pose proof (nd_alloc_output (nc_world s)) as Ho. destruct (nd_alloc (nc_world s)) as [[n ok] w]. cbn [snd] in *.
  assert (inv_of acc ann (NCache (nc_neighbours s) w)) as Hi' by (by eapply inv_output). induction n as [|n IH]; [done|]. by apply discard_inv.
Qed.

Lemma flush_inv acc ann nd s : inv_of acc ann s -> inv_of acc ann (neighbour_flush nd s).
Proof.
  unfold neighbour_flush. destruct (nd_is_open nd (nc_world s)); [done|]. destruct s as [l w]. unfold inv_of. cbn [nc_neighbours nc_world]. revert w. induction l as [|nb l IH]; intros w Hi; [done|]. cbn [foldl]. apply IH. by apply (destroy_inv [] nb l).
Qed.

(** ** Entries that come, and move *)

Lemma find_some nd proto net_dest l nb l' :
  neighbour_find nd proto net_dest l = Some (nb, l') -> key_of nb = the_key nd proto net_dest /\ exists l1 l2, l = l1 ++ nb :: l2 /\ l' = l1 ++ l2.
Proof.
  revert nb l'. induction l as [|nb0 l IH]; intros nb l' E; [done|]. cbn [neighbour_find] in E. destruct (is_neighbour nd proto net_dest nb0) eqn:En.
  - simplify_eq. split; [|by exists [], l']. unfold is_neighbour in En. rewrite !andb_true_iff, !bool_decide_eq_true in En. destruct En as [[E1 E2] E3]. unfold key_of, the_key. by rewrite E1, E2, E3.
  - destruct (neighbour_find nd proto net_dest l) as [[found l0]|]; [|done]. simplify_eq. destruct (IH _ _ eq_refl) as (Ek & l1 & l2 & -> & ->). split; [done|]. by exists (nb0 :: l1), l2.
Qed.

Lemma find_none nd proto net_dest l : neighbour_find nd proto net_dest l = None -> the_key nd proto net_dest ∉ map key_of l.
Proof.
  induction l as [|nb l IH]; cbn [neighbour_find map]; [by intros _ ?%elem_of_nil|]. destruct (is_neighbour nd proto net_dest nb) eqn:En; [done|].
  destruct (neighbour_find nd proto net_dest l) as [[? ?]|]; [done|]. intros _. apply not_elem_of_cons. split; [|by apply IH]. intros E. apply not_true_iff_false in En. apply En.
  unfold is_neighbour. unfold key_of, the_key in E. injection E as -> -> E. by rewrite !bool_decide_true.
Qed.

(** The entry moves to the start. *)
Lemma move_inv l1 nb l2 acc ann w : inv (l1 ++ nb :: l2) (l1 ++ nb :: l2) acc ann w -> inv (nb :: l1 ++ l2) (nb :: l1 ++ l2) acc ann w.
Proof.
  intros (Hc & Hl & Hkn & Hs). unfold inv. rewrite <- Hl, (waiting_middle _ _ _ Hc). destruct Hc as [Hn Hf]. split_and!; [|done| |done].
  - unfold cache_ok. rewrite (Permutation_middle l1 l2 nb). done.
  - by rewrite (Permutation_middle l1 l2 nb).
Qed.

(** A new entry. *)
Lemma create_inv nb l acc ann w : inv l l acc ann w -> key_of nb ∉ map key_of l -> nb_tx_queue nb = [] -> inv l (nb :: l) acc ann w.
Proof.
  intros ([Hn Hf] & Hl & Hkn & Hs) Hni Hq. unfold inv. split_and!; [|rewrite <- Hl; unfold waiting; cbn [map concat]; unfold waits at 1; rewrite Hq; by case_decide|done|done].
  split; [by apply NoDup_cons|]. apply Forall_cons_2; [|done]. unfold entry_ok. by rewrite Hq.
Qed.

(** ** Packets that go *)

Lemma cache_ok_head nb nb' l : cache_ok (nb :: l) -> key_of nb' = key_of nb -> entry_ok nb' -> cache_ok (nb' :: l).
Proof. intros [Hn Hf] E He. split; [cbn [map] in *; by rewrite E|]. apply Forall_cons in Hf as [_ Hf]. by apply Forall_cons_2. Qed.

(** Only the entry itself has packets for its neighbour. *)
Lemma waiting_head nb l : cache_ok (nb :: l) -> waiting k (nb :: l) = waits k nb ++ waiting k l /\ (key_of nb = k -> waiting k l = []).
Proof. intros Hc. split; [done|]. intros E. destruct (cache_ok_middle [] nb l Hc) as (_ & _ & Hn). by apply waiting_none, Hn. Qed.

(** The address of a neighbour is announced: the queue goes there. *)
Lemma discovered_inv ll_dest nb l acc ann w :
  inv l (nb :: l) acc ann w -> (nd_ll_addr_len (nb_netdev nb) <= length ll_dest)%nat -> (key_of nb = k -> take (nd_ll_addr_len (nb_netdev nb)) ll_dest ∈ ann) ->
  let (nb', w') := neighbour_discovered ll_dest nb w in inv (nb' :: l) (nb' :: l) acc ann w'.
Proof.
  intros (Hc & Hl & Hkn & Hs) Hlen Hann. unfold neighbour_discovered. destruct (cache_ok_middle [] nb l Hc) as (_ & [Hq _] & _). destruct (waiting_head nb l Hc) as [Ew _]. rewrite Ew in Hl.
  match goal with |- context [foldl ?f w _] => destruct (queue_output f (fun p => out_sent p (nb_netdev nb) (nb_protocol nb) (take (nd_ll_addr_len (nb_netdev nb)) ll_dest)) (nb_tx_queue nb) (key_of nb) ann w) as (out & E & El & Es) end.
  { intros w' p. apply nd_net_tx_output. }
  { eapply Forall_impl; [exact Hq|]. cbv beta. intros p Hp. cbn [leaves sent_ok]. rewrite Hp. split; [|intros _ Ek; by apply Hann].
    destruct (decide (key_of nb = k)) as [Ek|Ek]; [|by rewrite decide_False by naive_solver]. rewrite decide_True; [done|]. split; [|done]. by rewrite <- Ek in Hk. }
  set (nb' := Neighbour _ _ _ _ _ _ false []). unfold inv. rewrite E, gone_app, El. change (waiting k (nb' :: l)) with (waits k nb' ++ waiting k l). assert (waits k nb' = []) as -> by (unfold waits; by destruct (decide (key_of nb' = k))).
  split_and!; [|by rewrite <- Hl, <- app_assoc| |by apply Forall_app].
  - eapply cache_ok_head; [exact Hc|done|]. by split; [apply Forall_nil_2|].
  - apply Forall_cons_2; [|done]. intros Ek _. unfold ll_dest_of, nb'. cbn [nb_netdev nb_ll_dest]. rewrite take_app_le by (rewrite length_take; lia). rewrite take_take, Nat.min_id. by apply Hann.
Qed.

(** A packet for a neighbour whose address is known. *)
Lemma send_inv iobuf ll_source nb l acc ann w :
  inv (nb :: l) (nb :: l) acc ann w -> nb_timer nb = false -> tag iobuf = key_of nb ->
  inv (nb :: l) (nb :: l) (acc ++ if decide (key_of nb = k) then [iobuf] else []) ann (nd_net_tx iobuf (nb_netdev nb) (nb_protocol nb) (ll_dest_of nb) ll_source w).2.
Proof.
  intros (Hc & Hl & Hkn & Hs) Ht Htag. unfold inv. rewrite nd_net_tx_output, gone_app. destruct (waiting_head nb l Hc) as [Ew Hnone]. destruct (cache_ok_middle [] nb l Hc) as (_ & [_ Hq] & _). specialize (Hq Ht).
  assert (waits k nb = []) as Ewn by (unfold waits; rewrite Hq; by case_decide). rewrite Ew, Ewn in *. cbn [app] in *. change (gone k [?o]) with (leaves k o ++ []). rewrite app_nil_r. cbn [leaves]. rewrite Htag. split_and!; [done| |done|].
  - destruct (decide (key_of nb = k)) as [Ek|Ek]; [|rewrite decide_False by naive_solver; by rewrite !app_nil_r].
    rewrite decide_True by (split; [by rewrite <- Ek in Hk|done]). by rewrite <- Hl, (Hnone Ek), !app_nil_r.
  - apply Forall_app. split; [done|]. apply Forall_cons_2; [|by apply Forall_nil_2]. cbn [sent_ok]. rewrite Htag. intros _ Ek. apply Forall_cons in Hkn as [Hnb _]. by apply Hnb.
Qed.

(** A packet that has to wait. *)
Lemma queue_inv iobuf nb l acc ann w :
  inv l (nb :: l) acc ann w -> nb_timer nb = true -> tag iobuf = key_of nb ->
  let nb' := set_tx_queue (nb_tx_queue nb ++ [iobuf]) nb in inv (nb' :: l) (nb' :: l) (acc ++ if decide (key_of nb = k) then [iobuf] else []) ann w.
Proof.
  intros (Hc & Hl & Hkn & Hs) Ht Htag nb'. unfold inv. destruct (waiting_head nb l Hc) as [Ew Hnone]. destruct (cache_ok_middle [] nb l Hc) as (_ & [Hq _] & _). split_and!; [| |apply Forall_cons_2; [|done]; intros _ Hf; cbn in Hf; congruence|done].
  - eapply cache_ok_head; [exact Hc|done|]. split; [|intros Hf; cbn in Hf; congruence]. apply Forall_app. split; [exact Hq|]. by apply Forall_cons_2, Forall_nil_2.
  - rewrite Ew in Hl. change (waiting k (nb' :: l)) with (waits k nb' ++ waiting k l). change (waits k nb') with (if decide (key_of nb = k) then nb_tx_queue nb ++ [iobuf] else []). unfold waits in Hl.
    destruct (decide (key_of nb = k)) as [Ek|Ek]; [|by rewrite app_nil_r]. rewrite (Hnone Ek), app_nil_r in *. by rewrite <- Hl, <- app_assoc.
Qed.

(** ** Events *)

Lemma inv_tail nb l acc ann w : inv (nb :: l) (nb :: l) acc ann w -> inv l (nb :: l) acc ann w.
Proof. intros (Hc & Hl & Hkn & Hs). apply Forall_cons in Hkn as [_ Hkn]. done. Qed.

Lemma found_inv nd proto net_dest acc ann s nb l :
  inv_of acc ann s -> neighbour_find nd proto net_dest (nc_neighbours s) = Some (nb, l) -> key_of nb = the_key nd proto net_dest /\ inv (nb :: l) (nb :: l) acc ann (nc_world s).
Proof. intros Hi Ef. destruct (find_some _ _ _ _ _ _ Ef) as (Ek & l1 & l2 & El & ->). split; [done|]. apply move_inv. by rewrite <- El. Qed.

Lemma discard_keys s key : key ∈ map key_of (nc_neighbours (neighbour_discard s).2) -> key ∈ map key_of (nc_neighbours s).
Proof.
  destruct s as [l w]. unfold neighbour_discard. cbn [nc_neighbours]. destruct l as [|nb l _] using rev_ind; [done|]. rewrite last_snoc, removelast_last. cbn [snd nc_neighbours]. rewrite map_app. intros Hx. apply elem_of_app. by left.
Qed.

(** An allocation does not make entries. *)
Lemma alloc_keys s key : key ∈ map key_of (nc_neighbours (alloc s).2) -> key ∈ map key_of (nc_neighbours s).
Proof. unfold alloc. destruct (nd_alloc (nc_world s)) as [[n ok] w]. cbn [snd]. induction n as [|n IH]; [done|]. intros Hx. by apply IH, discard_keys. Qed.

(** A new entry goes to the start of what the allocation has left. *)
Lemma created_inv nd proto net_dest acc ann s :
  inv_of acc ann s -> neighbour_find nd proto net_dest (nc_neighbours s) = None ->
  match neighbour_create nd proto net_dest s with
  | (None, s') => (alloc s).1 = false /\ inv_of acc ann s'
  | (Some nb, s') => (alloc s).1 = true /\ nb_netdev nb = nd /\ key_of nb = the_key nd proto net_dest /\ nb_tx_queue nb = [] /\
      forall nb', key_of nb' = key_of nb -> nb_tx_queue nb' = [] -> inv (nc_neighbours s') (nb' :: nc_neighbours s') acc ann (nc_world s')
  end.
Proof.
  intros Hi Ef. unfold neighbour_create. pose proof (alloc_inv _ _ _ Hi) as Hi'. pose proof (alloc_keys s) as Hsub. destruct (alloc s) as [[] s1]; cbn [fst snd] in *; [|done].
  split_and!; [done|done|done|done|]. intros nb' Ek Eq. apply create_inv; [done| |done]. rewrite Ek. intros Hx%Hsub. by apply (find_none _ _ _ _ Ef).
Qed.

Lemma tx_inv iobuf nd proto net_dest net_source ll_source acc ann s :
  inv_of acc ann s -> tag iobuf = the_key nd proto net_dest ->
  inv_of (acc ++ accepts k (ev_tx iobuf nd proto net_dest net_source ll_source) s) ann (arp_tx iobuf nd proto net_dest net_source ll_source s).2.
Proof.
  intros Hi Htag. unfold arp_tx, neighbour_tx. cbn [accepts]. destruct (neighbour_find nd proto net_dest (nc_neighbours s)) as [[nb l]|] eqn:Ef.
  - destruct (found_inv _ _ _ _ _ _ _ _ Hi Ef) as [Ek Hi']. cbn [nc_neighbours nc_world]. rewrite <- Ek in Htag |- *. assert (nb_netdev nb = nd /\ nb_protocol nb = proto) as [<- <-] by (unfold key_of, the_key in Ek; by simplify_eq).
    unfold neighbour_has_ll_dest. destruct (nb_timer nb) eqn:Et; cbn [negb].
    + by apply queue_inv; [apply inv_tail| |].
    + pose proof (send_inv iobuf ll_source _ _ _ _ _ Hi' Et Htag) as Hs. by destruct (nd_net_tx _ _ _ _ _ _) as [rc w].
  - pose proof (created_inv nd proto net_dest acc ann s Hi Ef) as Hc. destruct (neighbour_create nd proto net_dest s) as [[nb|] s']; cbn [fmap option_fmap option_map].
    + destruct Hc as (-> & _ & Ek & Eq & Hc). cbn [neighbour_has_ll_dest neighbour_discover nb_timer negb snd]. rewrite <- Ek in Htag |- *.
      apply (queue_inv iobuf (neighbour_discover arp_discovery net_source nb) (nc_neighbours s') acc ann (nc_world s')); [by apply Hc|done|done].
    + destruct Hc as [-> Hc]. destruct (decide _); by rewrite app_nil_r.
Qed.

Lemma update_inv nd proto net_dest ll_dest acc ann s :
  inv_of acc ann s -> (nd_ll_addr_len nd <= length ll_dest)%nat -> (the_key nd proto net_dest = k -> take (nd_ll_addr_len nd) ll_dest ∈ ann) ->
  inv_of acc ann (neighbour_update nd proto net_dest ll_dest s).2.
Proof.
  intros Hi Hlen Hann. unfold neighbour_update. destruct (neighbour_find nd proto net_dest (nc_neighbours s)) as [[nb l]|] eqn:Ef; [|done]. destruct (found_inv _ _ _ _ _ _ _ _ Hi Ef) as [Ek Hi']. rewrite <- Ek in Hann.
  assert (nb_netdev nb = nd) as <- by (unfold key_of, the_key in Ek; by simplify_eq). pose proof (discovered_inv ll_dest nb l acc ann (nc_world s) (inv_tail _ _ _ _ _ Hi') Hlen Hann) as Hd. by destruct (neighbour_discovered ll_dest nb (nc_world s)) as [nb' w'].
Qed.

Lemma define_inv nd proto net_dest ll_dest acc ann s :
  inv_of acc ann s -> (nd_ll_addr_len nd <= length ll_dest)%nat -> (the_key nd proto net_dest = k -> take (nd_ll_addr_len nd) ll_dest ∈ ann) ->
  inv_of acc ann (neighbour_define nd proto net_dest ll_dest s).2.
Proof.
  intros Hi Hlen Hann. destruct (neighbour_find nd proto net_dest (nc_neighbours s)) as [[nb l]|] eqn:Ef.
  { pose proof (update_inv nd proto net_dest ll_dest acc ann s Hi Hlen Hann) as Hu. unfold neighbour_update in Hu. unfold neighbour_define. rewrite Ef in *. cbn [nc_neighbours nc_world]. by destruct (neighbour_discovered ll_dest nb (nc_world s)). }
  unfold neighbour_define. rewrite Ef. pose proof (created_inv nd proto net_dest acc ann s Hi Ef) as Hc. destruct (neighbour_create nd proto net_dest s) as [[nb|] s']; [|by destruct Hc].
  destruct Hc as (_ & <- & Ek & Eq & Hc). rewrite <- Ek in Hann. pose proof (discovered_inv ll_dest nb _ acc ann _ (Hc nb eq_refl Eq) Hlen Hann) as Hd. by destruct (neighbour_discovered ll_dest nb (nc_world s')) as [nb' w'].
Qed.

(** ARP packets are not packets for a neighbour. *)
Lemma arp_packet_inv iobuf nd ll_dest ll_source l acc ann w : inv l l acc ann w -> inv l l acc ann (nd_net_tx iobuf nd arp_protocol ll_dest ll_source w).2.
Proof.
  intros (Hc & Hl & Hkn & Hs). unfold inv. rewrite nd_net_tx_output, gone_app. change (gone k [?o]) with (leaves k o ++ []). cbn [leaves]. rewrite decide_False by (by intros [[] _]). rewrite !app_nil_r.
  split_and!; [done|done|done|]. apply Forall_app. split; [done|]. apply Forall_cons_2; [by intros []|by apply Forall_nil_2].
Qed.

Lemma arp_tx_request_inv nd proto net_dest net_source acc ann s : inv_of acc ann s -> inv_of acc ann (arp_tx_request nd proto net_dest net_source s).2.
Proof.
  intros Hi. unfold arp_tx_request. pose proof (alloc_inv _ _ _ Hi) as Hi'. destruct (alloc s) as [[] s']; [|done]. cbn [snd] in Hi'.
  match goal with |- context [nd_net_tx ?p ?nd arp_protocol ?d ?src ?w] => pose proof (arp_packet_inv p nd d src _ _ _ _ Hi') as Hp; destruct (nd_net_tx p nd arp_protocol d src w) as [rc w'] end. done.
Qed.

Lemma expired_inv i fail acc ann s : inv_of acc ann s -> inv_of acc ann (apply_event (ev_expired i fail) s).
Proof.
  intros Hi. cbn [apply_event]. destruct (nc_neighbours s !! i) as [nb|] eqn:El; [|done]. destruct (nb_timer nb) eqn:Et; [|done]. unfold neighbour_expired. rewrite El. destruct fail.
  - unfold inv_of in *. cbn [nc_neighbours nc_world]. rewrite delete_take_drop. apply destroy_inv. by rewrite take_drop_middle.
  - replace (Neighbour (nb_netdev nb) (nb_protocol nb) (nb_net_dest nb) (nb_ll_dest nb) (nb_discovery nb) (nb_net_source nb) true (nb_tx_queue nb)) with nb by (destruct nb; cbn in *; by subst).
    rewrite list_insert_id by done. replace (NCache (nc_neighbours s) (nc_world s)) with s by (by destruct s). destruct (nb_discovery nb) as [[]|]; [|done]. by apply arp_tx_request_inv.
Qed.

Lemma arp_rx_inv iobuf nd acc ann s : inv_of acc ann s -> announces k (ev_arp iobuf nd) ⊆ ann -> inv_of acc ann (arp_rx iobuf nd s).2.
Proof.
  intros Hi Hann. unfold arp_rx. case_decide as Hlen; [done|]. cbn [announces] in Hann. destruct (arp_find_protocol (ar_pro iobuf)) as [proto|]; [|done]. destruct (decide (_ \/ _ \/ _)) as [Hf|Hf]; [done|].
  assert (inv_of acc ann (neighbour_update nd proto (drop (arp_sender_pa iobuf) iobuf) (drop (arp_sender_ha iobuf) iobuf) s).2) as Hu.
  { apply update_inv; [done| |].
    - rewrite length_drop. unfold arp_len, arp_sender_ha in *. lia.
    - intros Ek. rewrite decide_True in Hann by done. apply Hann, list_elem_of_singleton. done. }
  destruct (decide (ar_op iobuf <> ARPOP_REQUEST)); [done|]. destruct (negb _); [done|].
  match goal with |- context [nd_net_tx ?p ?nd arp_protocol ?d ?src ?w] => pose proof (arp_packet_inv p nd d src _ _ _ _ Hu) as Hp; destruct (nd_net_tx p nd arp_protocol d src w) as [rc w'] end. done.
Qed.

Lemma event_inv e acc ann s : event_ok e -> inv_of acc ann s -> inv_of (acc ++ accepts k e s) (ann ++ announces k e) (apply_event e s).
Proof.
  intros He Hi. assert (inv_of acc (ann ++ announces k e) s) as Hi' by (eapply inv_ann; [|exact Hi]; set_solver). destruct e as [iobuf nd proto net_dest net_source ll_source|iobuf nd|nd proto net_dest ll_dest|i fail|nd|]; cbn [event_ok] in He; [by apply tx_inv|..].
  all: cbn [accepts]; rewrite app_nil_r.
  - apply arp_rx_inv; [done|set_solver].
  - apply define_inv; [done|done|]. intros Ek. cbn [announces]. rewrite decide_True by done. set_solver.
  - by apply expired_inv.
  - by apply flush_inv.
  - by apply discard_inv.
Qed.

Lemma run_inv es acc ann s : Forall event_ok es -> inv_of acc ann s -> inv_of (acc ++ accepted k es s) (ann ++ announced k es) (run es s).
Proof.
  intros Hes. revert acc ann s. induction Hes as [|e es He Hes IH]; intros acc ann s Hi; [by rewrite !app_nil_r|]. cbn [accepted]. change (announced k (e :: es)) with (announces k e ++ announced k es). rewrite !app_assoc.
  by apply IH, event_inv.
Qed.

End executions.

(** ** ARP packets *)

Definition arp_packet (hrd pro op : Z) (sha spa tha tpa : list Z) : list Z := arphdr hrd pro (length sha) (length spa) op ++ sha ++ spa ++ tha ++ tpa.

(** What a receiver reads. *)
Lemma arp_packet_header hrd pro op (sha spa rest : list Z) :
  in_width 16 hrd -> in_width 16 pro -> in_width 16 op -> (length sha < 256)%nat -> (length spa < 256)%nat ->
  let p := arphdr hrd pro (length sha) (length spa) op ++ rest in
  ar_hrd p = hrd /\ ar_pro p = pro /\ ar_op p = op /\ ar_hln p = length sha /\ ar_pln p = length spa.
Proof.
  intros Hh Hp Ho Hs Hl p. split_and!; [exact (be16_value _ Hh)|exact (be16_value _ Hp)|exact (be16_value _ Ho)|..].
  - change (ar_hln p) with (Z.to_nat (u8 (Z.of_nat (length sha)))). rewrite wrap_small by zlia. lia.
  - change (ar_pln p) with (Z.to_nat (u8 (Z.of_nat (length spa)))). rewrite wrap_small by zlia. lia.
Qed.

Lemma field_at (a x rest : list Z) n len : n = length a -> len = length x -> field n len (a ++ x ++ rest) = x.
Proof. intros -> ->. unfold field. by rewrite drop_app_length, take_app_length. Qed.

Section answers.
Context {W : Type} `{NeighbourTrace W}.

Lemma arp_reply_packet nd hrd pro sha spa tha tpa :
  in_width 16 hrd -> in_width 16 pro -> (length sha < 256)%nat -> (length spa < 256)%nat -> length tha = length sha -> length tpa = length spa -> length (nd_ll_addr nd) = length sha ->
  arp_reply nd (arp_packet hrd pro ARPOP_REQUEST sha spa tha tpa) = arp_packet hrd pro ARPOP_REPLY (nd_ll_addr nd) tpa sha spa.
Proof.
  intros Hh Hp Hs Hl Eh El En. unfold arp_reply.
  assert (list_inserts 6 (be16 ARPOP_REPLY) (arp_packet hrd pro ARPOP_REQUEST sha spa tha tpa) = arp_packet hrd pro ARPOP_REPLY sha spa tha tpa) as ->
    by exact (inserts_middle (be16 hrd ++ be16 pro ++ [u8 (Z.of_nat (length sha)); u8 (Z.of_nat (length spa))]) (be16 ARPOP_REQUEST) (be16 ARPOP_REPLY) _ eq_refl).
  destruct (arp_packet_header hrd pro ARPOP_REQUEST sha spa (sha ++ spa ++ tha ++ tpa) Hh Hp ltac:(done) Hs Hl) as (_ & _ & _ & E1 & E2).
  destruct (arp_packet_header hrd pro ARPOP_REPLY sha spa (sha ++ spa ++ tha ++ tpa) Hh Hp ltac:(done) Hs Hl) as (_ & _ & _ & E3 & E4). fold (arp_packet hrd pro ARPOP_REQUEST sha spa tha tpa) in E1, E2.
  set (hdr := arphdr hrd pro (length sha) (length spa) ARPOP_REPLY) in *. change (arp_packet hrd pro ARPOP_REPLY sha spa tha tpa) with (hdr ++ sha ++ spa ++ tha ++ tpa). cbv zeta. rewrite E1, E2.
  unfold arp_target_ha, arp_sender_pa, arp_sender_ha. rewrite E3, E4. assert (8 = length hdr)%nat as E8 by done.
  rewrite (app_assoc sha), (field_at hdr (sha ++ spa) (tha ++ tpa)) by (done || by rewrite length_app).
  assert (field (8 + length sha + length spa) (length sha + length spa) (hdr ++ (sha ++ spa) ++ tha ++ tpa) = tha ++ tpa) as ->.
  { assert (hdr ++ (sha ++ spa) ++ tha ++ tpa = (hdr ++ sha ++ spa) ++ (tha ++ tpa) ++ []) as -> by (by rewrite app_nil_r, <- !app_assoc). apply field_at; rewrite !length_app; lia. }
  rewrite E8, inserts_middle by (rewrite !length_app; lia).
  assert (list_inserts (length hdr + length sha + length spa) (sha ++ spa) (hdr ++ (tha ++ tpa) ++ tha ++ tpa) = hdr ++ (tha ++ tpa) ++ sha ++ spa) as ->.
  { assert (hdr ++ (tha ++ tpa) ++ tha ++ tpa = (hdr ++ tha ++ tpa) ++ (tha ++ tpa) ++ []) as -> by (by rewrite app_nil_r, <- !app_assoc).
    replace (length hdr + length sha + length spa)%nat with (length (hdr ++ tha ++ tpa)) by (rewrite !length_app; lia). rewrite inserts_middle by (rewrite !length_app; lia). by rewrite app_nil_r, <- !app_assoc. }
  assert (ar_hln (hdr ++ (tha ++ tpa) ++ sha ++ spa) = length sha) as -> by (rewrite <- E3; done). rewrite take_ge by lia. rewrite <- (app_assoc tha), (inserts_middle hdr tha) by lia.
  unfold arp_packet, hdr. by rewrite En, El.
Qed.

(** Only the address itself is looked at. *)
Lemma neighbour_find_take nd proto net_dest l : neighbour_find nd proto net_dest l = neighbour_find nd proto (take (net_addr_len proto) net_dest) l.
Proof. induction l as [|nb l IH]; [done|]. cbn [neighbour_find]. rewrite IH. unfold is_neighbour. by rewrite take_take, Nat.min_id. Qed.

Lemma neighbour_update_take nd proto net_dest ll_dest s :
  neighbour_update nd proto net_dest ll_dest s = neighbour_update nd proto (take (net_addr_len proto) net_dest) (take (nd_ll_addr_len nd) ll_dest) s.
Proof.
  unfold neighbour_update. rewrite <- neighbour_find_take. destruct (neighbour_find nd proto net_dest (nc_neighbours s)) as [[nb l]|] eqn:Ef; [|done]. destruct (find_some _ _ _ _ _ _ Ef) as (Ek & _).
  assert (nb_netdev nb = nd) as <- by (unfold key_of, the_key in Ek; by simplify_eq). unfold neighbour_discovered. by rewrite take_take, Nat.min_id.
Qed.

(** Reception of a packet for a known protocol. *)
Lemma arp_rx_packet nd proto hrd pro op sha spa tha tpa s :
  in_width 16 hrd -> in_width 16 pro -> in_width 16 op -> (length sha < 256)%nat -> (length spa < 256)%nat -> length tha = length sha -> length tpa = length spa ->
  nd_ll_proto nd = hrd -> nd_ll_addr_len nd = length sha -> net_addr_len proto = length spa -> arp_find_protocol pro = Some proto ->
  let p := arp_packet hrd pro op sha spa tha tpa in
  let s1 := (neighbour_update nd proto spa sha s).2 in
  arp_rx p nd s =
    if decide (op <> ARPOP_REQUEST) then (Ok tt, s1) else if negb (arp_check nd proto tpa (nc_world s1)) then (Ok tt, s1) else
    let reply := arp_reply nd p in
    let (rc, w) := nd_net_tx reply nd arp_protocol (field (arp_target_ha reply) (ar_hln reply) reply) (nd_ll_addr nd) (nc_world s1) in (rc, NCache (nc_neighbours s1) w).
Proof.
  intros Hh Hp Ho Hs Hl Eh El Ehrd Elen Eplen Ef p s1. destruct (arp_packet_header hrd pro op sha spa (sha ++ spa ++ tha ++ tpa) Hh Hp Ho Hs Hl) as (E1 & E2 & E3 & E4 & E5). fold (arp_packet hrd pro op sha spa tha tpa) in E1, E2, E3, E4, E5. fold p in E1, E2, E3, E4, E5.
  assert (length p = 8 + 2 * (length sha + length spa))%nat as Elp by (unfold p, arp_packet, arphdr, be16; rewrite !length_app; cbn [length]; lia).
  unfold arp_rx, arp_len, arp_target_pa, arp_target_ha, arp_sender_pa, arp_sender_ha. rewrite E1, E2, E3, E4, E5. rewrite (decide_False (P := _ \/ _)) by lia. rewrite Ef. rewrite (decide_False (P := _ \/ _ \/ _)) by (intros [?|[?|?]]; congruence).
  assert (field (8 + length sha + length spa + length sha) (net_addr_len proto) p = tpa) as ->.
  { unfold p, arp_packet. set (hdr := arphdr _ _ _ _ _). assert (hdr ++ sha ++ spa ++ tha ++ tpa = (hdr ++ sha ++ spa ++ tha) ++ tpa ++ []) as -> by (by rewrite app_nil_r, <- !app_assoc). apply field_at; rewrite ?length_app; cbn [length]; [|congruence]. change (length hdr) with 8%nat. lia. }
  rewrite (neighbour_update_take nd proto (drop _ p)). assert (take (nd_ll_addr_len nd) (drop 8 p) = sha) as -> by (apply (field_at (arphdr hrd pro (length sha) (length spa) op)); [done|congruence]).
  assert (take (net_addr_len proto) (drop (8 + length sha) p) = spa) as ->.
  { unfold p, arp_packet. rewrite app_assoc. apply (field_at (arphdr hrd pro (length sha) (length spa) op ++ sha)); [by rewrite length_app|congruence]. }
  done.
Qed.

Lemma alloc_plenty s : (nd_alloc (nc_world s)).1 = (0%nat, true) -> exists w, alloc s = (true, NCache (nc_neighbours s) w) /\ output w = output (nc_world s).
Proof. intros E. unfold alloc. pose proof (nd_alloc_output (nc_world s)) as Ho. destruct (nd_alloc (nc_world s)) as [[n ok] w]. cbn [fst snd] in *. simplify_eq. by exists w. Qed.

(** An update does not forget what was sent. *)
Lemma neighbour_update_output nd proto net_dest ll_dest s : exists out, output (nc_world (neighbour_update nd proto net_dest ll_dest s).2) = output (nc_world s) ++ out.
Proof.
  unfold neighbour_update. destruct (neighbour_find _ _ _ _) as [[nb l]|]; [|exists []; by rewrite app_nil_r]. unfold neighbour_discovered. cbn [snd nc_world]. generalize (nc_world s). induction (nb_tx_queue nb) as [|p q IH]; intros w; cbn [foldl]; [exists []; by rewrite app_nil_r|].
  match goal with |- context [foldl _ ?w' q] => destruct (IH w') as [out ->] end. rewrite nd_net_tx_output, <- app_assoc. eauto.
Qed.

End answers.

(** Two devices on a link that can ask for addresses of a protocol. *)
Definition arp_link {W : Type} `{NeighbourEnv W} (a b : nat) (proto : net_protocol) : Prop :=
  nd_ll_proto b = nd_ll_proto a /\ in_width 16 (nd_ll_proto a) /\ nd_ll_addr_len b = nd_ll_addr_len a /\ (nd_ll_addr_len a < 256)%nat /\
  length (nd_ll_addr a) = nd_ll_addr_len a /\ length (nd_ll_addr b) = nd_ll_addr_len b /\
  in_width 16 (net_proto proto) /\ (net_addr_len proto < 256)%nat /\ arp_find_protocol (net_proto proto) = Some proto.

Section resolution.
Context {W : Type} `{NeighbourTrace W} (a b : nat) (proto : net_protocol) (src dest : list Z).
Context (Hlink : arp_link a b proto) (Hsrc : length src = net_addr_len proto) (Hdest : length dest = net_addr_len proto) (Halloc : forall w, (nd_alloc w).1 = (0%nat, true)).

Definition request_packet : list Z := arp_packet (nd_ll_proto a) (net_proto proto) ARPOP_REQUEST (nd_ll_addr a) src (replicate (nd_ll_addr_len a) 0) dest.
Definition reply_packet : list Z := arp_packet (nd_ll_proto a) (net_proto proto) ARPOP_REPLY (nd_ll_addr b) dest (nd_ll_addr a) src.

(** The entry that asks, and the one that was told. *)
Definition asking (p : list Z) : neighbour := Neighbour a proto dest (replicate MAX_LL_ADDR_LEN 0) (Some arp_discovery) src true [p].
Definition told (nb : neighbour) : Prop := key_of nb = (a, proto, dest) /\ nb_timer nb = false /\ ll_dest_of nb = nd_ll_addr b.

Lemma find_first nb l : key_of nb = (a, proto, dest) -> neighbour_find a proto dest (nb :: l) = Some (nb, l).
Proof. intros E. unfold key_of in E. injection E as E1 E2 E3. cbn [neighbour_find]. unfold is_neighbour. rewrite E1, E2, E3, take_ge by lia. by rewrite !bool_decide_true. Qed.

Lemma asking_tx p ll_source s : neighbour_find a proto dest (nc_neighbours s) = None -> exists w, arp_tx p a proto dest src ll_source s = (Ok tt, NCache (asking p :: nc_neighbours s) w) /\ output w = output (nc_world s).
Proof.
  intros Hn. unfold arp_tx, neighbour_tx, neighbour_create. rewrite Hn. destruct (alloc_plenty s (Halloc _)) as (w & -> & Ew). exists w. split; [|done]. cbn [fmap option_fmap option_map neighbour_has_ll_dest neighbour_discover nb_timer negb].
  unfold set_tx_queue, neighbour_discover, asking. cbn. by rewrite !take_ge by lia.
Qed.

Lemma asking_expired p l w : exists w', neighbour_expired 0 false (NCache (asking p :: l) w) = NCache (asking p :: l) w' /\ output w' = output w ++ [out_sent request_packet a arp_protocol (nd_ll_broadcast a)].
Proof.
  destruct Hlink as (_ & _ & _ & _ & Ea & _). unfold neighbour_expired. cbn [nc_neighbours lookup list_lookup insert list_insert asking nb_discovery]. unfold arp_tx_request. destruct (alloc_plenty (NCache (asking p :: l) w) (Halloc _)) as (w1 & E1 & Ew).
  unfold asking in *. cbn [nb_netdev nb_protocol nb_net_dest nb_ll_dest nb_net_source nb_tx_queue nc_neighbours nc_world] in *. rewrite E1. cbn [nc_neighbours nc_world]. rewrite (take_ge (nd_ll_addr a)), (take_ge src), (take_ge dest) by lia.
  match goal with |- context [nd_net_tx ?q a arp_protocol ?d ?sr w1] => pose proof (nd_net_tx_output q a arp_protocol d sr w1) as Ho; destruct (nd_net_tx q a arp_protocol d sr w1) as [rc w2] end.
  exists w2. split; [done|]. cbn [snd] in Ho. rewrite Ho, Ew. unfold request_packet, arp_packet. by rewrite Ea, Hsrc.
Qed.

Lemma request_answered s :
  (forall w, arp_check b proto dest w = true) -> exists out, output (nc_world (arp_rx request_packet b s).2) = output (nc_world s) ++ out ++ [out_sent reply_packet b arp_protocol (nd_ll_addr a)].
Proof.
  intros Hcheck. destruct Hlink as (Ehrd & Hh & Elen & Hs & Ea & Eb & Hp & Hl & Ef). unfold request_packet.
  rewrite (arp_rx_packet b proto) by (done || rewrite ?length_replicate; lia || congruence). rewrite decide_False by (by intros []). rewrite Hcheck. cbn [negb]. rewrite arp_reply_packet by (done || rewrite ?length_replicate; lia || congruence). fold reply_packet.
  destruct (neighbour_update_output b proto src (nd_ll_addr a) s) as [out Eout].
  assert (field (arp_target_ha reply_packet) (ar_hln reply_packet) reply_packet = nd_ll_addr a) as ->.
  { destruct (arp_packet_header (nd_ll_proto a) (net_proto proto) ARPOP_REPLY (nd_ll_addr b) dest (nd_ll_addr b ++ dest ++ nd_ll_addr a ++ src) Hh Hp) as (_ & _ & _ & E1 & E2); [done|lia|lia|].
    unfold arp_target_ha, arp_sender_pa, arp_sender_ha. change (arphdr _ _ _ _ _ ++ _) with reply_packet in E1, E2. rewrite E1, E2. unfold reply_packet, arp_packet. set (hdr := arphdr _ _ _ _ _). rewrite !app_assoc, <- (app_assoc _ (nd_ll_addr a)).
    apply field_at; [|lia]. rewrite !length_app. change (length hdr) with 8%nat. lia. }
  match goal with |- context [nd_net_tx ?q b arp_protocol ?d ?sr ?w1] => pose proof (nd_net_tx_output q b arp_protocol d sr w1) as Ho; destruct (nd_net_tx q b arp_protocol d sr w1) as [rc w2] end.
  exists out. cbn [snd nc_world] in *. by rewrite Ho, Eout, <- app_assoc.
Qed.

Lemma reply_received p l w : exists nb w', arp_rx reply_packet a (NCache (asking p :: l) w) = (Ok tt, NCache (nb :: l) w') /\ told nb /\ output w' = output w ++ [out_sent p a proto (nd_ll_addr b)].
Proof.
  destruct Hlink as (Ehrd & Hh & Elen & Hs & Ea & Eb & Hp & Hl & Ef). unfold reply_packet. rewrite (arp_rx_packet a proto) by (done || lia || congruence). rewrite decide_True by done.
  unfold neighbour_update. cbn [nc_neighbours nc_world]. rewrite find_first by done. unfold neighbour_discovered. cbn [asking nb_tx_queue foldl nb_netdev nb_protocol nb_net_dest nb_ll_dest nb_discovery nb_net_source snd]. rewrite (take_ge (nd_ll_addr b)) by lia.
  eexists _, _. split; [done|]. split; [|apply nd_net_tx_output]. split_and!; [done|done|]. unfold ll_dest_of. cbn [nb_netdev nb_ll_dest]. by rewrite take_app_length' by lia.
Qed.

Lemma told_tx q ll_source nb l w :
  told nb -> exists w', (arp_tx q a proto dest src ll_source (NCache (nb :: l) w)).2 = NCache (nb :: l) w' /\ output w' = output w ++ [out_sent q a proto (nd_ll_addr b)].
Proof.
  intros (Ek & Et & El). unfold arp_tx, neighbour_tx. cbn [nc_neighbours nc_world]. rewrite (find_first nb l Ek). unfold neighbour_has_ll_dest. rewrite Et. cbn [negb nc_world nc_neighbours]. rewrite El.
  pose proof (nd_net_tx_output q a proto (nd_ll_addr b) ll_source w) as Ho. destruct (nd_net_tx q a proto (nd_ll_addr b) ll_source w) as [rc w']. by exists w'.
Qed.

(** Every later packet goes to the other host at once. *)
Lemma told_run qs ll_source nb l w :
  told nb -> output (nc_world (run (map (fun q => ev_tx q a proto dest src ll_source) qs) (NCache (nb :: l) w))) = output w ++ map (fun q => out_sent q a proto (nd_ll_addr b)) qs.
Proof.
  intros Ht. revert w. induction qs as [|q qs IH]; intros w; [by rewrite app_nil_r|]. cbn [map run foldl apply_event]. destruct (told_tx q ll_source nb l w Ht) as (w' & -> & Ew).
  fold (run (map (fun q => ev_tx q a proto dest src ll_source) qs) (NCache (nb :: l) w')). rewrite IH, Ew. by rewrite <- app_assoc.
Qed.

End resolution.

(** ** The properties *)

(** C14: in every execution the packets for a neighbour leave the cache in the order
    in which they were accepted, each once, to the device or as failed, and the
    others wait; the device is given only link-layer addresses that were
    announced for the neighbour; and nothing waits for a neighbour whose address
    is known. *)
Theorem neighbour_packets_in_order {W : Type} `{NeighbourTrace W} tag k es w :
  output w = [] -> k.1.2 <> arp_protocol -> Forall (event_ok tag) es ->
  let s := run es (NCache [] w) in
  gone tag k (output (nc_world s)) ++ waiting k (nc_neighbours s) = accepted k es (NCache [] w) /\
  Forall (sent_ok tag k (announced k es)) (output (nc_world s)) /\
  Forall (fun nb => neighbour_has_ll_dest nb = true -> nb_tx_queue nb = []) (nc_neighbours s).
Proof.
  intros Ho Hk Hes s. destruct (run_inv tag k Hk es [] [] (NCache [] w) Hes) as ([_ Hc] & Hl & _ & Hs).
  { unfold inv_of, inv. cbn [nc_world nc_neighbours]. rewrite Ho. split_and!; [split; [apply NoDup_nil_2|by apply Forall_nil_2]|done|by apply Forall_nil_2|by apply Forall_nil_2]. }
  split_and!; [done|done|]. eapply Forall_impl; [exact Hc|]. cbv beta. intros nb [_ Hq] Hd. apply Hq. unfold neighbour_has_ll_dest in Hd. by destruct (nb_timer nb).
Qed.

(** C15: a packet for an unknown neighbour waits; the request that follows is
    answered by the host that has the address, and its answer sends the packet to
    that host, as does every later transmission, however many follow.  Memory is
    plentiful: no allocation fails or discards an entry. *)
Theorem arp_resolves {W : Type} `{NeighbourTrace W} a b proto p qs src dest sa sb :
  arp_link a b proto -> length src = net_addr_len proto -> length dest = net_addr_len proto ->
  (forall w, (nd_alloc w).1 = (0%nat, true)) -> (forall w, arp_check b proto dest w = true) -> neighbour_find a proto dest (nc_neighbours sa) = None ->
  exists request reply s1 s2 s3 out,
    arp_tx p a proto dest src (nd_ll_addr a) sa = (Ok tt, s1) /\ output (nc_world s1) = output (nc_world sa) /\
    neighbour_expired 0 false s1 = s2 /\ output (nc_world s2) = output (nc_world s1) ++ [out_sent request a arp_protocol (nd_ll_broadcast a)] /\
    output (nc_world (arp_rx request b sb).2) = output (nc_world sb) ++ out ++ [out_sent reply b arp_protocol (nd_ll_addr a)] /\
    arp_rx reply a s2 = (Ok tt, s3) /\ output (nc_world s3) = output (nc_world s2) ++ [out_sent p a proto (nd_ll_addr b)] /\
    output (nc_world (run (map (fun q => ev_tx q a proto dest src (nd_ll_addr a)) qs) s3)) = output (nc_world s3) ++ map (fun q => out_sent q a proto (nd_ll_addr b)) qs.
Proof.
  intros Hlink Hsrc Hdest Halloc Hcheck Hnone. destruct (asking_tx a proto src dest Hsrc Hdest Halloc p (nd_ll_addr a) sa Hnone) as (w1 & E1 & O1). destruct (asking_expired a b proto src dest Hlink Hsrc Hdest Halloc p (nc_neighbours sa) w1) as (w2 & E2 & O2).
  destruct (request_answered a b proto src dest Hlink Hsrc Hdest sb Hcheck) as (out & O3). destruct (reply_received a b proto src dest Hlink Hsrc Hdest p (nc_neighbours sa) w2) as (nb & w3 & E4 & Ht & O4).
  eexists _, _, _, _, _, out. split_and!; [exact E1|exact O1|exact E2|exact O2|exact O3|exact E4|exact O4|]. by apply told_run.
Qed.

(** Without memory for an entry the packet is lost: it is neither sent, nor
    reported as failed, nor freed. *)
Lemma neighbour_tx_lost {W : Type} `{NeighbourEnv W} iobuf nd proto net_dest net_source ll_source s :
  neighbour_find nd proto net_dest (nc_neighbours s) = None -> (alloc s).1 = false -> arp_tx iobuf nd proto net_dest net_source ll_source s = (Err ENOMEM, (alloc s).2).
Proof. intros Hn Ha. unfold arp_tx, neighbour_tx, neighbour_create. rewrite Hn. destruct (alloc s) as [ok s']. cbn [fst] in Ha. by subst ok. Qed.

(** ** An instance: Ethernet and IPv4, with a record of what is sent *)

Definition example_ipv4 : net_protocol := NetProtocol 0x0800 4.

#[export] Instance ethernet_env : NeighbourEnv (list output_event) := {
  nd_ll_addr nd := [2; 0; 0; 0; 0; Z.of_nat nd];
  nd_ll_broadcast _ := replicate 6 255;
  nd_ll_proto _ := 1;
  nd_ll_addr_len _ := 6%nat;
  nd_is_open _ _ := true;
  nd_net_tx iobuf nd proto ll_dest _ w := (Ok tt, w ++ [out_sent iobuf nd proto ll_dest]);
  nd_tx_err nd iobuf _ w := w ++ [out_failed nd iobuf];
  nd_alloc w := (0%nat, true, w);
  arp_net_protocols := [example_ipv4];
  arp_check nd _ addr _ := bool_decide (addr = [10; 0; 0; Z.of_nat nd]);
}.

#[export] Instance ethernet_trace : NeighbourTrace (list output_event).
Proof. by refine {| output := fun w => w |}. Defined.

(** Two packets wait, a reply releases them, a third one follows. *)
Definition example_events : list neighbour_event :=
  [ev_tx [1] 1 example_ipv4 [10; 0; 0; 2] [10; 0; 0; 1] []; ev_expired 0 false; ev_tx [2] 1 example_ipv4 [10; 0; 0; 2] [10; 0; 0; 1] [];
   ev_arp (arp_packet 1 0x0800 ARPOP_REPLY [2; 0; 0; 0; 0; 2] [10; 0; 0; 2] [2; 0; 0; 0; 0; 1] [10; 0; 0; 1]) 1; ev_tx [3] 1 example_ipv4 [10; 0; 0; 2] [10; 0; 0; 1] []].

Definition example_tag (p : list Z) : nkey := (1%nat, example_ipv4, [10; 0; 0; 2]).

Lemma neighbour_packets_in_order_witness :
  gone example_tag (example_tag []) (output (nc_world (run example_events (NCache [] [])))) ++ waiting (example_tag []) (nc_neighbours (run example_events (NCache [] []))) = [[1]; [2]; [3]] /\
  announced (example_tag []) example_events = [[2; 0; 0; 0; 0; 2]].
Proof.
  split; [|vm_compute; reflexivity].
  destruct (@neighbour_packets_in_order (list output_event) ethernet_env ethernet_trace example_tag (example_tag []) example_events [] eq_refl ltac:(discriminate)) as [E _].
  - repeat (apply Forall_cons_2; [exact I || reflexivity|]). apply Forall_nil_2.
  - rewrite E. vm_compute. reflexivity.
Defined.

(** Host 1 asks for the address of host 2. *)
Lemma arp_resolves_witness :
  exists request reply s1 s2 s3,
    arp_tx [7] 1 example_ipv4 [10; 0; 0; 2] [10; 0; 0; 1] (nd_ll_addr 1) (NCache [] []) = (Ok tt, s1) /\ neighbour_expired 0 false s1 = s2 /\
    output (nc_world s2) = [out_sent request 1 arp_protocol (replicate 6 255)] /\ output (nc_world (arp_rx request 2 (NCache [] [])).2) = [out_sent reply 2 arp_protocol (nd_ll_addr 1)] /\
    arp_rx reply 1 s2 = (Ok tt, s3) /\ output (nc_world s3) = output (nc_world s2) ++ [out_sent [7] 1 example_ipv4 (nd_ll_addr 2)] /\
    output (nc_world (run (map (fun q => ev_tx q 1 example_ipv4 [10; 0; 0; 2] [10; 0; 0; 1] (nd_ll_addr 1)) [[8]; [9]; [10]]) s3)) =
      output (nc_world s3) ++ [out_sent [8] 1 example_ipv4 (nd_ll_addr 2); out_sent [9] 1 example_ipv4 (nd_ll_addr 2); out_sent [10] 1 example_ipv4 (nd_ll_addr 2)].
Proof.
  destruct (@arp_resolves (list output_event) ethernet_env ethernet_trace 1 2 example_ipv4 [7] [[8]; [9]; [10]] [10; 0; 0; 1] [10; 0; 0; 2] (NCache [] []) (NCache [] [])) as (request & reply & s1 & s2 & s3 & out & E1 & O1 & E2 & O2 & O3 & E4 & O4 & O5).
  - unfold arp_link. cbn. unfold in_width. repeat split; lia.
  - reflexivity.
  - reflexivity.
  - reflexivity.
  - reflexivity.
  - reflexivity.
  - exists request, reply, s1, s2, s3. rewrite O1 in O2. cbn in O2. assert (out = []) as ->.
    { vm_compute in E1. injection E1 as <-. vm_compute in E2. subst s2. injection O2 as <-. vm_compute in O3. destruct out as [|o out]; [reflexivity|]. destruct out; discriminate. }
    repeat split; assumption.
Defined.
